(* ===== verification/_CoqProject ===== *)
-Q . S2P
Prelude.v
Bytes.v
Sha256.v
Xxhash.v
Xheap.v
Xpipe.v
Xline.v
Lines.v
Xformat.v
Avl.v
AvlShape.v
AvlBalance.v
AvlTree.v
Xtree.v
XtreeMap.v
Channel.v
Stream.v
Sender.v
Receiver.v
Node.v
Protocol.v
Delivery.v
Timing.v
Messenger.v
Peers.v
Routing.v
Heaplet.v
Xmalloc.v
XmallocPage.v
XmallocCut.v
XmallocLists.v
XmallocHeap.v
XmallocStart.v
XmallocOps.v
XmallocAlign.v
XmallocSpec.v
XmallocLeak.v
XmallocFaults.v
Files.v
Xlio.v
XlioRun.v
Transfer.v
Lending.v
Upload.v
StoreDemo.v
UploadRun.v
Download.v
FileCopy.v
Exchange.v
Offer.v
Xltp.v
Serving.v
XltpDemo.v
Handshake.v
Requests.v
XltpFaults.v
XltpStart.v
