(* ===== verification/Prelude.v ===== *)
(** * wenas: a verification library for a peer-to-peer storage program in C

    ** The program

    wenas moves files between peers over UDP.  Its own code is in [src/src]: a
    messenger that gives its clients reliable, ordered message streams
    ([xnet/xmsger.c]), the self-describing documents that the messages carry
    ([xnet/xline.h]), a transfer protocol and a file store above them
    ([xnet/xltp.c], [xnet/xlio.c]), and the containers, hashes and utilities
    they use ([xnet], [xlib]).  [xapi] wraps the operating system.

    A channel of the messenger cuts a message (a frame of [xline.h]) into
    packets of 1280 bytes, numbers them modulo 2^16, keeps them in a ring until
    the peer acknowledges them, sends them again when a timer in the heap of
    [xheap.h] expires, and on the other side puts them back in order and into a
    frame.  The loop of the messenger hands each datagram to the channel it
    belongs to; channels and peers are looked up in the trees of [avlmini.c].
    Threads pass work to each other through the pipe of [xpipe.h].  Prefix
    trees ([xtree.h]) and the tables of [xtable.c] map keys to tasks and files.

    ** The files

    Each file names the C file it models; every definition keeps the name of
    its C function where it has one, and the loops of a function are the
    Fixpoints before it.

    - Prelude: machine integers, memory regions, tactics, generic lemmas.
    - Bytes: [mcopy], [mcompare], [slength], ... of [xnet/xmalloc.c].
    - Sha256: [xlib/xsha256.c], and FIPS 180-4 as its specification.
    - Xxhash: [xlib/xxhash.c], and the stripe algorithm as its specification.
    - Xheap: [xnet/xheap.h], and a priority queue as its specification.
    - Xpipe: [xnet/xpipe.h]; a FIFO queue as its specification, and one reader
      and one writer thread interleaved byte by byte.
    - Xline: [xnet/xline.h].  Lines: documents as its specification.  Xformat:
      printing a document.
    - Avl: [xlib/avlmini.c] over a store of nodes.  AvlShape: zippers and the
      local changes of links.  AvlBalance: heights.  AvlTree: the operations.
    - Xtree: [xnet/xtree.h] over a store of nodes.  XtreeMap: a map as its
      specification.
    - Channel: the channel functions of [xnet/xmsger.c].  Stream: the packets of
      a sequence of messages, as the specification of one direction.  Sender,
      Receiver: the invariants of the two sides and that every function keeps
      them.  Node: a whole channel end.  Protocol: two ends, their clients and a
      network that loses, duplicates and reorders, as a step relation with its
      invariant.  Delivery: what follows for the clients.  Timing: the two
      estimators and the timeouts.
    - Messenger: the rest of [xnet/xmsger.c]: peers, list of channels, commands
      and loop, on top of Channel and Avl.  Peers: list and tree hold the same
      channels.  Routing: what peers and clients may rely on.
    - Heaplet: memory as a map of bytes, a logic of separation for it on top of
      Iris's proof mode, and computations that read and write it.  Xmalloc: the
      allocator of [xnet/xmalloc.c].  XmallocPage, XmallocCut, XmallocLists,
      XmallocHeap: the invariants of the blocks of a page (and freeing), of
      cutting, of the lists of waiting blocks, of the pools.  XmallocStart,
      XmallocOps, XmallocAlign: the first call and the requests.  XmallocSpec: a
      map from addresses to contents as the specification.  XmallocLeak: the
      search for leaks.  XmallocFaults: where requests go wrong.
    - Files: the file functions and the directory scanner of [xapi/xapi.c], over
      the class [Uv] of the libuv calls they make; [Posix], what those promise
      about regular files, and a file system in memory that keeps the promises.
      Xlio: the file store of [xnet/xlio.c] over Messenger, Lines and Files.
      XlioRun: how to reason about its computations.  Transfer: cutting files
      into parts and putting them together, as the specification of a transfer.
      Lending: the ring of frames of a stream.  Upload, UploadRun: the messages
      of an uploader and its turns.  Download: the messages of a downloader.
      FileCopy: both ends.  Exchange, Offer: the lists that the two ends exchange
      before that.  StoreDemo: a small store for the witnesses.
    - Xltp: the protocol of [xnet/xltp.c] over Xlio, Messenger and Xtree.
      Serving: making a stream for a request.  Handshake: requests that are
      served and answers that are taken, on both sides.  Requests: from the call
      of a client to the open channel.  XltpFaults: requests that are refused,
      and the end.  XltpStart: the table of calls.  XltpDemo: a small protocol
      for the witnesses.

    ** How the code is modelled

    Integers are [Z], reduced at their width where the code computes at that
    width.  A region of memory is the list of its bytes, a structure a record,
    and structures that point to each other live in a store ([gmap positive]).
    State is passed explicitly.  [None] is a fault: an access outside its region
    or through a dangling pointer, a division by zero, or, where a function takes
    fuel, a loop that does not end within it; so a theorem that a call gives
    [Some] says that the code terminates and stays within its memory.  Fuel is
    the number of nodes, or of bytes and packets left, plus one (for the blocks of
    a page, its size over 32); the theorems show that it is enough.  In Xmalloc
    memory is shared: a computation ([Heaplet.M]) takes and gives the bytes of the
    process, and [None] is an access to an address that is not mapped.  In Xlio
    a computation ([Xlio.M]) passes the state of the store and can end at the
    label [XClean]: [None] is still a fault, [Some (s, None)] the jump with what
    has been done before it.  Memory allocation is a parameter where its failure
    or the address it gives matters.  What is not under [src/] (the C library,
    sockets, clocks) is an argument: [Protocol] takes the times and the
    identifiers as inputs of its steps.

    ** The theorems

    - Messenger (Delivery): messages arrive in order, once and unchanged; one
      reported as sent has arrived; windows, rings and queues stay within
      their bounds; no handler faults whatever valid packets the network
      delivers and in whatever order; when everything is acknowledged,
      everything has been handed over.  All of this is about a network that
      loses, duplicates and reorders but keeps to [Protocol.expected]: a datagram
      arrives before 2^15 later packets, the range in which 16-bit serial numbers
      can be compared, and a final datagram (type RES) does not arrive at an end
      that has no channel.  The code does not see to the second:
      [final_ack_confirms_lost] takes a reachable state, lets such a datagram and
      the acknowledgement of it arrive, and finds messages confirmed that nobody
      has got.  The proofs go by refinement of both sides to the packet stream
      and by rule induction over [Protocol].
    - Messenger as a whole (Routing): a datagram goes to the one channel it
      belongs to, the choice of a channel number ends, forged requests fault.
    - Timing: the bounds of the estimators, and the inputs on which they fail.
    - Hashes: the code computes the published functions, however it is fed.
    - Containers: pipe, heap, balanced tree and prefix tree refine a queue, a
      priority queue, a sorted list and a map, with the shapes their
      invariants need; and the operations that do not (removal from a heap,
      deletion of a prefix, the bounded walks).
    - Allocator: from the first call on the requests refine a map from addresses
      to contents, whatever the locks of other threads answer; programs that ask,
      read and write find in their blocks what they have put there; a leak is reported exactly when there is one; a failed [mmap] is
      fatal later.  The proofs are in separation logic, and [wp_run_whole] turns
      them into statements about runs.
    - File store (UploadRun, FileCopy): an uploader that is asked for files
      sends all of them, whatever the messenger reports meanwhile; handled in
      order, its messages make the same files at the downloader; and the lists
      that go before ask for exactly what is missing, except for empty files.
      No handler fails or faults on the way.  The proofs refine both ends to
      Transfer with postconditions of single handlers, and the turns by induction
      over the parts that are left.  That the messages arrive in order is what Delivery
      shows of the messenger below.
    - Protocol (Requests, Handshake): a client's call opens a channel on which its
      request waits; the peer serves it, making an uploader or a downloader that
      becomes the stream of the channel, and accepts; the acceptance starts the
      other end, which asks for the list with which Exchange and Offer begin.
      XltpFaults: a request that cannot be served ends in the use of a frame that
      has been freed.
    - Documents: whatever is built is read back, by position and by key; and
      the inputs on which building or reading goes wrong.

    ** Not modelled

    The vendored libuv, the wrappers of [xapi] for threads, sockets and clocks,
    each a call of libuv or the C library without a state of its own, logging
    and backtraces, the command line programs in [app], [main.c] and
    [main.cpp], and [xnet/xalloc.c], [task.c] and [task.h], which are not
    compiled into the program.  Threads inside a call of the allocator: a call
    is one step, the locks that others hold its input.  The blocking wrappers of
    the pipe wait on a mutex and a condition variable of libuv.  The tables of
    [xtable.c] and the identifiers of [uuid.c] have no user in the program.  Of
    [xltp_create] the pipe, the threads and the socket that it makes.

    Where the model is less than the code: [Posix] takes paths as names of files,
    one each, so aliases such as a//b, links and other processes that change the
    files are excluded; [__fs_file_write] passes all of its data, where the code
    has an [unsigned int] for the length (messages are far below 2^32);
    [Channel.xchannel_create] makes the channel after its allocations have
    succeeded, and [Messenger.create_channel] takes care of those that fail; and
    the buffer of a frame ends at its size, although the block that holds it can
    have up to 7 bytes of padding behind that. *)

From stdpp Require Export base tactics option numbers list list_numbers gmap.
From Stdlib Require Export ZArith Lia.

#[global] Open Scope Z_scope.

(** ** Machine integers *)

(** An unsigned [w]-bit integer is a [Z] in [[0, 2^w)]; every arithmetic result
    of the C code at that width is reduced by [wrap w]. *)
Definition wrap (w x : Z) : Z := x mod 2 ^ w.
Definition u8 (x : Z) : Z := wrap 8 x.
Definition u16 (x : Z) : Z := wrap 16 x.
Definition u32 (x : Z) : Z := wrap 32 x.
Definition u64 (x : Z) : Z := wrap 64 x.

(** The two's complement reading of a [w]-bit pattern. *)
Definition swrap (w x : Z) : Z := (x + 2 ^ (w - 1)) mod 2 ^ w - 2 ^ (w - 1).
Definition s8 (x : Z) : Z := swrap 8 x.
Definition s32 (x : Z) : Z := swrap 32 x.
Definition s64 (x : Z) : Z := swrap 64 x.

(** A byte, and a region of memory as the list of its bytes. *)
Definition is_byte (b : Z) : Prop := 0 <= b < 256.
Abbreviation bytes := (list Z) (only parsing).
Abbreviation is_bytes := (Forall is_byte).

(** ** Memory regions

    A C access outside its region is undefined behaviour: the accessors return
    [None] there, and [None] is the fault of every model of this library. *)
Definition rd {A} (m : list A) (i : Z) : option A :=
  if decide (0 <= i) then m !! Z.to_nat i else None.

Definition wr {A} (m : list A) (i : Z) (x : A) : option (list A) :=
  if decide (0 <= i < Z.of_nat (length m)) then Some (<[Z.to_nat i := x]> m) else None.

(** [len] elements of [m] from [off] on. *)
Definition rd_range {A} (m : list A) (off len : Z) : option (list A) :=
  if decide (0 <= off /\ 0 <= len /\ off + len <= Z.of_nat (length m))
  then Some (take (Z.to_nat len) (drop (Z.to_nat off) m)) else None.

(** Overwrite the elements of [m] from [off] on with [bs]. *)
Definition wr_range {A} (m : list A) (off : Z) (bs : list A) : option (list A) :=
  if decide (0 <= off /\ off + Z.of_nat (length bs) <= Z.of_nat (length m))
  then Some (take (Z.to_nat off) m ++ bs ++ drop (Z.to_nat off + length bs) m) else None.

(** ** Little-endian words *)

Fixpoint le_bytes (n : nat) (x : Z) : list Z :=
  match n with
  | O => []
  | S n' => u8 x :: le_bytes n' (Z.shiftr x 8)
  end.

Fixpoint of_le_bytes (bs : list Z) : Z :=
  match bs with
  | [] => 0
  | b :: bs' => Z.lor b (Z.shiftl (of_le_bytes bs') 8)
  end.

(** ** Automation *)

Create HintDb wenas.
Create Rewrite HintDb wrapped.

(** Split the conjunctions of the goal and close the arithmetic ones. *)
Ltac split_lia := repeat split; try lia.

(** [lia] with quotients and remainders by constants. *)
Ltac dlia := zify; Z.to_euclidean_division_equations; lia.

(** Reduce a [decide] whose answer [lia] knows. *)
Ltac decide_lia :=
  repeat match goal with
  | |- context [ @decide ?P ?d ] =>
      first [ rewrite (@decide_True _ P d) by lia | rewrite (@decide_False _ P d) by lia ]
  end.

(** Run the option monad one step in a hypothesis. *)
Ltac simp_bind H :=
  repeat match type of H with
  | (?e ≫= _) = Some _ =>
      let E := fresh "E" in destruct e eqn:E; simpl in H; [ | discriminate H ]
  end.

(** ** Wrapping *)

Lemma wrap_range w x : 0 <= w -> 0 <= wrap w x < 2 ^ w.
Proof. intros. unfold wrap. apply Z.mod_pos_bound. lia. Qed.

Lemma wrap_small w x : 0 <= x < 2 ^ w -> wrap w x = x.
Proof. apply Z.mod_small. Qed.

Lemma wrap_wrap w x : wrap w (wrap w x) = wrap w x.
Proof. apply Z.mod_mod_divide. reflexivity. Qed.

Lemma wrap_add_l w x y : wrap w (wrap w x + y) = wrap w (x + y).
Proof. apply Zplus_mod_idemp_l. Qed.

Lemma wrap_add_r w x y : wrap w (x + wrap w y) = wrap w (x + y).
Proof. apply Zplus_mod_idemp_r. Qed.

Lemma wrap_land w x : 0 <= w -> wrap w x = Z.land x (Z.ones w).
Proof. intros. unfold wrap. by rewrite Z.land_ones. Qed.

Lemma u8_range x : 0 <= u8 x < 256.
Proof. change 256 with (2 ^ 8). by apply wrap_range. Qed.
Lemma u16_range x : 0 <= u16 x < 2 ^ 16.
Proof. by apply wrap_range. Qed.
Lemma u32_range x : 0 <= u32 x < 2 ^ 32.
Proof. by apply wrap_range. Qed.
Lemma u64_range x : 0 <= u64 x < 2 ^ 64.
Proof. by apply wrap_range. Qed.
Lemma u8_byte x : is_byte (u8 x).
Proof. apply u8_range. Qed.

Lemma u16_small x : 0 <= x < 2 ^ 16 -> u16 x = x.
Proof. apply (wrap_small 16). Qed.
Lemma u32_small x : 0 <= x < 2 ^ 32 -> u32 x = x.
Proof. apply (wrap_small 32). Qed.
Lemma u64_small x : 0 <= x < 2 ^ 64 -> u64 x = x.
Proof. apply (wrap_small 64). Qed.
Lemma u8_small x : is_byte x -> u8 x = x.
Proof. apply (wrap_small 8). Qed.

Lemma u16_add_l x y : u16 (u16 x + y) = u16 (x + y).
Proof. apply (wrap_add_l 16). Qed.
Lemma u16_add_r x y : u16 (x + u16 y) = u16 (x + y).
Proof. apply (wrap_add_r 16). Qed.
Lemma u32_add_l x y : u32 (u32 x + y) = u32 (x + y).
Proof. apply (wrap_add_l 32). Qed.
Lemma u32_add_r x y : u32 (x + u32 y) = u32 (x + y).
Proof. apply (wrap_add_r 32). Qed.
Lemma u64_add_l x y : u64 (u64 x + y) = u64 (x + y).
Proof. apply (wrap_add_l 64). Qed.
Lemma u64_add_r x y : u64 (x + u64 y) = u64 (x + y).
Proof. apply (wrap_add_r 64). Qed.

#[export] Hint Rewrite u16_add_l u16_add_r u32_add_l u32_add_r u64_add_l u64_add_r : wrapped.
#[export] Hint Resolve u8_range u16_range u32_range u64_range u8_byte : wenas.

(** ** Bits *)

Lemma bits_above w x i : 0 <= x < 2 ^ w -> w <= i -> Z.testbit x i = false.
Proof.
  intros Hx Hi. assert (0 <= w) by (destruct (decide (0 <= w)); [done|];
    rewrite Z.pow_neg_r in Hx; lia).
  rewrite <- (Z.mod_small x (2 ^ w)) by done. by apply Z.mod_pow2_bits_high.
Qed.

Lemma lor_shiftl_add a b n : 0 <= n -> 0 <= a < 2 ^ n -> Z.lor a (Z.shiftl b n) = a + b * 2 ^ n.
Proof.
  intros Hn Ha.
  assert (Hd : Z.land a (Z.shiftl b n) = 0).
  { apply Z.bits_inj_iff'. intros i Hi. rewrite Z.land_spec, Z.bits_0.
    destruct (decide (n <= i)).
    - by rewrite (bits_above n a i).
    - rewrite Z.shiftl_spec_low by lia. apply andb_false_r. }
  rewrite <- (Z.lxor_lor _ _ Hd), <- Z.add_nocarry_lxor, Z.shiftl_mul_pow2; done.
Qed.

Lemma lor_add_low hi lo n : 0 <= n -> 0 <= lo < 2 ^ n -> Z.lor (hi * 2 ^ n) lo = hi * 2 ^ n + lo.
Proof.
  intros. rewrite Z.lor_comm, <- Z.shiftl_mul_pow2, lor_shiftl_add by done.
  rewrite Z.shiftl_mul_pow2 by done. lia.
Qed.

Lemma le_bytes_length n x : length (le_bytes n x) = n.
Proof. revert x. induction n; intros; simpl; auto. Qed.

Lemma le_bytes_is_bytes n x : is_bytes (le_bytes n x).
Proof. revert x. induction n; intros; simpl; constructor; auto with wenas. Qed.

Lemma of_le_bytes_cons b bs :
  is_byte b -> of_le_bytes (b :: bs) = b + of_le_bytes bs * 256.
Proof. intros Hb. simpl. by rewrite (lor_shiftl_add b _ 8). Qed.

Lemma of_le_bytes_range bs :
  is_bytes bs -> 0 <= of_le_bytes bs < 2 ^ (8 * Z.of_nat (length bs)).
Proof.
  induction 1 as [|b bs Hb Hbs IH]; [done|].
  rewrite of_le_bytes_cons by done. unfold is_byte in Hb. cbn [length].
  replace (8 * Z.of_nat (S (length bs))) with (8 * Z.of_nat (length bs) + 8) by lia.
  rewrite Z.pow_add_r by lia. lia.
Qed.

(** Decoding an encoding truncates to the width of the encoding. *)
Lemma of_le_bytes_le_bytes n x :
  of_le_bytes (le_bytes n x) = wrap (8 * Z.of_nat n) x.
Proof.
  revert x. induction n as [|n IH]; intros x; cbn [le_bytes].
  { unfold wrap. simpl. by rewrite Z.mod_1_r. }
  rewrite of_le_bytes_cons, IH by auto with wenas.
  replace (8 * Z.of_nat (S n)) with (8 + 8 * Z.of_nat n) by lia.
  unfold u8, wrap. rewrite Z.pow_add_r, Z.rem_mul_r by lia.
  rewrite Z.shiftr_div_pow2 by lia. lia.
Qed.

(** Encoding a decoding gives back the bytes. *)
Lemma le_bytes_of_le_bytes bs :
  is_bytes bs -> le_bytes (length bs) (of_le_bytes bs) = bs.
Proof.
  induction 1 as [|b bs Hb Hbs IH]; [done|]. cbn [length le_bytes].
  rewrite of_le_bytes_cons by done. unfold is_byte in Hb. f_equal.
  - unfold u8, wrap. rewrite Z_mod_plus_full. by apply Z.mod_small.
  - rewrite Z.shiftr_div_pow2 by lia. change (2 ^ 8) with 256.
    rewrite Z.div_add, Z.div_small by lia. done.
Qed.

(** ** Regions *)

Lemma rd_range_spec {A} (m : list A) off len l :
  rd_range m off len = Some l <->
  0 <= off /\ 0 <= len /\ off + len <= Z.of_nat (length m)
  /\ l = take (Z.to_nat len) (drop (Z.to_nat off) m).
Proof. unfold rd_range. case_decide as Hd; split; [intros [= <-]; tauto|by intros (?&?&?&->)|done|tauto]. Qed.

Lemma rd_range_length {A} (m : list A) off len l :
  rd_range m off len = Some l -> Z.of_nat (length l) = len.
Proof. intros (?&?&?&->)%rd_range_spec. rewrite length_take, length_drop. lia. Qed.

Lemma rd_range_app {A} (a b c : list A) off len :
  off = Z.of_nat (length a) -> len = Z.of_nat (length b) ->
  rd_range (a ++ b ++ c) off len = Some b.
Proof.
  intros -> ->. unfold rd_range. rewrite !length_app. decide_lia.
  by rewrite !Nat2Z.id, drop_app_length, take_app_length.
Qed.

Lemma rd_range_prefix {A} (m : list A) len :
  0 <= len <= Z.of_nat (length m) -> rd_range m 0 len = Some (take (Z.to_nat len) m).
Proof. intros. unfold rd_range. by decide_lia. Qed.

Lemma wr_range_app {A} (a b b' c : list A) off :
  off = Z.of_nat (length a) -> length b' = length b ->
  wr_range (a ++ b ++ c) off b' = Some (a ++ b' ++ c).
Proof.
  intros -> Hl. unfold wr_range. rewrite !length_app, Hl. decide_lia.
  rewrite Nat2Z.id, take_app_length. do 3 f_equal.
  by rewrite <- drop_drop, drop_app_length, drop_app_length.
Qed.

Lemma wr_range_length {A} (m : list A) off bs m' :
  wr_range m off bs = Some m' -> length m' = length m.
Proof.
  unfold wr_range. case_decide; [|done]. intros [= <-].
  rewrite !length_app, length_take, length_drop. lia.
Qed.

Lemma wr_length {A} (m : list A) i x m' : wr m i x = Some m' -> length m' = length m.
Proof. unfold wr. case_decide; [|done]. intros [= <-]. apply length_insert. Qed.

Lemma wr_app {A} (a c : list A) x y i :
  i = Z.of_nat (length a) -> wr (a ++ x :: c) i y = Some (a ++ y :: c).
Proof.
  intros ->. unfold wr. rewrite length_app. simpl. decide_lia.
  rewrite Nat2Z.id, <- (Nat.add_0_r (length a)), insert_app_r. done.
Qed.

Lemma rd_app {A} (a c : list A) x i :
  i = Z.of_nat (length a) -> rd (a ++ x :: c) i = Some x.
Proof.
  intros ->. unfold rd. decide_lia. rewrite Nat2Z.id, lookup_app_r by lia.
  by rewrite Nat.sub_diag.
Qed.

(** A list split at [n]. *)
Lemma split_at {A} (l : list A) n :
  (n <= length l)%nat -> exists a b, l = a ++ b /\ length a = n.
Proof.
  intros. exists (take n l), (drop n l). rewrite take_drop, length_take. split; [done|lia].
Qed.

Lemma Some_pair {A B} (a a' : A) (b b' : B) : a = a' -> b = b' -> Some (a, b) = Some (a', b').
Proof. by intros -> ->. Qed.
Lemma Some_triple {A B C} (a a' : A) (b b' : B) (c c' : C) :
  a = a' -> b = b' -> c = c' -> Some (a, b, c) = Some (a', b', c').
Proof. by intros -> -> ->. Qed.

(** Reading after a write. *)
Lemma rd_is_Some {A} (m : list A) i :
  0 <= i < Z.of_nat (length m) -> exists x, rd m i = Some x.
Proof. intros. unfold rd. decide_lia. apply lookup_lt_is_Some_2. lia. Qed.

Lemma rd_Some_range {A} (m : list A) i x : rd m i = Some x -> 0 <= i < Z.of_nat (length m).
Proof. unfold rd. case_decide; [|done]. intros ?%lookup_lt_Some. lia. Qed.

Lemma wr_is_Some {A} (m : list A) i x :
  0 <= i < Z.of_nat (length m) -> exists m', wr m i x = Some m'.
Proof. intros. unfold wr. decide_lia. eauto. Qed.

Lemma wr_is_Some_rd {A} (m m' : list A) i x : wr m i x = Some m' -> exists y, rd m i = Some y.
Proof. unfold wr. case_decide; [|done]. intros _. by apply rd_is_Some. Qed.

Lemma rd_wr {A} (m m' : list A) i j x :
  wr m i x = Some m' -> rd m' j = if decide (i = j) then Some x else rd m j.
Proof.
  unfold wr, rd. case_decide; [|done]. intros [= <-]. repeat case_decide; try done; subst.
  - apply list_lookup_insert_eq. lia.
  - apply list_lookup_insert_ne. lia.
  - lia.
Qed.

Lemma rd_nat {A} (m : list A) (i : nat) : rd m (Z.of_nat i) = m !! i.
Proof. unfold rd. rewrite decide_True by lia. by rewrite Nat2Z.id. Qed.

Lemma rd_wr_range {A} (m m' : list A) off bs j :
  wr_range m off bs = Some m' ->
  rd m' j = if decide (off <= j < off + Z.of_nat (length bs)) then rd bs (j - off) else rd m j.
Proof.
  unfold wr_range. case_decide as Hb; [|done]. intros [= <-]. unfold rd.
  destruct (decide (0 <= j)); [|repeat case_decide; done || lia].
  case_decide as Hj.
  - rewrite decide_True by lia. rewrite lookup_app_r by (rewrite length_take; lia).
    rewrite length_take, lookup_app_l by lia. f_equal. lia.
  - destruct (decide (j < off)).
    + rewrite lookup_app_l by (rewrite length_take; lia). rewrite lookup_take_lt by lia. done.
    + rewrite lookup_app_r by (rewrite length_take; lia). rewrite length_take, lookup_app_r by lia.
      rewrite lookup_drop. f_equal. lia.
Qed.

Lemma rd_rd_range {A} (m l : list A) off len j :
  rd_range m off len = Some l ->
  rd l j = if decide (0 <= j < len) then rd m (off + j) else None.
Proof.
  intros (Ho & Hl & Hb & ->)%rd_range_spec. unfold rd.
  destruct (decide (0 <= j)); [|repeat case_decide; done || lia].
  destruct (decide (j < len)).
  - rewrite !decide_True by lia. rewrite lookup_take_lt by lia. rewrite lookup_drop. f_equal. lia.
  - rewrite decide_False by lia. rewrite lookup_take_ge by lia. done.
Qed.

Lemma rd_range_is_Some {A} (m : list A) off len :
  0 <= off -> 0 <= len -> off + len <= Z.of_nat (length m) -> exists l, rd_range m off len = Some l.
Proof. intros. unfold rd_range. decide_lia. eauto. Qed.

Lemma wr_range_is_Some {A} (m : list A) off bs :
  0 <= off -> off + Z.of_nat (length bs) <= Z.of_nat (length m) ->
  exists m', wr_range m off bs = Some m'.
Proof. intros. unfold wr_range. decide_lia. eauto. Qed.

(** Two regions of one length are equal when all their cells are. *)
Lemma list_eq_rd {A} (l l' : list A) :
  (forall j, 0 <= j -> rd l j = rd l' j) -> l = l'.
Proof.
  intros H. apply list_eq. intros i. specialize (H (Z.of_nat i)).
  rewrite !rd_nat in H. apply H. lia.
Qed.

Lemma rd_app_l {A} (a b : list A) i : i < Z.of_nat (length a) -> rd (a ++ b) i = rd a i.
Proof. intros. unfold rd. case_decide; [|done]. apply lookup_app_l. lia. Qed.

Lemma rd_app_r {A} (a b : list A) i :
  Z.of_nat (length a) <= i -> rd (a ++ b) i = rd b (i - Z.of_nat (length a)).
Proof.
  intros. unfold rd. rewrite !decide_True by lia. rewrite lookup_app_r by lia. f_equal. lia.
Qed.

Lemma rd_take {A} (l : list A) n i :
  rd (take n l) i = if decide (i < Z.of_nat n) then rd l i else None.
Proof.
  unfold rd. repeat case_decide; try done; try lia.
  - apply lookup_take_lt. lia.
  - apply lookup_take_ge. lia.
Qed.

Lemma rd_drop {A} (l : list A) n i : 0 <= i -> rd (drop n l) i = rd l (Z.of_nat n + i).
Proof. intros. unfold rd. rewrite !decide_True by lia. rewrite lookup_drop. f_equal. lia. Qed.

Lemma rd_None {A} (l : list A) i : Z.of_nat (length l) <= i -> rd l i = None.
Proof. intros. unfold rd. case_decide; [|done]. apply lookup_ge_None. lia. Qed.

(** A region read or written in two parts. *)
Lemma rd_range_split {A} (m l : list A) off a b :
  0 <= a -> 0 <= b -> rd_range m off (a + b) = Some l ->
  exists l1 l2, l = l1 ++ l2 /\ rd_range m off a = Some l1 /\ rd_range m (off + a) b = Some l2.
Proof.
  intros Ha Hb (Ho & _ & Hl & ->)%rd_range_spec. do 2 eexists.
  split; [|split; apply rd_range_spec; split_and!; try reflexivity; lia].
  rewrite (Z2Nat.inj_add off), <- drop_drop, take_take_drop by lia. f_equal. lia.
Qed.

Lemma wr_range_split {A} (m m' l1 l2 : list A) off :
  wr_range m off (l1 ++ l2) = Some m' ->
  exists m1, wr_range m off l1 = Some m1 /\ wr_range m1 (off + Z.of_nat (length l1)) l2 = Some m'.
Proof.
  unfold wr_range. rewrite length_app. case_decide as Hd; [|done]. intros [= <-].
  rewrite decide_True by lia. eexists. split; [done|].
  rewrite !length_app, length_take, length_drop. rewrite decide_True by lia. f_equal.
  assert (Hn : Z.to_nat (off + Z.of_nat (length l1)) = (Z.to_nat off + length l1)%nat) by lia.
  rewrite Hn, !(app_assoc (take (Z.to_nat off) m) l1).
  set (a := take (Z.to_nat off) m ++ l1) in *.
  assert (Ha : length a = (Z.to_nat off + length l1)%nat)
    by (unfold a; rewrite length_app, length_take; lia).
  rewrite <- Ha, take_app_length, drop_app_ge, drop_drop by lia.
  unfold a. rewrite <- !app_assoc. do 4 f_equal. fold a. lia.
Qed.

Lemma wr_range_nil' {A} (m : list A) off :
  wr_range m off [] = if decide (0 <= off /\ off <= Z.of_nat (length m)) then Some m else None.
Proof.
  unfold wr_range. simpl. rewrite Z.add_0_r. case_decide; [|done].
  by rewrite Nat.add_0_r, take_drop.
Qed.

Lemma wr_single {A} (m : list A) i x : wr_range m i [x] = wr m i x.
Proof.
  unfold wr_range, wr. simpl. repeat case_decide; try lia; [|done]. f_equal.
  rewrite insert_take_drop by lia. do 3 f_equal. lia.
Qed.

Lemma rd_single {A} (m : list A) i x : rd_range m i 1 = Some [x] -> rd m i = Some x.
Proof. intros H. pose proof (rd_rd_range _ _ _ _ 0 H) as E. simpl in E. by rewrite Z.add_0_r in E. Qed.

Lemma first_difference (a b : list Z) :
  length a = length b -> a ≠ b ->
  exists p x y ta tb, a = p ++ x :: ta /\ b = p ++ y :: tb /\ x ≠ y.
Proof.
  revert b. induction a as [|x a IH]; intros [|y b] Hl Hne; simpl in Hl; try done.
  destruct (decide (x = y)) as [->|Hxy].
  - destruct (IH b) as (p & u & v & ta & tb & -> & -> & Huv); [lia|congruence|].
    by exists (y :: p), u, v, ta, tb.
  - by exists [], x, y, a, b.
Qed.

(** ** Record update

    [r <| f := v |>] is the record [r] with field [f] set to [v].  A record
    type opts in with an instance of [Settable], its eta expansion. *)
Class Settable (R : Type) := eta : R -> R.
Class Setter {R T : Type} (proj : R -> T) := set_field : (T -> T) -> R -> R.
Arguments set_field {R T} proj {_} _ _ /.

Ltac find_setter :=
  match goal with
  | |- @Setter ?R ?T ?proj =>
      let inst := constr:(_ : Settable R) in
      let e := eval hnf in inst in
      let e' := eval pattern proj in e in
      match e' with
      | ?g _ => exact (fun (f : T -> T) (r : R) => ltac:(
                  let t := eval cbv beta in (g (fun x => f (proj x)) r) in exact t))
      end
  end.
#[export] Hint Extern 0 (Setter _) => find_setter : typeclass_instances.

#[warnings="-postfix-notation-not-level-1"]
Notation "r <| f := v |>" := (set_field f (fun _ => v) r)
  (at level 12, f at next level, left associativity, format "r  <| f  :=  v |>").
#[warnings="-postfix-notation-not-level-1"]
Notation "r <| f ; g := v |>" := (set_field f (set_field g (fun _ => v)) r)
  (at level 12, f at next level, g at next level, left associativity).
#[warnings="-postfix-notation-not-level-1"]
Notation "r <| f ; g ; h := v |>" := (set_field f (set_field g (set_field h (fun _ => v))) r)
  (at level 12, f at next level, g at next level, h at next level, left associativity).

(** Indices of a ring that are less than a turn apart are distinct. *)
Lemma mod_inj n a b : 0 < n -> Z.abs (a - b) < n -> a mod n = b mod n -> a = b.
Proof.
  intros Hn Hab E. assert ((a - b) mod n = 0) as H.
  { rewrite Zminus_mod, E, Z.sub_diag. by apply Z.mod_0_l; lia. }
  apply Z.mod_divide in H as [m Hm]; [|lia]. assert (m = 0) by nia. nia.
Qed.

Lemma mod_turn a n : (a + n) mod n = a mod n.
Proof. rewrite <- (Z.mul_1_l n) at 1. apply Z_mod_plus_full. Qed.

(** Two wrapped counters less than 2^16 apart. *)
Lemma u16_diff a b : 0 <= a - b < 2 ^ 16 -> u16 (u16 a - u16 b) = a - b.
Proof. intros H. unfold u16, wrap. rewrite <- Zminus_mod. by apply Z.mod_small. Qed.

Lemma u16_diff_neg a b : - 2 ^ 16 <= a - b < 0 -> u16 (u16 a - u16 b) = a - b + 2 ^ 16.
Proof.
  intros H. unfold u16, wrap. rewrite <- Zminus_mod.
  symmetry. apply (Z.mod_unique_pos _ _ (-1)); lia.
Qed.

Lemma u16_inj a b : - 2 ^ 16 < a - b < 2 ^ 16 -> u16 a = u16 b -> a = b.
Proof. intros H E. apply (mod_inj (2 ^ 16)); [lia|lia|exact E]. Qed.

(** Masking a wrapped counter with a ring length of [2 ^ k]. *)
Lemma u16_land_ones x k : 0 <= k <= 16 -> Z.land (u16 x) (2 ^ k - 1) = x mod 2 ^ k.
Proof.
  intros Hk. rewrite Z.sub_1_r, <- Z.ones_equiv, Z.land_ones by lia.
  unfold u16, wrap. apply Z.mod_mod_divide. exists (2 ^ (16 - k)).
  rewrite <- Z.pow_add_r by lia. f_equal. lia.
Qed.

Lemma wr_id {A} (m : list A) i x : rd m i = Some x -> wr m i x = Some m.
Proof.
  intros H. pose proof (rd_Some_range _ _ _ H). unfold rd, wr in *.
  rewrite decide_True in H by lia. rewrite decide_True by lia. f_equal. by apply list_insert_id.
Qed.

Lemma u16_sub_r a b : u16 (a - u16 b) = u16 (a - b).
Proof. apply Zminus_mod_idemp_r. Qed.

Lemma u16_sub_l a b : u16 (u16 a - b) = u16 (a - b).
Proof. apply Zminus_mod_idemp_l. Qed.

Lemma u16_eq_iff pos x : 0 <= pos < 2 ^ 16 -> u16 x = pos <-> u16 (pos - x) = 0.
Proof. intros H. unfold u16, wrap. change (2 ^ 16) with 65536 in *. split; intros; dlia. Qed.

Lemma u16_pred pos x : 0 < u16 (pos - x) -> u16 (pos - (x + 1)) = u16 (pos - x) - 1.
Proof. unfold u16, wrap. change (2 ^ 16) with 65536. intros. dlia. Qed.

#[export] Hint Rewrite u16_sub_r u16_sub_l : wrapped.
