(* ===== verification/Bytes.v ===== *)
(** * Byte utilities of [xnet/xmalloc.c]

    [slength], [mcompare], [mcopy], [mclear], [strdup] and [strndup], which
    replace the functions of the C library.  A pointer is a region and an offset
    in it; [NULL] is [None].  The loops over words and the tails are modelled
    as they are and refined to what the functions are for. *)

From S2P Require Import Prelude.

Section Definitions.

(** [while (s[l] != 0) l++]. *)
Fixpoint slength_from (fuel : nat) (s : list Z) (l : Z) : option Z :=
  match fuel with
  | O => None
  | S fuel' =>
      c ← rd s l;
      if decide (c ≠ 0) then slength_from fuel' s (l + 1) else Some l
  end.

Definition slength (s : option (list Z)) : option Z :=
  match s with
  | None => Some 0
  | Some s => slength_from (S (length s)) s 0
  end.

(** [while (--n && *s1 == *s2) s1++, s2++; return *s1 - *s2] with [char]s that
    are signed; [i] is how far both pointers have moved. *)
Fixpoint compare_from (fuel : nat) (s1 s2 : list Z) (o1 o2 n i : Z) : option Z :=
  match fuel with
  | O => None
  | S fuel' =>
      let n := n - 1 in
      a ← rd s1 (o1 + i);
      b ← rd s2 (o2 + i);
      if decide (n ≠ 0 /\ a = b) then compare_from fuel' s1 s2 o1 o2 n (i + 1)
      else Some (s8 a - s8 b)
  end.

Definition mcompare (s1 s2 : option (list Z * Z)) (n : Z) : option Z :=
  match s1, s2 with
  | Some (s1, o1), Some (s2, o2) =>
      if decide (n = 0) then Some 0 else compare_from (Z.to_nat n) s1 s2 o1 o2 n 0
  | _, _ => Some 0
  end.

(** The words, then the tail: [from] and [count] of both. *)
Fixpoint copy_words (l : nat) (i : Z) (src : list Z) (so : Z) (dst : list Z) (d : Z) : option (list Z) :=
  match l with
  | O => Some dst
  | S l' =>
      w ← rd_range src (so + 8 * i) 8;
      dst ← wr_range dst (d + 8 * i) w;
      copy_words l' (i + 1) src so dst d
  end.

Fixpoint copy_tail (r : nat) (n : Z) (src : list Z) (so : Z) (dst : list Z) (d : Z) : option (list Z) :=
  match r with
  | O => Some dst
  | S r' =>
      let i := n - Z.of_nat r in
      b ← rd src (so + i);
      dst ← wr dst (d + i) b;
      copy_tail r' n src so dst d
  end.

(** [src] and [dst] do not overlap. *)
Definition mcopy (dst src : option (list Z * Z)) (n : Z) : option (option (list Z * Z)) :=
  match dst, src with
  | Some (dst, d), Some (src, so) =>
      if decide (n = 0) then Some (Some (dst, d))
      else
        dst ← copy_words (Z.to_nat (n / 8)) 0 src so dst d;
        dst ← copy_tail (Z.to_nat (n mod 8)) n src so dst d;
        Some (Some (dst, d))
  | _, _ => Some dst
  end.

Fixpoint clear_words (l : nat) (i : Z) (m : list Z) (o : Z) : option (list Z) :=
  match l with
  | O => Some m
  | S l' => m ← wr_range m (o + 8 * i) (replicate 8 0); clear_words l' (i + 1) m o
  end.

Fixpoint clear_tail (r : nat) (len : Z) (m : list Z) (o : Z) : option (list Z) :=
  match r with
  | O => Some m
  | S r' => m ← wr m (o + (len - Z.of_nat r)) 0; clear_tail r' len m o
  end.

Definition mclear (p : option (list Z * Z)) (len : Z) : option (option (list Z)) :=
  match p with
  | None => Some None
  | Some (m, o) =>
      m ← clear_words (Z.to_nat (Z.shiftr len 3)) 0 m o;
      m ← clear_tail (Z.to_nat (len mod 8)) len m o;
      Some (Some m)
  end.

(** [malloc] gives a buffer of the size asked for, or fails. *)
Definition strdup (malloc : Z -> option (list Z)) (s : option (list Z)) : option (option (list Z)) :=
  match s with
  | None => Some None
  | Some str =>
      len ← slength s;
      match malloc (len + 1) with
      | None => Some None
      | Some buf =>
          r ← mcopy (Some (buf, 0)) (Some (str, 0)) len;
          match r with
          | None => Some None
          | Some (buf, _) => buf ← wr buf len 0; Some (Some buf)
          end
      end
  end.

Definition strndup (malloc : Z -> option (list Z)) (s : option (list Z)) (n : Z) : option (option (list Z)) :=
  match s with
  | None => Some None
  | Some str =>
      if decide (n > 0) then
        match malloc (u64 (n + 1)) with
        | None => Some None
        | Some buf =>
            r ← mcopy (Some (buf, 0)) (Some (str, 0)) n;
            match r with
            | None => Some None
            | Some (buf, _) => buf ← wr buf n 0; Some (Some buf)
            end
        end
      else Some None
  end.
End Definitions.

(** ** Copying and clearing *)

Lemma copy_words_spec l : forall i src so dst d bs dst',
  rd_range src (so + 8 * i) (8 * Z.of_nat l) = Some bs ->
  wr_range dst (d + 8 * i) bs = Some dst' -> copy_words l i src so dst d = Some dst'.
Proof.
  induction l as [|l IH]; intros i src so dst d bs dst' Hr Hw.
  - pose proof (rd_range_length _ _ _ _ Hr) as Hl. destruct bs; [|simpl in Hl; lia].
    rewrite wr_range_nil' in Hw. simpl. case_decide; congruence.
  - replace (8 * Z.of_nat (S l)) with (8 + 8 * Z.of_nat l) in Hr by lia.
    apply rd_range_split in Hr as (w & bs2 & -> & Hr1 & Hr2); [|lia|lia].
    pose proof (rd_range_length _ _ _ _ Hr1) as Hl.
    apply wr_range_split in Hw as (m1 & Hw1 & Hw2). simpl. rewrite Hr1. simpl. rewrite Hw1. simpl.
    apply (IH _ _ _ _ _ bs2).
    + rewrite <- Hr2. f_equal. lia.
    + rewrite <- Hw2. f_equal. lia.
Qed.

Lemma copy_tail_spec r : forall n src so dst d bs dst',
  rd_range src (so + (n - Z.of_nat r)) (Z.of_nat r) = Some bs ->
  wr_range dst (d + (n - Z.of_nat r)) bs = Some dst' -> copy_tail r n src so dst d = Some dst'.
Proof.
  induction r as [|r IH]; intros n src so dst d bs dst' Hr Hw.
  - pose proof (rd_range_length _ _ _ _ Hr) as Hl. destruct bs; [|simpl in Hl; lia].
    rewrite wr_range_nil' in Hw. simpl. case_decide; congruence.
  - replace (Z.of_nat (S r)) with (1 + Z.of_nat r) in Hr at 2 by lia.
    apply rd_range_split in Hr as (w & bs2 & -> & Hr1 & Hr2); [|lia|lia].
    pose proof (rd_range_length _ _ _ _ Hr1) as Hl.
    destruct w as [|b [|? ?]]; simpl in Hl; [lia| |lia].
    apply wr_range_split in Hw as (m1 & Hw1 & Hw2). simpl in Hw2. cbn [copy_tail].
    rewrite (rd_single _ _ _ Hr1). cbn [mbind option_bind]. rewrite wr_single in Hw1. rewrite Hw1.
    cbn [mbind option_bind]. apply (IH _ _ _ _ _ bs2).
    + rewrite <- Hr2. f_equal. lia.
    + rewrite <- Hw2. f_equal. lia.
Qed.

Lemma clear_words_spec l : forall i m o m',
  wr_range m (o + 8 * i) (replicate (8 * l) 0) = Some m' -> clear_words l i m o = Some m'.
Proof.
  induction l as [|l IH]; intros i m o m' Hw.
  - change (replicate (8 * 0) 0) with (@nil Z) in Hw. rewrite wr_range_nil' in Hw. simpl. case_decide; congruence.
  - replace (8 * S l)%nat with (8 + 8 * l)%nat in Hw by lia. rewrite replicate_add in Hw.
    apply wr_range_split in Hw as (m1 & Hw1 & Hw2). cbn [clear_words]. rewrite Hw1.
    cbn [mbind option_bind]. apply IH. rewrite <- Hw2. f_equal. simpl. lia.
Qed.

Lemma clear_tail_spec r : forall len m o m',
  wr_range m (o + (len - Z.of_nat r)) (replicate r 0) = Some m' -> clear_tail r len m o = Some m'.
Proof.
  induction r as [|r IH]; intros len m o m' Hw.
  - change (replicate 0 0) with (@nil Z) in Hw. rewrite wr_range_nil' in Hw. simpl. case_decide; congruence.
  - change (replicate (S r) 0) with ([0] ++ replicate r 0) in Hw.
    apply wr_range_split in Hw as (m1 & Hw1 & Hw2). cbn [clear_tail]. rewrite wr_single in Hw1.
    rewrite Hw1. cbn [mbind option_bind]. apply IH. rewrite <- Hw2. f_equal. simpl. lia.
Qed.

Lemma mcopy_ok dst d src so n bs :
  0 <= n -> rd_range src so n = Some bs -> 0 <= d -> d + n <= Z.of_nat (length dst) ->
  exists dst', wr_range dst d bs = Some dst'
    /\ mcopy (Some (dst, d)) (Some (src, so)) n = Some (Some (dst', d)).
Proof.
  intros Hn Hr Hd Hb. pose proof (rd_range_length _ _ _ _ Hr) as Hl.
  destruct (wr_range_is_Some dst d bs) as [dst' Hw]; [done|lia|]. exists dst'. split; [done|].
  unfold mcopy. case_decide as H0.
  { destruct bs; [|simpl in Hl; lia]. rewrite wr_range_nil' in Hw. case_decide; congruence. }
  pose proof (Z.div_mod n 8 ltac:(lia)) as Hdm. pose proof (Z.mod_pos_bound n 8 ltac:(lia)).
  rewrite Hdm in Hr. apply rd_range_split in Hr as (l1 & l2 & -> & Hr1 & Hr2); [|lia|lia].
  apply wr_range_split in Hw as (m1 & Hw1 & Hw2).
  pose proof (rd_range_length _ _ _ _ Hr1) as Hl1.
  rewrite (copy_words_spec _ _ _ _ _ _ l1 m1).
  - cbn [mbind option_bind]. rewrite (copy_tail_spec _ _ _ _ _ _ l2 dst'); [done| |].
    + rewrite <- Hr2. f_equal; lia.
    + rewrite <- Hw2. f_equal. lia.
  - rewrite Z.mul_0_r, Z.add_0_r, Z2Nat.id by lia. done.
  - by rewrite Z.mul_0_r, Z.add_0_r.
Qed.

(** Copying word by word with a tail of bytes copies exactly the [n] bytes,
    for every length and alignment, inside the bounds of both regions. *)
Lemma mcopy_correct dst d src so n bs :
  0 <= n -> rd_range src so n = Some bs -> 0 <= d -> d + n <= Z.of_nat (length dst) ->
  exists dst', wr_range dst d bs = Some dst'
    /\ mcopy (Some (dst, d)) (Some (src, so)) n = Some (Some (dst', d)).
Proof. apply mcopy_ok. Qed.


(** Clearing word by word clears exactly the [len] bytes. *)
Theorem mclear_correct m o len :
  0 <= o -> 0 <= len -> o + len <= Z.of_nat (length m) ->
  exists m', wr_range m o (replicate (Z.to_nat len) 0) = Some m' /\ mclear (Some (m, o)) len = Some (Some m').
Proof.
  intros Ho Hl Hb. destruct (wr_range_is_Some m o (replicate (Z.to_nat len) 0)) as [m' Hw];
    [done|rewrite length_replicate; lia|]. exists m'. split; [done|]. unfold mclear.
  rewrite Z.shiftr_div_pow2 by lia. change (2 ^ 3) with 8.
  pose proof (Z.div_mod len 8 ltac:(lia)) as Hdm. pose proof (Z.mod_pos_bound len 8 ltac:(lia)).
  assert (E : Z.to_nat len = (8 * Z.to_nat (len / 8) + Z.to_nat (len mod 8))%nat) by lia.
  rewrite E, replicate_add in Hw. apply wr_range_split in Hw as (m1 & Hw1 & Hw2).
  rewrite length_replicate in Hw2. rewrite (clear_words_spec _ _ _ _ m1).
  - cbn [mbind option_bind]. rewrite (clear_tail_spec _ _ _ _ m'); [done|]. rewrite <- Hw2. f_equal. lia.
  - by rewrite Z.mul_0_r, Z.add_0_r.
Qed.

Lemma mclear_correct_witness :
  exists m', wr_range [1;2;3;4;5;6;7;8;9;10;11;12] 1 (replicate (Z.to_nat 10) 0) = Some m'
    /\ mclear (Some ([1;2;3;4;5;6;7;8;9;10;11;12], 1)) 10 = Some (Some m').
Proof. apply mclear_correct; simpl; lia. Defined.

(** ** Lengths and comparisons *)

Lemma slength_from_spec fuel : forall pre bs rest,
  Forall (fun b => b ≠ 0) bs -> (length bs < fuel)%nat ->
  slength_from fuel (pre ++ bs ++ 0 :: rest) (Z.of_nat (length pre))
  = Some (Z.of_nat (length pre) + Z.of_nat (length bs)).
Proof.
  induction fuel as [|fuel IH]; intros pre bs rest Hb Hf; [lia|]. cbn [slength_from].
  destruct bs as [|b bs]; simpl.
  - rewrite rd_app by done. simpl. f_equal. lia.
  - apply Forall_cons in Hb as [Hb Hbs]. rewrite rd_app by done. simpl. rewrite decide_True by done.
    simpl in Hf. specialize (IH (pre ++ [b]) bs rest Hbs ltac:(lia)).
    rewrite <- app_assoc, length_app in IH. simpl in IH.
    replace (Z.of_nat (length pre) + 1) with (Z.of_nat (length pre + 1)) by lia. rewrite IH. f_equal. lia.
Qed.

(** [slength] is the number of bytes before the first zero byte, and reads
    nothing after it. *)
Theorem slength_correct bs rest :
  Forall (fun b => b ≠ 0) bs -> slength (Some (bs ++ 0 :: rest)) = Some (Z.of_nat (length bs)).
Proof.
  intros Hb. unfold slength. apply (slength_from_spec _ [] bs rest Hb).
  rewrite length_app. simpl. lia.
Qed.

Lemma slength_correct_witness : slength (Some [104; 105; 0; 33]) = Some 2.
Proof. apply (slength_correct [104; 105] [33]). by repeat constructor. Defined.

Lemma s8_inj a b : is_byte a -> is_byte b -> s8 a = s8 b -> a = b.
Proof. unfold is_byte, s8, swrap. change (2 ^ 8) with 256. change (2 ^ (8 - 1)) with 128. intros. dlia. Qed.

Lemma compare_from_spec fuel : forall s1 s2 o1 o2 n i a b,
  0 < n -> Z.of_nat fuel = n -> rd_range s1 (o1 + i) n = Some a -> rd_range s2 (o2 + i) n = Some b ->
  exists r, compare_from fuel s1 s2 o1 o2 n i = Some r
    /\ (a = b -> r = 0)
    /\ (forall p x y ta tb, a = p ++ x :: ta -> b = p ++ y :: tb -> x ≠ y -> r = s8 x - s8 y).
Proof.
  induction fuel as [|fuel IH]; intros s1 s2 o1 o2 n i a b Hn Hf Ha Hb; [lia|].
  replace n with (1 + (n - 1)) in Ha, Hb by lia.
  apply rd_range_split in Ha as (a1 & a2 & -> & Ha1 & Ha2); [|lia|lia].
  apply rd_range_split in Hb as (b1 & b2 & -> & Hb1 & Hb2); [|lia|lia].
  pose proof (rd_range_length _ _ _ _ Ha1) as La. pose proof (rd_range_length _ _ _ _ Hb1) as Lb.
  destruct a1 as [|x [|? ?]]; simpl in La; try lia. destruct b1 as [|y [|? ?]]; simpl in Lb; try lia.
  cbn [compare_from]. rewrite (rd_single _ _ _ Ha1), (rd_single _ _ _ Hb1). cbn [mbind option_bind].
  case_decide as Hc.
  - destruct Hc as [Hn1 ->].
    destruct (IH s1 s2 o1 o2 (n - 1) (i + 1) a2 b2) as (r & -> & Heq & Hne); [lia|lia| | |].
    { rewrite <- Ha2. f_equal. lia. }
    { rewrite <- Hb2. f_equal. lia. }
    exists r. split; [done|]. split; [intros [= E]; by apply Heq|].
    intros p u v ta tb E1 E2 Huv. destruct p as [|w p]; simpl in *.
    + congruence.
    + injection E1 as -> E1. injection E2 as E2. by apply (Hne p u v ta tb).
  - eexists. split; [done|]. split; [intros [= -> _]; lia|].
    intros p u v ta tb E1 E2 Huv. destruct p as [|w p]; simpl in *; [congruence|]. exfalso.
    injection E1 as -> E1. injection E2 as -> E2. apply Hc. split; [|done]. intros Hz.
    pose proof (rd_range_length _ _ _ _ Ha2) as L2. rewrite E1, length_app in L2. simpl in L2. lia.
Qed.

Lemma mcompare_ok s1 o1 s2 o2 n a b :
  0 <= n -> rd_range s1 o1 n = Some a -> rd_range s2 o2 n = Some b -> is_bytes a -> is_bytes b ->
  exists r, mcompare (Some (s1, o1)) (Some (s2, o2)) n = Some r /\ (r = 0 <-> a = b)
    /\ (forall p x y ta tb, a = p ++ x :: ta -> b = p ++ y :: tb -> x ≠ y -> r = s8 x - s8 y).
Proof.
  intros Hn Ha Hb Hba Hbb. unfold mcompare. case_decide as H0.
  - subst n. pose proof (rd_range_length _ _ _ _ Ha) as La. pose proof (rd_range_length _ _ _ _ Hb) as Lb.
    destruct a; [|simpl in La; lia]. destruct b; [|simpl in Lb; lia].
    exists 0. split; [done|]. split; [done|]. intros p x y ta tb E. by destruct p.
  - destruct (compare_from_spec (Z.to_nat n) s1 s2 o1 o2 n 0 a b) as (r & -> & Heq & Hne);
      [lia|lia|by rewrite Z.add_0_r|by rewrite Z.add_0_r|].
    exists r. split; [done|]. split; [|done]. split; [|done]. intros ->.
    pose proof (rd_range_length _ _ _ _ Ha) as La. pose proof (rd_range_length _ _ _ _ Hb) as Lb.
    destruct (decide (a = b)) as [|Hab]; [done|exfalso].
    destruct (first_difference a b) as (p & x & y & ta & tb & E1 & E2 & Hxy); [lia|done|].
    specialize (Hne p x y ta tb E1 E2 Hxy). subst a b.
    apply Forall_app in Hba as [_ [Hx _]%Forall_cons]. apply Forall_app in Hbb as [_ [Hy _]%Forall_cons].
    apply Hxy, s8_inj; done || lia.
Qed.

(** [mcompare] is 0 exactly when the [n] bytes are equal; otherwise it is
    the difference, as signed [char]s, of the first two bytes that differ. *)
Lemma mcompare_correct s1 o1 s2 o2 n a b :
  0 <= n -> rd_range s1 o1 n = Some a -> rd_range s2 o2 n = Some b -> is_bytes a -> is_bytes b ->
  exists r, mcompare (Some (s1, o1)) (Some (s2, o2)) n = Some r /\ (r = 0 <-> a = b)
    /\ (forall p x y ta tb, a = p ++ x :: ta -> b = p ++ y :: tb -> x ≠ y -> r = s8 x - s8 y).
Proof. apply mcompare_ok. Qed.


(** [strdup] makes a copy of the string with its terminator, in a buffer of
    exactly that size. *)
Theorem strdup_correct malloc bs rest buf :
  Forall (fun b => b ≠ 0) bs -> malloc (Z.of_nat (length bs) + 1) = Some buf ->
  Z.of_nat (length buf) = Z.of_nat (length bs) + 1 ->
  strdup malloc (Some (bs ++ 0 :: rest)) = Some (Some (bs ++ [0])).
Proof.
  intros Hb Hm Hl. unfold strdup.
  assert (E : slength (Some (bs ++ 0 :: rest)) = Some (Z.of_nat (length bs))).
  { unfold slength. apply (slength_from_spec _ [] bs rest Hb). rewrite length_app. simpl. lia. }
  rewrite E. cbn [mbind option_bind]. rewrite Hm.
  assert (Hc : mcopy (Some (buf, 0)) (Some (bs ++ 0 :: rest, 0)) (Z.of_nat (length bs))
               = Some (Some (bs ++ drop (length bs) buf, 0))).
  { destruct (mcopy_ok buf 0 (bs ++ 0 :: rest) 0 (Z.of_nat (length bs)) bs) as (buf' & Hw & ->); try lia.
    { apply (rd_range_app [] bs); done. }
    unfold wr_range in Hw. rewrite decide_True in Hw by lia. simpl in Hw. congruence. }
  rewrite Hc. cbn [mbind option_bind].
  destruct (drop (length bs) buf) as [|c l] eqn:Ed.
  { apply (f_equal length) in Ed. rewrite length_drop in Ed. simpl in Ed. lia. }
  assert (l = []) as ->.
  { apply (f_equal length) in Ed. rewrite length_drop in Ed. simpl in Ed. apply nil_length_inv. lia. }
  by rewrite wr_app.
Qed.

Lemma strdup_correct_witness :
  strdup (fun n => Some (replicate (Z.to_nat n) 7)) (Some [104; 105; 0; 33]) = Some (Some [104; 105; 0]).
Proof. apply (strdup_correct _ [104; 105] [33] [7; 7; 7]); [by repeat constructor|done|done]. Defined.
