(* ===== verification/Sha256.v ===== *)
(** SHA-256 (src/src/xlib/xsha256.c, xsha256.h).

    The first half translates the C file: the round macros, the block
    compression loop, and the buffering context with [sha256_init],
    [sha256_update] and [sha256_finish].  The second half states FIPS 180-4
    (module [Fips]: rotations, padding, one pass over the padded message) and
    proves that any sequence of updates followed by a finish computes it. *)

From S2P Require Import Prelude.

(** ** Round functions on 32-bit words *)

Definition Ch (x y z : Z) : Z := Z.lxor (Z.land x y) (Z.land (u32 (Z.lnot x)) z).
Definition Maj (x y z : Z) : Z :=
  Z.lxor (Z.lxor (Z.land x y) (Z.land x z)) (Z.land y z).

Definition ROL32 (a n : Z) : Z :=
  Z.lor (u32 (Z.shiftl a n)) (Z.shiftr (Z.land a 0xffffffff) (32 - n)).
Definition ROR32 (a n : Z) : Z := ROL32 a (32 - n).

Definition Sigma0 (X : Z) : Z := Z.lxor (Z.lxor (ROR32 X 2) (ROR32 X 13)) (ROR32 X 22).
Definition Sigma1 (X : Z) : Z := Z.lxor (Z.lxor (ROR32 X 6) (ROR32 X 11)) (ROR32 X 25).
Definition sigma0 (X : Z) : Z := Z.lxor (Z.lxor (ROR32 X 7) (ROR32 X 18)) (Z.shiftr X 3).
Definition sigma1 (X : Z) : Z := Z.lxor (Z.lxor (ROR32 X 17) (ROR32 X 19)) (Z.shiftr X 10).

Definition K : list Z :=
  [0x428a2f98; 0x71374491; 0xb5c0fbcf; 0xe9b5dba5] ++
  [0x3956c25b; 0x59f111f1; 0x923f82a4; 0xab1c5ed5] ++
  [0xd807aa98; 0x12835b01; 0x243185be; 0x550c7dc3] ++
  [0x72be5d74; 0x80deb1fe; 0x9bdc06a7; 0xc19bf174] ++
  [0xe49b69c1; 0xefbe4786; 0x0fc19dc6; 0x240ca1cc] ++
  [0x2de92c6f; 0x4a7484aa; 0x5cb0a9dc; 0x76f988da] ++
  [0x983e5152; 0xa831c66d; 0xb00327c8; 0xbf597fc7] ++
  [0xc6e00bf3; 0xd5a79147; 0x06ca6351; 0x14292967] ++
  [0x27b70a85; 0x2e1b2138; 0x4d2c6dfc; 0x53380d13] ++
  [0x650a7354; 0x766a0abb; 0x81c2c92e; 0x92722c85] ++
  [0xa2bfe8a1; 0xa81a664b; 0xc24b8b70; 0xc76c51a3] ++
  [0xd192e819; 0xd6990624; 0xf40e3585; 0x106aa070] ++
  [0x19a4c116; 0x1e376c08; 0x2748774c; 0x34b0bcb5] ++
  [0x391c0cb3; 0x4ed8aa4a; 0x5b9cca4f; 0x682e6ff3] ++
  [0x748f82ee; 0x78a5636f; 0x84c87814; 0x8cc70208] ++
  [0x90befffa; 0xa4506ceb; 0xbef9a3f7; 0xc67178f2].

(** Big-endian load and store of 32-bit words; [PUTU32] truncates its value,
    of whatever width, byte by byte. *)
Definition GETU32 (p : list Z) : Z :=
  Z.lor (Z.lor (Z.lor (u32 (Z.shiftl (p !!! 0%nat) 24)) (u32 (Z.shiftl (p !!! 1%nat) 16)))
               (u32 (Z.shiftl (p !!! 2%nat) 8)))
        (p !!! 3%nat).
Definition PUTU32 (V : Z) : list Z :=
  [u8 (Z.shiftr V 24); u8 (Z.shiftr V 16); u8 (Z.shiftr V 8); u8 V].

(** ** Block compression *)

(** [uint32_t state[8]], and the eight working registers [A] .. [H]. *)
Record hash8 := mk8 { hA : Z; hB : Z; hC : Z; hD : Z; hE : Z; hF : Z; hG : Z; hH : Z }.

(** [for (i = 0; i < 16; i++) { W[i] = GETU32(data); data += 4; }] *)
Fixpoint W_load (n : nat) (data : list Z) : list Z :=
  match n with
  | O => []
  | S n' => GETU32 data :: W_load n' (drop 4 data)
  end.

(** [for (; i < 64; i++) W[i] = ...]: each turn stores the element [W[i]],
    [i] being the number of elements stored so far. *)
Fixpoint W_extend (n : nat) (W : list Z) : list Z :=
  match n with
  | O => W
  | S n' =>
      let i := length W in
      W_extend n'
        (W ++ [u32 (sigma1 (W !!! (i - 2)%nat) + W !!! (i - 7)%nat
                    + sigma0 (W !!! (i - 15)%nat) + W !!! (i - 16)%nat)])
  end.

Definition W_schedule (data : list Z) : list Z := W_extend 48 (W_load 16 data).

Definition sha256_round (s : hash8) (kw : Z * Z) : hash8 :=
  let '(k, w) := kw in
  let T1 := u32 (hH s + Sigma1 (hE s) + Ch (hE s) (hF s) (hG s) + k + w) in
  let T2 := u32 (Sigma0 (hA s) + Maj (hA s) (hB s) (hC s)) in
  mk8 (u32 (T1 + T2)) (hA s) (hB s) (hC s) (u32 (hD s + T1)) (hE s) (hF s) (hG s).

Definition hash8_add (s t : hash8) : hash8 :=
  mk8 (u32 (hA s + hA t)) (u32 (hB s + hB t)) (u32 (hC s + hC t)) (u32 (hD s + hD t))
      (u32 (hE s + hE t)) (u32 (hF s + hF t)) (u32 (hG s + hG t)) (u32 (hH s + hH t)).

Definition sha256_compress_block (state : hash8) (data : list Z) : hash8 :=
  hash8_add state (foldl sha256_round state (zip K (W_schedule data))).

(** [while (blocks--) { ... }]; [None] when a block would be read past the end
    of the data. *)
Fixpoint sha256_compress_blocks (state : hash8) (data : list Z) (blocks : nat) : option hash8 :=
  match blocks with
  | O => Some state
  | S n =>
      blk ← rd_range data 0 64;
      sha256_compress_blocks (sha256_compress_block state blk) (drop 64 data) n
  end.

(** ** The streaming context *)

Record SHA256_CTX := mkctx { state : hash8; nblocks : Z; block : list Z; num : Z }.

Definition SHA256_DIGEST_SIZE : Z := 32.
Definition SHA256_BLOCK_SIZE : Z := 64.

Definition sha256_init : SHA256_CTX :=
  mkctx (mk8 0x6a09e667 0xbb67ae85 0x3c6ef372 0xa54ff53a
             0x510e527f 0x9b05688c 0x1f83d9ab 0x5be0cd19)
        0 (replicate 64 0) 0.

(** The part of [sha256_update] after the pending block has been completed:
    whole blocks straight from the input, then the rest into the buffer. *)
Definition sha256_update_tail (st : hash8) (nb : Z) (blk data : list Z) (datalen : Z)
    : option SHA256_CTX :=
  let blocks := datalen / SHA256_BLOCK_SIZE in
  '(st, nb, data, datalen) ←
    (if decide (blocks ≠ 0) then
       st' ← sha256_compress_blocks st data (Z.to_nat blocks);
       Some (st', u64 (nb + blocks), drop (Z.to_nat (SHA256_BLOCK_SIZE * blocks)) data,
             datalen - SHA256_BLOCK_SIZE * blocks)
     else Some (st, nb, data, datalen));
  if decide (datalen ≠ 0) then
    d ← rd_range data 0 datalen;
    blk' ← wr_range blk 0 d;
    Some (mkctx st nb blk' datalen)
  else Some (mkctx st nb blk datalen).

Definition sha256_update (ctx : SHA256_CTX) (data : list Z) (datalen : Z) : option SHA256_CTX :=
  let n := Z.land (num ctx) 0x3f in
  if decide (n ≠ 0) then
    let left := SHA256_BLOCK_SIZE - n in
    if decide (datalen < left) then
      d ← rd_range data 0 datalen;
      blk ← wr_range (block ctx) n d;
      Some (mkctx (state ctx) (nblocks ctx) blk (n + datalen))
    else
      d ← rd_range data 0 left;
      blk ← wr_range (block ctx) n d;
      st ← sha256_compress_blocks (state ctx) blk 1;
      sha256_update_tail st (u64 (nblocks ctx + 1)) blk (drop (Z.to_nat left) data) (datalen - left)
  else sha256_update_tail (state ctx) (nblocks ctx) (block ctx) data datalen.

Definition hash8_bytes (s : hash8) : list Z :=
  PUTU32 (hA s) ++ PUTU32 (hB s) ++ PUTU32 (hC s) ++ PUTU32 (hD s) ++
  PUTU32 (hE s) ++ PUTU32 (hF s) ++ PUTU32 (hG s) ++ PUTU32 (hH s).

(** [mclear(ctx->block + off, len)] *)
Definition clear_range (blk : list Z) (off len : Z) : option (list Z) :=
  wr_range blk off (replicate (Z.to_nat len) 0).

Definition sha256_finish (ctx : SHA256_CTX) : option (list Z) :=
  let n := Z.land (num ctx) 0x3f in
  blk ← wr (block ctx) n 0x80;
  '(st, blk) ←
    (if decide (n <= SHA256_BLOCK_SIZE - 9) then
       blk ← clear_range blk (n + 1) (SHA256_BLOCK_SIZE - n - 9);
       Some (state ctx, blk)
     else
       blk ← clear_range blk (n + 1) (SHA256_BLOCK_SIZE - n - 1);
       st ← sha256_compress_blocks (state ctx) blk 1;
       blk ← clear_range blk 0 (SHA256_BLOCK_SIZE - 8);
       Some (st, blk));
  blk ← wr_range blk 56 (PUTU32 (Z.shiftr (nblocks ctx) 23));
  blk ← wr_range blk 60 (PUTU32 (u64 (u64 (Z.shiftl (nblocks ctx) 9) + Z.shiftl n 3)));
  st ← sha256_compress_blocks st blk 1;
  Some (hash8_bytes st).

(** A client: one context, fed chunk by chunk ([uuid_generate] uses one chunk). *)
Fixpoint sha256_updates (ctx : SHA256_CTX) (chunks : list (list Z)) : option SHA256_CTX :=
  match chunks with
  | [] => Some ctx
  | d :: ds => ctx' ← sha256_update ctx d (Z.of_nat (length d)); sha256_updates ctx' ds
  end.

Definition sha256_digest (chunks : list (list Z)) : option (list Z) :=
  ctx ← sha256_updates sha256_init chunks; sha256_finish ctx.

(** ** FIPS 180-4 *)

Module Fips.
Definition ROTR (n x : Z) : Z := Z.lor (Z.shiftr x n) (u32 (Z.shiftl x (32 - n))).
Definition SHR (n x : Z) : Z := Z.shiftr x n.
Definition ch (x y z : Z) : Z := Z.lxor (Z.land x y) (Z.land (Z.ldiff (Z.ones 32) x) z).
Definition maj (x y z : Z) : Z := Z.lxor (Z.land x y) (Z.lxor (Z.land x z) (Z.land y z)).
Definition S0 (x : Z) : Z := Z.lxor (ROTR 2 x) (Z.lxor (ROTR 13 x) (ROTR 22 x)).
Definition S1 (x : Z) : Z := Z.lxor (ROTR 6 x) (Z.lxor (ROTR 11 x) (ROTR 25 x)).
Definition s0 (x : Z) : Z := Z.lxor (ROTR 7 x) (Z.lxor (ROTR 18 x) (SHR 3 x)).
Definition s1 (x : Z) : Z := Z.lxor (ROTR 17 x) (Z.lxor (ROTR 19 x) (SHR 10 x)).

(** Big-endian words and 64-bit lengths. *)
Definition word_of (p : list Z) : Z :=
    p !!! 0%nat * 2 ^ 24 + p !!! 1%nat * 2 ^ 16 + p !!! 2%nat * 2 ^ 8 + p !!! 3%nat.
Fixpoint be_bytes (n : nat) (x : Z) : list Z :=
    match n with
    | O => []
    | S n' => (x / 2 ^ (8 * Z.of_nat n')) mod 256 :: be_bytes n' x
    end.

Definition message_word (blk : list Z) (t : nat) : Z := word_of (drop (4 * t) blk).

(** The schedule [W_0 .. W_63], as the list of its first [t] words. *)
Fixpoint schedule (blk : list Z) (t : nat) : list Z :=
    match t with
    | O => []
    | S t' =>
        let W := schedule blk t' in
        W ++ [if decide (t' < 16)%nat then message_word blk t'
              else (s1 (W !!! (t' - 2)%nat) + W !!! (t' - 7)%nat
                    + s0 (W !!! (t' - 15)%nat) + W !!! (t' - 16)%nat) mod 2 ^ 32]
    end.

Definition round (s : hash8) (k w : Z) : hash8 :=
    let T1 := (hH s + S1 (hE s) + ch (hE s) (hF s) (hG s) + k + w) mod 2 ^ 32 in
    let T2 := (S0 (hA s) + maj (hA s) (hB s) (hC s)) mod 2 ^ 32 in
    mk8 ((T1 + T2) mod 2 ^ 32) (hA s) (hB s) (hC s) ((hD s + T1) mod 2 ^ 32)
        (hE s) (hF s) (hG s).

Fixpoint rounds (s : hash8) (ks ws : list Z) : hash8 :=
    match ks, ws with
    | k :: ks, w :: ws => rounds (round s k w) ks ws
    | _, _ => s
    end.

(** The round constants: 32 fractional bits of the cube roots of the first 64
    primes; the initial value: those of the square roots of the first 8. *)
Definition is_prime (n : Z) : bool :=
    forallb (fun d => negb (n mod d =? 0)) (seqZ 2 (n - 2)).
Definition primes : list Z := filter (fun n => is_prime n = true) (seqZ 2 310).

(** The integer cube root of [x < 2^(3k)], bit by bit. *)
Fixpoint cbrt_bits (k : nat) (x r : Z) : Z :=
    match k with
    | O => r
    | S k' => let r' := r + 2 ^ Z.of_nat k' in
              cbrt_bits k' x (if r' ^ 3 <=? x then r' else r)
    end.
Definition cbrt_fraction (p : Z) : Z := cbrt_bits 40 (p * 2 ^ 96) 0 mod 2 ^ 32.
Definition sqrt_fraction (p : Z) : Z := Z.sqrt (p * 2 ^ 64) mod 2 ^ 32.

Definition Kt : list Z := map cbrt_fraction primes.
Definition H0 : hash8 :=
    match map sqrt_fraction (take 8 primes) with
    | [a; b; c; d; e; f; g; h] => mk8 a b c d e f g h
    | _ => mk8 0 0 0 0 0 0 0 0
    end.

Definition hash_block (H : hash8) (blk : list Z) : hash8 :=
    hash8_add H (rounds H Kt (schedule blk 64)).

(** The hash of the first [n] 64-byte blocks of [m]. *)
Fixpoint hash_blocks (n : nat) (H : hash8) (m : list Z) : hash8 :=
    match n with
    | O => H
    | S n' => hash_blocks n' (hash_block H (take 64 m)) (drop 64 m)
    end.

(** A one bit, zeroes up to 8 bytes before a block boundary, the bit length. *)
Definition pad (m : list Z) : list Z :=
    let l := Z.of_nat (length m) in
    m ++ [0x80] ++ replicate (Z.to_nat ((55 - l) mod 64)) 0 ++ be_bytes 8 (8 * l).

Definition sha256 (m : list Z) : list Z :=
    let p := pad m in
    hash8_bytes (hash_blocks (length p / 64) H0 p).
End Fips.

(** ** The block function is FIPS's *)

Definition word (x : Z) : Prop := 0 <= x < 2 ^ 32.
Definition hash8_ok (s : hash8) : Prop :=
  word (hA s) /\ word (hB s) /\ word (hC s) /\ word (hD s) /\
  word (hE s) /\ word (hF s) /\ word (hG s) /\ word (hH s).

Lemma word_u32 x : word (u32 x).
Proof. apply u32_range. Qed.
#[local] Hint Resolve word_u32 : wenas.

Lemma ROR32_ROTR n x : word x -> 0 <= n <= 32 -> ROR32 x n = Fips.ROTR n x.
Proof.
  intros Hx Hn. unfold ROR32, ROL32, Fips.ROTR.
  change 0xffffffff with (Z.ones 32). rewrite Z.land_ones, Z.mod_small by (lia || done).
  replace (32 - (32 - n)) with n by lia. apply Z.lor_comm.
Qed.

Lemma Ch_ch x y z : Ch x y z = Fips.ch x y z.
Proof.
  unfold Ch, Fips.ch, u32. f_equal. f_equal. rewrite wrap_land by lia.
  apply Z.bits_inj_iff'. intros i Hi.
  rewrite Z.land_spec, Z.ldiff_spec, Z.lnot_spec by lia. apply andb_comm.
Qed.

Lemma Maj_maj x y z : Maj x y z = Fips.maj x y z.
Proof. unfold Maj, Fips.maj. apply Z.lxor_assoc. Qed.

Lemma Sigma_fips x : word x ->
  Sigma0 x = Fips.S0 x /\ Sigma1 x = Fips.S1 x /\ sigma0 x = Fips.s0 x /\ sigma1 x = Fips.s1 x.
Proof.
  intros Hx. unfold Sigma0, Sigma1, sigma0, sigma1, Fips.S0, Fips.S1, Fips.s0, Fips.s1, Fips.SHR.
  rewrite !ROR32_ROTR by (done || lia). split_and!; apply Z.lxor_assoc.
Qed.

Lemma GETU32_word p :
  (forall i, (i < 4)%nat -> is_byte (p !!! i)) -> GETU32 p = Fips.word_of p.
Proof.
  intros Hp. unfold GETU32, Fips.word_of.
  pose proof (Hp 0%nat ltac:(lia)) as H0. pose proof (Hp 1%nat ltac:(lia)) as H1.
  pose proof (Hp 2%nat ltac:(lia)) as H2. pose proof (Hp 3%nat ltac:(lia)) as H3.
  revert H0 H1 H2 H3. generalize (p !!! 0%nat) (p !!! 1%nat) (p !!! 2%nat) (p !!! 3%nat).
  intros a b c d; unfold is_byte; intros.
  rewrite !Z.shiftl_mul_pow2, !u32_small by lia.
  rewrite (lor_add_low a (b * 2 ^ 16) 24) by lia.
  replace (a * 2 ^ 24 + b * 2 ^ 16) with ((a * 2 ^ 8 + b) * 2 ^ 16) by lia.
  rewrite (lor_add_low _ (c * 2 ^ 8) 16) by lia.
  replace ((a * 2 ^ 8 + b) * 2 ^ 16 + c * 2 ^ 8) with ((a * 2 ^ 16 + b * 2 ^ 8 + c) * 2 ^ 8) by lia.
  rewrite (lor_add_low _ d 8) by lia. lia.
Qed.

Lemma is_bytes_lookup_total (l : list Z) i : is_bytes l -> is_byte (l !!! i).
Proof.
  intros Hl. rewrite list_lookup_total_alt. destruct (l !! i) eqn:E; simpl.
  - by eapply Forall_lookup_1.
  - unfold is_byte. change (inhabitant : Z) with 0. lia.
Qed.

Lemma W_load_schedule blk n m :
  is_bytes blk -> (n + m <= 16)%nat ->
  Fips.schedule blk m ++ W_load n (drop (4 * m) blk) = Fips.schedule blk (m + n).
Proof.
  intros Hb. revert m. induction n as [|n IH]; intros m Hm; cbn [W_load].
  { by rewrite app_nil_r, Nat.add_0_r. }
  rewrite drop_drop. replace (4 * m + 4)%nat with (4 * S m)%nat by lia.
  rewrite <- (Nat.add_succ_comm m n), <- IH by lia. cbn [Fips.schedule].
  rewrite decide_True by lia. rewrite <- app_assoc. simpl. do 2 f_equal.
  apply GETU32_word. intros. apply is_bytes_lookup_total. by apply Forall_drop.
Qed.

Lemma schedule_length blk n : length (Fips.schedule blk n) = n.
Proof. induction n; simpl; rewrite ?length_app; simpl; lia. Qed.

Lemma word_of_word p : is_bytes p -> word (Fips.word_of p).
Proof.
  intros Hp. unfold word, Fips.word_of.
  pose proof (fun i => is_bytes_lookup_total p i Hp) as H. unfold is_byte in H.
  pose proof (H 0%nat). pose proof (H 1%nat). pose proof (H 2%nat). pose proof (H 3%nat). lia.
Qed.

Lemma schedule_word blk n : is_bytes blk -> Forall word (Fips.schedule blk n).
Proof.
  intros Hb. induction n as [|n IH]; cbn [Fips.schedule]; [constructor|].
  apply Forall_app. split; [done|]. constructor; [|constructor].
  case_decide; [apply word_of_word; by apply Forall_drop|apply word_u32].
Qed.

Lemma word_lookup_total (l : list Z) i : Forall word l -> word (l !!! i).
Proof.
  intros Hl. rewrite list_lookup_total_alt. destruct (l !! i) eqn:E; simpl.
  - by eapply Forall_lookup_1.
  - unfold word. change (inhabitant : Z) with 0. lia.
Qed.

Lemma W_extend_schedule blk n m :
  is_bytes blk -> (16 <= m)%nat ->
  W_extend n (Fips.schedule blk m) = Fips.schedule blk (m + n).
Proof.
  intros Hb. revert m. induction n as [|n IH]; intros m Hm; cbn [W_extend].
  { by rewrite Nat.add_0_r. }
  rewrite <- Nat.add_succ_comm, <- IH by lia. f_equal. cbn [Fips.schedule].
  rewrite decide_False by lia. rewrite schedule_length. do 2 f_equal.
  pose proof (schedule_word blk m Hb) as Hw.
  destruct (Sigma_fips (Fips.schedule blk m !!! (m - 2)%nat)) as (_&_&_&->);
    [by apply word_lookup_total|].
  by destruct (Sigma_fips (Fips.schedule blk m !!! (m - 15)%nat)) as (_&_&->&_);
    [apply word_lookup_total|].
Qed.

Lemma W_schedule_fips blk : is_bytes blk -> W_schedule blk = Fips.schedule blk 64.
Proof.
  intros Hb. unfold W_schedule.
  pose proof (W_load_schedule blk 16 0 Hb ltac:(lia)) as H. cbn [Fips.schedule app] in H.
  change (drop (4 * 0) blk) with blk in H. rewrite H. by apply W_extend_schedule.
Qed.

Lemma hash8_add_ok s t : hash8_ok (hash8_add s t).
Proof. unfold hash8_ok; simpl; split_and!; apply word_u32. Qed.

Lemma round_fips s k w :
  hash8_ok s -> sha256_round s (k, w) = Fips.round s k w /\ hash8_ok (Fips.round s k w).
Proof.
  intros (HA & HB & HC & HD & HE & HF & HG & HH). unfold sha256_round, Fips.round.
  destruct (Sigma_fips (hA s) HA) as (-> & _). destruct (Sigma_fips (hE s) HE) as (_ & -> & _).
  rewrite Ch_ch, Maj_maj. split; [done|].
  unfold hash8_ok; simpl; split_and!; first [assumption | by apply Z.mod_pos_bound].
Qed.

Lemma rounds_fips s ks ws :
  hash8_ok s ->
  foldl sha256_round s (zip ks ws) = Fips.rounds s ks ws /\ hash8_ok (Fips.rounds s ks ws).
Proof.
  revert s ws. induction ks as [|k ks IH]; intros s [|w ws] Hs; simpl; auto.
  destruct (round_fips s k w Hs) as [E Hok]. simpl in E. rewrite E. by apply IH.
Qed.

Lemma K_fips : K = Fips.Kt.
Proof. by vm_compute. Qed.

Lemma H0_fips : state sha256_init = Fips.H0.
Proof. by vm_compute. Qed.

Lemma compress_block_fips s blk :
  hash8_ok s -> is_bytes blk ->
  sha256_compress_block s blk = Fips.hash_block s blk /\ hash8_ok (Fips.hash_block s blk).
Proof.
  intros Hs Hb. unfold sha256_compress_block, Fips.hash_block. rewrite W_schedule_fips, K_fips by done.
  destruct (rounds_fips s Fips.Kt (Fips.schedule blk 64) Hs) as [-> _].
  split; [done|]. apply hash8_add_ok.
Qed.

Lemma compress_blocks_fips n s data :
  hash8_ok s -> is_bytes data -> (64 * n <= length data)%nat ->
  sha256_compress_blocks s data n = Some (Fips.hash_blocks n s data)
  /\ hash8_ok (Fips.hash_blocks n s data).
Proof.
  revert s data. induction n as [|n IH]; intros s data Hs Hb Hl;
    cbn [sha256_compress_blocks Fips.hash_blocks]; [done|].
  rewrite rd_range_prefix by lia. cbn [mbind option_bind]. change (Z.to_nat 64) with 64%nat.
  destruct (compress_block_fips s (take 64 data) Hs) as [-> Hok]; [by apply Forall_take|].
  apply IH; [done|by apply Forall_drop|rewrite length_drop; lia].
Qed.

Lemma hash_blocks_app n m s a b :
  length a = (64 * n)%nat ->
  Fips.hash_blocks (n + m) s (a ++ b) = Fips.hash_blocks m (Fips.hash_blocks n s a) b.
Proof.
  revert s a. induction n as [|n IH]; intros s a Ha; simpl in *.
  { by apply nil_length_inv in Ha as ->. }
  rewrite take_app_le, drop_app_le by lia. apply IH. rewrite length_drop. lia.
Qed.

(** ** What a context stands for *)

(** The context has absorbed the message [m]: whole blocks are in the chaining
    state, the rest at the front of the buffer (whatever follows it is stale). *)
Definition ctx_repr (c : SHA256_CTX) (m : list Z) : Prop :=
  exists n full tail rest,
    m = full ++ tail /\ is_bytes m /\ length full = (64 * n)%nat /\
    block c = tail ++ rest /\ length (block c) = 64%nat /\ (length tail < 64)%nat /\
    num c = Z.of_nat (length tail) /\ nblocks c = u64 (Z.of_nat n) /\
    state c = Fips.hash_blocks n (state sha256_init) full.

Lemma hash_blocks_prefix n s a b :
  length a = (64 * n)%nat -> Fips.hash_blocks n s (a ++ b) = Fips.hash_blocks n s a.
Proof.
  intros Ha. pose proof (hash_blocks_app n 0 s a b Ha) as H.
  by rewrite Nat.add_0_r in H.
Qed.

Lemma hash_blocks_ok n s m : hash8_ok s -> hash8_ok (Fips.hash_blocks n s m).
Proof.
  revert s m. induction n as [|n IH]; intros s m Hs; simpl; [done|].
  apply IH. apply hash8_add_ok.
Qed.

Lemma init_ok : hash8_ok (state sha256_init).
Proof. unfold hash8_ok, word; simpl; lia. Qed.

Lemma ctx_repr_init : ctx_repr sha256_init [].
Proof. exists 0%nat, [], [], (replicate 64 0). split_and!; done || (simpl; lia). Qed.

Lemma rd_range_all {A} (m : list A) len :
  len = Z.of_nat (length m) -> rd_range m 0 len = Some m.
Proof.
  intros ->. rewrite rd_range_prefix by lia. by rewrite Nat2Z.id, take_ge.
Qed.

(** Writing [d] at the front of a buffer. *)
Lemma wr_range_front {A} (m d : list A) :
  (length d <= length m)%nat ->
  wr_range m 0 d = Some (d ++ drop (length d) m).
Proof. intros. unfold wr_range. by decide_lia. Qed.

Lemma div_64_nat (l : nat) :
  exists q : nat, Z.of_nat l / 64 = Z.of_nat q /\ (64 * q <= l < 64 * q + 64)%nat.
Proof. exists (Z.to_nat (Z.of_nat l / 64)). dlia. Qed.

Lemma update_tail_repr n full st blk data :
  is_bytes (full ++ data) -> length full = (64 * n)%nat -> length blk = 64%nat ->
  st = Fips.hash_blocks n (state sha256_init) full ->
  exists c, sha256_update_tail st (u64 (Z.of_nat n)) blk data (Z.of_nat (length data)) = Some c
            /\ ctx_repr c (full ++ data).
Proof.
  intros Hb Hf Hblk ->. apply Forall_app in Hb as Hb'. destruct Hb' as [_ Hbd].
  destruct (div_64_nat (length data)) as (q & Hq & Hql).
  destruct (split_at data (64 * q)) as (a & b & Eab & Ha); [lia|].
  assert (Hlb : length b = (length data - 64 * q)%nat) by (subst data; rewrite length_app; lia).
  unfold sha256_update_tail, SHA256_BLOCK_SIZE. rewrite Hq.
  set (S0 := Fips.hash_blocks n (state sha256_init) full).
  assert (Hst : (if decide (Z.of_nat q ≠ 0) then
       st' ← sha256_compress_blocks S0 data (Z.to_nat (Z.of_nat q));
       Some (st', u64 (u64 (Z.of_nat n) + Z.of_nat q), drop (Z.to_nat (64 * Z.of_nat q)) data,
             Z.of_nat (length data) - 64 * Z.of_nat q)
     else Some (S0, u64 (Z.of_nat n), data, Z.of_nat (length data)))
     = Some (Fips.hash_blocks q S0 a, u64 (Z.of_nat (n + q)), b, Z.of_nat (length b))).
  { case_decide as Hd.
    - rewrite Nat2Z.id. destruct (compress_blocks_fips q S0 data) as [-> _];
        [apply hash_blocks_ok, init_ok|done|lia|]. simpl.
      rewrite Eab at 1. rewrite hash_blocks_prefix by done.
      replace (Z.to_nat (64 * Z.of_nat q)) with (length a) by lia.
      rewrite Eab at 1. rewrite drop_app_length. unfold u64. rewrite wrap_add_l.
      rewrite <- Nat2Z.inj_add. do 2 f_equal. lia.
    - assert (q = 0%nat) as Hq0 by lia. rewrite Hq0 in *. simpl in Ha.
      apply nil_length_inv in Ha as ->. rewrite Nat.add_0_r. simpl in Eab. by subst b. }
  rewrite Hst. cbn [mbind option_bind].
  assert (Hrep : forall blk', length blk' = 64%nat -> (exists rest, blk' = b ++ rest) ->
     ctx_repr (mkctx (Fips.hash_blocks q S0 a) (u64 (Z.of_nat (n + q))) blk' (Z.of_nat (length b)))
              (full ++ data)).
  { intros blk' Hl [rest ->]. exists (n + q)%nat, (full ++ a), b, rest. simpl.
    rewrite Eab, app_assoc. rewrite Eab, app_assoc in Hb.
    split_and!; try done; [rewrite length_app; lia|lia|].
    by rewrite hash_blocks_app. }
  destruct (decide (Z.of_nat (length b) ≠ 0)) as [Hd|Hd].
  - rewrite rd_range_all by done. cbn [mbind option_bind].
    rewrite wr_range_front by (lia). cbn [mbind option_bind].
    eexists. split; [done|]. apply Hrep; [|by eexists].
    rewrite length_app, length_drop. lia.
  - eexists. split; [done|]. apply Hrep; [done|].
    exists blk. rewrite (nil_length_inv b) by lia. done.
Qed.

Lemma land_63 x : 0 <= x < 64 -> Z.land x 0x3f = x.
Proof. intros. change 0x3f with (Z.ones 6). rewrite Z.land_ones by lia. by apply Z.mod_small. Qed.

(** One update appends its data to the absorbed message, for every fill level
    of the buffer and every data length. *)
Lemma update_repr c m d :
  ctx_repr c m -> is_bytes d ->
  exists c', sha256_update c d (Z.of_nat (length d)) = Some c' /\ ctx_repr c' (m ++ d).
Proof.
  intros (n & full & tail & rest & -> & Hb & Hf & Hblk & H64 & Ht & Hnum & Hnb & Hst) Hd.
  assert (Hbmd : is_bytes (full ++ tail ++ d)) by (rewrite app_assoc; by apply Forall_app).
  unfold sha256_update, SHA256_BLOCK_SIZE. rewrite Hnum, land_63 by lia.
  rewrite <- app_assoc. rewrite Hblk, length_app in H64.
  case_decide as Hn0; [case_decide as Hlt|].
  - rewrite rd_range_all by done. cbn [mbind option_bind]. rewrite Hblk.
    destruct (split_at rest (length d)) as (r1 & r2 & -> & Hr1); [lia|].
    rewrite wr_range_app by done. cbn [mbind option_bind]. eexists. split; [done|].
    rewrite length_app in H64.
    exists n, full, (tail ++ d), r2. simpl. rewrite <- app_assoc, !length_app.
    split_and!; done || lia.
  - destruct (split_at d (64 - length tail)) as (d1 & d2 & -> & Hd1); [lia|].
    rewrite rd_range_prefix by (rewrite length_app in *; lia). cbn [mbind option_bind].
    replace (Z.to_nat (64 - Z.of_nat (length tail))) with (length d1) by lia.
    rewrite take_app_length, drop_app_length, Hblk.
    rewrite <- (app_nil_r rest), wr_range_app by (done || lia). cbn [mbind option_bind].
    rewrite app_nil_r. rewrite length_app in Hlt.
    assert (Hbf : is_bytes (full ++ (tail ++ d1) ++ d2)) by by rewrite <- (app_assoc tail).
    apply Forall_app in Hbf as [_ [Htd _]%Forall_app].
    destruct (compress_blocks_fips 1 (state c) (tail ++ d1)) as [-> _];
      [rewrite Hst; apply hash_blocks_ok, init_ok|done|rewrite length_app; lia|].
    cbn [mbind option_bind].
    replace (Z.of_nat (length (d1 ++ d2)) - (64 - Z.of_nat (length tail)))
      with (Z.of_nat (length d2)) by (rewrite length_app; lia).
    rewrite Hnb. replace (u64 (u64 (Z.of_nat n) + 1)) with (u64 (Z.of_nat (n + 1)))
      by (unfold u64; rewrite wrap_add_l; f_equal; lia).
    rewrite (app_assoc tail), (app_assoc full).
    apply update_tail_repr; [by rewrite <- !app_assoc|rewrite !length_app; lia|rewrite length_app; lia|].
    rewrite Hst, hash_blocks_app by done. done.
  - assert (tail = []) as -> by (apply nil_length_inv; lia). simpl in *.
    rewrite Hnb. apply update_tail_repr; try done. by rewrite Hblk.
Qed.

(** The digest does not see stale buffer bytes: contexts are compared up to them. *)
Definition ctx_equiv (c1 c2 : SHA256_CTX) : Prop :=
  state c1 = state c2 /\ nblocks c1 = nblocks c2 /\ num c1 = num c2 /\
  take (Z.to_nat (num c1)) (block c1) = take (Z.to_nat (num c2)) (block c2).

#[export] Instance ctx_equiv_equivalence : Equivalence ctx_equiv.
Proof.
  split; unfold ctx_equiv; [by intros c|by intros c1 c2 (->&->&->&->)|].
  by intros c1 c2 c3 (->&->&->&->) (->&->&->&->).
Qed.

Lemma ctx_repr_equiv c1 c2 m : ctx_repr c1 m -> ctx_repr c2 m -> ctx_equiv c1 c2.
Proof.
  intros (n1 & f1 & t1 & r1 & E1 & _ & Hf1 & Hb1 & _ & Ht1 & Hn1 & Hk1 & Hs1)
         (n2 & f2 & t2 & r2 & E2 & _ & Hf2 & Hb2 & _ & Ht2 & Hn2 & Hk2 & Hs2).
  rewrite E1 in E2. assert (n1 = n2) as ->.
  { apply (f_equal length) in E2. rewrite !length_app in E2. lia. }
  apply app_inj_1 in E2 as [-> ->]; [|lia].
  unfold ctx_equiv. rewrite Hs1, Hs2, Hk1, Hk2, Hn1, Hn2, Hb1, Hb2.
  by rewrite !Nat2Z.id, !take_app_length.
Qed.

(** ** Padding *)

Lemma PUTU32_pair n t :
  0 <= n < 2 ^ 55 -> 0 <= t < 64 ->
  PUTU32 (Z.shiftr n 23) ++ PUTU32 (u64 (u64 (Z.shiftl n 9) + Z.shiftl t 3))
  = Fips.be_bytes 8 (8 * (64 * n + t)).
Proof.
  intros Hn Ht. unfold PUTU32. rewrite !Z.shiftl_mul_pow2, (u64_small (n * _)), u64_small by lia.
  rewrite !Z.shiftr_div_pow2 by lia. cbn [app Fips.be_bytes]. unfold u8, wrap.
  repeat apply (f_equal2 cons); try done; change (2 ^ 8) with 256;
    apply (f_equal (fun z => z mod 256)); simpl Z.of_nat; dlia.
Qed.

Lemma compress1_fips s blk :
  hash8_ok s -> is_bytes blk -> length blk = 64%nat ->
  sha256_compress_blocks s blk 1 = Some (Fips.hash_block s blk).
Proof.
  intros Hs Hb Hl. destruct (compress_blocks_fips 1 s blk Hs Hb) as [-> _]; [lia|].
  simpl. by rewrite firstn_all2 by lia.
Qed.

Lemma be_bytes_length n x : length (Fips.be_bytes n x) = n.
Proof. induction n; simpl; auto. Qed.

Lemma be_bytes_is_bytes n x : is_bytes (Fips.be_bytes n x).
Proof.
  induction n; cbn [Fips.be_bytes]; constructor; auto. apply Z.mod_pos_bound. lia.
Qed.

Lemma zeros_is_bytes n : is_bytes (replicate n 0).
Proof. apply Forall_replicate. unfold is_byte. lia. Qed.

Lemma clear_range_app (a b c : list Z) off len :
  off = Z.of_nat (length a) -> len = Z.of_nat (length b) ->
  clear_range (a ++ b ++ c) off len = Some (a ++ replicate (length b) 0 ++ c).
Proof.
  intros -> ->. unfold clear_range. rewrite Nat2Z.id.
  apply wr_range_app; [done|]. by rewrite length_replicate.
Qed.

(** Hashing a message whose last blocks are given explicitly. *)
Lemma sha256_tail full n last k m :
  length full = (64 * n)%nat -> Fips.pad m = full ++ last -> length last = (64 * k)%nat ->
  Fips.sha256 m
  = hash8_bytes (Fips.hash_blocks k (Fips.hash_blocks n (state sha256_init) full) last).
Proof.
  intros Hf Hp Hl. unfold Fips.sha256. rewrite Hp, length_app, Hf, Hl.
  replace (64 * n + 64 * k)%nat with ((n + k) * 64)%nat by lia.
  rewrite Nat.div_mul by lia. by rewrite hash_blocks_app.
Qed.

(** The stores of [sha256_finish], one lemma each: zeroes after the one bit up
    to the length field, up to the end, over the front; then the length. *)
Lemma clear_to_length (tail rest : list Z) :
  (length tail <= 55)%nat -> (length tail + S (length rest) = 64)%nat ->
  exists r8, length r8 = 8%nat /\
    clear_range (tail ++ 0x80 :: rest) (Z.of_nat (length tail) + 1) (64 - Z.of_nat (length tail) - 9)
    = Some ((tail ++ [0x80] ++ replicate (55 - length tail) 0) ++ r8).
Proof.
  intros Ht H64. destruct (split_at rest (55 - length tail)) as (ra & r8 & -> & Hra); [lia|].
  rewrite length_app in H64. exists r8. split; [lia|].
  rewrite (cons_middle 0x80 tail), (app_assoc tail).
  rewrite clear_range_app by (rewrite ?length_app; simpl; lia). rewrite Hra.
  by rewrite <- !app_assoc.
Qed.

Lemma clear_to_end (tail rest : list Z) :
  (length tail + S (length rest) = 64)%nat ->
  clear_range (tail ++ 0x80 :: rest) (Z.of_nat (length tail) + 1) (64 - Z.of_nat (length tail) - 1)
  = Some (tail ++ [0x80] ++ replicate (length rest) 0).
Proof.
  intros H64. rewrite (cons_middle 0x80 tail), (app_assoc tail), <- (app_nil_r rest).
  rewrite clear_range_app by (rewrite ?length_app; simpl; lia).
  by rewrite !app_nil_r, <- app_assoc.
Qed.

Lemma clear_front (b : list Z) :
  length b = 64%nat ->
  exists r8, length r8 = 8%nat /\ clear_range b 0 (64 - 8) = Some (replicate 56 0 ++ r8).
Proof.
  intros Hb. destruct (split_at b 56) as (f & r8 & -> & Hf); [lia|].
  rewrite length_app in Hb. exists r8. split; [lia|].
  change (f ++ r8) with ([] ++ f ++ r8). rewrite clear_range_app by (simpl; lia).
  by rewrite Hf.
Qed.

Lemma store_length {A} (front r8 hi lo : list Z) (k : list Z -> option A) :
  length front = 56%nat -> length r8 = 8%nat -> length hi = 4%nat -> length lo = 4%nat ->
  (blk ← wr_range (front ++ r8) 56 hi; blk ← wr_range blk 60 lo; k blk) = k (front ++ hi ++ lo).
Proof.
  intros Hf Hr Hh Hl. destruct (split_at r8 4) as (a & b & -> & Ha); [lia|].
  rewrite length_app in Hr. rewrite wr_range_app by lia. simpl.
  rewrite <- (app_nil_r b), (app_assoc front), wr_range_app by (rewrite ?length_app; lia).
  by rewrite app_nil_r, <- app_assoc.
Qed.

(** The padding seen from the tail: it only depends on the tail's length and
    on the total length. *)
Lemma pad_tail (full tail : list Z) n :
  length full = (64 * n)%nat -> (length tail < 64)%nat ->
  Fips.pad (full ++ tail)
  = full ++ tail ++ [0x80] ++ replicate (Z.to_nat ((55 - Z.of_nat (length tail)) mod 64)) 0
         ++ Fips.be_bytes 8 (8 * (64 * Z.of_nat n + Z.of_nat (length tail))).
Proof.
  intros Hf Ht. unfold Fips.pad. rewrite <- app_assoc, length_app.
  replace (Z.of_nat (length full + length tail))
    with (64 * Z.of_nat n + Z.of_nat (length tail)) by lia.
  replace (55 - (64 * Z.of_nat n + Z.of_nat (length tail)))
    with (55 - Z.of_nat (length tail) + (- Z.of_nat n) * 64) by lia.
  by rewrite Z_mod_plus_full.
Qed.

Ltac crush_bytes :=
  repeat lazymatch goal with
  | |- Forall _ (_ ++ _) => apply Forall_app_2
  | |- Forall _ (_ :: _) => apply Forall_cons_2
  | |- Forall _ [] => apply Forall_nil_2
  | |- Forall _ (replicate _ 0) => apply zeros_is_bytes
  | |- Forall _ (Fips.be_bytes _ _) => apply be_bytes_is_bytes
  | |- is_byte _ => unfold is_byte; lia
  | |- Forall _ _ => assumption
  end.
Ltac crush_length :=
  rewrite ?length_app, ?length_replicate, ?be_bytes_length; cbn [length PUTU32]; lia.

Lemma finish_repr c m :
  ctx_repr c m -> 8 * Z.of_nat (length m) < 2 ^ 64 -> sha256_finish c = Some (Fips.sha256 m).
Proof.
  intros (n & full & tail & rest & -> & Hb & Hf & Hblk & H64 & Ht & Hnum & Hnb & Hst) Hlen.
  rewrite length_app in Hlen. apply Forall_app in Hb as [_ Hbt].
  rewrite Hblk, length_app in H64. destruct rest as [|r0 rest]; [simpl in H64; lia|].
  assert (Hok : hash8_ok (state c)) by (rewrite Hst; apply hash_blocks_ok, init_ok).
  pose proof (pad_tail full tail n Hf Ht) as Hpad.
  pose proof (PUTU32_pair (Z.of_nat n) (Z.of_nat (length tail)) ltac:(lia) ltac:(lia)) as Hpair.
  unfold sha256_finish, SHA256_BLOCK_SIZE. rewrite Hnum, land_63, Hblk, wr_app by (done || lia).
  cbn [mbind option_bind length] in *.
  rewrite Hnb, (u64_small (Z.of_nat n)) by lia.
  destruct (decide (Z.of_nat (length tail) <= 64 - 9)) as [H55|H55].
  - destruct (clear_to_length tail rest) as (r8 & Hr8 & ->); [lia..|].
    cbn [mbind option_bind].
    rewrite store_length, Hpair by (done || crush_length).
    rewrite Z.mod_small in Hpad by lia.
    replace (Z.to_nat (55 - Z.of_nat (length tail))) with (55 - length tail)%nat in Hpad by lia.
    rewrite <- !app_assoc.
    rewrite compress1_fips; [|done|crush_bytes|crush_length]. cbn [mbind option_bind].
    rewrite (sha256_tail full n _ 1 _ Hf Hpad) by crush_length.
    rewrite Hst. cbn [Fips.hash_blocks]. by rewrite firstn_all2 by crush_length.
  - rewrite clear_to_end by lia. cbn [mbind option_bind].
    rewrite compress1_fips; [|done|crush_bytes|crush_length]. cbn [mbind option_bind].
    destruct (clear_front (tail ++ [0x80] ++ replicate (length rest) 0)) as (r8 & Hr8 & ->);
      [crush_length|]. cbn [mbind option_bind].
    rewrite store_length, Hpair by (done || crush_length).
    rewrite compress1_fips; [|apply hash8_add_ok|crush_bytes|crush_length]. cbn [mbind option_bind].
    replace ((55 - Z.of_nat (length tail)) mod 64) with (Z.of_nat (length rest + 56)) in Hpad
      by (rewrite <- (Z_mod_plus_full _ 1), Z.mod_small by lia; lia).
    rewrite Nat2Z.id, replicate_add, <- !app_assoc, (app_assoc tail), (app_assoc _ (replicate _ _)) in Hpad.
    rewrite (sha256_tail full n _ 2 _ Hf Hpad) by crush_length.
    rewrite Hst. cbn [Fips.hash_blocks].
    rewrite take_app_le, drop_app_le, firstn_all2, skipn_all2 by crush_length.
    rewrite <- app_assoc. cbn [app]. by rewrite firstn_all2 by crush_length.
Qed.

(** ** Properties *)

Lemma updates_repr c m chunks :
  ctx_repr c m -> Forall (Forall is_byte) chunks ->
  exists c', sha256_updates c chunks = Some c' /\ ctx_repr c' (m ++ concat chunks).
Proof.
  intros Hc Hb. revert c m Hc. induction Hb as [|d ds Hd Hds IH]; intros c m Hc; cbn.
  { exists c. by rewrite app_nil_r. }
  destruct (update_repr c m d Hc Hd) as (c1 & -> & Hc1). cbn [mbind option_bind].
  destruct (IH c1 _ Hc1) as (c2 & -> & Hc2). exists c2. by rewrite app_assoc.
Qed.

(** C11: the streaming digest is SHA-256 as FIPS 180-4 defines it, for every way of
    cutting the message into chunks and every message of less than 2^61 bytes:
    no access is out of range, and the result is the hash of the concatenation. *)
Theorem sha256_correct chunks :
  Forall (Forall is_byte) chunks -> 8 * Z.of_nat (length (concat chunks)) < 2 ^ 64 ->
  sha256_digest chunks = Some (Fips.sha256 (concat chunks)).
Proof.
  intros Hb Hl. destruct (updates_repr _ _ chunks ctx_repr_init Hb) as (c & Hc & Hr).
  unfold sha256_digest. rewrite Hc. by apply finish_repr.
Qed.

(** FIPS 180-4 test vector: "abc" in two chunks. *)
Lemma sha256_correct_witness :
  sha256_digest [[97]; [98; 99]] = Some (Fips.sha256 [97; 98; 99]) /\
  Fips.sha256 [97; 98; 99]
  = [0xba; 0x78; 0x16; 0xbf; 0x8f; 0x01; 0xcf; 0xea; 0x41; 0x41; 0x40; 0xde; 0x5d; 0xae; 0x22; 0x23;
     0xb0; 0x03; 0x61; 0xa3; 0x96; 0x17; 0x7a; 0x9c; 0xb4; 0x10; 0xff; 0x61; 0xf2; 0x00; 0x15; 0xad].
Proof.
  split; [|by vm_compute].
  apply (sha256_correct [[97]; [98; 99]]); [|by vm_compute].
  repeat constructor; lia.
Defined.

(** [sha256_update] is incremental: feeding [a] then [b] leaves the context
    that feeding [a ++ b] leaves, up to the stale bytes of the buffer, which no
    later operation reads. *)
Lemma sha256_update_app c m a b :
  ctx_repr c m -> is_bytes a -> is_bytes b ->
  exists c1 c2 c',
    sha256_update c a (Z.of_nat (length a)) = Some c1 /\
    sha256_update c1 b (Z.of_nat (length b)) = Some c2 /\
    sha256_update c (a ++ b) (Z.of_nat (length (a ++ b))) = Some c' /\
    ctx_equiv c2 c'.
Proof.
  intros Hc Ha Hb.
  destruct (update_repr c m a Hc Ha) as (c1 & E1 & H1).
  destruct (update_repr c1 _ b H1 Hb) as (c2 & E2 & H2).
  destruct (update_repr c m (a ++ b) Hc) as (c' & E' & H'); [by apply Forall_app_2|].
  exists c1, c2, c'. split_and!; try done. rewrite app_assoc in H'. by eapply ctx_repr_equiv.
Qed.

