(* ===== verification/Xxhash.v ===== *)
(** xxHash, 32 and 64 bits (src/src/xlib/xxhash.c).

    The code reads the input through a pointer, with two load functions chosen
    by the alignment of the input address.  The model keeps the input region
    and the read position apart, so that a read past the end of the input is a
    fault ([None]).  Module [Spec] states the algorithm on the byte list alone,
    cut into stripes, lanes and bytes; the theorems prove that the code never
    reads out of the input, that it computes the specification, and that the
    result does not depend on the address. *)

From Stdlib Require Import Btauto.
From S2P Require Import Prelude.

Inductive XXH_alignment := XXH_aligned | XXH_unaligned.

#[export] Instance XXH_alignment_eq_dec : EqDecision XXH_alignment.
Proof. solve_decision. Defined.

(** ** 32 bits *)

Definition XXH_PRIME32_1 : Z := 0x9E3779B1.
Definition XXH_PRIME32_2 : Z := 0x85EBCA77.
Definition XXH_PRIME32_3 : Z := 0xC2B2AE3D.
Definition XXH_PRIME32_4 : Z := 0x27D4EB2F.
Definition XXH_PRIME32_5 : Z := 0x165667B1.

Definition XXH_rotl32 (x r : Z) : Z := Z.lor (u32 (Z.shiftl x r)) (Z.shiftr x (32 - r)).

(** [XXH_readLE32]: four byte loads. *)
Definition XXH_readLE32 (m : list Z) (p : Z) : option Z :=
  b0 ← rd m p; b1 ← rd m (p + 1); b2 ← rd m (p + 2); b3 ← rd m (p + 3);
  Some (Z.lor (Z.lor (Z.lor b0 (u32 (Z.shiftl b1 8))) (u32 (Z.shiftl b2 16))) (u32 (Z.shiftl b3 24))).

(** [*(const xxh_u32* )ptr] on a little-endian machine: a word load. *)
Definition load_le (n : nat) (m : list Z) (p : Z) : option Z :=
  bs ← rd_range m p (Z.of_nat n); Some (of_le_bytes bs).

Definition XXH_swap32 (x : Z) : Z :=
  Z.lor (Z.lor (Z.lor (Z.land (u32 (Z.shiftl x 24)) 0xff000000)
                      (Z.land (u32 (Z.shiftl x 8)) 0x00ff0000))
               (Z.land (Z.shiftr x 8) 0x0000ff00))
        (Z.land (Z.shiftr x 24) 0x000000ff).

(** [little] is the macro [__LITTLE_ENDIAN__]; the aligned load of a big-endian
    machine sees the bytes in the other order. *)
Definition load_word (little : bool) (n : nat) (m : list Z) (p : Z) : option Z :=
  bs ← rd_range m p (Z.of_nat n); Some (of_le_bytes (if little then bs else rev bs)).

Definition XXH_readLE32_align (little : bool) (m : list Z) (p : Z) (align : XXH_alignment)
    : option Z :=
  match align with
  | XXH_unaligned => XXH_readLE32 m p
  | XXH_aligned => w ← load_word little 4 m p; Some (if little then w else XXH_swap32 w)
  end.

Definition XXH32_round (acc input : Z) : Z :=
  let acc := u32 (acc + u32 (input * XXH_PRIME32_2)) in
  let acc := XXH_rotl32 acc 13 in
  u32 (acc * XXH_PRIME32_1).

Definition XXH32_avalanche (hash : Z) : Z :=
  let hash := Z.lxor hash (Z.shiftr hash 15) in
  let hash := u32 (hash * XXH_PRIME32_2) in
  let hash := Z.lxor hash (Z.shiftr hash 13) in
  let hash := u32 (hash * XXH_PRIME32_3) in
  Z.lxor hash (Z.shiftr hash 16).

Definition XXH_PROCESS1 (hash b : Z) : Z :=
  let hash := u32 (hash + u32 (b * XXH_PRIME32_5)) in
  u32 (XXH_rotl32 hash 11 * XXH_PRIME32_1).

Definition XXH_PROCESS4 (hash w : Z) : Z :=
  let hash := u32 (hash + u32 (w * XXH_PRIME32_3)) in
  u32 (XXH_rotl32 hash 17 * XXH_PRIME32_4).

Section Code32.
Context (little : bool) (m : list Z) (align : XXH_alignment).

(** [while (len >= 4) { XXH_PROCESS4; len -= 4; }]; returns the hash, the
      pointer and the remaining length.  One unit of fuel per turn. *)
Fixpoint XXH32_loop4 (fuel : nat) (hash ptr len : Z) : option (Z * Z * Z) :=
    match fuel with
    | O => None
    | S f =>
        if decide (4 <= len) then
          w ← XXH_readLE32_align little m ptr align;
          XXH32_loop4 f (XXH_PROCESS4 hash w) (ptr + 4) (len - 4)
        else Some (hash, ptr, len)
    end.

(** [while (len > 0) { XXH_PROCESS1; --len; }] *)
Fixpoint XXH32_loop1 (fuel : nat) (hash ptr len : Z) : option Z :=
    match fuel with
    | O => None
    | S f =>
        if decide (0 < len) then
          b ← rd m ptr; XXH32_loop1 f (XXH_PROCESS1 hash b) (ptr + 1) (len - 1)
        else Some hash
    end.

Definition XXH32_finalize (hash ptr len : Z) : option Z :=
    let len := Z.land len 15 in
    '(hash, ptr, len) ← XXH32_loop4 5 hash ptr len;
    hash ← XXH32_loop1 5 hash ptr len;
    Some (XXH32_avalanche hash).

(** [do { ... } while (input < limit)]: four rounds a turn. *)
Fixpoint XXH32_stripes (fuel : nat) (v : Z * Z * Z * Z) (input limit : Z)
      : option (Z * Z * Z * Z * Z) :=
    match fuel with
    | O => None
    | S f =>
        let '(v1, v2, v3, v4) := v in
        w1 ← XXH_readLE32_align little m input align;
        w2 ← XXH_readLE32_align little m (input + 4) align;
        w3 ← XXH_readLE32_align little m (input + 8) align;
        w4 ← XXH_readLE32_align little m (input + 12) align;
        let v := (XXH32_round v1 w1, XXH32_round v2 w2, XXH32_round v3 w3, XXH32_round v4 w4) in
        if decide (input + 16 < limit) then XXH32_stripes f v (input + 16) limit
        else Some (v, input + 16)
    end.

Definition XXH32_endian_align (input len seed : Z) : option Z :=
    '(h32, input) ←
      (if decide (16 <= len) then
         let limit := input + len - 15 in
         let v := (u32 (u32 (seed + XXH_PRIME32_1) + XXH_PRIME32_2), u32 (seed + XXH_PRIME32_2),
                   u32 (seed + 0), u32 (seed - XXH_PRIME32_1)) in
         '((v1, v2, v3, v4), input) ← XXH32_stripes (Z.to_nat len) v input limit;
         Some (u32 (XXH_rotl32 v1 1 + XXH_rotl32 v2 7 + XXH_rotl32 v3 12 + XXH_rotl32 v4 18), input)
       else Some (u32 (seed + XXH_PRIME32_5), input));
    XXH32_finalize (u32 (h32 + u32 len)) input (Z.land len 15).
End Code32.

(** [xxhash32] at address [addr]: the region [m] starts there. *)
Definition xxhash32 (little : bool) (addr : Z) (m : list Z) (len seed : Z) : option Z :=
  if decide (Z.land addr 3 = 0) then XXH32_endian_align little m XXH_aligned 0 len seed
  else XXH32_endian_align little m XXH_unaligned 0 len seed.

(** ** 64 bits *)

Definition XXH_PRIME64_1 : Z := 0x9E3779B185EBCA87.
Definition XXH_PRIME64_2 : Z := 0xC2B2AE3D27D4EB4F.
Definition XXH_PRIME64_3 : Z := 0x165667B19E3779F9.
Definition XXH_PRIME64_4 : Z := 0x85EBCA77C2B2AE63.
Definition XXH_PRIME64_5 : Z := 0x27D4EB2F165667C5.

Definition XXH_rotl64 (x r : Z) : Z := Z.lor (u64 (Z.shiftl x r)) (Z.shiftr x (64 - r)).

Definition XXH64_round (acc input : Z) : Z :=
  let acc := u64 (acc + u64 (input * XXH_PRIME64_2)) in
  let acc := XXH_rotl64 acc 31 in
  u64 (acc * XXH_PRIME64_1).

Definition XXH64_mergeRound (acc val : Z) : Z :=
  let val := XXH64_round 0 val in
  let acc := Z.lxor acc val in
  u64 (u64 (acc * XXH_PRIME64_1) + XXH_PRIME64_4).

Definition XXH64_avalanche (hash : Z) : Z :=
  let hash := Z.lxor hash (Z.shiftr hash 33) in
  let hash := u64 (hash * XXH_PRIME64_2) in
  let hash := Z.lxor hash (Z.shiftr hash 29) in
  let hash := u64 (hash * XXH_PRIME64_3) in
  Z.lxor hash (Z.shiftr hash 32).

Definition XXH_swap64 (x : Z) : Z :=
  Z.lor (Z.lor (Z.lor (Z.lor (Z.lor (Z.lor (Z.lor
    (Z.land (u64 (Z.shiftl x 56)) 0xff00000000000000)
    (Z.land (u64 (Z.shiftl x 40)) 0x00ff000000000000))
    (Z.land (u64 (Z.shiftl x 24)) 0x0000ff0000000000))
    (Z.land (u64 (Z.shiftl x 8))  0x000000ff00000000))
    (Z.land (Z.shiftr x 8)  0x00000000ff000000))
    (Z.land (Z.shiftr x 24) 0x0000000000ff0000))
    (Z.land (Z.shiftr x 40) 0x000000000000ff00))
    (Z.land (Z.shiftr x 56) 0x00000000000000ff).

Definition XXH_readLE64 (m : list Z) (p : Z) : option Z :=
  b0 ← rd m p; b1 ← rd m (p + 1); b2 ← rd m (p + 2); b3 ← rd m (p + 3);
  b4 ← rd m (p + 4); b5 ← rd m (p + 5); b6 ← rd m (p + 6); b7 ← rd m (p + 7);
  Some (Z.lor (Z.lor (Z.lor (Z.lor (Z.lor (Z.lor (Z.lor b0
    (u64 (Z.shiftl b1 8))) (u64 (Z.shiftl b2 16))) (u64 (Z.shiftl b3 24)))
    (u64 (Z.shiftl b4 32))) (u64 (Z.shiftl b5 40))) (u64 (Z.shiftl b6 48))) (u64 (Z.shiftl b7 56))).

Definition XXH_readLE64_align (little : bool) (m : list Z) (p : Z) (align : XXH_alignment)
    : option Z :=
  match align with
  | XXH_unaligned => XXH_readLE64 m p
  | XXH_aligned => w ← load_word little 8 m p; Some (if little then w else XXH_swap64 w)
  end.

(** One turn of each of the three tails of [XXH64_finalize]. *)
Definition XXH64_step8 (hash w : Z) : Z :=
  let hash := Z.lxor hash (XXH64_round 0 w) in
  u64 (u64 (XXH_rotl64 hash 27 * XXH_PRIME64_1) + XXH_PRIME64_4).
Definition XXH64_step4 (hash w : Z) : Z :=
  let hash := Z.lxor hash (u64 (w * XXH_PRIME64_1)) in
  u64 (u64 (XXH_rotl64 hash 23 * XXH_PRIME64_2) + XXH_PRIME64_3).
Definition XXH64_step1 (hash b : Z) : Z :=
  let hash := Z.lxor hash (u64 (b * XXH_PRIME64_5)) in
  u64 (XXH_rotl64 hash 11 * XXH_PRIME64_1).

Section Code64.
(** [base] is the address of the first byte of the region: the 64-bit code
      tests its pointer against [NULL]. *)
Context (little : bool) (base : Z) (m : list Z) (align : XXH_alignment).

Fixpoint XXH64_loop8 (fuel : nat) (hash ptr len : Z) : option (Z * Z * Z) :=
    match fuel with
    | O => None
    | S f =>
        if decide (8 <= len) then
          w ← XXH_readLE64_align little m ptr align;
          XXH64_loop8 f (XXH64_step8 hash w) (ptr + 8) (len - 8)
        else Some (hash, ptr, len)
    end.

Fixpoint XXH64_loop1 (fuel : nat) (hash ptr len : Z) : option Z :=
    match fuel with
    | O => None
    | S f =>
        if decide (0 < len) then
          b ← rd m ptr; XXH64_loop1 f (XXH64_step1 hash b) (ptr + 1) (len - 1)
        else Some hash
    end.

Definition XXH64_finalize (hash ptr len : Z) : option Z :=
    if decide (base + ptr = 0) then Some 0 else
    let len := Z.land len 31 in
    '(hash, ptr, len) ← XXH64_loop8 5 hash ptr len;
    '(hash, ptr, len) ←
      (if decide (4 <= len) then
         w ← XXH_readLE32_align little m ptr align;
         Some (XXH64_step4 hash w, ptr + 4, len - 4)
       else Some (hash, ptr, len));
    hash ← XXH64_loop1 5 hash ptr len;
    Some (XXH64_avalanche hash).

Fixpoint XXH64_stripes (fuel : nat) (v : Z * Z * Z * Z) (input limit : Z)
      : option (Z * Z * Z * Z * Z) :=
    match fuel with
    | O => None
    | S f =>
        let '(v1, v2, v3, v4) := v in
        w1 ← XXH_readLE64_align little m input align;
        w2 ← XXH_readLE64_align little m (input + 8) align;
        w3 ← XXH_readLE64_align little m (input + 16) align;
        w4 ← XXH_readLE64_align little m (input + 24) align;
        let v := (XXH64_round v1 w1, XXH64_round v2 w2, XXH64_round v3 w3, XXH64_round v4 w4) in
        if decide (input + 32 < limit) then XXH64_stripes f v (input + 32) limit
        else Some (v, input + 32)
    end.

Definition XXH64_endian_align (input len seed : Z) : option Z :=
    if decide (base + input = 0) then Some 0 else
    '(h64, input) ←
      (if decide (32 <= len) then
         let limit := input + len - 31 in
         let v := (u64 (u64 (seed + XXH_PRIME64_1) + XXH_PRIME64_2), u64 (seed + XXH_PRIME64_2),
                   u64 (seed + 0), u64 (seed - XXH_PRIME64_1)) in
         '((v1, v2, v3, v4), input) ← XXH64_stripes (Z.to_nat len) v input limit;
         let h := u64 (XXH_rotl64 v1 1 + XXH_rotl64 v2 7 + XXH_rotl64 v3 12 + XXH_rotl64 v4 18) in
         let h := XXH64_mergeRound h v1 in
         let h := XXH64_mergeRound h v2 in
         let h := XXH64_mergeRound h v3 in
         Some (XXH64_mergeRound h v4, input)
       else Some (u64 (seed + XXH_PRIME64_5), input));
    XXH64_finalize (u64 (h64 + len)) input len.
End Code64.

Definition xxhash64 (little : bool) (addr : Z) (m : list Z) (len seed : Z) : option Z :=
  if decide (Z.land addr 7 = 0) then XXH64_endian_align little addr m XXH_aligned 0 len seed
  else XXH64_endian_align little addr m XXH_unaligned 0 len seed.

(** ** The algorithm on the byte list *)

Module Spec.
Definition word (n : nat) (l : list Z) : Z := of_le_bytes (take n l).

Section Hash.
(** One algorithm, two widths: the accumulator update [round], its operand
        size [w] in bytes. *)
Context (round : Z -> Z -> Z) (w : nat).

Definition stripe (v : Z * Z * Z * Z) (l : list Z) : Z * Z * Z * Z :=
      let '(v1, v2, v3, v4) := v in
      (round v1 (word w l), round v2 (word w (drop w l)),
       round v3 (word w (drop (2 * w) l)), round v4 (word w (drop (3 * w) l))).

(** The accumulators after the first [n] stripes of [l]. *)
Fixpoint stripes (n : nat) (v : Z * Z * Z * Z) (l : list Z) : Z * Z * Z * Z :=
      match n with
      | O => v
      | S n' => stripes n' (stripe v l) (drop (4 * w) l)
      end.
End Hash.

(** Fold [step] over the first [n] [w]-byte words of [l]. *)
Fixpoint lanes (step : Z -> Z -> Z) (w n : nat) (h : Z) (l : list Z) : Z :=
    match n with
    | O => h
    | S n' => lanes step w n' (step h (word w l)) (drop w l)
    end.

Definition xxh32 (seed : Z) (l : list Z) : Z :=
    let n := (length l / 16)%nat in
    let r := drop (16 * n) l in
    let h :=
      match n with
      | O => u32 (seed + XXH_PRIME32_5)
      | _ =>
          let '(v1, v2, v3, v4) :=
            stripes XXH32_round 4 n
              (u32 (seed + XXH_PRIME32_1 + XXH_PRIME32_2), u32 (seed + XXH_PRIME32_2),
               u32 seed, u32 (seed - XXH_PRIME32_1)) l in
          u32 (XXH_rotl32 v1 1 + XXH_rotl32 v2 7 + XXH_rotl32 v3 12 + XXH_rotl32 v4 18)
      end in
    let h := u32 (h + Z.of_nat (length l)) in
    let k := (length r / 4)%nat in
    let h := lanes XXH_PROCESS4 4 k h r in
    XXH32_avalanche (foldl XXH_PROCESS1 h (drop (4 * k) r)).

Definition xxh64 (seed : Z) (l : list Z) : Z :=
    let n := (length l / 32)%nat in
    let r := drop (32 * n) l in
    let h :=
      match n with
      | O => u64 (seed + XXH_PRIME64_5)
      | _ =>
          let '(v1, v2, v3, v4) :=
            stripes XXH64_round 8 n
              (u64 (seed + XXH_PRIME64_1 + XXH_PRIME64_2), u64 (seed + XXH_PRIME64_2),
               u64 seed, u64 (seed - XXH_PRIME64_1)) l in
          XXH64_mergeRound (XXH64_mergeRound (XXH64_mergeRound (XXH64_mergeRound
            (u64 (XXH_rotl64 v1 1 + XXH_rotl64 v2 7 + XXH_rotl64 v3 12 + XXH_rotl64 v4 18))
            v1) v2) v3) v4
      end in
    let h := u64 (h + Z.of_nat (length l)) in
    let k := (length r / 8)%nat in
    let h := lanes XXH64_step8 8 k h r in
    let r := drop (8 * k) r in
    let h := if decide (4 <= length r)%nat then XXH64_step4 h (word 4 r) else h in
    let r := if decide (4 <= length r)%nat then drop 4 r else r in
    XXH64_avalanche (foldl XXH64_step1 h r).
End Spec.

(** ** Loads *)

(** Lookup at a known place, for the byte loads. *)
Lemma rd_drop_add (m : list Z) p i b l :
  0 <= p -> drop (Z.to_nat p) m !! i = Some b -> l = p + Z.of_nat i -> rd m l = Some b.
Proof.
  intros Hp H ->. unfold rd. decide_lia. rewrite lookup_drop in H. rewrite <- H. f_equal. lia.
Qed.

Lemma land_mask x k n :
  0 <= k -> 0 <= n -> Z.land x (Z.ones n * 2 ^ k) = (x / 2 ^ k) mod 2 ^ n * 2 ^ k.
Proof.
  intros Hk Hn. rewrite <- Z.shiftl_mul_pow2, <- Z.land_ones, <- Z.shiftr_div_pow2 by done.
  rewrite <- Z.shiftl_mul_pow2 by done. apply Z.bits_inj_iff'. intros i Hi.
  rewrite Z.land_spec. destruct (decide (k <= i)).
  - rewrite !Z.shiftl_spec_high, Z.land_spec, Z.shiftr_spec by lia.
    do 2 f_equal. lia.
  - by rewrite !Z.shiftl_spec_low, andb_false_r by lia.
Qed.

(** Peel the lowest byte off an encoding. *)
Lemma of_le_bytes_shift b l n :
  is_byte b -> 0 <= n -> Z.shiftl (of_le_bytes (b :: l)) n
  = Z.lor (Z.shiftl b n) (Z.shiftl (of_le_bytes l) (n + 8)).
Proof.
  intros. simpl. rewrite Z.shiftl_lor, Z.shiftl_shiftl by lia. do 2 f_equal. lia.
Qed.

(** Both sides are the same disjunction of shifted bytes. *)
Ltac norm_shifts :=
  change (8 + 8) with 16; change (8 + 16) with 24; change (8 + 24) with 32;
  change (8 + 32) with 40; change (8 + 40) with 48; change (8 + 48) with 56.
Ltac lor_bits := apply Z.bits_inj_iff'; intros; rewrite ?Z.lor_spec; btauto.

Lemma of_le_bytes_4 b0 b1 b2 b3 :
  of_le_bytes [b0; b1; b2; b3]
  = Z.lor (Z.lor (Z.lor b0 (Z.shiftl b1 8)) (Z.shiftl b2 16)) (Z.shiftl b3 24).
Proof.
  simpl. rewrite Z.lor_0_r, !Z.shiftl_lor, !Z.shiftl_shiftl by lia. norm_shifts. lor_bits.
Qed.

Lemma of_le_bytes_8 b0 b1 b2 b3 b4 b5 b6 b7 :
  of_le_bytes [b0; b1; b2; b3; b4; b5; b6; b7]
  = Z.lor (Z.lor (Z.lor (Z.lor (Z.lor (Z.lor (Z.lor b0
    (Z.shiftl b1 8)) (Z.shiftl b2 16)) (Z.shiftl b3 24))
    (Z.shiftl b4 32)) (Z.shiftl b5 40)) (Z.shiftl b6 48)) (Z.shiftl b7 56).
Proof.
  simpl. rewrite Z.lor_0_r, !Z.shiftl_lor, !Z.shiftl_shiftl by lia. norm_shifts. lor_bits.
Qed.

Lemma byte_shiftl_small w b k :
  is_byte b -> 0 <= k -> k + 8 <= w -> wrap w (Z.shiftl b k) = Z.shiftl b k.
Proof.
  unfold is_byte. intros. rewrite Z.shiftl_mul_pow2 by lia. apply wrap_small.
  assert (2 ^ (k + 8) <= 2 ^ w) by (apply Z.pow_le_mono_r; lia).
  rewrite Z.pow_add_r in * by lia. pose proof (Z.pow_pos_nonneg 2 k). nia.
Qed.

(** One byte moved by a swap: up (with the shift truncated) or down. *)
Lemma mask_byte x k : 0 <= k -> Z.land x (Z.ones 8 * 2 ^ k) = Z.shiftl ((x / 2 ^ k) mod 256) k.
Proof. intros. rewrite land_mask by lia. by rewrite Z.shiftl_mul_pow2 by lia. Qed.

Lemma swap_up w x s k :
  0 <= s <= k -> k + 8 <= w ->
  Z.land (wrap w (Z.shiftl x s)) (Z.ones 8 * 2 ^ k) = Z.shiftl ((x / 2 ^ (k - s)) mod 256) k.
Proof.
  intros Hs Hk. rewrite mask_byte by lia. f_equal. change 256 with (2 ^ 8).
  apply Z.bits_inj_iff'. intros i Hi. destruct (decide (i < 8)).
  - unfold wrap. rewrite !Z.mod_pow2_bits_low, !Z.div_pow2_bits, Z.mod_pow2_bits_low by lia.
    rewrite Z.shiftl_spec by lia. f_equal. lia.
  - by rewrite !Z.mod_pow2_bits_high by lia.
Qed.

Lemma swap_down x s k :
  0 <= s -> 0 <= k -> Z.land (Z.shiftr x s) (Z.ones 8 * 2 ^ k) = Z.shiftl ((x / 2 ^ (k + s)) mod 256) k.
Proof.
  intros. rewrite mask_byte, Z.shiftr_div_pow2, Z.div_div, <- Z.pow_add_r by lia.
  do 4 f_equal. lia.
Qed.

(** The [i]-th byte of a decoded word. *)
Lemma of_le_bytes_byte l (i : nat) b :
  is_bytes l -> l !! i = Some b -> (of_le_bytes l / 2 ^ (8 * Z.of_nat i)) mod 256 = b.
Proof.
  intros Hl. revert i. induction Hl as [|c l Hc Hl IH]; intros i Hi; [done|].
  rewrite of_le_bytes_cons by done. unfold is_byte in Hc. destruct i as [|i].
  - injection Hi as ->. simpl. rewrite Z.div_1_r, Z_mod_plus_full. by apply Z.mod_small.
  - replace (8 * Z.of_nat (S i)) with (8 + 8 * Z.of_nat i) by lia.
    rewrite Z.pow_add_r, <- Z.div_div by lia. change (2 ^ 8) with 256. rewrite Z.div_add, (Z.div_small c 256) by lia. by apply IH.
Qed.

Lemma swap32_rev b0 b1 b2 b3 :
  is_bytes [b3; b2; b1; b0] ->
  XXH_swap32 (of_le_bytes [b3; b2; b1; b0]) = of_le_bytes [b0; b1; b2; b3].
Proof.
  intros H. unfold XXH_swap32, u32. set (x := of_le_bytes _).
  change 0xff000000 with (Z.ones 8 * 2 ^ 24). change 0x00ff0000 with (Z.ones 8 * 2 ^ 16).
  change 0x0000ff00 with (Z.ones 8 * 2 ^ 8). change 0x000000ff with (Z.ones 8 * 2 ^ 0).
  rewrite !swap_up, !swap_down by lia.
  pose proof (fun i b => of_le_bytes_byte _ i b H) as Hx. fold x in Hx.
  rewrite (Hx 0%nat b3 eq_refl : (x / 2 ^ (24 - 24)) mod 256 = b3),
    (Hx 1%nat b2 eq_refl : (x / 2 ^ (16 - 8)) mod 256 = b2),
    (Hx 2%nat b1 eq_refl : (x / 2 ^ (8 + 8)) mod 256 = b1),
    (Hx 3%nat b0 eq_refl : (x / 2 ^ (0 + 24)) mod 256 = b0).
  rewrite of_le_bytes_4, Z.shiftl_0_r. lor_bits.
Qed.

Lemma swap64_rev b0 b1 b2 b3 b4 b5 b6 b7 :
  is_bytes [b7; b6; b5; b4; b3; b2; b1; b0] ->
  XXH_swap64 (of_le_bytes [b7; b6; b5; b4; b3; b2; b1; b0])
  = of_le_bytes [b0; b1; b2; b3; b4; b5; b6; b7].
Proof.
  intros H. unfold XXH_swap64, u64. set (x := of_le_bytes _).
  change 0xff00000000000000 with (Z.ones 8 * 2 ^ 56).
  change 0x00ff000000000000 with (Z.ones 8 * 2 ^ 48).
  change 0x0000ff0000000000 with (Z.ones 8 * 2 ^ 40).
  change 0x000000ff00000000 with (Z.ones 8 * 2 ^ 32).
  change 0x00000000ff000000 with (Z.ones 8 * 2 ^ 24).
  change 0x0000000000ff0000 with (Z.ones 8 * 2 ^ 16).
  change 0x000000000000ff00 with (Z.ones 8 * 2 ^ 8).
  change 0x00000000000000ff with (Z.ones 8 * 2 ^ 0).
  rewrite !swap_up, !swap_down by lia.
  pose proof (fun i b => of_le_bytes_byte _ i b H) as Hx. fold x in Hx.
  rewrite (Hx 0%nat b7 eq_refl : (x / 2 ^ (56 - 56)) mod 256 = b7),
    (Hx 1%nat b6 eq_refl : (x / 2 ^ (48 - 40)) mod 256 = b6),
    (Hx 2%nat b5 eq_refl : (x / 2 ^ (40 - 24)) mod 256 = b5),
    (Hx 3%nat b4 eq_refl : (x / 2 ^ (32 - 8)) mod 256 = b4),
    (Hx 4%nat b3 eq_refl : (x / 2 ^ (24 + 8)) mod 256 = b3),
    (Hx 5%nat b2 eq_refl : (x / 2 ^ (16 + 24)) mod 256 = b2),
    (Hx 6%nat b1 eq_refl : (x / 2 ^ (8 + 40)) mod 256 = b1),
    (Hx 7%nat b0 eq_refl : (x / 2 ^ (0 + 56)) mod 256 = b0).
  rewrite of_le_bytes_8, Z.shiftl_0_r. lor_bits.
Qed.

Lemma drop_cons_lookup (m : list Z) p :
  0 <= p < Z.of_nat (length m) ->
  exists b, rd m p = Some b /\ drop (Z.to_nat p) m = b :: drop (Z.to_nat (p + 1)) m.
Proof.
  intros Hp. destruct (lookup_lt_is_Some_2 m (Z.to_nat p)) as [b Hb]; [lia|].
  exists b. split; [unfold rd; by decide_lia|].
  replace (Z.to_nat (p + 1)) with (S (Z.to_nat p)) by lia. by apply drop_S.
Qed.

Lemma rd_range_cons (m : list Z) p (n : nat) :
  0 <= p -> p + Z.of_nat n <= Z.of_nat (length m) ->
  rd_range m p (Z.of_nat n) = Some (take n (drop (Z.to_nat p) m)).
Proof. intros. unfold rd_range. decide_lia. by rewrite Nat2Z.id. Qed.

Lemma read32_spec little m p align :
  is_bytes m -> 0 <= p -> p + 4 <= Z.of_nat (length m) ->
  XXH_readLE32_align little m p align = Some (Spec.word 4 (drop (Z.to_nat p) m)).
Proof.
  intros Hb Hp Hl. unfold Spec.word.
  assert (Hw : Forall is_byte (take 4 (drop (Z.to_nat p) m))) by (by apply Forall_take, Forall_drop).
  destruct (drop_cons_lookup m p) as (b0 & E0 & D0); [lia|].
  destruct (drop_cons_lookup m (p + 1)) as (b1 & E1 & D1); [lia|].
  destruct (drop_cons_lookup m (p + 2)) as (b2 & E2 & D2); [lia|].
  destruct (drop_cons_lookup m (p + 3)) as (b3 & E3 & D3); [lia|].
  replace (p + 1 + 1) with (p + 2) in D1 by lia. replace (p + 2 + 1) with (p + 3) in D2 by lia.
  rewrite D1, D2, D3 in D0. unfold XXH_readLE32_align, XXH_readLE32, load_word.
  rewrite (rd_range_cons m p 4) by lia. rewrite D0 in Hw |- *.
  cbn [take mbind option_bind] in *. destruct align.
  - destruct little; [done|]. cbn [rev app]. f_equal. apply swap32_rev.
    by apply (Forall_rev (l := [b0; b1; b2; b3])).
  - rewrite E0, E1, E2, E3. cbn [mbind option_bind]. f_equal. rewrite of_le_bytes_4.
    inversion_clear Hw as [|? ? ? H1]. inversion_clear H1 as [|? ? ? H2].
    inversion_clear H2 as [|? ? ? H3]. inversion_clear H3.
    unfold u32. by rewrite !byte_shiftl_small by (done || lia).
Qed.

Lemma read64_spec little m p align :
  is_bytes m -> 0 <= p -> p + 8 <= Z.of_nat (length m) ->
  XXH_readLE64_align little m p align = Some (Spec.word 8 (drop (Z.to_nat p) m)).
Proof.
  intros Hb Hp Hl. unfold Spec.word.
  assert (Hw : Forall is_byte (take 8 (drop (Z.to_nat p) m))) by (by apply Forall_take, Forall_drop).
  destruct (drop_cons_lookup m p) as (b0 & E0 & D0); [lia|].
  destruct (drop_cons_lookup m (p + 1)) as (b1 & E1 & D1); [lia|].
  destruct (drop_cons_lookup m (p + 2)) as (b2 & E2 & D2); [lia|].
  destruct (drop_cons_lookup m (p + 3)) as (b3 & E3 & D3); [lia|].
  destruct (drop_cons_lookup m (p + 4)) as (b4 & E4 & D4); [lia|].
  destruct (drop_cons_lookup m (p + 5)) as (b5 & E5 & D5); [lia|].
  destruct (drop_cons_lookup m (p + 6)) as (b6 & E6 & D6); [lia|].
  destruct (drop_cons_lookup m (p + 7)) as (b7 & E7 & D7); [lia|].
  replace (p + 1 + 1) with (p + 2) in D1 by lia. replace (p + 2 + 1) with (p + 3) in D2 by lia.
  replace (p + 3 + 1) with (p + 4) in D3 by lia. replace (p + 4 + 1) with (p + 5) in D4 by lia.
  replace (p + 5 + 1) with (p + 6) in D5 by lia. replace (p + 6 + 1) with (p + 7) in D6 by lia.
  rewrite D1, D2, D3, D4, D5, D6, D7 in D0.
  unfold XXH_readLE64_align, XXH_readLE64, load_word.
  rewrite (rd_range_cons m p 8) by lia. rewrite D0 in Hw |- *.
  cbn [take mbind option_bind] in *. destruct align.
  - destruct little; [done|]. cbn [rev app]. f_equal. apply swap64_rev.
    by apply (Forall_rev (l := [b0; b1; b2; b3; b4; b5; b6; b7])).
  - rewrite E0, E1, E2, E3, E4, E5, E6, E7. cbn [mbind option_bind]. f_equal. rewrite of_le_bytes_8.
    repeat match goal with H : Forall _ (_ :: _) |- _ => inversion_clear H end.
    unfold u64. by rewrite !byte_shiftl_small by (done || lia).
Qed.

(** ** Loops *)

Lemma drop_add (m : list Z) p n (k : nat) :
  0 <= p -> n = Z.of_nat k -> drop (Z.to_nat (p + n)) m = drop k (drop (Z.to_nat p) m).
Proof. intros. rewrite drop_drop. f_equal. lia. Qed.

Section Loops32.
Context (little : bool) (m : list Z) (align : XXH_alignment) (Hm : is_bytes m).

Lemma loop4_spec (k : nat) : forall fuel h ptr r,
    (k < fuel)%nat -> 0 <= ptr -> 0 <= r < 4 ->
    ptr + 4 * Z.of_nat k + r <= Z.of_nat (length m) ->
    XXH32_loop4 little m align fuel h ptr (4 * Z.of_nat k + r)
    = Some (Spec.lanes XXH_PROCESS4 4 k h (drop (Z.to_nat ptr) m), ptr + 4 * Z.of_nat k, r).
Proof using Hm.
    induction k as [|k IH]; intros [|fuel] h ptr r Hf Hp Hr Hl; try lia; cbn [XXH32_loop4 Spec.lanes].
    { decide_lia. apply Some_triple; lia || done. }
    decide_lia. rewrite read32_spec by (done || lia). cbn [mbind option_bind].
    replace (4 * Z.of_nat (S k) + r - 4) with (4 * Z.of_nat k + r) by lia.
    rewrite IH, (drop_add m ptr 4 4) by lia. apply Some_triple; lia || done.
Qed.

Lemma loop1_spec (k : nat) : forall fuel h ptr,
    (k < fuel)%nat -> 0 <= ptr -> ptr + Z.of_nat k <= Z.of_nat (length m) ->
    XXH32_loop1 m fuel h ptr (Z.of_nat k)
    = Some (foldl XXH_PROCESS1 h (take k (drop (Z.to_nat ptr) m))).
Proof using Hm.
    induction k as [|k IH]; intros [|fuel] h ptr Hf Hp Hl; try lia; cbn [XXH32_loop1].
    { by decide_lia. }
    decide_lia. destruct (drop_cons_lookup m ptr) as (b & -> & ->); [lia|].
    cbn [mbind option_bind take foldl].
    replace (Z.of_nat (S k) - 1) with (Z.of_nat k) by lia. rewrite IH by lia. done.
Qed.

Lemma stripes32_spec (n : nat) : forall fuel v input r,
    (n < fuel)%nat -> 0 <= input -> 0 <= r < 16 ->
    input + 16 * Z.of_nat (S n) + r <= Z.of_nat (length m) ->
    XXH32_stripes little m align fuel v input (input + 16 * Z.of_nat (S n) + r - 15)
    = Some (Spec.stripes XXH32_round 4 (S n) v (drop (Z.to_nat input) m),
            input + 16 * Z.of_nat (S n)).
Proof using Hm.
    induction n as [|n IH]; intros [|fuel] v input r Hf Hp Hr Hl; try lia;
      destruct v as [[[v1 v2] v3] v4]; cbn [XXH32_stripes];
      rewrite !read32_spec by (done || lia); cbn [mbind option_bind].
    - decide_lia. apply Some_pair; [|lia].
      by rewrite (drop_add m input 4 4), (drop_add m input 8 8), (drop_add m input 12 12) by lia.
    - decide_lia.
      replace (input + 16 * Z.of_nat (S (S n)) + r - 15)
        with (input + 16 + 16 * Z.of_nat (S n) + r - 15) by lia.
      rewrite IH by lia. apply Some_pair; [|lia].
      by rewrite (drop_add m input 4 4), (drop_add m input 8 8), (drop_add m input 12 12),
        (drop_add m input 16 16) by lia.
Qed.
End Loops32.

Lemma land_ones_small x n : 0 <= n -> 0 <= x < 2 ^ n -> Z.land x (Z.ones n) = x.
Proof. intros. rewrite Z.land_ones by done. by apply Z.mod_small. Qed.

Lemma div_mod_split (l k : nat) :
  (0 < k)%nat -> exists q r, (l / k = q /\ l = k * q + r /\ r < k)%nat.
Proof.
  intros. exists (l / k)%nat, (l mod k)%nat. split_and!; [done| |apply Nat.mod_upper_bound; lia].
  apply Nat.div_mod_eq.
Qed.

Lemma finalize32_spec little m align h ptr :
  is_bytes m -> 0 <= ptr <= Z.of_nat (length m) -> Z.of_nat (length m) - ptr < 16 ->
  XXH32_finalize little m align h ptr (Z.of_nat (length m) - ptr)
  = Some (let r := drop (Z.to_nat ptr) m in
          let k := (length r / 4)%nat in
          XXH32_avalanche (foldl XXH_PROCESS1 (Spec.lanes XXH_PROCESS4 4 k h r) (drop (4 * k) r))).
Proof.
  intros Hm Hp Hl. unfold XXH32_finalize. change 15 with (Z.ones 4).
  rewrite land_ones_small by lia. cbv zeta. rewrite length_drop.
  destruct (div_mod_split (length m - Z.to_nat ptr) 4) as (k & r & -> & Hk & Hr); [lia|].
  replace (Z.of_nat (length m) - ptr) with (4 * Z.of_nat k + Z.of_nat r) by lia.
  rewrite loop4_spec by (done || lia). cbn [mbind option_bind].
  rewrite loop1_spec by (done || lia). cbn [mbind option_bind].
  by rewrite (drop_add m ptr (4 * Z.of_nat k) (4 * k)), firstn_all2
    by (rewrite ?length_drop; lia).
Qed.

(** The 32-bit hash of the whole region, for either load. *)
Lemma endian_align32_spec little m align seed :
  is_bytes m ->
  XXH32_endian_align little m align 0 (Z.of_nat (length m)) seed = Some (Spec.xxh32 seed m).
Proof.
  intros Hm. unfold XXH32_endian_align, Spec.xxh32.
  destruct (div_mod_split (length m) 16) as (n & r & -> & Hn & Hr); [lia|].
  assert (Hland : Z.land (Z.of_nat (length m)) 15 = Z.of_nat (length m) - 16 * Z.of_nat n).
  { change 15 with (Z.ones 4). rewrite Z.land_ones by lia. change (2 ^ 4) with 16. dlia. }
  rewrite Hland. autorewrite with wrapped. rewrite Z.add_0_r.
  destruct n as [|n]; decide_lia.
  - cbn [mbind option_bind]. change (16 * Z.of_nat 0) with 0. rewrite u32_add_r.
    by rewrite (finalize32_spec little m align _ 0) by (done || lia).
  - replace (0 + Z.of_nat (length m) - 15)
      with (0 + 16 * Z.of_nat (S n) + Z.of_nat r - 15) by lia.
    rewrite stripes32_spec by (done || lia). cbn [mbind option_bind].
    change (drop (Z.to_nat 0) m) with m.
    destruct (Spec.stripes _ _ _ _ _) as [[[v1 v2] v3] v4]. cbn [mbind option_bind].
    rewrite u32_add_r, Z.add_0_l, (finalize32_spec little m align _ (16 * Z.of_nat (S n))) by (done || lia).
    by replace (Z.to_nat (16 * Z.of_nat (S n))) with (16 * S n)%nat by lia.
Qed.

Section Loops64.
Context (little : bool) (base : Z) (m : list Z) (align : XXH_alignment) (Hm : is_bytes m).

Lemma loop8_spec (k : nat) : forall fuel h ptr r,
    (k < fuel)%nat -> 0 <= ptr -> 0 <= r < 8 ->
    ptr + 8 * Z.of_nat k + r <= Z.of_nat (length m) ->
    XXH64_loop8 little m align fuel h ptr (8 * Z.of_nat k + r)
    = Some (Spec.lanes XXH64_step8 8 k h (drop (Z.to_nat ptr) m), ptr + 8 * Z.of_nat k, r).
Proof using Hm.
    induction k as [|k IH]; intros [|fuel] h ptr r Hf Hp Hr Hl; try lia; cbn [XXH64_loop8 Spec.lanes].
    { decide_lia. apply Some_triple; lia || done. }
    decide_lia. rewrite read64_spec by (done || lia). cbn [mbind option_bind].
    replace (8 * Z.of_nat (S k) + r - 8) with (8 * Z.of_nat k + r) by lia.
    rewrite IH, (drop_add m ptr 8 8) by lia. apply Some_triple; lia || done.
Qed.

Lemma loop1_64_spec (k : nat) : forall fuel h ptr,
    (k < fuel)%nat -> 0 <= ptr -> ptr + Z.of_nat k <= Z.of_nat (length m) ->
    XXH64_loop1 m fuel h ptr (Z.of_nat k)
    = Some (foldl XXH64_step1 h (take k (drop (Z.to_nat ptr) m))).
Proof using Hm.
    induction k as [|k IH]; intros [|fuel] h ptr Hf Hp Hl; try lia; cbn [XXH64_loop1].
    { by decide_lia. }
    decide_lia. destruct (drop_cons_lookup m ptr) as (b & -> & ->); [lia|].
    cbn [mbind option_bind take foldl].
    replace (Z.of_nat (S k) - 1) with (Z.of_nat k) by lia. rewrite IH by lia. done.
Qed.

Lemma stripes64_spec (n : nat) : forall fuel v input r,
    (n < fuel)%nat -> 0 <= input -> 0 <= r < 32 ->
    input + 32 * Z.of_nat (S n) + r <= Z.of_nat (length m) ->
    XXH64_stripes little m align fuel v input (input + 32 * Z.of_nat (S n) + r - 31)
    = Some (Spec.stripes XXH64_round 8 (S n) v (drop (Z.to_nat input) m),
            input + 32 * Z.of_nat (S n)).
Proof using Hm.
    induction n as [|n IH]; intros [|fuel] v input r Hf Hp Hr Hl; try lia;
      destruct v as [[[v1 v2] v3] v4]; cbn [XXH64_stripes];
      rewrite !read64_spec by (done || lia); cbn [mbind option_bind].
    - decide_lia. apply Some_pair; [|lia].
      by rewrite (drop_add m input 8 8), (drop_add m input 16 16), (drop_add m input 24 24) by lia.
    - decide_lia.
      replace (input + 32 * Z.of_nat (S (S n)) + r - 31)
        with (input + 32 + 32 * Z.of_nat (S n) + r - 31) by lia.
      rewrite IH by lia. apply Some_pair; [|lia].
      by rewrite (drop_add m input 8 8), (drop_add m input 16 16), (drop_add m input 24 24),
        (drop_add m input 32 32) by lia.
Qed.

(** The tail of less than a stripe, at a pointer that is not [NULL]. *)
Lemma finalize64_spec h ptr :
    base + ptr ≠ 0 -> 0 <= ptr <= Z.of_nat (length m) -> Z.of_nat (length m) - ptr < 32 ->
    forall len, Z.land len 31 = Z.of_nat (length m) - ptr ->
    XXH64_finalize little base m align h ptr len
    = Some (let r := drop (Z.to_nat ptr) m in
            let k := (length r / 8)%nat in
            let h := Spec.lanes XXH64_step8 8 k h r in
            let r := drop (8 * k) r in
            let h := if decide (4 <= length r)%nat then XXH64_step4 h (Spec.word 4 r) else h in
            let r := if decide (4 <= length r)%nat then drop 4 r else r in
            XXH64_avalanche (foldl XXH64_step1 h r)).
Proof using Hm.
    intros Hn Hp Hl len Hlen. unfold XXH64_finalize. rewrite Hlen, decide_False by done.
    cbv zeta. rewrite !length_drop.
    destruct (div_mod_split (length m - Z.to_nat ptr) 8) as (k & r & -> & Hk & Hr); [lia|].
    replace (Z.of_nat (length m) - ptr) with (8 * Z.of_nat k + Z.of_nat r) by lia.
    rewrite loop8_spec by lia. cbn [mbind option_bind].
    replace (length m - Z.to_nat ptr - 8 * k)%nat with r by lia.
    rewrite <- (drop_add m ptr (8 * Z.of_nat k)) by lia.
    destruct (decide (4 <= r)%nat).
    - decide_lia. rewrite read32_spec by (done || lia). cbn [mbind option_bind].
      replace (Z.of_nat r - 4) with (Z.of_nat (r - 4)) by lia.
      rewrite loop1_64_spec by lia. cbn [mbind option_bind].
      rewrite (drop_add m (ptr + 8 * Z.of_nat k) 4 4), firstn_all2 by (rewrite ?length_drop; lia).
      done.
    - decide_lia. cbn [mbind option_bind]. rewrite loop1_64_spec by lia. cbn [mbind option_bind].
      by rewrite firstn_all2 by (rewrite length_drop; lia).
Qed.
End Loops64.

Lemma endian_align64_spec little base m align seed :
  is_bytes m -> 0 < base ->
  XXH64_endian_align little base m align 0 (Z.of_nat (length m)) seed = Some (Spec.xxh64 seed m).
Proof.
  intros Hm Hbase. unfold XXH64_endian_align, Spec.xxh64. decide_lia.
  destruct (div_mod_split (length m) 32) as (n & r & -> & Hn & Hr); [lia|].
  assert (Hland : Z.land (Z.of_nat (length m)) 31 = Z.of_nat (length m) - 32 * Z.of_nat n).
  { change 31 with (Z.ones 5). rewrite Z.land_ones by lia. change (2 ^ 5) with 32. dlia. }
  autorewrite with wrapped. rewrite Z.add_0_r.
  destruct n as [|n]; decide_lia.
  - cbn [mbind option_bind]. by rewrite (finalize64_spec little base m align Hm _ 0) by (lia || done).
  - replace (0 + Z.of_nat (length m) - 31)
      with (0 + 32 * Z.of_nat (S n) + Z.of_nat r - 31) by lia.
    rewrite stripes64_spec by (done || lia). cbn [mbind option_bind].
    change (drop (Z.to_nat 0) m) with m.
    destruct (Spec.stripes _ _ _ _ _) as [[[v1 v2] v3] v4]. cbn [mbind option_bind].
    rewrite Z.add_0_l, (finalize64_spec little base m align Hm _ (32 * Z.of_nat (S n))) by (lia || done).
    by replace (Z.to_nat (32 * Z.of_nat (S n))) with (32 * S n)%nat by lia.
Qed.

(** ** Properties *)

(** [xxhash32] computes the xxHash32 specification of its input, reads
    exactly the input (a read one byte further would fault), and its result
    depends neither on the alignment of the address nor on the byte order. *)
Lemma xxhash32_correct little addr m seed :
  is_bytes m ->
  xxhash32 little addr m (Z.of_nat (length m)) seed = Some (Spec.xxh32 seed m).
Proof. intros Hm. unfold xxhash32. case_decide; by apply endian_align32_spec. Qed.


(** C12: the same for [xxhash64] at any address but [NULL]. *)
Theorem xxhash64_correct little addr m seed :
  is_bytes m -> 0 < addr ->
  xxhash64 little addr m (Z.of_nat (length m)) seed = Some (Spec.xxh64 seed m).
Proof. intros Hm Ha. unfold xxhash64. case_decide; by apply endian_align64_spec. Qed.

Lemma xxhash64_correct_witness :
  xxhash64 true 4096 [97; 98; 99] 3 0 = Some (Spec.xxh64 0 [97; 98; 99]) /\ Spec.xxh64 0 [97; 98; 99] = 0x44BC2CF5AD770999.
Proof.
  split; [|by vm_compute]. apply (xxhash64_correct true 4096 [97; 98; 99] 0); [|lia].
  repeat constructor; lia.
Defined.
