(* ===== verification/Xheap.v ===== *)
(** * The binary heap of [xnet/xheap.h]

    The heap stores pointers to nodes owned by its clients.  A client's nodes
    live in a store; the heap writes each node's slot number back into the
    node ([pos]), which is how [xheap_remove] finds it.  The model keeps the
    store, the array of pointers (slot 0 is scratch space) and the 32-bit
    indices of [xheap_pop] and [xheap_remove].  [push] and [pop] keep the heap
    in order; [remove] keeps the order only where the node that takes the
    vacant slot is not smaller than the parent of the slot. *)

From stdpp Require Import sorting.
From S2P Require Import Prelude.

(** ** Data *)

Record xheapnode := mknode { n_pos : Z; n_key : Z; n_value : Z }.

#[export] Instance xheapnode_eq_dec : EqDecision xheapnode.
Proof. solve_decision. Defined.

Abbreviation nodes := (gmap positive xheapnode) (only parsing).

(** [array] is the flexible array of node pointers; [None] is [NULL]. *)
Record xheap := mkheap { h_pos : Z; h_len : Z; h_array : list (option positive) }.

Definition XEOF : Z := 0xFFFFFFFFFFFFFFFF.
Definition HEAP_TOP : Z := 1.
Definition heap_top (i : Z) : Z := Z.shiftr i 1.
Definition heap_left (i : Z) : Z := Z.shiftl i 1.
Definition heap_right (i : Z) : Z := Z.shiftl i 1 + 1.

(** ** Operations *)

(** [calloc_ok] is the outcome of [calloc]. *)
Definition xheap_create (calloc_ok : bool) (size : Z) : option xheap :=
  if calloc_ok then Some (mkheap 0 size (replicate (S (Z.to_nat size)) None)) else None.

(** [p->key], a fault for [NULL] and for a dangling pointer. *)
Definition key_of (s : nodes) (p : option positive) : option Z :=
  id ← p; n_key <$> s !! id.

Definition key_at (s : nodes) (a : list (option positive)) (i : Z) : option Z :=
  p ← rd a i; key_of s p.

(** [h->array[i] = p; h->array[i]->pos = i]. *)
Definition put (s : nodes) (a : list (option positive)) (i : Z) (p : option positive)
  : option (nodes * list (option positive)) :=
  a' ← wr a i p;
  id ← p;
  nd ← s !! id;
  Some (<[id := mknode i (n_key nd) (n_value nd)]> s, a').

Fixpoint sift_up (fuel : nat) (s : nodes) (a : list (option positive)) (node : positive) (i : Z)
  : option (nodes * list (option positive) * Z) :=
  match fuel with
  | O => None
  | S fuel' =>
      if decide (heap_top i > 0) then
        k ← key_of s (Some node);
        kp ← key_at s a (heap_top i);
        if decide (k < kp) then
          p ← rd a (heap_top i);
          '(s', a') ← put s a i p;
          sift_up fuel' s' a' node (heap_top i)
        else Some (s, a, i)
      else Some (s, a, i)
  end.

Definition xheap_push (s : nodes) (h : xheap) (node : positive) : option (nodes * xheap * Z) :=
  if decide (h_pos h < h_len h) then
    let pos := u64 (h_pos h + 1) in
    '(s, a, i) ← sift_up (S (Z.to_nat pos)) s (h_array h) node pos;
    '(s, a) ← put s a i (Some node);
    Some (s, mkheap pos (h_len h) a, if decide (i <= 0) then XEOF else i)
  else Some (s, h, 0).

(** One comparison of the sift-down loop: [child] where it is in the heap and
    its key is smaller than that of [smallest]. *)
Definition pick (s : nodes) (a : list (option positive)) (pos smallest child : Z) : option Z :=
  if decide (child < pos) then
    ks ← key_at s a smallest;
    kc ← key_at s a child;
    Some (if decide (ks > kc) then child else smallest)
  else Some smallest.

(** The [do ... while (smallest != index)] loop of [xheap_pop], which
    [xheap_remove] repeats. *)
Fixpoint sift_down (fuel : nat) (s : nodes) (a : list (option positive)) (pos smallest : Z)
  : option (nodes * list (option positive)) :=
  match fuel with
  | O => None
  | S fuel' =>
      let index := smallest in
      let left := u32 (heap_left smallest) in
      let right := u32 (heap_right smallest) in
      smallest ← pick s a pos smallest left;
      smallest ← pick s a pos smallest right;
      if decide (smallest = index) then Some (s, a)
      else
        tmp ← rd a index;
        p ← rd a smallest;
        '(s, a) ← put s a index p;
        '(s, a) ← put s a smallest tmp;
        sift_down fuel' s a pos smallest
  end.

(** A heap of one element is emptied without a look at the node. *)
Definition take_last (s : nodes) (h : xheap) : option (nodes * xheap * option positive) :=
  p ← rd (h_array h) HEAP_TOP;
  a ← wr (h_array h) 0 p;
  a ← wr a HEAP_TOP None;
  r ← rd a 0;
  Some (s, mkheap 0 (h_len h) a, r).

(** The part [xheap_pop] and [xheap_remove] share: slot [smallest] is moved to
    slot 0, the last slot takes its place and sinks. *)
Definition extract (s : nodes) (h : xheap) (smallest : Z)
  : option (nodes * xheap * option positive) :=
  p ← rd (h_array h) smallest;
  a ← wr (h_array h) 0 p;
  last ← rd a (h_pos h);
  '(s, a) ← put s a smallest last;
  a ← wr a (h_pos h) None;
  '(s, a) ← sift_down (S (Z.to_nat (h_pos h))) s a (h_pos h) smallest;
  r ← rd a 0;
  Some (s, mkheap (h_pos h - 1) (h_len h) a, r).

Definition xheap_pop (s : nodes) (h : xheap) : option (nodes * xheap * option positive) :=
  if decide (h_pos h < HEAP_TOP) then Some (s, h, None)
  else if decide (h_pos h = HEAP_TOP) then take_last s h
  else extract s h HEAP_TOP.

Definition xheap_remove (s : nodes) (h : xheap) (node : positive)
  : option (nodes * xheap * option positive) :=
  nd ← s !! node;
  let smallest := u32 (n_pos nd) in
  if decide (h_pos h < HEAP_TOP) then Some (s, h, None)
  else if decide (h_pos h = HEAP_TOP) then take_last s h
  else
    k ← key_at s (h_array h) smallest;
    if decide (k = n_key nd) then extract s h smallest
    else Some (s, h, None).

(** A client that pushes nodes in turn and pops [n] of them. *)
Fixpoint push_all (s : nodes) (h : xheap) (ns : list positive) : option (nodes * xheap) :=
  match ns with
  | [] => Some (s, h)
  | x :: ns => '(s, h, _) ← xheap_push s h x; push_all s h ns
  end.

Fixpoint pop_n (n : nat) (s : nodes) (h : xheap) : option (list positive) :=
  match n with
  | O => Some []
  | S n =>
      '(s, h, p) ← xheap_pop s h;
      x ← p;
      xs ← pop_n n s h;
      Some (x :: xs)
  end.

(** ** Invariant *)

Definition key (s : nodes) (x : positive) : Z := default 0 (n_key <$> s !! x).
Definition slot (a : list (option positive)) (j : Z) (x : positive) : Prop :=
  rd a j = Some (Some x).
Definition kat (s : nodes) (a : list (option positive)) (j : Z) : Z :=
  match rd a j with Some (Some x) => key s x | _ => 0 end.

(** Slot [j] holds a live node that knows its slot. *)
Definition placed (s : nodes) (a : list (option positive)) (j : Z) : Prop :=
  exists x nd, slot a j x /\ s !! x = Some nd /\ n_pos nd = j.

(** [x] is in one of the slots [1 .. n] other than [hole]. *)
Definition holds (a : list (option positive)) (n hole : Z) (x : positive) : Prop :=
  exists j, 1 <= j <= n /\ j <> hole /\ slot a j x.

Definition ordered (s : nodes) (a : list (option positive)) (n : Z) : Prop :=
  forall j, 2 <= j <= n -> kat s a (j / 2) <= kat s a j.

Record heap_ok (s : nodes) (h : xheap) : Prop := {
  ok_pos : 0 <= h_pos h <= h_len h;
  ok_len : h_len h < 2 ^ 32;
  ok_array : Z.of_nat (length (h_array h)) = 1 + h_len h;
  ok_placed : forall j, 1 <= j <= h_pos h -> placed s (h_array h) j;
}.

Definition heap_ordered (s : nodes) (h : xheap) : Prop := ordered s (h_array h) (h_pos h).
Definition member (h : xheap) (x : positive) : Prop := holds (h_array h) (h_pos h) 0 x.

(** The nodes of [s'] are those of [s] up to their [pos], and up to nothing
    outside [D]. *)
Definition moved (D : positive -> Prop) (s s' : nodes) : Prop :=
  forall x, option_map (fun nd => (n_key nd, n_value nd)) (s' !! x)
            = option_map (fun nd => (n_key nd, n_value nd)) (s !! x)
            /\ (s' !! x <> s !! x -> D x).

Lemma moved_refl D s : moved D s s.
Proof. done. Qed.

Lemma moved_trans D s1 s2 s3 : moved D s1 s2 -> moved D s2 s3 -> moved D s1 s3.
Proof.
  intros H1 H2 x. destruct (H1 x) as [E1 D1], (H2 x) as [E2 D2]. split; [congruence|].
  intros Hne. destruct (decide (s2 !! x = s1 !! x)); [apply D2; congruence|auto].
Qed.

Lemma moved_weaken (D D' : positive -> Prop) s s' :
  (forall x, D x -> D' x) -> moved D s s' -> moved D' s s'.
Proof. intros HD H x. destruct (H x). auto. Qed.

Lemma moved_key D s s' x : moved D s s' -> key s' x = key s x.
Proof.
  intros H. unfold key. destruct (H x) as [E _].
  destruct (s !! x), (s' !! x); simpl in *; congruence.
Qed.

Lemma moved_lookup D s s' x nd :
  moved D s s' -> s !! x = Some nd ->
  exists nd', s' !! x = Some nd' /\ n_key nd' = n_key nd /\ n_value nd' = n_value nd.
Proof.
  intros H Hx. destruct (H x) as [E _]. rewrite Hx in E.
  destruct (s' !! x); simplify_eq/=. eauto.
Qed.

Lemma half_range j : 2 <= j -> 1 <= j / 2 < j.
Proof. intros. dlia. Qed.

Lemma heap_top_half i : heap_top i = i / 2.
Proof. unfold heap_top. by rewrite Z.shiftr_div_pow2. Qed.

Lemma heap_left_double i : heap_left i = 2 * i.
Proof. unfold heap_left. rewrite Z.shiftl_mul_pow2; lia. Qed.

Lemma heap_right_double i : heap_right i = 2 * i + 1.
Proof. unfold heap_right. rewrite Z.shiftl_mul_pow2; lia. Qed.

(** [put] moves one node to one slot. *)
Lemma put_spec s a i x nd :
  0 <= i < Z.of_nat (length a) -> s !! x = Some nd ->
  exists s' a', put s a i (Some x) = Some (s', a') /\ length a' = length a
    /\ (forall j, rd a' j = if decide (i = j) then Some (Some x) else rd a j)
    /\ s' !! x = Some (mknode i (n_key nd) (n_value nd))
    /\ (forall y, y <> x -> s' !! y = s !! y)
    /\ moved (eq x) s s'.
Proof.
  intros Hi Hx. unfold put. destruct (wr_is_Some a i (Some x) Hi) as [a' Ha].
  rewrite Ha. cbn [mbind option_bind]. rewrite Hx. do 2 eexists.
  split_and!; [done|by eapply wr_length| | | |].
  - intros j. by apply rd_wr.
  - apply lookup_insert_eq.
  - intros y Hy. by apply lookup_insert_ne.
  - intros y. destruct (decide (x = y)) as [<-|Hne].
    + rewrite lookup_insert_eq, Hx. done.
    + by rewrite lookup_insert_ne.
Qed.

Lemma slot_kat s a j x : slot a j x -> kat s a j = key s x.
Proof. unfold slot, kat. by intros ->. Qed.

Lemma key_at_kat s a j : placed s a j -> key_at s a j = Some (kat s a j).
Proof.
  intros (x & nd & Hs & Hx & _). unfold key_at. rewrite (slot_kat s a j x Hs). unfold slot in Hs.
  rewrite Hs. simpl. unfold key. by rewrite Hx.
Qed.

Lemma moved_kat D s s' a j :
  moved D s s' -> match rd a j with Some (Some x) => key s' x | _ => 0 end = kat s a j.
Proof. intros H. unfold kat. destruct (rd a j) as [[x|]|]; eauto using moved_key. Qed.

(** A node has one slot. *)
Lemma placed_unique s a i j x :
  placed s a i -> placed s a j -> slot a i x -> slot a j x -> i = j.
Proof. unfold slot. intros (?&?&?&?&?) (?&?&?&?&?) ? ?. unfold slot in *. by simplify_eq. Qed.

(** ** Sift up *)

(** The state of the loop of [xheap_push]: slot [i] is a hole for [node]. *)
Record up_inv (s : nodes) (a : list (option positive)) (n : Z) (node : positive) (i : Z)
  : Prop := {
  up_i : 1 <= i <= n;
  up_n : n < Z.of_nat (length a);
  up_node : is_Some (s !! node);
  up_placed : forall j, 1 <= j <= n -> j <> i -> placed s a j;
  up_fresh : ~ holds a n i node;
}.

(** The order around a hole at [i] for the key [k], of a heap of keys [f]. *)
Record up_order (f : Z -> Z) (n k i : Z) : Prop := {
  uo_order : forall j, 2 <= j <= n -> j <> i -> j / 2 <> i -> f (j / 2) <= f j;
  uo_child : forall j, 2 <= j <= n -> j / 2 = i -> k <= f j;
  uo_grand : forall j, 2 <= j <= n -> j / 2 = i -> 2 <= i -> f (i / 2) <= f j;
}.

Lemma up_order_step f f' n k i :
  up_order f n k i -> 2 <= i <= n -> k < f (i / 2) ->
  (forall j, f' j = if decide (i = j) then f (i / 2) else f j) ->
  up_order f' n k (i / 2).
Proof.
  intros [Ho Hc Hg] Hi Hlt Hf. pose proof (half_range i) as Hh.
  assert (Hp : 2 <= i / 2 -> f (i / 2 / 2) <= f (i / 2)) by (intros; apply Ho; dlia).
  assert (Hs : forall j, 2 <= j <= n -> j / 2 = i / 2 -> j <> i -> f (i / 2) <= f j).
  { intros j Hj E Hne. rewrite <- E. apply Ho; lia. }
  split; intros j Hj; rewrite !Hf; intros; repeat case_decide; subst; try congruence; try lia.
  - apply Hg; lia.
  - apply Ho; lia.
  - specialize (Hs j). lia.
  - apply Hs; lia.
  - etrans; [apply Hp|apply Hs]; lia.
Qed.

Lemma up_step s a n node i :
  up_inv s a n node i -> 2 <= i ->
  exists s' a', (p ← rd a (i / 2); put s a i p) = Some (s', a')
    /\ up_inv s' a' n node (i / 2)
    /\ (up_order (kat s a) n (key s node) i -> key s node < kat s a (i / 2) ->
        up_order (kat s' a') n (key s' node) (i / 2))
    /\ (forall x, holds a' n (i / 2) x <-> holds a n i x)
    /\ moved (holds a n i) s s'
    /\ length a' = length a
    /\ (forall j, ~ (1 <= j <= n) -> rd a' j = rd a j).
Proof.
  intros [Hi Hn Hnode Hpl Hfr] Hi2. pose proof (half_range i Hi2) as Hhalf.
  destruct (Hpl (i / 2)) as (x & nd & Hslot & Hx & _); [lia|lia|].
  unfold slot in Hslot. rewrite Hslot. simpl.
  destruct (put_spec s a i x nd) as (s' & a' & -> & Hlen & Hrd & Hxx & Hoth & Hmv); [lia|done|].
  assert (Hhx : holds a n i x) by (exists (i / 2); split_and!; [lia|lia|lia|done]).
  assert (Hkat : forall j, kat s' a' j = if decide (i = j) then kat s a (i / 2) else kat s a j).
  { intros j. unfold kat. rewrite Hrd, Hslot. case_decide.
    - by eapply moved_key.
    - destruct (rd a j) as [[y|]|]; try done. by eapply moved_key. }
  assert (Hkn : key s' node = key s node) by by eapply moved_key.
  assert (Hholds : forall y, holds a' n (i / 2) y <-> holds a n i y).
  { intros y. unfold holds, slot. split.
    - intros (j & Hj & Hne & Hs). rewrite Hrd in Hs. case_decide.
      + injection Hs as <-. exact Hhx.
      + exists j. split_and!; try lia; done.
    - intros (j & Hj & Hne & Hs). destruct (decide (j = i / 2)) as [->|].
      + exists i. rewrite Hrd, decide_True by done. split_and!; try lia; congruence.
      + exists j. rewrite Hrd, decide_False by done. split_and!; try lia; done. }
  do 2 eexists. split_and!; [done|split| |done| |done|].
  - lia.
  - lia.
  - destruct (decide (node = x)) as [->|]; [rewrite Hxx; eauto|by rewrite Hoth].
  - intros j Hj Hne. destruct (decide (j = i)) as [->|Hji].
    + exists x, (mknode i (n_key nd) (n_value nd)). unfold slot. rewrite Hrd, decide_True; done.
    + destruct (Hpl j Hj Hji) as (y & ndy & Hys & Hy & Hyp). exists y, ndy.
      unfold slot in *. rewrite Hrd, decide_False by done. split_and!; [done| |done].
      rewrite Hoth; [done|]. intros ->. apply Hne. eapply (placed_unique s a); [..|done|done];
        apply Hpl; lia.
  - by rewrite Hholds.
  - intros Ho Hlt. rewrite Hkn. eapply up_order_step; eauto; lia.
  - eapply moved_weaken; [|done]. by intros ? <-.
  - intros j Hj. rewrite Hrd, decide_False by lia. done.
Qed.

(** The loop ends at a slot where [node] may be put. *)
Lemma sift_up_spec fuel s a n node i :
  up_inv s a n node i -> (Z.to_nat i <= fuel)%nat ->
  exists s' a' i', sift_up fuel s a node i = Some (s', a', i')
    /\ up_inv s' a' n node i'
    /\ (up_order (kat s a) n (key s node) i ->
        up_order (kat s' a') n (key s node) i' /\
        (2 <= i' -> kat s' a' (i' / 2) <= key s node))
    /\ (forall x, holds a' n i' x <-> holds a n i x)
    /\ moved (holds a n i) s s'
    /\ length a' = length a
    /\ (forall j, ~ (1 <= j <= n) -> rd a' j = rd a j).
Proof.
  revert s a i. induction fuel as [|fuel IH]; intros s a i Hup Hf; pose proof (up_i _ _ _ _ _ Hup).
  { lia. }
  cbn [sift_up]. rewrite heap_top_half. case_decide as Hd.
  2: { exists s, a, i. split_and!; try done. intros Ho; split; [done|dlia]. }
  assert (Hi2 : 2 <= i) by dlia. pose proof (half_range i Hi2).
  destruct (up_node _ _ _ _ _ Hup) as [nd Hnd]. cbn [key_of mbind option_bind]. rewrite Hnd.
  cbn [fmap option_fmap option_map mbind option_bind].
  rewrite key_at_kat by (apply (up_placed _ _ _ _ _ Hup); lia). cbn [mbind option_bind].
  assert (Hk : n_key nd = key s node) by (unfold key; by rewrite Hnd). rewrite Hk.
  case_decide as Hlt.
  2: { exists s, a, i. split_and!; try done. intros; split; [done|lia]. }
  destruct (up_step s a n node i Hup Hi2) as (s1 & a1 & E & Hup1 & Ho1 & Hh1 & Hm1 & Hl1 & Hr1).
  destruct (IH s1 a1 (i / 2) Hup1) as (s2 & a2 & i2 & E2 & Hup2 & Ho2 & Hh2 & Hm2 & Hl2 & Hr2);
    [lia|].
  rewrite (moved_key _ _ _ node Hm1) in *.
  exists s2, a2, i2. split_and!; [ |done| | | | |].
  - destruct (rd a (i / 2)) as [p|]; [|done]. cbn [mbind option_bind] in *. by rewrite E.
  - intros Ho. apply Ho2, Ho1; done.
  - intros x. by rewrite Hh2, Hh1.
  - eapply moved_trans; [done|]. eapply moved_weaken; [|done]. intros x. by rewrite Hh1.
  - congruence.
  - intros j Hj. by rewrite Hr2, Hr1.
Qed.

(** ** Sift down *)

(** The order of a heap whose slot [i] may be too large for its place. *)
Record down_order (f : Z -> Z) (n i : Z) : Prop := {
  do_order : forall j, 2 <= j <= n -> j / 2 <> i -> f (j / 2) <= f j;
  do_grand : forall j, 2 <= j <= n -> j / 2 = i -> 2 <= i -> f (i / 2) <= f j;
}.

Lemma down_order_step f f' n i m :
  down_order f n i -> 2 <= m <= n -> m / 2 = i ->
  (forall j, 2 <= j <= n -> j / 2 = i -> f m <= f j) -> f m < f i ->
  (forall j, f' j = if decide (j = m) then f i else if decide (j = i) then f m else f j) ->
  down_order f' n m.
Proof.
  intros [Ho Hg] Hm Hmi Hmin Hlt Hf.
  assert (Hne : i <> m) by dlia.
  assert (Hi : 2 <= i -> f (i / 2) <= f m) by (intros; apply Hg; lia).
  split; intros j Hj; rewrite !Hf; intros; repeat case_decide; subst; try congruence; try lia.
  all: first [apply Hmin; lia | apply Hi; lia | apply Ho; lia | apply (Ho j); lia].
Qed.

Lemma down_order_done f n i :
  down_order f n i -> (forall j, 2 <= j <= n -> j / 2 = i -> f i <= f j) ->
  forall j, 2 <= j <= n -> f (j / 2) <= f j.
Proof.
  intros [Ho Hg] Hc j Hj. destruct (decide (j / 2 = i)) as [E|]; [|by apply Ho].
  rewrite E. by apply Hc.
Qed.

(** Every slot of [1 .. n] is filled. *)
Definition all_placed (s : nodes) (a : list (option positive)) (n : Z) : Prop :=
  n < Z.of_nat (length a) /\ forall j, 1 <= j <= n -> placed s a j.

(** [put] in a filled heap, whatever the slot held. *)
Lemma put_placed s a s' a' i j x nd :
  put s a i (Some x) = Some (s', a') -> s !! x = Some nd ->
  0 <= i < Z.of_nat (length a) ->
  j = i \/ (placed s a j /\ ~ slot a j x) -> placed s' a' j.
Proof.
  intros E Hx Hi H. destruct (put_spec s a i x nd Hi Hx) as (? & ? & E' & _ & Hrd & Hxx & Hoth & _).
  rewrite E in E'. injection E' as <- <-. unfold placed, slot in *.
  destruct (decide (i = j)) as [->|].
  - exists x, (mknode j (n_key nd) (n_value nd)). by rewrite Hrd, decide_True.
  - destruct H as [|[(y & ndy & Hs & Hy & Hp) Hn]]; [lia|]. exists y, ndy.
    rewrite Hrd, decide_False by done. split_and!; [done| |done].
    rewrite Hoth; [done|]. by intros ->.
Qed.

Lemma swap_spec s a n i m :
  all_placed s a n -> 1 <= i <= n -> 1 <= m <= n -> i <> m ->
  exists s' a',
    (tmp ← rd a i; p ← rd a m; '(s, a) ← put s a i p; put s a m tmp) = Some (s', a')
    /\ all_placed s' a' n
    /\ (forall j, rd a' j = if decide (j = m) then rd a i
                            else if decide (j = i) then rd a m else rd a j)
    /\ moved (holds a n 0) s s'
    /\ length a' = length a.
Proof.
  intros [Hn Hall] Hi Hm Hne.
  destruct (Hall i Hi) as (x & ndx & Hsx & Hx & Hpx), (Hall m Hm) as (y & ndy & Hsy & Hy & Hpy).
  unfold slot in Hsx, Hsy. rewrite Hsx, Hsy. cbn [mbind option_bind].
  destruct (put_spec s a i y ndy) as (s1 & a1 & E1 & Hl1 & Hr1 & Hyy & Ho1 & Hm1); [lia|done|].
  rewrite E1. cbn [mbind option_bind].
  assert (Hxy : x <> y) by (intros ->; simplify_eq; lia).
  assert (Hx1 : s1 !! x = Some ndx) by by rewrite Ho1.
  destruct (put_spec s1 a1 m x ndx) as (s2 & a2 & E2 & Hl2 & Hr2 & Hxx & Ho2 & Hm2); [lia|done|].
  rewrite E2. do 2 eexists. split_and!; [done|split; [lia|]| | |lia].
  - intros j Hj. destruct (Hall j Hj) as (z & ndz & Hsz & Hz & Hpz). unfold slot in Hsz.
    eapply (put_placed s1 a1); [done|done|lia|].
    destruct (decide (j = m)) as [|Hjm]; [by left|right]. split.
    + eapply (put_placed s a); [done|done|lia|]. destruct (decide (j = i)) as [|Hji]; [by left|right].
      split; [exists z, ndz; done|]. unfold slot. rewrite Hsz. intros [= ->]. simplify_eq.
    + unfold slot. rewrite Hr1. case_decide; [intros [= ->]; done|].
      rewrite Hsz. intros [= ->]. simplify_eq.
  - intros j. rewrite Hr2, Hr1. repeat case_decide; subst; try congruence.
  - eapply moved_trans; (eapply moved_weaken; [|done]); intros ? <-.
    + exists m. split_and!; [lia|lia|lia|done].
    + exists i. split_and!; [lia|lia|lia|done].
Qed.

Lemma swap_holds a a' n i m x :
  1 <= i <= n -> 1 <= m <= n -> i <> m ->
  (forall j, rd a' j = if decide (j = m) then rd a i
                       else if decide (j = i) then rd a m else rd a j) ->
  holds a' n 0 x <-> holds a n 0 x.
Proof.
  intros Hi Hm Hne Hr. unfold holds, slot. split; intros (j & Hj & _ & Hs).
  - rewrite Hr in Hs. exists (if decide (j = m) then i else if decide (j = i) then m else j).
    repeat case_decide; split_and!; try lia; done.
  - exists (if decide (j = m) then i else if decide (j = i) then m else j).
    rewrite Hr. repeat case_decide; split_and!; try lia; congruence.
Qed.

(** The child the loop descends to, if any. *)
Lemma pick_spec s a n i c :
  all_placed s a n -> 1 <= c -> (c <= n -> 1 <= i <= n) ->
  pick s a (n + 1) i c
  = Some (if decide (c <= n /\ kat s a i > kat s a c) then c else i).
Proof.
  intros [Hn Hall] Hc Hi. unfold pick. case_decide; [|by rewrite decide_False by lia].
  rewrite !key_at_kat by (apply Hall; lia). cbn [mbind option_bind].
  f_equal. repeat case_decide; try lia; done.
Qed.

Lemma children j i : j / 2 = i <-> j = 2 * i \/ j = 2 * i + 1.
Proof. split; intros; dlia. Qed.

Lemma down_pick s a n i :
  all_placed s a n -> 1 <= i <= n + 1 -> n + 1 < 2 ^ 31 ->
  exists m,
    (m ← pick s a (n + 1) i (u32 (heap_left i)); pick s a (n + 1) m (u32 (heap_right i))) = Some m
    /\ ((m = i /\ forall j, 2 <= j <= n -> j / 2 = i -> kat s a i <= kat s a j)
        \/ (2 <= m <= n /\ m / 2 = i /\ kat s a m < kat s a i /\
            forall j, 2 <= j <= n -> j / 2 = i -> kat s a m <= kat s a j)).
Proof.
  intros Hall Hi Hn. rewrite heap_left_double, heap_right_double, !u32_small by lia.
  rewrite (pick_spec s a n) by (done || lia). cbn [mbind option_bind].
  rewrite (pick_spec s a n) by (done || lia || (case_decide; lia)).
  eexists; split; [done|].
  assert (Hl : 2 * i / 2 = i) by dlia. assert (Hr : (2 * i + 1) / 2 = i) by dlia.
  repeat case_decide; rewrite ?Hl, ?Hr;
    first [left; split; [done|]; intros j Hj [->| ->]%children; lia
          |right; split_and!; try lia; intros j Hj [->| ->]%children; lia].
Qed.

Lemma sift_down_spec fuel s a n i :
  all_placed s a n -> 1 <= i <= n + 1 -> n + 1 < 2 ^ 31 -> (Z.to_nat (n + 2 - i) <= fuel)%nat ->
  exists s' a', sift_down fuel s a (n + 1) i = Some (s', a')
    /\ all_placed s' a' n
    /\ (down_order (kat s a) n i -> ordered s' a' n)
    /\ (forall x, holds a' n 0 x <-> holds a n 0 x)
    /\ moved (holds a n 0) s s'
    /\ length a' = length a
    /\ (forall j, ~ (1 <= j <= n) -> rd a' j = rd a j).
Proof.
  revert s a i. induction fuel as [|fuel IH]; intros s a i Hall Hi Hn Hf; [lia|].
  cbn [sift_down]. destruct (down_pick s a n i Hall Hi Hn) as (m & Em & Hm).
  destruct (pick s a (n + 1) i (u32 (heap_left i))) as [m1|]; [|done].
  cbn [mbind option_bind] in *. rewrite Em.
  destruct Hm as [[-> Hmin]|(Hm & Hmi & Hlt & Hmin)]; cbn [mbind option_bind].
  { rewrite decide_True by done. exists s, a. split_and!; try done.
    intros Hd j Hj. by eapply down_order_done. }
  assert (Hne : i <> m) by dlia. assert (Hi' : 1 <= i <= n) by dlia.
  rewrite decide_False by done.
  destruct (swap_spec s a n i m) as (s1 & a1 & E & Hall1 & Hr1 & Hm1 & Hl1); [done|lia|lia|done|].
  assert (Hh1 : forall x, holds a1 n 0 x <-> holds a n 0 x)
    by (intros x; eapply (swap_holds a a1 n i m); [lia|lia|done|done]).
  assert (Hk : forall j, kat s1 a1 j = if decide (j = m) then kat s a i
                                       else if decide (j = i) then kat s a m else kat s a j).
  { intros j. unfold kat at 1. rewrite Hr1.
    repeat case_decide; by rewrite (moved_kat _ _ _ _ _ Hm1). }
  destruct (rd a i) as [tmp|]; [|done]. destruct (rd a m) as [p|]; [|done].
  cbn [mbind option_bind] in *.
  destruct (put s a i p) as [[s0 a0]|]; [|done]. cbn [mbind option_bind] in *. rewrite E.
  destruct (IH s1 a1 m) as (s2 & a2 & E2 & Hall2 & Ho2 & Hh2 & Hm2 & Hl2 & Hr2);
    [done|lia|lia|dlia|].
  exists s2, a2. split_and!; [done|done| | | |lia|].
  - intros Hd. apply Ho2. eapply down_order_step; [exact Hd|lia|done|exact Hmin|done|exact Hk].
  - intros x. by rewrite Hh2, Hh1.
  - eapply moved_trans; [done|]. eapply moved_weaken; [|done]. intros x. by rewrite Hh1.
  - intros j Hj. rewrite Hr2, Hr1, !decide_False by lia. done.
Qed.

(** ** The operations *)

Lemma ok_all_placed s h : heap_ok s h -> all_placed s (h_array h) (h_pos h).
Proof. intros []. split; [lia|done]. Qed.

Lemma member_alive s h x : heap_ok s h -> member h x -> is_Some (s !! x).
Proof.
  intros Hok (j & Hj & _ & Hs). destruct (ok_placed _ _ Hok j Hj) as (y & nd & Hy & Hnd & _).
  unfold slot in *. simplify_eq. eauto.
Qed.

(** Filling the hole. *)
Lemma fill_spec s a n node i :
  up_inv s a n node i ->
  exists s' a', put s a i (Some node) = Some (s', a')
    /\ all_placed s' a' n
    /\ (forall j, kat s' a' j = if decide (j = i) then key s node else kat s a j)
    /\ (forall x, holds a' n 0 x <-> x = node \/ holds a n i x)
    /\ moved (eq node) s s'
    /\ length a' = length a
    /\ slot a' i node.
Proof.
  intros [Hi Hn [nd Hnd] Hpl Hfr].
  destruct (put_spec s a i node nd) as (s' & a' & E & Hl & Hr & Hx & Ho & Hm); [lia|done|].
  exists s', a'. split_and!; [done|split; [lia|]| | |done|done|].
  - intros j Hj. eapply (put_placed s a); [done|done|lia|].
    destruct (decide (j = i)) as [|Hji]; [by left|right]. split; [by apply Hpl|].
    intros Hs. apply Hfr. exists j. split_and!; done || lia.
  - intros j. unfold kat at 1. rewrite Hr. destruct (decide (j = i)) as [->|].
    + rewrite decide_True by done. eapply moved_key; eauto.
    + rewrite decide_False by done. by apply (moved_kat _ _ _ _ _ Hm).
  - intros x. unfold holds, slot. split.
    + intros (j & Hj & _ & Hs). rewrite Hr in Hs. case_decide as Hd; [left; congruence|right].
      exists j. split_and!; try lia; done.
    + intros [->|(j & Hj & Hne & Hs)].
      * exists i. rewrite Hr, decide_True by done. split_and!; try lia; done.
      * exists j. rewrite Hr, decide_False by done. split_and!; try lia; done.
  - unfold slot. by rewrite Hr, decide_True.
Qed.

Lemma fill_ordered s s' a a' n k i :
  up_order (kat s a) n k i -> (2 <= i -> kat s a (i / 2) <= k) ->
  (forall j, kat s' a' j = if decide (j = i) then k else kat s a j) ->
  ordered s' a' n.
Proof.
  intros [Ho Hc Hg] Hp Hk j Hj. rewrite !Hk. pose proof (half_range j). repeat case_decide; subst.
  - lia.
  - apply Hc; lia.
  - apply Hp. lia.
  - by apply Ho.
Qed.

Lemma push_spec s h node :
  heap_ok s h -> is_Some (s !! node) -> ~ member h node -> h_pos h < h_len h ->
  exists s' h' i, xheap_push s h node = Some (s', h', i)
    /\ heap_ok s' h' /\ (heap_ordered s h -> heap_ordered s' h')
    /\ (forall x, member h' x <-> x = node \/ member h x)
    /\ moved (fun x => x = node \/ member h x) s s'
    /\ h_pos h' = h_pos h + 1 /\ h_len h' = h_len h
    /\ 1 <= i <= h_pos h' /\ slot (h_array h') i node.
Proof.
  intros Hok Hal Hfr Hlt. destruct Hok as [Hpos Hlen Harr Hpl].
  unfold xheap_push. rewrite decide_True by done. rewrite u64_small by lia.
  set (n := h_pos h + 1).
  assert (Hh : forall x, holds (h_array h) n n x <-> member h x).
  { intros x. unfold member, holds. split; intros (j & ? & ? & ?); exists j; split_and!; lia || done. }
  assert (Hup : up_inv s (h_array h) n node n).
  { split; [lia|lia|done| |by rewrite Hh]. intros j ??. apply Hpl. lia. }
  destruct (sift_up_spec (S (Z.to_nat n)) _ _ _ _ _ Hup)
    as (s1 & a1 & i & E1 & Hup1 & Ho1 & Hh1 & Hm1 & Hl1 & Hr1); [lia|].
  rewrite E1. cbn [mbind option_bind].
  destruct (fill_spec _ _ _ _ _ Hup1) as (s2 & a2 & E2 & [Hn2 Hpl2] & Hk2 & Hh2 & Hm2 & Hl2 & Hs2).
  rewrite E2. cbn [mbind option_bind].
  pose proof (up_i _ _ _ _ _ Hup1) as Hi. rewrite (moved_key _ _ _ node Hm1) in Hk2.
  rewrite decide_False by lia. do 3 eexists.
  split_and!; [done|split; simpl; [lia|lia|lia|done]| | | |done|done|simpl; lia|simpl; lia|done].
  - intros Hord. destruct Ho1 as [Hup2 Hpar].
    + split; [|intros j ? Hj; exfalso; revert Hj; dlia..]. intros j ???. apply Hord. dlia.
    + by eapply fill_ordered.
  - intros x. unfold member at 1. simpl. by rewrite Hh2, Hh1, Hh.
  - eapply moved_trans; (eapply moved_weaken; [|done]); intros x; [rewrite Hh; auto|by left].
Qed.

(** The array after the last slot has taken the place of slot [i]. *)
Lemma vacate_spec s h i x :
  heap_ok s h -> 2 <= h_pos h -> 1 <= i <= h_pos h -> slot (h_array h) i x ->
  let n := h_pos h - 1 in
  exists s' a',
    (a ← wr (h_array h) 0 (Some x);
     last ← rd a (h_pos h);
     '(s, a) ← put s a i last;
     a ← wr a (h_pos h) None;
     Some (s, a)) = Some (s', a')
    /\ all_placed s' a' n
    /\ (forall j, 1 <= j <= n -> kat s' a' j = if decide (j = i) then kat s (h_array h) (h_pos h)
                                               else kat s (h_array h) j)
    /\ (forall y, holds a' n 0 y <-> member h y /\ y <> x)
    /\ moved (member h) s s'
    /\ length a' = length (h_array h)
    /\ rd a' 0 = Some (Some x).
Proof.
  intros [Hpos Hlen Harr Hpl] H2 Hi Hx n. set (a := h_array h) in *.
  destruct (Hpl (h_pos h)) as (l & nd & Hl & Hnd & _); [lia|]. unfold slot in Hx, Hl.
  destruct (wr_is_Some a 0 (Some x)) as [a0 E0]; [lia|]. rewrite E0. cbn [mbind option_bind].
  pose proof (fun j => rd_wr _ _ _ j _ E0) as Hr0.
  rewrite Hr0, decide_False, Hl by lia. cbn [mbind option_bind].
  pose proof (wr_length _ _ _ _ E0) as Hl0.
  destruct (put_spec s a0 i l nd) as (s1 & a1 & E1 & Hl1 & Hr1 & Hll & Ho1 & Hm1); [lia|done|].
  rewrite E1. cbn [mbind option_bind].
  destruct (wr_is_Some a1 (h_pos h) (@None positive)) as [a2 E2]; [lia|]. rewrite E2.
  pose proof (fun j => rd_wr _ _ _ j _ E2) as Hr2. pose proof (wr_length _ _ _ _ E2) as Hl2.
  assert (Hr : forall j, 1 <= j <= n -> rd a2 j = if decide (j = i) then Some (Some l) else rd a j).
  { intros j Hj. rewrite Hr2, Hr1, Hr0. repeat case_decide; subst; done || lia. }
  assert (Huniq : forall j y, 1 <= j <= h_pos h -> rd a j = Some (Some y) ->
            forall k, 1 <= k <= h_pos h -> rd a k = Some (Some y) -> j = k).
  { intros j y Hj Hjy k Hk Hky. eapply (placed_unique s a); eauto. }
  do 2 eexists. split_and!; [done|split; [lia|]| | | |lia|].
  - intros j Hj. unfold placed, slot. rewrite Hr by done. case_decide as Hd.
    { subst. eauto. }
    destruct (Hpl j) as (y & ndy & Hy & Hndy & Hp); [lia|]. unfold slot in Hy.
    exists y, ndy. rewrite Ho1; [done|]. intros ->. assert (j = h_pos h) by (by eapply Huniq; eauto; lia). lia.
  - intros j Hj. unfold kat at 1. rewrite Hr by done. case_decide.
    + rewrite (slot_kat _ _ _ _ Hl). by eapply moved_key.
    + by apply (moved_kat _ _ _ _ _ Hm1).
  - intros y. unfold holds, member, slot. split.
    + intros (j & Hj & _ & Hs). rewrite Hr in Hs by done. case_decide as Hd.
      * injection Hs as <-. split; [exists (h_pos h); split_and!; lia || done|].
        intros ->. assert (i = h_pos h) by (eapply Huniq; eauto; lia). lia.
      * split; [exists j; split_and!; lia || done|]. intros ->. apply Hd.
        eapply Huniq; eauto; lia.
    + intros [(j & Hj & _ & Hs) Hne]. fold a in Hs. destruct (decide (j = h_pos h)) as [->|].
      * assert (i <> h_pos h) by congruence.
        exists i. rewrite Hr, decide_True by (done || lia). split_and!; try lia. congruence.
      * assert (j <> i) by congruence. exists j. rewrite Hr, decide_False by (done || lia).
        split_and!; lia || done.
  - eapply moved_weaken; [|done]. intros ? <-. exists (h_pos h). split_and!; lia || done.
  - rewrite Hr2, Hr1, Hr0, !decide_False, decide_True by lia. done.
Qed.

Lemma extract_spec s h i x :
  heap_ok s h -> 2 <= h_pos h < 2 ^ 31 -> 1 <= i <= h_pos h -> slot (h_array h) i x ->
  exists s' h', extract s h i = Some (s', h', Some x)
    /\ heap_ok s' h'
    /\ (heap_ordered s h ->
        (2 <= i -> kat s (h_array h) (i / 2) <= kat s (h_array h) (h_pos h)) ->
        heap_ordered s' h')
    /\ (forall y, member h' y <-> member h y /\ y <> x)
    /\ moved (member h) s s'
    /\ h_pos h' = h_pos h - 1 /\ h_len h' = h_len h.
Proof.
  intros Hok Hpos Hi Hx.
  destruct (vacate_spec s h i x) as (s1 & a1 & E1 & Hall1 & Hk1 & Hh1 & Hm1 & Hl1 & H01);
    [done|lia|done|done|].
  destruct (sift_down_spec (S (Z.to_nat (h_pos h))) s1 a1 (h_pos h - 1) i)
    as (s2 & a2 & E2 & Hall2 & Ho2 & Hh2 & Hm2 & Hl2 & Hr2); [done|lia|lia|lia|].
  replace (h_pos h - 1 + 1) with (h_pos h) in E2 by lia.
  exists s2, (mkheap (h_pos h - 1) (h_len h) a2). destruct Hok as [Hp Hlen Harr Hpl].
  split_and!; [|split; simpl| | | |done|done]; try lia.
  - unfold extract. unfold slot in Hx. rewrite Hx. cbn [mbind option_bind].
    destruct (wr _ 0 _) as [a0|]; [|done]. cbn [mbind option_bind] in *.
    destruct (rd a0 _) as [p|]; [|done]. cbn [mbind option_bind] in *.
    destruct (put s a0 i p) as [[s0 a']|]; [|done]. cbn [mbind option_bind] in *.
    destruct (wr a' _ None) as [a''|]; [|done]. cbn [mbind option_bind] in *.
    injection E1 as -> ->. rewrite E2. cbn [mbind option_bind]. rewrite Hr2 by lia. by rewrite H01.
  - apply Hall2.
  - intros Hord Hpar. apply Ho2. unfold heap_ordered, ordered in Hord.
    split; intros j Hj; intros; rewrite !Hk1 by dlia; repeat case_decide; subst; try dlia.
    + apply Hord. lia.
    + etrans; apply Hord; lia.
  - intros y. unfold member at 1. simpl. by rewrite Hh2, Hh1.
  - eapply moved_trans; [done|]. eapply moved_weaken; [|done]. intros y. rewrite Hh1. tauto.
Qed.

Lemma take_last_spec s h :
  heap_ok s h -> h_pos h = 1 ->
  exists x h', take_last s h = Some (s, h', Some x) /\ slot (h_array h) 1 x
    /\ heap_ok s h' /\ heap_ordered s h' /\ (forall y, ~ member h' y)
    /\ h_pos h' = 0 /\ h_len h' = h_len h.
Proof.
  intros [Hp Hlen Harr Hpl] H1. destruct (Hpl 1) as (x & nd & Hx & _); [lia|].
  unfold take_last, HEAP_TOP. unfold slot in Hx. rewrite Hx. cbn [mbind option_bind].
  destruct (wr_is_Some (h_array h) 0 (Some x)) as [a0 E0]; [lia|]. rewrite E0.
  cbn [mbind option_bind]. pose proof (wr_length _ _ _ _ E0) as Hl0.
  destruct (wr_is_Some a0 1 (@None positive)) as [a1 E1]; [lia|]. rewrite E1.
  cbn [mbind option_bind]. pose proof (wr_length _ _ _ _ E1) as Hl1.
  rewrite (rd_wr _ _ _ 0 _ E1), (rd_wr _ _ _ 0 _ E0). simpl. do 2 eexists.
  split_and!; [done|done|split; simpl; lia| | |done|done].
  - intros j Hj. simpl in Hj. lia.
  - intros y (j & Hj & _). simpl in Hj. lia.
Qed.

(** The first slot holds a smallest key. *)
Lemma top_min s a n j :
  ordered s a n -> 1 <= j <= n -> kat s a 1 <= kat s a j.
Proof.
  intros Ho. revert j. induction j as [j IH] using (well_founded_induction (Z.lt_wf 0)).
  intros Hj. destruct (decide (j = 1)) as [->|]; [lia|].
  etrans; [apply (IH (j / 2)); dlia|]. apply Ho. lia.
Qed.

Lemma pop_spec s h :
  heap_ok s h -> heap_ordered s h -> 1 <= h_pos h < 2 ^ 31 ->
  exists s' h' x, xheap_pop s h = Some (s', h', Some x)
    /\ heap_ok s' h' /\ heap_ordered s' h'
    /\ member h x /\ (forall y, member h y -> key s x <= key s y)
    /\ (forall y, member h' y <-> member h y /\ y <> x)
    /\ moved (member h) s s'
    /\ h_pos h' = h_pos h - 1 /\ h_len h' = h_len h.
Proof.
  intros Hok Hord Hpos. unfold xheap_pop, HEAP_TOP. rewrite decide_False by lia.
  assert (Hmin : forall x, slot (h_array h) 1 x -> member h x /\
            forall y, member h y -> key s x <= key s y).
  { intros x Hx. split; [exists 1; split_and!; lia || done|]. intros y (j & Hj & _ & Hy).
    rewrite <- (slot_kat _ _ _ _ Hx), <- (slot_kat _ _ _ _ Hy). by eapply top_min. }
  case_decide as H1.
  - destruct (take_last_spec s h) as (x & h' & E & Hx & Hok' & Ho' & Hnm & Hp & Hl); [done|done|].
    exists s, h', x. destruct (Hmin x Hx). split_and!; try done; try lia.
    intros y. split; [by intros ?%Hnm|]. intros [(j & Hj & _ & Hy) Hne].
    assert (j = 1) as -> by lia. unfold slot in *. congruence.
  - destruct (ok_placed _ _ Hok 1) as (x & nd & Hx & _); [lia|].
    destruct (extract_spec s h 1 x) as (s' & h' & E & Hok' & Ho' & Hm & Hmv & Hp & Hl);
      [done|lia|lia|done|].
    exists s', h', x. destruct (Hmin x Hx). split_and!; try done. apply Ho'; [done|lia].
Qed.

(** ** A priority queue

    The heap implements a bounded set of nodes with two operations. *)

Inductive heap_op := Push (x : positive) | Pop.
Inductive heap_out := Pushed (i : Z) | Popped (p : option positive).

Definition heap_exec (s : nodes) (h : xheap) (op : heap_op) : option (nodes * xheap * heap_out) :=
  match op with
  | Push x => '(s, h, i) ← xheap_push s h x; Some (s, h, Pushed i)
  | Pop => '(s, h, p) ← xheap_pop s h; Some (s, h, Popped p)
  end.

Inductive pq_step (k : positive -> Z) (cap : Z) (X : gset positive)
  : heap_op -> heap_out -> gset positive -> Prop :=
| pq_push x i :
    Z.of_nat (size X) < cap -> 1 <= i -> pq_step k cap X (Push x) (Pushed i) ({[x]} ∪ X)
| pq_full x :
    Z.of_nat (size X) = cap -> pq_step k cap X (Push x) (Pushed 0) X
| pq_pop x :
    x ∈ X -> (forall y, y ∈ X -> k x <= k y) ->
    pq_step k cap X Pop (Popped (Some x)) (X ∖ {[x]})
| pq_empty : X = ∅ -> pq_step k cap X Pop (Popped None) ∅.

(** The client pushes live nodes that are not in the heap. *)
Definition admissible (s : nodes) (X : gset positive) (op : heap_op) : Prop :=
  match op with Push x => is_Some (s !! x) /\ x ∉ X | Pop => True end.

Record heap_rel (s : nodes) (h : xheap) (X : gset positive) : Prop := {
  rel_ok : heap_ok s h;
  rel_order : heap_ordered s h;
  rel_member : forall x, x ∈ X <-> member h x;
  rel_size : Z.of_nat (size X) = h_pos h;
}.

(** C15: Every push of a live new node and every pop runs without a fault and
    is a step of the priority queue over the set of nodes in the heap: a push
    inserts, or returns 0 on a full heap; a pop removes and returns a node of
    smallest key, or [NULL] on an empty heap.  The array stays heap-ordered,
    every node's [pos] names its slot, and no field but the [pos] of the nodes
    concerned changes. *)
Theorem heap_refines_pq s h X op :
  heap_rel s h X -> h_len h < 2 ^ 31 -> admissible s X op ->
  exists s' h' out X', heap_exec s h op = Some (s', h', out)
    /\ pq_step (key s) (h_len h) X op out X'
    /\ heap_rel s' h' X' /\ h_len h' = h_len h
    /\ moved (fun x => op = Push x \/ x ∈ X) s s'.
Proof.
  intros [Hok Hord Hm Hsz] Hlen Hadm. pose proof (ok_pos _ _ Hok). destruct op as [x|]; simpl.
  - destruct Hadm as [Hal Hx]. destruct (decide (h_pos h < h_len h)) as [Hlt|].
    + destruct (push_spec s h x) as (s' & h' & i & -> & Hok' & Ho' & Hm' & Hmv & Hp & Hl & Hi & _);
        [done|done|by rewrite <- Hm|done|].
      exists s', h', (Pushed i), ({[x]} ∪ X). split_and!; try done; [constructor; lia| |].
      * split; [done|by apply Ho'| |rewrite size_union, size_singleton by set_solver; lia].
        intros y. rewrite Hm', <- Hm. set_solver.
      * eapply moved_weaken; [|done]. intros y [->|?]; [by left|right]. by apply Hm.
    + unfold xheap_push. rewrite decide_False by done.
      exists s, h, (Pushed 0), X. split_and!; try done. constructor. lia.
  - destruct (decide (h_pos h = 0)) as [H0|].
    + assert (X = ∅) as -> by (apply leibniz_equiv, size_empty_inv; lia).
      unfold xheap_pop, HEAP_TOP. rewrite decide_True by lia.
      exists s, h, (Popped None), ∅. split_and!; try done. by constructor.
    + destruct (pop_spec s h) as (s' & h' & x & -> & Hok' & Ho' & Hx & Hmin & Hm' & Hmv & Hp & Hl);
        [done|done|lia|].
      apply Hm in Hx.
      exists s', h', (Popped (Some x)), (X ∖ {[x]}). split_and!; try done.
      * constructor; [done|]. intros y Hy. apply Hmin. by apply Hm.
      * split; [done|done| |rewrite size_difference, size_singleton by set_solver; lia].
        intros y. rewrite Hm', <- Hm. set_solver.
      * eapply moved_weaken; [|done]. intros y ?. right. by apply Hm.
Qed.

(** Two nodes of keys 7 and 3, in heap order, and a third outside the heap. *)
Definition ex_nodes : nodes :=
  <[1%positive := mknode 2 7 0]> (<[2%positive := mknode 1 3 0]> {[3%positive := mknode 0 5 0]}).
Definition ex_heap : xheap := mkheap 2 4 [None; Some 2%positive; Some 1%positive; None; None].

Lemma ex_heap_rel : heap_rel ex_nodes ex_heap {[1%positive; 2%positive]}.
Proof.
  assert (Hcase : forall j, 1 <= j <= 2 -> j = 1 \/ j = 2) by lia.
  split; [split; simpl; try lia|..].
  - intros j [->| ->]%Hcase; do 2 eexists; split_and!; reflexivity.
  - intros j Hj. simpl in Hj. assert (j = 2) as -> by lia. vm_compute. discriminate.
  - intros x. unfold member, holds. simpl. split.
    + intros [->%elem_of_singleton| ->%elem_of_singleton]%elem_of_union;
        [exists 2|exists 1]; repeat split; lia.
    + intros (j & [->| ->]%Hcase & _ & [= <-]); set_solver.
  - reflexivity.
Qed.

Lemma heap_refines_pq_witness :
  heap_rel ex_nodes ex_heap {[1%positive; 2%positive]} /\
  exists s' h' out X', heap_exec ex_nodes ex_heap (Push 3) = Some (s', h', out)
    /\ pq_step (key ex_nodes) 4 {[1%positive; 2%positive]} (Push 3) out X'
    /\ heap_rel s' h' X' /\ h_len h' = 4
    /\ moved (fun x => Push 3 = Push x \/ x ∈ ({[1%positive; 2%positive]} : gset positive)) ex_nodes s'.
Proof.
  split; [exact ex_heap_rel|].
  apply (heap_refines_pq ex_nodes ex_heap _ (Push 3) ex_heap_rel); [simpl; lia|].
  split; [eexists; reflexivity|]. set_solver.
Defined.

(** ** Heap sort *)

Lemma Sorted_ext {A} (R R' : A -> A -> Prop) l :
  (forall x y, R x y -> R' x y) -> Sorted R l -> Sorted R' l.
Proof. intros H. induction 1 as [|x l _ IH Hd]; constructor; [done|]. destruct Hd; constructor; auto. Qed.

Lemma create_rel s size :
  0 <= size < 2 ^ 31 -> exists h, xheap_create true size = Some h /\ heap_rel s h ∅ /\ h_len h = size.
Proof.
  intros Hs. eexists. split; [done|]. split; [split; [split; simpl|..]|]; simpl; try lia; try done.
  - rewrite length_replicate. lia.
  - intros j Hj. simpl in Hj. lia.
  - intros x. split; [set_solver|]. intros (j & Hj & _). simpl in Hj. lia.
Qed.

Lemma push_all_spec ns : forall s h X,
  heap_rel s h X -> h_pos h + Z.of_nat (length ns) <= h_len h ->
  NoDup ns -> (forall x, x ∈ ns -> is_Some (s !! x) /\ x ∉ X) ->
  exists s' h', push_all s h ns = Some (s', h') /\ heap_rel s' h' (X ∪ list_to_set ns)
    /\ h_len h' = h_len h /\ (forall x, key s' x = key s x).
Proof.
  induction ns as [|x ns IH]; intros s h X [Hok Ho Hm Hsz] Hl Hnd Hin; cbn [push_all].
  { exists s, h. split_and!; [done| |done|done]. simpl. by rewrite union_empty_r_L. }
  apply NoDup_cons in Hnd as [Hx Hnd]. simpl in Hl. destruct (Hin x) as [Hal HxX]; [left|].
  destruct (push_spec s h x) as (s1 & h1 & i & -> & Hok1 & Ho1 & Hm1 & Hmv & Hp1 & Hl1 & _);
    [done|done|by rewrite <- Hm|lia|].
  cbn [mbind option_bind].
  destruct (IH s1 h1 ({[x]} ∪ X)) as (s2 & h2 & E2 & Hrel2 & Hl2 & Hk2); [|lia|done| |].
  - split; [done|by apply Ho1| |rewrite size_union, size_singleton by set_solver; lia].
    intros y. rewrite Hm1, <- Hm. set_solver.
  - intros y Hy. destruct (Hin y) as [[nd Hnd'] HyX]; [by right|].
    destruct (moved_lookup _ _ _ _ _ Hmv Hnd') as (nd' & ? & _). split; [eauto|]. set_solver.
  - exists s2, h2. split_and!; [done| |lia|].
    + rewrite list_to_set_cons. replace (X ∪ ({[x]} ∪ list_to_set ns))
        with ({[x]} ∪ X ∪ list_to_set ns) by set_solver. done.
    + intros y. rewrite Hk2. by eapply moved_key.
Qed.

Lemma pop_n_spec n : forall s h X,
  heap_rel s h X -> h_len h < 2 ^ 31 -> size X = n ->
  exists xs, pop_n n s h = Some xs /\ NoDup xs /\ list_to_set xs = X
    /\ Sorted (fun x y => key s x <= key s y) xs.
Proof.
  induction n as [|n IH]; intros s h X [Hok Ho Hm Hsz] Hl Hn; cbn [pop_n].
  { exists []. split_and!; [done|constructor| |constructor].
    symmetry. by apply leibniz_equiv, size_empty_inv. }
  pose proof (ok_pos _ _ Hok).
  destruct (pop_spec s h) as (s1 & h1 & x & -> & Hok1 & Ho1 & Hx & Hmin & Hm1 & Hmv & Hp1 & Hl1);
    [done|done|lia|].
  cbn [mbind option_bind]. apply Hm in Hx.
  destruct (IH s1 h1 (X ∖ {[x]})) as (xs & -> & Hnd & HX & Hs); [|lia| |].
  - split; [done|done| |rewrite size_difference, size_singleton by set_solver; lia].
    intros y. rewrite Hm1, <- Hm. set_solver.
  - rewrite size_difference, size_singleton by set_solver. lia.
  - assert (Hxs : forall y, y ∈ xs <-> y ∈ X ∖ {[x]})
      by (intros y; rewrite <- HX; by rewrite elem_of_list_to_set).
    exists (x :: xs). split_and!; [done| | |].
    + constructor; [|done]. rewrite Hxs. set_solver.
    + rewrite list_to_set_cons, HX. rewrite <- union_difference_L; set_solver.
    + constructor.
      * eapply Sorted_ext; [|done]. intros y z. simpl. by rewrite !(moved_key _ _ _ _ Hmv).
      * destruct xs as [|y xs]; constructor. apply Hmin, Hm.
        specialize (Hxs y). set_solver.
Qed.

(** Heap sort: pushing any list of distinct live nodes into a fresh heap of
    enough capacity and popping as many times yields a permutation of the list
    sorted by key. *)
Lemma heap_sort_correct s ns size h :
  NoDup ns -> (forall x, x ∈ ns -> is_Some (s !! x)) ->
  Z.of_nat (length ns) <= size < 2 ^ 31 -> xheap_create true size = Some h ->
  exists s' h' xs, push_all s h ns = Some (s', h')
    /\ pop_n (length ns) s' h' = Some xs
    /\ xs ≡ₚ ns /\ Sorted (fun x y => key s x <= key s y) xs.
Proof.
  intros Hnd Hal Hl Hh. destruct (create_rel s size) as (h0 & E & Hrel & Hlen); [lia|].
  rewrite Hh in E. injection E as <-. pose proof (rel_size _ _ _ Hrel) as Hp.
  rewrite size_empty in Hp.
  destruct (push_all_spec ns s h ∅ Hrel) as (s' & h' & E1 & Hrel1 & Hl1 & Hk1);
    [lia|done|intros x Hx; split; [by apply Hal|set_solver]|].
  destruct (pop_n_spec (length ns) s' h' _ Hrel1) as (xs & E2 & Hnd2 & HX & Hs); [lia| |].
  { rewrite union_empty_l_L. by apply size_list_to_set. }
  exists s', h', xs. split_and!; [done|done| |].
  - apply NoDup_Permutation; [done|done|]. intros x.
    rewrite <- (elem_of_list_to_set (C:=gset positive) x xs), HX, union_empty_l_L.
    by rewrite elem_of_list_to_set.
  - eapply Sorted_ext; [|done]. intros x y. simpl. by rewrite !Hk1.
Qed.


(** ** Removal *)

(** C16: [xheap_remove] of a node in the heap returns that node, leaves exactly
    the others in the heap with their [pos] right, and keeps the heap order
    provided the node of the last slot is not smaller than the parent of the
    vacated slot. *)
Theorem heap_remove_correct s h x :
  heap_ok s h -> h_len h < 2 ^ 31 -> member h x ->
  exists s' h', xheap_remove s h x = Some (s', h', Some x)
    /\ heap_ok s' h'
    /\ (forall y, member h' y <-> member h y /\ y <> x)
    /\ moved (member h) s s'
    /\ h_pos h' = h_pos h - 1 /\ h_len h' = h_len h
    /\ (forall nd, s !! x = Some nd -> heap_ordered s h ->
        (2 <= n_pos nd -> kat s (h_array h) (n_pos nd / 2) <= kat s (h_array h) (h_pos h)) ->
        heap_ordered s' h').
Proof.
  intros Hok Hlen (i & Hi & _ & Hs). pose proof (ok_pos _ _ Hok) as Hp.
  destruct (ok_placed _ _ Hok i Hi) as (x' & nd & Hs' & Hnd & Hpos).
  unfold slot in Hs, Hs'. assert (x' = x) as -> by congruence.
  unfold xheap_remove. rewrite Hnd. cbn [mbind option_bind]. rewrite Hpos, u32_small by lia.
  unfold HEAP_TOP. rewrite decide_False by lia. case_decide as H1.
  - destruct (take_last_spec s h) as (y & h' & E & Hy & Hok' & Ho' & Hnm & Hp' & Hl); [done|done|].
    assert (i = 1) as -> by lia. unfold slot in Hy. assert (y = x) as -> by congruence.
    exists s, h'. split_and!; try done; try lia.
    intros y. split; [by intros ?%Hnm|]. intros [(j & Hj & _ & Hy') Hne].
    assert (j = 1) as -> by lia. unfold slot in Hy'. congruence.
  - rewrite key_at_kat by (apply (ok_placed _ _ Hok); lia). cbn [mbind option_bind].
    rewrite (slot_kat _ _ _ _ Hs), decide_True by (unfold key; by rewrite Hnd).
    destruct (extract_spec s h i x) as (s' & h' & E & Hok' & Ho' & Hm & Hmv & Hp' & Hl);
      [done|lia|lia|done|].
    exists s', h'. split_and!; try done. intros nd' Hnd' Hord.
    injection Hnd' as <-. rewrite Hpos. by apply Ho'.
Qed.

Lemma heap_remove_correct_witness :
  exists s' h', xheap_remove ex_nodes ex_heap 2 = Some (s', h', Some 2%positive)
    /\ heap_ok s' h'
    /\ (forall y, member h' y <-> member ex_heap y /\ y <> 2%positive)
    /\ moved (member ex_heap) ex_nodes s'
    /\ h_pos h' = 2 - 1 /\ h_len h' = 4
    /\ (forall nd, ex_nodes !! 2%positive = Some nd -> heap_ordered ex_nodes ex_heap ->
        (2 <= n_pos nd -> kat ex_nodes (h_array ex_heap) (n_pos nd / 2)
                          <= kat ex_nodes (h_array ex_heap) (h_pos ex_heap)) ->
        heap_ordered s' h').
Proof.
  apply (heap_remove_correct ex_nodes ex_heap 2 (rel_ok _ _ _ ex_heap_rel)); [simpl; lia|].
  apply (rel_member _ _ _ ex_heap_rel). set_solver.
Defined.

(** Keys 1; 10 2; 11 12 3 4 in breadth-first order; the node of key 11, in slot
    4, is removed and 4 takes its place below 10. *)
Definition ex_remove_keys : list Z := [1; 10; 2; 11; 12; 3; 4].
Definition ex_remove_nodes : nodes :=
  list_to_map (imap (fun i k => (Pos.of_succ_nat i, mknode (Z.of_nat i + 1) k 0)) ex_remove_keys).
Definition ex_remove_heap : xheap :=
  mkheap 7 7 (None :: imap (fun i _ => Some (Pos.of_succ_nat i)) ex_remove_keys).

Lemma range_cases n (P : Z -> Prop) :
  Forall P (map (fun i => Z.of_nat i) (seq 1 n)) -> forall j, 1 <= j <= Z.of_nat n -> P j.
Proof.
  intros H j Hj. eapply (proj1 (List.Forall_forall _ _)); [exact H|]. apply in_map_iff.
  exists (Z.to_nat j). split; [lia|]. apply in_seq. lia.
Qed.

(** [xheap_remove] does not keep the heap order in general: from a
    well-formed ordered heap of seven nodes, removing the node of key 11
    leaves a heap in which a child is smaller than its parent. *)
Lemma heap_remove_breaks_order :
  exists s' h' x,
    heap_ok ex_remove_nodes ex_remove_heap /\ heap_ordered ex_remove_nodes ex_remove_heap
    /\ xheap_remove ex_remove_nodes ex_remove_heap 4 = Some (s', h', Some x)
    /\ key s' x = 11 /\ ~ heap_ordered s' h'.
Proof.
  do 3 eexists. split_and!; [split; simpl; try lia| |vm_compute; reflexivity|reflexivity|].
  - apply (range_cases 7). repeat constructor; do 2 eexists; split_and!; reflexivity.
  - assert (H := range_cases 7 (fun j => 2 <= j ->
       kat ex_remove_nodes (h_array ex_remove_heap) (j / 2)
       <= kat ex_remove_nodes (h_array ex_remove_heap) j)).
    intros j Hj. simpl in Hj. apply H; try lia.
    repeat constructor; intros; vm_compute; congruence.
  - intros H. specialize (H 4). vm_compute in H. destruct H; [split; discriminate|reflexivity].
Qed.
