(* ===== verification/Xpipe.v ===== *)
(** * The pipe of [xnet/xpipe.h]

    A bounded byte queue over a ring buffer whose length is a power of two.
    [writer] and [reader] are free-running 64-bit counters; their difference
    is the number of readable bytes.  First the non-blocking operations are
    refined to a FIFO queue; then one writer and one reader thread run
    interleaved, byte by byte, over the shared counters and buffer. *)

From S2P Require Import Prelude.

(** ** Data *)

Record xpipe := mkpipe {
  p_len : Z; p_writer : Z; p_reader : Z; p_breaker : bool;
  p_rlock : bool; p_wlock : bool; p_buf : list Z;
}.

(** ** Operations *)

(** The length of a new pipe: [len] when it is a power of two, and otherwise
    the next power of two, doubling once per bit of [len]. *)
Fixpoint double_bits (fuel : nat) (acc len : Z) : Z :=
  match fuel with
  | O => acc
  | S fuel' =>
      let acc := u64 (Z.shiftl acc 1) in
      let len := Z.shiftr len 1 in
      if decide (len = 0) then acc else double_bits fuel' acc len
  end.

Definition pipe_len (len : Z) : Z :=
  if decide (Z.land len (u64 (len - 1)) = 0) then len else double_bits 64 1 len.

(** [junk] is what [malloc] returns, [None] when it fails; the mutex is outside
    the model. *)
Definition xpipe_create (junk : Z -> option (list Z)) (len : Z) : option xpipe :=
  let n := pipe_len len in
  buf ← junk n;
  Some (mkpipe n 0 0 false false false buf).

(** [mcopy(buf + off, data, n)]. *)
Definition copy_in (buf : list Z) (off : Z) (data : list Z) (pos n : Z) : option (list Z) :=
  src ← rd_range data pos n; wr_range buf off src.

Definition xpipe_readable (p : xpipe) : Z := u64 (p_writer p - p_reader p).
Definition xpipe_writable (p : xpipe) : Z := u64 (p_len p - p_writer p + p_reader p).

(** [__xpipe_write]: the number of bytes taken from [data] and the pipe after. *)
Definition __xpipe_write (p : xpipe) (data : list Z) (len : Z) : option (xpipe * Z) :=
  if p_wlock p then Some (p, 0)
  else
    let writable := xpipe_writable p in
    let writable := if decide (writable > len) then len else writable in
    if decide (writable > 0) then
      let pos := Z.land (p_writer p) (p_len p - 1) in
      let leftover := p_len p - pos in
      buf ← (if decide (leftover >= writable) then copy_in (p_buf p) pos data 0 writable
             else
               buf ← copy_in (p_buf p) pos data 0 leftover;
               copy_in buf 0 data leftover (writable - leftover));
      Some (mkpipe (p_len p) (u64 (p_writer p + writable)) (p_reader p) (p_breaker p)
                   (p_rlock p) false buf, writable)
    else Some (p, writable).

(** [__xpipe_read]: the pipe after and the bytes copied to [buf]. *)
Definition __xpipe_read (p : xpipe) (len : Z) : option (xpipe * list Z) :=
  if p_rlock p then Some (p, [])
  else
    let readable := xpipe_readable p in
    let readable := if decide (readable > len) then len else readable in
    if decide (readable > 0) then
      let pos := Z.land (p_reader p) (p_len p - 1) in
      let leftover := p_len p - pos in
      out ← (if decide (leftover >= readable) then rd_range (p_buf p) pos readable
             else
               a ← rd_range (p_buf p) pos leftover;
               b ← rd_range (p_buf p) 0 (readable - leftover);
               Some (a ++ b));
      Some (mkpipe (p_len p) (p_writer p) (u64 (p_reader p + readable)) (p_breaker p)
                   false (p_wlock p) (p_buf p), out)
    else Some (p, []).

Definition xpipe_clear (p : xpipe) : xpipe :=
  mkpipe (p_len p) (u64 (p_writer p - p_writer p)) (u64 (p_reader p - p_reader p)) (p_breaker p)
         (p_rlock p) (p_wlock p) (p_buf p).

Definition xpipe_break (p : xpipe) : xpipe :=
  mkpipe (p_len p) (p_writer p) (p_reader p) true (p_rlock p) (p_wlock p) (p_buf p).

(** A client: a sequence of non-blocking writes and reads, with the bytes
    accepted and the bytes read so far. *)
Inductive pipe_op := Write (data : list Z) | Read (len : Z).

Fixpoint pipe_run (p : xpipe) (ops : list pipe_op) (ins outs : list Z)
  : option (xpipe * list Z * list Z) :=
  match ops with
  | [] => Some (p, ins, outs)
  | Write data :: ops =>
      '(p, n) ← __xpipe_write p data (Z.of_nat (length data));
      pipe_run p ops (ins ++ take (Z.to_nat n) data) outs
  | Read len :: ops =>
      '(p, out) ← __xpipe_read p len;
      pipe_run p ops ins (outs ++ out)
  end.

(** The specification: a queue of at most [cap] bytes. *)
Fixpoint queue_run (cap : Z) (q : list Z) (ops : list pipe_op) (ins outs : list Z)
  : list Z * list Z * list Z :=
  match ops with
  | [] => (q, ins, outs)
  | Write data :: ops =>
      let acc := take (Z.to_nat (cap - Z.of_nat (length q))) data in
      queue_run cap (q ++ acc) ops (ins ++ acc) outs
  | Read len :: ops =>
      queue_run cap (drop (Z.to_nat len) q) ops ins (outs ++ take (Z.to_nat len) q)
  end.

(** ** One writer and one reader, interleaved

    The threads run [__xpipe_write] and [__xpipe_read] concurrently: the
    counters are loaded once, the bytes are copied one at a time, and the
    counter is advanced last. *)
Inductive writer_pc := WIdle | WCopy (n i : Z) (data : list Z).
Inductive reader_pc := RIdle | RCopy (n i : Z) (acc : list Z).

(** [sp_in] and [sp_out] log the bytes whose write has been committed and the
    bytes that were handed to the reader's caller. *)
Record spsc := mkspsc {
  sp_pipe : xpipe; sp_w : writer_pc; sp_r : reader_pc; sp_in : list Z; sp_out : list Z;
}.

Definition set_buf (p : xpipe) (buf : list Z) : xpipe :=
  mkpipe (p_len p) (p_writer p) (p_reader p) (p_breaker p) (p_rlock p) (p_wlock p) buf.
Definition set_writer (p : xpipe) (w : Z) (lock : bool) : xpipe :=
  mkpipe (p_len p) w (p_reader p) (p_breaker p) (p_rlock p) lock (p_buf p).
Definition set_reader (p : xpipe) (r : Z) (lock : bool) : xpipe :=
  mkpipe (p_len p) (p_writer p) r (p_breaker p) lock (p_wlock p) (p_buf p).

Inductive spsc_step (s : spsc) : spsc -> Prop :=
| step_w_start data len :
    sp_w s = WIdle -> p_wlock (sp_pipe s) = false -> 0 <= len <= Z.of_nat (length data) ->
    let w := xpipe_writable (sp_pipe s) in
    spsc_step s (mkspsc (set_writer (sp_pipe s) (p_writer (sp_pipe s)) true)
                        (WCopy (if decide (w > len) then len else w) 0 data)
                        (sp_r s) (sp_in s) (sp_out s))
| step_w_copy n i data b buf :
    sp_w s = WCopy n i data -> i < n -> rd data i = Some b ->
    wr (p_buf (sp_pipe s)) (Z.land (u64 (p_writer (sp_pipe s) + i)) (p_len (sp_pipe s) - 1)) b
      = Some buf ->
    spsc_step s (mkspsc (set_buf (sp_pipe s) buf) (WCopy n (i + 1) data)
                        (sp_r s) (sp_in s) (sp_out s))
| step_w_commit n data :
    sp_w s = WCopy n n data ->
    spsc_step s (mkspsc (set_writer (sp_pipe s) (u64 (p_writer (sp_pipe s) + n)) false) WIdle
                        (sp_r s) (sp_in s ++ take (Z.to_nat n) data) (sp_out s))
| step_r_start len :
    sp_r s = RIdle -> p_rlock (sp_pipe s) = false -> 0 <= len ->
    let r := xpipe_readable (sp_pipe s) in
    spsc_step s (mkspsc (set_reader (sp_pipe s) (p_reader (sp_pipe s)) true)
                        (sp_w s) (RCopy (if decide (r > len) then len else r) 0 [])
                        (sp_in s) (sp_out s))
| step_r_copy n i acc b :
    sp_r s = RCopy n i acc -> i < n ->
    rd (p_buf (sp_pipe s)) (Z.land (u64 (p_reader (sp_pipe s) + i)) (p_len (sp_pipe s) - 1))
      = Some b ->
    spsc_step s (mkspsc (sp_pipe s) (sp_w s) (RCopy n (i + 1) (acc ++ [b]))
                        (sp_in s) (sp_out s))
| step_r_commit n acc :
    sp_r s = RCopy n n acc ->
    spsc_step s (mkspsc (set_reader (sp_pipe s) (u64 (p_reader (sp_pipe s) + n)) false)
                        (sp_w s) RIdle (sp_in s) (sp_out s ++ acc)).

(** ** The queue in the ring *)

(** The pipe holds the bytes [q]; [r] counts the bytes ever read. *)
Record pipe_repr (p : xpipe) (r : Z) (q : list Z) : Prop := {
  pr_pow2 : exists k, 0 <= k <= 63 /\ p_len p = 2 ^ k;
  pr_r : 0 <= r;
  pr_reader : p_reader p = u64 r;
  pr_writer : p_writer p = u64 (r + Z.of_nat (length q));
  pr_buf : Z.of_nat (length (p_buf p)) = p_len p;
  pr_fit : Z.of_nat (length q) <= p_len p;
  pr_cells : forall j, 0 <= j < Z.of_nat (length q) ->
               rd (p_buf p) ((r + j) mod p_len p) = rd q j;
}.

Lemma ring_index n x k : 0 <= k <= 63 -> n = 2 ^ k -> Z.land (u64 x) (n - 1) = x mod n.
Proof.
  intros Hk ->. rewrite Z.sub_1_r, <- Z.ones_equiv, Z.land_ones by lia.
  unfold u64, wrap. apply Z.mod_mod_divide. exists (2 ^ (64 - k)).
  rewrite <- Z.pow_add_r by lia. f_equal. lia.
Qed.

Lemma readable_length p r q :
  pipe_repr p r q -> xpipe_readable p = Z.of_nat (length q) /\
                     xpipe_writable p = p_len p - Z.of_nat (length q).
Proof.
  intros [(k & Hk & Hlen) Hr Hrd Hwr Hbuf Hfit Hc]. unfold xpipe_readable, xpipe_writable.
  rewrite Hrd, Hwr. assert (0 < p_len p <= 2 ^ 63).
  { rewrite Hlen. split; [lia|]. apply Z.pow_le_mono_r; lia. }
  unfold u64, wrap. split.
  - rewrite <- Zminus_mod. rewrite Z.mod_small; lia.
  - rewrite Zplus_mod, Zminus_mod, Z.mod_mod, <- Zminus_mod, Z.mod_mod, <- Zplus_mod by lia.
    rewrite Z.mod_small; lia.
Qed.

(** Cells of the ring at distance less than its length are distinct. *)
Lemma ring_inj n a i j : 0 < n -> 0 <= i < n -> 0 <= j < n ->
  (a + i) mod n = (a + j) mod n -> i = j.
Proof.
  intros Hn Hi Hj E. assert (((a + i) - (a + j)) mod n = 0) as H.
  { rewrite Zminus_mod, E, Z.sub_diag. by apply Z.mod_0_l; lia. }
  replace (a + i - (a + j)) with (i - j) in H by lia.
  apply Z.mod_divide in H as [m Hm]; [|lia]. assert (m = 0) by nia. nia.
Qed.

Lemma ring_split n a j :
  0 < n -> 0 <= j < n ->
  (a + j) mod n = if decide (j < n - a mod n) then a mod n + j else j - (n - a mod n).
Proof.
  intros Hn Hj. pose proof (Z.mod_pos_bound a n Hn). pose proof (Z.div_mod a n ltac:(lia)) as Ha.
  case_decide.
  - symmetry. apply (Z.mod_unique_pos _ _ (a / n)); lia.
  - symmetry. apply (Z.mod_unique_pos _ _ (a / n + 1)); nia.
Qed.

(** The two-piece copy into the ring. *)
Lemma ring_write buf n a data m :
  0 < n -> Z.of_nat (length buf) = n -> 0 < m <= n -> m <= Z.of_nat (length data) ->
  let pos := a mod n in
  exists buf',
    (if decide (n - pos >= m) then copy_in buf pos data 0 m
     else buf ← copy_in buf pos data 0 (n - pos);
          copy_in buf 0 data (n - pos) (m - (n - pos))) = Some buf'
    /\ length buf' = length buf
    /\ (forall j, 0 <= j < m -> rd buf' ((a + j) mod n) = rd data j)
    /\ (forall j, m <= j < n -> rd buf' ((a + j) mod n) = rd buf ((a + j) mod n)).
Proof.
  intros Hn Hbuf Hm Hdata pos. pose proof (Z.mod_pos_bound a n Hn). fold pos in H.
  unfold copy_in. case_decide.
  - destruct (rd_range_is_Some data 0 m) as [src Hs]; [lia..|]. rewrite Hs. cbn [mbind option_bind].
    pose proof (rd_range_length _ _ _ _ Hs).
    destruct (wr_range_is_Some buf pos src) as [buf' Hb]; [lia..|]. rewrite Hb.
    exists buf'. split_and!; [done|by eapply wr_range_length| |]; intros j Hj;
      rewrite (rd_wr_range _ _ _ _ _ Hb), ring_split by lia; fold pos; repeat case_decide; try lia; try done.
    rewrite (rd_rd_range _ _ _ _ _ Hs), decide_True by lia. f_equal. lia.
  - destruct (rd_range_is_Some data 0 (n - pos)) as [s1 Hs1]; [lia..|].
    destruct (rd_range_is_Some data (n - pos) (m - (n - pos))) as [s2 Hs2]; [lia..|].
    pose proof (rd_range_length _ _ _ _ Hs1). pose proof (rd_range_length _ _ _ _ Hs2).
    destruct (wr_range_is_Some buf pos s1) as [b1 Hb1]; [lia..|].
    pose proof (wr_range_length _ _ _ _ Hb1).
    destruct (wr_range_is_Some b1 0 s2) as [b2 Hb2]; [lia..|].
    pose proof (wr_range_length _ _ _ _ Hb2).
    rewrite Hs1. cbn [mbind option_bind]. rewrite Hb1. cbn [mbind option_bind]. rewrite Hs2.
    cbn [mbind option_bind]. rewrite Hb2.
    exists b2. split_and!; [done|lia| |]; intros j Hj;
      rewrite (rd_wr_range _ _ _ _ _ Hb2), (rd_wr_range _ _ _ _ _ Hb1), ring_split by lia; fold pos;
      repeat case_decide; try lia; try done.
    + rewrite (rd_rd_range _ _ _ _ _ Hs2), decide_True by lia. f_equal. lia.
    + rewrite (rd_rd_range _ _ _ _ _ Hs1), decide_True by lia. f_equal. lia.
Qed.

(** The two-piece copy out of the ring. *)
Lemma ring_read (buf : list Z) n a m :
  0 < n -> Z.of_nat (length buf) = n -> 0 < m <= n ->
  let pos := a mod n in
  exists out : list Z,
    (if decide (n - pos >= m) then rd_range buf pos m
     else x ← rd_range buf pos (n - pos); y ← rd_range buf 0 (m - (n - pos)); Some (x ++ y))
    = Some out
    /\ Z.of_nat (length out) = m
    /\ (forall j, 0 <= j < m -> rd out j = rd buf ((a + j) mod n)).
Proof.
  intros Hn Hbuf Hm pos. pose proof (Z.mod_pos_bound a n Hn). fold pos in H. case_decide.
  - destruct (rd_range_is_Some buf pos m) as [out Hs]; [lia..|].
    exists out. split_and!; [done|by eapply rd_range_length|]. intros j Hj.
    rewrite (rd_rd_range _ _ _ _ _ Hs), ring_split by lia. fold pos.
    rewrite !decide_True by lia. done.
  - destruct (rd_range_is_Some buf pos (n - pos)) as [x Hx]; [lia..|].
    destruct (rd_range_is_Some buf 0 (m - (n - pos))) as [y Hy]; [lia..|].
    pose proof (rd_range_length _ _ _ _ Hx). pose proof (rd_range_length _ _ _ _ Hy).
    rewrite Hx. cbn [mbind option_bind]. rewrite Hy. cbn [mbind option_bind].
    exists (x ++ y). split_and!; [done|rewrite length_app; lia|]. intros j Hj.
    rewrite ring_split by lia. fold pos. case_decide.
    + rewrite rd_app_l by lia. rewrite (rd_rd_range _ _ _ _ _ Hx), decide_True by lia. done.
    + rewrite rd_app_r by lia. rewrite (rd_rd_range _ _ _ _ _ Hy), decide_True by lia. f_equal. lia.
Qed.

Lemma pipe_len_pos p r q : pipe_repr p r q -> 0 < p_len p <= 2 ^ 63.
Proof.
  intros [(k & Hk & ->) _ _ _ _ _ _]. split; [lia|]. apply Z.pow_le_mono_r; lia.
Qed.

Lemma write_repr p r q data len :
  pipe_repr p r q -> p_wlock p = false -> 0 <= len <= Z.of_nat (length data) ->
  let n := Z.min len (p_len p - Z.of_nat (length q)) in
  exists p', __xpipe_write p data len = Some (p', n)
    /\ pipe_repr p' r (q ++ take (Z.to_nat n) data)
    /\ p_len p' = p_len p /\ p_wlock p' = false /\ p_rlock p' = p_rlock p.
Proof.
  intros Hp Hw Hlen n. pose proof (pipe_len_pos _ _ _ Hp) as Hpos.
  destruct (readable_length _ _ _ Hp) as [_ Hwr].
  pose proof Hp as [(k & Hk & Hpl) Hr Hrd Hwt Hbuf Hfit Hc].
  unfold __xpipe_write. rewrite Hw, Hwr.
  replace (if decide (p_len p - Z.of_nat (length q) > len) then len else _) with n
    by (unfold n; case_decide; lia).
  case_decide as Hn.
  2:{ exists p. split_and!; try done. replace (Z.to_nat n) with 0%nat by lia.
      by rewrite take_0, app_nil_r. }
  rewrite Hwt, (ring_index (p_len p) _ k) by done.
  destruct (ring_write (p_buf p) (p_len p) (r + Z.of_nat (length q)) data n)
    as (buf' & -> & Hl' & Hin & Hout); [lia..|].
  cbn [mbind option_bind]. eexists. split_and!; [done|split; simpl|done|done|done]; try done.
  - eauto.
  - rewrite u64_add_l, length_app, length_take. f_equal. lia.
  - lia.
  - rewrite length_app, length_take. lia.
  - rewrite length_app, length_take. intros j Hj.
    destruct (decide (j < Z.of_nat (length q))).
    + rewrite rd_app_l by lia. rewrite <- Hc by lia.
      replace (r + j) with (r + Z.of_nat (length q) + (p_len p - Z.of_nat (length q) + j)
                            + (-1) * p_len p) by lia.
      rewrite Z_mod_plus_full. by rewrite Hout by lia.
    + rewrite rd_app_r, rd_take, decide_True by lia. rewrite <- Hin by lia. f_equal. f_equal. lia.
Qed.

Lemma read_repr p r q len :
  pipe_repr p r q -> p_rlock p = false -> 0 <= len ->
  let n := Z.min len (Z.of_nat (length q)) in
  exists p', __xpipe_read p len = Some (p', take (Z.to_nat n) q)
    /\ pipe_repr p' (r + n) (drop (Z.to_nat n) q)
    /\ p_len p' = p_len p /\ p_rlock p' = false /\ p_wlock p' = p_wlock p.
Proof.
  intros Hp Hw Hlen n. pose proof (pipe_len_pos _ _ _ Hp) as Hpos.
  destruct (readable_length _ _ _ Hp) as [Hre _].
  pose proof Hp as [(k & Hk & Hpl) Hr Hrd Hwt Hbuf Hfit Hc].
  unfold __xpipe_read. rewrite Hw, Hre.
  replace (if decide (Z.of_nat (length q) > len) then len else _) with n
    by (unfold n; case_decide; lia).
  case_decide as Hn.
  2:{ exists p. replace (Z.to_nat n) with 0%nat by lia. rewrite take_0, drop_0.
      replace (r + n) with r by lia. done. }
  rewrite Hrd, (ring_index (p_len p) _ k) by done.
  destruct (ring_read (p_buf p) (p_len p) r n) as (out & -> & Hl & Hout); [lia..|].
  cbn [mbind option_bind].
  assert (out = take (Z.to_nat n) q) as ->.
  { apply list_eq_rd. intros j Hj. rewrite rd_take. case_decide.
    - rewrite Hout, Hc by lia. done.
    - apply rd_None. lia. }
  eexists. split_and!; [done|split; simpl|done|done|done]; try done.
  - eauto.
  - lia.
  - by rewrite u64_add_l.
  - rewrite Hwt, length_drop. f_equal. lia.
  - rewrite length_drop. lia.
  - rewrite length_drop. intros j Hj. rewrite rd_drop by lia.
    replace (r + n + j) with (r + (n + j)) by lia. rewrite Hc by lia. f_equal. lia.
Qed.

(** ** Creation *)

Lemma double_bits_spec fuel : forall acc len,
  0 < len < 2 ^ Z.of_nat fuel ->
  double_bits fuel acc len = u64 (acc * 2 ^ (Z.log2 len + 1)).
Proof.
  induction fuel as [|fuel IH]; intros acc len Hl; [simpl in Hl; lia|]. cbn [double_bits].
  rewrite Z.shiftr_div_pow2, Z.shiftl_mul_pow2 by lia. change (2 ^ 1) with 2.
  case_decide as H0.
  - assert (len = 1) as -> by dlia. reflexivity.
  - rewrite IH.
    + assert (Z.log2 (len / 2) = Z.log2 len - 1) as ->.
      { replace (len / 2) with (Z.shiftr len 1) by by rewrite Z.shiftr_div_pow2.
        rewrite Z.log2_shiftr; [|lia]. apply Z.max_r.
        assert (Z.log2 2 <= Z.log2 len) by (apply Z.log2_le_mono; dlia). simpl in *. lia. }
      unfold u64, wrap. rewrite Zmult_mod_idemp_l. f_equal.
      replace (Z.log2 len + 1) with (1 + (Z.log2 len - 1 + 1)) by lia.
      rewrite (Z.pow_add_r 2 1) by (pose proof (Z.log2_nonneg len);
        assert (Z.log2 2 <= Z.log2 len) by (apply Z.log2_le_mono; dlia); simpl in *; lia). lia.
    + rewrite Nat2Z.inj_succ, Z.pow_succ_r in Hl by lia. split; dlia.
Qed.

Lemma land_pred_pow2 len : 0 < len -> Z.land len (len - 1) = 0 -> len = 2 ^ Z.log2 len.
Proof.
  intros Hl H. destruct (Z.log2_spec len Hl) as [Hlo Hhi]. pose proof (Z.log2_nonneg len).
  destruct (decide (len = 2 ^ Z.log2 len)) as [|Hne]; [done|exfalso].
  assert (Z.log2 (len - 1) = Z.log2 len) as E by (apply Z.log2_unique; lia).
  assert (Z.testbit (Z.land len (len - 1)) (Z.log2 len) = true) as Hb.
  { rewrite Z.land_spec, Z.bit_log2 by done. rewrite <- E. apply Z.bit_log2.
    assert (0 < 2 ^ Z.log2 len) by (apply Z.pow_pos_nonneg; [lia|apply Z.log2_nonneg]). lia. }
  by rewrite H, Z.bits_0 in Hb.
Qed.

Lemma pipe_len_spec len :
  0 < len <= 2 ^ 63 ->
  exists k, 0 <= k <= 63 /\ pipe_len len = 2 ^ k /\ len <= 2 ^ k <= 2 * len.
Proof.
  intros Hl. unfold pipe_len. rewrite u64_small by lia. pose proof (Z.log2_nonneg len).
  destruct (Z.log2_spec len) as [Hlo Hhi]; [lia|]. case_decide as Hp.
  - exists (Z.log2 len). apply land_pred_pow2 in Hp; [|lia].
    assert (Z.log2 len <= Z.log2 (2 ^ 63)) by (apply Z.log2_le_mono; lia).
    rewrite Z.log2_pow2 in * by lia. lia.
  - assert (Hlt : len < 2 ^ 63).
    { destruct (decide (len = 2 ^ 63)) as [->|]; [|lia]. by destruct Hp. }
    assert (Z.log2 len < 63) by (apply Z.log2_lt_pow2; lia).
    exists (Z.log2 len + 1). split; [lia|]. rewrite double_bits_spec by (simpl; lia).
    rewrite Z.mul_1_l, u64_small; [|split; [lia|apply Z.pow_lt_mono_r; lia]].
    split; [done|]. replace (Z.succ (Z.log2 len)) with (Z.log2 len + 1) in Hhi by lia.
    rewrite Z.pow_add_r in * by lia. lia.
Qed.

Lemma create_repr junk len p :
  0 < len <= 2 ^ 63 -> (forall n buf, 0 <= n -> junk n = Some buf -> Z.of_nat (length buf) = n) ->
  xpipe_create junk len = Some p ->
  pipe_repr p 0 [] /\ len <= p_len p <= 2 * len /\ p_rlock p = false /\ p_wlock p = false.
Proof.
  intros Hl Hj H. unfold xpipe_create in H. destruct (pipe_len_spec len Hl) as (k & Hk & E & Hb).
  destruct (junk (pipe_len len)) as [buf|] eqn:Hbuf; [|done]. injection H as <-. apply Hj in Hbuf; [|lia].
  split_and!; simpl; try done; try lia. split; simpl; try done; try lia.
  eauto.
Qed.

(** ** FIFO *)

Lemma pipe_run_spec ops : forall p r q ins outs,
  pipe_repr p r q -> p_rlock p = false -> p_wlock p = false ->
  (forall n, Read n ∈ ops -> 0 <= n) -> ins = outs ++ q ->
  exists p' r' q' ins' outs',
    pipe_run p ops ins outs = Some (p', ins', outs')
    /\ queue_run (p_len p) q ops ins outs = (q', ins', outs')
    /\ pipe_repr p' r' q' /\ p_len p' = p_len p /\ ins' = outs' ++ q'.
Proof.
  induction ops as [|[data|len] ops IH]; intros p r q ins outs Hp Hrl Hwl Hrd Heq;
    cbn [pipe_run queue_run].
  { eexists _, r, q, _, _. done. }
  - pose proof (pr_fit _ _ _ Hp).
    destruct (write_repr p r q data (Z.of_nat (length data)) Hp Hwl) as (p' & -> & Hp' & Hl & Hw & Hr);
      [lia|].
    set (n := Z.min (Z.of_nat (length data)) (p_len p - Z.of_nat (length q))) in *.
    cbn [mbind option_bind].
    replace (take (Z.to_nat (p_len p - Z.of_nat (length q))) data) with (take (Z.to_nat n) data).
    + rewrite <- Hl. apply (IH p' r); [done|congruence|done| |by rewrite Heq, app_assoc].
      intros ? Hn. apply Hrd. by right.
    + unfold n. destruct (decide (Z.of_nat (length data) <= p_len p - Z.of_nat (length q))).
      * rewrite !take_ge by lia. done.
      * f_equal. lia.
  - destruct (read_repr p r q len Hp Hrl) as (p' & -> & Hp' & Hl & Hr & Hw); [apply Hrd; by left|].
    cbn [mbind option_bind]. rewrite <- Hl.
    replace (take (Z.to_nat (Z.min len (Z.of_nat (length q)))) q) with (take (Z.to_nat len) q).
    2:{ destruct (decide (len <= Z.of_nat (length q))); [f_equal; lia|rewrite !take_ge by lia; done]. }
    replace (drop (Z.to_nat (Z.min len (Z.of_nat (length q)))) q) with (drop (Z.to_nat len) q) in Hp'.
    2:{ destruct (decide (len <= Z.of_nat (length q))); [f_equal; lia|rewrite !drop_ge by lia; done]. }
    eapply IH; [done|done|congruence| |by rewrite <- app_assoc, take_drop].
    intros n Hn. apply Hrd. by right.
Qed.

(** C13: A pipe created for [len] bytes holds a power of two of at least [len]
    and at most twice as many, and any sequence of non-blocking writes and
    reads runs without a fault exactly as on a bounded byte queue: each write
    takes what fits, each read returns what is there, and the bytes accepted
    are those read followed by those still queued. *)
Theorem pipe_fifo junk len p ops :
  0 < len <= 2 ^ 63 -> (forall n buf, 0 <= n -> junk n = Some buf -> Z.of_nat (length buf) = n) ->
  xpipe_create junk len = Some p -> (forall n, Read n ∈ ops -> 0 <= n) ->
  len <= p_len p <= 2 * len /\
  exists p' q' ins outs,
    pipe_run p ops [] [] = Some (p', ins, outs)
    /\ queue_run (p_len p) [] ops [] [] = (q', ins, outs)
    /\ ins = outs ++ q' /\ xpipe_readable p' = Z.of_nat (length q').
Proof.
  intros Hl Hj H Hrd. destruct (create_repr junk len p Hl Hj H) as (Hp & Hb & Hr & Hw).
  split; [done|].
  destruct (pipe_run_spec ops p 0 [] [] [] Hp Hr Hw Hrd eq_refl)
    as (p' & r' & q' & ins & outs & E1 & E2 & Hp' & _ & E3).
  exists p', q', ins, outs. split_and!; try done. by apply (readable_length _ r').
Qed.

Lemma pipe_fifo_witness :
  5 <= 8 <= 2 * 5 /\
  exists p' q' ins outs,
    pipe_run (mkpipe 8 0 0 false false false (replicate 8 0))
      [Write [1; 2; 3; 4; 5; 6]; Read 4; Write [7; 8; 9; 10; 11; 12; 13]; Read 20] [] []
      = Some (p', ins, outs)
    /\ queue_run 8 [] [Write [1; 2; 3; 4; 5; 6]; Read 4; Write [7; 8; 9; 10; 11; 12; 13]; Read 20] [] []
      = (q', ins, outs)
    /\ ins = outs ++ q' /\ xpipe_readable p' = Z.of_nat (length q').
Proof.
  apply (pipe_fifo (fun n => Some (replicate (Z.to_nat n) 0)) 5
           (mkpipe 8 0 0 false false false (replicate 8 0))
           [Write [1; 2; 3; 4; 5; 6]; Read 4; Write [7; 8; 9; 10; 11; 12; 13]; Read 20]).
  - lia.
  - intros n buf Hn [= <-]. rewrite length_replicate. lia.
  - reflexivity.
  - intros n Hn. repeat (apply elem_of_cons in Hn as [Hn|Hn]; [try discriminate Hn; injection Hn as ->; lia|]).
    by apply elem_of_nil in Hn.
Defined.

(** ** Interleaving *)

Lemma set_buf_repr p r q buf :
  pipe_repr p r q -> length buf = length (p_buf p) ->
  (forall j, 0 <= j < Z.of_nat (length q) ->
     rd buf ((r + j) mod p_len p) = rd (p_buf p) ((r + j) mod p_len p)) ->
  pipe_repr (set_buf p buf) r q.
Proof.
  intros [] Hl Hc. split; simpl; try done; [lia|]. intros j Hj. rewrite Hc by done. auto.
Qed.

(** The writer has copied the first [i] of its [n] bytes past the end of the
    committed queue [q], into free cells. *)
Definition writer_ok (p : xpipe) (r : Z) (q : list Z) (w : writer_pc) : Prop :=
  match w with
  | WIdle => True
  | WCopy n i data =>
      0 <= i <= n /\ n <= Z.of_nat (length data) /\ Z.of_nat (length q) + n <= p_len p /\
      forall j, 0 <= j < i -> rd (p_buf p) ((r + Z.of_nat (length q) + j) mod p_len p) = rd data j
  end.

(** The reader has copied the first [i] of the [n] bytes it will remove. *)
Definition reader_ok (q : list Z) (rp : reader_pc) : Prop :=
  match rp with
  | RIdle => True
  | RCopy n i acc => 0 <= i <= n /\ n <= Z.of_nat (length q) /\ acc = take (Z.to_nat i) q
  end.

Definition spsc_inv (s : spsc) : Prop :=
  exists r q, pipe_repr (sp_pipe s) r q /\ sp_in s = sp_out s ++ q
    /\ writer_ok (sp_pipe s) r q (sp_w s) /\ reader_ok q (sp_r s).

(** Committing the writer's bytes. *)
Lemma commit_write_repr p r q n data :
  pipe_repr p r q -> writer_ok p r q (WCopy n n data) ->
  pipe_repr (set_writer p (u64 (p_writer p + n)) false) r (q ++ take (Z.to_nat n) data).
Proof.
  intros [] (Hn & Hd & Hfit & Hc). split; simpl; try done.
  - rewrite pr_writer0, u64_add_l, length_app, length_take. f_equal. lia.
  - rewrite length_app, length_take. lia.
  - rewrite length_app, length_take. intros j Hj. destruct (decide (j < Z.of_nat (length q))).
    + rewrite rd_app_l by lia. apply pr_cells0; lia.
    + rewrite rd_app_r, rd_take, decide_True by lia. rewrite <- Hc by lia.
      f_equal. f_equal. lia.
Qed.

(** Committing the reader's removal. *)
Lemma commit_read_repr p r q n :
  pipe_repr p r q -> 0 <= n <= Z.of_nat (length q) ->
  pipe_repr (set_reader p (u64 (p_reader p + n)) false) (r + n) (drop (Z.to_nat n) q).
Proof.
  intros [] Hn. split; simpl; try done.
  - lia.
  - by rewrite pr_reader0, u64_add_l.
  - rewrite pr_writer0, length_drop. f_equal. lia.
  - rewrite length_drop. lia.
  - rewrite length_drop. intros j Hj. rewrite rd_drop by lia.
    replace (r + n + j) with (r + (n + j)) by lia. rewrite pr_cells0 by lia. f_equal. lia.
Qed.

(** One byte into a free cell. *)
Lemma copy_byte_repr p r q n i data b buf :
  pipe_repr p r q -> writer_ok p r q (WCopy n i data) -> i < n -> rd data i = Some b ->
  wr (p_buf p) (Z.land (u64 (p_writer p + i)) (p_len p - 1)) b = Some buf ->
  pipe_repr (set_buf p buf) r q /\ writer_ok (set_buf p buf) r q (WCopy n (i + 1) data).
Proof.
  intros Hp (Hi & Hd & Hfit & Hc) Hlt Hb Hw.
  pose proof (pipe_len_pos _ _ _ Hp). pose proof Hp as [(k & Hk & Hpl) _ _ Hwt _ _ _].
  rewrite Hwt, u64_add_l, (ring_index (p_len p) _ k) in Hw by done.
  pose proof (wr_length _ _ _ _ Hw).
  assert (Hcell : forall j, 0 <= j < p_len p -> rd buf ((r + j) mod p_len p)
    = if decide (j = Z.of_nat (length q) + i) then Some b else rd (p_buf p) ((r + j) mod p_len p)).
  { intros j Hj. rewrite (rd_wr _ _ _ _ _ Hw).
    replace (r + Z.of_nat (length q) + i) with (r + (Z.of_nat (length q) + i)) by lia.
    destruct (decide (j = Z.of_nat (length q) + i)) as [->|Hne]; [by rewrite decide_True|].
    rewrite decide_False; [done|]. intros E. apply ring_inj in E; lia. }
  split.
  - apply set_buf_repr; [done|done|]. intros j Hj. rewrite Hcell, decide_False by lia. done.
  - simpl. split_and!; try lia. intros j Hj. rewrite <- Z.add_assoc, Hcell by lia. case_decide.
    + rewrite <- Hb. f_equal. lia.
    + rewrite Z.add_assoc. apply Hc. lia.
Qed.

Lemma read_byte p r q n i acc b :
  pipe_repr p r q -> reader_ok q (RCopy n i acc) -> i < n ->
  rd (p_buf p) (Z.land (u64 (p_reader p + i)) (p_len p - 1)) = Some b ->
  reader_ok q (RCopy n (i + 1) (acc ++ [b])).
Proof.
  intros [(k & Hk & Hpl) Hr Hrd _ _ _ Hc] (Hi & Hn & ->) Hlt Hb.
  rewrite Hrd, u64_add_l, (ring_index (p_len p) _ k) in Hb by done. rewrite Hc in Hb by lia.
  simpl. split_and!; try lia. replace (Z.to_nat (i + 1)) with (S (Z.to_nat i)) by lia.
  symmetry. apply take_S_r. rewrite <- rd_nat. rewrite <- Hb. f_equal. lia.
Qed.

Lemma spsc_step_inv s s' : spsc_step s s' -> spsc_inv s -> spsc_inv s'.
Proof.
  intros Hs (r & q & Hp & Heq & Hw & Hr). pose proof (pr_fit _ _ _ Hp) as Hfit.
  destruct (readable_length _ _ _ Hp) as [Hre Hwr].
  destruct Hs as [data len Ew El Hl w|n i data b buf Ew Hi Hb Hbuf|n data Ew
                 |len Er El Hl rr|n i acc b Er Hi Hb|n acc Er];
    try rewrite Ew in Hw; try rewrite Er in Hr.
  - exists r, q. simpl. split_and!; try done; unfold w; try (case_decide; lia).
    + destruct Hp; by split.
    + intros j Hj. lia.
  - destruct (copy_byte_repr _ _ _ _ _ _ _ _ Hp Hw Hi Hb Hbuf) as [Hp' Hw'].
    exists r, q. exact (conj Hp' (conj Heq (conj Hw' Hr))).
  - exists r, (q ++ take (Z.to_nat n) data). simpl. split_and!; [by apply commit_write_repr| |done|].
    + by rewrite Heq, app_assoc.
    + unfold reader_ok in *. destruct (sp_r s) as [|m i acc]; [done|].
      destruct Hr as (Hi & Hm & ->). rewrite length_app. split_and!; try lia.
      by rewrite take_app_le by lia.
  - exists r, q. simpl. split_and!; try done; unfold rr; try (case_decide; lia).
    destruct Hp; by split.
  - exists r, q. exact (conj Hp (conj Heq (conj Hw (read_byte _ _ _ _ _ _ _ Hp Hr Hi Hb)))).
  - destruct Hr as (Hi & Hn & ->). exists (r + n), (drop (Z.to_nat n) q). simpl. split_and!.
    + apply commit_read_repr; [done|lia].
    + by rewrite Heq, <- app_assoc, take_drop.
    + unfold writer_ok in *. destruct (sp_w s) as [|m i data]; [done|].
      destruct Hw as (Hi' & Hd & Hf & Hc). simpl. rewrite length_drop. split_and!; try lia.
      intros j Hj. rewrite <- Hc by lia. f_equal. f_equal. lia.
    + done.
Qed.

(** C14: However the steps of one writing and one reading thread interleave,
    from a new pipe on, the bytes handed to the reader are a prefix of the
    bytes the writer has committed, in order, and what lies between is never
    more than the pipe holds: the reader never sees a byte before it is
    committed and the writer never overwrites an unread one. *)
Theorem spsc_fifo junk len p s :
  0 < len <= 2 ^ 63 -> (forall n buf, 0 <= n -> junk n = Some buf -> Z.of_nat (length buf) = n) ->
  xpipe_create junk len = Some p ->
  rtc spsc_step (mkspsc p WIdle RIdle [] []) s ->
  exists q, sp_in s = sp_out s ++ q /\ xpipe_readable (sp_pipe s) = Z.of_nat (length q)
    /\ Z.of_nat (length q) <= p_len (sp_pipe s).
Proof.
  intros Hl Hj H Hs. destruct (create_repr junk len p Hl Hj H) as (Hp & _).
  assert (Hinv : spsc_inv (mkspsc p WIdle RIdle [] [])) by (exists 0, []; done).
  revert Hinv. induction Hs as [s|s s' s'' Hstep _ IH]; intros Hinv.
  - destruct Hinv as (r & q & Hr & Heq & _). exists q. split; [done|].
    split; [by apply (readable_length _ r)|]. by eapply pr_fit.
  - apply IH. by eapply spsc_step_inv.
Qed.

Lemma spsc_fifo_witness :
  exists q, [7] = [] ++ q
    /\ xpipe_readable (mkpipe 1 1 0 false true false [7]) = Z.of_nat (length q)
    /\ Z.of_nat (length q) <= 1.
Proof.
  apply (spsc_fifo (fun n => Some (replicate (Z.to_nat n) 0)) 1 (mkpipe 1 0 0 false false false [0])
           (mkspsc (mkpipe 1 1 0 false true false [7]) WIdle (RCopy 1 0 []) [7] [])).
  - lia.
  - intros n buf Hn [= <-]. rewrite length_replicate. lia.
  - reflexivity.
  - eapply rtc_l; [apply (step_w_start _ [7; 8] 2); [done|done|simpl; lia]|].
    eapply rtc_l; [eapply (step_w_copy _ 1 0 [7; 8] 7); [reflexivity|lia|reflexivity|reflexivity]|].
    eapply rtc_l; [eapply (step_w_commit _ 1 [7; 8]); reflexivity|].
    eapply rtc_l; [eapply (step_r_start _ 4); [reflexivity|reflexivity|lia]|].
    apply rtc_refl.
Defined.

(** Two rings with the same cells are the same buffer. *)
Lemma ring_ext (b b' : list Z) n a :
  0 < n -> Z.of_nat (length b) = n -> Z.of_nat (length b') = n ->
  (forall j, 0 <= j < n -> rd b ((a + j) mod n) = rd b' ((a + j) mod n)) -> b = b'.
Proof.
  intros Hn Hb Hb' H. apply list_eq_rd. intros c Hc. destruct (decide (c < n)).
  - specialize (H ((c - a) mod n) (Z.mod_pos_bound _ _ Hn)).
    rewrite Zplus_mod_idemp_r in H. replace (a + (c - a)) with c in H by lia.
    by rewrite Z.mod_small in H by lia.
  - by rewrite !rd_None by lia.
Qed.

(** The writer's copy loop run to its end. *)
Lemma writer_copies p r q n data k : forall i rp ins outs,
  pipe_repr p r q -> writer_ok p r q (WCopy n i data) -> Z.to_nat (n - i) = k ->
  exists p', rtc spsc_step (mkspsc p (WCopy n i data) rp ins outs)
                           (mkspsc p' (WCopy n n data) rp ins outs)
    /\ pipe_repr p' r q /\ writer_ok p' r q (WCopy n n data)
    /\ p' = set_buf p (p_buf p')
    /\ (forall j, Z.of_nat (length q) + n <= j < p_len p ->
          rd (p_buf p') ((r + j) mod p_len p) = rd (p_buf p) ((r + j) mod p_len p)).
Proof.
  revert p. induction k as [|k IH]; intros p i rp ins outs Hp Hw Hk.
  - assert (i = n) as -> by (destruct Hw; lia). exists p. split; [constructor|].
    split; [done|]. split; [done|]. split; [by destruct p|done].
  - pose proof Hw as (Hi & Hd & Hfit & Hc). pose proof (pipe_len_pos _ _ _ Hp).
    pose proof Hp as [(e & He & Hpl) _ _ Hwt Hbuf _ _].
    destruct (rd_is_Some data i) as [b Hb]; [lia|].
    destruct (wr_is_Some (p_buf p) (Z.land (u64 (p_writer p + i)) (p_len p - 1)) b) as [buf Hw'].
    { rewrite Hwt, u64_add_l, (ring_index (p_len p) _ e) by done. rewrite Hbuf.
      apply Z.mod_pos_bound. lia. }
    destruct (copy_byte_repr p r q n i data b buf Hp Hw) as [Hp1 Hw1]; [lia|done|done|].
    destruct (IH (set_buf p buf) (i + 1) rp ins outs Hp1 Hw1) as (p' & Hs & Hp' & Hw2 & Hset & Hrest);
      [lia|].
    exists p'. split; [eapply rtc_l; [|exact Hs]; apply (step_w_copy (mkspsc p (WCopy n i data) rp ins outs) n i data b buf);
      done || (simpl; lia)|].
    split; [done|]. split; [done|]. split; [done|].
    intros j Hj. simpl in Hrest. rewrite Hrest by done. rewrite (rd_wr _ _ _ _ _ Hw').
    rewrite Hwt, u64_add_l, (ring_index (p_len p) _ e) by done.
    rewrite decide_False; [done|]. rewrite <- Z.add_assoc. intros E. apply ring_inj in E; lia.
Qed.

(** A writer thread that is not interleaved with a reader ends in exactly
    the pipe that [__xpipe_write] returns: the byte-by-byte copy of the thread
    model and the two-piece [mcopy] of the code have the same effect. *)
Lemma spsc_write_alone p r q data len rp ins outs :
  pipe_repr p r q -> p_wlock p = false -> 0 <= len <= Z.of_nat (length data) ->
  exists p' n, __xpipe_write p data len = Some (p', n)
    /\ rtc spsc_step (mkspsc p WIdle rp ins outs)
                     (mkspsc p' WIdle rp (ins ++ take (Z.to_nat n) data) outs).
Proof.
  intros Hp Hw Hlen. pose proof (pipe_len_pos _ _ _ Hp).
  destruct (readable_length _ _ _ Hp) as [_ Hwr]. pose proof (pr_fit _ _ _ Hp).
  pose proof Hp as [(k & Hk & Hpl) Hr Hrd Hwt Hbuf _ Hc].
  unfold __xpipe_write. rewrite Hw, Hwr.
  set (n := if decide (p_len p - Z.of_nat (length q) > len) then len else _).
  assert (Hn : 0 <= n <= len /\ n <= p_len p - Z.of_nat (length q)) by (unfold n; case_decide; lia).
  set (p1 := set_writer p (p_writer p) true).
  assert (Hp1 : pipe_repr p1 r q) by (destruct Hp; by split).
  destruct (writer_copies p1 r q n data (Z.to_nat (n - 0)) 0 rp ins outs Hp1)
    as (p2 & Hs & Hp2 & Hw2 & Hset & Hrest); [simpl; split_and!; lia|done|].
  assert (Hrun : rtc spsc_step (mkspsc p WIdle rp ins outs)
    (mkspsc (set_writer p2 (u64 (p_writer p2 + n)) false) WIdle rp (ins ++ take (Z.to_nat n) data) outs)).
  { eapply rtc_l; [apply (step_w_start (mkspsc p WIdle rp ins outs) data len); done|]. simpl. rewrite Hwr. fold n p1.
    etrans; [exact Hs|]. eapply rtc_once.
    apply (step_w_commit (mkspsc p2 (WCopy n n data) rp ins outs) n data). done. }
  simpl in Hrest. destruct Hw2 as (_ & _ & _ & Hcopy). rewrite Hset in Hcopy. simpl in Hcopy.
  assert (Hl2 : Z.of_nat (length (p_buf p2)) = p_len p)
    by (pose proof (pr_buf _ _ _ Hp2) as E; by rewrite E, Hset).
  assert (Hrest2 : forall j, n <= j < p_len p -> rd (p_buf p2) ((r + Z.of_nat (length q) + j) mod p_len p)
                   = rd (p_buf p) ((r + Z.of_nat (length q) + j) mod p_len p)).
  { intros j Hj. destruct (decide (Z.of_nat (length q) + j < p_len p)).
    - rewrite <- Z.add_assoc. apply Hrest. lia.
    - replace (r + Z.of_nat (length q) + j)
        with (r + (Z.of_nat (length q) + j - p_len p) + 1 * p_len p) by lia.
      rewrite Z_mod_plus_full. pose proof (pr_cells _ _ _ Hp2) as Hc2. rewrite Hset in Hc2.
      simpl in Hc2. rewrite Hc2, Hc by lia. done. }
  case_decide as Hn0.
  - rewrite Hwt, (ring_index (p_len p) _ k) by done.
    destruct (ring_write (p_buf p) (p_len p) (r + Z.of_nat (length q)) data n)
      as (buf' & -> & Hl' & Hin & Hout); [lia..|].
    cbn [mbind option_bind]. do 2 eexists. split; [done|].
    assert (p_buf p2 = buf') as Hb.
    { apply (ring_ext _ _ (p_len p) (r + Z.of_nat (length q))); [lia..|].
      intros j Hj. destruct (decide (j < n)); [by rewrite Hcopy, Hin by lia|].
      by rewrite Hout, Hrest2 by lia. }
    rewrite Hset, Hb in Hrun. unfold set_writer, set_buf, p1 in Hrun. simpl in Hrun.
    rewrite Hwt in Hrun. exact Hrun.
  - exists p, n. assert (n = 0) as E by lia. clearbody n. subst n. split; [done|].
    assert (p_buf p2 = p_buf p) as Hb.
    { apply (ring_ext _ _ (p_len p) (r + Z.of_nat (length q))); [lia..|].
      intros j Hj. by apply Hrest2. }
    rewrite Hset, Hb in Hrun. unfold set_writer, set_buf, p1 in Hrun. simpl in Hrun.
    rewrite Z.add_0_r, Hwt in Hrun. unfold u64 in Hrun at 1. rewrite wrap_wrap in Hrun.
    destruct p; simpl in *. subst. exact Hrun.
Qed.

