(* ===== verification/Xline.v ===== *)
(** * Lines and frames of [xnet/xline.h]

    A line is a tagged value: one type byte and eight bytes that hold a number,
    or the length of the body that follows.  A frame owns a growing buffer of
    keyed lines and is also the message that the messenger sends and receives.
    The buffer is modelled as the list of its bytes; the frame's own header
    line lies directly before it. *)

From S2P Require Import Prelude Bytes.

(** ** Data *)

Definition XLINE_TYPE_INT : Z := 0x01.
Definition XLINE_TYPE_UINT : Z := 0x02.
Definition XLINE_TYPE_REAL : Z := 0x04.
Definition XLINE_TYPE_STR : Z := 0x08.
Definition XLINE_TYPE_BIN : Z := 0x10.
Definition XLINE_TYPE_OBJ : Z := 0x20.
Definition XLINE_TYPE_LIST : Z := 0x40.

Definition XLINE_SIZE : Z := 9.
Definition XLINE_MAKER_SIZE : Z := 1024 * 64.

(** [line] is the header line, [buf] the [size] bytes that [ptr] points to. *)
Record xframe := mkframe {
  f_ref : Z; f_type : Z; f_id : Z;
  f_spos : Z; f_range : Z; f_rpos : Z; f_wpos : Z; f_size : Z;
  f_line : list Z; f_buf : list Z;
}.

#[export] Instance eta_xframe : Settable xframe := fun r =>
  mkframe (f_ref r) (f_type r) (f_id r) (f_spos r) (f_range r) (f_rpos r) (f_wpos r) (f_size r)
          (f_line r) (f_buf r).

(** [__xl_n2b] on a little-endian machine: the type byte and the eight bytes of
    [n], lowest first. *)
Definition __xl_n2b (n ty : Z) : list Z := ty :: le_bytes 8 n.

(** [xl_creator]: [mem] is what [malloc] returns for a buffer of [size] bytes, a
    frame of arbitrary contents, or [None]. *)
Definition xl_creator (mem : option xframe) (size : Z) : option xframe :=
  f ← mem;
  Some (f <| f_ref := 1 |> <| f_size := size |> <| f_wpos := 0 |> <| f_rpos := 0 |>
          <| f_spos := 0 |> <| f_range := 0 |>).

Definition xl_hold (f : xframe) : xframe := f <| f_ref := u64 (f_ref f + 1) |>.

(** [xl_free]: [None] when the last reference is dropped and the frame freed. *)
Definition xl_free (f : xframe) : option xframe :=
  let r := u64 (f_ref f - 1) in
  if decide (r = 0) then None else Some (f <| f_ref := r |>).

Definition xl_fixed (f : xframe) : xframe :=
  f <| f_line := __xl_n2b (f_wpos f) XLINE_TYPE_OBJ |>.

Definition xl_clear (f : xframe) : xframe := f <| f_wpos := 0 |> <| f_rpos := 0 |>.

(** ** Reading a line

    A line is read at an offset of a region.  [__xl_b2n] puts the eight bytes
    together by shifts; signed numbers are its two's complement reading, and a
    double its 64-bit pattern. *)
Definition __xl_b2u (m : list Z) (o : Z) : option Z :=
  b1 ← rd m (o + 1); b2 ← rd m (o + 2); b3 ← rd m (o + 3); b4 ← rd m (o + 4);
  b5 ← rd m (o + 5); b6 ← rd m (o + 6); b7 ← rd m (o + 7); b8 ← rd m (o + 8);
  Some (Z.lor (Z.lor (Z.lor (Z.shiftl b8 56) (Z.shiftl b7 48)) (Z.lor (Z.shiftl b6 40) (Z.shiftl b5 32)))
              (Z.lor (Z.lor (Z.shiftl b4 24) (Z.shiftl b3 16)) (Z.lor (Z.shiftl b2 8) b1))).

Definition __xl_b2i (m : list Z) (o : Z) : option Z := n ← __xl_b2u m o; Some (s64 n).
Definition __xl_b2f (m : list Z) (o : Z) : option Z := __xl_b2u m o.
Definition __xl_l2b (o : Z) : Z := o + XLINE_SIZE.

Definition __xl_typeis_num (ty : Z) : bool := ty <=? XLINE_TYPE_REAL.

Definition __xl_sizeof_body (m : list Z) (o : Z) : option Z :=
  ty ← rd m o; if __xl_typeis_num ty then Some 8 else __xl_b2u m o.

Definition __xl_sizeof_line (m : list Z) (o : Z) : option Z :=
  ty ← rd m o;
  if __xl_typeis_num ty then Some XLINE_SIZE else n ← __xl_b2u m o; Some (u64 (n + XLINE_SIZE)).

(** ** Building

    [malloc] is what allocating a frame with a buffer of the given size
    returns.  A builder returns the frame and the result of the C function,
    [XEOF] when a larger buffer cannot be had. *)
Definition XEOF : Z := 0xFFFFFFFFFFFFFFFF.

Section Build.
Context (malloc : Z -> option xframe).

Definition xl_maker : option xframe := xl_creator (malloc XLINE_MAKER_SIZE) XLINE_MAKER_SIZE.

Definition xl_usable (f : xframe) (key : list Z) : Z :=
  let headlen := Z.of_nat (length key) + 2 + XLINE_SIZE in
  if decide (u64 (f_size f - f_wpos f) > headlen) then u64 (u64 (f_size f - f_wpos f) - headlen) else 0.

(** [__xl_realloc]: the size is written to the old frame before the allocation
    is checked; [false] is the jump to [XClean]. *)
Definition __xl_realloc (newlen : Z) (f : xframe) : option (xframe * bool) :=
  let f := f <| f_size := u64 (u64 (f_size f * 2) + newlen) |> in
  match malloc (f_size f) with
  | None => Some (f, false)
  | Some nf =>
      src ← rd_range (f_buf f) 0 (f_wpos f);
      b ← wr_range (f_buf nf) 0 src;
      Some (f <| f_buf := b |>, true)
  end.

Definition reserve (newlen : Z) (f : xframe) : option (xframe * bool) :=
  if decide (u64 (f_size f - f_wpos f) < newlen) then __xl_realloc newlen f else Some (f, true).

Definition put (bs : list Z) (f : xframe) : option xframe :=
  b ← wr_range (f_buf f) (f_wpos f) bs;
  Some (f <| f_buf := b |> <| f_wpos := u64 (f_wpos f + Z.of_nat (length bs)) |>).

(** [key] is the string without its terminator. *)
Definition __xl_fill_key (key : list Z) (f : xframe) : option xframe :=
  let klen := if decide (Z.of_nat (length key) > 64) then 64 else Z.of_nat (length key) in
  b ← wr (f_buf f) (f_wpos f) (u8 (klen + 1));
  b ← wr_range b (f_wpos f + 1) (firstn (Z.to_nat klen) key);
  b ← wr b (f_wpos f + u8 (klen + 1)) 0;
  Some (f <| f_buf := b |> <| f_wpos := u64 (f_wpos f + (u8 (klen + 1) + 1)) |>).

(** The frame the builders share: room, key, line, and the frame's own line. *)
Definition xl_add (key : list Z) (newlen : Z) (line : xframe -> option xframe) (f : xframe)
  : option (xframe * Z) :=
  '(f, ok) ← reserve newlen f;
  if ok : bool then
    f ← __xl_fill_key key f;
    f ← line f;
    let f := xl_fixed f in
    Some (f, f_wpos f)
  else Some (f, XEOF).

Definition line_len (key : list Z) : Z := u64 (Z.of_nat (length key) + 2 + XLINE_SIZE).

Definition xl_add_word (key word : list Z) : xframe -> option (xframe * Z) :=
  let wordlen := Z.of_nat (length word) + 1 in
  xl_add key (u64 (line_len key + wordlen)) (fun f =>
    f ← put (__xl_n2b wordlen XLINE_TYPE_STR) f; put (word ++ [0]) f).

Definition xl_add_str (key str : list Z) (size : Z) : xframe -> option (xframe * Z) :=
  xl_add key (u64 (line_len key + size)) (fun f =>
    f ← put (__xl_n2b size XLINE_TYPE_STR) f;
    src ← rd_range str 0 size;
    put src f).

(** A [NULL] leaves the bytes as they are. *)
Definition xl_add_bin (key : list Z) (bin : option (list Z)) (size : Z) : xframe -> option (xframe * Z) :=
  xl_add key (u64 (line_len key + size)) (fun f =>
    f ← put (__xl_n2b size XLINE_TYPE_BIN) f;
    match bin with
    | Some bin => src ← rd_range bin 0 size; put src f
    | None => Some (f <| f_wpos := u64 (f_wpos f + size) |>)
    end).

Definition xl_add_obj (key xd : list Z) (f : xframe) : option (xframe * Z) :=
  size ← __xl_sizeof_line xd 0;
  xl_add key (u64 (line_len key + size)) (fun f => src ← rd_range xd 0 size; put src f) f.

Definition xl_add_int (key : list Z) (i64 : Z) : xframe -> option (xframe * Z) :=
  xl_add key (line_len key) (put (__xl_n2b i64 XLINE_TYPE_INT)).
Definition xl_add_uint (key : list Z) (n : Z) : xframe -> option (xframe * Z) :=
  xl_add key (line_len key) (put (__xl_n2b n XLINE_TYPE_UINT)).
Definition xl_add_float (key : list Z) (bits : Z) : xframe -> option (xframe * Z) :=
  xl_add key (line_len key) (put (__xl_n2b bits XLINE_TYPE_REAL)).
Definition xl_add_ptr (key : list Z) (ptr : Z) : xframe -> option (xframe * Z) :=
  xl_add key (line_len key) (put (__xl_n2b ptr XLINE_TYPE_UINT)).

(** The result is where the line of the object is, which [xl_obj_end] fills. *)
Definition xl_obj_begin (key : option (list Z)) (f : xframe) : option (xframe * Z) :=
  let newlen := match key with Some key => line_len key | None => XLINE_SIZE end in
  '(f, ok) ← reserve newlen f;
  if ok : bool then
    f ← match key with Some key => __xl_fill_key key f | None => Some f end;
    let f := f <| f_wpos := u64 (f_wpos f + XLINE_SIZE) |> in
    Some (f, u64 (f_wpos f - XLINE_SIZE))
  else Some (f, XEOF).

Definition end_line (ty pos : Z) (f : xframe) : option xframe :=
  b ← wr_range (f_buf f) pos (__xl_n2b (u64 (f_wpos f - pos - XLINE_SIZE)) ty);
  Some (f <| f_buf := b |>).

Definition xl_obj_end (pos : Z) (f : xframe) : option (xframe * Z) :=
  if decide (pos < XEOF) then f ← end_line XLINE_TYPE_OBJ pos f; Some (f, pos) else Some (f, pos).

Definition xl_list_begin : option (list Z) -> xframe -> option (xframe * Z) := xl_obj_begin.

Definition xl_list_end (pos : Z) (f : xframe) : option (xframe * Z) :=
  if decide (pos < XEOF) then f ← end_line XLINE_TYPE_LIST pos f; Some (xl_fixed f, pos) else Some (f, pos).

Definition xl_list_append (xl : list Z) (f : xframe) : option (xframe * Z) :=
  size ← __xl_sizeof_line xl 0;
  '(f, ok) ← reserve size f;
  if ok : bool then
    src ← rd_range xl 0 size;
    f ← put src f;
    Some (f, f_wpos f)
  else Some (f, XEOF).

Definition xl_list_add (xl : list Z) (f : xframe) : option (xframe * Z) :=
  size ← __xl_sizeof_line xl 0;
  '(f, ok) ← reserve size f;
  if ok : bool then
    src ← rd_range xl 0 size;
    f ← put src f;
    let f := f <| f_line := __xl_n2b (f_wpos f) XLINE_TYPE_LIST |> in
    Some (f, f_wpos f)
  else Some (f, XEOF).
End Build.

(** ** Parsing

    A parser walks over the body of a line; [p_key] and [p_val] are offsets in
    the region [p_mem], in which the body starts at [p_ptr]. *)
Record xparser := mkparser {
  p_mem : list Z; p_ptr : Z; p_rpos : Z; p_wpos : Z; p_key : Z; p_val : option Z;
}.

#[export] Instance eta_xparser : Settable xparser := fun r =>
  mkparser (p_mem r) (p_ptr r) (p_rpos r) (p_wpos r) (p_key r) (p_val r).

Definition xl_parser (m : list Z) (o : Z) : option xparser :=
  n ← __xl_sizeof_body m o; Some (mkparser m (__xl_l2b o) 0 n 0 None).

Definition xl_list_next (p : xparser) : option (xparser * option Z) :=
  if decide (p_rpos p < p_wpos p) then
    let o := p_ptr p + p_rpos p in
    n ← __xl_sizeof_line (p_mem p) o;
    Some (p <| p_rpos := u64 (p_rpos p + n) |>, Some o)
  else Some (p, None).

(** Past the key at [rpos] and the line after it; the result is the offset of
    the line. *)
Definition step_field (p : xparser) : option (xparser * Z) :=
  let key := p_ptr p + p_rpos p in
  k0 ← rd (p_mem p) key;
  let p := p <| p_key := key |> <| p_rpos := u64 (p_rpos p + (k0 + 1)) |> in
  let val := p_ptr p + p_rpos p in
  n ← __xl_sizeof_line (p_mem p) val;
  Some (p <| p_rpos := u64 (p_rpos p + n) |>, val).

Definition xl_next (p : xparser) : option (xparser * option Z) :=
  if decide (p_rpos p < p_wpos p) then
    '(p, val) ← step_field p;
    Some (p <| p_key := p_key p + 1 |>, Some val)
  else Some (p, None).

(** One of the two loops of [xl_find]: from [rpos] up to [limit]. *)
Fixpoint find_loop (fuel : nat) (limit : Z) (key : list Z) (p : xparser) : option (xparser * bool) :=
  if decide (p_rpos p < limit) then
    match fuel with
    | O => None
    | S fuel' =>
        '(p, val) ← step_field p;
        let p := p <| p_val := Some val |> in
        k0 ← rd (p_mem p) (p_key p);
        r ← (if decide (Z.of_nat (length key) + 1 = k0)
             then mcompare (Some (key ++ [0], 0)) (Some (p_mem p, p_key p + 1)) k0 else Some 1);
        if decide (r = 0) then Some (p <| p_key := p_key p + 1 |>, true)
        else find_loop fuel' limit key p
    end
  else Some (p, false).

(** From where the last search ended to the end, then from the start. *)
Definition xl_find (p : xparser) (key : list Z) : option (xparser * option Z) :=
  let rpos := p_rpos p in
  '(p, found) ← find_loop (S (Z.to_nat (p_wpos p))) (p_wpos p) key p;
  if found : bool then Some (p, p_val p)
  else
    '(p, found) ← find_loop (S (Z.to_nat rpos)) rpos key (p <| p_rpos := 0 |>);
    if found : bool then Some (p, p_val p) else Some (p <| p_val := None |>, None).

(** [xl_find_int] and its like: the number, if the key is there. *)
Definition xl_find_with {A} (read : list Z -> Z -> option A) (p : xparser) (key : list Z)
  : option (xparser * option A) :=
  '(p, val) ← xl_find p key;
  match val with
  | Some o => x ← read (p_mem p) o; Some (p, Some x)
  | None => Some (p, None)
  end.
Definition xl_find_int := xl_find_with __xl_b2i.
Definition xl_find_uint := xl_find_with __xl_b2u.
Definition xl_find_float := xl_find_with __xl_b2f.
Definition xl_find_ptr := xl_find_with __xl_b2u.
Definition xl_find_word := xl_find_with (fun _ o => Some (__xl_l2b o)).

Definition xl_set_value (p : xparser) (key : list Z) (nb : Z) : option (xparser * option Z) :=
  '(p, val) ← xl_find p key;
  match val with
  | Some o => m ← wr_range (p_mem p) o (__xl_n2b nb XLINE_TYPE_UINT); Some (p <| p_mem := m |>, val)
  | None => Some (p, None)
  end.
