(* ===== verification/Lines.v ===== *)
(** * Documents: what the lines of [xnet/xline.h] promise

    A document is a value: a number, a string, binary data, an object of keyed
    values or a list of values.  Building one with [xl_add_*], [xl_obj_begin]
    and its like appends its encoding to the frame; walking over the frame with
    [xl_parser], [xl_next] and [xl_list_next] gives the document back, and
    [xl_find] finds the fields of an object by their keys. *)

From Stdlib Require Import Btauto.
From S2P Require Import Prelude Bytes Xline.

#[local] Arguments __xl_n2b _ _ : simpl never.

(** ** Values and their encoding *)

#[warnings="-register-all"]
Inductive value :=
  | VInt (i : Z) | VUint (n : Z) | VReal (bits : Z)
  | VStr (s : list Z) | VBin (b : list Z)
  | VObj (fs : list (list Z * value)) | VList (vs : list value).

Definition enc_key (key : list Z) : list Z := (Z.of_nat (length key) + 1) :: key ++ [0].

Definition enc_body (ty : Z) (body : list Z) : list Z := __xl_n2b (Z.of_nat (length body)) ty ++ body.

Fixpoint enc (v : value) : list Z :=
  match v with
  | VInt i => __xl_n2b i XLINE_TYPE_INT
  | VUint n => __xl_n2b n XLINE_TYPE_UINT
  | VReal x => __xl_n2b x XLINE_TYPE_REAL
  | VStr s => enc_body XLINE_TYPE_STR s
  | VBin b => enc_body XLINE_TYPE_BIN b
  | VObj fs => enc_body XLINE_TYPE_OBJ (concat (map (fun '(k, v) => enc_key k ++ enc v) fs))
  | VList vs => enc_body XLINE_TYPE_LIST (concat (map enc vs))
  end.

Definition enc_field (f : list Z * value) : list Z := enc_key f.1 ++ enc f.2.
Definition enc_fields (fs : list (list Z * value)) : list Z := concat (map enc_field fs).

Lemma enc_obj fs : enc (VObj fs) = enc_body XLINE_TYPE_OBJ (enc_fields fs).
Proof. cbn [enc]. f_equal. unfold enc_fields. f_equal. apply map_ext. by intros []. Qed.

(** A key is a C string of at most 64 characters. *)
Definition key_ok (key : list Z) : Prop :=
  Forall (fun c => 0 < c < 256) key /\ (length key <= 64)%nat.

(** Every number fits its type, and every string is made of bytes. *)
Fixpoint value_ok (v : value) : Prop :=
  match v with
  | VInt i => - 2 ^ 63 <= i < 2 ^ 63
  | VUint n | VReal n => 0 <= n < 2 ^ 64
  | VStr s | VBin s => is_bytes s
  | VObj fs => (fix go fs := match fs with [] => True | (k, v) :: fs => key_ok k /\ value_ok v /\ go fs end) fs
  | VList vs => (fix go vs := match vs with [] => True | v :: vs => value_ok v /\ go vs end) vs
  end.

Definition field_ok (f : list Z * value) : Prop := key_ok f.1 /\ value_ok f.2.

Lemma value_ok_obj fs : value_ok (VObj fs) <-> Forall field_ok fs.
Proof.
  induction fs as [|[k v] fs IH]; [by split|]. rewrite Forall_cons, <- IH. unfold field_ok. simpl. tauto.
Qed.

Lemma value_ok_list vs : value_ok (VList vs) <-> Forall value_ok vs.
Proof. induction vs as [|v vs IH]; [by split|]. rewrite Forall_cons, <- IH. done. Qed.

(** Induction over values that reaches into objects and lists. *)
Section Induction.
Context (P : value -> Prop).
Hypotheses (Hint : forall i, P (VInt i)) (Huint : forall n, P (VUint n)) (Hreal : forall x, P (VReal x))
  (Hstr : forall s, P (VStr s)) (Hbin : forall b, P (VBin b))
  (Hobj : forall fs, Forall (fun f => P f.2) fs -> P (VObj fs))
  (Hlist : forall vs, Forall P vs -> P (VList vs)).

Fixpoint value_induction (v : value) : P v :=
  match v with
  | VInt i => Hint i | VUint n => Huint n | VReal x => Hreal x | VStr s => Hstr s | VBin b => Hbin b
  | VObj fs => Hobj fs ((fix go (fs : list (list Z * value)) : Forall (fun f => P f.2) fs :=
      match fs with [] => Forall_nil_2 _ | f :: fs => Forall_cons_2 _ f fs (value_induction f.2) (go fs) end) fs)
  | VList vs => Hlist vs ((fix go (vs : list value) : Forall P vs :=
      match vs with [] => Forall_nil_2 _ | v :: vs => Forall_cons_2 _ v vs (value_induction v) (go vs) end) vs)
  end.
End Induction.

(** ** Building a document

    The calls with which a client writes a value: under a key in an object, or
    as an element of a list. *)
Section Builder.
Context (malloc : Z -> option xframe).

Fixpoint build (key : option (list Z)) (v : value) (f : xframe) : option xframe :=
  let len bs := Z.of_nat (length bs) in
  let in_list := fst <$> xl_list_append malloc (enc v) f in
  match v with
  | VInt i => match key with Some k => fst <$> xl_add_int malloc k i f | None => in_list end
  | VUint n => match key with Some k => fst <$> xl_add_uint malloc k n f | None => in_list end
  | VReal x => match key with Some k => fst <$> xl_add_float malloc k x f | None => in_list end
  | VStr s => match key with Some k => fst <$> xl_add_str malloc k s (len s) f | None => in_list end
  | VBin b => match key with Some k => fst <$> xl_add_bin malloc k (Some b) (len b) f | None => in_list end
  | VObj fs =>
      '(f, pos) ← xl_obj_begin malloc key f;
      f ← (fix go fs f := match fs with
           | [] => Some f
           | (k, v) :: fs => f ← build (Some k) v f; go fs f
           end) fs f;
      fst <$> xl_obj_end pos f
  | VList vs =>
      '(f, pos) ← xl_list_begin malloc key f;
      f ← (fix go vs f := match vs with
           | [] => Some f
           | v :: vs => f ← build None v f; go vs f
           end) vs f;
      fst <$> xl_list_end pos f
  end.

Definition build_fields : list (list Z * value) -> xframe -> option xframe :=
  fix go fs f := match fs with [] => Some f | (k, v) :: fs => f ← build (Some k) v f; go fs f end.
Definition build_elems : list value -> xframe -> option xframe :=
  fix go vs f := match vs with [] => Some f | v :: vs => f ← build None v f; go vs f end.
End Builder.

(** ** Reading a document

    The walk a client makes with the parser; [fuel] bounds the depth and the
    number of fields. *)
Definition read_key (m : list Z) (o : Z) : option (list Z) :=
  e ← slength_from (S (length m)) m o; rd_range m o (e - o).

Fixpoint read_value (fuel : nat) (m : list Z) (o : Z) : option value :=
  match fuel with
  | O => None
  | S fuel =>
      ty ← rd m o;
      if decide (ty = XLINE_TYPE_INT) then VInt <$> __xl_b2i m o
      else if decide (ty = XLINE_TYPE_UINT) then VUint <$> __xl_b2u m o
      else if decide (ty = XLINE_TYPE_REAL) then VReal <$> __xl_b2f m o
      else if decide (ty = XLINE_TYPE_STR) then
        n ← __xl_sizeof_body m o; VStr <$> rd_range m (__xl_l2b o) n
      else if decide (ty = XLINE_TYPE_BIN) then
        n ← __xl_sizeof_body m o; VBin <$> rd_range m (__xl_l2b o) n
      else if decide (ty = XLINE_TYPE_OBJ) then p ← xl_parser m o; VObj <$> read_fields fuel p
      else if decide (ty = XLINE_TYPE_LIST) then p ← xl_parser m o; VList <$> read_elems fuel p
      else None
  end
with read_fields (fuel : nat) (p : xparser) : option (list (list Z * value)) :=
  match fuel with
  | O => None
  | S fuel =>
      '(p, val) ← xl_next p;
      match val with
      | None => Some []
      | Some o =>
          k ← read_key (p_mem p) (p_key p);
          v ← read_value fuel (p_mem p) o;
          fs ← read_fields fuel p;
          Some ((k, v) :: fs)
      end
  end
with read_elems (fuel : nat) (p : xparser) : option (list value) :=
  match fuel with
  | O => None
  | S fuel =>
      '(p, val) ← xl_list_next p;
      match val with
      | None => Some []
      | Some o => v ← read_value fuel (p_mem p) o; vs ← read_elems fuel p; Some (v :: vs)
      end
  end.

(** ** Where bytes lie in a region *)

Definition lies (m : list Z) (o : Z) (bs : list Z) : Prop :=
  exists a c, m = a ++ bs ++ c /\ o = Z.of_nat (length a).

Lemma lies_app m o x y :
  lies m o (x ++ y) -> lies m o x /\ lies m (o + Z.of_nat (length x)) y.
Proof.
  intros (a & c & -> & ->). split.
  - exists a, (y ++ c). by rewrite <- app_assoc.
  - exists (a ++ x), c. rewrite <- !app_assoc, length_app. split; [done|lia].
Qed.

Lemma lies_range m o bs : lies m o bs -> rd_range m o (Z.of_nat (length bs)) = Some bs.
Proof. intros (a & c & -> & ->). by apply rd_range_app. Qed.

Lemma lies_rd m o bs i : lies m o bs -> (i < length bs)%nat -> rd m (o + Z.of_nat i) = bs !! i.
Proof.
  intros (a & c & -> & ->) Hi. rewrite rd_app_r by lia. rewrite rd_app_l by lia.
  rewrite <- rd_nat. f_equal. lia.
Qed.

Lemma or_of_le_bytes b1 b2 b3 b4 b5 b6 b7 b8 :
  Z.lor (Z.lor (Z.lor (Z.shiftl b8 56) (Z.shiftl b7 48)) (Z.lor (Z.shiftl b6 40) (Z.shiftl b5 32)))
        (Z.lor (Z.lor (Z.shiftl b4 24) (Z.shiftl b3 16)) (Z.lor (Z.shiftl b2 8) b1))
  = of_le_bytes [b1; b2; b3; b4; b5; b6; b7; b8].
Proof.
  cbn [of_le_bytes]. rewrite Z.shiftl_0_l, Z.lor_0_r, !Z.shiftl_lor, !Z.shiftl_shiftl by lia.
  cbv [Z.add Pos.add Pos.succ]. apply Z.bits_inj. intros i. rewrite !Z.lor_spec. btauto.
Qed.

Lemma n2b_length n ty : length (__xl_n2b n ty) = 9%nat.
Proof. done. Qed.

(** The nine bytes of a line are read back as they were written. *)
Lemma line_read m o n ty :
  lies m o (__xl_n2b n ty) -> rd m o = Some ty /\ __xl_b2u m o = Some (u64 n).
Proof.
  intros H. unfold __xl_n2b in H. cbn [le_bytes] in H.
  pose proof (fun i => lies_rd _ _ _ i H) as R. cbn [length] in R.
  split. { rewrite <- (Z.add_0_r o). apply (R 0%nat). lia. }
  unfold __xl_b2u.
  rewrite (R 1%nat : _ -> rd m (o + 1) = _), (R 2%nat : _ -> rd m (o + 2) = _), (R 3%nat : _ -> rd m (o + 3) = _), (R 4%nat : _ -> rd m (o + 4) = _),
    (R 5%nat : _ -> rd m (o + 5) = _), (R 6%nat : _ -> rd m (o + 6) = _), (R 7%nat : _ -> rd m (o + 7) = _), (R 8%nat : _ -> rd m (o + 8) = _) by lia.
  cbn [mbind option_bind lookup list_lookup]. f_equal. rewrite or_of_le_bytes.
  apply (of_le_bytes_le_bytes 8 n).
Qed.

Lemma num_line_size m o n ty :
  lies m o (__xl_n2b n ty) -> ty <= XLINE_TYPE_REAL -> __xl_sizeof_line m o = Some XLINE_SIZE.
Proof.
  intros (Ht & _)%line_read Hty. unfold __xl_sizeof_line. rewrite Ht. cbn [mbind option_bind].
  unfold __xl_typeis_num. by rewrite (proj2 (Z.leb_le _ _) Hty).
Qed.

Lemma body_size m o ty body :
  lies m o (enc_body ty body) -> XLINE_TYPE_REAL < ty -> Z.of_nat (length body) < 2 ^ 63 ->
  __xl_sizeof_body m o = Some (Z.of_nat (length body)) /\ lies m (__xl_l2b o) body
  /\ __xl_sizeof_line m o = Some (Z.of_nat (length (enc_body ty body))).
Proof.
  intros H Hty Hl. unfold enc_body in H. apply lies_app in H as [H1 H2].
  apply line_read in H1 as [Ht Hn]. unfold __xl_sizeof_body, __xl_sizeof_line. rewrite Ht.
  cbn [mbind option_bind]. unfold __xl_typeis_num. rewrite (proj2 (Z.leb_gt _ _) Hty), Hn.
  cbn [mbind option_bind]. unfold XLINE_SIZE. rewrite u64_small by lia. rewrite u64_small by lia.
  split; [done|]. split; [done|]. f_equal. unfold enc_body. rewrite length_app.
  rewrite Nat2Z.inj_add. unfold __xl_n2b. cbn [length]. rewrite le_bytes_length. lia.
Qed.

(** The size of a value's line is the length of its encoding. *)
Lemma enc_size m o v :
  lies m o (enc v) -> Z.of_nat (length (enc v)) < 2 ^ 63 ->
  __xl_sizeof_line m o = Some (Z.of_nat (length (enc v))).
Proof.
  assert (Hb : forall ty body, XLINE_TYPE_REAL < ty -> lies m o (enc_body ty body) ->
    Z.of_nat (length (enc_body ty body)) < 2 ^ 63 ->
    __xl_sizeof_line m o = Some (Z.of_nat (length (enc_body ty body)))).
  { intros ty body Ht H Hl. apply body_size; [done|done|].
    unfold enc_body in Hl. rewrite length_app in Hl. lia. }
  assert (Hn : forall n ty, ty <= XLINE_TYPE_REAL -> lies m o (__xl_n2b n ty) ->
    __xl_sizeof_line m o = Some (Z.of_nat (length (__xl_n2b n ty)))).
  { intros n ty Ht H. by rewrite (num_line_size _ _ _ _ H Ht). }
  destruct v; cbn [enc]; intros H Hl; [apply Hn; done|apply Hn; done|apply Hn; done|apply Hb; done..].
Qed.

(** ** Frames under construction *)

Definition content (f : xframe) : list Z := take (Z.to_nat (f_wpos f)) (f_buf f).

Definition frame_ok (f : xframe) : Prop :=
  0 <= f_wpos f <= f_size f /\ f_size f = Z.of_nat (length (f_buf f)) /\ f_size f <= 2 ^ 62.

Definition max_document : Z := 2 ^ 60.

Definition malloc_ok (malloc : Z -> option xframe) : Prop :=
  forall n, 0 <= n <= 2 ^ 62 -> exists f, malloc n = Some f /\ Z.of_nat (length (f_buf f)) = n.

(** [f'] is [f] with [bs] written behind its content. *)
Definition grown (f f' : xframe) (bs : list Z) : Prop :=
  frame_ok f' /\ content f' = content f ++ bs /\ f_wpos f' = f_wpos f + Z.of_nat (length bs).

Definition appends (line : xframe -> option xframe) (bs : list Z) : Prop :=
  forall f, frame_ok f -> f_wpos f + Z.of_nat (length bs) <= f_size f ->
  exists f', line f = Some f' /\ grown f f' bs /\ f_size f' = f_size f.

Lemma grown_nil f : frame_ok f -> grown f f [].
Proof. intros H. split; [done|]. rewrite app_nil_r. simpl. split; [done|lia]. Qed.

Lemma grown_app f f' f'' a b : grown f f' a -> grown f' f'' b -> grown f f'' (a ++ b).
Proof.
  intros (_ & Hc1 & Hw1) (H2 & Hc2 & Hw2). split; [done|]. rewrite Hc2, Hc1, app_assoc, length_app.
  split; [done|lia].
Qed.

Lemma content_length f : frame_ok f -> Z.of_nat (length (content f)) = f_wpos f.
Proof. intros (H & Hs & _). unfold content. rewrite length_take. lia. Qed.

Lemma put_appends bs : appends (put bs) bs.
Proof.
  intros f (Hw & Hs & Hm) Hroom. unfold put.
  destruct (wr_range_is_Some (f_buf f) (f_wpos f) bs) as [b Hb]; [lia|lia|].
  rewrite Hb. simpl. eexists. split; [done|]. pose proof (wr_range_length _ _ _ _ Hb) as Hl.
  rewrite u64_small by lia. split; [|done]. split_and!; simpl.
  - unfold frame_ok; simpl. lia.
  - unfold content; simpl. unfold wr_range in Hb. rewrite decide_True in Hb by lia. injection Hb as <-.
    rewrite app_assoc. apply take_app_length'. rewrite length_app, length_take. lia.
  - done.
Qed.

Lemma appends_app l1 l2 a b :
  appends l1 a -> appends l2 b -> appends (fun f => f ← l1 f; l2 f) (a ++ b).
Proof.
  intros H1 H2 f Hf Hr. rewrite length_app in Hr.
  destruct (H1 f Hf) as (f1 & E1 & G1 & S1); [lia|].
  destruct (H2 f1) as (f2 & E2 & G2 & S2); [apply G1|destruct G1 as (_ & _ & ->); lia|].
  exists f2. cbn. rewrite E1. cbn. split; [done|]. split; [by eapply grown_app|congruence].
Qed.

Lemma wr_range_join {A} (m m1 m' l1 l2 : list A) off :
  wr_range m off l1 = Some m1 -> wr_range m1 (off + Z.of_nat (length l1)) l2 = Some m' ->
  wr_range m off (l1 ++ l2) = Some m'.
Proof.
  intros H1 H2. pose proof (wr_range_length _ _ _ _ H1) as Hl.
  assert (Hb : 0 <= off /\ off + Z.of_nat (length l1) + Z.of_nat (length l2) <= Z.of_nat (length m)).
  { unfold wr_range in H1, H2. repeat case_decide; try done. lia. }
  destruct (wr_range_is_Some m off (l1 ++ l2)) as [m2 H3]; [lia|rewrite length_app; lia|].
  destruct (wr_range_split _ _ _ _ _ H3) as (m3 & H4 & H5). congruence.
Qed.

Lemma enc_key_length key : Z.of_nat (length (enc_key key)) = Z.of_nat (length key) + 2.
Proof. unfold enc_key. simpl. rewrite length_app. simpl. lia. Qed.

(** A key is written whole, or cut after 64 characters. *)
Lemma fill_key_appends key : appends (__xl_fill_key key) (enc_key (take 64 key)).
Proof.
  intros f Hf Hr. pose proof (put_appends (enc_key (take 64 key)) f Hf Hr) as (f' & E & Hg).
  exists f'. split; [|done]. rewrite <- E. unfold __xl_fill_key, put.
  rewrite enc_key_length in Hr.
  assert (Hk : (if decide (Z.of_nat (length key) > 64) then 64 else Z.of_nat (length key))
               = Z.of_nat (length (take 64 key))) by (rewrite length_take; case_decide; lia).
  rewrite Hk. set (k := take 64 key) in *.
  assert (Hk64 : (length k <= 64)%nat) by (unfold k; rewrite length_take; lia).
  assert (Ht : take (Z.to_nat (Z.of_nat (length k))) key = k).
  { unfold k. rewrite Nat2Z.id, length_take. destruct (Nat.le_ge_cases 64 (length key)).
    - by rewrite Nat.min_l by done.
    - rewrite Nat.min_r by done. rewrite !take_ge by lia. done. }
  rewrite Ht. rewrite !u8_small by (unfold is_byte; lia).
  destruct Hf as (Hw & Hs & Hm).
  destruct (wr_is_Some (f_buf f) (f_wpos f) (Z.of_nat (length k) + 1)) as [m1 W1]; [lia|].
  pose proof (wr_length _ _ _ _ W1) as L1.
  destruct (wr_range_is_Some m1 (f_wpos f + 1) k) as [m2 W2]; [lia|lia|].
  pose proof (wr_range_length _ _ _ _ W2) as L2.
  destruct (wr_is_Some m2 (f_wpos f + (Z.of_nat (length k) + 1)) 0) as [m3 W3]; [lia|].
  rewrite W1. cbn [mbind option_bind]. rewrite W2. cbn [mbind option_bind]. rewrite W3. cbn [mbind option_bind].
  assert (W : wr_range (f_buf f) (f_wpos f) (enc_key k) = Some m3).
  { unfold enc_key. change (?x :: k ++ [0]) with ([x] ++ (k ++ [0])). eapply wr_range_join.
    - rewrite wr_single. exact W1.
    - eapply wr_range_join; [exact W2|]. rewrite wr_single. rewrite <- W3. f_equal.
      cbn [length]. lia. }
  rewrite W. cbn [mbind option_bind]. rewrite enc_key_length.
  by replace (Z.of_nat (length k) + 1 + 1) with (Z.of_nat (length k) + 2) by lia.
Qed.

Section Building.
Context (malloc : Z -> option xframe) (Hmalloc : malloc_ok malloc).

(** Making room keeps the content. *)
Lemma reserve_ok newlen f :
  frame_ok f -> 0 <= newlen -> f_wpos f + newlen <= max_document ->
  exists f', reserve malloc newlen f = Some (f', true) /\ grown f f' [] /\ f_wpos f' + newlen <= f_size f'.
Proof using Hmalloc.
  intros Hf Hn Hd. pose proof Hf as (Hw & Hs & Hm). unfold max_document in Hd.
  unfold reserve. rewrite u64_small by lia. case_decide as Hroom.
  2:{ exists f. split; [done|]. split; [by apply grown_nil|lia]. }
  unfold __xl_realloc. rewrite (u64_small (f_size f * 2)), u64_small by lia. simpl f_size.
  destruct (Hmalloc (f_size f * 2 + newlen)) as (nf & Enf & Hl); [lia|]. rewrite Enf. simpl.
  rewrite (rd_range_prefix (f_buf f)) by lia. cbn [mbind option_bind].
  assert (Hlc : Z.of_nat (length (content f)) = f_wpos f) by by apply content_length.
  destruct (wr_range_is_Some (f_buf nf) 0 (content f)) as [b Hb]; [lia|lia|].
  fold (content f). rewrite Hb. cbn [mbind option_bind]. eexists. split; [done|].
  pose proof (wr_range_length _ _ _ _ Hb) as Hlb.
  split; [|simpl; lia]. split_and!; [split_and!; simpl; lia| |simpl; lia].
  unfold content; simpl. rewrite app_nil_r. fold (content f).
  unfold wr_range in Hb. rewrite decide_True in Hb by lia. injection Hb as <-. simpl.
  apply take_app_length'. lia.
Qed.

Lemma grown_nil_l f f' f'' bs : grown f f' [] -> grown f' f'' bs -> grown f f'' bs.
Proof. apply grown_app. Qed.

Lemma grown_fixed f f' bs : grown f f' bs -> grown f (xl_fixed f') bs.
Proof. done. Qed.

Lemma xl_add_ok key newlen line bs f :
  appends line bs -> frame_ok f -> Z.of_nat (length key) + 2 + Z.of_nat (length bs) <= newlen ->
  f_wpos f + newlen <= max_document ->
  exists f', xl_add malloc key newlen line f = Some (f', f_wpos f')
    /\ grown f f' (enc_key (take 64 key) ++ bs) /\ f_line f' = __xl_n2b (f_wpos f') XLINE_TYPE_OBJ.
Proof using Hmalloc.
  intros Hline Hf Hlen Hd. unfold xl_add.
  destruct (reserve_ok newlen f) as (f1 & E1 & G1 & R1); [done|lia|done|].
  rewrite E1. cbn [mbind option_bind].
  destruct (appends_app _ _ _ _ (fill_key_appends key) Hline f1) as (f2 & E2 & G2 & _); [apply G1| |].
  { rewrite length_app. pose proof (enc_key_length (take 64 key)). rewrite length_take in *. lia. }
  cbn [mbind option_bind] in E2. destruct (__xl_fill_key key f1) as [f1'|]; [|done]. cbn [mbind option_bind] in *.
  rewrite E2. cbn [mbind option_bind]. exists (xl_fixed f2). split; [done|]. split; [|done].
  apply grown_fixed. by eapply grown_nil_l.
Qed.

Lemma add_ok key newlen line bs f (r : option (xframe * Z)) :
  r = xl_add malloc key newlen line f ->
  appends line bs -> frame_ok f -> u64 newlen = newlen -> newlen = Z.of_nat (length key) + 2 + Z.of_nat (length bs) ->
  (length key <= 64)%nat -> f_wpos f + Z.of_nat (length (enc_key key ++ bs)) <= max_document ->
  exists f', fst <$> r = Some f' /\ grown f f' (enc_key key ++ bs).
Proof using Hmalloc.
  intros -> Hline Hf Hu Hn Hk Hd. rewrite length_app, Nat2Z.inj_add, enc_key_length in Hd.
  destruct (xl_add_ok key newlen line bs f) as (f' & -> & G & _); [done|done|lia|lia|].
  rewrite take_ge in G by lia. exists f'. done.
Qed.

Definition kenc (key : option (list Z)) : list Z := match key with Some k => enc_key k | None => [] end.

(** Appending a whole line, as an element of a list. *)
Lemma list_append_ok v f :
  frame_ok f -> f_wpos f + Z.of_nat (length (enc v)) <= max_document ->
  exists f', fst <$> xl_list_append malloc (enc v) f = Some f' /\ grown f f' (enc v).
Proof using Hmalloc.
  intros Hf Hd. pose proof Hf as (Hw & _ & _). unfold max_document in Hd.
  assert (Hl : lies (enc v) 0 (enc v)) by (exists [], []; by rewrite app_nil_r).
  unfold xl_list_append. rewrite (enc_size _ _ _ Hl) by lia. cbn [mbind option_bind].
  destruct (reserve_ok (Z.of_nat (length (enc v))) f) as (f1 & -> & G1 & R1); [done|lia|done|].
  cbn [mbind option_bind]. rewrite (lies_range _ _ _ Hl). cbn [mbind option_bind].
  destruct (put_appends (enc v) f1) as (f2 & -> & G2 & _); [apply G1|lia|].
  exists f2. split; [done|]. by eapply grown_nil_l.
Qed.

(** The room for the line of an object or a list is nine bytes that stay as
    they are until the end is known. *)
Lemma obj_begin_ok key f :
  frame_ok f -> (forall k, key = Some k -> (length k <= 64)%nat) ->
  f_wpos f + Z.of_nat (length (kenc key)) + 9 <= max_document ->
  exists f' junk, xl_obj_begin malloc key f = Some (f', f_wpos f' - 9) /\ length junk = 9%nat
    /\ grown f f' (kenc key ++ junk).
Proof using Hmalloc.
  intros Hf Hk Hd. pose proof Hf as (Hw & _ & _). unfold xl_obj_begin, line_len, XLINE_SIZE, max_document in *.
  set (newlen := match key with Some key => _ | None => 9 end).
  assert (Hn : newlen = Z.of_nat (length (kenc key)) + 9).
  { unfold newlen. destruct key as [k|]; simpl kenc; [|done]. specialize (Hk k eq_refl).
    rewrite enc_key_length, u64_small; lia. }
  destruct (reserve_ok newlen f) as (f1 & E1 & G1 & R1); [done|lia|unfold max_document; lia|].
  rewrite E1. cbn [mbind option_bind].
  assert (H : exists f2, match key with Some key => __xl_fill_key key f1 | None => Some f1 end = Some f2
                         /\ grown f1 f2 (kenc key) /\ f_size f2 = f_size f1).
  { destruct key as [k|]; [|exists f1; split; [done|]; split; [apply grown_nil, G1|done]].
    destruct (fill_key_appends k f1) as (f2 & E2 & G2 & S2); [apply G1| |].
    - rewrite take_ge by (by apply Hk). simpl kenc in Hn. lia.
    - exists f2. rewrite take_ge in G2 by (by apply Hk). done. }
  destruct H as (f2 & -> & G2 & S2). cbn [mbind option_bind].
  pose proof G2 as ((Hw2 & Hs2 & Hm2) & Hc2 & Hwp2). pose proof G1 as ((Hw1 & _) & _ & Hwp1).
  simpl in Hwp1. simpl f_wpos. rewrite (u64_small (f_wpos f2 + 9)) by lia. rewrite u64_small by lia.
  assert (Hroom : (Z.to_nat (f_wpos f2) + 9 <= length (f_buf f2))%nat) by lia.
  exists (f2 <| f_wpos := f_wpos f2 + 9 |>), (take 9 (drop (Z.to_nat (f_wpos f2)) (f_buf f2))). split; [reflexivity|].
  split; [rewrite length_take, length_drop; lia|].
  eapply grown_nil_l; [exact G1|]. eapply grown_app; [exact G2|].
  split_and!; [split_and!; simpl; lia| |simpl; rewrite length_take, length_drop; lia].
  unfold content. simpl. rewrite Z2Nat.inj_add by lia.
  by rewrite <- take_take_drop.
Qed.

(** Ending writes the length of what was written since into that room. *)
Lemma end_line_ok ty f0 f1 f2 junk a body :
  grown f0 f1 (a ++ junk) -> length junk = 9%nat -> grown f1 f2 body -> frame_ok f0 ->
  f_wpos f1 - 9 < XEOF
  /\ exists f3, end_line ty (f_wpos f1 - 9) f2 = Some f3 /\ grown f0 f3 (a ++ enc_body ty body).
Proof.
  intros G1 Hj G2 Hf0. pose proof G1 as ((Hw1 & Hs1 & Hm1) & Hc1 & Hwp1).
  pose proof G2 as ((Hw2 & Hs2 & Hm2) & Hc2 & Hwp2). pose proof Hf0 as (Hw0 & _).
  rewrite length_app in Hwp1. split; [unfold XEOF; lia|].
  pose proof (content_length f0 Hf0) as Hl0.
  assert (Hb : f_buf f2 = (content f0 ++ a) ++ junk ++ (body ++ drop (Z.to_nat (f_wpos f2)) (f_buf f2))).
  { rewrite <- (take_drop (Z.to_nat (f_wpos f2)) (f_buf f2)) at 1. fold (content f2).
    rewrite Hc2, Hc1. by rewrite <- !app_assoc. }
  unfold end_line. rewrite Hb.
  rewrite (wr_range_app _ _ (__xl_n2b _ _)); [|rewrite length_app; lia|by rewrite Hj].
  cbn [mbind option_bind]. eexists. split; [done|]. unfold XLINE_SIZE.
  rewrite u64_small by lia. set (n := f_wpos f2 - _ - 9). assert (Hn : n = Z.of_nat (length body)) by lia.
  unfold enc_body. rewrite Hn. pose proof (n2b_length (Z.of_nat (length body)) ty) as Hll.
  set (line := __xl_n2b _ ty) in *. clearbody line.
  split_and!.
  - split_and!; simpl; [lia..| |lia]. rewrite Hs2, Hb at 1. rewrite !length_app, Hj, Hll. done.
  - unfold content at 1. simpl. rewrite <- !app_assoc, !(app_assoc _ _ (drop _ _)).
    apply take_app_length'. rewrite !length_app. lia.
  - simpl. rewrite !length_app. lia.
Qed.

Definition builds (v : value) : Prop :=
  forall key f, value_ok v -> (forall k, key = Some k -> (length k <= 64)%nat) -> frame_ok f ->
  f_wpos f + Z.of_nat (length (kenc key ++ enc v)) <= max_document ->
  exists f', build malloc key v f = Some f' /\ grown f f' (kenc key ++ enc v).

Lemma build_fields_ok fs :
  Forall (fun f => builds f.2) fs -> Forall field_ok fs -> forall f, frame_ok f ->
  f_wpos f + Z.of_nat (length (enc_fields fs)) <= max_document ->
  exists f', build_fields malloc fs f = Some f' /\ grown f f' (enc_fields fs).
Proof using.
  induction fs as [|[k v] fs IH]; intros Hb Hok f Hf Hd; simpl.
  { exists f. split; [done|]. by apply grown_nil. }
  apply Forall_cons in Hb as [Hv Hb]. apply Forall_cons in Hok as [[Hk Hv'] Hok]. cbn [fst snd] in *.
  change (enc_fields ((k, v) :: fs)) with ((enc_key k ++ enc v) ++ enc_fields fs) in *.
  rewrite length_app in Hd.
  destruct (Hv (Some k) f) as (f1 & -> & G1); [done|intros ? [= <-]; apply Hk|done|simpl kenc; lia|].
  cbn [mbind option_bind]. destruct (IH Hb Hok f1) as (f2 & E2 & G2); [apply G1| |].
  { destruct G1 as (_ & _ & ->). simpl kenc. lia. }
  exists f2. split; [exact E2|]. by eapply grown_app.
Qed.

Lemma build_elems_ok vs :
  Forall builds vs -> Forall value_ok vs -> forall f, frame_ok f ->
  f_wpos f + Z.of_nat (length (concat (map enc vs))) <= max_document ->
  exists f', build_elems malloc vs f = Some f' /\ grown f f' (concat (map enc vs)).
Proof using.
  induction vs as [|v vs IH]; intros Hb Hok f Hf Hd; simpl.
  { exists f. split; [done|]. by apply grown_nil. }
  apply Forall_cons in Hb as [Hv Hb]. apply Forall_cons in Hok as [Hv' Hok].
  simpl in Hd. rewrite length_app in Hd.
  destruct (Hv None f) as (f1 & -> & G1); [done|done|done|simpl; lia|].
  cbn [mbind option_bind]. destruct (IH Hb Hok f1) as (f2 & E2 & G2); [apply G1| |].
  { destruct G1 as (_ & _ & ->). simpl kenc. simpl. lia. }
  exists f2. split; [exact E2|]. by eapply grown_app.
Qed.

(** Objects and lists: begin, write the body, end. *)
Lemma build_nested ty key f body (rest : xframe -> option xframe)
    (ending : Z -> xframe -> option (xframe * Z)) :
  (forall k, key = Some k -> (length k <= 64)%nat) -> frame_ok f ->
  f_wpos f + Z.of_nat (length (kenc key ++ enc_body ty body)) <= max_document ->
  (forall f1, frame_ok f1 -> f_wpos f1 + Z.of_nat (length body) <= max_document ->
    exists f2, rest f1 = Some f2 /\ grown f1 f2 body) ->
  (forall pos f2 f3, pos < XEOF -> end_line ty pos f2 = Some f3 ->
    exists f4, fst <$> ending pos f2 = Some f4 /\ (forall a b, grown a f3 b -> grown a f4 b)) ->
  exists f', ('(f, pos) ← xl_obj_begin malloc key f; f ← rest f; fst <$> ending pos f) = Some f'
    /\ grown f f' (kenc key ++ enc_body ty body).
Proof using Hmalloc.
  intros Hk Hf Hd Hrest Hend.
  assert (Hl : Z.of_nat (length (kenc key ++ enc_body ty body))
               = Z.of_nat (length (kenc key)) + 9 + Z.of_nat (length body)).
  { unfold enc_body. rewrite !length_app, n2b_length. lia. }
  destruct (obj_begin_ok key f) as (f1 & junk & -> & Hj & G1); [done|done|lia|].
  cbn [mbind option_bind]. pose proof G1 as (Hf1 & _ & Hw1). rewrite length_app, Hj in Hw1.
  destruct (Hrest f1) as (f2 & -> & G2); [done|lia|]. cbn [mbind option_bind].
  destruct (end_line_ok ty f f1 f2 junk (kenc key) body) as (Hpos & f3 & E3 & G3); try done.
  destruct (Hend _ _ _ Hpos E3) as (f4 & E4 & H4). exists f4. split; [exact E4|]. by apply H4.
Qed.

(** A number, under a key or in a list. *)
Lemma build_number n ty key f v :
  enc v = __xl_n2b n ty -> (forall k, key = Some k -> (length k <= 64)%nat) -> frame_ok f ->
  f_wpos f + Z.of_nat (length (kenc key ++ enc v)) <= max_document ->
  exists f', match key with
    | Some k => fst <$> xl_add malloc k (line_len k) (put (__xl_n2b n ty)) f
    | None => fst <$> xl_list_append malloc (enc v) f end = Some f' /\ grown f f' (kenc key ++ enc v).
Proof using Hmalloc.
  intros E Hk Hf Hd. destruct key as [k|]; [|by apply list_append_ok].
  specialize (Hk k eq_refl). rewrite E in *. eapply add_ok; [reflexivity|apply put_appends|done| | |done|done].
  - unfold line_len. rewrite u64_small; [done|]. unfold XLINE_SIZE. rewrite u64_small; lia.
  - unfold line_len, XLINE_SIZE. rewrite n2b_length, u64_small; lia.
Qed.

(** A string or binary data; [tail] copies it. *)
Lemma build_bytes ty bs tail key f v :
  enc v = enc_body ty bs ->
  (forall g, tail g = (src ← rd_range bs 0 (Z.of_nat (length bs)); put src g)) ->
  (forall k, key = Some k -> (length k <= 64)%nat) -> frame_ok f ->
  f_wpos f + Z.of_nat (length (kenc key ++ enc v)) <= max_document ->
  exists f', match key with
    | Some k => fst <$> xl_add malloc k (u64 (line_len k + Z.of_nat (length bs)))
        (fun f => f ← put (__xl_n2b (Z.of_nat (length bs)) ty) f; tail f) f
    | None => fst <$> xl_list_append malloc (enc v) f end = Some f' /\ grown f f' (kenc key ++ enc v).
Proof using Hmalloc.
  intros E Ht Hk Hf Hd. destruct key as [k|]; [|by apply list_append_ok].
  specialize (Hk k eq_refl). rewrite E in *. pose proof Hf as ((Hw & _) & _).
  assert (Hlen : Z.of_nat (length (kenc (Some k) ++ enc_body ty bs))
                 = Z.of_nat (length k) + 2 + 9 + Z.of_nat (length bs)).
  { unfold enc_body. rewrite !length_app, n2b_length. pose proof (enc_key_length k). simpl kenc. lia. }
  unfold max_document in *.
  assert (Hu : u64 (line_len k + Z.of_nat (length bs)) = Z.of_nat (length k) + 2 + 9 + Z.of_nat (length bs)).
  { unfold line_len, XLINE_SIZE. rewrite (u64_small (_ + 9)) by lia. rewrite u64_small; lia. }
  eapply add_ok; [reflexivity| |done| | |done|done].
  - apply appends_app; [apply put_appends|]. intros g Hg Hr. rewrite Ht.
    rewrite (rd_range_prefix bs), Nat2Z.id, take_ge by lia. cbn [mbind option_bind]. by apply put_appends.
  - rewrite Hu. rewrite u64_small; lia.
  - rewrite Hu. unfold enc_body. rewrite length_app, n2b_length. lia.
Qed.

Lemma build_ok v : builds v.
Proof using Hmalloc.
  induction v using value_induction; intros key f Hok Hk Hf Hd.
  - by apply (build_number i XLINE_TYPE_INT key f (VInt i)).
  - by apply (build_number n XLINE_TYPE_UINT key f (VUint n)).
  - by apply (build_number x XLINE_TYPE_REAL key f (VReal x)).
  - by apply (build_bytes XLINE_TYPE_STR s _ key f (VStr s)).
  - by apply (build_bytes XLINE_TYPE_BIN b _ key f (VBin b)).
  - rewrite enc_obj in *. apply (build_nested XLINE_TYPE_OBJ key f _ (build_fields malloc fs) xl_obj_end); try done.
    + intros f1 Hf1 Hd1. apply build_fields_ok; try done. by apply value_ok_obj.
    + intros pos f2 f3 Hpos E. unfold xl_obj_end. rewrite decide_True, E by done. by exists f3.
  - cbn [enc] in *. apply (build_nested XLINE_TYPE_LIST key f _ (build_elems malloc vs) xl_list_end); try done.
    + intros f1 Hf1 Hd1. apply build_elems_ok; try done. by apply value_ok_list.
    + intros pos f2 f3 Hpos E. unfold xl_list_end. rewrite decide_True, E by done. by exists (xl_fixed f3).
Qed.

End Building.

(** ** Reading back *)

Lemma lies_is m o x y : lies m o x -> x = y -> lies m o y.
Proof. by intros ? <-. Qed.

(** One step of the parser goes over one field. *)
Lemma step_field_ok p k v :
  lies (p_mem p) (p_ptr p + p_rpos p) (enc_field (k, v)) -> 0 <= p_rpos p ->
  p_rpos p + Z.of_nat (length (enc_field (k, v))) < 2 ^ 63 ->
  rd (p_mem p) (p_ptr p + p_rpos p) = Some (Z.of_nat (length k) + 1)
  /\ lies (p_mem p) (p_ptr p + p_rpos p + 1) (k ++ [0])
  /\ lies (p_mem p) (p_ptr p + (p_rpos p + Z.of_nat (length (enc_key k)))) (enc v)
  /\ step_field p = Some (p <| p_key := p_ptr p + p_rpos p |>
                            <| p_rpos := p_rpos p + Z.of_nat (length (enc_field (k, v))) |>,
                          p_ptr p + (p_rpos p + Z.of_nat (length (enc_key k)))).
Proof.
  intros H Hr Hl. unfold enc_field in *. cbn [fst snd] in *. rewrite length_app in *.
  apply lies_app in H as [H1 H2]. rewrite <- Z.add_assoc in H2.
  assert (Hk0 : rd (p_mem p) (p_ptr p + p_rpos p) = Some (Z.of_nat (length k) + 1)).
  { pose proof (lies_rd _ _ _ 0 H1) as E. rewrite Z.add_0_r in E. apply E. simpl. lia. }
  assert (Hkey : lies (p_mem p) (p_ptr p + p_rpos p + 1) (k ++ [0])).
  { unfold enc_key in H1. change (?x :: k ++ [0]) with ([x] ++ (k ++ [0])) in H1.
    by apply lies_app in H1 as [_ H1]. }
  split; [done|]. split; [done|]. split; [done|].
  pose proof (enc_key_length k) as Hkl.
  unfold step_field. rewrite Hk0. cbn [mbind option_bind].
  assert (Hu : u64 (p_rpos p + (Z.of_nat (length k) + 1 + 1)) = p_rpos p + Z.of_nat (length (enc_key k))).
  { rewrite u64_small; lia. }
  rewrite Hu, Nat2Z.inj_add in *. pose proof (enc_size _ _ _ H2 ltac:(lia)) as Hs.
  set (n := Z.of_nat (length (enc_key k))) in *. clearbody n. cbn. rewrite Hs. cbn.
  rewrite u64_small by lia. by rewrite <- (Z.add_assoc (p_rpos p)).
Qed.

Lemma read_key_ok m o k : lies m o (k ++ [0]) -> Forall (fun c => c ≠ 0) k -> read_key m o = Some k.
Proof.
  intros (a & c & -> & ->) Hk. unfold read_key. rewrite <- app_assoc.
  change ([0] ++ c) with (0 :: c).
  rewrite slength_from_spec; [|done|rewrite !length_app; simpl; lia].
  cbn [mbind option_bind]. apply rd_range_app; lia.
Qed.

Lemma key_nonzero k : key_ok k -> Forall (fun c => c ≠ 0) k.
Proof. intros [H _]. eapply Forall_impl; [exact H|]. simpl. lia. Qed.

Definition reads (v : value) : Prop :=
  forall fuel m o, value_ok v -> lies m o (enc v) -> Z.of_nat (length (enc v)) < 2 ^ 63 ->
  (length (enc v) <= fuel)%nat -> read_value fuel m o = Some v.

Lemma enc_field_length f : length (enc_field f) = (length f.1 + 2 + length (enc f.2))%nat.
Proof. unfold enc_field. rewrite length_app. pose proof (enc_key_length f.1). lia. Qed.

Lemma enc_nonempty v : (0 < length (enc v))%nat.
Proof. destruct v; simpl; unfold enc_body; rewrite ?length_app, ?n2b_length; lia. Qed.

Lemma xl_next_ok p k v :
  lies (p_mem p) (p_ptr p + p_rpos p) (enc_field (k, v)) -> 0 <= p_rpos p ->
  p_rpos p + Z.of_nat (length (enc_field (k, v))) <= p_wpos p -> p_wpos p < 2 ^ 63 ->
  xl_next p = Some (mkparser (p_mem p) (p_ptr p) (p_rpos p + Z.of_nat (length (enc_field (k, v)))) (p_wpos p)
                             (p_ptr p + p_rpos p + 1) (p_val p),
                    Some (p_ptr p + (p_rpos p + Z.of_nat (length (enc_key k))))).
Proof.
  intros H Hr Hw Hb. pose proof (enc_field_length (k, v)). pose proof (enc_nonempty v).
  destruct (step_field_ok p k v) as (_ & _ & _ & E); [done|done|lia|].
  unfold xl_next. rewrite decide_True by lia. by rewrite E.
Qed.

Lemma read_fields_ok fs : Forall (fun f => reads f.2) fs -> Forall field_ok fs ->
  forall fuel p, lies (p_mem p) (p_ptr p + p_rpos p) (enc_fields fs) -> 0 <= p_rpos p ->
  p_rpos p + Z.of_nat (length (enc_fields fs)) = p_wpos p -> p_wpos p < 2 ^ 63 ->
  (length (enc_fields fs) < fuel)%nat -> read_fields fuel p = Some fs.
Proof.
  induction fs as [|[k v] fs IH]; intros Hrd Hok fuel p H Hr Hw Hb Hf; (destruct fuel as [|fuel]; [lia|]);
    cbn [read_fields].
  { unfold xl_next. rewrite decide_False by (simpl in Hw; lia). done. }
  apply Forall_cons in Hrd as [Hv Hrd]. apply Forall_cons in Hok as [[Hk Hvok] Hok]. cbn [fst snd] in *.
  change (enc_fields ((k, v) :: fs)) with (enc_field (k, v) ++ enc_fields fs) in *.
  rewrite length_app in *. pose proof (enc_field_length (k, v)) as Hfl. cbn [fst snd] in Hfl.
  apply lies_app in H as [H1 H2].
  destruct (step_field_ok p k v) as (_ & Hkey & Hval & _); [done|done|lia|].
  rewrite (xl_next_ok p k v H1) by lia. cbn [mbind option_bind p_mem p_key].
  rewrite (read_key_ok _ _ _ Hkey) by (by apply key_nonzero). cbn [mbind option_bind].
  rewrite (Hv fuel _ _ Hvok Hval) by lia. cbn [mbind option_bind].
  rewrite IH; cbn [p_mem p_ptr p_rpos p_wpos]; [done|done|done|by rewrite Z.add_assoc|lia|lia|done|lia].
Qed.

Lemma read_elems_ok vs : Forall reads vs -> Forall value_ok vs ->
  forall fuel p, lies (p_mem p) (p_ptr p + p_rpos p) (concat (map enc vs)) -> 0 <= p_rpos p ->
  p_rpos p + Z.of_nat (length (concat (map enc vs))) = p_wpos p -> p_wpos p < 2 ^ 63 ->
  (length (concat (map enc vs)) < fuel)%nat -> read_elems fuel p = Some vs.
Proof.
  induction vs as [|v vs IH]; intros Hrd Hok fuel p H Hr Hw Hb Hf; (destruct fuel as [|fuel]; [lia|]);
    cbn [read_elems]; unfold xl_list_next.
  { rewrite decide_False by (simpl in Hw; lia). done. }
  apply Forall_cons in Hrd as [Hv Hrd]. apply Forall_cons in Hok as [Hvok Hok].
  cbn [map concat] in *. rewrite length_app in *. pose proof (enc_nonempty v).
  apply lies_app in H as [H1 H2]. rewrite decide_True by lia.
  rewrite (enc_size _ _ _ H1) by lia. cbn. rewrite u64_small by lia.
  rewrite (Hv fuel _ _ Hvok H1) by lia. cbn.
  rewrite IH; [done|done|done|cbn; by rewrite Z.add_assoc|cbn; lia|cbn; lia|done|lia].
Qed.

Lemma s64_u64 i : - 2 ^ 63 <= i < 2 ^ 63 -> s64 (u64 i) = i.
Proof.
  unfold s64, swrap, u64, wrap. change (2 ^ (64 - 1)) with (2 ^ 63). intros H.
  rewrite Zplus_mod_idemp_l. rewrite Z.mod_small; lia.
Qed.

(** Choose the branch of [read_value] by the type byte. *)
Ltac pick_type Ht :=
  cbn [read_value]; rewrite Ht; cbn [mbind option_bind];
  repeat (rewrite decide_False by done); rewrite decide_True by done.

Lemma enc_body_type m o ty body : lies m o (enc_body ty body) -> rd m o = Some ty.
Proof. intros H. unfold enc_body in H. apply lies_app in H as [H _]. by apply line_read in H as [? _]. Qed.

Lemma enc_body_length ty body : length (enc_body ty body) = (9 + length body)%nat.
Proof. unfold enc_body. by rewrite length_app. Qed.

Lemma parser_ok m o ty body :
  lies m o (enc_body ty body) -> XLINE_TYPE_REAL < ty -> Z.of_nat (length body) < 2 ^ 63 ->
  exists p, xl_parser m o = Some p /\ p_mem p = m /\ p_rpos p = 0 /\ p_wpos p = Z.of_nat (length body)
    /\ p_ptr p = __xl_l2b o /\ lies m (p_ptr p) body.
Proof.
  intros H Ht Hl. destruct (body_size m o ty body) as (Hs & Hb & _); [done|done|done|].
  unfold xl_parser. rewrite Hs. eexists. split; [done|]. done.
Qed.

Lemma read_ok v : reads v.
Proof.
  induction v using value_induction; intros [|fuel] m o Hok Hlies Hl Hf;
    (match type of Hf with (length (enc ?v) <= 0)%nat => pose proof (enc_nonempty v); lia | _ => idtac end).
  - apply line_read in Hlies as [Ht Hn]. pick_type Ht. unfold __xl_b2i. rewrite Hn. simpl. by rewrite s64_u64.
  - apply line_read in Hlies as [Ht Hn]. pick_type Ht. rewrite Hn. simpl. by rewrite u64_small.
  - apply line_read in Hlies as [Ht Hn]. pick_type Ht. unfold __xl_b2f. rewrite Hn. simpl. by rewrite u64_small.
  - cbn [enc] in *. rewrite enc_body_length in *. pick_type (enc_body_type _ _ _ _ Hlies).
    destruct (body_size _ _ _ _ Hlies) as (-> & Hb & _); [done|lia|]. cbn [mbind option_bind].
    by rewrite (lies_range _ _ _ Hb).
  - cbn [enc] in *. rewrite enc_body_length in *. pick_type (enc_body_type _ _ _ _ Hlies).
    destruct (body_size _ _ _ _ Hlies) as (-> & Hb' & _); [done|lia|]. cbn [mbind option_bind].
    by rewrite (lies_range _ _ _ Hb').
  - rewrite enc_obj in *. rewrite enc_body_length in *. pick_type (enc_body_type _ _ _ _ Hlies).
    destruct (parser_ok _ _ _ _ Hlies) as (p & -> & <- & Hr & Hw & _ & Hb); [done|lia|]. cbn [mbind option_bind].
    rewrite (read_fields_ok fs); [done|done|by apply value_ok_obj|by rewrite Hr, Z.add_0_r|lia..].
  - cbn [enc] in *. rewrite enc_body_length in *. pick_type (enc_body_type _ _ _ _ Hlies).
    destruct (parser_ok _ _ _ _ Hlies) as (p & -> & <- & Hr & Hw & _ & Hb); [done|lia|]. cbn [mbind option_bind].
    rewrite (read_elems_ok vs); [done|done|by apply value_ok_list|by rewrite Hr, Z.add_0_r|lia..].
Qed.

(** ** The properties *)

(** C19: A document written with the calls of the builder, whatever its nesting
    and however often the frame had to grow, is read back by the parser as it
    was. *)
Theorem document_roundtrip malloc size fs :
  malloc_ok malloc -> 0 <= size <= 2 ^ 62 -> value_ok (VObj fs) ->
  Z.of_nat (length (enc (VObj fs))) <= max_document ->
  exists f0 f, xl_creator (malloc size) size = Some f0 /\ build_fields malloc fs f0 = Some f
    /\ let m := f_line (xl_fixed f) ++ f_buf f in read_value (length m) m 0 = Some (VObj fs).
Proof.
  intros Hm Hs Hok Hl. destruct (Hm size) as (mem & E & Hlen); [done|]. rewrite E.
  eexists _. unfold xl_creator. cbn [mbind option_bind].
  rewrite enc_obj, enc_body_length in Hl.
  match goal with |- context [Some ?f = Some _ /\ _] => set (f0 := f) end.
  assert (Hf0 : frame_ok f0) by (split_and!; simpl; lia).
  destruct (build_fields_ok malloc fs) with (f := f0) as (f & Eb & Hf & Hc & Hw); [|by apply value_ok_obj|done| |].
  { apply List.Forall_forall. intros ? _. by apply build_ok. }
  { simpl. lia. }
  exists f. split; [done|]. split; [exact Eb|]. cbn zeta.
  change (content f0) with (@nil Z) in Hc. simpl in Hc, Hw.
  assert (Hb : f_buf f = enc_fields fs ++ drop (Z.to_nat (f_wpos f)) (f_buf f)).
  { rewrite <- (take_drop (Z.to_nat (f_wpos f)) (f_buf f)) at 1. by rewrite <- Hc. }
  assert (Hlies : lies (f_line (xl_fixed f) ++ f_buf f) 0 (enc (VObj fs))).
  { exists [], (drop (Z.to_nat (f_wpos f)) (f_buf f)). split; [|done].
    rewrite Hb at 1. rewrite enc_obj. simpl f_line. rewrite Hw. unfold enc_body. by rewrite <- app_assoc. }
  apply read_ok; [done|exact Hlies| |].
  - rewrite enc_obj, enc_body_length. unfold max_document in Hl. lia.
  - destruct Hlies as (a & c & -> & _). rewrite !length_app. lia.
Qed.

Definition plain_malloc (n : Z) : option xframe :=
  Some (mkframe 0 0 0 0 0 0 0 0 [] (replicate (Z.to_nat n) 170)).

Lemma plain_malloc_ok : malloc_ok plain_malloc.
Proof. intros n Hn. eexists. split; [done|]. simpl. rewrite length_replicate. lia. Qed.

Definition sample_document : list (list Z * value) :=
  [([97], VInt (-5)); ([98], VStr [104; 105]); ([99], VList [VUint 7; VObj [([100], VReal 1)]; VList []])].

Lemma document_roundtrip_witness :
  exists f0 f, xl_creator (plain_malloc 4) 4 = Some f0 /\ build_fields plain_malloc sample_document f0 = Some f
    /\ let m := f_line (xl_fixed f) ++ f_buf f in read_value (length m) m 0 = Some (VObj sample_document).
Proof.
  apply document_roundtrip; [apply plain_malloc_ok|lia| |vm_compute; discriminate].
  repeat split; try lia; try (repeat constructor; unfold is_byte; lia).
Defined.

(** ** Finding a field *)

Fixpoint assoc (key : list Z) (fs : list (list Z * value)) : option value :=
  match fs with
  | [] => None
  | (k, v) :: fs => if decide (key = k) then Some v else assoc key fs
  end.

(** The parser stands before field [n] of the object [fs]. *)
Definition at_field (m : list Z) (base : Z) (fs : list (list Z * value)) (n : nat) (p : xparser) : Prop :=
  p_mem p = m /\ p_ptr p = base /\ p_wpos p = Z.of_nat (length (enc_fields fs))
  /\ p_rpos p = Z.of_nat (length (enc_fields (take n fs))) /\ (n <= length fs)%nat
  /\ lies m base (enc_fields fs) /\ p_wpos p < 2 ^ 63.

Lemma enc_fields_app a b : enc_fields (a ++ b) = enc_fields a ++ enc_fields b.
Proof. unfold enc_fields. by rewrite map_app, concat_app. Qed.

Lemma at_field_split m base fs n p : at_field m base fs n p ->
  lies m (p_ptr p + p_rpos p) (enc_fields (drop n fs)).
Proof.
  intros (_ & -> & _ & -> & _ & H & _).
  rewrite <- (take_drop n fs), enc_fields_app in H. by apply lies_app in H as [_ H].
Qed.

Lemma enc_fields_mono fs n : (length (enc_fields (take n fs)) <= length (enc_fields fs))%nat.
Proof. rewrite <- (take_drop n fs) at 2. rewrite enc_fields_app, length_app. lia. Qed.

(** The comparison of a key with the one in the buffer. *)
Lemma compare_key m o key k :
  lies m o (k ++ [0]) -> is_bytes key -> is_bytes k ->
  exists r, (if decide (Z.of_nat (length key) + 1 = Z.of_nat (length k) + 1)
             then mcompare (Some (key ++ [0], 0)) (Some (m, o)) (Z.of_nat (length k) + 1) else Some 1) = Some r
            /\ (r = 0 <-> key = k).
Proof.
  intros H Hb1 Hb2. case_decide as Hl.
  - assert (Hk0 : is_bytes [0]) by (repeat constructor; unfold is_byte; lia).
    destruct (mcompare_ok (key ++ [0]) 0 m o (Z.of_nat (length k) + 1) (key ++ [0]) (k ++ [0]))
      as (r & E & Hr & _); [lia| | |by apply Forall_app|by apply Forall_app|].
    + rewrite rd_range_prefix, take_ge; [done| |]; rewrite length_app; simpl; lia.
    + pose proof (lies_range _ _ _ H) as E. rewrite length_app in E. simpl in E. rewrite <- E. f_equal. lia.
    + exists r. split; [done|]. rewrite Hr. split; [|by intros ->]. by intros [? _]%app_inj_2.
  - exists 1. split; [done|]. split; [done|]. intros ->. lia.
Qed.

Definition key_bytes (key : list Z) : Prop := Forall (fun c => 0 < c < 256) key.

Lemma key_is_bytes key : key_bytes key -> is_bytes key.
Proof. intros H. eapply Forall_impl; [exact H|]. unfold is_byte. simpl. lia. Qed.

Lemma fields_step fs n k v : fs !! n = Some (k, v) ->
  enc_fields (take (S n) fs) = enc_fields (take n fs) ++ enc_field (k, v).
Proof.
  intros H. rewrite (take_S_r _ _ _ H), enc_fields_app. f_equal. unfold enc_fields. simpl. by rewrite app_nil_r.
Qed.

Lemma fields_mono fs a b : (a <= b)%nat ->
  (length (enc_fields (take a fs)) <= length (enc_fields (take b fs)))%nat.
Proof.
  intros H. pose proof (enc_fields_mono (take b fs) a) as M. by rewrite take_take, Nat.min_l in M by done.
Qed.

(** The step of the parser from one field to the next. *)
Lemma at_field_next m base fs n p k v : at_field m base fs n p -> fs !! n = Some (k, v) ->
  exists p', step_field p = Some (p', p_ptr p + (p_rpos p + Z.of_nat (length (enc_key k))))
    /\ at_field m base fs (S n) p' /\ p_rpos p < p_rpos p' /\ p_key p' = p_ptr p + p_rpos p
    /\ rd m (p_key p') = Some (Z.of_nat (length k) + 1) /\ lies m (p_key p' + 1) (k ++ [0])
    /\ lies m (p_ptr p + (p_rpos p + Z.of_nat (length (enc_key k)))) (enc v).
Proof.
  intros Hp Hn. pose proof (at_field_split _ _ _ _ _ Hp) as Hl. pose proof Hp as (Hm & Hbase & Hw & Hr & Hle & Hall & Hb).
  rewrite (drop_S _ _ _ Hn) in Hl. change (enc_fields (?f :: ?l)) with (enc_field f ++ enc_fields l) in Hl.
  apply lies_app in Hl as [H1 _]. pose proof (fields_step _ _ _ _ Hn) as Hnext.
  pose proof (enc_fields_mono fs (S n)) as Hmono. rewrite Hnext, length_app in Hmono.
  pose proof (enc_field_length (k, v)) as Hfl. subst m.
  destruct (step_field_ok p k v) as (Hk0 & Hkb & Hv & E); [done|lia|lia|].
  rewrite E. eexists. split; [reflexivity|].
  change (p_rpos (_ <| p_rpos := _ |>)) with (p_rpos p + Z.of_nat (length (enc_field (k, v)))).
  split; [|split; [lia|done]].
  split; [done|]. split; [done|]. split; [done|]. split.
  { change (p_rpos _) with (p_rpos p + Z.of_nat (length (enc_field (k, v)))). rewrite Hnext, length_app. lia. }
  split; [by apply lookup_lt_Some in Hn|done].
Qed.

(** One of the loops of [xl_find], over [d] fields from field [n] on. *)
Lemma find_loop_ok m base fs key d : Forall field_ok fs -> key_bytes key ->
  forall n fuel p, at_field m base fs n p -> (n + d <= length fs)%nat ->
  (length (enc_fields (take (n + d) fs)) - length (enc_fields (take n fs)) < fuel)%nat ->
  exists p' n', find_loop fuel (Z.of_nat (length (enc_fields (take (n + d) fs)))) key p
      = Some (p', bool_decide (is_Some (assoc key (take d (drop n fs)))))
    /\ at_field m base fs n' p'
    /\ match assoc key (take d (drop n fs)) with
       | Some v => exists o, p_val p' = Some o /\ lies m o (enc v)
       | None => n' = (n + d)%nat
       end.
Proof.
  intros Hok Hkey. induction d as [|d IH]; intros n fuel p Hp Hd Hf.
  - rewrite Nat.add_0_r. pose proof Hp as (_ & _ & _ & Hr & _). exists p, n. split; [|split; [done|]].
    + destruct fuel; simpl; rewrite decide_False by lia; done.
    + by rewrite take_0.
  - destruct (lookup_lt_is_Some_2 fs n ltac:(lia)) as [[k v] Hn].
    destruct (at_field_next _ _ _ _ _ _ _ Hp Hn) as (p1 & E & Hp1 & Hlt & Hpk & Hk0 & Hkb & Hv).
    rewrite <- Nat.add_succ_comm in *.
    pose proof (fields_mono fs (S n) (S n + d) ltac:(lia)) as Hmono.
    pose proof Hp as (_ & _ & _ & Hr & _). pose proof Hp1 as (Hm1 & _ & _ & Hr1 & _).
    assert (Hfk : field_ok (k, v)) by (by eapply Forall_lookup_1). destruct Hfk as [[Hkk _] _].
    destruct (compare_key _ _ key k Hkb (key_is_bytes _ Hkey) (key_is_bytes _ Hkk)) as (r & Ec & Hcmp).
    destruct fuel as [|fuel]; [lia|]. cbn [find_loop]. rewrite decide_True by lia. rewrite E.
    cbn [mbind option_bind]. set (p2 := p1 <| p_val := _ |>).
    change (p_mem p2) with (p_mem p1). change (p_key p2) with (p_key p1).
    rewrite Hm1, Hk0. cbn [mbind option_bind]. rewrite Ec. cbn [mbind option_bind].
    rewrite (drop_S _ _ _ Hn). cbn [take assoc].
    destruct (decide (r = 0)) as [Hr0|Hr0].
    + rewrite (decide_True _ _ (proj1 Hcmp Hr0)). exists (p2 <| p_key := p_key p1 + 1 |>), (S n).
      rewrite bool_decide_true by done. split; [done|]. split; [exact Hp1|]. by eexists.
    + rewrite (decide_False _ _ (fun H => Hr0 (proj2 Hcmp H))). apply (IH (S n) fuel p2 Hp1); lia.
Qed.

Lemma assoc_app key a b :
  assoc key (a ++ b) = match assoc key a with Some v => Some v | None => assoc key b end.
Proof. induction a as [|[k v] a IH]; simpl; [done|]. by case_decide. Qed.

Lemma find_ok m base fs n p key :
  Forall field_ok fs -> key_bytes key -> at_field m base fs n p ->
  exists p' n' r, xl_find p key = Some (p', r) /\ at_field m base fs n' p'
    /\ match assoc key (drop n fs ++ take n fs) with
       | Some v => exists o, r = Some o /\ lies m o (enc v)
       | None => r = None
       end.
Proof.
  intros Hok Hkey Hp. pose proof Hp as (Hm & Hb & Hw & Hr & Hn & Hl & Hbd). unfold xl_find.
  destruct (find_loop_ok m base fs key (length fs - n) Hok Hkey n (S (Z.to_nat (p_wpos p))) p Hp)
    as (p1 & n1 & E1 & Hp1 & H1); [lia| |].
  { pose proof (enc_fields_mono fs (n + (length fs - n))). lia. }
  replace (n + (length fs - n))%nat with (length fs) in E1, H1 by lia.
  rewrite firstn_all, <- Hw in E1. rewrite E1. cbn [mbind option_bind].
  rewrite take_ge in H1 by (rewrite length_drop; lia). rewrite (take_ge (drop n fs)) by (rewrite length_drop; lia).
  rewrite assoc_app. destruct (assoc key (drop n fs)) as [v|].
  { rewrite bool_decide_true by eauto. destruct H1 as (o & Ho & Hlo). exists p1, n1, (p_val p1).
    split; [done|]. split; [done|]. by exists o. }
  rewrite bool_decide_false by (by intros [? ?]).
  assert (Hp2 : at_field m base fs 0 (p1 <| p_rpos := 0 |>)).
  { destruct Hp1 as (? & ? & ? & _ & _ & ? & ?). do 4 (split; [done|]). split; [lia|done]. }
  destruct (find_loop_ok m base fs key n Hok Hkey 0 (S (Z.to_nat (p_rpos p))) _ Hp2)
    as (p3 & n3 & E3 & Hp3 & H3); [lia|simpl plus; lia|].
  simpl plus in E3, H3. rewrite <- Hr in E3. rewrite E3. cbn [mbind option_bind]. rewrite drop_0 in *.
  destruct (assoc key (take n fs)) as [v|].
  - rewrite bool_decide_true by eauto. destruct H3 as (o & Ho & Hlo). exists p3, n3, (p_val p3).
    split; [done|]. split; [done|]. by exists o.
  - rewrite bool_decide_false by (by intros [? ?]). exists (p3 <| p_val := None |>), n3, None. done.
Qed.

Lemma parser_at_field m o fs :
  lies m o (enc (VObj fs)) -> Z.of_nat (length (enc_fields fs)) < 2 ^ 63 ->
  exists p, xl_parser m o = Some p /\ at_field m (__xl_l2b o) fs 0 p.
Proof.
  rewrite enc_obj. intros H Hl. destruct (parser_ok _ _ _ _ H) as (p & E & Hm & Hr & Hw & Hb & Hlies); [done|done|].
  exists p. split; [done|]. rewrite Hb in Hlies. do 4 (split; [done|]). split; [lia|]. split; [done|lia].
Qed.

(** C20: From any field on, [xl_find] gives the line of the first field with the
    key, going once around the object, and [NULL] when there is none; the
    parser is left before a field, so the next search starts there. *)
Theorem find_correct m base fs n p key :
  Forall field_ok fs -> key_bytes key -> at_field m base fs n p ->
  exists p' n' r, xl_find p key = Some (p', r) /\ at_field m base fs n' p'
    /\ match assoc key (drop n fs ++ take n fs) with
       | Some v => exists o, r = Some o /\ lies m o (enc v)
       | None => r = None
       end.
Proof. apply find_ok. Qed.

Definition small_fields : list (list Z * value) := [([97], VInt (-5)); ([98; 98], VUint 7)].

Lemma find_correct_witness :
  exists p' n' r, xl_find (mkparser (enc (VObj small_fields)) 9 12 25 0 None) [97] = Some (p', r)
    /\ at_field (enc (VObj small_fields)) 9 small_fields n' p' /\ exists o, r = Some o /\ lies (enc (VObj small_fields)) o (enc (VInt (-5))).
Proof.
  apply (find_correct (enc (VObj small_fields)) 9 small_fields 1 (mkparser (enc (VObj small_fields)) 9 12 25 0 None) [97]).
  - repeat constructor; simpl; lia.
  - repeat constructor; lia.
  - do 4 (split; [reflexivity|]). split; [simpl; lia|]. split; [|simpl; lia].
    exists (take 9 (enc (VObj small_fields))), []. split; vm_compute; reflexivity.
Defined.

(** A key of more than 64 characters is cut when the field is written, but
    compared whole when it is looked for: the field is not found. *)
Lemma long_key_lost malloc key i f :
  malloc_ok malloc -> frame_ok f -> f_wpos f = 0 -> key_bytes key -> (64 < length key)%nat ->
  - 2 ^ 63 <= i < 2 ^ 63 -> Z.of_nat (length key) + 11 <= max_document ->
  exists f' p p', xl_add_int malloc key i f = Some (f', f_wpos f') /\ f_wpos f' = 75
    /\ xl_parser (f_line f' ++ f_buf f') 0 = Some p /\ xl_find p key = Some (p', None).
Proof.
  intros Hm Hf Hw Hk Hlong Hi Hd. unfold max_document in Hd.
  assert (Hll : line_len key = Z.of_nat (length key) + 11)
    by (unfold line_len, XLINE_SIZE; rewrite u64_small; lia).
  destruct (xl_add_ok malloc Hm key (line_len key) (put (__xl_n2b i XLINE_TYPE_INT)) (__xl_n2b i XLINE_TYPE_INT) f)
    as (f' & E & (Hf' & Hc & Hw') & Hline); [apply put_appends|done|rewrite n2b_length; lia|unfold max_document; lia|].
  set (fs := [(take 64 key, VInt i)]).
  assert (Hfs : content f' = enc_fields fs).
  { rewrite Hc. replace (content f) with (@nil Z) by (unfold content; by rewrite Hw).
    unfold enc_fields, fs. cbn [map concat]. by rewrite app_nil_r. }
  assert (Hlen : length (enc_fields fs) = 75%nat).
  { unfold enc_fields, fs. cbn [map concat]. rewrite app_nil_r, enc_field_length. cbn [fst snd enc].
    rewrite length_take, n2b_length. lia. }
  assert (Hw75 : f_wpos f' = 75) by (rewrite <- (content_length f' Hf'), Hfs, Hlen; done).
  assert (Hlies : lies (f_line f' ++ f_buf f') 0 (enc (VObj fs))).
  { exists [], (drop (Z.to_nat (f_wpos f')) (f_buf f')). split; [|done]. rewrite enc_obj.
    rewrite <- (take_drop (Z.to_nat (f_wpos f')) (f_buf f')) at 1. fold (content f').
    rewrite Hfs, Hline. unfold enc_body. rewrite Hlen, Hw75.
    by rewrite <- (app_assoc _ (enc_fields fs)). }
  destruct (parser_at_field _ _ _ Hlies) as (p & Ep & Hp); [lia|].
  assert (Hok : Forall field_ok fs).
  { apply Forall_cons_2; [|by apply Forall_nil_2]. split; [|exact Hi]. split; [by apply Forall_take|].
    simpl fst. rewrite length_take. lia. }
  destruct (find_ok _ _ fs 0 p key Hok Hk Hp) as (p' & _ & r & Ef & _ & Hr).
  simpl in Hr. rewrite decide_False in Hr by (intros E'; apply (f_equal length) in E'; rewrite length_take in E'; lia).
  exists f', p, p'. split; [exact E|]. split; [done|]. split; [done|]. by rewrite Ef, Hr.
Qed.


Lemma fill_key_wpos key f f' : (length key <= 64)%nat -> 0 <= f_wpos f <= 2 ^ 62 ->
  __xl_fill_key key f = Some f' ->
  f_wpos f' = f_wpos f + Z.of_nat (length key) + 2 /\ length (f_buf f') = length (f_buf f).
Proof.
  intros Hk Hw E. unfold __xl_fill_key in E. rewrite decide_False in E by lia.
  rewrite u8_small in E by (unfold is_byte; lia).
  destruct (wr (f_buf f) _ _) as [b1|] eqn:E1; [|done]. cbn [mbind option_bind] in E.
  destruct (wr_range b1 _ _) as [b2|] eqn:E2; [|done]. cbn [mbind option_bind] in E.
  destruct (wr b2 _ _) as [b3|] eqn:E3; [|done]. injection E as <-. simpl.
  rewrite (wr_length _ _ _ _ E3), (wr_range_length _ _ _ _ E2), (wr_length _ _ _ _ E1).
  rewrite u64_small by lia. split; [lia|done].
Qed.

Lemma put_too_long bs f : Z.of_nat (length (f_buf f)) < f_wpos f + Z.of_nat (length bs) -> put bs f = None.
Proof. intros H. unfold put, wr_range. by rewrite decide_False by lia. Qed.

(** C37: When no larger buffer can be had, a call reports the failure but leaves
    the size it wanted in the frame: the next call finds room that is not there
    and writes behind the buffer. *)
Theorem failed_growth_overflows malloc key i f :
  (forall n, malloc n = None) -> frame_ok f -> (length key <= 64)%nat ->
  f_size f - f_wpos f < Z.of_nat (length key) + 11 ->
  exists f', xl_add_int malloc key i f = Some (f', XEOF) /\ f_buf f' = f_buf f
    /\ Z.of_nat (length (f_buf f')) < f_size f' /\ xl_add_int malloc key i f' = None.
Proof.
  intros Hm (Hw & Hs & Hm62) Hk Hroom.
  assert (Hll : line_len key = Z.of_nat (length key) + 11)
    by (unfold line_len, XLINE_SIZE; rewrite u64_small; lia).
  exists (f <| f_size := f_size f * 2 + (Z.of_nat (length key) + 11) |>).
  unfold xl_add_int, xl_add, reserve. rewrite Hll. rewrite (u64_small (f_size f - f_wpos f)) by lia.
  rewrite decide_True by lia. unfold __xl_realloc. rewrite (u64_small (f_size f * 2)), u64_small by lia.
  rewrite Hm. split; [done|]. split; [done|]. split; [simpl; lia|].
  simpl f_size. simpl f_wpos. rewrite u64_small by lia. rewrite decide_False by lia.
  cbn [mbind option_bind]. set (f1 := f <| f_size := _ |>).
  destruct (__xl_fill_key key f1) as [f2|] eqn:E; [|done]. cbn [mbind option_bind].
  apply fill_key_wpos in E as [Ew El]; [|done|simpl; lia]. simpl in Ew, El.
  rewrite put_too_long; [done|]. rewrite n2b_length. lia.
Qed.

Lemma failed_growth_overflows_witness :
  exists f', xl_add_int (fun _ => None) [97] 5 (mkframe 0 0 0 0 0 0 0 8 [] (replicate 8 0)) = Some (f', XEOF)
    /\ f_buf f' = replicate 8 0 /\ Z.of_nat (length (f_buf f')) < f_size f'
    /\ xl_add_int (fun _ => None) [97] 5 f' = None.
Proof.
  apply (failed_growth_overflows _ _ _ (mkframe 0 0 0 0 0 0 0 8 [] (replicate 8 0)));
    [done|split_and!; simpl; lia|simpl; lia|simpl; lia].
Defined.

(** A message of 20 bytes: an object with one field, whose length takes the
    parser back to where it was. *)
Definition crafted_line : list Z :=
  __xl_n2b 11 XLINE_TYPE_OBJ ++ [1; 0] ++ __xl_n2b (2 ^ 64 - 11) XLINE_TYPE_STR.

Definition crafted_state (p : xparser) : Prop :=
  p_mem p = crafted_line /\ p_ptr p = 9 /\ p_rpos p = 0 /\ p_wpos p = 11.

Lemma crafted_step p : crafted_state p ->
  exists p', step_field p = Some (p', 11) /\ crafted_state p' /\ p_key p' = 9.
Proof.
  intros (Hm & Hp & Hr & Hw). destruct p as [m b r w k v]. simpl in *. subst.
  eexists. split; [vm_compute; reflexivity|]. done.
Qed.

(** C21: No fuel is enough for [xl_find] on the crafted message, and [xl_next]
    goes on returning its field for ever, although every access is in bounds:
    a peer can keep the parser in an endless loop with 20 bytes. *)
Theorem crafted_line_loops :
  exists p, xl_parser crafted_line 0 = Some p
    /\ (forall key fuel, key ≠ [] -> find_loop fuel (p_wpos p) key p = None)
    /\ (forall n, exists p', Nat.iter n (fun s => q ← s; fst <$> xl_next q) (Some p) = Some p'
          /\ exists q, xl_next p' = Some (q, Some 11)).
Proof.
  exists (mkparser crafted_line 9 0 11 0 None). split; [vm_compute; reflexivity|].
  assert (Hp : crafted_state (mkparser crafted_line 9 0 11 0 None)) by done. revert Hp.
  generalize (mkparser crafted_line 9 0 11 0 None). intros p Hp. split.
  - intros key fuel Hk. revert p Hp. induction fuel as [|fuel IH]; intros p Hp;
      pose proof Hp as (Hm & Hb & Hr & Hw); cbn [find_loop]; rewrite decide_True by lia; [done|].
    destruct (crafted_step p Hp) as (p' & -> & Hp' & Hk'). cbn [mbind option_bind].
    set (p2 := p' <| p_val := _ |>). change (p_mem p2) with (p_mem p'). change (p_key p2) with (p_key p').
    rewrite Hk', (proj1 Hp'). change (rd crafted_line 9) with (Some 1). cbn [mbind option_bind].
    rewrite decide_False by (destruct key; simpl in *; [done|lia]). cbn [mbind option_bind].
    rewrite decide_False by done. rewrite Hw. rewrite <- (proj2 (proj2 (proj2 Hp'))). by apply (IH p2).
  - assert (Hnext : forall q, crafted_state q -> exists q', xl_next q = Some (q', Some 11) /\ crafted_state q').
    { intros q Hq. destruct (crafted_step q Hq) as (q' & E & Hq' & _). pose proof Hq as (_ & _ & Hr & Hw).
      unfold xl_next. rewrite decide_True, E by lia. cbn [mbind option_bind]. by eexists. }
    intros n. assert (H : exists p', Nat.iter n (fun s => q ← s; fst <$> xl_next q) (Some p) = Some p' /\ crafted_state p').
    { induction n as [|n (q & En & Hq)]; [by exists p|]. rewrite Nat.iter_succ, En. cbn [mbind option_bind].
      destruct (Hnext q Hq) as (q' & -> & Hq'). by exists q'. }
    destruct H as (p' & E & Hp'). exists p'. split; [done|]. destruct (Hnext p' Hp') as (q & Eq & _). by exists q.
Qed.
