(* ===== verification/Xformat.v ===== *)
(** * Printing a document: [xl_format] and [xl_printf] of [xnet/xline.h]

    [xl_printf] writes a document into a buffer on the stack, twice as large as
    the document, and hands it to the log.  The specification is the text as a
    list of pieces, one for each call of [snprintf]; the buffer takes it as long
    as no call starts behind its end. *)

From Stdlib Require Import Ascii String.
From S2P Require Import Prelude Bytes Xline Lines.

#[local] Open Scope Z_scope.
#[local] Arguments __xl_n2b _ _ : simpl never.

(** ** Text *)

Definition chars (s : string) : list Z := map (fun c => Z.of_N (N_of_ascii c)) (list_ascii_of_string s).
Definition newline : list Z := [10].

(** [%*s] and [%*ld]: spaces up to the width. *)
Definition pad (width : Z) (s : list Z) : list Z := replicate (Z.to_nat (width - Z.of_nat (List.length s))) 32 ++ s.

(** The decimal digits; a number of 64 bits has at most 20. *)
Fixpoint digits (fuel : nat) (n : Z) : list Z :=
  match fuel with
  | O => []
  | S fuel => (if decide (n < 10) then [] else digits fuel (n / 10)) ++ [48 + n mod 10]
  end.
Definition dec_u (n : Z) : list Z := digits 20 n.
Definition dec (i : Z) : list Z := if decide (i < 0) then 45 :: dec_u (- i) else dec_u i.

(** ** Writing into a buffer

    [b_pos] counts what has been printed, also what did not fit. *)
Record printout := mkprintout { b_buf : list Z; b_pos : Z }.

(** [*pos += snprintf(buf + *pos, size - *pos, text)]: the text and its
    terminator as far as there is room for [size - *pos] bytes, a [size_t]. *)
Definition snprintf (size : Z) (text : list Z) (b : printout) : option printout :=
  let n := u64 (size - b_pos b) in
  let len := Z.of_nat (List.length text) in
  buf ← (if decide (n = 0) then Some (b_buf b)
         else wr_range (b_buf b) (b_pos b) ((if decide (len < n) then text else take (Z.to_nat (n - 1)) text) ++ [0]));
  Some (mkprintout buf (u64 (b_pos b + len))).

Section Format.
(** [%lf] of a double, and the size of the buffer. *)
Context (show_double : Z -> list Z) (size : Z).

(** [%*s: ...,]: one field of a document. *)
Definition field_line (depth : Z) (key text : list Z) : list Z :=
  pad (depth * 4) key ++ chars ": " ++ text ++ chars "," ++ newline.
Definition elem_line (width : Z) (text : list Z) : list Z :=
  chars "    " ++ pad (width * 4) text ++ chars "," ++ newline.

Definition size_text (n : Z) : list Z := chars "size[" ++ dec_u n ++ chars "]".
Definition bin_line : list Z := chars "    bin," ++ newline.

Definition open_text (depth : Z) (key : list Z) : list Z :=
  if decide (depth = 1) then chars "{" ++ newline
  else if decide (key = []) then pad (depth * 4) [] ++ chars "{" ++ newline
  else pad (depth * 4) key ++ chars ": {" ++ newline.
Definition close_text (depth : Z) : list Z :=
  if decide (depth = 1) then pad 0 [] ++ chars "}" ++ newline else pad (depth * 4) [] ++ chars "}," ++ newline.
Definition open_list_text (depth : Z) (key : list Z) : list Z := pad ((depth + 1) * 4) key ++ chars ": [" ++ newline.
Definition close_list_text (depth : Z) : list Z := chars "  " ++ pad (depth * 4) [] ++ chars "]," ++ newline.

Definition out (text : list Z) (b : printout) : option printout := snprintf size text b.

(** One field; [object] and [elems] print what is below it. *)
Definition format_field (object : Z -> list Z -> printout -> option printout) (elems : xparser -> printout -> option printout)
    (parser : xparser) (xl : Z) (depth : Z) (b : printout) : option printout :=
  let m := p_mem parser in
  let key := read_key m (p_key parser) in
  ty ← rd m xl;
  if decide (ty = XLINE_TYPE_INT) then k ← key; i ← __xl_b2i m xl; out (field_line (depth + 1) k (dec i)) b
  else if decide (ty = XLINE_TYPE_UINT) then
    k ← key; i ← __xl_b2i m xl; out (field_line (depth + 1) k (dec_u (u64 i))) b
  else if decide (ty = XLINE_TYPE_REAL) then
    k ← key; x ← __xl_b2f m xl; out (field_line (depth + 1) k (show_double x)) b
  else if decide (ty = XLINE_TYPE_STR) then
    k ← key; s ← read_key m (__xl_l2b xl); out (field_line (depth + 1) k s) b
  else if decide (ty = XLINE_TYPE_BIN) then
    k ← key; n ← __xl_sizeof_body m xl; out (field_line (depth + 1) k (size_text n)) b
  else if decide (ty = XLINE_TYPE_OBJ) then k ← key; object xl k b
  else if decide (ty = XLINE_TYPE_LIST) then
    k ← key;
    b ← out (open_list_text depth k) b;
    xllist ← xl_parser m xl;
    b ← elems xllist b;
    out (close_list_text depth) b
  else Some b.

(** One element of a list; a list in a list is left out. *)
Definition format_elem (object : Z -> printout -> option printout) (m : list Z) (xl : Z) (depth : Z) (b : printout) : option printout :=
  ty ← rd m xl;
  if decide (ty = XLINE_TYPE_INT) then i ← __xl_b2i m xl; out (elem_line (depth + 1) (dec i)) b
  else if decide (ty = XLINE_TYPE_UINT) then n ← __xl_b2u m xl; out (elem_line (depth + 1) (dec_u n)) b
  else if decide (ty = XLINE_TYPE_REAL) then x ← __xl_b2f m xl; out (elem_line (depth + 1) (show_double x)) b
  else if decide (ty = XLINE_TYPE_STR) then s ← read_key m (__xl_l2b xl); out (elem_line (depth + 1) s) b
  else if decide (ty = XLINE_TYPE_BIN) then out bin_line b
  else if decide (ty = XLINE_TYPE_OBJ) then object xl b
  else Some b.

(** [fuel] bounds the depth and the number of fields.  A list at the outermost
    level is printed with the key [NULL], which [%s] does not take. *)
Fixpoint xl_format (fuel : nat) (m : list Z) (xl : Z) (key : list Z) (depth : Z) (b : printout) : option printout :=
  match fuel with
  | O => None
  | S fuel =>
      parser ← xl_parser m xl;
      b ← out (open_text depth key) b;
      ty ← rd m xl;
      b ← (if decide (ty = XLINE_TYPE_OBJ) then format_fields fuel parser depth b
           else if decide (ty = XLINE_TYPE_LIST) then None
           else Some b);
      out (close_text depth) b
  end
(** [while ((xl = xl_next(&parser)) != NULL)] *)
with format_fields (fuel : nat) (parser : xparser) (depth : Z) (b : printout) : option printout :=
  match fuel with
  | O => None
  | S fuel =>
      '(parser, xl) ← xl_next parser;
      match xl with
      | None => Some b
      | Some xl =>
          b ← format_field (fun xl k b => xl_format fuel (p_mem parser) xl k (depth + 1) b)
                (fun xllist b => format_elems fuel xllist depth b) parser xl depth b;
          format_fields fuel parser depth b
      end
  end
(** [while ((xl = xl_list_next(&xllist)) != NULL)] *)
with format_elems (fuel : nat) (xllist : xparser) (depth : Z) (b : printout) : option printout :=
  match fuel with
  | O => None
  | S fuel =>
      '(xllist, xl) ← xl_list_next xllist;
      match xl with
      | None => Some b
      | Some xl =>
          b ← format_elem (fun xl b => xl_format fuel (p_mem xllist) xl [] (depth + 1) b) (p_mem xllist) xl depth b;
          format_elems fuel xllist depth b
      end
  end.

Lemma xl_format_eq fuel m xl key depth b : xl_format (S fuel) m xl key depth b =
  (parser ← xl_parser m xl; b ← out (open_text depth key) b; ty ← rd m xl;
   b ← (if decide (ty = XLINE_TYPE_OBJ) then format_fields fuel parser depth b
        else if decide (ty = XLINE_TYPE_LIST) then None else Some b);
   out (close_text depth) b).
Proof. done. Qed.

Lemma format_fields_eq fuel parser depth b : format_fields (S fuel) parser depth b =
  ('(parser, xl) ← xl_next parser;
   match xl with
   | None => Some b
   | Some xl =>
       b ← format_field (fun xl k b => xl_format fuel (p_mem parser) xl k (depth + 1) b)
             (fun xllist b => format_elems fuel xllist depth b) parser xl depth b;
       format_fields fuel parser depth b
   end).
Proof. done. Qed.

Lemma format_elems_eq fuel xllist depth b : format_elems (S fuel) xllist depth b =
  ('(xllist, xl) ← xl_list_next xllist;
   match xl with
   | None => Some b
   | Some xl =>
       b ← format_elem (fun xl b => xl_format fuel (p_mem xllist) xl [] (depth + 1) b) (p_mem xllist) xl depth b;
       format_elems fuel xllist depth b
   end).
Proof. done. Qed.
End Format.

(** [xl_printf]: the text that goes to the log, if it is short enough.  The
    bytes of the buffer are arbitrary. *)
Definition xl_printf (show_double : Z -> list Z) (m : list Z) (xl : Z) : option (option (list Z)) :=
  line ← __xl_sizeof_line m xl;
  let len := u64 (line * 2) in
  b ← xl_format show_double len (S (List.length m)) m xl [] 1 (mkprintout (replicate (Z.to_nat len) 170) 0);
  if decide (b_pos b < 1024 * 1024) then text ← read_key (b_buf b) 0; Some (Some text) else Some None.

(** ** What is printed

    The pieces of a value below a key, at the depth of the fields around it;
    without a key the value is an element of a list. *)
Section Layout.
Context (show_double : Z -> list Z).

(** A string up to its terminator. *)
Fixpoint c_string (s : list Z) : list Z :=
  match s with [] => [] | c :: s => if decide (c = 0) then [] else c :: c_string s end.

Definition scalar (d : Z) (key : option (list Z)) (text : list Z) : list (list Z) :=
  match key with Some k => [field_line d k text] | None => [elem_line d text] end.

Fixpoint pieces (d : Z) (key : option (list Z)) (v : value) : list (list Z) :=
  match v with
  | VInt i => scalar d key (dec i)
  | VUint n => scalar d key (dec_u n)
  | VReal x => scalar d key (show_double x)
  | VStr s => scalar d key (c_string s)
  | VBin b => match key with Some k => [field_line d k (size_text (Z.of_nat (List.length b)))] | None => [bin_line] end
  | VObj fs =>
      open_text d (default [] key) :: concat (map (fun '(k, v) => pieces (d + 1) (Some k) v) fs) ++ [close_text d]
  | VList vs =>
      match key with
      | Some k => open_list_text (d - 1) k :: concat (map (pieces d None) vs) ++ [close_list_text (d - 1)]
      | None => []
      end
  end.

Definition field_pieces (d : Z) (fs : list (list Z * value)) : list (list Z) :=
  concat (map (fun '(k, v) => pieces (d + 1) (Some k) v) fs).
Definition elem_pieces (d : Z) (vs : list value) : list (list Z) := concat (map (pieces (d + 1) None) vs).

(** The text of a document. *)
Definition layout (fs : list (list Z * value)) : list Z := concat (pieces 1 None (VObj fs)).
End Layout.

(** Strings are only printed up to a terminator, so they must have one. *)
Fixpoint printable (v : value) : Prop :=
  match v with
  | VStr s => 0 ∈ s
  | VObj fs => (fix go fs := match fs with [] => True | (_, v) :: fs => printable v /\ go fs end) fs
  | VList vs => (fix go vs := match vs with [] => True | v :: vs => printable v /\ go vs end) vs
  | _ => True
  end.

Lemma printable_obj fs : printable (VObj fs) <-> Forall (fun f => printable f.2) fs.
Proof. induction fs as [|[k v] fs IH]; [by split|]. rewrite Forall_cons, <- IH. done. Qed.

Lemma printable_list vs : printable (VList vs) <-> Forall printable vs.
Proof. induction vs as [|v vs IH]; [by split|]. rewrite Forall_cons, <- IH. done. Qed.

(** ** The calls of [snprintf] are the pieces *)

Fixpoint print_all (size : Z) (l : list (list Z)) (b : printout) : option printout :=
  match l with [] => Some b | x :: l => b ← snprintf size x b; print_all size l b end.

Lemma print_all_app size l l' b : print_all size (l ++ l') b = (b ← print_all size l b; print_all size l' b).
Proof. revert b. induction l as [|x l IH]; intros b; [done|]. simpl. destruct (snprintf size x b); simpl; [apply IH|done]. Qed.

Lemma print_cons size x l b : print_all size (x :: l) b = (b ← snprintf size x b; print_all size l b).
Proof. done. Qed.

Lemma print_one size x b : print_all size [x] b = snprintf size x b.
Proof. simpl. by destruct (snprintf size x b). Qed.

Lemma c_string_split s : 0 ∈ s -> exists r, s = c_string s ++ 0 :: r /\ Forall (fun c => c ≠ 0) (c_string s).
Proof.
  induction s as [|c s IH]; [by intros ?%elem_of_nil|]. intros H. simpl. case_decide as Hc.
  - exists s. by subst.
  - apply elem_of_cons in H as [?|H]; [by subst|]. destruct (IH H) as (r & E & F). exists r.
    split; [by rewrite E at 1|by constructor].
Qed.

Lemma read_c_string m o s : lies m o s -> 0 ∈ s -> read_key m o = Some (c_string s).
Proof.
  intros H (r & E & F)%c_string_split. apply read_key_ok; [|done].
  rewrite E in H. change (0 :: r) with ([0] ++ r) in H. rewrite app_assoc in H. by apply lies_app in H as [H _].
Qed.

Section FormatOk.
Context (show_double : Z -> list Z) (size : Z).
(** The parser [p] stands before [bs] and the body ends behind them. *)
Definition before (p : xparser) (bs : list Z) : Prop :=
  lies (p_mem p) (p_ptr p + p_rpos p) bs /\ 0 <= p_rpos p
  /\ p_rpos p + Z.of_nat (List.length bs) = p_wpos p /\ p_wpos p < 2 ^ 63.

Definition prints (v : value) : Prop :=
  match v with
  | VObj fs => forall fuel m o key d b, lies m o (enc (VObj fs)) -> Z.of_nat (List.length (enc (VObj fs))) < 2 ^ 63 ->
      (List.length (enc (VObj fs)) <= fuel)%nat ->
      xl_format show_double size fuel m o key d b = print_all size (pieces show_double d (Some key) (VObj fs)) b
  | VList vs => forall fuel p d b, before p (concat (map enc vs)) -> (List.length (concat (map enc vs)) < fuel)%nat ->
      format_elems show_double size fuel p d b = print_all size (elem_pieces show_double d vs) b
  | _ => True
  end.

Lemma elem_pieces_cons d v vs : elem_pieces show_double d (v :: vs) = pieces show_double (d + 1) None v ++ elem_pieces show_double d vs.
Proof. done. Qed.
Lemma field_pieces_cons d k v fs :
  field_pieces show_double d ((k, v) :: fs) = pieces show_double (d + 1) (Some k) v ++ field_pieces show_double d fs.
Proof. done. Qed.

(** Choose the branch by the type byte. *)
Ltac pick Ht := rewrite Ht; cbn [mbind option_bind]; repeat (rewrite decide_False by done); rewrite decide_True by done.

Lemma out_one x b : out size x b = print_all size [x] b.
Proof. by rewrite print_one. Qed.

(** One element. *)
Lemma format_elem_ok v fuel m o d b : prints v -> value_ok v -> printable v -> lies m o (enc v) ->
  Z.of_nat (List.length (enc v)) < 2 ^ 63 -> (List.length (enc v) <= fuel)%nat ->
  format_elem show_double size (fun xl b => xl_format show_double size fuel m xl [] (d + 1) b) m o d b
  = print_all size (pieces show_double (d + 1) None v) b.
Proof.
  intros Hv Hok Hp H Hl Hf. unfold format_elem. destruct v as [i|n|x|s|bs|fs|l].
  - apply line_read in H as [Ht Hn]. pick Ht. unfold __xl_b2i. rewrite Hn. cbn [mbind option_bind].
    rewrite s64_u64 by done. apply out_one.
  - apply line_read in H as [Ht Hn]. pick Ht. rewrite Hn. cbn [mbind option_bind].
    rewrite u64_small by done. apply out_one.
  - apply line_read in H as [Ht Hn]. pick Ht. unfold __xl_b2f. rewrite Hn. cbn [mbind option_bind].
    rewrite u64_small by done. apply out_one.
  - cbn [enc] in *. pick (enc_body_type _ _ _ _ H). destruct (body_size _ _ _ _ H) as (_ & Hs & _);
      [done|rewrite enc_body_length in *; lia|]. rewrite (read_c_string _ _ _ Hs) by done. apply out_one.
  - cbn [enc] in *. pick (enc_body_type _ _ _ _ H). apply out_one.
  - pose proof H as Ht. rewrite enc_obj in Ht. pick (enc_body_type _ _ _ _ Ht).
    by rewrite (Hv fuel _ _ [] (d + 1) b H).
  - cbn [enc] in *. by rewrite (enc_body_type _ _ _ _ H).
Qed.

Lemma format_elems_ok vs : Forall prints vs -> Forall value_ok vs -> Forall printable vs ->
  forall fuel p d b, before p (concat (map enc vs)) -> (List.length (concat (map enc vs)) < fuel)%nat ->
  format_elems show_double size fuel p d b = print_all size (elem_pieces show_double d vs) b.
Proof.
  induction vs as [|v vs IH]; intros Hp Hok Hs fuel p d b (H & Hr & Hw & Hb) Hf; (destruct fuel as [|fuel]; [lia|]);
    rewrite format_elems_eq; unfold xl_list_next.
  { rewrite decide_False by (simpl in Hw; lia). done. }
  apply Forall_cons in Hp as [Hv Hp]. apply Forall_cons in Hok as [Hvok Hok]. apply Forall_cons in Hs as [Hvs Hs].
  cbn [map concat] in *. rewrite length_app in *. pose proof (enc_nonempty v).
  apply lies_app in H as [H1 H2]. rewrite decide_True by lia.
  rewrite (enc_size _ _ _ H1) by lia. cbn [mbind option_bind]. rewrite u64_small by lia.
  set (p' := p <| p_rpos := _ |>). change (p_mem p') with (p_mem p).
  rewrite elem_pieces_cons, print_all_app, (format_elem_ok v) by (done || lia).
  destruct (print_all size (pieces show_double (d + 1) None v) b) as [b'|]; [|done]. cbn [mbind option_bind].
  apply IH; [done..| |lia]. split; [|split_and!; simpl; lia]. simpl. by rewrite Z.add_assoc.
Qed.

(** One field. *)
Lemma format_field_ok k v fuel p o d b : prints v -> value_ok v -> printable v -> lies (p_mem p) o (enc v) ->
  read_key (p_mem p) (p_key p) = Some k -> Z.of_nat (List.length (enc v)) < 2 ^ 63 -> (List.length (enc v) <= fuel)%nat ->
  format_field show_double size (fun xl k b => xl_format show_double size fuel (p_mem p) xl k (d + 1) b)
    (fun xllist b => format_elems show_double size fuel xllist d b) p o d b
  = print_all size (pieces show_double (d + 1) (Some k) v) b.
Proof.
  intros Hv Hok Hp H Hk Hl Hf. unfold format_field. rewrite Hk. destruct v as [i|n|x|s|bs|fs|l].
  - apply line_read in H as [Ht Hn]. pick Ht. unfold __xl_b2i. rewrite Hn. cbn [mbind option_bind].
    rewrite s64_u64 by done. apply out_one.
  - apply line_read in H as [Ht Hn]. pick Ht. unfold __xl_b2i. rewrite Hn. cbn [mbind option_bind].
    rewrite out_one. cbn [pieces scalar]. do 4 f_equal. unfold u64, s64, swrap, wrap in *.
    rewrite Zminus_mod_idemp_l, Z.add_simpl_r, Zmod_mod. by apply Z.mod_small.
  - apply line_read in H as [Ht Hn]. pick Ht. unfold __xl_b2f. rewrite Hn. cbn [mbind option_bind].
    rewrite u64_small by done. apply out_one.
  - cbn [enc] in *. pick (enc_body_type _ _ _ _ H). destruct (body_size _ _ _ _ H) as (_ & Hs & _);
      [done|rewrite enc_body_length in *; lia|]. rewrite (read_c_string _ _ _ Hs) by done. apply out_one.
  - cbn [enc] in *. pick (enc_body_type _ _ _ _ H). destruct (body_size _ _ _ _ H) as (-> & _);
      [done|rewrite enc_body_length in *; lia|]. apply out_one.
  - pose proof H as Ht. rewrite enc_obj in Ht. pick (enc_body_type _ _ _ _ Ht).
    by rewrite (Hv fuel _ _ k (d + 1) b H).
  - cbn [enc] in *. pick (enc_body_type _ _ _ _ H). rewrite enc_body_length in *.
    destruct (parser_ok _ _ _ _ H) as (q & -> & Hm & Hr & Hw & _ & Hb); [done|lia|]. cbn [mbind option_bind pieces].
    rewrite Z.add_simpl_r.
    change (concat (map (pieces show_double (d + 1) None) l)) with (elem_pieces show_double d l).
    rewrite print_cons. unfold out.
    destruct (snprintf size (open_list_text d k) b) as [b'|]; [|done]. cbn [mbind option_bind].
    rewrite print_all_app. rewrite (Hv fuel q d b'); [|split_and!; [by rewrite Hm, Hr, Z.add_0_r|lia..]|lia].
    destruct (print_all size (elem_pieces show_double d l) b'); [|done]. apply out_one.
Qed.

Lemma format_fields_ok fs : Forall (fun f => prints f.2) fs -> Forall field_ok fs -> Forall (fun f => printable f.2) fs ->
  forall fuel p d b, before p (enc_fields fs) -> (List.length (enc_fields fs) < fuel)%nat ->
  format_fields show_double size fuel p d b = print_all size (field_pieces show_double d fs) b.
Proof.
  induction fs as [|[k v] fs IH]; intros Hp Hok Hs fuel p d b (H & Hr & Hw & Hb) Hf; (destruct fuel as [|fuel]; [lia|]);
    rewrite format_fields_eq.
  { unfold xl_next. rewrite decide_False by (simpl in Hw; lia). done. }
  apply Forall_cons in Hp as [Hv Hp]. apply Forall_cons in Hok as [[Hk Hvok] Hok]. apply Forall_cons in Hs as [Hvs Hs].
  cbn [fst snd] in *. change (enc_fields ((k, v) :: fs)) with (enc_field (k, v) ++ enc_fields fs) in *.
  rewrite length_app in *. pose proof (enc_field_length (k, v)) as Hfl. cbn [fst snd] in Hfl.
  apply lies_app in H as [H1 H2].
  destruct (step_field_ok p k v) as (_ & Hkey & Hval & _); [done|done|lia|].
  rewrite (xl_next_ok p k v H1) by lia. cbn [mbind option_bind].
  set (p' := mkparser _ _ _ _ _ _). rewrite field_pieces_cons, print_all_app.
  rewrite (format_field_ok k v fuel p' _ d b); [|done|done|done|exact Hval|by apply read_key_ok, key_nonzero|lia|lia].
  destruct (print_all size (pieces show_double (d + 1) (Some k) v) b) as [b'|]; [|done]. cbn [mbind option_bind].
  apply IH; [done..| |lia]. unfold before, p'. cbn [p_mem p_ptr p_rpos p_wpos]. split; [by rewrite Z.add_assoc|lia].
Qed.

Lemma prints_ok v : value_ok v -> printable v -> prints v.
Proof.
  induction v as [| | | | |fs IH|vs IH] using value_induction; intros Hok Hp; [done..| |].
  - intros fuel m o key d b H Hl Hf. apply value_ok_obj in Hok. apply printable_obj in Hp.
    assert (Forall (fun f => prints f.2) fs) as Hfs.
    { apply List.Forall_forall. intros f Hf'. rewrite List.Forall_forall in *. apply (IH f Hf'); [|by apply Hp].
      by apply (Hok f Hf'). }
    rewrite enc_obj, enc_body_length in *. destruct fuel as [|fuel]; [lia|]. rewrite xl_format_eq.
    destruct (parser_ok _ _ _ _ H) as (q & -> & Hm & Hr & Hw & _ & Hb); [done|lia|]. cbn [mbind option_bind pieces].
    change (concat (map _ fs)) with (field_pieces show_double d fs). cbn [default from_option id].
    rewrite print_cons. unfold out.
    destruct (snprintf size (open_text d key) b) as [b'|]; [|done]. cbn [mbind option_bind].
    rewrite (enc_body_type _ _ _ _ H). cbn [mbind option_bind]. rewrite decide_True by done. rewrite print_all_app.
    rewrite (format_fields_ok fs); [|done..|split_and!; [by rewrite Hm, Hr, Z.add_0_r|lia..]|lia].
    destruct (print_all size (field_pieces show_double d fs) b'); [|done]. apply out_one.
  - apply value_ok_list in Hok. apply printable_list in Hp. intros fuel p d b. apply format_elems_ok; [|done..].
    apply List.Forall_forall. intros v Hv. rewrite List.Forall_forall in *. by apply (IH v Hv); [apply Hok|apply Hp].
Qed.
End FormatOk.

(** ** The buffer *)

(** [t] has been printed: the buffer of [size] bytes holds as much of it as
    fits, and a terminator. *)
Definition holds (size : Z) (t : list Z) (b : printout) : Prop :=
  b_pos b = Z.of_nat (List.length t) /\ Z.of_nat (List.length (b_buf b)) = size
  /\ (t ≠ [] -> exists r, b_buf b = take (Z.to_nat (size - 1)) t ++ 0 :: r).

Lemma holds_start size c : 0 <= size -> holds size [] (mkprintout (replicate (Z.to_nat size) c) 0).
Proof. intros. split_and!; [done|cbn; rewrite length_replicate; lia|done]. Qed.

Lemma snprintf_behind size t x b : holds size t b -> 0 <= size < 2 ^ 63 -> size < Z.of_nat (List.length t) < 2 ^ 63 ->
  snprintf size x b = None.
Proof.
  intros (Hp & Hl & _) Hs Ht. unfold snprintf. rewrite Hp.
  assert (u64 (size - Z.of_nat (List.length t)) = size - Z.of_nat (List.length t) + 2 ^ 64) as ->.
  { symmetry. apply (Z.mod_unique_pos _ _ (-1)); lia. }
  rewrite decide_False by lia. unfold wr_range. rewrite decide_False; [done|]. rewrite length_app. simpl. lia.
Qed.

Lemma snprintf_at size t x b : holds size t b -> 0 < size < 2 ^ 63 -> x ≠ [] -> Z.of_nat (List.length t) <= size ->
  Z.of_nat (List.length (t ++ x)) < 2 ^ 64 ->
  exists b', snprintf size x b = Some b' /\ holds size (t ++ x) b'.
Proof.
  intros (Hp & Hl & Hb) Hs Hx Ht Hlen. rewrite length_app in Hlen.
  assert (u64 (Z.of_nat (List.length t) + Z.of_nat (List.length x)) = Z.of_nat (List.length (t ++ x))) as Hpos
    by (rewrite u64_small; rewrite ?length_app; lia).
  unfold snprintf. rewrite Hp, Hpos, u64_small by lia.
  destruct (decide (size - Z.of_nat (List.length t) = 0)) as [E|E].
  - cbn [mbind option_bind]. eexists. split; [done|]. split_and!; [done|done|].
    intros _. destruct Hb as (r & Hb); [by intros ->; simpl in *; lia|]. exists r. by rewrite take_app_le by lia.
  - set (w := if decide _ then x else _). assert (w = take (Z.to_nat (size - 1) - List.length t) x) as Hw.
    { unfold w. case_decide; [by rewrite take_ge by lia|]. f_equal. lia. }
    destruct (wr_range_is_Some (b_buf b) (Z.of_nat (List.length t)) (w ++ [0])) as (buf & Hbuf);
      [lia|rewrite Hl, Hw, length_app, length_take; simpl; lia|].
    rewrite Hbuf. cbn [mbind option_bind]. eexists. split; [done|].
    split_and!; [done|cbn; by rewrite (wr_range_length _ _ _ _ Hbuf)|].
    intros _. unfold wr_range in Hbuf. case_decide as Hd; [|done]. injection Hbuf as <-. rewrite Nat2Z.id.
    assert (take (List.length t) (b_buf b) = t) as ->.
    { destruct (decide (t = [])) as [->|Hne]; [done|]. destruct Hb as (r & ->); [done|].
      rewrite (take_ge t (Z.to_nat (size - 1))) by lia. apply take_app_length. }
    eexists. rewrite take_app, (take_ge t) by lia. rewrite <- Hw, <- app_assoc. by rewrite <- app_assoc.
Qed.

(** The calls succeed exactly when the last one does not start behind the
    buffer. *)
Lemma print_all_holds size l : Forall (fun x => x ≠ []) l -> forall t b, holds size t b -> 0 < size < 2 ^ 63 ->
  Z.of_nat (List.length (t ++ concat l)) < 2 ^ 63 -> Z.of_nat (List.length t) <= size ->
  if decide (l = [] \/ Z.of_nat (List.length (t ++ concat (removelast l))) <= size)
  then exists b', print_all size l b = Some b' /\ holds size (t ++ concat l) b'
  else print_all size l b = None.
Proof.
  induction 1 as [|x l Hx Hl IH]; intros t b Hb Hs Hlen Ht.
  { rewrite decide_True by auto. exists b. by rewrite app_nil_r. }
  simpl concat in Hlen. rewrite app_assoc in Hlen.
  assert (Z.of_nat (List.length (t ++ x)) < 2 ^ 64) as Hlx by (rewrite length_app in Hlen; lia).
  destruct (snprintf_at size t x b Hb Hs Hx Ht Hlx) as (b1 & E1 & Hb1).
  rewrite print_cons, E1. cbn [mbind option_bind].
  destruct l as [|y l]. { cbn. rewrite decide_True by (right; rewrite app_nil_r; lia). exists b1. by rewrite app_nil_r. }
  cbn [removelast concat]. change (concat (x :: removelast (y :: l))) with (x ++ concat (removelast (y :: l))).
  rewrite !(app_assoc t x).
  destruct (decide (Z.of_nat (List.length (t ++ x)) <= size)) as [Hd|Hd].
  - specialize (IH _ _ Hb1 Hs Hlen Hd).
    case_decide as D; case_decide as D'; [exact IH| | |exact IH]; exfalso.
    + destruct D as [?|D]; [done|]. apply D'. by right.
    + destruct D' as [?|D']; [done|]. apply D. by right.
  - rewrite decide_False.
    + rewrite print_cons, (snprintf_behind size (t ++ x)); [done|done|lia|].
      rewrite length_app in Hlen. lia.
    + intros [?|H]; [done|]. rewrite length_app in H. lia.
Qed.

(** ** The properties *)

Lemma field_line_ne d k x : field_line d k x ≠ [].
Proof. unfold field_line. by destruct (pad (d * 4) k). Qed.

Lemma pad_ne w s x : x ≠ [] -> pad w s ++ x ≠ [].
Proof. intros Hx [_ ?]%app_nil. done. Qed.

Lemma open_ne d k : open_text d k ≠ [].
Proof. unfold open_text. repeat case_decide; [done|by apply pad_ne..]. Qed.
Lemma close_ne d : close_text d ≠ [].
Proof. unfold close_text. case_decide; by apply pad_ne. Qed.

Lemma pieces_ne show_double v : forall d key, Forall (fun x => x ≠ []) (pieces show_double d key v).
Proof.
  assert (forall d key x, Forall (fun x => x ≠ []) (scalar d key x)) as Hs.
  { intros d [k|] x; apply Forall_singleton; [apply field_line_ne|done]. }
  induction v as [| | | |b|fs IH|vs IH] using value_induction; intros d key; cbn [pieces]; [done..|auto| | |].
  - destruct key; apply Forall_singleton; [apply field_line_ne|done].
  - constructor; [apply open_ne|]. apply Forall_app. split; [|apply Forall_singleton, close_ne].
    apply Forall_concat, Forall_map. eapply Forall_impl; [exact IH|]. intros [k v] H. apply H.
  - destruct key; [|constructor]. constructor; [by apply pad_ne|]. apply Forall_app. split; [|by apply Forall_singleton].
    apply Forall_concat, Forall_map. eapply Forall_impl; [exact IH|]. intros v H. apply H.
Qed.

(** Nothing that is printed has a terminator in it. *)
Definition clean_text (x : list Z) : Prop := Forall (fun c => c ≠ 0) x.

Lemma clean_app x y : clean_text x -> clean_text y -> clean_text (x ++ y).
Proof. intros. by apply Forall_app. Qed.
Lemma clean_pad w s : clean_text s -> clean_text (pad w s).
Proof. intros. apply clean_app; [|done]. by apply Forall_replicate. Qed.
Lemma clean_spaces w : clean_text (pad w []).
Proof. apply clean_pad. constructor. Qed.
Lemma clean_digits fuel n : 0 <= n -> clean_text (digits fuel n).
Proof.
  revert n. induction fuel as [|fuel IH]; intros n Hn; [constructor|]. simpl. apply clean_app.
  - case_decide; [constructor|]. apply IH. by apply Z.div_pos.
  - repeat constructor. pose proof (Z.mod_pos_bound n 10). lia.
Qed.
Lemma clean_dec i : clean_text (dec i).
Proof. unfold dec, dec_u. case_decide; [constructor; [done|]|]; apply clean_digits; lia. Qed.
Lemma clean_dec_u n : 0 <= n -> clean_text (dec_u n).
Proof. apply clean_digits. Qed.
Lemma clean_chars x : clean_text x <-> forallb (fun c => negb (c =? 0)) x = true.
Proof. rewrite List.forallb_forall. unfold clean_text. rewrite List.Forall_forall. split; intros H c Hc; specialize (H c Hc); lia. Qed.

Lemma clean_const x : forallb (fun c => negb (c =? 0)) x = true -> clean_text x.
Proof. apply clean_chars. Qed.

Lemma clean_field d k x : clean_text k -> clean_text x -> clean_text (field_line d k x).
Proof.
  intros. unfold field_line. apply clean_app; [by apply clean_pad|]. apply clean_app; [by apply clean_const|].
  apply clean_app; [done|by apply clean_const].
Qed.
Lemma clean_elem d x : clean_text x -> clean_text (elem_line d x).
Proof.
  intros. unfold elem_line. apply clean_app; [by apply clean_const|]. apply clean_app; [by apply clean_pad|by apply clean_const].
Qed.
Lemma clean_scalar d key x : (forall k, key = Some k -> clean_text k) -> clean_text x -> Forall clean_text (scalar d key x).
Proof. intros Hk Hx. destruct key; apply Forall_singleton; [apply clean_field; auto|by apply clean_elem]. Qed.
Lemma clean_size n : 0 <= n -> clean_text (size_text n).
Proof.
  intros. unfold size_text. apply clean_app; [by apply clean_const|]. apply clean_app; [by apply clean_dec_u|by apply clean_const].
Qed.
Lemma clean_open d k : clean_text k -> clean_text (open_text d k).
Proof.
  intros. unfold open_text. repeat case_decide; [by apply clean_const| |];
    (apply clean_app; [apply clean_pad; by try constructor|by apply clean_const]).
Qed.
Lemma clean_close d : clean_text (close_text d).
Proof. unfold close_text. case_decide; (apply clean_app; [apply clean_spaces|by apply clean_const]). Qed.

Lemma pieces_clean show_double v : (forall x, clean_text (show_double x)) -> value_ok v -> printable v ->
  forall d key, (forall k, key = Some k -> clean_text k) -> Forall clean_text (pieces show_double d key v).
Proof.
  intros Hd. induction v as [i|n|x|s|b|fs IH|vs IH] using value_induction; intros Hok Hp d key Hk; cbn [pieces].
  - apply clean_scalar; [done|apply clean_dec].
  - apply clean_scalar; [done|apply clean_dec_u, Hok].
  - apply clean_scalar; auto.
  - apply clean_scalar; [done|]. by destruct (c_string_split s Hp) as (? & _ & ?).
  - destruct key; apply Forall_singleton; [apply clean_field; [auto|apply clean_size; lia]|by apply clean_const].
  - apply value_ok_obj in Hok. apply printable_obj in Hp. constructor; [apply clean_open; destruct key; simpl; auto; constructor|].
    apply Forall_app. split; [|apply Forall_singleton, clean_close]. apply Forall_concat, Forall_map.
    rewrite List.Forall_forall in *. intros [k v] Hf. apply (IH _ Hf); [apply (Hok _ Hf)|apply (Hp _ Hf)|].
    intros k' [= <-]. by apply key_nonzero, (Hok _ Hf).
  - apply value_ok_list in Hok. apply printable_list in Hp. destruct key as [k|]; [|constructor].
    constructor; [apply clean_app; [by apply clean_pad, Hk|by apply clean_const]|].
    apply Forall_app. split; [|apply Forall_singleton, clean_app; [by apply clean_const|]; apply clean_app; [apply clean_spaces|by apply clean_const]].
    apply Forall_concat, Forall_map. rewrite List.Forall_forall in *. intros v Hv.
    apply (IH _ Hv); [apply (Hok _ Hv)|apply (Hp _ Hv)|done].
Qed.

Section Printf.
Context (show_double : Z -> list Z) (Hdouble : forall x, clean_text (show_double x)).

Lemma layout_last fs : pieces show_double 1 None (VObj fs) = (open_text 1 [] :: field_pieces show_double 1 fs) ++ [close_text 1].
Proof. done. Qed.

(** What [xl_printf] makes of a document, whatever is in it: the calls of
    [snprintf] stay within the buffer exactly when the text is at most two
    characters longer than the buffer; then the log gets the text, without
    what did not fit, unless it is longer than a megabyte.  Otherwise
    [snprintf] writes behind the buffer, which is a fault. *)
Theorem printf_prints m o fs : value_ok (VObj fs) -> printable (VObj fs) -> lies m o (enc (VObj fs)) ->
  Z.of_nat (List.length (enc (VObj fs))) < 2 ^ 62 -> Z.of_nat (List.length (layout show_double fs)) < 2 ^ 63 ->
  let size := 2 * Z.of_nat (List.length (enc (VObj fs))) in
  let text := layout show_double fs in
  xl_printf show_double m o =
    if decide (Z.of_nat (List.length text) <= size + 2)
    then Some (if decide (Z.of_nat (List.length text) < 2 ^ 20) then Some (take (Z.to_nat (size - 1)) text) else None)
    else None.
Proof using Hdouble.
  intros Hok Hp H Hl Ht size text. unfold xl_printf. rewrite (enc_size _ _ _ H) by lia. cbn [mbind option_bind].
  replace (u64 (Z.of_nat (List.length (enc (VObj fs))) * 2)) with size by (unfold size; rewrite u64_small; lia).
  assert (0 < size < 2 ^ 63) as Hs by (pose proof (enc_nonempty (VObj fs)); unfold size; lia).
  pose proof (prints_ok show_double size (VObj fs) Hok Hp) as Hprints. cbn [prints] in Hprints.
  rewrite (Hprints (S (List.length m)) m o [] 1); [|done|lia|destruct H as (a & c & -> & _); rewrite !length_app; lia].
  change (pieces show_double 1 (Some []) (VObj fs)) with (pieces show_double 1 None (VObj fs)).
  pose proof (print_all_holds size _ (pieces_ne show_double (VObj fs) 1 None) [] _ (holds_start size 170 ltac:(lia)) Hs) as Hall.
  rewrite layout_last, removelast_last in Hall. rewrite <- layout_last in Hall. cbn [app] in Hall.
  specialize (Hall Ht ltac:(simpl; lia)).
  assert (List.length text = (List.length (concat (open_text 1 [] :: field_pieces show_double 1 fs)) + 2)%nat) as Hlen.
  { unfold text, layout. rewrite layout_last, concat_app, length_app. done. }
  set (body := concat (open_text 1 [] :: field_pieces show_double 1 fs)) in *.
  fold text in Hall. change (concat (pieces show_double 1 None (VObj fs))) with text in Hall.
  destruct (decide (Z.of_nat (List.length text) <= size + 2)) as [Hd|Hd].
  - rewrite decide_True in Hall by (right; lia). destruct Hall as (b & -> & Hpos & _ & Hb). cbn [mbind option_bind].
    rewrite Hpos. change (1024 * 1024) with (2 ^ 20). case_decide as Hm; [|done].
    destruct Hb as (r & Hb); [intros E; rewrite E in Hlen; simpl in Hlen; lia|].
    rewrite (read_key_ok _ _ (take (Z.to_nat (size - 1)) text)); [done| |].
    + exists [], r. split; [|done]. by rewrite Hb, <- app_assoc.
    + apply Forall_take. pose proof (pieces_clean show_double (VObj fs) Hdouble Hok Hp 1 None ltac:(done)) as Hc.
      by apply Forall_concat.
  - rewrite decide_False in Hall by (intros [?|?]; [done|lia]). by rewrite Hall.
Qed.
End Printf.

Definition no_double (_ : Z) : list Z := chars "0.000000".

Lemma no_double_clean x : clean_text (no_double x).
Proof. by apply clean_const. Qed.

Definition flat_document : list (list Z * value) := [([97], VUint 7); ([98], VStr [104; 105; 0])].

Lemma printf_prints_witness :
  xl_printf no_double (enc (VObj flat_document)) 0
  = Some (Some (chars "{" ++ newline ++ chars "       a: 7," ++ newline ++ chars "       b: hi," ++ newline ++ chars "}" ++ newline)).
Proof.
  rewrite (printf_prints no_double no_double_clean _ 0 flat_document); [vm_compute; reflexivity| | | |vm_compute; reflexivity..].
  - repeat split; try lia; repeat constructor; unfold is_byte; lia.
  - repeat split; try done. simpl. set_solver.
  - exists [], []. split; [by rewrite app_nil_r|done].
Defined.

(** Objects in objects, [n] deep. *)
Fixpoint nest (n : nat) : list (list Z * value) := match n with O => [] | S n => [([97], VObj (nest n))] end.

Lemma nest_ok n : value_ok (VObj (nest n)) /\ printable (VObj (nest n)).
Proof.
  induction n as [|n [IH1 IH2]]; [done|]. split; [|by split]. apply value_ok_obj. repeat constructor; simpl; try lia.
  exact IH1.
Qed.

Lemma nest_size n : List.length (enc (VObj (nest n))) = (9 + 12 * n)%nat.
Proof.
  induction n as [|n IH]; [done|]. rewrite enc_obj, enc_body_length. cbn [nest]. unfold enc_fields. cbn [map concat].
  rewrite app_nil_r, enc_field_length. cbn [fst snd]. rewrite IH. simpl. lia.
Qed.

Lemma pad_length w s : List.length (pad w s) = Nat.max (Z.to_nat w) (List.length s).
Proof. unfold pad. rewrite length_app, length_replicate. lia. Qed.

Lemma nest_text show_double n : forall d, 1 <= d ->
  Z.of_nat (List.length (concat (field_pieces show_double d (nest n)))) = Z.of_nat n * (4 * Z.of_nat n + 8 * d + 11).
Proof.
  induction n as [|n IH]; intros d Hd; [done|]. cbn [nest]. rewrite field_pieces_cons. cbn [pieces field_pieces map concat].
  rewrite app_nil_r. change (concat (map _ (nest n))) with (field_pieces show_double (d + 1) (nest n)).
  cbn [concat]. rewrite concat_app. cbn [concat]. rewrite !length_app, !Nat2Z.inj_add, IH by lia.
  cbn [default from_option id]. unfold open_text, close_text. rewrite !decide_False by (done || lia).
  rewrite !length_app, !pad_length. simpl List.length. nia.
Qed.

(** A document of objects in objects, three or more deep, is one that the
    parser reads, but its text is so much longer than the document that
    [xl_printf] writes behind its buffer.  The transfer protocol prints what
    peers send. *)
Theorem printf_overflows show_double n : (forall x, clean_text (show_double x)) -> (3 <= n)%nat -> Z.of_nat n < 2 ^ 29 ->
  let m := enc (VObj (nest n)) in
  read_value (List.length m) m 0 = Some (VObj (nest n)) /\ xl_printf show_double m 0 = None.
Proof.
  intros Hd Hn Hb m. destruct (nest_ok n) as [Hok Hp]. pose proof (nest_size n) as Hs.
  assert (lies m 0 (enc (VObj (nest n)))) as H by (exists [], []; split; [by rewrite app_nil_r|done]).
  split; [apply read_ok; [done|done|lia|done]|].
  assert (Z.of_nat (List.length (layout show_double (nest n))) = 4 + Z.of_nat n * (4 * Z.of_nat n + 19)) as Ht.
  { unfold layout. rewrite layout_last, concat_app, length_app. cbn [concat]. rewrite length_app, !Nat2Z.inj_add, nest_text by lia.
    change (List.length (open_text 1 [])) with 2%nat. change (List.length (close_text 1 ++ [])) with 2%nat. lia. }
  rewrite (printf_prints show_double Hd m 0 (nest n)); [|done|done|done|lia|rewrite Ht; nia].
  rewrite decide_False; [done|]. rewrite Ht, Hs. nia.
Qed.

Lemma printf_overflows_witness :
  let m := enc (VObj (nest 3)) in
  read_value (List.length m) m 0 = Some (VObj (nest 3)) /\ xl_printf no_double m 0 = None.
Proof. apply (printf_overflows no_double 3); [apply no_double_clean|lia|lia]. Defined.
