(* ===== verification/Avl.v ===== *)
(** * The balanced tree of [xlib/avlmini.c]

    The nodes live in a store; a pointer is a [positive] or, where it may be
    [NULL], an [option positive].  The user data a node is embedded in is
    identified with the node, so that [AVL_NODE2DATA] and [AVL_DATA2NODE] are
    the identity.  Reading or writing through a pointer that is not in the store
    is a fault, and so is a loop that makes more turns than there are nodes. *)

From S2P Require Import Prelude.

Record avl_node := mknode {
  n_left : option positive; n_right : option positive; n_parent : option positive; n_height : Z;
}.

#[export] Instance eta_avl_node : Settable avl_node := fun n =>
  mknode (n_left n) (n_right n) (n_parent n) (n_height n).

(** The store and the pointer in [struct avl_root]. *)
Record avl := mkavl { a_nodes : gmap positive avl_node; a_root : option positive }.

#[export] Instance eta_avl : Settable avl := fun a => mkavl (a_nodes a) (a_root a).

Definition get (p : positive) (st : avl) : option avl_node := a_nodes st !! p.

Definition upd (p : positive) (f : avl_node -> avl_node) (st : avl) : option avl :=
  n ← get p st; Some (st <| a_nodes := <[p := f n]> (a_nodes st) |>).

Definition fuel_of (st : avl) : nat := S (size (a_nodes st)).

(** ** Walking *)

Fixpoint go_left (fuel : nat) (p : positive) (st : avl) : option positive :=
  match fuel with
  | O => None
  | S fuel => n ← get p st; match n_left n with Some l => go_left fuel l st | None => Some p end
  end.

Fixpoint go_right (fuel : nat) (p : positive) (st : avl) : option positive :=
  match fuel with
  | O => None
  | S fuel => n ← get p st; match n_right n with Some r => go_right fuel r st | None => Some p end
  end.

Definition avl_node_first (st : avl) : option (option positive) :=
  match a_root st with None => Some None | Some p => Some <$> go_left (fuel_of st) p st end.

Definition avl_node_last (st : avl) : option (option positive) :=
  match a_root st with None => Some None | Some p => Some <$> go_right (fuel_of st) p st end.

(** Up until coming from a left child. *)
Fixpoint up_from_left (fuel : nat) (last : positive) (st : avl) : option (option positive) :=
  match fuel with
  | O => None
  | S fuel =>
      n ← get last st;
      match n_parent n with
      | None => Some None
      | Some p => m ← get p st; if decide (n_left m = Some last) then Some (Some p) else up_from_left fuel p st
      end
  end.

Fixpoint up_from_right (fuel : nat) (last : positive) (st : avl) : option (option positive) :=
  match fuel with
  | O => None
  | S fuel =>
      n ← get last st;
      match n_parent n with
      | None => Some None
      | Some p => m ← get p st; if decide (n_right m = Some last) then Some (Some p) else up_from_right fuel p st
      end
  end.

Definition avl_node_next (node : option positive) (st : avl) : option (option positive) :=
  match node with
  | None => Some None
  | Some p =>
      n ← get p st;
      match n_right n with
      | Some r => Some <$> go_left (fuel_of st) r st
      | None => up_from_left (fuel_of st) p st
      end
  end.

Definition avl_node_prev (node : option positive) (st : avl) : option (option positive) :=
  match node with
  | None => Some None
  | Some p =>
      n ← get p st;
      match n_left n with
      | Some l => Some <$> go_right (fuel_of st) l st
      | None => up_from_right (fuel_of st) p st
      end
  end.

(** ** Rotations *)

Definition _avl_child_replace (oldnode newnode parent : option positive) (st : avl) : option avl :=
  match parent with
  | Some p =>
      n ← get p st;
      if decide (n_left n = oldnode) then upd p (fun n => n <| n_left := newnode |>) st
      else upd p (fun n => n <| n_right := newnode |>) st
  | None => Some (st <| a_root := newnode |>)
  end.

Definition set_parent (p : option positive) (parent : option positive) (st : avl) : option avl :=
  match p with Some p => upd p (fun n => n <| n_parent := parent |>) st | None => Some st end.

Definition _avl_node_rotate_left (node : positive) (st : avl) : option (avl * positive) :=
  n ← get node st;
  right ← n_right n;
  let parent := n_parent n in
  r ← get right st;
  st ← upd node (fun n => n <| n_right := n_left r |>) st;
  r ← get right st;
  st ← set_parent (n_left r) (Some node) st;
  st ← upd right (fun n => n <| n_left := Some node |>) st;
  st ← upd right (fun n => n <| n_parent := parent |>) st;
  st ← _avl_child_replace (Some node) (Some right) parent st;
  st ← upd node (fun n => n <| n_parent := Some right |>) st;
  Some (st, right).

Definition _avl_node_rotate_right (node : positive) (st : avl) : option (avl * positive) :=
  n ← get node st;
  left ← n_left n;
  let parent := n_parent n in
  l ← get left st;
  st ← upd node (fun n => n <| n_left := n_right l |>) st;
  l ← get left st;
  st ← set_parent (n_right l) (Some node) st;
  st ← upd left (fun n => n <| n_right := Some node |>) st;
  st ← upd left (fun n => n <| n_parent := parent |>) st;
  st ← _avl_child_replace (Some node) (Some left) parent st;
  st ← upd node (fun n => n <| n_parent := Some left |>) st;
  Some (st, left).

Definition avl_node_replace (victim newnode : positive) (st : avl) : option avl :=
  v ← get victim st;
  let parent := n_parent v in
  st ← _avl_child_replace (Some victim) (Some newnode) parent st;
  v ← get victim st;
  st ← set_parent (n_left v) (Some newnode) st;
  v ← get victim st;
  st ← set_parent (n_right v) (Some newnode) st;
  v ← get victim st;
  upd newnode (fun n => n <| n_left := n_left v |> <| n_right := n_right v |>
                          <| n_parent := n_parent v |> <| n_height := n_height v |>) st.

(** ** Balancing *)

Definition AVL_MAX (x y : Z) : Z := if decide (x < y) then y else x.

Definition height_of (p : option positive) (st : avl) : option Z :=
  match p with Some p => n ← get p st; Some (n_height n) | None => Some 0 end.
Definition AVL_LEFT_HEIGHT (p : positive) (st : avl) : option Z := n ← get p st; height_of (n_left n) st.
Definition AVL_RIGHT_HEIGHT (p : positive) (st : avl) : option Z := n ← get p st; height_of (n_right n) st.

Definition set_height (p : positive) (h : Z) : avl -> option avl := upd p (fun n => n <| n_height := h |>).

Definition _avl_node_height_update (p : positive) (st : avl) : option avl :=
  h0 ← AVL_LEFT_HEIGHT p st;
  h1 ← AVL_RIGHT_HEIGHT p st;
  set_height p (AVL_MAX h0 h1 + 1) st.

Definition update_left (p : positive) (st : avl) : option avl :=
  n ← get p st; l ← n_left n; _avl_node_height_update l st.
Definition update_right (p : positive) (st : avl) : option avl :=
  n ← get p st; r ← n_right n; _avl_node_height_update r st.

Definition _avl_node_fix_l (node : positive) (st : avl) : option (avl * positive) :=
  n ← get node st;
  right ← n_right n;
  rh0 ← AVL_LEFT_HEIGHT right st;
  rh1 ← AVL_RIGHT_HEIGHT right st;
  st ← (if decide (rh0 > rh1) then
          '(st, right) ← _avl_node_rotate_right right st;
          st ← update_right right st;
          _avl_node_height_update right st
        else Some st);
  '(st, node) ← _avl_node_rotate_left node st;
  st ← update_left node st;
  st ← _avl_node_height_update node st;
  Some (st, node).

Definition _avl_node_fix_r (node : positive) (st : avl) : option (avl * positive) :=
  n ← get node st;
  left ← n_left n;
  rh0 ← AVL_LEFT_HEIGHT left st;
  rh1 ← AVL_RIGHT_HEIGHT left st;
  st ← (if decide (rh0 < rh1) then
          '(st, left) ← _avl_node_rotate_left left st;
          st ← update_left left st;
          _avl_node_height_update left st
        else Some st);
  '(st, node) ← _avl_node_rotate_right node st;
  st ← update_right node st;
  st ← _avl_node_height_update node st;
  Some (st, node).

Definition fix_node (diff : Z) (node : positive) (st : avl) : option (avl * positive) :=
  if decide (diff <= -2) then _avl_node_fix_l node st
  else if decide (diff >= 2) then _avl_node_fix_r node st
  else Some (st, node).

Fixpoint _avl_node_rebalance (fuel : nat) (node : option positive) (st : avl) : option avl :=
  match node with
  | None => Some st
  | Some p =>
      match fuel with
      | O => None
      | S fuel =>
          h0 ← AVL_LEFT_HEIGHT p st;
          h1 ← AVL_RIGHT_HEIGHT p st;
          let diff := h0 - h1 in
          let height := AVL_MAX h0 h1 + 1 in
          n ← get p st;
          if decide (n_height n = height /\ (diff >= -1 /\ diff <= 1)) then Some st
          else
            st ← (if decide (n_height n ≠ height) then set_height p height st else Some st);
            '(st, p) ← fix_node diff p st;
            n ← get p st;
            _avl_node_rebalance fuel (n_parent n) st
      end
  end.

Fixpoint insert_loop (fuel : nat) (node : option positive) (st : avl) : option avl :=
  match node with
  | None => Some st
  | Some p =>
      match fuel with
      | O => None
      | S fuel =>
          h0 ← AVL_LEFT_HEIGHT p st;
          h1 ← AVL_RIGHT_HEIGHT p st;
          let height := AVL_MAX h0 h1 + 1 in
          let diff := h0 - h1 in
          n ← get p st;
          if decide (n_height n = height) then Some st
          else
            st ← set_height p height st;
            '(st, p) ← fix_node diff p st;
            n ← get p st;
            insert_loop fuel (n_parent n) st
      end
  end.

Definition avl_node_post_insert (node : positive) (st : avl) : option avl :=
  st ← set_height node 1 st;
  n ← get node st;
  insert_loop (fuel_of st) (n_parent n) st.

(** The successor [node] takes the place of [old]. *)
Definition take_place (old node : positive) (st : avl) : option avl :=
  o ← get old st;
  st ← upd node (fun n => n <| n_left := n_left o |> <| n_right := n_right o |>
                            <| n_parent := n_parent o |> <| n_height := n_height o |>) st;
  o ← get old st;
  st ← _avl_child_replace (Some old) (Some node) (n_parent o) st;
  o ← get old st;
  l ← n_left o;
  st ← set_parent (Some l) (Some node) st;
  o ← get old st;
  set_parent (n_right o) (Some node) st.

Definition avl_node_erase (node : positive) (st : avl) : option avl :=
  n ← get node st;
  '(st, parent) ←
    match n_left n, n_right n with
    | Some _, Some rt =>
        let old := node in
        node ← go_left (fuel_of st) rt st;
        n ← get node st;
        let child := n_right n in
        let parent := n_parent n in
        st ← set_parent child parent st;
        st ← _avl_child_replace (Some node) child parent st;
        n ← get node st;
        let parent := if decide (n_parent n = Some old) then Some node else parent in
        st ← take_place old node st;
        Some (st, parent)
    | l, r =>
        let child := match l with None => r | Some _ => l end in
        let parent := n_parent n in
        st ← _avl_child_replace (Some node) child parent st;
        st ← set_parent child parent st;
        Some (st, parent)
    end;
  _avl_node_rebalance (fuel_of st) parent st.

(** ** Tearing down *)

Fixpoint sink (fuel : nat) (p : positive) (st : avl) : option positive :=
  match fuel with
  | O => None
  | S fuel =>
      n ← get p st;
      match n_left n, n_right n with
      | Some l, _ => sink fuel l st
      | None, Some r => sink fuel r st
      | None, None => Some p
      end
  end.

(** The state, the leaf that was torn off, and the new [*next]. *)
Definition avl_node_tear (next : option positive) (st : avl)
  : option (avl * option positive * option positive) :=
  match (match next with Some p => Some p | None => a_root st end) with
  | None => Some (st, None, next)
  | Some p =>
      node ← sink (fuel_of st) p st;
      n ← get node st;
      match n_parent n with
      | None => Some (st <| a_root := None |>, Some node, None)
      | Some parent =>
          m ← get parent st;
          st ← (if decide (n_left m = Some node) then upd parent (fun n => n <| n_left := None |>) st
                else upd parent (fun n => n <| n_right := None |>) st);
          st ← set_height node 0 st;
          Some (st, Some node, Some parent)
      end
  end.

(** ** The easy interface *)

Record avl_tree := mktree { t_avl : avl; t_count : Z }.

Definition avl_node_init (node : positive) : avl -> option avl := upd node (fun n => n <| n_parent := Some node |>).

Definition avl_node_empty (node : positive) (st : avl) : option bool :=
  n ← get node st; Some (bool_decide (n_parent n = Some node)).

(** A new tree over a store of nodes. *)
Definition avl_tree_init (nodes : gmap positive avl_node) : avl_tree := mktree (mkavl nodes None) 0.

Definition avl_tree_first (t : avl_tree) := avl_node_first (t_avl t).
Definition avl_tree_last (t : avl_tree) := avl_node_last (t_avl t).
Definition avl_tree_next (t : avl_tree) (data : option positive) := avl_node_next data (t_avl t).
Definition avl_tree_prev (t : avl_tree) (data : option positive) := avl_node_prev data (t_avl t).

Section Compare.
(** The comparison functions of the tree; what [find] compares may be a key
    rather than a node. *)
Context {key : Type} (compare : positive -> positive -> Z) (find_compare : key -> positive -> Z).

Fixpoint find_loop (fuel : nat) (data : key) (n : option positive) (st : avl) : option (option positive) :=
  match n with
  | None => Some None
  | Some p =>
      match fuel with
      | O => None
      | S fuel =>
          m ← get p st;
          let hr := find_compare data p in
          if decide (hr = 0) then Some (Some p)
          else if decide (hr < 0) then find_loop fuel data (n_left m) st
          else find_loop fuel data (n_right m) st
      end
  end.

Definition avl_tree_find (t : avl_tree) (data : key) : option (option positive) :=
  find_loop (fuel_of (t_avl t)) data (a_root (t_avl t)) (t_avl t).

Fixpoint nearest_loop (fuel : nat) (data : positive) (n p : option positive) (st : avl) : option (option positive) :=
  match n with
  | None => Some p
  | Some q =>
      match fuel with
      | O => None
      | S fuel =>
          m ← get q st;
          let hr := compare data q in
          if decide (hr = 0) then Some (Some q)
          else if decide (hr < 0) then nearest_loop fuel data (n_left m) (Some q) st
          else nearest_loop fuel data (n_right m) (Some q) st
      end
  end.

Definition avl_tree_nearest (t : avl_tree) (data : positive) : option (option positive) :=
  nearest_loop (fuel_of (t_avl t)) data (a_root (t_avl t)) None (t_avl t).

(** The pointer that [link] points to. *)
Inductive link := LRoot | LLeft (p : positive) | LRight (p : positive).

Definition deref_link (l : link) (st : avl) : option (option positive) :=
  match l with
  | LRoot => Some (a_root st)
  | LLeft p => n ← get p st; Some (n_left n)
  | LRight p => n ← get p st; Some (n_right n)
  end.

Definition assign_link (l : link) (v : option positive) (st : avl) : option avl :=
  match l with
  | LRoot => Some (st <| a_root := v |>)
  | LLeft p => upd p (fun n => n <| n_left := v |>) st
  | LRight p => upd p (fun n => n <| n_right := v |>) st
  end.

(** The search of [avl_tree_add]: the conflicting node, or the link and the
    parent of the new one. *)
Fixpoint add_loop (fuel : nat) (data : positive) (l : link) (parent : option positive) (st : avl)
  : option (positive + link * option positive) :=
  v ← deref_link l st;
  match v with
  | None => Some (inr (l, parent))
  | Some p =>
      match fuel with
      | O => None
      | S fuel =>
          let hr := compare data p in
          if decide (hr = 0) then Some (inl p)
          else if decide (hr < 0) then add_loop fuel data (LLeft p) (Some p) st
          else add_loop fuel data (LRight p) (Some p) st
      end
  end.

Definition avl_tree_add (data : positive) (t : avl_tree) : option (avl_tree * option positive) :=
  let st := t_avl t in
  r ← add_loop (fuel_of st) data LRoot None st;
  match r with
  | inl p => Some (t, Some p)
  | inr (l, parent) =>
      st ← upd data (fun _ => mknode None None parent 0) st;
      st ← assign_link l (Some data) st;
      st ← avl_node_post_insert data st;
      Some (mktree st (u64 (t_count t + 1)), None)
  end.
End Compare.

Definition avl_tree_remove (node : positive) (t : avl_tree) : option avl_tree :=
  e ← avl_node_empty node (t_avl t);
  if e : bool then Some t
  else
    st ← avl_node_erase node (t_avl t);
    st ← avl_node_init node st;
    Some (mktree st (u64 (t_count t - 1))).

Definition avl_tree_replace (victim newdata : positive) (t : avl_tree) : option avl_tree :=
  st ← avl_node_replace victim newdata (t_avl t);
  st ← avl_node_init victim st;
  Some (mktree st (t_count t)).

(** The data passed to [destroy], in order. *)
Fixpoint clear_loop (fuel : nat) (next : option positive) (t : avl_tree) : option (avl_tree * list positive) :=
  '(st, node, next) ← avl_node_tear next (t_avl t);
  match node with
  | None => Some (mktree st (t_count t), [])
  | Some p =>
      match fuel with
      | O => None
      | S fuel =>
          st ← avl_node_init p st;
          '(t, ps) ← clear_loop fuel next (mktree st (u64 (t_count t - 1)));
          Some (t, p :: ps)
      end
  end.

Definition avl_tree_clear (t : avl_tree) : option (avl_tree * list positive) :=
  clear_loop (fuel_of (t_avl t)) None t.
