(* ===== verification/AvlShape.v ===== *)
(** * Trees in the store of [Avl]

    A binary tree and a path to one of its subtrees (a zipper), the predicate
    that they lie in the store with the right links, parents and heights, and
    what the operations on links do to them. *)

From S2P Require Import Prelude Avl.

Inductive tree := Leaf | Node (l : tree) (p : positive) (h : Z) (r : tree).

(** A step of the path: the hole is the left, or the right child of [p]. *)
Inductive frame := FL (p : positive) (h : Z) (r : tree) | FR (l : tree) (p : positive) (h : Z).
Abbreviation context := (list frame).

Definition ptr (t : tree) : option positive := match t with Leaf => None | Node _ p _ _ => Some p end.
Definition height (t : tree) : Z := match t with Leaf => 0 | Node _ _ h _ => h end.

Fixpoint elems (t : tree) : list positive :=
  match t with Leaf => [] | Node l p _ r => elems l ++ p :: elems r end.

(** What comes before and after the hole, in order. *)
Fixpoint before (c : context) : list positive :=
  match c with
  | [] => []
  | FL p h r :: c => before c
  | FR l p h :: c => before c ++ elems l ++ [p]
  end.
Fixpoint after (c : context) : list positive :=
  match c with
  | [] => []
  | FL p h r :: c => p :: elems r ++ after c
  | FR l p h :: c => after c
  end.
Definition around (c : context) : list positive := before c ++ after c.
Definition whole (t : tree) (c : context) : list positive := before c ++ elems t ++ after c.

Definition cpar (c : context) : option positive :=
  match c with [] => None | (FL p _ _ | FR _ p _) :: _ => Some p end.

Fixpoint shape (st : avl) (par : option positive) (t : tree) : Prop :=
  match t with
  | Leaf => True
  | Node l p h r =>
      get p st = Some (mknode (ptr l) (ptr r) par h) /\ shape st (Some p) l /\ shape st (Some p) r
  end.

Fixpoint cshape (st : avl) (c : context) (hole : option positive) : Prop :=
  match c with
  | [] => a_root st = hole
  | FL p h r :: c => get p st = Some (mknode hole (ptr r) (cpar c) h) /\ shape st (Some p) r /\ cshape st c (Some p)
  | FR l p h :: c => get p st = Some (mknode (ptr l) hole (cpar c) h) /\ shape st (Some p) l /\ cshape st c (Some p)
  end.

Definition shaped (st : avl) (t : tree) (c : context) : Prop :=
  shape st (cpar c) t /\ cshape st c (ptr t) /\ NoDup (whole t c).

(** [st'] is [st] but for the nodes in [X]. *)
Definition agree (X : list positive) (st st' : avl) : Prop := forall q, q ∉ X -> get q st' = get q st.

Lemma agree_refl X st : agree X st st.
Proof. done. Qed.
Lemma agree_trans X st1 st2 st3 : agree X st1 st2 -> agree X st2 st3 -> agree X st1 st3.
Proof. intros H1 H2 q Hq. by rewrite (H2 q Hq), (H1 q Hq). Qed.
Lemma agree_mono X Y st st' : agree X st st' -> (forall q, q ∈ X -> q ∈ Y) -> agree Y st st'.
Proof. intros H HXY q Hq. apply H. naive_solver. Qed.

(** ** Frames *)

Lemma shape_agree X st st' par t :
  agree X st st' -> (forall q, q ∈ elems t -> q ∉ X) -> shape st par t -> shape st' par t.
Proof.
  intros A. revert par. induction t as [|l IHl p h r IHr]; intros par Hd; [done|]. simpl in *.
  intros (Hp & Hl & Hr). split; [rewrite A; [done|apply Hd; set_solver]|].
  split; [apply IHl|apply IHr]; try done; intros q Hq; apply Hd; set_solver.
Qed.

Lemma cshape_agree X st st' c hole :
  agree X st st' -> a_root st' = a_root st -> (forall q, q ∈ around c -> q ∉ X) -> cshape st c hole -> cshape st' c hole.
Proof.
  intros A Hr. revert hole. unfold around.
  induction c as [|[p h r|l p h] c IH]; intros hole Hd; simpl in *; [congruence| |];
    intros (Hp & Hs & Hc); (split; [rewrite A; [done|apply Hd; set_solver]|]);
    (split; [eapply shape_agree; [exact A| |done]; intros q Hq; apply Hd; set_solver
            |apply IH; [|done]; intros q Hq; apply Hd; set_solver]).
Qed.

Lemma get_agree X st st' p n : agree X st st' -> p ∉ X -> get p st = Some n -> get p st' = Some n.
Proof. intros A Hp Hn. by rewrite A. Qed.

Lemma ptr_elem t p : ptr t = Some p -> p ∈ elems t.
Proof. destruct t; simpl; [done|]. intros [= ->]. set_solver. Qed.

(** ** Steps *)

Lemma upd_ok p f st n : get p st = Some n ->
  exists st', upd p f st = Some st' /\ get p st' = Some (f n) /\ a_root st' = a_root st /\ agree [p] st st'.
Proof.
  intros Hn. unfold upd. rewrite Hn. eexists. split; [done|]. unfold get; simpl.
  split; [by rewrite lookup_insert_eq|]. split; [done|].
  intros q Hq. unfold get; simpl. rewrite lookup_insert_ne; [done|]. set_solver.
Qed.

Lemma set_parent_ok st par par' t : shape st par t -> NoDup (elems t) ->
  exists st', set_parent (ptr t) par' st = Some st' /\ shape st' par' t /\ a_root st' = a_root st
    /\ agree (elems t) st st'.
Proof.
  destruct t as [|l p h r]; cbn [shape elems ptr set_parent]; intros Hs Hd.
  { exists st. split; [done|]. split; [done|]. split; [done|]. apply agree_refl. }
  destruct Hs as (Hp & Hl & Hr).
  destruct (upd_ok p (fun n => n <| n_parent := par' |>) st _ Hp) as (st' & -> & Hp' & Hroot & A).
  apply NoDup_app in Hd as (Hd1 & Hd2 & Hd3). apply NoDup_cons in Hd3 as [Hd3 Hd4].
  exists st'. split; [done|]. split; [|split; [done|]].
  - split; [done|]. split; (eapply shape_agree; [exact A| |done]; set_solver).
  - eapply agree_mono; [exact A|set_solver].
Qed.

Lemma child_replace_ok st c old new : cshape st c (Some old) -> NoDup (around c) -> old ∉ around c ->
  exists st', _avl_child_replace (Some old) new (cpar c) st = Some st' /\ cshape st' c new
    /\ agree (around c) st st'.
Proof.
  unfold around. destruct c as [|[p h r|l p h] c]; cbn [before after cshape cpar _avl_child_replace]; intros Hs Hd Hold.
  - eexists. split; [done|]. split; [done|]. intros q _. done.
  - destruct Hs as (Hp & Hr & Hc). rewrite Hp. cbn [mbind option_bind n_left]. rewrite decide_True by done.
    destruct (upd_ok p (fun n => n <| n_left := new |>) st _ Hp) as (st' & -> & Hp' & Hroot & A).
    exists st'. split; [done|]. rewrite Permutation_app_comm in Hd. simpl in Hd.
    apply NoDup_cons in Hd as [Hd1 Hd2]. split; [|eapply agree_mono; [exact A|set_solver]].
    split; [done|]. split; [eapply shape_agree; [exact A| |done]; set_solver|].
    eapply cshape_agree; [exact A|done| |done]. unfold around. set_solver.
  - destruct Hs as (Hp & Hl & Hc). rewrite Hp. cbn [mbind option_bind n_left].
    rewrite decide_False by (intros E%ptr_elem; set_solver).
    destruct (upd_ok p (fun n => n <| n_right := new |>) st _ Hp) as (st' & -> & Hp' & Hroot & A).
    exists st'. split; [done|]. rewrite <- !app_assoc in Hd. apply NoDup_app in Hd as (Hd1 & Hd2 & Hd3).
    apply NoDup_app in Hd3 as (Hd3 & Hd4 & Hd5). simpl in *. apply NoDup_cons in Hd5 as [Hd5 Hd6].
    split; [|eapply agree_mono; [exact A|set_solver]].
    split; [done|]. split; [eapply shape_agree; [exact A| |done]; set_solver|].
    eapply cshape_agree; [exact A|done| |done]. unfold around. set_solver.
Qed.

(** ** Automation

    Lists that are disjoint can be told apart by a colouring of the nodes:
    [colour ND ps f] gives every list of [ps] its own colour [f], [apart] proves
    that lists are disjoint by it, and [carry A R] moves every fact about the
    old state of [A : agree X st st'] to the new state where the nodes it speaks
    of are not in [X]. *)
Fixpoint coloured (f : positive -> nat) (i : nat) (ps : list (list positive)) : Prop :=
  match ps with [] => True | p :: ps => (forall q, q ∈ p -> f q = i) /\ NoDup p /\ coloured f (S i) ps end.

Lemma coloured_ext f g i ps : (forall q, q ∈ concat ps -> f q = g q) -> coloured f i ps -> coloured g i ps.
Proof.
  revert i. induction ps as [|p ps IH]; intros i H; [done|]. simpl in *. intros (Hp & Hnd & Hps).
  split; [|split; [done|]].
  - intros q Hq. rewrite <- H; [by apply Hp|]. apply elem_of_app. by left.
  - apply IH; [|done]. intros q Hq. apply H. apply elem_of_app. by right.
Qed.

Lemma colouring ps i : NoDup (concat ps) -> exists f, coloured f i ps.
Proof.
  revert i. induction ps as [|p ps IH]; intros i H; [by exists (fun _ => 0%nat)|].
  simpl in H. apply NoDup_app in H as (Hp & Hd & Hps). destruct (IH (S i) Hps) as [f Hf].
  exists (fun q => if decide (q ∈ p) then i else f q). split; [|split; [done|]].
  - intros q Hq. by rewrite decide_True.
  - eapply coloured_ext; [|exact Hf]. intros q Hq. rewrite decide_False; [done|]. intros Hq'. by apply (Hd q).
Qed.

Ltac colour ND ps f :=
  let H := fresh "Hcol" in
  destruct (colouring ps 0) as [f H];
  [ revert ND; unfold whole, around; cbn [elems before after concat]; rewrite ?app_nil_r;
    cbn [app]; repeat (rewrite <- app_assoc; cbn [app]); intros ND; first [exact ND | idtac]
  | cbn [coloured] in H; destruct_and? H ].

Ltac members H :=
  unfold around in H; cbn [elems before after] in H;
  repeat (rewrite elem_of_app in H || rewrite elem_of_cons in H || rewrite elem_of_nil in H);
  destruct_or? H; try done.

Ltac paint :=
  repeat match goal with
  | C : forall q, q ∈ ?l -> ?f q = ?i, H : ?x ∈ ?l |- _ =>
      lazymatch goal with E : f x = i |- _ => fail | _ => pose proof (C x H) end
  | C : forall q, q ∈ [?x] -> ?f q = ?i |- _ => specialize (C x (proj2 (list_elem_of_singleton x x) eq_refl))
  end.

Ltac apart :=
  let q := fresh "q" in let H1 := fresh "Hin" in let H2 := fresh "Hex" in
  first
  [ intros q H1 H2; members H1; members H2; paint; congruence
  | intros H2; members H2; paint; congruence ].

Lemma agree_step W X st0 st st' :
  agree W st0 st -> agree X st st' -> (forall q, q ∈ X -> q ∈ W) -> agree W st0 st'.
Proof. intros H1 H2 HX. eapply agree_trans; [exact H1|]. by eapply agree_mono. Qed.

Ltac inside :=
  let q := fresh "q" in let Hq := fresh "Hq" in
  intros q Hq; members Hq; subst; unfold whole; cbn [elems before after];
  repeat (rewrite elem_of_app || rewrite elem_of_cons); tauto.

Ltac carry A R :=
  match type of A with
  | agree ?X ?st ?st' =>
      repeat match goal with
      | H : shape st ?par ?t |- _ =>
          first [apply (shape_agree X st st' par t A ltac:(apart)) in H | clear H]
      | H : cshape st ?c ?hole |- _ =>
          first [apply (cshape_agree X st st' c hole A R ltac:(apart)) in H | clear H]
      | H : get ?q st = Some ?n |- _ =>
          first [apply (get_agree X st st' q n A ltac:(apart)) in H | clear H]
      | H : agree ?W ?st0 st |- _ =>
          let H' := fresh "H" in assert (H' : forall q, q ∈ X -> q ∈ W) by inside;
          apply (fun H => agree_step W X st0 st st' H A H') in H; clear H'
      end; clear A R
  end.

(** [NoDup] of some of the coloured lists together, and of a new arrangement of
    all of them. *)
Ltac distinct :=
  unfold whole, around; cbn [elems before after];
  repeat first
  [ assumption
  | apply NoDup_nil_2
  | apply NoDup_app; split; [|split; [apart|]]
  | apply NoDup_cons; split; [apart|] ].

Ltac rearranged ND :=
  revert ND; unfold whole; cbn [elems before after]; repeat (rewrite <- app_assoc; cbn [app]);
  intros ND; exact ND.

(** Run a step of the program with the lemma about it. *)
Ltac run_upd H st' H' :=
  let E := fresh "E" in let R := fresh "R" in let A := fresh "A" in
  match goal with |- context [upd ?p ?f ?st] =>
    destruct (upd_ok p f st _ H) as (st' & E & H' & R & A); rewrite E; clear E;
    cbn [mbind option_bind]; carry A R; cbn in H'
  end.

Ltac run_parent H st' H' :=
  let E := fresh "E" in let R := fresh "R" in let A := fresh "A" in
  match goal with |- context [set_parent _ ?par ?st] =>
    destruct (set_parent_ok st _ par _ H ltac:(distinct)) as (st' & E & H' & R & A); rewrite E; clear E;
    cbn [mbind option_bind]; carry A R
  end.

Ltac run_replace H st' H' :=
  let E := fresh "E" in let A := fresh "A" in
  match goal with |- context [_avl_child_replace _ ?new _ ?st] =>
    destruct (child_replace_ok st _ _ new H ltac:(distinct) ltac:(apart)) as (st' & E & H' & A); rewrite E; clear E;
    cbn [mbind option_bind]; carry A A
  end.

(** ** Rotations *)

Lemma rotate_left_ok st a x hx b y hy d c :
  shaped st (Node a x hx (Node b y hy d)) c ->
  exists st', _avl_node_rotate_left x st = Some (st', y)
    /\ shaped st' (Node (Node a x hx b) y hy d) c /\ agree (whole (Node a x hx (Node b y hy d)) c) st st'.
Proof.
  intros (Hs & Hc & ND). colour ND [before c; elems a; [x]; elems b; [y]; elems d; after c] f.
  cbn [shape ptr] in *. destruct Hs as (Hx & Ha & Hy & Hb & Hdd).
  pose proof (agree_refl (whole (Node a x hx (Node b y hy d)) c) st) as Acc.
  unfold _avl_node_rotate_left. rewrite Hx. cbn [mbind option_bind n_right n_parent]. rewrite Hy.
  cbn [mbind option_bind n_left].
  run_upd Hx st1 Hx1. rewrite Hy. cbn [mbind option_bind n_left].
  run_parent Hb st2 Hb2. run_upd Hy st3 Hy3. run_upd Hy3 st4 Hy4.
  run_replace Hc st5 Hc5. run_upd Hx1 st6 Hx6.
  exists st6. split; [done|]. split; [|done]. split; [|split; [done|rearranged ND]].
  by repeat (split; [assumption|]).
Qed.

Lemma rotate_right_ok st a x hx b y hy d c :
  shaped st (Node (Node a x hx b) y hy d) c ->
  exists st', _avl_node_rotate_right y st = Some (st', x)
    /\ shaped st' (Node a x hx (Node b y hy d)) c /\ agree (whole (Node (Node a x hx b) y hy d) c) st st'.
Proof.
  intros (Hs & Hc & ND). colour ND [before c; elems a; [x]; elems b; [y]; elems d; after c] f.
  cbn [shape ptr] in *. destruct Hs as (Hy & (Hx & Ha & Hb) & Hdd).
  pose proof (agree_refl (whole (Node (Node a x hx b) y hy d) c) st) as Acc.
  unfold _avl_node_rotate_right. rewrite Hy. cbn [mbind option_bind n_left n_parent]. rewrite Hx.
  cbn [mbind option_bind n_right].
  run_upd Hy st1 Hy1. rewrite Hx. cbn [mbind option_bind n_right].
  run_parent Hb st2 Hb2. run_upd Hx st3 Hx3. run_upd Hx3 st4 Hx4.
  run_replace Hc st5 Hc5. run_upd Hy1 st6 Hy6.
  exists st6. split; [done|]. split; [|done]. split; [|split; [done|rearranged ND]].
  by repeat (split; [assumption|]).
Qed.

(** ** Moving along the path *)

Lemma whole_up_l t p h r c : whole t (FL p h r :: c) = whole (Node t p h r) c.
Proof. unfold whole. simpl. by rewrite <- app_assoc. Qed.
Lemma whole_up_r l p h t c : whole t (FR l p h :: c) = whole (Node l p h t) c.
Proof. unfold whole. simpl. by rewrite <- !app_assoc. Qed.

Lemma shaped_up_l st t p h r c : shaped st t (FL p h r :: c) <-> shaped st (Node t p h r) c.
Proof. unfold shaped. rewrite whole_up_l. simpl. tauto. Qed.
Lemma shaped_up_r st l p h t c : shaped st t (FR l p h :: c) <-> shaped st (Node l p h t) c.
Proof. unfold shaped. rewrite whole_up_r. simpl. tauto. Qed.

Lemma shaped_get st l p h r c : shaped st (Node l p h r) c -> get p st = Some (mknode (ptr l) (ptr r) (cpar c) h).
Proof. intros ((H & _) & _). done. Qed.

(** ** Heights *)

Lemma height_of_ok st par t : shape st par t -> height_of (ptr t) st = Some (height t).
Proof. destruct t; simpl; [done|]. intros (H & _). by rewrite H. Qed.

Lemma left_height_ok st l p h r c : shaped st (Node l p h r) c -> AVL_LEFT_HEIGHT p st = Some (height l).
Proof.
  intros H. unfold AVL_LEFT_HEIGHT. rewrite (shaped_get _ _ _ _ _ _ H). cbn [mbind option_bind n_left].
  destruct H as ((_ & Hl & _) & _). by apply height_of_ok in Hl.
Qed.

Lemma right_height_ok st l p h r c : shaped st (Node l p h r) c -> AVL_RIGHT_HEIGHT p st = Some (height r).
Proof.
  intros H. unfold AVL_RIGHT_HEIGHT. rewrite (shaped_get _ _ _ _ _ _ H). cbn [mbind option_bind n_right].
  destruct H as ((_ & _ & Hr) & _). by apply height_of_ok in Hr.
Qed.

Lemma set_height_ok st l p h h' r c : shaped st (Node l p h r) c ->
  exists st', set_height p h' st = Some st' /\ shaped st' (Node l p h' r) c /\ agree (whole (Node l p h r) c) st st'.
Proof.
  intros ((Hp & Hl & Hr) & Hc & ND). colour ND [before c; elems l; [p]; elems r; after c] f.
  pose proof (agree_refl (whole (Node l p h r) c) st) as Acc. unfold set_height.
  destruct (upd_ok p (fun n => n <| n_height := h' |>) st _ Hp) as (st' & -> & Hp' & R & A). carry A R.
  exists st'. split; [done|]. split; [|done]. split; [|split; [done|rearranged ND]]. done.
Qed.

Lemma AVL_MAX_max x y : AVL_MAX x y = Z.max x y.
Proof. unfold AVL_MAX. case_decide; lia. Qed.

(** A node with the height its subtrees ask for. *)
Definition mk (l : tree) (p : positive) (r : tree) : tree := Node l p (Z.max (height l) (height r) + 1) r.

Lemma height_update_ok st l p h r c : shaped st (Node l p h r) c ->
  exists st', _avl_node_height_update p st = Some st' /\ shaped st' (mk l p r) c
    /\ agree (whole (Node l p h r) c) st st'.
Proof.
  intros H. unfold _avl_node_height_update.
  rewrite (left_height_ok _ _ _ _ _ _ H), (right_height_ok _ _ _ _ _ _ H). cbn [mbind option_bind].
  rewrite AVL_MAX_max. by apply set_height_ok.
Qed.

Lemma agree_eq X Y st st' : agree X st st' -> X = Y -> agree Y st st'.
Proof. by intros ? <-. Qed.

(** The heights of the children are set through their parent. *)
Lemma update_left_ok st l p h r q k s c : shaped st (Node (Node l p h r) q k s) c ->
  exists st', update_left q st = Some st' /\ shaped st' (Node (mk l p r) q k s) c
    /\ agree (whole (Node (Node l p h r) q k s) c) st st'.
Proof.
  intros H. unfold update_left. rewrite (shaped_get _ _ _ _ _ _ H). cbn [mbind option_bind n_left ptr].
  apply shaped_up_l in H. destruct (height_update_ok _ _ _ _ _ _ H) as (st' & E & H' & A).
  exists st'. split; [exact E|]. split; [by apply shaped_up_l|]. eapply agree_eq; [exact A|]. apply whole_up_l.
Qed.

Lemma update_right_ok st s q k l p h r c : shaped st (Node s q k (Node l p h r)) c ->
  exists st', update_right q st = Some st' /\ shaped st' (Node s q k (mk l p r)) c
    /\ agree (whole (Node s q k (Node l p h r)) c) st st'.
Proof.
  intros H. unfold update_right. rewrite (shaped_get _ _ _ _ _ _ H). cbn [mbind option_bind n_right ptr].
  apply shaped_up_r in H. destruct (height_update_ok _ _ _ _ _ _ H) as (st' & E & H' & A).
  exists st'. split; [exact E|]. split; [by apply shaped_up_r|]. eapply agree_eq; [exact A|]. apply whole_up_r.
Qed.

(** ** Balancing a node *)

(** What becomes of a node with a tall right, or left, child. *)
Definition balance_l (a : tree) (x : positive) (b : tree) (y : positive) (d : tree) : tree :=
  match b with
  | Node b1 z _ b2 =>
      if decide (height b > height d) then mk (mk a x b1) z (mk b2 y d) else mk (mk a x b) y d
  | Leaf => mk (mk a x b) y d
  end.

Definition balance_r (a : tree) (x : positive) (b : tree) (y : positive) (d : tree) : tree :=
  match b with
  | Node b1 z _ b2 =>
      if decide (height a < height b) then mk (mk a x b1) z (mk b2 y d) else mk a x (mk b y d)
  | Leaf => mk a x (mk b y d)
  end.

Definition rooted (t : tree) (p : positive) : Prop := ptr t = Some p.

Ltac same_list :=
  unfold whole, mk; cbn [elems before after]; repeat (rewrite <- app_assoc; cbn [app]); reflexivity.

(** Put the changes of several steps together. *)
Ltac agrees :=
  repeat match goal with
  | A : agree ?X ?s ?s1 |- agree ?W ?s ?s2 =>
      apply (agree_trans W s s1 s2); [apply (agree_eq X W s s1 A); same_list|]; clear A
  end; apply agree_refl.

Lemma fix_l_ok st a x hx b y hy d c : 0 <= height d ->
  shaped st (Node a x hx (Node b y hy d)) c ->
  exists st' p, _avl_node_fix_l x st = Some (st', p) /\ rooted (balance_l a x b y d) p
    /\ shaped st' (balance_l a x b y d) c /\ agree (whole (Node a x hx (Node b y hy d)) c) st st'.
Proof.
  intros Hd0 H. unfold _avl_node_fix_l. rewrite (shaped_get _ _ _ _ _ _ H). cbn [mbind option_bind n_right ptr].
  pose proof H as H1. apply shaped_up_r in H1.
  rewrite (left_height_ok _ _ _ _ _ _ H1), (right_height_ok _ _ _ _ _ _ H1). cbn [mbind option_bind].
  assert (Hfinish : forall st0 a x hx b y hy d, shaped st0 (Node a x hx (Node b y hy d)) c ->
    exists st', ('(st, node) ← _avl_node_rotate_left x st0; st ← update_left node st;
                 st ← _avl_node_height_update node st; Some (st, node)) = Some (st', y)
      /\ shaped st' (mk (mk a x b) y d) c /\ agree (whole (Node a x hx (Node b y hy d)) c) st0 st').
  { clear. intros st0 a x hx b y hy d H.
    destruct (rotate_left_ok _ _ _ _ _ _ _ _ _ H) as (st1 & -> & S1 & A1). cbn [mbind option_bind].
    destruct (update_left_ok _ _ _ _ _ _ _ _ _ S1) as (st2 & -> & S2 & A2). cbn [mbind option_bind].
    destruct (height_update_ok _ _ _ _ _ _ S2) as (st3 & -> & S3 & A3). cbn [mbind option_bind].
    exists st3. split; [done|]. split; [done|]. agrees. }
  unfold balance_l. destruct (decide (height b > height d)) as [Hgt|Hle].
  - destruct b as [|b1 z hz b2]; [simpl in Hgt; lia|].
    destruct (rotate_right_ok _ _ _ _ _ _ _ _ _ H1) as (st1 & -> & S1 & A1). cbn [mbind option_bind].
    destruct (update_right_ok _ _ _ _ _ _ _ _ _ S1) as (st2 & -> & S2 & A2). cbn [mbind option_bind].
    destruct (height_update_ok _ _ _ _ _ _ S2) as (st3 & -> & S3 & A3). cbn [mbind option_bind].
    apply (proj1 (shaped_up_r _ _ _ _ _ _)) in S3.
    destruct (Hfinish _ _ _ _ _ _ _ _ S3) as (st4 & -> & S4 & A4).
    exists st4, z. split; [done|]. split; [done|]. split; [done|]. agrees.
  - cbn [mbind option_bind]. destruct (Hfinish _ _ _ _ _ _ _ _ H) as (st1 & -> & S1 & A1).
    exists st1, y. split; [done|]. by destruct b.
Qed.

Lemma fix_r_ok st a x hx b y hy d c : 0 <= height a ->
  shaped st (Node (Node a x hx b) y hy d) c ->
  exists st' p, _avl_node_fix_r y st = Some (st', p) /\ rooted (balance_r a x b y d) p
    /\ shaped st' (balance_r a x b y d) c /\ agree (whole (Node (Node a x hx b) y hy d) c) st st'.
Proof.
  intros Hd0 H. unfold _avl_node_fix_r. rewrite (shaped_get _ _ _ _ _ _ H). cbn [mbind option_bind n_left ptr].
  pose proof H as H1. apply shaped_up_l in H1.
  rewrite (left_height_ok _ _ _ _ _ _ H1), (right_height_ok _ _ _ _ _ _ H1). cbn [mbind option_bind].
  assert (Hfinish : forall st0 a x hx b y hy d, shaped st0 (Node (Node a x hx b) y hy d) c ->
    exists st', ('(st, node) ← _avl_node_rotate_right y st0; st ← update_right node st;
                 st ← _avl_node_height_update node st; Some (st, node)) = Some (st', x)
      /\ shaped st' (mk a x (mk b y d)) c /\ agree (whole (Node (Node a x hx b) y hy d) c) st0 st').
  { clear. intros st0 a x hx b y hy d H.
    destruct (rotate_right_ok _ _ _ _ _ _ _ _ _ H) as (st1 & -> & S1 & A1). cbn [mbind option_bind].
    destruct (update_right_ok _ _ _ _ _ _ _ _ _ S1) as (st2 & -> & S2 & A2). cbn [mbind option_bind].
    destruct (height_update_ok _ _ _ _ _ _ S2) as (st3 & -> & S3 & A3). cbn [mbind option_bind].
    exists st3. split; [done|]. split; [done|]. agrees. }
  unfold balance_r. destruct (decide (height a < height b)) as [Hgt|Hle].
  - destruct b as [|b1 z hz b2]; [simpl in Hgt; lia|].
    destruct (rotate_left_ok _ _ _ _ _ _ _ _ _ H1) as (st1 & -> & S1 & A1). cbn [mbind option_bind].
    destruct (update_left_ok _ _ _ _ _ _ _ _ _ S1) as (st2 & -> & S2 & A2). cbn [mbind option_bind].
    destruct (height_update_ok _ _ _ _ _ _ S2) as (st3 & -> & S3 & A3). cbn [mbind option_bind].
    apply (proj1 (shaped_up_l _ _ _ _ _ _)) in S3.
    destruct (Hfinish _ _ _ _ _ _ _ _ S3) as (st4 & -> & S4 & A4).
    exists st4, z. split; [done|]. split; [done|]. split; [done|]. agrees.
  - cbn [mbind option_bind]. destruct (Hfinish _ _ _ _ _ _ _ _ H) as (st1 & -> & S1 & A1).
    exists st1, x. split; [done|]. by destruct b.
Qed.
