(* ===== verification/AvlBalance.v ===== *)
(** * Balance of the trees of [Avl]

    The heights in the nodes are right and those of two siblings differ by at
    most one; the two loops that go up the path restore this after a subtree has
    grown, or shrunk, by one. *)

From S2P Require Import Prelude Avl AvlShape.

Fixpoint balanced (t : tree) : Prop :=
  match t with
  | Leaf => True
  | Node l p h r => balanced l /\ balanced r /\ h = Z.max (height l) (height r) + 1
                    /\ - 1 <= height l - height r <= 1
  end.

(** The path is balanced when the hole holds a tree of height [k]. *)
Fixpoint cbalanced (c : context) (k : Z) : Prop :=
  match c with
  | [] => True
  | (FL p h s | FR s p h) :: c =>
      balanced s /\ - 1 <= k - height s <= 1 /\ h = Z.max k (height s) + 1 /\ cbalanced c h
  end.

Fixpoint plug (t : tree) (c : context) : tree :=
  match c with
  | [] => t
  | FL p h r :: c => plug (Node t p h r) c
  | FR l p h :: c => plug (Node l p h t) c
  end.

Lemma height_nonneg t : balanced t -> 0 <= height t.
Proof. induction t as [|l IHl p h r IHr]; simpl; [done|]. intros (?%IHl & ?%IHr & -> & _). lia. Qed.

Lemma shaped_plug st t c : shaped st t c -> shaped st (plug t c) [].
Proof.
  revert t. induction c as [|[p h r|l p h] c IH]; intros t; simpl; [done|intros; apply IH..].
  - by apply shaped_up_l.
  - by apply shaped_up_r.
Qed.

Lemma balanced_plug t c : balanced t -> cbalanced c (height t) -> balanced (plug t c).
Proof.
  revert t. induction c as [|[p h r|l p h] c IH]; intros t Ht; simpl; [done| |];
    intros (Hs & Hd & -> & Hc); apply IH; simpl.
  - split_and!; done || lia.
  - done.
  - split_and!; done || lia.
  - done.
Qed.

Lemma elems_plug t c : elems (plug t c) = whole t c.
Proof.
  revert t. induction c as [|[p h r|l p h] c IH]; intros t; simpl.
  - unfold whole. simpl. by rewrite app_nil_r.
  - rewrite IH. by rewrite whole_up_l.
  - rewrite IH. by rewrite whole_up_r.
Qed.

Lemma shaped_parent st t c p : shaped st t c -> ptr t = Some p -> exists n, get p st = Some n /\ n_parent n = cpar c.
Proof. destruct t as [|l q h r]; [done|]. intros ((H & _) & _) [= ->]. eexists. split; [exact H|done]. Qed.

(** ** One step *)

Lemma balance_l_balanced a x b y d :
  balanced a -> balanced b -> balanced d -> - 1 <= height b - height d <= 1 ->
  height a + 2 = Z.max (height b) (height d) + 1 ->
  balanced (balance_l a x b y d)
  /\ height a + 2 <= height (balance_l a x b y d) <= height a + 3.
Proof.
  intros Ha Hb Hd Hbd Hh. pose proof (height_nonneg a Ha). unfold balance_l.
  destruct b as [|b1 z hz b2]; simpl in *; [split; [split_and!; try done; lia|lia]|].
  destruct Hb as (Hb1 & Hb2 & -> & Hbb). pose proof (height_nonneg b1 Hb1). pose proof (height_nonneg b2 Hb2).
  case_decide; simpl; (split; [split_and!; try done; lia|lia]).
Qed.

Lemma balance_r_balanced a x b y d :
  balanced a -> balanced b -> balanced d -> - 1 <= height a - height b <= 1 ->
  height d + 2 = Z.max (height a) (height b) + 1 ->
  balanced (balance_r a x b y d)
  /\ height d + 2 <= height (balance_r a x b y d) <= height d + 3.
Proof.
  intros Ha Hb Hd Hbd Hh. pose proof (height_nonneg d Hd). unfold balance_r.
  destruct b as [|b1 z hz b2]; simpl in *; [split; [split_and!; try done; lia|lia]|].
  destruct Hb as (Hb1 & Hb2 & -> & Hbb). pose proof (height_nonneg b1 Hb1). pose proof (height_nonneg b2 Hb2).
  case_decide; simpl; (split; [split_and!; try done; lia|lia]).
Qed.

Lemma whole_elems t t' c : elems t = elems t' -> whole t c = whole t' c.
Proof. unfold whole. by intros ->. Qed.

Lemma balance_l_elems a x hx b y hy d : elems (balance_l a x b y d) = elems (Node a x hx (Node b y hy d)).
Proof.
  unfold balance_l. destruct b; simpl; [by rewrite <- app_assoc|].
  case_decide; simpl; repeat (rewrite <- app_assoc; cbn [app]); done.
Qed.

Lemma balance_r_elems a x hx b y hy d : elems (balance_r a x b y d) = elems (Node (Node a x hx b) y hy d).
Proof.
  unfold balance_r. destruct b; simpl; [by rewrite <- app_assoc|].
  case_decide; simpl; repeat (rewrite <- app_assoc; cbn [app]); done.
Qed.

(** A node whose height is right and whose children differ by at most two. *)
Lemma fix_node_ok st l p r c :
  shaped st (mk l p r) c -> balanced l -> balanced r -> - 2 <= height l - height r <= 2 ->
  exists st' q t', fix_node (height l - height r) p st = Some (st', q) /\ rooted t' q
    /\ shaped st' t' c /\ balanced t' /\ elems t' = elems (mk l p r) /\ agree (whole (mk l p r) c) st st'
    /\ height (mk l p r) - 1 <= height t' <= height (mk l p r)
    /\ (- 1 <= height l - height r <= 1 -> height t' = height (mk l p r)).
Proof.
  intros H Hl Hr Hd. pose proof (height_nonneg l Hl). pose proof (height_nonneg r Hr). unfold fix_node, mk in *.
  destruct (decide (height l - height r <= -2)) as [Hlow|Hlow]; [|destruct (decide (height l - height r >= 2)) as [Hhigh|Hhigh]].
  - destruct r as [|b y hy d]; [simpl in *; lia|]. destruct Hr as (Hb & Hd' & -> & Hbd).
    destruct (fix_l_ok _ _ _ _ _ _ _ _ _ (height_nonneg d Hd') H) as (st' & q & E & Hq & S & A).
    simpl in Hd, Hlow. destruct (balance_l_balanced l p b y d) as [Hbal Hh]; [done..|lia|].
    exists st', q, (balance_l l p b y d). split; [exact E|]. split; [done|]. split; [done|]. split; [done|].
    split; [apply balance_l_elems|]. split; [done|]. simpl. split; lia.
  - destruct l as [|a x hx b]; [simpl in *; lia|]. destruct Hl as (Ha & Hb & -> & Hab).
    destruct (fix_r_ok _ _ _ _ _ _ _ _ _ (height_nonneg a Ha) H) as (st' & q & E & Hq & S & A).
    simpl in Hd, Hhigh. destruct (balance_r_balanced a x b p r) as [Hbal Hh]; [done..|lia|].
    exists st', q, (balance_r a x b p r). split; [exact E|]. split; [done|]. split; [done|]. split; [done|].
    split; [apply balance_r_elems|]. split; [done|]. simpl. split; lia.
  - exists st, p, (Node l p (height l `max` height r + 1) r). split; [done|]. split; [done|]. split; [done|].
    split; [simpl; split_and!; done || lia|]. split; [done|]. split; [apply agree_refl|]. simpl. split; [lia|done].
Qed.

(** ** The loops *)

(** What both loops leave behind: the whole tree, balanced, with the same nodes
    in the same order. *)
Definition settled (st st' : avl) (es : list positive) : Prop :=
  exists T, shaped st' T [] /\ balanced T /\ elems T = es /\ agree es st st'.

Lemma settled_plug st t c : shaped st t c -> balanced t -> cbalanced c (height t) -> settled st st (whole t c).
Proof.
  intros S B C. exists (plug t c). split; [by apply shaped_plug|]. split; [by apply balanced_plug|].
  split; [apply elems_plug|apply agree_refl].
Qed.

Lemma settled_trans st st' st'' es : agree es st st' -> settled st' st'' es -> settled st st'' es.
Proof. intros A (T & S & B & E & A'). exists T. do 3 (split; [done|]). by eapply agree_trans. Qed.

(** Up one step: from the subtree to the node above. *)
Lemma step_up (P : option positive -> avl -> nat -> Prop) st t c h fuel :
  shaped st t c -> balanced t -> cbalanced c h -> (length c < S fuel)%nat ->
  (c = [] -> P None st fuel) ->
  (forall l p k r c', whole (Node l p k r) c' = whole t c -> shaped st (Node l p k r) c' -> balanced l -> balanced r ->
    cbalanced c' k -> (length c' < fuel)%nat -> cpar c = Some p ->
    (exists s, k = Z.max h (height s) + 1 /\ - 1 <= h - height s <= 1
      /\ ((l = t /\ r = s) \/ (l = s /\ r = t))) -> P (Some p) st fuel) ->
  P (cpar c) st fuel.
Proof.
  intros S B C Hlen Hnil Hcons. destruct c as [|[p k s|s p k] c]; [by apply Hnil| |];
    simpl in C; destruct C as (Bs & Hd & Hk & C); simpl in Hlen; cbn [cpar].
  - eapply (Hcons t p k s c); try done; [by rewrite whole_up_l|by apply shaped_up_l|lia|].
    exists s. split; [done|]. split; [done|by left].
  - eapply (Hcons s p k t c); try done; [by rewrite whole_up_r|by apply shaped_up_r|lia|].
    exists s. split; [done|]. split; [done|by right].
Qed.

(** Setting the height of a node to what its children ask for. *)
Lemma set_height_mk st l p h r c : shaped st (Node l p h r) c ->
  exists st', set_height p (AVL_MAX (height l) (height r) + 1) st = Some st' /\ shaped st' (mk l p r) c
    /\ agree (whole (Node l p h r) c) st st'.
Proof. intros H. rewrite AVL_MAX_max. by apply set_height_ok. Qed.

(** A subtree has shrunk by at most one. *)
Lemma rebalance_node_ok fuel : forall st l p h r c,
  shaped st (Node l p h r) c -> balanced l -> balanced r -> - 2 <= height l - height r <= 2 -> cbalanced c h ->
  h - 1 <= Z.max (height l) (height r) + 1 <= h ->
  (Z.abs (height l - height r) = 2 -> Z.max (height l) (height r) + 1 = h) -> (length c < fuel)%nat ->
  exists st', _avl_node_rebalance fuel (Some p) st = Some st' /\ settled st st' (whole (Node l p h r) c).
Proof.
  induction fuel as [|fuel IH]; intros st l p h r c S Bl Br Hd C Hh Hd2 Hf; [lia|].
  cbn [_avl_node_rebalance]. rewrite (left_height_ok _ _ _ _ _ _ S), (right_height_ok _ _ _ _ _ _ S).
  cbn [mbind option_bind]. rewrite (shaped_get _ _ _ _ _ _ S). cbn [mbind option_bind n_height].
  case_decide as Hstop.
  { exists st. split; [done|]. rewrite AVL_MAX_max in Hstop. apply settled_plug; [done| |done].
    simpl. split_and!; done || lia. }
  assert (Hset : exists st1, (if decide (h ≠ AVL_MAX (height l) (height r) + 1)
                   then set_height p (AVL_MAX (height l) (height r) + 1) st else Some st) = Some st1
                 /\ shaped st1 (mk l p r) c /\ agree (whole (Node l p h r) c) st st1).
  { case_decide; [by apply set_height_mk|]. exists st. split; [done|]. split; [|apply agree_refl].
    rewrite AVL_MAX_max in *. unfold mk. by replace (height l `max` height r + 1) with h by lia. }
  destruct Hset as (st1 & -> & S1 & A1). cbn [mbind option_bind].
  destruct (fix_node_ok _ _ _ _ _ S1 Bl Br Hd) as (st2 & q & t & -> & Hq & S2 & B2 & E2 & A2 & Hht & Heq).
  cbn [mbind option_bind]. destruct (shaped_parent _ _ _ _ S2 Hq) as (n & -> & Hpar). cbn [mbind option_bind]. rewrite Hpar.
  assert (Hw : whole t c = whole (Node l p h r) c) by (apply whole_elems; by rewrite E2).
  assert (Ha : agree (whole (Node l p h r) c) st st2) by (eapply agree_trans; [exact A1|exact A2]).
  simpl in Hht, Heq.
  assert (Hth : h - 1 <= height t <= h).
  { destruct (decide (Z.abs (height l - height r) = 2)); [|rewrite Heq]; lia. }
  apply (step_up (fun o st' fuel => exists st3, _avl_node_rebalance fuel o st' = Some st3
    /\ settled st st3 (whole (Node l p h r) c)) st2 t c h fuel S2 B2 C Hf).
  - intros ->. exists st2. split; [by destruct fuel|]. eapply settled_trans; [exact Ha|].
    rewrite <- Hw. by apply settled_plug.
  - intros l' p' k r' c' Hw' S' Bl' Br' C' Hf' _ (s & -> & Hs & Hlr).
    destruct (IH st2 l' p' (Z.max h (height s) + 1) r' c') as (st3 & E3 & Hset3);
      try done; try (destruct Hlr as [[-> ->]|[-> ->]]; lia).
    exists st3. split; [exact E3|]. eapply settled_trans; [exact Ha|]. by rewrite <- Hw, <- Hw'.
Qed.

(** A subtree has grown by at most one. *)
Lemma insert_node_ok fuel : forall st l p h r c,
  shaped st (Node l p h r) c -> balanced l -> balanced r -> - 2 <= height l - height r <= 2 -> cbalanced c h ->
  h <= Z.max (height l) (height r) + 1 <= h + 1 ->
  (Z.max (height l) (height r) + 1 = h -> - 1 <= height l - height r <= 1) -> (length c < fuel)%nat ->
  exists st', insert_loop fuel (Some p) st = Some st' /\ settled st st' (whole (Node l p h r) c).
Proof.
  induction fuel as [|fuel IH]; intros st l p h r c S Bl Br Hd C Hh Hd2 Hf; [lia|].
  cbn [insert_loop]. rewrite (left_height_ok _ _ _ _ _ _ S), (right_height_ok _ _ _ _ _ _ S).
  cbn [mbind option_bind]. rewrite (shaped_get _ _ _ _ _ _ S). cbn [mbind option_bind n_height].
  case_decide as Hstop.
  { exists st. split; [done|]. rewrite AVL_MAX_max in Hstop. apply settled_plug; [done| |done].
    simpl. split_and!; done || lia. }
  destruct (set_height_mk _ _ _ _ _ _ S) as (st1 & -> & S1 & A1). cbn [mbind option_bind].
  rewrite AVL_MAX_max in Hstop.
  destruct (fix_node_ok _ _ _ _ _ S1 Bl Br Hd) as (st2 & q & t & -> & Hq & S2 & B2 & E2 & A2 & Hht & Heq).
  cbn [mbind option_bind]. destruct (shaped_parent _ _ _ _ S2 Hq) as (n & -> & Hpar). cbn [mbind option_bind]. rewrite Hpar.
  assert (Hw : whole t c = whole (Node l p h r) c) by (apply whole_elems; by rewrite E2).
  assert (Ha : agree (whole (Node l p h r) c) st st2) by (eapply agree_trans; [exact A1|exact A2]).
  simpl in Hht, Heq. assert (Hth : h <= height t <= h + 1) by lia.
  apply (step_up (fun o st' fuel => exists st3, insert_loop fuel o st' = Some st3
    /\ settled st st3 (whole (Node l p h r) c)) st2 t c h fuel S2 B2 C Hf).
  - intros ->. exists st2. split; [by destruct fuel|]. eapply settled_trans; [exact Ha|].
    rewrite <- Hw. by apply settled_plug.
  - intros l' p' k r' c' Hw' S' Bl' Br' C' Hf' _ (s & -> & Hs & Hlr).
    destruct (IH st2 l' p' (Z.max h (height s) + 1) r' c') as (st3 & E3 & Hset3);
      try done; try (destruct Hlr as [[-> ->]|[-> ->]]; lia).
    exists st3. split; [exact E3|]. eapply settled_trans; [exact Ha|]. by rewrite <- Hw, <- Hw'.
Qed.

(** From the subtree that has changed, up. *)
Lemma rebalance_ok st t c k fuel :
  shaped st t c -> balanced t -> cbalanced c k -> k - 1 <= height t <= k -> (length c <= fuel)%nat ->
  exists st', _avl_node_rebalance fuel (cpar c) st = Some st' /\ settled st st' (whole t c).
Proof.
  intros S B C Hk Hf.
  apply (step_up (fun o st' fuel => exists st3, _avl_node_rebalance fuel o st' = Some st3
    /\ settled st st3 (whole t c)) st t c k fuel S B C); [lia| |].
  - intros ->. exists st. split; [by destruct fuel|]. by apply settled_plug.
  - intros l p h r c' Hw S' Bl Br C' Hf' _ (s & -> & Hs & Hlr). rewrite <- Hw.
    apply rebalance_node_ok; try done; destruct Hlr as [[-> ->]|[-> ->]]; lia.
Qed.

Lemma insert_ok st t c k fuel :
  shaped st t c -> balanced t -> cbalanced c k -> k <= height t <= k + 1 -> (length c <= fuel)%nat ->
  exists st', insert_loop fuel (cpar c) st = Some st' /\ settled st st' (whole t c).
Proof.
  intros S B C Hk Hf.
  apply (step_up (fun o st' fuel => exists st3, insert_loop fuel o st' = Some st3
    /\ settled st st3 (whole t c)) st t c k fuel S B C); [lia| |].
  - intros ->. exists st. split; [by destruct fuel|]. by apply settled_plug.
  - intros l p h r c' Hw S' Bl Br C' Hf' _ (s & -> & Hs & Hlr). rewrite <- Hw.
    apply insert_node_ok; try done; destruct Hlr as [[-> ->]|[-> ->]]; lia.
Qed.
