(* ===== verification/AvlTree.v ===== *)
(** * The operations of the tree

    What [avl_tree_add], [avl_tree_remove], [avl_tree_find], the walks and
    [avl_tree_clear] of [xlib/avlmini.c] do to the sorted list of nodes that the
    tree stands for. *)

From stdpp Require Import sorting.
From S2P Require Import Prelude Avl AvlShape AvlBalance.
#[local] Open Scope Z_scope.

(** ** The fuel is enough *)

Lemma shape_in_store st par t q : shape st par t -> q ∈ elems t -> is_Some (get q st).
Proof.
  revert par. induction t as [|l IHl p h r IHr]; intros par; simpl; [by intros _ ?%not_elem_of_nil|].
  intros (Hp & Hl & Hr) [H| [->|H]%elem_of_cons]%elem_of_app; [by eapply IHl|by eexists|by eapply IHr].
Qed.

Lemma shaped_in_store st t q : shaped st t [] -> q ∈ elems t -> is_Some (get q st).
Proof. intros (H & _) Hq. by eapply shape_in_store. Qed.

Lemma whole_in_store st t c q : shaped st t c -> q ∈ whole t c -> is_Some (get q st).
Proof. intros H. rewrite <- elems_plug. apply shaped_in_store. by apply shaped_plug. Qed.

Lemma fuel_enough st t c : shaped st t c -> (length (whole t c) < fuel_of st)%nat.
Proof.
  intros H. unfold fuel_of. apply Nat.lt_succ_r. pose proof H as (_ & _ & ND).
  rewrite <- (size_list_to_set (C := gset positive) _ ND), <- size_dom.
  apply subseteq_size. intros q Hq%elem_of_list_to_set. apply elem_of_dom. by eapply whole_in_store.
Qed.

Lemma around_length c : (length c <= length (around c))%nat.
Proof.
  unfold around. induction c as [|[p h r|l p h] c IH]; simpl; [lia| |];
    repeat (rewrite !length_app in * || simpl); lia.
Qed.

Lemma path_fuel st t c : shaped st t c -> (length c < fuel_of st)%nat.
Proof.
  intros H%fuel_enough. pose proof (around_length c). unfold whole, around in *.
  rewrite !length_app in *. lia.
Qed.

(** ** Finding the place of a node *)

Lemma shaped_app st t c1 c2 : shaped st t (c1 ++ c2) <-> shaped st (plug t c1) c2.
Proof.
  revert t. induction c1 as [|[p h r|l p h] c1 IH]; intros t; cbn [app plug]; [done|rewrite <- IH..].
  - apply shaped_up_l.
  - apply shaped_up_r.
Qed.

Lemma whole_plug t c1 c2 : whole t (c1 ++ c2) = whole (plug t c1) c2.
Proof.
  revert t. induction c1 as [|[p h r|l p h] c1 IH]; intros t; cbn [app plug]; [done|rewrite <- IH..].
  - apply whole_up_l.
  - apply whole_up_r.
Qed.

(** A balanced tree and a balanced path to it. *)
Definition sound (st : avl) (t : tree) (c : context) : Prop := shaped st t c /\ balanced t /\ cbalanced c (height t).

Lemma sound_left st l p h r c : sound st (Node l p h r) c -> sound st l (FL p h r :: c).
Proof.
  intros (S & (Bl & Br & -> & Hd) & C). split; [by apply shaped_up_l|]. split; [done|].
  simpl in *. split_and!; done || lia.
Qed.
Lemma sound_right st l p h r c : sound st (Node l p h r) c -> sound st r (FR l p h :: c).
Proof.
  intros (S & (Bl & Br & -> & Hd) & C). split; [by apply shaped_up_r|]. split; [done|].
  simpl in *. split_and!; try done; lia.
Qed.

Lemma locate st t c p : sound st t c -> p ∈ elems t ->
  exists l h r c', sound st (Node l p h r) c' /\ whole (Node l p h r) c' = whole t c.
Proof.
  revert c. induction t as [|l IHl q h r IHr]; intros c H; simpl; [by intros ?%not_elem_of_nil|].
  intros [Hp|[->|Hp]%elem_of_cons]%elem_of_app.
  - destruct (IHl _ (sound_left _ _ _ _ _ _ H) Hp) as (l' & h' & r' & c' & H' & E).
    exists l', h', r', c'. split; [done|]. by rewrite E, whole_up_l.
  - by exists l, h, r, c.
  - destruct (IHr _ (sound_right _ _ _ _ _ _ H) Hp) as (l' & h' & r' & c' & H' & E).
    exists l', h', r', c'. split; [done|]. by rewrite E, whole_up_r.
Qed.

Definition is_left (f : frame) : Prop := match f with FL _ _ _ => True | FR _ _ _ => False end.

(** Down to the leftmost node. *)
Lemma go_left_ok fuel : forall st l p h r c, sound st (Node l p h r) c -> (length (elems (Node l p h r)) <= fuel)%nat ->
  exists q k s lf, go_left fuel p st = Some q /\ sound st (Node Leaf q k s) (lf ++ c) /\ Forall is_left lf
    /\ whole (Node Leaf q k s) (lf ++ c) = whole (Node l p h r) c.
Proof.
  induction fuel as [|fuel IH]; intros st l p h r c H Hf; simpl in Hf; rewrite length_app in Hf; simpl in Hf; [lia|].
  cbn [go_left]. rewrite (shaped_get _ _ _ _ _ _ (proj1 H)). cbn [mbind option_bind n_left].
  destruct l as [|l1 p1 h1 r1]; simpl ptr.
  - exists p, h, r, []. done.
  - apply sound_left in H. destruct (IH _ _ _ _ _ _ H) as (q & k & s & lf & E & H' & F & W); [lia|].
    exists q, k, s, (lf ++ [FL p h r]). split; [exact E|]. rewrite <- app_assoc. split; [done|].
    split; [apply Forall_app; split; [done|by constructor]|]. cbn [app]. by rewrite W, whole_up_l.
Qed.

Lemma lefts_before lf c : Forall is_left lf -> before (lf ++ c) = before c.
Proof. induction 1 as [|[] lf]; simpl; done. Qed.

(** ** Unlinking *)

(** A node with at most one child is replaced by it. *)
Lemma unlink_ok st l p h r c child :
  sound st (Node l p h r) c -> (l = Leaf /\ child = r \/ r = Leaf /\ child = l) ->
  exists st1 st2, _avl_child_replace (Some p) (ptr child) (cpar c) st = Some st1
    /\ set_parent (ptr child) (cpar c) st1 = Some st2
    /\ shaped st2 child c /\ balanced child /\ height child = h - 1 /\ get p st2 = get p st
    /\ agree (whole (Node l p h r) c) st st2.
Proof.
  intros (((Hp & Hl & Hr) & Hc & ND) & (Bl & Br & Hh & Hd) & _) Hch.
  colour ND [before c; elems l; [p]; elems r; after c] f. simpl ptr in Hc.
  pose proof (agree_refl (whole (Node l p h r) c) st) as Acc. rewrite Hp.
  assert (Hs : shape st (Some p) child) by (destruct Hch as [[_ ->]|[_ ->]]; done).
  pose proof (height_nonneg _ Bl). pose proof (height_nonneg _ Br).
  destruct Hch as [[-> ->]|[-> ->]]; simpl in Hd, Hh.
  - run_replace Hc st1 Hc1. exists st1. run_parent Hs st2 Hs2. exists st2.
    split; [done|]. split; [done|]. split; [split; [done|]; split; [done|distinct]|].
    split; [done|]. split; [lia|done].
  - run_replace Hc st1 Hc1. exists st1. run_parent Hs st2 Hs2. exists st2.
    split; [done|]. split; [done|]. split; [split; [done|]; split; [done|distinct]|].
    split; [done|]. split; [lia|done].
Qed.

(** The successor [m], already unlinked, takes the place of [old]. *)
Lemma take_place_ok st l old h r c m n :
  shaped st (Node l old h r) c -> l ≠ Leaf -> get m st = Some n -> m ∉ whole (Node l old h r) c ->
  exists st', take_place old m st = Some st' /\ shaped st' (Node l m h r) c
    /\ agree (m :: whole (Node l old h r) c) st st' /\ is_Some (get old st').
Proof.
  intros ((Ho & Hl & Hr) & Hc & ND') Hne Hm Hnew.
  assert (ND : NoDup (m :: whole (Node l old h r) c)) by (by apply NoDup_cons).
  colour ND [[m]; before c; elems l; [old]; elems r; after c] f. simpl ptr in Hc.
  pose proof (agree_refl (m :: whole (Node l old h r) c) st) as Acc. unfold take_place.
  rewrite Ho. cbn [mbind option_bind n_left n_right n_parent n_height].
  run_upd Hm st1 Hm1. rewrite Ho. cbn [mbind option_bind n_left n_right n_parent n_height].
  run_replace Hc st2 Hc2. rewrite Ho. cbn [mbind option_bind n_left n_right n_parent n_height].
  assert (Hq : exists q, ptr l = Some q) by (destruct l; [done|by eexists]). destruct Hq as [q Hq].
  rewrite Hq. cbn [mbind option_bind]. rewrite <- Hq.
  run_parent Hl st3 Hl3. rewrite Ho. cbn [mbind option_bind n_left n_right n_parent n_height].
  destruct (set_parent_ok st3 _ (Some m) _ Hr ltac:(distinct)) as (st4 & -> & Hr4 & R & A). carry A R.
  exists st4. split; [done|]. split; [split; [done|split; [done|distinct]]|]. split; [done|by eexists].
Qed.

Lemma cbalanced_rename lf l p p' h c k : cbalanced (lf ++ FR l p h :: c) k -> cbalanced (lf ++ FR l p' h :: c) k.
Proof. revert k. induction lf as [|[q i s|s q i] lf IH]; intros k; simpl; [done|naive_solver..]. Qed.

Lemma plug_unlink lf l p h c t m k s :
  Forall is_left lf -> whole (Node Leaf m k s) (lf ++ FR l p h :: c) = before c ++ elems l ++ p :: m :: elems s ++ after (lf ++ FR l p h :: c)
  /\ whole t (lf ++ FR l m h :: c) = before c ++ elems l ++ m :: elems t ++ after (lf ++ FR l m h :: c)
  /\ after (lf ++ FR l p h :: c) = after (lf ++ FR l m h :: c).
Proof.
  intros F. unfold whole. rewrite !lefts_before by done. simpl. rewrite <- !app_assoc. split; [done|]. split; [done|].
  induction F as [|[q i u|u q i] lf _ F IH]; simpl; [done|by rewrite IH|done].
Qed.

Lemma whole_hole_right lf l p h c t : Forall is_left lf ->
  whole t (lf ++ FR l p h :: c) = (before c ++ elems l) ++ p :: elems t ++ after (lf ++ FR l p h :: c).
Proof. intros F. unfold whole. rewrite !lefts_before by done. simpl. by rewrite <- !app_assoc. Qed.

Lemma cpar_lefts lf l p h c : Forall is_left lf ->
  cpar (lf ++ FR l p h :: c) = match lf with [] => Some p | _ => cpar lf end.
Proof. intros F. by destruct lf. Qed.

Lemma whole_middle l p h r c : whole (Node l p h r) c = (before c ++ elems l) ++ p :: elems r ++ after c.
Proof. unfold whole. simpl. by rewrite <- !app_assoc. Qed.

(** The result of [avl_node_erase]: balanced, without the node, which itself and
    everything else outside the tree is left alone. *)
Definition erased (st st' : avl) (a : list positive) (p : positive) (b : list positive) : Prop :=
  exists T, shaped st' T [] /\ balanced T /\ elems T = a ++ b /\ agree (a ++ p :: b) st st' /\ is_Some (get p st').

Lemma erase_one st l p h r c child :
  sound st (Node l p h r) c -> (l = Leaf /\ child = r \/ r = Leaf /\ child = l) ->
  exists st1 st2 st', _avl_child_replace (Some p) (ptr child) (cpar c) st = Some st1
    /\ set_parent (ptr child) (cpar c) st1 = Some st2
    /\ _avl_node_rebalance (fuel_of st2) (cpar c) st2 = Some st'
    /\ erased st st' (before c ++ elems l) p (elems r ++ after c).
Proof.
  intros H Hch. destruct (unlink_ok _ _ _ _ _ _ _ H Hch) as (st1 & st2 & E1 & E2 & S2 & B2 & Hh & Hp & A2).
  destruct H as (((Hn & _) & _ & ND) & _ & C). simpl in C.
  destruct (rebalance_ok st2 child c h (fuel_of st2) S2 B2 C) as (st' & E3 & T & S & B & E & A);
    [lia|apply Nat.lt_le_incl; by eapply path_fuel|].
  exists st1, st2, st'. do 3 (split; [done|]). rewrite whole_middle in *.
  assert (Hw : whole child c = (before c ++ elems l) ++ elems r ++ after c).
  { unfold whole. destruct Hch as [[-> ->]|[-> ->]]; simpl; rewrite ?app_nil_r, <- ?app_assoc; done. }
  rewrite Hw in *. exists T. split; [done|]. split; [done|]. split; [done|].
  apply NoDup_app in ND as (_ & ND1 & ND2). apply NoDup_cons in ND2 as [ND2 _].
  assert (Hpn : p ∉ (before c ++ elems l) ++ elems r ++ after c).
  { intros [Hq|Hq]%elem_of_app; [|done]. apply (ND1 p Hq). by apply elem_of_cons; left. }
  split; [eapply agree_step; [exact A2|exact A|]|].
  - intros q. rewrite !elem_of_app, elem_of_cons, elem_of_app. tauto.
  - rewrite (A p Hpn), Hp, Hn. by eexists.
Qed.

(** The same, in the order in which the successor of a node is unlinked. *)
Lemma unlink_successor_ok st m k s c :
  sound st (Node Leaf m k s) c ->
  exists st1 st2, set_parent (ptr s) (cpar c) st = Some st1
    /\ _avl_child_replace (Some m) (ptr s) (cpar c) st1 = Some st2
    /\ shaped st2 s c /\ balanced s /\ height s = k - 1
    /\ get m st2 = Some (mknode None (ptr s) (cpar c) k) /\ agree (whole (Node Leaf m k s) c) st st2.
Proof.
  intros (((Hp & _ & Hs) & Hc & ND) & (_ & Bs & Hh & Hd) & _).
  colour ND [before c; [m]; elems s; after c] f. simpl ptr in *.
  pose proof (agree_refl (whole (Node Leaf m k s) c) st) as Acc. pose proof (height_nonneg _ Bs). simpl in Hd, Hh.
  run_parent Hs st1 Hs1. exists st1. run_replace Hc st2 Hc2. exists st2.
  split; [done|]. split; [done|]. split; [split; [done|]; split; [done|distinct]|].
  split; [done|]. split; [lia|]. split; done.
Qed.

Lemma erased_sets (a b : list positive) p q : q ∈ a ++ b -> q ∈ a ++ p :: b.
Proof. rewrite !elem_of_app, elem_of_cons. tauto. Qed.

Lemma NoDup_middle (a b : list positive) p : NoDup (a ++ p :: b) -> p ∉ a ++ b.
Proof.
  rewrite NoDup_app, NoDup_cons. intros (_ & H & Hp & _) [Hq|Hq]%elem_of_app; [|done].
  apply (H p Hq). apply elem_of_cons. by left.
Qed.

(** A node with two children: its successor is unlinked and takes its place. *)
Lemma erase_two st l p h r c :
  sound st (Node l p h r) c -> l ≠ Leaf -> r ≠ Leaf ->
  exists st', avl_node_erase p st = Some st' /\ erased st st' (before c ++ elems l) p (elems r ++ after c).
Proof.
  intros Hs Hl Hr. pose proof Hs as (S & _ & _). pose proof S as (_ & _ & ND).
  unfold avl_node_erase. rewrite (shaped_get _ _ _ _ _ _ S). cbn [mbind option_bind n_left n_right].
  assert (Hlp : exists q, ptr l = Some q) by (destruct l; [done|by eexists]). destruct Hlp as [lp ->].
  destruct r as [|r1 rp rh r2] eqn:Er; [done|]. rewrite <- Er in *. replace (ptr r) with (Some rp) by (by rewrite Er).
  pose proof (sound_right _ _ _ _ _ _ Hs) as Hsr. rewrite Er in Hsr.
  destruct (go_left_ok (fuel_of st) _ _ _ _ _ _ Hsr) as (m & k & s & lf & Eg & Hm & F & W).
  { pose proof (fuel_enough _ _ _ (proj1 Hsr)) as Hf. unfold whole in Hf. rewrite !length_app in Hf. lia. }
  rewrite Eg. cbn [mbind option_bind]. rewrite (shaped_get _ _ _ _ _ _ (proj1 Hm)). cbn [mbind option_bind n_right n_parent].
  rewrite whole_up_r, <- Er in W. destruct (plug_unlink lf l p h c s m k s F) as (W1 & W2 & W3).
  destruct (unlink_successor_ok _ _ _ _ _ Hm) as (st1 & st2 & -> & E2 & S2 & Bs & Hsh & Hgm & A2).
  cbn [mbind option_bind]. rewrite E2. cbn [mbind option_bind]. rewrite Hgm. cbn [mbind option_bind n_parent].
  pose proof ND as ND1. rewrite <- W, W1 in ND1. rewrite <- W, W1 in ND. rewrite W in A2.
  assert (Hb : m :: elems s ++ after (lf ++ FR l p h :: c) = elems r ++ after c).
  { rewrite W1, whole_middle, <- app_assoc in W. apply app_inv_head, app_inv_head in W. congruence. }
  pose proof Hm as (_ & _ & Cm). simpl in Cm.
  apply shaped_app, shaped_up_r in S2.
  assert (Hw : whole (Node l p h (plug s lf)) c = (before c ++ elems l) ++ p :: elems s ++ after (lf ++ FR l p h :: c)).
  { rewrite <- whole_up_r, <- whole_plug, (whole_hole_right lf l p h c s F). done. }
  assert (Hmn : m ∉ whole (Node l p h (plug s lf)) c).
  { rewrite Hw. rewrite app_assoc in ND. change (p :: m :: ?x) with ([p] ++ m :: x) in ND.
    rewrite app_assoc in ND. apply NoDup_middle in ND. by rewrite <- app_assoc in ND. }
  destruct (take_place_ok _ _ _ _ _ _ _ _ S2 Hl Hgm Hmn) as (st3 & -> & S3 & A3 & Hold).
  cbn [mbind option_bind].
  assert (Hpar : (if decide (cpar (lf ++ FR l p h :: c) = Some p) then Some m else cpar (lf ++ FR l p h :: c))
                 = cpar (lf ++ FR l m h :: c)).
  { destruct lf as [|[q i u|u q i] lf]; simpl; [by rewrite decide_True| |by apply Forall_cons in F as [[] _]].
    rewrite decide_False; [done|]. intros [= ->]. rewrite app_assoc in ND. apply NoDup_app in ND as (_ & _ & ND).
    apply NoDup_cons in ND as [ND _]. apply ND. simpl. apply elem_of_cons. right. apply elem_of_app. right.
    apply elem_of_cons. by left. }
  rewrite Hpar. apply (proj2 (shaped_up_r _ _ _ _ _ _)), (proj2 (shaped_app _ _ _ _)) in S3.
  destruct (rebalance_ok st3 s (lf ++ FR l m h :: c) k (fuel_of st3)) as (st' & E4 & T & S4 & B4 & E & A4);
    [done|done|by eapply cbalanced_rename|lia|by apply Nat.lt_le_incl, (path_fuel _ s)|].
  exists st'. split; [exact E4|]. exists T. split; [done|]. split; [done|].
  rewrite W2, <- W3, Hb, app_assoc in E. split; [done|].
  rewrite whole_middle in A2. rewrite W2, <- W3, Hb, app_assoc in A4.
  rewrite app_assoc in ND. rewrite Hb in ND. split.
  - eapply agree_step; [eapply agree_step; [exact A2|exact A3|]|exact A4|apply erased_sets].
    rewrite Hw, <- Hb. intros q. rewrite elem_of_cons, !elem_of_app, !elem_of_cons, elem_of_app. tauto.
  - rewrite (A4 p); [done|]. by apply NoDup_middle in ND.
Qed.

Lemma erase_ok st l p h r c :
  sound st (Node l p h r) c ->
  exists st', avl_node_erase p st = Some st' /\ erased st st' (before c ++ elems l) p (elems r ++ after c).
Proof.
  intros H. assert (Htwo : (l ≠ Leaf /\ r ≠ Leaf) \/ (l = Leaf \/ r = Leaf)) by (destruct l, r; auto).
  destruct Htwo as [[Hl Hr]|Hone]; [by eapply erase_two|].
  set (child := match l with Leaf => r | _ => l end).
  assert (Hch : l = Leaf /\ child = r \/ r = Leaf /\ child = l).
  { unfold child. destruct l; [by left|]. destruct Hone as [|]; [done|by right]. }
  pose proof H as (S & _). unfold avl_node_erase. rewrite (shaped_get _ _ _ _ _ _ S).
  cbn [mbind option_bind n_left n_right n_parent].
  assert (Hc : (match ptr l with None => ptr r | Some _ => ptr l end) = ptr child) by (unfold child; by destruct l).
  destruct (erase_one _ _ _ _ _ _ _ H Hch) as (st1 & st2 & st' & E1 & E2 & E3 & He). exists st'. split; [|done].
  rewrite <- Hc in E1, E2. clear -Hone E1 E2 E3.
  destruct Hone as [-> | ->]; cbn [ptr] in *; [|destruct (ptr l)];
    rewrite E1; cbn [mbind option_bind]; cbn [set_parent] in *; rewrite E2; cbn [mbind option_bind]; exact E3.
Qed.

(** ** Trees as lists of nodes *)

(** The tree stands for the list [es] of its nodes in order. *)
Definition is_tree (t : avl_tree) (es : list positive) : Prop :=
  exists T, shaped (t_avl t) T [] /\ balanced T /\ elems T = es /\ t_count t = u64 (Z.of_nat (length es)).

(** What a comparison function promises: it compares the keys of its arguments. *)
Class Compares {A} (cmp : A -> positive -> Z) (ka : A -> Z) (key : positive -> Z) : Prop := {
  cmp_eq a p : cmp a p = 0 <-> ka a = key p;
  cmp_lt a p : cmp a p < 0 <-> ka a < key p;
}.

Definition sorted (key : positive -> Z) : list positive -> Prop := StronglySorted (fun p q => key p < key q).

Definition below (key : positive -> Z) (x : Z) (l : list positive) : Prop := forall q, q ∈ l -> key q < x.
Definition above (key : positive -> Z) (x : Z) (l : list positive) : Prop := forall q, q ∈ l -> x < key q.

Lemma sorted_middle key a p b : sorted key (a ++ p :: b) ->
  below key (key p) a /\ above key (key p) b /\ sorted key (a ++ b).
Proof.
  unfold sorted. rewrite !StronglySorted_app, StronglySorted_cons, Forall_forall.
  intros (H1 & H2 & H3 & H4). split; [|split].
  - intros q Hq. apply H1; [done|]. apply elem_of_cons. by left.
  - intros q Hq. by apply H3.
  - split; [|done]. intros q q' Hq Hq'. apply H1; [done|]. apply elem_of_cons. by right.
Qed.

Lemma sorted_insert key a p b : sorted key (a ++ b) -> below key (key p) a -> above key (key p) b ->
  sorted key (a ++ p :: b).
Proof.
  unfold sorted. rewrite !StronglySorted_app, StronglySorted_cons, Forall_forall. intros (H1 & H2 & H3) Ha Hb.
  split; [|done]. intros q q' Hq [->|Hq']%elem_of_cons; [by apply Ha|by apply H1].
Qed.

Lemma is_tree_sound t es : is_tree t es -> exists T, sound (t_avl t) T [] /\ elems T = es /\ t_count t = u64 (Z.of_nat (length es)).
Proof. intros (T & S & B & E & C). by exists T. Qed.

Lemma root_ok st T : shaped st T [] -> a_root st = ptr T.
Proof. by intros (_ & H & _). Qed.

(** The part of the search path that is sorted around a key. *)
Lemma sorted_node key l p h r c : sorted key (whole (Node l p h r) c) ->
  below key (key p) (before c ++ elems l) /\ above key (key p) (elems r ++ after c).
Proof. rewrite whole_middle. intros H%sorted_middle. tauto. Qed.

(** ** Searching *)

Section Find.
Context {A : Type} (find_compare : A -> positive -> Z) (ka : A -> Z) (key : positive -> Z)
  `{!Compares find_compare ka key}.

Definition with_key (x : Z) (l : list positive) : option positive := head (filter (fun q => key q = x) l).

Lemma with_key_none x l : (forall q, q ∈ l -> key q ≠ x) -> with_key x l = None.
Proof using.
  intros H. unfold with_key. induction l as [|q l IH]; [done|]. rewrite filter_cons_False.
  - apply IH. intros q' Hq'. apply H. apply elem_of_cons. by right.
  - apply H. apply elem_of_cons. by left.
Qed.

Lemma with_key_middle x a p b : key p = x -> (forall q, q ∈ a -> key q ≠ x) -> with_key x (a ++ p :: b) = Some p.
Proof using.
  intros Hp Ha. apply with_key_none in Ha. unfold with_key in *. rewrite filter_app.
  destruct (filter _ a); [|done]. simpl. by rewrite filter_cons_True.
Qed.

(** A search from a subtree needs no more steps than the tree is high. *)
Lemma tree_find_loop_ok x t : forall st par fuel, shape st par t -> sorted key (elems t) -> balanced t ->
  height t <= Z.of_nat fuel -> find_loop find_compare fuel x (ptr t) st = Some (with_key (ka x) (elems t)).
Proof using Type*.
  induction t as [|l IHl p h r IHr]; intros st par fuel S Hs B Hf; [by destruct fuel|].
  destruct S as (Hp & Sl & Sr). destruct B as (Bl & Br & Hh & Hd).
  pose proof (height_nonneg l Bl). pose proof (height_nonneg r Br).
  simpl in Hf. destruct fuel as [|fuel]; [lia|]. cbn [find_loop ptr]. rewrite Hp. cbn [mbind option_bind n_left n_right].
  pose proof (sorted_middle _ _ _ _ Hs) as (Hlo & Hhi & _). simpl elems.
  pose proof (cmp_eq x p) as Heq. pose proof (cmp_lt x p) as Hlt.
  assert (Hsl : sorted key (elems l)) by (by apply StronglySorted_app in Hs as (_ & ? & _)).
  assert (Hsr : sorted key (elems r)) by (apply StronglySorted_app in Hs as (_ & _ & Hr); by apply StronglySorted_cons in Hr as [_ ?]).
  case_decide as Hc0; [|case_decide as Hc1].
  - rewrite with_key_middle; [done|symmetry; by apply Heq|]. intros q Hq%Hlo. apply Heq in Hc0. lia.
  - rewrite (IHl st (Some p)); [|done..|lia]. unfold with_key. f_equal. rewrite filter_app.
    destruct (filter _ (elems l)); [|done]. simpl. symmetry. apply with_key_none.
    apply Hlt in Hc1. intros q [->|Hq%Hhi]%elem_of_cons; lia.
  - rewrite (IHr st (Some p)); [|done..|lia]. unfold with_key. f_equal. rewrite filter_app.
    assert (Hp' : key p < ka x) by (destruct (Z.lt_trichotomy (ka x) (key p)) as [?|[?|?]]; [tauto|tauto|done]).
    rewrite filter_cons_False by lia.
    replace (filter (fun q => key q = ka x) (elems l)) with (@nil positive); [done|].
    symmetry. assert (Hn : with_key (ka x) (elems l) = None) by (apply with_key_none; intros q Hq%Hlo; lia).
    unfold with_key in Hn. by destruct (filter _ (elems l)).
Qed.

End Find.

(** A balanced tree is low: twice the logarithm of its size. *)
Lemma height_bound t : balanced t -> 2 ^ height t <= (Z.of_nat (length (elems t)) + 1) ^ 2.
Proof.
  induction t as [|l IHl p h r IHr]; simpl; [done|]. intros (Bl & Br & -> & Hd).
  specialize (IHl Bl). specialize (IHr Br). pose proof (height_nonneg l Bl). pose proof (height_nonneg r Br).
  rewrite length_app. simpl. set (a := Z.of_nat (length (elems l))) in *. set (b := Z.of_nat (length (elems r))) in *.
  replace (Z.of_nat (length (elems l) + S (length (elems r))) + 1) with (a + b + 2) by lia.
  assert (0 <= a) by lia. assert (0 <= b) by lia.
  rewrite Z.pow_add_r by lia. rewrite Z.pow_2_r in *. change (2 ^ 1) with 2.
  destruct (Z.max_spec (height l) (height r)) as [[Hlt ->]|[Hge ->]].
  - assert (height r <= height l + 1) by lia.
    assert (2 ^ height r <= 2 * ((a + 1) * (a + 1))).
    { etransitivity; [apply (Z.pow_le_mono_r 2 _ (height l + 1)); lia|]. rewrite Z.pow_add_r by lia. nia. }
    nia.
  - assert (height l <= height r + 1) by lia.
    assert (2 ^ height l <= 2 * ((b + 1) * (b + 1))).
    { etransitivity; [apply (Z.pow_le_mono_r 2 _ (height r + 1)); lia|]. rewrite Z.pow_add_r by lia. nia. }
    nia.
Qed.

Lemma height_le_size t : balanced t -> height t <= Z.of_nat (length (elems t)).
Proof.
  induction t as [|l IHl p h r IHr]; simpl; [done|]. intros (Bl & Br & -> & _).
  specialize (IHl Bl). specialize (IHr Br). rewrite length_app. simpl. lia.
Qed.

Lemma fuel_height st t : sound st t [] -> height t <= Z.of_nat (fuel_of st).
Proof.
  intros (S & B & _). pose proof (height_le_size t B). pose proof (fuel_enough _ _ _ S) as Hf.
  unfold whole in Hf. simpl in Hf. rewrite app_nil_r in Hf. lia.
Qed.

(** ** Adding *)

Definition link_of (c : context) : link :=
  match c with [] => LRoot | FL p _ _ :: _ => LLeft p | FR _ p _ :: _ => LRight p end.

Lemma deref_link_ok st t c : shaped st t c -> deref_link (link_of c) st = Some (ptr t).
Proof.
  intros (_ & Hc & _). destruct c as [|[p h r|l p h] c]; simpl in *; [by rewrite Hc| |];
    destruct Hc as (-> & _); done.
Qed.

Lemma assign_link_ok st c p : cshape st c None -> NoDup (around c) ->
  exists st', assign_link (link_of c) (Some p) st = Some st' /\ cshape st' c (Some p) /\ agree (around c) st st'.
Proof.
  unfold around. destruct c as [|[q h r|l q h] c]; cbn [before after cshape link_of assign_link]; intros Hs Hd.
  - eexists. split; [done|]. split; [done|]. by intros ? _.
  - destruct Hs as (Hq & Hr & Hc).
    destruct (upd_ok q (fun n => n <| n_left := Some p |>) st _ Hq) as (st' & -> & Hq' & Hroot & A).
    exists st'. split; [done|]. rewrite Permutation_app_comm in Hd. simpl in Hd.
    apply NoDup_cons in Hd as [Hd1 Hd2]. split; [|eapply agree_mono; [exact A|set_solver]].
    split; [done|]. split; [eapply shape_agree; [exact A| |done]; set_solver|].
    eapply cshape_agree; [exact A|done| |done]. unfold around. set_solver.
  - destruct Hs as (Hq & Hl & Hc).
    destruct (upd_ok q (fun n => n <| n_right := Some p |>) st _ Hq) as (st' & -> & Hq' & Hroot & A).
    exists st'. split; [done|]. rewrite <- !app_assoc in Hd. apply NoDup_app in Hd as (Hd1 & Hd2 & Hd3).
    apply NoDup_app in Hd3 as (Hd3 & Hd4 & Hd5). simpl in *. apply NoDup_cons in Hd5 as [Hd5 Hd6].
    split; [|eapply agree_mono; [exact A|set_solver]].
    split; [done|]. split; [eapply shape_agree; [exact A| |done]; set_solver|].
    eapply cshape_agree; [exact A|done| |done]. unfold around. set_solver.
Qed.

(** The new node is linked into its place. *)
Lemma link_in_ok st c d n : sound st Leaf c -> get d st = Some n -> d ∉ around c ->
  exists st1 st2 st3, upd d (fun _ => mknode None None (cpar c) 0) st = Some st1
    /\ assign_link (link_of c) (Some d) st1 = Some st2 /\ set_height d 1 st2 = Some st3
    /\ get d st3 = Some (mknode None None (cpar c) 1)
    /\ shaped st3 (Node Leaf d 1 Leaf) c /\ agree (whole (Node Leaf d 1 Leaf) c) st st3.
Proof.
  intros ((_ & Hc & ND0) & _) Hd Hnew. simpl ptr in Hc. unfold whole in ND0. simpl in ND0.
  assert (ND : NoDup (d :: around c)) by (apply NoDup_cons; done).
  colour ND [[d]; before c; after c] f. pose proof (agree_refl (whole (Node Leaf d 1 Leaf) c) st) as Acc.
  run_upd Hd st1 Hd1. exists st1.
  destruct (assign_link_ok st1 c d Hc ltac:(distinct)) as (st2 & E2 & Hc2 & A2). carry A2 A2. exists st2.
  unfold set_height.
  destruct (upd_ok d (fun n => n <| n_height := 1 |>) st2 _ Hd1) as (st3 & E3 & Hd3 & R & A). carry A R.
  exists st3. do 3 (split; [done|]). split; [done|]. split; [|done]. split; [done|]. split; [done|]. distinct.
Qed.

Section Add.
Context (compare : positive -> positive -> Z) (key : positive -> Z) `{!Compares compare key key}.

(** The search ends at the node with the key, or at the place for it. *)
Lemma add_loop_ok d t : forall st c fuel, sound st t c -> sorted key (whole t c) ->
  below key (key d) (before c) -> above key (key d) (after c) -> (length (elems t) <= fuel)%nat ->
  (exists p, add_loop compare fuel d (link_of c) (cpar c) st = Some (inl p) /\ p ∈ elems t /\ key p = key d)
  \/ (exists c', add_loop compare fuel d (link_of c) (cpar c) st = Some (inr (link_of c', cpar c'))
      /\ sound st Leaf c' /\ whole Leaf c' = whole t c /\ below key (key d) (before c') /\ above key (key d) (after c')).
Proof using Type*.
  induction t as [|l IHl p h r IHr]; intros st c fuel H Hs Hb Ha Hf; pose proof H as (S & _);
    (destruct fuel as [|fuel]; cbn [add_loop]; rewrite (deref_link_ok _ _ _ S); cbn [mbind option_bind ptr]).
  1-2: right; by exists c.
  - simpl in Hf. rewrite length_app in Hf. simpl in Hf. lia.
  - pose proof (cmp_eq d p) as Heq. pose proof (cmp_lt d p) as Hlt.
    simpl in Hf. rewrite length_app in Hf. simpl in Hf.
    pose proof (sorted_node _ _ _ _ _ _ Hs) as [Hlo Hhi]. case_decide as Hc0; [|case_decide as Hc1].
    + left. exists p. split; [done|]. split; [simpl; set_solver|]. symmetry. by apply Heq.
    + apply Hlt in Hc1. apply sound_left in H.
      destruct (IHl st (FL p h r :: c) fuel H) as [(q & E & Hq & Hk)|(c' & E & H' & W & Hb' & Ha')];
        [by rewrite whole_up_l|done| |lia| |].
      * intros q. simpl. intros [->|Hq%Hhi]%elem_of_cons; lia.
      * left. exists q. split; [exact E|]. split; [simpl; set_solver|done].
      * right. exists c'. split; [exact E|]. split; [done|]. by rewrite W, whole_up_l.
    + assert (Hc2 : key p < key d) by (destruct (Z.lt_trichotomy (key d) (key p)) as [?|[?|?]]; [tauto|tauto|done]).
      apply sound_right in H.
      destruct (IHr st (FR l p h :: c) fuel H) as [(q & E & Hq & Hk)|(c' & E & H' & W & Hb' & Ha')];
        [by rewrite whole_up_r| |done|lia| |].
      * intros q. simpl. rewrite app_assoc. intros [Hq%Hlo|Hq]%elem_of_app; [lia|].
        apply list_elem_of_singleton in Hq as ->. lia.
      * left. exists q. split; [exact E|]. split; [simpl; set_solver|done].
      * right. exists c'. split; [exact E|]. split; [done|]. by rewrite W, whole_up_r.
Qed.

Lemma tree_add_ok d t es : is_tree t es -> sorted key es -> is_Some (get d (t_avl t)) -> d ∉ es ->
  (exists p, p ∈ es /\ key p = key d /\ avl_tree_add compare d t = Some (t, Some p))
  \/ (exists t' a b, es = a ++ b /\ avl_tree_add compare d t = Some (t', None)
      /\ is_tree t' (a ++ d :: b) /\ sorted key (a ++ d :: b) /\ agree (a ++ d :: b) (t_avl t) (t_avl t')).
Proof using Type*.
  intros Ht Hs [n Hd] Hnew. destruct (is_tree_sound _ _ Ht) as (T & H & E & C).
  pose proof (fuel_enough _ _ _ (proj1 H)) as Hf. unfold whole in Hf. simpl in Hf. rewrite app_nil_r in Hf.
  destruct (add_loop_ok d T (t_avl t) [] (fuel_of (t_avl t)) H) as [(p & El & Hp & Hk)|(c & El & Hc & W & Hb & Ha)];
    [by unfold whole; simpl; rewrite app_nil_r, E|by intros q ?%not_elem_of_nil|by intros q ?%not_elem_of_nil|lia| |].
  - left. exists p. rewrite <- E. split; [done|]. split; [done|]. unfold avl_tree_add. cbn [link_of cpar] in El. by rewrite El.
  - right. unfold whole in W. simpl in W. rewrite app_nil_r, E in W.
    destruct (link_in_ok _ _ d n Hc Hd) as (st1 & st2 & st3 & E1 & E2 & E3 & Hd3 & S3 & A3); [unfold around; by rewrite W|].
    destruct (insert_ok st3 (Node Leaf d 1 Leaf) c 0 (fuel_of st3) S3) as (st4 & E4 & T' & S4 & B4 & El4 & A4);
      [done|apply Hc|simpl; lia|apply Nat.lt_le_incl; by eapply path_fuel|].
    exists (mktree st4 (u64 (t_count t + 1))), (before c), (after c). split; [done|]. split.
    { unfold avl_tree_add, avl_node_post_insert. cbn [link_of cpar] in El. rewrite El. cbn [mbind option_bind]. rewrite E1.
      cbn [mbind option_bind]. rewrite E2. cbn [mbind option_bind]. rewrite E3. cbn [mbind option_bind].
      rewrite Hd3. cbn [mbind option_bind n_parent]. by rewrite E4. }
    unfold whole in El4, A3, A4. simpl in El4, A3, A4.
    split; [|split; [|by eapply agree_trans]].
    + exists T'. split; [done|]. split; [done|]. split; [done|]. simpl. rewrite C, <- W, u64_add_l. f_equal.
      rewrite !length_app. simpl. lia.
    + apply sorted_insert; [by rewrite W|done|done].
Qed.
End Add.

(** ** Removing *)

Lemma whole_nil t : whole t [] = elems t.
Proof. unfold whole. simpl. by rewrite app_nil_r. Qed.

Lemma NoDup_split (a a' b b' : list positive) p :
  NoDup (a ++ p :: b) -> a ++ p :: b = a' ++ p :: b' -> a = a' /\ b = b'.
Proof.
  revert a'. induction a as [|x a IH]; intros [|y a'] ND E; simpl in *.
  - by injection E as ->.
  - injection E as <- ->. apply NoDup_cons in ND as [ND _]. set_solver.
  - injection E as -> E. apply NoDup_cons in ND as [ND _]. set_solver.
  - injection E as -> E. apply NoDup_cons in ND as [_ ND]. by destruct (IH a' ND E) as [-> ->].
Qed.

Lemma u64_pred x : u64 (u64 x - 1) = u64 (x - 1).
Proof. apply Zminus_mod_idemp_l. Qed.

Lemma remove_ok t a p b : is_tree t (a ++ p :: b) ->
  exists t', avl_tree_remove p t = Some t' /\ is_tree t' (a ++ b) /\ avl_node_empty p (t_avl t') = Some true
    /\ agree (a ++ p :: b) (t_avl t) (t_avl t').
Proof.
  intros Ht. destruct (is_tree_sound _ _ Ht) as (T & H & E & C).
  destruct (locate _ _ _ p H) as (l & h & r & c & Hn & W); [rewrite E; set_solver|].
  rewrite whole_nil, E in W.
  pose proof Hn as (S & _). pose proof S as (_ & _ & ND). rewrite whole_middle in W, ND. rewrite W in ND.
  assert (Hab : before c ++ elems l = a /\ elems r ++ after c = b).
  { rewrite <- W in ND. by apply (NoDup_split _ _ _ _ p ND). }
  destruct Hab as [Ha Hb].
  assert (Hne : cpar c ≠ Some p).
  { intros Hc. rewrite <- Ha, <- Hb in ND. apply NoDup_middle in ND. apply ND.
    destruct c as [|[q i u|u q i] c]; simpl in *; [done|simplify_eq; set_solver..]. }
  destruct (erase_ok _ _ _ _ _ _ Hn) as (st' & Ee & T' & S' & B' & E' & A' & [n' Hp']).
  rewrite Ha, Hb in *. unfold avl_tree_remove, avl_node_empty.
  rewrite (shaped_get _ _ _ _ _ _ S). cbn [mbind option_bind n_parent]. rewrite bool_decide_false by done.
  rewrite Ee. cbn [mbind option_bind]. unfold avl_node_init.
  destruct (upd_ok p (fun n => n <| n_parent := Some p |>) st' _ Hp') as (st2 & -> & Hp2 & R2 & A2). cbn [mbind option_bind].
  apply NoDup_middle in ND.
  eexists. split; [done|]. split; [|split].
  - exists T'. split; [|split; [done|split; [done|]]].
    + destruct S' as (S1 & S2 & S3). split; [|split; [|done]].
      * eapply shape_agree; [exact A2| |exact S1]. intros q Hq. rewrite E' in Hq. set_solver.
      * simpl in *. congruence.
    + simpl. rewrite C, u64_pred. f_equal. rewrite !length_app. simpl. lia.
  - simpl. rewrite Hp2. cbn [mbind option_bind n_parent set_field]. by rewrite bool_decide_true.
  - eapply agree_step; [exact A'|exact A2|]. set_solver.
Qed.

(** ** Walking *)

Lemma go_left_head t : forall fuel st par p, shape st par t -> ptr t = Some p -> (length (elems t) <= fuel)%nat ->
  go_left fuel p st = head (elems t).
Proof.
  induction t as [|l IHl q h r IHr]; intros fuel st par p S; [done|]. intros [= ->] Hf.
  destruct S as (Hp & Sl & Sr). simpl in Hf. rewrite length_app in Hf. simpl in Hf.
  destruct fuel as [|fuel]; [lia|]. cbn [go_left]. rewrite Hp. cbn [mbind option_bind n_left].
  destruct (ptr l) as [q|] eqn:El.
  - rewrite (IHl fuel st (Some p) q); [|done|done|lia]. simpl. destruct l; [done|]. simpl. by destruct (elems l1).
  - by destruct l.
Qed.

Lemma go_right_last t : forall fuel st par p, shape st par t -> ptr t = Some p -> (length (elems t) <= fuel)%nat ->
  go_right fuel p st = last (elems t).
Proof.
  induction t as [|l IHl q h r IHr]; intros fuel st par p S; [done|]. intros [= ->] Hf.
  destruct S as (Hp & Sl & Sr). simpl in Hf. rewrite length_app in Hf. simpl in Hf.
  destruct fuel as [|fuel]; [lia|]. cbn [go_right elems]. rewrite Hp. cbn [mbind option_bind n_right].
  rewrite last_app_cons, last_cons. destruct (ptr r) as [q|] eqn:Er.
  - rewrite (IHr fuel st (Some p) q); [|done|done|lia].
    destruct (last (elems r)) eqn:El; [done|]. apply last_None in El.
    destruct r; [done|]. simpl in El. by apply app_eq_nil in El as [_ ?].
  - by destruct r.
Qed.

Lemma sizes_fuel st t c : shaped st t c -> (length (elems t) <= fuel_of st)%nat.
Proof. intros H%fuel_enough. unfold whole in H. rewrite !length_app in H. lia. Qed.

Lemma up_from_left_ok c : forall st t p fuel, shaped st t c -> ptr t = Some p -> (length c < fuel)%nat ->
  up_from_left fuel p st = Some (head (after c)).
Proof.
  induction c as [|[q i u|u q i] c IH]; intros st t p fuel S Hp Hf; (destruct fuel as [|fuel]; [simpl in Hf; lia|]);
    cbn [up_from_left]; destruct (shaped_parent _ _ _ _ S Hp) as (n & -> & Hn); cbn [mbind option_bind]; rewrite Hn;
    cbn [cpar after]; [done| |]; pose proof S as (_ & (Hq & _) & ND); rewrite Hq; cbn [mbind option_bind n_left].
  - by rewrite decide_True.
  - rewrite decide_False.
    + apply (IH st (Node u q i t)); [by apply shaped_up_r|done|simpl in Hf; lia].
    + intros E%ptr_elem. apply ptr_elem in Hp. rewrite whole_up_r in ND. unfold whole in ND. simpl in ND.
      apply NoDup_app in ND as (_ & _ & (ND & _)%NoDup_app). apply NoDup_app in ND as (_ & ND & _).
      apply (ND p E). apply elem_of_cons. by right.
Qed.

Lemma up_from_right_ok c : forall st t p fuel, shaped st t c -> ptr t = Some p -> (length c < fuel)%nat ->
  up_from_right fuel p st = Some (last (before c)).
Proof.
  induction c as [|[q i u|u q i] c IH]; intros st t p fuel S Hp Hf; (destruct fuel as [|fuel]; [simpl in Hf; lia|]);
    cbn [up_from_right]; destruct (shaped_parent _ _ _ _ S Hp) as (n & -> & Hn); cbn [mbind option_bind]; rewrite Hn;
    cbn [cpar before]; [done| |]; pose proof S as (_ & (Hq & _) & ND); rewrite Hq; cbn [mbind option_bind n_right].
  - rewrite decide_False.
    + apply (IH st (Node t q i u)); [by apply shaped_up_l|done|simpl in Hf; lia].
    + intros E%ptr_elem. apply ptr_elem in Hp. rewrite whole_up_l in ND. unfold whole in ND. simpl in ND.
      apply NoDup_app in ND as (_ & _ & (ND & _)%NoDup_app). apply NoDup_app in ND as (_ & ND & _).
      apply (ND p Hp). apply elem_of_cons. by right.
  - rewrite decide_True by done. by rewrite app_assoc, last_snoc.
Qed.

Lemma next_ok st l p h r c : shaped st (Node l p h r) c -> avl_node_next (Some p) st = Some (head (elems r ++ after c)).
Proof.
  intros S. unfold avl_node_next. rewrite (shaped_get _ _ _ _ _ _ S). cbn [mbind option_bind n_right].
  destruct (ptr r) as [q|] eqn:Er.
  - apply shaped_up_r in S. rewrite (go_left_head r _ _ _ _ (proj1 S) Er) by by eapply sizes_fuel.
    destruct r as [|r1 x i r2]; [done|]. simpl. by destruct (elems r1).
  - destruct r; [|done]. cbn [elems app]. by apply (up_from_left_ok c st _ p _ S), (path_fuel _ _ _ S).
Qed.

Lemma prev_ok st l p h r c : shaped st (Node l p h r) c -> avl_node_prev (Some p) st = Some (last (before c ++ elems l)).
Proof.
  intros S. unfold avl_node_prev. rewrite (shaped_get _ _ _ _ _ _ S). cbn [mbind option_bind n_left].
  destruct (ptr l) as [q|] eqn:El.
  - apply shaped_up_l in S. rewrite (go_right_last l _ _ _ _ (proj1 S) El) by by eapply sizes_fuel.
    rewrite last_app. destruct l as [|l1 x i l2]; [done|]. simpl elems. rewrite last_app_cons.
    rewrite last_cons. by destruct (last (elems l2)).
  - destruct l; [|done]. cbn [elems]. rewrite app_nil_r. by apply (up_from_right_ok c st _ p _ S), (path_fuel _ _ _ S).
Qed.

Lemma walk_ok t es : is_tree t es ->
  avl_tree_first t = Some (head es) /\ avl_tree_last t = Some (last es)
  /\ forall a p b, es = a ++ p :: b ->
     avl_tree_next t (Some p) = Some (head b) /\ avl_tree_prev t (Some p) = Some (last a).
Proof.
  intros (T & S & B & E & _). pose proof (sizes_fuel _ _ _ S) as Hf. pose proof (root_ok _ _ S) as Hr. split; [|split].
  - unfold avl_tree_first, avl_node_first. rewrite Hr. destruct (ptr T) as [p|] eqn:Ep; [|by destruct T; simplify_eq].
    rewrite (go_left_head T _ _ _ _ (proj1 S) Ep) by done. rewrite <- E.
    destruct T as [|T1 x i T2]; [done|]. simpl. by destruct (elems T1).
  - unfold avl_tree_last, avl_node_last. rewrite Hr. destruct (ptr T) as [p|] eqn:Ep; [|by destruct T; simplify_eq].
    rewrite (go_right_last T _ _ _ _ (proj1 S) Ep) by done. rewrite <- E.
    destruct T as [|T1 x i T2]; [done|]. simpl elems. rewrite last_app_cons, last_cons. by destruct (last (elems T2)).
  - intros a p b ->. destruct (locate (t_avl t) T [] p) as (l & h & r & c & (S' & _) & W); [done|rewrite E; set_solver|].
    pose proof S' as (_ & _ & ND). rewrite whole_middle in W, ND. rewrite whole_nil, E in W.
    destruct (NoDup_split _ _ _ _ p ND W) as [<- <-]. split; [by apply (next_ok _ _ _ _ _ _ S')|by apply (prev_ok _ _ _ _ _ _ S')].
Qed.

(** ** Clearing *)

Lemma sink_ok fuel : forall st t c p, shaped st t c -> ptr t = Some p -> (length (elems t) <= fuel)%nat ->
  exists q k c', sink fuel p st = Some q /\ shaped st (Node Leaf q k Leaf) c' /\ whole (Node Leaf q k Leaf) c' = whole t c.
Proof.
  induction fuel as [|fuel IH]; intros st t c p S Hp Hf; (destruct t as [|l q h r]; [done|]);
    simpl in Hf; rewrite length_app in Hf; simpl in Hf; [lia|]. injection Hp as ->.
  cbn [sink]. rewrite (shaped_get _ _ _ _ _ _ S). cbn [mbind option_bind n_left n_right].
  destruct (ptr l) as [lp|] eqn:El; [|destruct (ptr r) as [rp|] eqn:Er].
  - apply shaped_up_l in S. rewrite <- whole_up_l. apply (IH _ _ _ _ S El). lia.
  - apply shaped_up_r in S. rewrite <- whole_up_r. apply (IH _ _ _ _ S Er). lia.
  - destruct l; [|done]. destruct r; [|done]. by exists p, h, c.
Qed.

Lemma whole_leaf q k c : whole (Node Leaf q k Leaf) c = before c ++ q :: after c.
Proof. done. Qed.

(** Cutting the leaf [q] off, and marking it as empty. *)
Lemma cut_ok st q k c : shaped st (Node Leaf q k Leaf) c -> c ≠ [] ->
  exists m i u v c' st1 st2 st3 n, cpar c = Some m /\ get m st = Some n
    /\ (if decide (n_left n = Some q) then upd m (fun n => n <| n_left := None |>) st
        else upd m (fun n => n <| n_right := None |>) st) = Some st1
    /\ set_height q 0 st1 = Some st2 /\ avl_node_init q st2 = Some st3
    /\ shaped st3 (Node u m i v) c' /\ whole (Node u m i v) c' = around c
    /\ avl_node_empty q st3 = Some true /\ agree (whole (Node Leaf q k Leaf) c) st st3.
Proof.
  intros ((Hq & _) & Hc & ND0) Hne. unfold set_height, avl_node_init, avl_node_empty.
  destruct c as [|[m i u|u m i] c]; [done| |]; cbn [ptr cshape] in Hc; destruct Hc as (Hm & Hu & Hc).
  - colour ND0 [before c; [q]; [m]; elems u; after c] f.
    pose proof (agree_refl (whole (Node Leaf q k Leaf) (FL m i u :: c)) st) as Acc.
    exists m, i, Leaf, u, c. rewrite Hm.
    destruct (upd_ok m (fun n => n <| n_left := None |>) st _ Hm) as (st1 & E1 & Hm1 & R1 & A1). carry A1 R1.
    destruct (upd_ok q (fun n => n <| n_height := 0 |>) st1 _ Hq) as (st2 & E2 & Hq2 & R2 & A2). carry A2 R2.
    destruct (upd_ok q (fun n => n <| n_parent := Some q |>) st2 _ Hq2) as (st3 & E3 & Hq3 & R3 & A3). carry A3 R3.
    exists st1, st2, st3. eexists. split; [done|]. split; [done|]. cbn [n_left]. rewrite decide_True by done.
    do 3 (split; [done|]). split; [split; [done|split; [done|distinct]]|]. split; [done|].
    rewrite Hq3. cbn. by rewrite bool_decide_true.
  - colour ND0 [before c; elems u; [m]; [q]; after c] f.
    pose proof (agree_refl (whole (Node Leaf q k Leaf) (FR u m i :: c)) st) as Acc.
    exists m, i, u, Leaf, c. rewrite Hm.
    destruct (upd_ok m (fun n => n <| n_right := None |>) st _ Hm) as (st1 & E1 & Hm1 & R1 & A1). carry A1 R1.
    destruct (upd_ok q (fun n => n <| n_height := 0 |>) st1 _ Hq) as (st2 & E2 & Hq2 & R2 & A2). carry A2 R2.
    destruct (upd_ok q (fun n => n <| n_parent := Some q |>) st2 _ Hq2) as (st3 & E3 & Hq3 & R3 & A3). carry A3 R3.
    exists st1, st2, st3. eexists. split; [done|]. split; [done|]. cbn [n_left].
    rewrite decide_False.
    2:{ intros E%ptr_elem. match goal with H : forall x, x ∈ elems u -> _, H' : forall x, x ∈ [q] -> _ |- _ =>
          pose proof (H q E); pose proof (H' q (proj2 (list_elem_of_singleton q q) eq_refl)); congruence end. }
    do 3 (split; [done|]). split; [split; [done|split; [done|distinct]]|].
    split; [unfold whole, around; simpl; by rewrite <- !app_assoc|].
    rewrite Hq3. cbn. by rewrite bool_decide_true.
Qed.

(** What is left when [ps] have been destroyed. *)
Definition cleared (st : avl) (cnt : Z) (es : list positive) (t' : avl_tree) (ps : list positive) : Prop :=
  ps ≡ₚ es /\ a_root (t_avl t') = None /\ t_count t' = u64 (cnt - Z.of_nat (length es))
  /\ (forall q, q ∈ es -> avl_node_empty q (t_avl t') = Some true) /\ agree es st (t_avl t').

Lemma clear_loop_ok n : forall st t c cnt next fuel, length (whole t c) = n -> shaped st t c -> t ≠ Leaf ->
  (next = ptr t \/ (next = None /\ c = [])) -> (n <= fuel)%nat ->
  exists t' ps, clear_loop fuel next (mktree st cnt) = Some (t', ps) /\ cleared st cnt (whole t c) t' ps.
Proof.
  induction n as [|n IH]; intros st t c cnt next fuel Hn S Ht Hnext Hf.
  { destruct t; [done|]. unfold whole in Hn. simpl in Hn. rewrite !length_app in Hn. simpl in Hn. lia. }
  assert (Hp : exists p, ptr t = Some p) by (destruct t; [done|by eexists]). destruct Hp as [p Hp].
  assert (Hstart : match next with Some p => Some p | None => a_root st end = Some p).
  { destruct Hnext as [-> |[-> ->]]; [by rewrite Hp|]. rewrite (root_ok _ _ S). done. }
  destruct fuel as [|fuel]; [lia|]. cbn [clear_loop t_avl]. unfold avl_node_tear. rewrite Hstart.
  destruct (sink_ok (fuel_of st) st t c p S Hp) as (q & k & c' & -> & S' & W); [by eapply sizes_fuel|].
  cbn [mbind option_bind]. rewrite (shaped_get _ _ _ _ _ _ S'). cbn [mbind option_bind n_parent].
  rewrite <- W in *. rewrite whole_leaf, length_app in Hn. simpl in Hn. destruct c' as [|fr c'].
  - cbn [cpar mbind option_bind]. unfold avl_node_init. match goal with |- context [upd q ?f ?s] =>
      destruct (upd_ok q f s _ (proj1 (proj1 S'))) as (st2 & -> & Hq2 & R2 & A2) end.
    cbn [mbind option_bind].
    exists (mktree st2 (u64 (cnt - 1))), [q]. split.
    + destruct fuel; cbn [clear_loop t_avl]; unfold avl_node_tear; rewrite R2; done.
    + split; [done|]. split; [done|]. split; [done|]. split; [|done].
      intros q' Hq'. apply list_elem_of_singleton in Hq' as ->. unfold avl_node_empty. cbn [t_avl]. rewrite Hq2. cbn.
      by rewrite bool_decide_true.
  - destruct (cut_ok _ _ _ _ S' ltac:(done)) as (m & i & u & v & c2 & st1 & st2 & st3 & nd & Ep & Em & E1 & E2 & E3 & S3 & W3 & Hempty & A3).
    rewrite Ep, Em. cbn [mbind option_bind]. rewrite E1. cbn [mbind option_bind]. rewrite E2. cbn [mbind option_bind].
    rewrite E3. cbn [mbind option_bind].
    destruct (IH st3 (Node u m i v) c2 (u64 (cnt - 1)) (Some m) fuel) as (t' & ps & E & Hps & Hroot & Hcnt & Hemp & A);
      [rewrite W3; unfold around; rewrite length_app; simpl in *; lia|done|done|by left|lia|].
    cbn [t_count]. rewrite E. cbn [mbind option_bind t_count]. exists t', (q :: ps). split; [done|]. rewrite W3 in *.
    pose proof S' as (_ & _ & ND). rewrite whole_leaf in ND. pose proof (NoDup_middle _ _ _ ND) as Hq.
    rewrite whole_leaf in A3 |- *. split; [|split; [done|split; [|split]]].
    + rewrite Hps. unfold around. by rewrite Permutation_middle.
    + rewrite Hcnt. unfold u64, wrap. rewrite Zminus_mod_idemp_l. f_equal. unfold around.
      rewrite !length_app. simpl. lia.
    + intros q' Hq'. destruct (decide (q' = q)) as [->|Hne]; [|apply Hemp; unfold around; set_solver].
      unfold avl_node_empty. by rewrite (A q).
    + eapply agree_step; [exact A3|exact A|]. unfold around. set_solver.
Qed.

Lemma clear_ok t es : is_tree t es ->
  exists t' ps, avl_tree_clear t = Some (t', ps) /\ cleared (t_avl t) (t_count t) es t' ps /\ t_count t' = 0.
Proof.
  intros (T & S & B & E & C). unfold avl_tree_clear. pose proof (fuel_enough _ _ _ S) as Hf. destruct t as [st cnt].
  rewrite whole_nil in Hf. cbn [t_avl t_count] in *.
  assert (Hz : u64 (cnt - Z.of_nat (length es)) = 0).
  { rewrite C. unfold u64, wrap. rewrite Zminus_mod_idemp_l. by rewrite Z.sub_diag. }
  destruct T as [|l p h r].
  - pose proof (root_ok _ _ S) as Hr. simpl in E. subst es. exists (mktree st cnt), []. split.
    + unfold fuel_of. cbn [clear_loop t_avl]. unfold avl_node_tear. by rewrite Hr.
    + split; [|by rewrite C]. split; [done|]. split; [done|]. split; [by rewrite C|]. split; [by intros ? ?%not_elem_of_nil|done].
  - destruct (clear_loop_ok _ st (Node l p h r) [] cnt None (fuel_of st) eq_refl S) as (t' & ps & Ec & Hcl);
      [done|by right|rewrite whole_nil; lia|].
    rewrite whole_nil, E in Hcl. exists t', ps. split; [done|]. split; [done|]. destruct Hcl as (_ & _ & -> & _). done.
Qed.

(** ** Replacing *)

Lemma replace_ok t a v b w : is_tree t (a ++ v :: b) -> w ∉ a ++ v :: b -> is_Some (get w (t_avl t)) ->
  exists t', avl_tree_replace v w t = Some t' /\ is_tree t' (a ++ w :: b)
    /\ avl_node_empty v (t_avl t') = Some true /\ agree (w :: a ++ v :: b) (t_avl t) (t_avl t').
Proof.
  intros Ht Hw [nw Hgw]. destruct (is_tree_sound _ _ Ht) as (T & H & E & C).
  destruct (locate _ _ _ v H) as (l & h & r & c & (((Hv & Hl & Hr) & Hc & ND0) & B) & W); [rewrite E; set_solver|].
  rewrite whole_nil, E in W. assert (ND : NoDup (w :: whole (Node l v h r) c)).
  { apply NoDup_cons. split; [by rewrite W|done]. }
  destruct t as [st cnt]. cbn [t_avl t_count] in *. simpl ptr in Hc.
  colour ND [[w]; before c; elems l; [v]; elems r; after c] f.
  pose proof (agree_refl (w :: whole (Node l v h r) c) st) as Acc.
  unfold avl_tree_replace, avl_node_replace, avl_node_init. cbn [t_avl t_count].
  rewrite Hv. cbn [mbind option_bind n_left n_right n_parent n_height].
  run_replace Hc st1 Hc1. rewrite Hv. cbn [mbind option_bind n_left n_right n_parent n_height].
  run_parent Hl st2 Hl2. rewrite Hv. cbn [mbind option_bind n_left n_right n_parent n_height].
  run_parent Hr st3 Hr3. rewrite Hv. cbn [mbind option_bind n_left n_right n_parent n_height].
  run_upd Hgw st4 Hw4. run_upd Hv st5 Hv5.
  exists (mktree st5 cnt). split; [done|].
  assert (S5 : shaped st5 (Node l w h r) c) by (split; [done|]; split; [done|distinct]).
  assert (Hab : before c ++ elems l = a /\ elems r ++ after c = b).
  { rewrite whole_middle in W, ND0. by apply (NoDup_split _ _ _ _ v ND0). }
  destruct Hab as [<- <-]. rewrite W in Acc. split; [|split; [|done]].
  - exists (plug (Node l w h r) c). split; [by apply shaped_plug|]. split; [apply balanced_plug; apply B|].
    split; [by rewrite elems_plug, whole_middle|]. simpl. rewrite C. do 2 f_equal. by rewrite !length_app.
  - unfold avl_node_empty. cbn [t_avl]. rewrite Hv5. cbn. by rewrite bool_decide_true.
Qed.

(** ** The properties *)

(** C22: Adding a node to a sorted, balanced tree gives back the node with the
    same key, if there is one, and changes nothing; otherwise the node is put
    where its key belongs, the tree is balanced again, and no other node of the
    store is touched. *)
Theorem avl_add_correct compare key `{!Compares compare key key} d t es :
  is_tree t es -> sorted key es -> is_Some (get d (t_avl t)) -> d ∉ es ->
  (exists p, p ∈ es /\ key p = key d /\ avl_tree_add compare d t = Some (t, Some p))
  \/ (exists t' a b, es = a ++ b /\ avl_tree_add compare d t = Some (t', None)
      /\ is_tree t' (a ++ d :: b) /\ sorted key (a ++ d :: b) /\ agree (a ++ d :: b) (t_avl t) (t_avl t')).
Proof. apply tree_add_ok. apply _. Qed.

Definition by_number (p q : positive) : Z := Z.pos p - Z.pos q.
#[export] Instance by_number_compares : Compares by_number Z.pos Z.pos.
Proof. split; unfold by_number; lia. Qed.

Definition blank : avl_node := mknode None None None 0.
Definition demo_store : gmap positive avl_node := list_to_map ((fun p => (p, blank)) <$> [1; 2; 3; 4; 5; 6]%positive).
Definition demo_tree : option avl_tree :=
  foldl (fun t p => t ← t; fst <$> avl_tree_add by_number p t) (Some (avl_tree_init demo_store)) [5; 4; 3; 1; 2]%positive.

Definition demo : avl_tree := default (avl_tree_init ∅) demo_tree.

Lemma demo_ok : is_tree demo [1; 2; 3; 4; 5]%positive.
Proof.
  exists (Node (Node (Node Leaf 1 1 Leaf) 2 2 (Node Leaf 3 1 Leaf)) 4 3 (Node Leaf 5 1 Leaf))%positive.
  split; [split; [|split]|split; [|split]].
  - repeat split; vm_compute; reflexivity.
  - vm_compute. reflexivity.
  - apply (bool_decide_unpack _). vm_compute. reflexivity.
  - simpl. repeat split; vm_compute; discriminate.
  - reflexivity.
  - vm_compute. reflexivity.
Qed.

Lemma demo_sorted : sorted Z.pos [1; 2; 3; 4; 5]%positive.
Proof. repeat constructor. Qed.

Lemma avl_add_correct_witness :
  (exists p, p ∈ [1; 2; 3; 4; 5]%positive /\ Z.pos p = 6 /\ avl_tree_add by_number 6 demo = Some (demo, Some p))
  \/ (exists t' a b, [1; 2; 3; 4; 5]%positive = a ++ b /\ avl_tree_add by_number 6 demo = Some (t', None)
      /\ is_tree t' (a ++ 6%positive :: b) /\ sorted Z.pos (a ++ 6%positive :: b)
      /\ agree (a ++ 6%positive :: b) (t_avl demo) (t_avl t')).
Proof.
  apply (avl_add_correct by_number Z.pos 6 demo [1; 2; 3; 4; 5]%positive);
    [apply demo_ok|apply demo_sorted|exists blank; vm_compute; reflexivity|].
  apply (bool_decide_unpack _). vm_compute. reflexivity.
Defined.

(** C23: Removing a node of the tree takes it out of the order, the tree is
    balanced again, no other node of the store is touched, and the node is
    marked so that removing it again changes nothing. *)
Theorem avl_remove_correct t a p b : is_tree t (a ++ p :: b) ->
  exists t', avl_tree_remove p t = Some t' /\ is_tree t' (a ++ b) /\ avl_tree_remove p t' = Some t'
    /\ agree (a ++ p :: b) (t_avl t) (t_avl t').
Proof.
  intros H. destruct (remove_ok t a p b H) as (t' & E & Ht & He & A). exists t'.
  split; [done|]. split; [done|]. split; [|done]. unfold avl_tree_remove. by rewrite He.
Qed.

Lemma avl_remove_correct_witness :
  exists t', avl_tree_remove 4 demo = Some t' /\ is_tree t' [1; 2; 3; 5]%positive /\ avl_tree_remove 4 t' = Some t'
    /\ agree [1; 2; 3; 4; 5]%positive (t_avl demo) (t_avl t').
Proof. apply (avl_remove_correct demo [1; 2; 3]%positive 4 [5]%positive), demo_ok. Defined.

(** C24: A search finds the node with the key, if there is one, and looks at no
    more nodes than twice the logarithm of their number. *)
Theorem avl_find_correct {A} find_compare (ka : A -> Z) key `{!Compares find_compare ka key} t es x :
  is_tree t es -> sorted key es ->
  avl_tree_find find_compare t x = Some (with_key key (ka x) es)
  /\ exists h, 2 ^ h <= (Z.of_nat (length es) + 1) ^ 2
       /\ forall fuel, h <= Z.of_nat fuel ->
          find_loop find_compare fuel x (a_root (t_avl t)) (t_avl t) = Some (with_key key (ka x) es).
Proof.
  intros Ht Hs. destruct (is_tree_sound _ _ Ht) as (T & H & E & _). pose proof H as (S & B & _).
  rewrite <- E in *.
  assert (Hf : forall fuel, height T <= Z.of_nat fuel ->
    find_loop find_compare fuel x (a_root (t_avl t)) (t_avl t) = Some (with_key key (ka x) (elems T))).
  { intros fuel Hf. rewrite (root_ok _ _ S). by apply (tree_find_loop_ok _ _ _ x T (t_avl t) None fuel (proj1 S)). }
  split; [apply Hf; by apply fuel_height|]. exists (height T). split; [by apply height_bound|done].
Qed.

Lemma avl_find_correct_witness :
  avl_tree_find by_number demo 3%positive = Some (with_key Z.pos 3 [1; 2; 3; 4; 5]%positive)
  /\ exists h, 2 ^ h <= (Z.of_nat (length [1; 2; 3; 4; 5]%positive) + 1) ^ 2
       /\ forall fuel, h <= Z.of_nat fuel ->
          find_loop by_number fuel 3%positive (a_root (t_avl demo)) (t_avl demo) = Some (with_key Z.pos 3 [1; 2; 3; 4; 5]%positive).
Proof. apply (avl_find_correct by_number Z.pos Z.pos demo _ 3%positive demo_ok demo_sorted). Defined.

(** [first], [next], [last] and [prev] walk over the nodes in order. *)
Lemma avl_walk_correct t es : is_tree t es ->
  avl_tree_first t = Some (head es) /\ avl_tree_last t = Some (last es)
  /\ forall a p b, es = a ++ p :: b ->
     avl_tree_next t (Some p) = Some (head b) /\ avl_tree_prev t (Some p) = Some (last a).
Proof. apply walk_ok. Qed.


(** Clearing hands every node to [destroy] exactly once, marks all of them as
    empty, and leaves an empty tree with the count 0. *)
Lemma avl_clear_correct t es : is_tree t es ->
  exists t' ps, avl_tree_clear t = Some (t', ps) /\ ps ≡ₚ es /\ is_tree t' []
    /\ (forall q, q ∈ es -> avl_node_empty q (t_avl t') = Some true) /\ agree es (t_avl t) (t_avl t').
Proof.
  intros H. destruct (clear_ok t es H) as (t' & ps & E & (Hp & Hr & _ & He & A) & Hc). exists t', ps.
  split; [done|]. split; [done|]. split; [|done]. exists Leaf. split; [|done].
  split; [done|]. split; [done|apply NoDup_nil_2].
Qed.

