(* ===== verification/Xtree.v ===== *)
(** * The prefix tree of [xnet/xtree.h]

    A node is an array of sixteen child pointers followed by its [struct xnode];
    a key of bytes is a path of half-bytes, the high one first.  The nodes live
    in a store; [calloc] is a parameter that gives the address of a new node, or
    [None].  Reading or writing a node that is not there is a fault. *)

From S2P Require Import Prelude.

Definition TREE_DIMENSION : Z := 16.
Definition TREE_MAX_INDEX : Z := TREE_DIMENSION - 1.

Record xnode := mkxnode {
  x_child : list (option positive);
  x_mapping : option Z; x_parent : option positive;
  x_route : Z; x_branch : Z; x_leaves : Z; x_index : Z; x_x : Z;
}.

#[export] Instance eta_xnode : Settable xnode := fun n =>
  mkxnode (x_child n) (x_mapping n) (x_parent n) (x_route n) (x_branch n) (x_leaves n) (x_index n) (x_x n).

Abbreviation store := (gmap positive xnode).

Definition zero_node : xnode := mkxnode (replicate 16 None) None None 0 0 0 0 0.

Definition upd (p : positive) (f : xnode -> xnode) (st : store) : option store :=
  n ← st !! p; Some (<[p := f n]> st).

(** [tree[i]], and its assignment. *)
Definition child (p : positive) (i : Z) (st : store) : option (option positive) :=
  n ← st !! p; rd (x_child n) i.

Definition set_child (p : positive) (i : Z) (v : option positive) (st : store) : option store :=
  n ← st !! p; c ← wr (x_child n) i v; Some (<[p := n <| x_child := c |>]> st).

Definition xfree (p : positive) (st : store) : option store := _ ← st !! p; Some (delete p st).

(** [root] is what the pointer handed in points to; it is NULL afterwards. *)
Definition xtree_free (root : option positive) (st : store) : option (store * option positive) :=
  match root with
  | Some p => st ← xfree p st; Some (st, None)
  | None => Some (st, None)
  end.

Definition hi (b : Z) : Z := Z.shiftr b 4.
Definition lo (b : Z) : Z := Z.land b 0x0F.

Section Alloc.
Context (calloc : store -> option positive).

Definition xtree_create (st : store) : option (store * option positive) :=
  match calloc st with
  | Some p => Some (<[p := zero_node]> st, Some p)
  | None => Some (st, None)
  end.

(** ** Adding

    One half-byte down, making the child if it is not there; [None] in the
    result is [return NULL]. *)
Definition add_step (tree : positive) (i : Z) (st : store) : option (store * option positive) :=
  c ← child tree i st;
  '(st, ok) ← match c with
    | Some _ => Some (st, true)
    | None =>
        match calloc st with
        | None => Some (st, false)
        | Some p =>
            st ← set_child tree i (Some p) (<[p := zero_node]> st);
            st ← upd tree (fun n => n <| x_branch := u16 (x_branch n + 1) |>) st;
            Some (st, true)
        end
    end;
  if ok : bool then
    c ← child tree i st;
    t ← c;
    st ← upd t (fun n => n <| x_route := u64 (x_route n + 1) |> <| x_index := i |> <| x_parent := Some tree |>) st;
    Some (st, Some t)
  else Some (st, None).

(** The node reached, and its parent. *)
Fixpoint path_loop (key : list Z) (tree : positive) (parent : option positive) (st : store)
  : option (store * option (positive * option positive)) :=
  match key with
  | [] => Some (st, Some (tree, parent))
  | b :: key =>
      '(st, t) ← add_step tree (hi b) st;
      match t with
      | None => Some (st, None)
      | Some t1 =>
          '(st, t) ← add_step t1 (lo b) st;
          match t with
          | None => Some (st, None)
          | Some t2 => path_loop key t2 (Some t1) st
          end
      end
  end.

(** [key] is the [keylen] bytes of the key; without any [node] is not set. *)
Definition xtree_add (root : positive) (key : list Z) (mapping : option Z) (st : store)
  : option (store * option positive) :=
  st ← upd root (fun n => n <| x_route := u64 (x_route n + 1) |>) st;
  '(st, r) ← path_loop key root None st;
  match r with
  | None => Some (st, None)
  | Some (node, parent) =>
      parent ← parent;
      st ← upd node (fun n => n <| x_mapping := mapping |>) st;
      st ← upd parent (fun n => n <| x_leaves := u16 (x_leaves n + 1) |>) st;
      Some (st, Some node)
  end.
End Alloc.

(** ** Finding *)

Fixpoint down (key : list Z) (tree : option positive) (st : store) : option (option positive) :=
  match key with
  | [] => Some tree
  | b :: key =>
      match tree with
      | None => Some None
      | Some t =>
          t ← child t (hi b) st;
          match t with
          | None => Some None
          | Some t => t ← child t (lo b) st; down key t st
          end
      end
  end.

Definition xtree_find (root : positive) (key : list Z) (st : store) : option (option Z) :=
  t ← down key (Some root) st;
  match t with
  | Some t => n ← st !! t; Some (x_mapping n)
  | None => Some None
  end.

(** ** Deleting

    One half-byte up: the node is freed when no key goes through it any more. *)
Definition del_step (tree : positive) (i : Z) (st : store) : option (store * positive) :=
  n ← st !! tree;
  parent ← x_parent n;
  let r := u64 (x_route n - 1) in
  st ← upd tree (fun n => n <| x_route := r |>) st;
  st ← (if decide (r = 0) then
          st ← xfree tree st;
          st ← set_child parent i None st;
          upd parent (fun n => n <| x_branch := u16 (x_branch n - 1) |>) st
        else Some st);
  Some (st, parent).

(** [key] from its last byte on. *)
Fixpoint del_loop (key : list Z) (tree : positive) (st : store) : option store :=
  match key with
  | [] => Some st
  | b :: key =>
      '(st, tree) ← del_step tree (lo b) st;
      '(st, tree) ← del_step tree (hi b) st;
      del_loop key tree st
  end.

Definition xtree_del (root : positive) (key : list Z) (st : store) : option (store * option Z) :=
  t ← down key (Some root) st;
  match t with
  | None => Some (st, None)
  | Some tree =>
      st ← upd root (fun n => n <| x_route := u64 (x_route n - 1) |>) st;
      n ← st !! tree;
      let mapping := x_mapping n in
      st ← upd tree (fun n => n <| x_mapping := None |>) st;
      n ← st !! tree;
      parent ← x_parent n;
      st ← upd parent (fun n => n <| x_leaves := u16 (x_leaves n - 1) |>) st;
      st ← del_loop (reverse key) tree st;
      Some (st, mapping)
  end.

(** ** The smallest and the greatest key *)

Fixpoint skip_up (fuel : nat) (tree : positive) (i : Z) (st : store) : option Z :=
  match fuel with
  | O => None
  | S fuel => c ← child tree i st; match c with None => skip_up fuel tree (u8 (i + 1)) st | Some _ => Some i end
  end.

Fixpoint skip_down (fuel : nat) (tree : positive) (i : Z) (st : store) : option Z :=
  match fuel with
  | O => None
  | S fuel => c ← child tree i st; match c with None => skip_down fuel tree (u8 (i - 1)) st | Some _ => Some i end
  end.

Fixpoint min_loop (fuel : nat) (tree : positive) (st : store) : option (option Z) :=
  match fuel with
  | O => None
  | S fuel =>
      i ← skip_up 17 tree 0 st;
      c ← child tree i st;
      t ← c;
      n ← st !! t;
      match x_mapping n with Some v => Some (Some v) | None => min_loop fuel t st end
  end.

Definition tree_min (root : positive) (st : store) : option (option Z) :=
  n ← st !! root;
  if decide (x_route n > 0) then min_loop (S (size st)) root st else Some None.

Fixpoint max_loop (fuel : nat) (tree : positive) (st : store) : option (option Z) :=
  match fuel with
  | O => None
  | S fuel =>
      i ← skip_down 17 tree (TREE_DIMENSION - 1) st;
      c ← child tree i st;
      t ← c;
      n ← st !! t;
      if decide (x_branch n = 0) then Some (x_mapping n) else max_loop fuel t st
  end.

Definition tree_max (root : positive) (st : store) : option (option Z) :=
  n ← st !! root;
  if decide (x_route n > 0) then max_loop (S (size st)) root st else Some None.

(** ** Clearing *)

Fixpoint clear_inner (fuel : nat) (tree : positive) (i : Z) (st : store) : option positive :=
  match fuel with
  | O => None
  | S fuel =>
      if decide (i < TREE_DIMENSION) then
        c ← child tree i st;
        match c with
        | None => clear_inner fuel tree (u8 (i + 1)) st
        | Some t => n ← st !! t; if decide (x_branch n = 0) then Some t else clear_inner fuel t 0 st
        end
      else Some tree
  end.

(** The mappings passed to [clear], in order. *)
Fixpoint prune_loop (fuel : nat) (root : positive) (tree : option positive) (i : Z) (st : store)
  : option (store * list Z) :=
  match tree with
  | None => Some (st, [])
  | Some t =>
      r ← st !! root;
      if decide (x_branch r > 0) then
        match fuel with
        | O => None
        | S fuel =>
            temp ← clear_inner (17 * S (size st)) t i st;
            n ← st !! temp;
            let i := u8 (x_index n + 1) in
            let tree := x_parent n in
            '(st, out) ←
              (if decide (x_branch n = 0) then
                 parent ← tree;
                 st ← upd parent (fun n => n <| x_branch := u16 (x_branch n - 1) |>) st;
                 '(st, out) ← match x_mapping n with
                   | Some v => st ← upd root (fun n => n <| x_route := u64 (x_route n - 1) |>) st; Some (st, [v])
                   | None => Some (st, [])
                   end;
                 st ← xfree temp st;
                 st ← set_child parent (i - 1) None st;
                 Some (st, out)
               else Some (st, []));
            '(st, rest) ← prune_loop fuel root tree i st;
            Some (st, out ++ rest)
        end
      else Some (st, [])
  end.

Definition xtree_clear (root : positive) (st : store) : option (store * list Z) :=
  prune_loop (17 * S (size st)) root (Some root) 0 st.

(** ** Walking up and down the order

    The lists of nodes that [tree_rise] and [tree_drop] build; the memory for
    their cells is taken to be there.  [count] is a [uint64_t]. *)
Fixpoint climb (fuel : nat) (step : Z) (tree : option positive) (i : Z) (st : store) : option (option positive * Z) :=
  match tree with
  | None => Some (None, i)
  | Some t =>
      if decide (i > TREE_MAX_INDEX) then
        match fuel with
        | O => None
        | S fuel => n ← st !! t; climb fuel step (x_parent n) (u8 (x_index n + step)) st
        end
      else Some (Some t, i)
  end.

Fixpoint rise_inner (fuel : nat) (tree : positive) (i count : Z) (st : store) : option (positive * Z * list positive) :=
  match fuel with
  | O => None
  | S fuel =>
      if decide (i < TREE_DIMENSION) then
        c ← child tree i st;
        match c with
        | None =>
            if decide (i = TREE_MAX_INDEX) then Some (tree, count, [])
            else rise_inner fuel tree (u8 (i + 1)) count st
        | Some t =>
            n ← st !! t;
            match x_mapping n with
            | Some _ =>
                let count := u64 (count - 1) in
                if decide (x_route n = 1) then Some (t, count, [t])
                else '(t', count, l) ← rise_inner fuel t 0 count st; Some (t', count, t :: l)
            | None => rise_inner fuel t 0 count st
            end
        end
      else Some (tree, count, [])
  end.

Fixpoint rise_loop (fuel : nat) (tree : option positive) (i count : Z) (st : store) : option (list positive) :=
  match tree with
  | None => Some []
  | Some t =>
      if decide (count ≠ 0) then
        match fuel with
        | O => None
        | S fuel =>
            '(t, count, l) ← rise_inner (17 * S (size st)) t i count st;
            n ← st !! t;
            '(tree, i) ← climb (S (size st)) 1 (x_parent n) (u8 (x_index n + 1)) st;
            rest ← rise_loop fuel tree i count st;
            Some (l ++ rest)
        end
      else Some []
  end.

Definition tree_rise (root : positive) (key : option (list Z)) (count : Z) (st : store) : option (list positive) :=
  let fuel := S (size st) in
  match key with
  | None => rise_loop fuel (Some root) 0 count st
  | Some key =>
      t ← down key (Some root) st;
      match t with
      | None => Some []
      | Some t => l ← rise_loop fuel (Some t) 0 (u64 (count - 1)) st; Some (t :: l)
      end
  end.

Fixpoint drop_inner (fuel : nat) (tree : positive) (i count : Z) (st : store) : option (positive * Z * list positive) :=
  match fuel with
  | O => None
  | S fuel =>
      c ← child tree i st;
      match c with
      | None => if decide (i = 0) then Some (tree, count, []) else drop_inner fuel tree (u8 (i - 1)) count st
      | Some t =>
          n ← st !! t;
          if decide (x_branch n = 0) then Some (t, u64 (count - 1), [t])
          else drop_inner fuel t (TREE_DIMENSION - 1) count st
      end
  end.

(** A branch of [tree] has been gone through. *)
Definition drop_mark (tree : option positive) (count : Z) (st : store) : option (store * Z * list positive) :=
  match tree with
  | None => Some (st, count, [])
  | Some t =>
      st ← upd t (fun n => n <| x_x := u8 (x_x n + 1) |>) st;
      n ← st !! t;
      if decide (x_x n = x_branch n) then
        st ← upd t (fun n => n <| x_x := 0 |>) st;
        match x_mapping n with
        | Some _ => Some (st, u64 (count - 1), [t])
        | None => Some (st, count, [])
        end
      else Some (st, count, [])
  end.

Fixpoint drop_loop (fuel : nat) (tree : option positive) (i count : Z) (st : store)
  : option (store * list positive) :=
  match tree with
  | None => Some (st, [])
  | Some t =>
      if decide (count ≠ 0) then
        match fuel with
        | O => None
        | S fuel =>
            '(t, count, l1) ← drop_inner (17 * S (size st)) t i count st;
            n ← st !! t;
            let tree := x_parent n in
            let i := u8 (x_index n - 1) in
            '(st, count, l2) ← drop_mark tree count st;
            '(tree, i) ← climb (S (size st)) (-1) tree i st;
            '(st, rest) ← drop_loop fuel tree i count st;
            Some (st, l1 ++ l2 ++ rest)
        end
      else Some (st, [])
  end.

Definition tree_drop (root : positive) (key : option (list Z)) (count : Z) (st : store)
  : option (store * list positive) :=
  let fuel := S (size st) in
  match key with
  | None => drop_loop (2 * fuel) (Some root) (TREE_DIMENSION - 1) count st
  | Some key =>
      t ← down key (Some root) st;
      match t with
      | None => Some (st, [])
      | Some t =>
          n ← st !! t;
          '(tree, i) ← climb fuel (-1) (x_parent n) (u8 (x_index n - 1)) st;
          '(st, l) ← drop_loop (2 * fuel) tree i (u64 (count - 1)) st;
          Some (st, t :: l)
      end
  end.

(** ** Runs on small trees *)

(** The addresses are given out in order. *)
Definition next_free (st : store) : option positive := Some (Pos.of_succ_nat (size st)).

Definition grow (keys : list (list Z * Z)) : option (store * positive) :=
  '(st, root) ← xtree_create next_free ∅;
  root ← root;
  st ← foldl (fun st kv => st ← st; fst <$> xtree_add next_free root kv.1 (Some kv.2) st) (Some st) keys;
  Some (st, root).

Definition mappings (st : store) (l : list positive) : list (option Z) :=
  (fun p => n ← st !! p; x_mapping n) <$> l.

Definition rise_of (keys : list (list Z * Z)) (count : Z) : option (list (option Z)) :=
  '(st, root) ← grow keys; l ← tree_rise root None count st; Some (mappings st l).
Definition drop_of (keys : list (list Z * Z)) (count : Z) : option (list (option Z)) :=
  '(st, root) ← grow keys; '(st, l) ← tree_drop root None count st; Some (mappings st l).
Definition clear_of (keys : list (list Z * Z)) : option (list Z) :=
  '(st, root) ← grow keys; '(st, l) ← xtree_clear root st; Some l.
