(* ===== verification/XtreeMap.v ===== *)
(** * The prefix tree as a map

    What [xtree_add], [xtree_find] and [xtree_del] of [Xtree] promise: a map
    from keys to mappings, as long as a key is added once and deleted only when
    it is there. *)

From stdpp Require Import fin_maps functions.
From S2P Require Import Prelude Xtree.
#[local] Open Scope Z_scope.

(** ** Paths *)

(** The half-bytes of a key. *)
Definition path (key : list Z) : list Z := concat (map (fun b => [hi b; lo b]) key).

Lemma hi_range b : is_byte b -> 0 <= hi b < 16.
Proof. unfold is_byte, hi. rewrite Z.shiftr_div_pow2 by lia. change (2 ^ 4) with 16. dlia. Qed.
Lemma lo_range b : is_byte b -> 0 <= lo b < 16.
Proof. unfold is_byte, lo. intros. change 15 with (Z.ones 4). rewrite Z.land_ones by lia. apply Z.mod_pos_bound. lia. Qed.

Lemma hi_lo b : is_byte b -> b = hi b * 16 + lo b.
Proof.
  unfold is_byte, hi, lo. intros. rewrite Z.shiftr_div_pow2 by lia. change 15 with (Z.ones 4).
  rewrite Z.land_ones by lia. change (2 ^ 4) with 16. dlia.
Qed.

Lemma path_inj a b : is_bytes a -> is_bytes b -> path a = path b -> a = b.
Proof.
  intros Ha. revert b. induction Ha as [|x a Hx Ha IH]; intros [|y b] Hb E; try done.
  apply Forall_cons in Hb as [Hy Hb]. unfold path in E. simpl in E. injection E as E1 E2 E3.
  f_equal; [by rewrite (hi_lo x Hx), (hi_lo y Hy), E1, E2|by apply IH].
Qed.

Lemma path_cons b key : path (b :: key) = hi b :: lo b :: path key.
Proof. done. Qed.

Lemma path_nibbles key : is_bytes key -> Forall (fun i => 0 <= i < 16) (path key).
Proof.
  induction 1 as [|b key Hb _ IH]; [done|]. rewrite path_cons.
  repeat constructor; try done; by (apply hi_range || apply lo_range).
Qed.

(** ** The shape of the store

    [A] gives the address of the node at a path, [M] the mapping there and [R]
    the number of keys that go through it. *)
Record trie (st : store) (root : positive) (A : list Z -> option positive) (M : list Z -> option Z)
    (R : list Z -> Z) : Prop := {
  tr_root : A [] = Some root;
  tr_inj p p' q : A p = Some q -> A p' = Some q -> p = p';
  tr_up p i q : A (p ++ [i]) = Some q -> is_Some (A p) /\ 0 <= i < 16;
  tr_node p q : A p = Some q -> exists n, st !! q = Some n /\ length (x_child n) = 16%nat
    /\ (forall i, 0 <= i < 16 -> rd (x_child n) i = Some (A (p ++ [i])))
    /\ x_mapping n = M p /\ x_route n = R p
    /\ (p = [] -> x_parent n = None) /\ (forall p' i, p = p' ++ [i] -> x_parent n = A p');
  tr_none p : A p = None -> M p = None /\ R p = 0;
  tr_range p : 0 <= R p < 2 ^ 64 - 1;
}.

(** Everything but the fields the invariant does not speak of. *)
Definition same_fields (n n' : xnode) : Prop :=
  x_child n' = x_child n /\ x_mapping n' = x_mapping n /\ x_route n' = x_route n /\ x_parent n' = x_parent n.

Lemma trie_same st root A M R q n n' :
  trie st root A M R -> st !! q = Some n -> same_fields n n' -> trie (<[q := n']> st) root A M R.
Proof.
  intros H Hn (H1 & H2 & H3 & H4). destruct H as [Hr Hi Hu Hnode Hno Hrg]. split; try done.
  intros p q' Hp. destruct (decide (q = q')) as [->|Hne].
  - rewrite lookup_insert_eq. exists n'. split; [done|]. destruct (Hnode p q' Hp) as (n0 & E & Hf).
    assert (n0 = n) as -> by congruence. by rewrite H1, H2, H3, H4.
  - rewrite lookup_insert_ne by done. by apply Hnode.
Qed.

Lemma snoc_inj {X} (p p' : list X) i i' : p ++ [i] = p' ++ [i'] -> p = p' /\ i = i'.
Proof. apply app_inj_tail. Qed.

Lemma trie_child st root A M R p q i : trie st root A M R -> A p = Some q -> 0 <= i < 16 ->
  child q i st = Some (A (p ++ [i])).
Proof.
  intros H Hp Hi. destruct (tr_node _ _ _ _ _ H p q Hp) as (n & Hn & _ & Hc & _).
  unfold child. rewrite Hn. simpl. by apply Hc.
Qed.

Lemma trie_closed st root A M R : trie st root A M R -> forall p, A p = None -> forall i, A (p ++ [i]) = None.
Proof.
  intros H p Hp i. destruct (A (p ++ [i])) as [q|] eqn:E; [|done].
  destruct (tr_up _ _ _ _ _ H p i q E) as [[x Hx] _]. congruence.
Qed.

Lemma trie_closed_app st root A M R : trie st root A M R -> forall l p, A p = None -> A (p ++ l) = None.
Proof.
  intros H l. induction l as [|i l IHl]; intros u Hn; [by rewrite app_nil_r|].
  change (i :: l) with ([i] ++ l). rewrite app_assoc. apply IHl. by eapply trie_closed.
Qed.

(** Following the path of a key. *)
Lemma down_ok key st root A M R : trie st root A M R -> is_bytes key ->
  forall p, down key (A p) st = Some (A (p ++ path key)).
Proof.
  intros H Hk. induction Hk as [|b key Hb Hk IH]; intros p; cbn [down].
  - by rewrite app_nil_r.
  - rewrite path_cons. change (hi b :: lo b :: path key) with ([hi b] ++ [lo b] ++ path key). rewrite !app_assoc.
    destruct (A p) as [q|] eqn:Ep.
    + rewrite (trie_child _ _ _ _ _ _ _ _ H Ep (hi_range b Hb)). cbn [mbind option_bind].
      destruct (A (p ++ [hi b])) as [q1|] eqn:E1.
      * rewrite (trie_child _ _ _ _ _ _ _ _ H E1 (lo_range b Hb)). cbn [mbind option_bind]. apply IH.
      * f_equal. symmetry. rewrite <- app_assoc. by eapply trie_closed_app.
    + f_equal. symmetry. rewrite <- !app_assoc. by eapply trie_closed_app.
Qed.

(** ** One half-byte down *)

(** What [calloc] promises: it does not fail and gives a new address. *)
Definition calloc_ok (calloc : store -> option positive) : Prop :=
  forall st, exists q, calloc st = Some q /\ st !! q = None.

Definition bump (R : list Z -> Z) (p p' : list Z) : Z := if decide (p' = p) then R p' + 1 else R p'.

Lemma bump_range R p : (forall p', 0 <= R p' < 2 ^ 64 - 1) -> R p + 1 < 2 ^ 64 - 1 -> forall p', 0 <= bump R p p' < 2 ^ 64 - 1.
Proof. intros H Hp p'. unfold bump. specialize (H p'). case_decide; [subst; lia|lia]. Qed.

(** The fields that a step sets in the node it reaches. *)
Definition enter (t : positive) (i : Z) (n : xnode) : xnode :=
  n <| x_route := u64 (x_route n + 1) |> <| x_index := i |> <| x_parent := Some t |>.

Lemma snoc_neq {X} (p : list X) i : p ≠ p ++ [i].
Proof. intros E. apply (f_equal length) in E. rewrite length_app in E. simpl in E. lia. Qed.

Lemma enter_ok st root A M R t p i t' n :
  trie st root A M R -> A p = Some t -> A (p ++ [i]) = Some t' -> st !! t' = Some n -> R (p ++ [i]) + 1 < 2 ^ 64 - 1 ->
  trie (<[t' := enter t i n]> st) root A M (bump R (p ++ [i])).
Proof.
  intros H Hp Hpi Hn Hrng. pose proof H as [Hr Hi Hu Hnode Hno Hrg]. split; try done.
  - intros p' q Hq. destruct (Hnode p' q Hq) as (n0 & E0 & Hl & Hc & Hm & Hrt & Hroot & Hpar). unfold bump.
    destruct (decide (p' = p ++ [i])) as [->|Hne].
    + assert (q = t') as -> by congruence. rewrite lookup_insert_eq. assert (n0 = n) as -> by congruence.
      eexists. split; [done|]. simpl. split; [done|]. split; [done|]. split; [done|].
      split; [rewrite Hrt, u64_small; [done|]; specialize (Hrg (p ++ [i])); lia|].
      split; [by destruct p|]. intros p0 j [<- _]%snoc_inj. done.
    + rewrite lookup_insert_ne; [by exists n0|]. intros <-. apply Hne. by eapply Hi.
  - intros p' Hp'. destruct (Hno p' Hp') as [? ?]. unfold bump. rewrite decide_False by congruence. done.
  - by apply bump_range.
Qed.

(** The state after a new node [q] has been hung below [t]. *)
Definition hang (A : list Z -> option positive) (p : list Z) (q : positive) (p' : list Z) : option positive :=
  if decide (p' = p) then Some q else A p'.

Lemma hang_ok st root A M R t p i q n c :
  trie st root A M R -> A p = Some t -> A (p ++ [i]) = None -> 0 <= i < 16 -> st !! q = None -> st !! t = Some n ->
  wr (x_child n) i (Some q) = Some c ->
  trie (<[q := enter t i zero_node]> (<[t := n <| x_child := c |> <| x_branch := u16 (x_branch n + 1) |>]> st)) root
       (hang A (p ++ [i]) q) M (bump R (p ++ [i])).
Proof.
  intros H Hp Hpi Hi16 Hq Hn Hc. pose proof H as [Hr Hinj Hu Hnode Hno Hrg].
  assert (Hfresh : forall p', A p' ≠ Some q) by (intros p' E; destruct (Hnode p' q E) as (? & ? & _); congruence).
  destruct (Hno _ Hpi) as [HM0 HR0]. unfold hang. split.
  - rewrite decide_False; [done|]. by destruct p.
  - intros p1 p2 x. repeat case_decide; subst; [done|intros [= <-] E; by apply Hfresh in E|
      intros E [= <-]; by apply Hfresh in E|by apply Hinj].
  - intros p1 j x. case_decide as Hd.
    + apply snoc_inj in Hd as [-> ->]. intros _. split; [|done]. case_decide; by eexists.
    + intros E. destruct (Hu p1 j x E) as [[y Hy] Hj]. split; [|done]. case_decide; by eexists.
  - intros p1 x. unfold bump. case_decide as Hd; [subst p1; intros [= <-]|intros Hx].
    + rewrite lookup_insert_eq. eexists. split; [done|]. simpl. split; [done|]. split.
      { intros j Hj. rewrite decide_False by (intros E; symmetry in E; by apply snoc_neq in E).
        rewrite (trie_closed _ _ _ _ _ H) by done. unfold rd. rewrite decide_True by lia.
        apply (lookup_replicate_2 16 None (Z.to_nat j)). lia. }
      rewrite HM0, HR0. split; [done|]. split; [done|]. split; [by destruct p|].
      intros p0 j [<- _]%snoc_inj. rewrite decide_False by apply snoc_neq. done.
    + rewrite lookup_insert_ne by (intros <-; by apply Hfresh in Hx).
      destruct (Hnode p1 x Hx) as (n1 & E1 & Hl & Hch & Hm & Hrt & Hroot & Hpar).
      assert (Hpar' : forall p' j, p1 = p' ++ [j] -> x_parent n1 = (if decide (p' = p ++ [i]) then Some q else A p')).
      { intros p' j ->. rewrite decide_False; [by eapply Hpar|]. intros ->.
        by rewrite (trie_closed _ _ _ _ _ H) in Hx. }
      destruct (decide (t = x)) as [<-|Hne].
      * assert (p1 = p) as -> by (by eapply Hinj). rewrite lookup_insert_eq. assert (n1 = n) as -> by congruence.
        eexists. split; [done|]. simpl. rewrite (wr_length _ _ _ _ Hc). split; [done|]. split; [|done].
        intros j Hj. rewrite (rd_wr _ _ _ _ _ Hc). destruct (decide (i = j)) as [->|Hij].
        -- by rewrite decide_True.
        -- rewrite decide_False by (intros [_ E]%snoc_inj; congruence). by apply Hch.
      * rewrite lookup_insert_ne by done. exists n1. split; [done|]. split; [done|]. split; [|done].
        intros j Hj. rewrite decide_False; [by apply Hch|]. intros [-> _]%snoc_inj. congruence.
  - intros p1. case_decide; [done|]. intros E. destruct (Hno p1 E). unfold bump. by rewrite decide_False.
  - apply bump_range; [done|]. rewrite HR0. lia.
Qed.

Lemma add_step_ok calloc st root A M R t p i :
  calloc_ok calloc -> trie st root A M R -> A p = Some t -> 0 <= i < 16 -> R (p ++ [i]) + 1 < 2 ^ 64 - 1 ->
  exists st' t' A', add_step calloc t i st = Some (st', Some t') /\ A' (p ++ [i]) = Some t'
    /\ (forall p', p' ≠ p ++ [i] -> A' p' = A p') /\ trie st' root A' M (bump R (p ++ [i])).
Proof.
  intros Hcal H Hp Hi Hrng. unfold add_step. rewrite (trie_child _ _ _ _ _ _ _ _ H Hp Hi). cbn [mbind option_bind].
  destruct (tr_node _ _ _ _ _ H p t Hp) as (n & Hn & Hl & Hch & _).
  destruct (A (p ++ [i])) as [t'|] eqn:Et.
  - cbn [mbind option_bind]. rewrite (trie_child _ _ _ _ _ _ _ _ H Hp Hi), Et. cbn [mbind option_bind].
    destruct (tr_node _ _ _ _ _ H _ _ Et) as (n' & Hn' & _). unfold upd. rewrite Hn'. cbn [mbind option_bind].
    eexists _, t', A. split; [done|]. split; [done|]. split; [done|]. by apply (enter_ok _ _ _ _ _ t).
  - destruct (Hcal st) as (q & Eq & Hq). rewrite Eq.
    destruct (wr_is_Some (x_child n) i (Some q)) as [c Hc]; [lia|].
    assert (Htq : q ≠ t) by congruence. unfold set_child, upd, child.
    rewrite lookup_insert_ne, Hn by done. cbn [mbind option_bind]. rewrite Hc. cbn [mbind option_bind].
    rewrite lookup_insert_eq. cbn [mbind option_bind]. rewrite insert_insert_eq, lookup_insert_eq.
    cbn [mbind option_bind x_child]. simpl x_child. rewrite (rd_wr _ _ _ i _ Hc), decide_True by done.
    cbn [mbind option_bind]. rewrite lookup_insert_ne, lookup_insert_eq by done. cbn [mbind option_bind].
    eexists _, q, (hang A (p ++ [i]) q). split; [done|]. unfold hang at 1. rewrite decide_True by done.
    split; [done|]. split; [intros p' Hne; unfold hang; by rewrite decide_False|].
    rewrite (insert_insert_ne _ q t) by done. rewrite insert_insert_eq. rewrite (insert_insert_ne _ t q) by done.
    exact (hang_ok st root A M R t p i q n c H Hp Et Hi Hq Hn Hc).
Qed.

(** ** Adding a key *)

(** One more key through every node strictly below [p] on the way to [p ++ l]. *)
Fixpoint bumps (R : list Z -> Z) (p l : list Z) : list Z -> Z :=
  match l with
  | [] => R
  | i :: l => bumps (bump R (p ++ [i])) (p ++ [i]) l
  end.

(** The paths strictly below [p] on the way to [p ++ l]. *)
Definition on_way (p l p' : list Z) : Prop := exists a b, l = a ++ b /\ a ≠ [] /\ p' = p ++ a.

Lemma on_way_cons p i l p' : on_way p (i :: l) p' <-> p' = p ++ [i] \/ on_way (p ++ [i]) l p'.
Proof.
  split.
  - intros (a & b & E & Ha & ->). destruct a as [|j a]; [done|]. injection E as -> ->.
    destruct a as [|j' a]; [by left|]. right. exists (j' :: a), b. split; [done|]. split; [done|]. by rewrite <- app_assoc.
  - intros [-> |(a & b & -> & Ha & ->)].
    + by exists [i], l.
    + exists (i :: a), b. split; [done|]. split; [done|]. by rewrite <- app_assoc.
Qed.

#[export] Instance on_way_dec p l p' : Decision (on_way p l p').
Proof.
  revert p. induction l as [|i l IH]; intros p.
  - right. intros (a & b & E & Ha & _). destruct a; done.
  - destruct (decide (p' = p ++ [i])) as [->|Hne]; [left; apply on_way_cons; by left|].
    destruct (IH (p ++ [i])) as [H|H]; [left; apply on_way_cons; by right|].
    right. rewrite on_way_cons. tauto.
Defined.

Lemma on_way_longer p l p' : on_way p l p' -> (length p < length p')%nat.
Proof. intros (a & b & -> & Ha & ->). rewrite length_app. destruct a; [done|]. simpl. lia. Qed.

Lemma bumps_spec R p l p' : bumps R p l p' = if decide (on_way p l p') then R p' + 1 else R p'.
Proof.
  revert R p. induction l as [|i l IH]; intros R p; cbn [bumps].
  - rewrite decide_False; [done|]. intros (a & b & E & Ha & _). by destruct a.
  - rewrite IH. unfold bump. destruct (decide (on_way (p ++ [i]) l p')) as [Hw|Hw].
    + rewrite (decide_True (P := on_way p (i :: l) p')) by (apply on_way_cons; by right).
      rewrite decide_False; [done|]. intros ->. apply on_way_longer in Hw. lia.
    + destruct (decide (p' = p ++ [i])) as [->|Hne].
      * by rewrite (decide_True (P := on_way _ _ _)) by (apply on_way_cons; by left).
      * rewrite (decide_False (P := on_way _ _ _)); [done|]. rewrite on_way_cons. tauto.
Qed.

Lemma path_loop_ok calloc key : calloc_ok calloc -> is_bytes key ->
  forall st root A M R t p par, trie st root A M R -> A p = Some t ->
  (forall p', on_way p (path key) p' -> R p' + 1 < 2 ^ 64 - 1) ->
  exists st' A' node par', path_loop calloc key t par st = Some (st', Some (node, par'))
    /\ A' (p ++ path key) = Some node /\ (key ≠ [] -> exists q n, par' = Some q /\ st' !! q = Some n)
    /\ (forall p', ~ on_way p (path key) p' -> A' p' = A p') /\ (forall p', on_way p (path key) p' -> is_Some (A' p'))
    /\ trie st' root A' M (bumps R p (path key)).
Proof.
  intros Hcal. induction 1 as [|b key Hb Hk IH]; intros st root A M R t p par H Hp Hrng.
  - exists st, A, t, par. rewrite app_nil_r. split; [done|]. split; [done|]. split; [done|]. split; [done|].
    split; [|done]. intros p' (a & b & E & Ha & _). by destruct a.
  - cbn [path_loop]. rewrite path_cons in *.
    destruct (add_step_ok calloc st root A M R t p (hi b) Hcal H Hp (hi_range b Hb)) as (st1 & t1 & A1 & E1 & Ht1 & Ho1 & H1).
    { apply Hrng. apply on_way_cons. by left. }
    rewrite E1. cbn [mbind option_bind].
    destruct (add_step_ok calloc st1 root A1 M _ t1 (p ++ [hi b]) (lo b) Hcal H1 Ht1 (lo_range b Hb)) as (st2 & t2 & A2 & E2 & Ht2 & Ho2 & H2).
    { unfold bump. rewrite decide_False by (intros E; symmetry in E; by apply snoc_neq in E).
      apply Hrng. apply on_way_cons. right. apply on_way_cons. by left. }
    rewrite E2. cbn [mbind option_bind].
    destruct (IH st2 root A2 M _ t2 _ (Some t1) H2 Ht2) as (st3 & A3 & node & par' & E3 & Hn & Hpar & Ho3 & Hs3 & H3).
    { intros p' Hw. pose proof (on_way_longer _ _ _ Hw) as Hlen. rewrite !length_app in Hlen. simpl in Hlen. unfold bump.
      rewrite !decide_False by (intros ->; rewrite ?length_app in Hlen; simpl in Hlen; lia).
      apply Hrng. apply on_way_cons. right. apply on_way_cons. by right. }
    exists st3, A3, node, par'. split; [exact E3|]. split; [by rewrite <- Hn, <- !app_assoc|]. split.
    { intros _. destruct (decide (key = [])) as [->|Hne]; [|by apply Hpar]. simpl in E3.
      injection E3 as <- <- <-. destruct (tr_node _ _ _ _ _ H2 (p ++ [hi b]) t1) as (n1 & Hn1 & _); [|by exists t1, n1].
      rewrite Ho2; [done|]. apply snoc_neq. }
    split; [|split; [|done]].
    + intros p'. rewrite !on_way_cons. intros Hw. rewrite Ho3, Ho2, Ho1; [done|naive_solver..].
    + intros p'. rewrite !on_way_cons. intros [-> |[-> |Hw]]; [| |by apply Hs3].
      * rewrite Ho3; [rewrite Ho2; [by eexists|by apply snoc_neq]|]. intros Hw%on_way_longer.
        rewrite !length_app in Hw. lia.
      * rewrite Ho3; [by eexists|]. intros Hw%on_way_longer. lia.
Qed.

(** ** The tree as a map *)

Lemma trie_ext st root A M M' R R' :
  (forall p, M p = M' p) -> (forall p, R p = R' p) -> trie st root A M R -> trie st root A M' R'.
Proof.
  intros HM HR [Hr Hi Hu Hnode Hno Hrg]. split; try done.
  - intros p q Hq. rewrite <- HM, <- HR. by apply Hnode.
  - intros p Hp. rewrite <- HM, <- HR. by apply Hno.
  - intros p. rewrite <- HR. apply Hrg.
Qed.

Lemma root_route_ok st root A M R r n : trie st root A M R -> st !! root = Some n -> 0 <= r < 2 ^ 64 - 1 ->
  trie (<[root := n <| x_route := r |>]> st) root A M (fun p => if decide (p = []) then r else R p).
Proof.
  intros H Hn Hr0. pose proof H as [Hr Hi Hu Hnode Hno Hrg]. split; try done.
  - intros p q Hq. destruct (Hnode p q Hq) as (n0 & E0 & Hl & Hc & Hm & Hrt & Hroot & Hpar).
    destruct (decide (p = [])) as [->|Hne].
    + assert (q = root) as -> by congruence. rewrite lookup_insert_eq. assert (n0 = n) as -> by congruence.
      eexists. split; [done|]. done.
    + rewrite lookup_insert_ne; [by exists n0|]. intros <-. apply Hne. by eapply Hi.
  - intros p Hp. case_decide; [congruence|by apply Hno].
  - intros p. case_decide; [done|apply Hrg].
Qed.

Lemma set_mapping_ok st root A M R p q n m : trie st root A M R -> A p = Some q -> st !! q = Some n ->
  trie (<[q := n <| x_mapping := m |>]> st) root A (fun p' => if decide (p' = p) then m else M p') R.
Proof.
  intros H Hp Hn. pose proof H as [Hr Hi Hu Hnode Hno Hrg]. split; try done.
  - intros p' q' Hq. destruct (Hnode p' q' Hq) as (n0 & E0 & Hl & Hc & Hm & Hrt & Hroot & Hpar).
    destruct (decide (p' = p)) as [->|Hne].
    + assert (q' = q) as -> by congruence. rewrite lookup_insert_eq. assert (n0 = n) as -> by congruence.
      eexists. split; [done|]. done.
    + rewrite lookup_insert_ne; [by exists n0|]. intros <-. apply Hne. by eapply Hi.
  - intros p' Hp'. rewrite decide_False by congruence. by apply Hno.
Qed.

(** The number of keys below a path. *)
Definition keys_below (m : gmap (list Z) Z) (p : list Z) : Z :=
  Z.of_nat (size (filter (fun kv => p `prefix_of` kv.1) m)).

Lemma keys_below_insert m k v p : m !! k = None ->
  keys_below (<[k := v]> m) p = keys_below m p + (if decide (p `prefix_of` k) then 1 else 0).
Proof.
  intros Hk. unfold keys_below. case_decide as Hp.
  - rewrite map_filter_insert_True by done. rewrite map_size_insert_None; [lia|].
    apply map_lookup_filter_None. by left.
  - rewrite map_filter_insert_False, delete_id by done. lia.
Qed.

Lemma keys_below_delete m k v p : m !! k = Some v ->
  keys_below m p = keys_below (delete k m) p + (if decide (p `prefix_of` k) then 1 else 0).
Proof.
  intros Hk. rewrite <- (insert_delete_id m k v Hk) at 1. apply keys_below_insert. apply lookup_delete_eq.
Qed.

Lemma keys_below_le m p : 0 <= keys_below m p <= Z.of_nat (size m).
Proof.
  unfold keys_below. split; [lia|]. apply Nat2Z.inj_le. rewrite <- !size_dom. apply subseteq_size.
  apply dom_filter_subseteq.
Qed.

Lemma keys_below_app m p l : keys_below m (p ++ l) <= keys_below m p.
Proof.
  unfold keys_below. apply Nat2Z.inj_le. rewrite <- !size_dom. apply subseteq_size. intros k.
  rewrite !elem_of_dom. intros [v [Hv Hp]%map_lookup_filter_Some]. exists v. apply map_lookup_filter_Some.
  split; [done|]. simpl in *. by eapply prefix_app_l.
Qed.

Lemma keys_below_pos m p : 0 < keys_below m p <-> exists k, is_Some (m !! k) /\ p `prefix_of` k.
Proof.
  unfold keys_below. split.
  - intros H. destruct (map_choose (filter (fun kv => p `prefix_of` kv.1) m)) as (k & v & E).
    { intros E. rewrite E, map_size_empty in H. lia. }
    apply map_lookup_filter_Some in E as [Hv Hp]. exists k. split; [by eexists|done].
  - intros (k & [v Hv] & Hp). destruct (decide (size (filter (fun kv => p `prefix_of` kv.1) m) = 0%nat)) as [E|]; [|lia].
    exfalso. apply map_size_empty_inv in E. assert (filter (fun kv : list Z * Z => p `prefix_of` kv.1) m !! k = Some v) as Hl
      by by apply map_lookup_filter_Some. rewrite E in Hl. by rewrite lookup_empty in Hl.
Qed.

(** The tree at [root] stands for the map [m] from paths to mappings. *)
Definition tree_is (st : store) (root : positive) (m : gmap (list Z) Z) : Prop :=
  exists A, trie st root A (fun p => m !! p) (keys_below m)
    /\ forall p, is_Some (A p) <-> p = [] \/ 0 < keys_below m p.

Lemma prefix_on_way l p : p `prefix_of` l <-> p = [] \/ on_way [] l p.
Proof.
  split.
  - intros [b ->]. destruct p as [|i p]; [by left|]. right. by exists (i :: p), b.
  - intros [-> |(a & b & -> & _ & ->)]; [apply prefix_nil|]. by exists b.
Qed.

Lemma path_nonempty key : key ≠ [] -> path key ≠ [].
Proof. by destruct key. Qed.

Lemma xtree_create_ok calloc st : calloc_ok calloc ->
  exists st' root, xtree_create calloc st = Some (st', Some root) /\ tree_is st' root ∅.
Proof.
  intros Hcal. destruct (Hcal st) as (q & E & Hq). unfold xtree_create. rewrite E.
  eexists _, q. split; [done|]. exists (fun p => if decide (p = []) then Some q else None).
  assert (Hk : forall p, keys_below ∅ p = 0) by (intros p; unfold keys_below; by rewrite map_filter_empty, map_size_empty).
  split.
  - split.
    + done.
    + intros p p' x. repeat case_decide; congruence.
    + intros p i x. case_decide as Hd; [by destruct p|done].
    + intros p x. case_decide; [subst; intros [= <-]|done]. rewrite lookup_insert_eq. exists zero_node.
      split; [done|]. split; [done|]. split; [|rewrite Hk; split; [by rewrite lookup_empty|]].
      * intros i Hi. unfold rd. rewrite decide_True by lia. apply (lookup_replicate_2 16 None (Z.to_nat i)). lia.
      * split; [done|]. split; [done|]. intros p' i E'. by destruct p'.
    + intros p _. by rewrite lookup_empty, Hk.
    + intros p. rewrite Hk. lia.
  - intros p. rewrite Hk. case_decide; [by split; [left|eexists]|]. split; [intros [? ?]; done|lia || (intros [?|?]; [done|lia])].
Qed.

Lemma find_tree_ok st root m key : tree_is st root m -> is_bytes key -> xtree_find root key st = Some (m !! path key).
Proof.
  intros (A & H & _) Hk. unfold xtree_find. rewrite <- (tr_root _ _ _ _ _ H), (down_ok key _ _ _ _ _ H Hk []). cbn [app mbind option_bind].
  destruct (A (path key)) as [q|] eqn:Eq.
  - destruct (tr_node _ _ _ _ _ H _ _ Eq) as (n & -> & _ & _ & Hm & _). cbn [mbind option_bind]. by rewrite Hm.
  - f_equal. symmetry. by apply (tr_none _ _ _ _ _ H).
Qed.

Lemma add_tree_ok calloc st root m key v :
  calloc_ok calloc -> tree_is st root m -> is_bytes key -> key ≠ [] -> m !! path key = None ->
  Z.of_nat (size m) < 2 ^ 64 - 2 ->
  exists st' node, xtree_add calloc root key (Some v) st = Some (st', Some node) /\ tree_is st' root (<[path key := v]> m).
Proof.
  intros Hcal (A & H & HA) Hk Hne Hm Hsz. unfold xtree_add, upd.
  pose proof (fun p => keys_below_le m p) as Hle.
  destruct (tr_node _ _ _ _ _ H [] root (tr_root _ _ _ _ _ H)) as (nr & Hnr & _ & _ & _ & Hrr & _).
  rewrite Hnr. cbn [mbind option_bind]. rewrite Hrr, (u64_small (keys_below m [] + 1)) by (specialize (Hle []); lia).
  pose proof (root_route_ok _ _ _ _ _ (keys_below m [] + 1) _ H Hnr ltac:(specialize (Hle []); lia)) as H1.
  destruct (path_loop_ok calloc key Hcal Hk _ _ _ _ _ root [] None H1 (tr_root _ _ _ _ _ H1))
    as (st2 & A2 & node & par & E2 & Hnode & Hpar & Ho2 & Hs2 & H2).
  { intros p' Hw%on_way_longer. specialize (Hle p'). case_decide; [subst; simpl in *|]; lia. }
  rewrite E2. cbn [mbind option_bind]. destruct (Hpar Hne) as (q & nq & -> & Hnq). cbn [mbind option_bind].
  simpl app in Hnode. destruct (tr_node _ _ _ _ _ H2 _ _ Hnode) as (nn & Hnn & _). rewrite Hnn. cbn [mbind option_bind].
  pose proof (set_mapping_ok _ _ _ _ _ _ _ _ (Some v) H2 Hnode Hnn) as H3.
  set (st3 := <[node := _]> st2) in *.
  assert (Hq3 : exists n3, st3 !! q = Some n3).
  { unfold st3. destruct (decide (node = q)) as [->|]; [rewrite lookup_insert_eq|rewrite lookup_insert_ne by done]; by eexists. }
  destruct Hq3 as [n3 Hq3]. rewrite Hq3. cbn [mbind option_bind].
  eexists _, node. split; [done|]. exists A2. split.
  - eapply trie_same; [|exact Hq3|done]. eapply trie_ext; [| |exact H3].
    + intros p. simpl. case_decide as Hp; [subst; by rewrite lookup_insert_eq|by rewrite lookup_insert_ne].
    + intros p. rewrite bumps_spec, keys_below_insert by done. pose proof (prefix_on_way (path key) p) as Hpw.
      pose proof (fun H => on_way_longer [] (path key) p H) as Hlong. destruct (decide (p = [])) as [->|Hp].
      * rewrite (decide_False (P := on_way _ _ _)) by (intros ?%Hlong; simpl in *; lia).
        by rewrite decide_True by apply prefix_nil.
      * destruct (decide (on_way [] (path key) p)) as [Hw|Hw].
        -- rewrite decide_True; [done|]. apply Hpw. by right.
        -- rewrite decide_False; [lia|]. intros [?|?]%Hpw; done.
  - intros p. rewrite keys_below_insert by done. specialize (Hle p).
    destruct (decide (on_way [] (path key) p)) as [Hw|Hw].
    + split; [intros _; right|intros _; by apply Hs2]. rewrite decide_True; [lia|]. apply prefix_on_way. by right.
    + rewrite (Ho2 _ Hw), HA. case_decide as Hp; [|by rewrite Z.add_0_r].
      apply prefix_on_way in Hp as [->|?]; [|done]. split; by left.
Qed.

(** ** Deleting a key *)

Lemma upd_eq p f st n : st !! p = Some n -> upd p f st = Some (<[p := f n]> st).
Proof. unfold upd. by intros ->. Qed.

Definition cut {X} (f : list Z -> X) (p : list Z) (v : X) (p' : list Z) : X := if decide (p' = p) then v else f p'.

Lemma free_ok st root A M R p i tp t np c :
  trie st root A M R -> A p = Some tp -> A (p ++ [i]) = Some t -> (forall j, A ((p ++ [i]) ++ [j]) = None) ->
  M (p ++ [i]) = None -> st !! tp = Some np -> wr (x_child np) i None = Some c ->
  trie (<[tp := np <| x_child := c |> <| x_branch := u16 (x_branch np - 1) |>]> (delete t st)) root
       (cut A (p ++ [i]) None) M (cut R (p ++ [i]) 0).
Proof.
  intros H Hp Hpi Hleaf HM Hnp Hc. pose proof H as [Hr Hinj Hu Hnode Hno Hrg]. unfold cut. split.
  - rewrite decide_False; [done|]. by destruct p.
  - intros p1 p2 x. repeat case_decide; [done|done|done|by apply Hinj].
  - intros p1 j x. case_decide; [done|]. intros E. destruct (Hu p1 j x E) as [Hy Hj]. split; [|done].
    rewrite decide_False; [done|]. intros ->. congruence.
  - intros p1 x. case_decide as Hne; [done|]. intros Hx.
    destruct (Hnode p1 x Hx) as (n1 & E1 & Hl & Hch & Hm & Hrt & Hroot & Hpar).
    assert (Hpar' : forall p' j, p1 = p' ++ [j] -> x_parent n1 = (if decide (p' = p ++ [i]) then None else A p')).
    { intros p' j ->. rewrite decide_False; [by eapply Hpar|]. intros ->. congruence. }
    assert (Htx : t ≠ x) by (intros <-; apply Hne; by eapply Hinj).
    destruct (decide (tp = x)) as [<-|Hx'].
    + assert (p1 = p) as -> by (by eapply Hinj). rewrite lookup_insert_eq. assert (n1 = np) as -> by congruence.
      eexists. split; [done|]. simpl. rewrite (wr_length _ _ _ _ Hc). split; [done|]. split; [|done].
      intros j Hj. rewrite (rd_wr _ _ _ _ _ Hc). destruct (decide (i = j)) as [->|Hij].
      * by rewrite decide_True.
      * rewrite decide_False by (intros [_ E]%snoc_inj; congruence). by apply Hch.
    + rewrite lookup_insert_ne, lookup_delete_ne by done. exists n1. split; [done|]. split; [done|]. split; [|done].
      intros j Hj. rewrite decide_False; [by apply Hch|]. intros [-> _]%snoc_inj. congruence.
  - intros p1. case_decide; [subst; done|]. intros E. by destruct (Hno p1 E).
  - intros p1. case_decide; [lia|apply Hrg].
Qed.

Lemma lower_ok st root A M R p q n r : trie st root A M R -> A p = Some q -> st !! q = Some n -> 0 <= r < 2 ^ 64 - 1 ->
  trie (<[q := n <| x_route := r |>]> st) root A M (cut R p r).
Proof.
  intros H Hp Hn Hr0. pose proof H as [Hr Hi Hu Hnode Hno Hrg]. unfold cut. split; try done.
  - intros p' q' Hq. destruct (Hnode p' q' Hq) as (n0 & E0 & Hl & Hc & Hm & Hrt & Hroot & Hpar).
    destruct (decide (p' = p)) as [->|Hne].
    + assert (q' = q) as -> by congruence. rewrite lookup_insert_eq. assert (n0 = n) as -> by congruence.
      eexists. split; [done|]. done.
    + rewrite lookup_insert_ne; [by exists n0|]. intros <-. apply Hne. by eapply Hi.
  - intros p' Hp'. rewrite decide_False by congruence. by apply Hno.
  - intros p'. case_decide; [done|apply Hrg].
Qed.

(** The counts while a key is taken out: the nodes up to [p], the root apart,
    still count it. *)
Definition rest (m : gmap (list Z) Z) (p p' : list Z) : Z :=
  keys_below m p' + (if decide (p' ≠ [] /\ p' `prefix_of` p) then 1 else 0).

Definition leaving (st : store) (root : positive) (m : gmap (list Z) Z) (p : list Z) (t : positive) : Prop :=
  exists A, trie st root A (fun p' => m !! p') (rest m p) /\ A p = Some t
    /\ forall p', is_Some (A p') <-> p' = [] \/ 0 < rest m p p'.

Lemma rest_below m p j : rest m p (p ++ [j]) = keys_below m (p ++ [j]).
Proof.
  unfold rest. rewrite decide_False; [lia|]. intros [_ Hp%prefix_length]. rewrite length_app in Hp. simpl in Hp. lia.
Qed.

Lemma rest_step m p i p' : rest m p p' = cut (rest m (p ++ [i])) (p ++ [i]) (keys_below m (p ++ [i])) p'.
Proof.
  unfold cut. case_decide as E; [subst; by rewrite rest_below|]. unfold rest. f_equal.
  assert (p' `prefix_of` p ++ [i] <-> p' `prefix_of` p) as Hiff.
  { split; [|apply prefix_app_r]. intros [b Eb]. destruct b as [|x b _] using rev_ind; [by rewrite app_nil_r in Eb|].
    rewrite app_assoc in Eb. apply snoc_inj in Eb as [-> _]. by eexists. }
  repeat case_decide; naive_solver.
Qed.

Lemma keys_below_lookup m p v : m !! p = Some v -> 0 < keys_below m p.
Proof. intros E. apply keys_below_pos. exists p. split; [by eexists|done]. Qed.

(** The last key through a node leaves it without children and without a mapping. *)
Lemma leaving_leaf st root A m p i :
  trie st root A (fun p' => m !! p') (rest m (p ++ [i])) ->
  (forall p', is_Some (A p') <-> p' = [] \/ 0 < rest m (p ++ [i]) p') -> keys_below m (p ++ [i]) = 0 ->
  (forall j, A ((p ++ [i]) ++ [j]) = None) /\ m !! (p ++ [i]) = None.
Proof.
  intros H HA Hk. split.
  - intros j. destruct (A ((p ++ [i]) ++ [j])) as [x|] eqn:E; [|done]. exfalso.
    destruct (proj1 (HA ((p ++ [i]) ++ [j])) ltac:(by eexists)) as [E'|Hpos]; [by destruct p|].
    rewrite rest_below in Hpos. pose proof (keys_below_app m (p ++ [i]) [j]). lia.
  - destruct (m !! (p ++ [i])) eqn:E; [|done]. apply keys_below_lookup in E. lia.
Qed.

Lemma del_step_ok st root m p i t : leaving st root m (p ++ [i]) t -> 0 <= i < 16 -> Z.of_nat (size m) < 2 ^ 64 - 2 ->
  exists st' t', del_step t i st = Some (st', t') /\ leaving st' root m p t'.
Proof.
  intros (A & H & Ht & HA) Hi Hsz. unfold del_step.
  destruct (tr_up _ _ _ _ _ H p i t Ht) as [[tp Hp] _].
  destruct (tr_node _ _ _ _ _ H _ _ Ht) as (n & Hn & _ & _ & _ & Hrt & _ & Hpar).
  rewrite Hn. cbn [mbind option_bind]. rewrite (Hpar p i eq_refl), Hp, Hrt. cbn [mbind option_bind].
  assert (Hr : rest m (p ++ [i]) (p ++ [i]) = keys_below m (p ++ [i]) + 1).
  { unfold rest. rewrite decide_True; [done|]. split; [by destruct p|done]. }
  pose proof (keys_below_le m (p ++ [i])) as Hle. set (k := keys_below m (p ++ [i])) in *.
  rewrite Hr, u64_small by lia. replace (k + 1 - 1) with k by lia.
  rewrite (upd_eq t _ st n Hn). cbn [mbind option_bind].
  pose proof (lower_ok _ _ _ _ _ _ _ _ k H Ht Hn ltac:(lia)) as H1. set (st1 := <[t := _]> st) in *.
  assert (Hiff : forall p', p' ≠ p ++ [i] -> rest m p p' = rest m (p ++ [i]) p').
  { intros p' Hne. rewrite (rest_step m p i). unfold cut. by rewrite decide_False. }
  destruct (decide (k = 0)) as [Hk0|Hk0].
  - assert (Htp : t ≠ tp) by (intros ->; eapply (snoc_neq p i), tr_inj; done).
    destruct (leaving_leaf _ _ _ _ _ _ H HA Hk0) as [Hleaf HM].
    destruct (tr_node _ _ _ _ _ H1 _ _ Hp) as (np & Hnp & Hlp & _).
    destruct (wr_is_Some (x_child np) i None) as [c Hc]; [lia|].
    pose proof (free_ok _ _ _ _ _ p i tp t np c H1 Hp Ht Hleaf HM Hnp Hc) as H2.
    assert (Hst1 : exists n1, st1 !! t = Some n1) by (unfold st1; rewrite lookup_insert_eq; by eexists).
    destruct Hst1 as [n1 Hst1]. unfold xfree, set_child, upd. rewrite Hst1. cbn [mbind option_bind].
    rewrite lookup_delete_ne, Hnp by done. cbn [mbind option_bind]. rewrite Hc. cbn [mbind option_bind].
    rewrite lookup_insert_eq. cbn [mbind option_bind]. rewrite insert_insert_eq.
    eexists _, tp. split; [done|]. eexists. split; [|split].
    + eapply trie_ext; [done| |exact H2]. intros p'. rewrite (rest_step m p i p'). unfold cut.
      case_decide; [by rewrite <- Hk0|done].
    + unfold cut. rewrite decide_False; [done|]. apply snoc_neq.
    + intros p'. unfold cut at 1. case_decide as Hd.
      * subst p'. split; [by intros [? ?]|]. rewrite rest_below. fold k. intros [E|?]; [by destruct p|lia].
      * rewrite Hiff by done. apply HA.
  - cbn [mbind option_bind]. eexists _, tp. split; [done|]. exists A. split; [|split; [done|]].
    + eapply trie_ext; [done| |exact H1]. intros p'. by rewrite (rest_step m p i p').
    + intros p'. destruct (decide (p' = p ++ [i])) as [->|Hd]; [|rewrite Hiff by done; apply HA].
      rewrite rest_below. fold k. split; [intros _; right; lia|intros _; by eexists].
Qed.

Lemma path_app a b : path (a ++ b) = path a ++ path b.
Proof. unfold path. by rewrite map_app, concat_app. Qed.

Lemma del_loop_ok rkey : is_bytes rkey -> forall st root m t, Z.of_nat (size m) < 2 ^ 64 - 2 ->
  leaving st root m (path (reverse rkey)) t -> exists st' t', del_loop rkey t st = Some st' /\ leaving st' root m [] t'.
Proof.
  induction 1 as [|b rkey Hb Hk IH]; intros st root m t Hsz H; [by exists st, t|].
  cbn [del_loop]. rewrite reverse_cons, path_app in H.
  change (path [b]) with ([hi b] ++ [lo b]) in H. rewrite app_assoc in H.
  destruct (del_step_ok _ _ _ _ _ _ H (lo_range b Hb) Hsz) as (st1 & t1 & -> & H1). cbn [mbind option_bind].
  destruct (del_step_ok _ _ _ _ _ _ H1 (hi_range b Hb) Hsz) as (st2 & t2 & -> & H2). cbn [mbind option_bind].
  by apply (IH _ _ _ t2).
Qed.

Lemma leaving_root st root m t : leaving st root m [] t -> tree_is st root m.
Proof.
  intros (A & H & _ & HA). assert (Hr : forall p, rest m [] p = keys_below m p).
  { intros p. unfold rest. rewrite decide_False; [lia|]. intros [? ?%prefix_nil_inv]. done. }
  exists A. split; [by eapply trie_ext|]. intros p. rewrite <- Hr. apply HA.
Qed.

(** Once the root has forgotten the key, the whole path is still to go. *)
Lemma rest_whole m key v p' : m !! path key = Some v ->
  (if decide (p' = []) then keys_below m [] - 1 else keys_below m p') = rest (delete (path key) m) (path key) p'.
Proof.
  intros Hm. unfold rest. destruct (decide (p' = [])) as [->|Hp']; rewrite (keys_below_delete m (path key) v _ Hm).
  - rewrite decide_True by apply prefix_nil. rewrite decide_False by (by intros [? _]). lia.
  - f_equal. destruct (decide (p' `prefix_of` path key)).
    + by rewrite decide_True.
    + by rewrite decide_False by (by intros [_ ?]).
Qed.

Lemma del_tree_ok st root m key v : tree_is st root m -> is_bytes key -> key ≠ [] -> m !! path key = Some v ->
  Z.of_nat (size m) < 2 ^ 64 - 2 ->
  exists st', xtree_del root key st = Some (st', Some v) /\ tree_is st' root (delete (path key) m).
Proof.
  intros (A & H & HA) Hk Hne Hm Hsz. unfold xtree_del.
  rewrite <- (tr_root _ _ _ _ _ H), (down_ok key _ _ _ _ _ H Hk []). cbn [app mbind option_bind].
  assert (Hsome : is_Some (A (path key))) by (apply HA; right; by eapply keys_below_lookup).
  destruct Hsome as [q Eq]. rewrite Eq.
  pose proof (keys_below_le m []) as Hle.
  assert (0 < keys_below m []) as Hk0.
  { apply keys_below_pos. exists (path key). split; [by eexists|apply prefix_nil]. }
  destruct (tr_node _ _ _ _ _ H [] root (tr_root _ _ _ _ _ H)) as (nr & Hnr & _ & _ & _ & Hrr & _).
  rewrite (upd_eq _ _ _ _ Hnr), Hrr, u64_small by lia. cbn [mbind option_bind].
  pose proof (root_route_ok _ _ _ _ _ (keys_below m [] - 1) _ H Hnr ltac:(lia)) as H1.
  set (st1 := <[root := _]> st) in *.
  destruct (tr_node _ _ _ _ _ H1 _ _ Eq) as (n & Hn & _ & _ & Hmap & _). rewrite Hn. cbn [mbind option_bind].
  rewrite (upd_eq _ _ _ _ Hn). cbn [mbind option_bind]. rewrite lookup_insert_eq. cbn [mbind option_bind].
  pose proof (set_mapping_ok _ _ _ _ _ _ _ _ None H1 Eq Hn) as H2. set (st2 := <[q := _]> st1) in *.
  destruct (exists_last (path_nonempty key Hne)) as (p & i & Ep).
  destruct (tr_up _ _ _ _ _ H p i q ltac:(by rewrite <- Ep)) as [[tp Htp] _].
  destruct (tr_node _ _ _ _ _ H2 _ _ Eq) as (n2 & Hn2 & _ & _ & _ & _ & _ & Hpar).
  assert (x_parent n = Some tp) as Hxp.
  { unfold st2 in Hn2. rewrite lookup_insert_eq in Hn2. injection Hn2 as <-. by rewrite <- Htp, <- (Hpar p i Ep). }
  simpl x_parent. rewrite Hxp. cbn [mbind option_bind].
  destruct (tr_node _ _ _ _ _ H2 _ _ Htp) as (np & Hnp & _). rewrite (upd_eq _ _ _ _ Hnp). cbn [mbind option_bind].
  edestruct (del_loop_ok (reverse key)) as (st' & t' & E' & Hlv); [by apply Forall_reverse| | |].
  3: { rewrite E'. cbn [mbind option_bind]. eexists. split; [by rewrite Hmap, Hm|]. by eapply leaving_root. }
  - rewrite map_size_delete_Some by done. lia.
  - rewrite reverse_involutive. exists A. split; [|split; [done|]].
    + eapply trie_same; [|exact Hnp|done]. eapply trie_ext; [| |exact H2].
      * intros p'. simpl. case_decide; [subst; by rewrite lookup_delete_eq|by rewrite lookup_delete_ne].
      * intros p'. simpl. by eapply rest_whole.
    + intros p'. rewrite HA, <- (rest_whole m key v p' Hm). destruct (decide (p' = [])) as [->|Hp']; [split; by left|done].
Qed.

(** ** Deleting the beginning of a key *)

(** The node at [p ++ [i]] is freed, and what is below it is out of reach. *)
Definition pruned {X} (l : list Z) (none : X) (f : list Z -> X) (p : list Z) : X :=
  if decide (l `prefix_of` p) then none else f p.

Lemma prune_ok st root A M R p i tp t np c :
  trie st root A M R -> A p = Some tp -> A (p ++ [i]) = Some t -> st !! tp = Some np -> wr (x_child np) i None = Some c ->
  trie (<[tp := np <| x_child := c |> <| x_branch := u16 (x_branch np - 1) |>]> (delete t st)) root
       (pruned (p ++ [i]) None A) (pruned (p ++ [i]) None M) (pruned (p ++ [i]) 0 R).
Proof.
  intros H Hp Hpi Hnp Hc. pose proof H as [Hr Hinj Hu Hnode Hno Hrg].
  assert (Hup : forall p1 j, ~ (p ++ [i]) `prefix_of` p1 ++ [j] -> ~ (p ++ [i]) `prefix_of` p1).
  { intros p1 j Hn Hpre. by apply Hn, prefix_app_r. }
  unfold pruned. split.
  - rewrite decide_False; [done|]. intros Hpre%prefix_nil_inv. by destruct p.
  - intros p1 p2 x. repeat case_decide; [done|done|done|by apply Hinj].
  - intros p1 j x. case_decide as Hd; [done|]. intros E. destruct (Hu p1 j x E) as [Hy Hj]. split; [|done].
    rewrite decide_False; [done|by eapply Hup].
  - intros p1 x. case_decide as Hne; [done|]. intros Hx.
    destruct (Hnode p1 x Hx) as (n1 & E1 & Hl & Hch & Hm & Hrt & Hroot & Hpar).
    assert (Hpar' : forall p' j, p1 = p' ++ [j] -> x_parent n1 = (if decide ((p ++ [i]) `prefix_of` p') then None else A p')).
    { intros p' j ->. rewrite decide_False; [by eapply Hpar|by eapply Hup]. }
    assert (Htx : t ≠ x) by (intros <-; apply Hne; by rewrite (Hinj _ _ _ Hx Hpi)).
    assert (Hbelow : forall j, (p ++ [i]) `prefix_of` p1 ++ [j] -> p = p1 /\ i = j).
    { intros j [b Eb]. destruct b as [|y b _] using rev_ind; [rewrite app_nil_r in Eb; by apply snoc_inj in Eb as [-> ->]|].
      exfalso. rewrite app_assoc in Eb. apply snoc_inj in Eb as [-> _]. apply Hne. by eexists. }
    destruct (decide (tp = x)) as [<-|Hx'].
    + assert (p1 = p) as -> by (by eapply Hinj). rewrite lookup_insert_eq. assert (n1 = np) as -> by congruence.
      eexists. split; [done|]. simpl. rewrite (wr_length _ _ _ _ Hc). split; [done|]. split; [|done].
      intros j Hj. rewrite (rd_wr _ _ _ _ _ Hc). destruct (decide (i = j)) as [->|Hij].
      * by rewrite decide_True.
      * rewrite decide_False by (intros [_ ?]%Hbelow; done). by apply Hch.
    + rewrite lookup_insert_ne, lookup_delete_ne by done. exists n1. split; [done|]. split; [done|]. split; [|done].
      intros j Hj. rewrite decide_False; [by apply Hch|]. intros [-> _]%Hbelow. congruence.
  - intros p1. case_decide; [done|]. apply Hno.
  - intros p1. case_decide; [lia|apply Hrg].
Qed.

(** With one key [long] below [p ++ [i]], it leaves the map. *)
Lemma lone_key m p long v : m !! long = Some v -> p `prefix_of` long -> keys_below m p = 1 ->
  forall p', delete long m !! p' = (if decide (p `prefix_of` p') then None else m !! p').
Proof.
  intros Hm Hp Hone p'. destruct (decide (p' = long)) as [->|Hne]; [by rewrite lookup_delete_eq, decide_True|].
  rewrite lookup_delete_ne by done. destruct (decide (p `prefix_of` p')) as [Hd|Hd]; [|done]. destruct (m !! p') as [v'|] eqn:E; [|done]. exfalso.
  pose proof (keys_below_delete m long v p Hm) as Hdel. destruct (decide (p `prefix_of` long)); [|done].
  assert (0 < keys_below (delete long m) p); [|lia]. apply keys_below_pos. exists p'. split; [|done].
  rewrite lookup_delete_ne by done. by eexists.
Qed.

(** The first step from the end of a key that only begins another one. *)
Lemma del_prefix_step st root A m p i t np long v :
  trie st root A (fun p' => m !! p') (fun p' => if decide (p' = []) then keys_below m [] - 1 else keys_below m p') ->
  (forall p', is_Some (A p') <-> p' = [] \/ 0 < keys_below m p') -> A (p ++ [i]) = Some t -> A p = Some np ->
  m !! long = Some v -> (p ++ [i]) `prefix_of` long -> keys_below m (p ++ [i]) = 1 ->
  exists st' t', del_step t i st = Some (st', t') /\ leaving st' root (delete long m) p t'.
Proof.
  intros H HA Ht Hp Hm Hpre Hone. unfold del_step.
  destruct (tr_up _ _ _ _ _ H p i t Ht) as [_ Hi].
  destruct (tr_node _ _ _ _ _ H _ _ Ht) as (n & Hn & _ & _ & _ & Hrt & _ & Hpar).
  rewrite Hn. cbn [mbind option_bind]. rewrite (Hpar p i eq_refl), Hp. cbn [mbind option_bind].
  rewrite Hrt, decide_False, Hone by (by destruct p). change (u64 (1 - 1)) with 0.
  rewrite (upd_eq t _ st n Hn). cbn [mbind option_bind]. rewrite decide_True by done.
  pose proof (lower_ok _ _ _ _ _ _ _ _ 0 H Ht Hn ltac:(lia)) as H1. set (st1 := <[t := _]> st) in *.
  assert (Htp : t ≠ np) by (intros ->; eapply (snoc_neq p i), tr_inj; done).
  destruct (tr_node _ _ _ _ _ H1 _ _ Hp) as (x & Hx & Hlp & _).
  destruct (wr_is_Some (x_child x) i None) as [c Hc]; [lia|].
  pose proof (prune_ok _ _ _ _ _ p i np t x c H1 Hp Ht Hx Hc) as H2.
  assert (Hst1 : exists n1, st1 !! t = Some n1) by (unfold st1; rewrite lookup_insert_eq; by eexists).
  destruct Hst1 as [n1 Hst1]. unfold xfree, set_child, upd. rewrite Hst1. cbn [mbind option_bind].
  rewrite lookup_delete_ne, Hx by done. cbn [mbind option_bind]. rewrite Hc. cbn [mbind option_bind].
  rewrite lookup_insert_eq. cbn [mbind option_bind]. rewrite insert_insert_eq.
  eexists _, np. split; [done|].
  assert (Hrest : forall p', pruned (p ++ [i]) 0 (cut (fun p' => if decide (p' = []) then keys_below m [] - 1 else keys_below m p') (p ++ [i]) 0) p'
      = rest (delete long m) p p').
  { intros p'. unfold pruned, cut, rest. pose proof (keys_below_delete m long v p' Hm) as Hdel.
    pose proof (keys_below_le (delete long m) p') as Hle0.
    destruct (decide ((p ++ [i]) `prefix_of` p')) as [Hd|Hd].
    - rewrite (decide_False (P := _ /\ _)).
      2: { intros [_ Hq%prefix_length]. apply prefix_length in Hd. rewrite length_app in Hd. simpl in Hd. lia. }
      assert (~ 0 < keys_below (delete long m) p'); [|lia]. intros Hpos%keys_below_pos. destruct Hpos as (k & Hk & Hpk).
      rewrite (lone_key m (p ++ [i]) long v Hm Hpre Hone k), decide_True in Hk by (by etrans). by destruct Hk.
    - rewrite (decide_False (P := p' = p ++ [i])) by (intros ->; by apply Hd).
      assert (p' `prefix_of` long <-> p' `prefix_of` p) as Hiff.
      { split; [|intros Hq; etrans; [exact Hq|]; etrans; [|exact Hpre]; by apply prefix_app_r].
        intros Hq. destruct (prefix_weak_total p' (p ++ [i]) long Hq Hpre) as [Hw|Hw]; [|done].
        destruct Hw as [b Eb]. destruct b as [|y b _] using rev_ind; [exfalso; apply Hd; by rewrite Eb, app_nil_r|].
        rewrite app_assoc in Eb. apply snoc_inj in Eb as [-> _]. by eexists. }
      destruct (decide (p' = [])) as [->|Hne].
      + destruct (decide ([] `prefix_of` long)) as [_|Hy]; [|by destruct Hy; apply prefix_nil]. rewrite decide_False by tauto. lia.
      + destruct (decide (p' `prefix_of` long)); [rewrite decide_True by tauto|rewrite decide_False by tauto]; lia. }
  eexists. split; [|split].
  - eapply trie_ext; [| |exact H2]; [|done]. intros p'. unfold pruned. symmetry. by eapply lone_key.
  - unfold pruned. rewrite decide_False; [done|]. apply prefix_snoc_not.
  - intros p'. rewrite <- Hrest. unfold pruned, cut. destruct (decide ((p ++ [i]) `prefix_of` p')) as [Hd|Hd].
    + split; [by intros []|]. intros [->|?]; [|lia]. apply prefix_nil_inv in Hd. by destruct p.
    + rewrite (decide_False (P := p' = p ++ [i])) by (intros ->; by apply Hd). rewrite HA. destruct (decide (p' = [])); [|done].
      split; by left.
Qed.

Lemma del_prefix_ok st root m key long v : tree_is st root m -> is_bytes key -> key ≠ [] -> m !! path key = None ->
  m !! long = Some v -> path key `prefix_of` long -> keys_below m (path key) = 1 -> Z.of_nat (size m) < 2 ^ 64 - 2 ->
  exists st', xtree_del root key st = Some (st', None) /\ tree_is st' root (delete long m).
Proof.
  intros (A & H & HA) Hk Hne Hnone Hm Hpre Hone Hsz. unfold xtree_del.
  rewrite <- (tr_root _ _ _ _ _ H), (down_ok key _ _ _ _ _ H Hk []). cbn [app mbind option_bind].
  assert (Hsome : is_Some (A (path key))) by (apply HA; right; lia). destruct Hsome as [q Eq]. rewrite Eq.
  pose proof (keys_below_le m []) as Hle.
  assert (0 < keys_below m []) as Hk0 by (apply keys_below_pos; exists long; split; [by eexists|apply prefix_nil]).
  destruct (tr_node _ _ _ _ _ H [] root (tr_root _ _ _ _ _ H)) as (nr & Hnr & _ & _ & _ & Hrr & _).
  rewrite (upd_eq _ _ _ _ Hnr), Hrr, u64_small by lia. cbn [mbind option_bind].
  pose proof (root_route_ok _ _ _ _ _ (keys_below m [] - 1) _ H Hnr ltac:(lia)) as H1.
  set (st1 := <[root := _]> st) in *.
  destruct (tr_node _ _ _ _ _ H1 _ _ Eq) as (n & Hn & _ & _ & Hmap & _). rewrite Hn. cbn [mbind option_bind].
  rewrite (upd_eq _ _ _ _ Hn). cbn [mbind option_bind]. rewrite lookup_insert_eq. cbn [mbind option_bind].
  pose proof (set_mapping_ok _ _ _ _ _ _ _ _ None H1 Eq Hn) as H2. set (st2 := <[q := _]> st1) in *.
  destruct (exists_last Hne) as (front & b & ->). apply Forall_app in Hk as [Hkf Hkb]. apply Forall_cons in Hkb as [Hkb _].
  rewrite path_app in *. change (path [b]) with ([hi b] ++ [lo b]) in *. rewrite app_assoc in *.
  set (p := path front ++ [hi b]) in *.
  destruct (tr_up _ _ _ _ _ H p (lo b) q Eq) as [[tp Htp] _].
  destruct (tr_node _ _ _ _ _ H2 _ _ Eq) as (n2 & Hn2 & _ & _ & _ & _ & _ & Hpar).
  assert (x_parent n = Some tp) as Hxp.
  { unfold st2 in Hn2. rewrite lookup_insert_eq in Hn2. injection Hn2 as <-. by rewrite <- Htp, <- (Hpar p (lo b) eq_refl). }
  simpl x_parent. rewrite Hxp. cbn [mbind option_bind].
  destruct (tr_node _ _ _ _ _ H2 _ _ Htp) as (np & Hnp & _). rewrite (upd_eq _ _ _ _ Hnp). cbn [mbind option_bind].
  rewrite reverse_snoc. cbn [del_loop].
  assert (Hsd : Z.of_nat (size (delete long m)) < 2 ^ 64 - 2) by (rewrite map_size_delete, Hm; simpl; lia).
  match goal with |- context [del_step q _ ?s] => edestruct (del_prefix_step s) as (st3 & t3 & E3 & H3) end; [|exact HA|exact Eq|exact Htp|exact Hm|exact Hpre|exact Hone|].
  { eapply trie_same; [|exact Hnp|]; [|done]. eapply trie_ext; [| |exact H2]; [|done].
    intros p'. simpl. case_decide; [by subst|done]. }
  rewrite E3. cbn [mbind option_bind].
  destruct (del_step_ok _ _ _ _ _ _ H3 (hi_range b Hkb) Hsd) as (st4 & t4 & -> & H4). cbn [mbind option_bind].
  destruct (del_loop_ok (reverse front) ltac:(by apply Forall_reverse) st4 root (delete long m) t4 Hsd) as (st5 & t5 & -> & H5).
  { by rewrite reverse_involutive. }
  cbn [mbind option_bind]. eexists. split; [by rewrite Hmap, Hnone|]. by eapply leaving_root.
Qed.

(** ** Sequences of operations *)

Inductive op := Add (key : list Z) (v : Z) | Find (key : list Z) | Del (key : list Z).

(** What the code answers: for [Add] whether a node was made, for the others the mapping. *)
Definition op_run (calloc : store -> option positive) (root : positive) (o : op) (st : store)
  : option (store * option Z) :=
  match o with
  | Add key v => '(st, node) ← xtree_add calloc root key (Some v) st; Some (st, match node with Some _ => Some v | None => None end)
  | Find key => r ← xtree_find root key st; Some (st, r)
  | Del key => xtree_del root key st
  end.

Fixpoint ops_run (calloc : store -> option positive) (root : positive) (os : list op) (st : store)
  : option (store * list (option Z)) :=
  match os with
  | [] => Some (st, [])
  | o :: os => '(st, r) ← op_run calloc root o st; '(st, rs) ← ops_run calloc root os st; Some (st, r :: rs)
  end.

(** The specification: a map from keys to mappings. *)
Definition op_spec (o : op) (m : gmap (list Z) Z) : gmap (list Z) Z * option Z :=
  match o with
  | Add key v => (<[key := v]> m, Some v)
  | Find key => (m, m !! key)
  | Del key => (delete key m, m !! key)
  end.

Fixpoint ops_spec (os : list op) (m : gmap (list Z) Z) : list (option Z) :=
  match os with
  | [] => []
  | o :: os => let '(m, r) := op_spec o m in r :: ops_spec os m
  end.

(** A key is added when it is not there and deleted when it is. *)
Definition op_fits (o : op) (m : gmap (list Z) Z) : Prop :=
  match o with
  | Add key _ => is_bytes key /\ key ≠ [] /\ m !! key = None
  | Find key => is_bytes key
  | Del key => is_bytes key /\ key ≠ [] /\ is_Some (m !! key)
  end.

Fixpoint ops_fit (os : list op) (m : gmap (list Z) Z) : Prop :=
  match os with
  | [] => True
  | o :: os => op_fits o m /\ ops_fit os (op_spec o m).1
  end.

(** The map over keys that a map over paths amounts to. *)
Definition by_key (m' m : gmap (list Z) Z) : Prop :=
  size m' = size m /\ (forall key, is_bytes key -> m' !! path key = m !! key)
  /\ forall p, is_Some (m' !! p) -> exists key, is_bytes key /\ p = path key.

Lemma by_key_insert m' m key v : by_key m' m -> is_bytes key -> m !! key = None ->
  by_key (<[path key := v]> m') (<[key := v]> m).
Proof.
  intros (Hs & Hl & Hp) Hk Hn. split; [rewrite !map_size_insert_None by (rewrite ?Hl; done); lia|]. split.
  2: { intros p [<-|[_ Hx]]%lookup_insert_is_Some; [by exists key|by apply Hp]. }
  intros k Hb. destruct (decide (key = k)) as [->|Hne]; [by rewrite !lookup_insert_eq|].
  rewrite !lookup_insert_ne; [by apply Hl|done|]. intros E. apply Hne. by apply path_inj.
Qed.

Lemma by_key_delete m' m key v : by_key m' m -> is_bytes key -> m !! key = Some v ->
  by_key (delete (path key) m') (delete key m).
Proof.
  intros (Hs & Hl & Hp) Hk Hv. split; [rewrite !map_size_delete, Hl, Hv by done; lia|]. split.
  2: { intros p [_ Hx]%lookup_delete_is_Some. by apply Hp. }
  intros k Hb. destruct (decide (key = k)) as [->|Hne]; [by rewrite !lookup_delete_eq|].
  rewrite !lookup_delete_ne; [by apply Hl|done|]. intros E. apply Hne. by apply path_inj.
Qed.

Lemma op_run_ok calloc st root m' m o : calloc_ok calloc -> tree_is st root m' -> by_key m' m -> op_fits o m ->
  Z.of_nat (size m) < 2 ^ 64 - 2 ->
  exists st' m'', op_run calloc root o st = Some (st', (op_spec o m).2) /\ tree_is st' root m'' /\ by_key m'' (op_spec o m).1.
Proof.
  intros Hcal Ht Hby Hf Hsz. pose proof Hby as (Hs & Hl & _). destruct o as [key v|key|key]; simpl in Hf |- *.
  - destruct Hf as (Hk & Hne & Hn).
    destruct (add_tree_ok calloc st root m' key v Hcal Ht Hk Hne) as (st' & node & -> & Ht'); [by rewrite Hl|by rewrite Hs|].
    eexists _, _. split; [done|]. split; [exact Ht'|]. by apply by_key_insert.
  - rewrite (find_tree_ok _ _ _ _ Ht Hf), Hl by done. by eexists _, _.
  - destruct Hf as (Hk & Hne & [v Hv]).
    destruct (del_tree_ok st root m' key v Ht Hk Hne) as (st' & -> & Ht'); [by rewrite Hl|by rewrite Hs|].
    rewrite Hv. eexists _, _. split; [done|]. split; [exact Ht'|]. by eapply by_key_delete.
Qed.

Lemma op_spec_size o m : (size (op_spec o m).1 <= S (size m))%nat.
Proof.
  destruct o; simpl; [rewrite map_size_insert; destruct (m !! key); simpl; lia|lia|].
  rewrite map_size_delete. destruct (m !! key); simpl; lia.
Qed.

(** The map after a sequence of operations. *)
Fixpoint ops_end (os : list op) (m : gmap (list Z) Z) : gmap (list Z) Z :=
  match os with
  | [] => m
  | o :: os => ops_end os (op_spec o m).1
  end.

Lemma ops_end_size os : forall m, (size (ops_end os m) <= size m + length os)%nat.
Proof.
  induction os as [|o os IH]; intros m; [simpl; lia|]. cbn [ops_end length].
  pose proof (IH (op_spec o m).1). pose proof (op_spec_size o m). lia.
Qed.

Lemma by_key_empty : by_key ∅ ∅.
Proof.
  split; [done|]. split; [intros; by rewrite !lookup_empty|]. intros p [x Hx]. by rewrite lookup_empty in Hx.
Qed.

Lemma ops_run_ok calloc root os : calloc_ok calloc -> forall st m' m, tree_is st root m' -> by_key m' m -> ops_fit os m ->
  Z.of_nat (size m + length os) < 2 ^ 64 - 2 ->
  exists st' m'', ops_run calloc root os st = Some (st', ops_spec os m) /\ tree_is st' root m'' /\ by_key m'' (ops_end os m).
Proof.
  intros Hcal. induction os as [|o os IH]; intros st m' m Ht Hby Hf Hsz; [by eexists _, _|].
  destruct Hf as [Hf Hfs]. simpl length in Hsz.
  destruct (op_run_ok calloc st root m' m o Hcal Ht Hby Hf ltac:(lia)) as (st1 & m1 & E1 & Ht1 & Hby1).
  pose proof (op_spec_size o m). cbn [ops_run ops_spec ops_end]. rewrite E1. destruct (op_spec o m) as [m2 r]. simpl in *.
  destruct (IH st1 m1 m2 Ht1 Hby1 Hfs ltac:(lia)) as (st2 & m3 & -> & Hend). by eexists _, _.
Qed.

Lemma ops_run_app calloc root os os' : forall st,
  ops_run calloc root (os ++ os') st
  = ('(st, rs) ← ops_run calloc root os st; '(st, rs') ← ops_run calloc root os' st; Some (st, rs ++ rs')).
Proof.
  induction os as [|o os IH]; intros st; cbn [ops_run app mbind option_bind].
  - by destruct (ops_run calloc root os' st) as [[]|].
  - destruct (op_run calloc root o st) as [[st1 r]|]; [|done]. cbn [mbind option_bind]. rewrite IH.
    destruct (ops_run calloc root os st1) as [[st2 rs]|]; [|done]. cbn [mbind option_bind].
    by destruct (ops_run calloc root os' st2) as [[]|].
Qed.

Lemma path_prefix a : forall b, is_bytes a -> is_bytes b -> path a `prefix_of` path b -> a `prefix_of` b.
Proof.
  induction a as [|x a IH]; intros b Ha Hb Hp; [apply prefix_nil|]. destruct b as [|y b]; [by apply prefix_nil_inv in Hp|].
  apply Forall_cons in Ha as [Hx Ha]. apply Forall_cons in Hb as [Hy Hb].
  rewrite !path_cons in Hp.
  pose proof (prefix_cons_inv_1 _ _ _ _ Hp) as E1. apply prefix_cons_inv_2 in Hp.
  pose proof (prefix_cons_inv_1 _ _ _ _ Hp) as E2. apply prefix_cons_inv_2 in Hp.
  rewrite (hi_lo x Hx), (hi_lo y Hy), E1, E2. by apply prefix_cons, IH.
Qed.

(** One key only lies below the beginning that it shares with no other. *)
Lemma one_below m' m key long v : by_key m' m -> is_bytes key -> is_bytes long -> m !! long = Some v -> key `prefix_of` long ->
  (forall k, is_Some (m !! k) -> key `prefix_of` k -> k = long) -> keys_below m' (path key) = 1.
Proof.
  intros (_ & Hl & Hp) Hk Hkl Hv Hpre Hone. unfold keys_below.
  replace (filter _ m') with ({[path long := v]} : gmap (list Z) Z); [by rewrite map_size_singleton|].
  apply map_eq. intros p. rewrite map_lookup_filter. destruct (decide (p = path long)) as [->|Hne].
  - rewrite lookup_singleton_eq, Hl, Hv by done. cbn [mbind option_bind]. rewrite option_guard_True; [done|].
    destruct Hpre as [b ->]. rewrite path_app. simpl. by apply prefix_app_r.
  - rewrite lookup_singleton_ne by done. destruct (m' !! p) as [w|] eqn:E; [|done]. cbn [mbind option_bind].
    rewrite option_guard_False; [done|]. simpl. intros Hpp. destruct (Hp p ltac:(by eexists)) as (k & Hkb & ->).
    apply Hne. f_equal. apply Hone; [rewrite <- (Hl k Hkb), E; by eexists|]. by apply path_prefix.
Qed.

(** C25: The prefix tree is a map: after [xtree_create], any sequence of
    [xtree_add], [xtree_find] and [xtree_del] in which a key is added only when
    it is not there and deleted only when it is there gives, operation by
    operation, what a map from keys to mappings gives, and never faults. *)
Theorem xtree_refines_map (calloc : store -> option positive) (st : store) (os : list op)
  (Hcal : calloc_ok calloc) (Hfit : ops_fit os ∅) (Hlen : Z.of_nat (length os) < 2 ^ 64 - 2) :
  exists st1 root st2, xtree_create calloc st = Some (st1, Some root)
    /\ ops_run calloc root os st1 = Some (st2, ops_spec os ∅).
Proof.
  destruct (xtree_create_ok calloc st Hcal) as (st1 & root & E & Ht).
  destruct (ops_run_ok calloc root os Hcal st1 ∅ ∅ Ht by_key_empty Hfit) as (st2 & m2 & E2 & _); [by rewrite map_size_empty|].
  by exists st1, root, st2.
Qed.

(** The first free address. *)
Definition fresh_calloc (st : store) : option positive := Some (fresh (dom st)).

Lemma fresh_calloc_ok : calloc_ok fresh_calloc.
Proof. intros st. eexists. split; [done|]. apply not_elem_of_dom, is_fresh. Qed.

Definition sample_ops : list op :=
  [Add [0x61] 1; Add [0x61; 0x62] 2; Find [0x61]; Del [0x61]; Find [0x61]; Find [0x61; 0x62]; Del [0x61; 0x62]; Find [0x61; 0x62]].

Lemma xtree_refines_map_witness :
  exists st1 root st2, xtree_create fresh_calloc ∅ = Some (st1, Some root)
    /\ ops_run fresh_calloc root sample_ops st1 = Some (st2, [Some 1; Some 2; Some 1; Some 1; None; Some 2; Some 2; None]).
Proof.
  apply (xtree_refines_map fresh_calloc ∅ sample_ops); [apply fresh_calloc_ok| |by vm_compute].
  unfold sample_ops. repeat (split || constructor); unfold is_byte; try lia; done.
Defined.

(** ** What the code does outside its contract *)

(** C38: Deleting a key that was never added but is the beginning of exactly
    one key of the tree answers, as for any absent key, that there is no mapping
    - and takes the longer key out: after any sequence of operations that keeps
    to the contract, every later operation is answered as if the longer key had
    been deleted. *)
Theorem xtree_del_prefix_loses (calloc : store -> option positive) (st : store) (os os' : list op) (key long : list Z) (v : Z)
  (Hcal : calloc_ok calloc) (Hfit : ops_fit os ∅) (Hk : is_bytes key) (Hne : key ≠ []) (Habsent : ops_end os ∅ !! key = None)
  (Hkl : is_bytes long) (Hlong : ops_end os ∅ !! long = Some v) (Hpre : key `prefix_of` long)
  (Hone : forall k, is_Some (ops_end os ∅ !! k) -> key `prefix_of` k -> k = long)
  (Hfit' : ops_fit os' (delete long (ops_end os ∅))) (Hlen : Z.of_nat (length os + length os') < 2 ^ 64 - 2) :
  exists st1 root st2, xtree_create calloc st = Some (st1, Some root)
    /\ ops_run calloc root (os ++ Del key :: os') st1
       = Some (st2, ops_spec os ∅ ++ None :: ops_spec os' (delete long (ops_end os ∅))).
Proof.
  destruct (xtree_create_ok calloc st Hcal) as (st1 & root & E & Ht).
  destruct (ops_run_ok calloc root os Hcal st1 ∅ ∅ Ht by_key_empty Hfit) as (st2 & m2 & E2 & Ht2 & Hby); [rewrite map_size_empty; lia|].
  pose proof (ops_end_size os ∅) as Hsz. rewrite map_size_empty in Hsz. pose proof Hby as (Hs & Hl & _).
  destruct (del_prefix_ok st2 root m2 key (path long) v Ht2 Hk Hne) as (st3 & E3 & Ht3).
  { by rewrite Hl. }
  { by rewrite Hl. }
  { destruct Hpre as [b ->]. rewrite path_app. by apply prefix_app_r. }
  { by eapply one_below. }
  { lia. }
  destruct (ops_run_ok calloc root os' Hcal st3 _ (delete long (ops_end os ∅)) Ht3) as (st4 & m4 & E4 & _).
  { by eapply by_key_delete. }
  { done. }
  { rewrite map_size_delete, Hlong. simpl. lia. }
  exists st1, root, st4. split; [done|]. rewrite ops_run_app, E2. cbn [mbind option_bind ops_run op_run].
  rewrite E3. cbn [mbind option_bind]. by rewrite E4.
Qed.

Lemma xtree_del_prefix_loses_witness :
  exists st1 root st2, xtree_create fresh_calloc ∅ = Some (st1, Some root)
    /\ ops_run fresh_calloc root ([Add [0x61; 0x62] 7; Add [0x70] 8] ++ Del [0x61] :: [Find [0x61; 0x62]; Find [0x70]]) st1
       = Some (st2, [Some 7; Some 8; None; None; Some 8]).
Proof.
  apply (xtree_del_prefix_loses fresh_calloc ∅ [Add [0x61; 0x62] 7; Add [0x70] 8] [Find [0x61; 0x62]; Find [0x70]] [0x61] [0x61; 0x62] 7);
    [apply fresh_calloc_ok| | |done|done| |done| | | |by vm_compute].
  1, 2, 3, 6: repeat (split || constructor); unfold is_byte; try lia; done.
  - by exists [0x62].
  - cbn [ops_end op_spec fst]. intros k [x Hx] Hp. apply lookup_insert_Some in Hx as [[<- _]|[_ Hx]].
    + by destruct Hp.
    + by apply lookup_singleton_Some in Hx as [<- _].
Defined.

(** The walks do not keep to what they promise.  [tree_rise] with a count
    lists more nodes than the count when the counter reaches zero inside a
    branch, because only the outer loop looks at it and it wraps below zero;
    [tree_drop] leaves out a mapped node whose last branch is the first child.
    On a tree of four keys, with a count that is not reached, they list the
    mappings in rising and in falling order of the keys, and [xtree_clear]
    passes each of them on once. *)
Lemma tree_walks :
  rise_of [([0x61], 1); ([0x61; 0x62], 2); ([0x61; 0x63], 3); ([0x70], 4)] 1 = Some [Some 1; Some 2; Some 3; Some 4]
  /\ drop_of [([0x61], 1); ([0x61; 0x60], 2)] 10 = Some [Some 2]
  /\ rise_of [([0x70], 4); ([0x61; 0x63], 3); ([0x61], 1); ([0x61; 0x62], 2)] 10 = Some [Some 1; Some 2; Some 3; Some 4]
  /\ drop_of [([0x70], 4); ([0x61; 0x63], 3); ([0x61], 1); ([0x61; 0x62], 2)] 10 = Some [Some 4; Some 3; Some 2; Some 1]
  /\ clear_of [([0x70], 4); ([0x61; 0x63], 3); ([0x61], 1); ([0x61; 0x62], 2)] = Some [2; 3; 1; 4].
Proof. by vm_compute. Qed.
