(* ===== verification/Channel.v ===== *)
(** * The channel of [xnet/xmsger.c]

    A channel is one end of a reliable, ordered message stream over UDP.  The
    sender cuts messages into packets with 16-bit sequence numbers and keeps
    them in a ring until they are acknowledged; the receiver reorders packets
    in a ring and reassembles messages.  Acknowledgements carry the number of
    the packet that arrived and the number up to which everything arrived.

    Every function of the file that touches a channel is a function on the
    state [st]: the channel, the frames of the messages, the messenger's
    counters and the log of calls to the outside (datagrams sent, callbacks).
    The clock, the outcome of [sendto] and [malloc] are the environment [env],
    indexed by a call counter.  [None] is undefined behaviour of the C code: an
    access out of range, a [NULL] dereference or a division by zero. *)

From S2P Require Import Prelude Xline.

(** ** Constants *)

Definition XHEAD_SIZE : Z := 64.
Definition XBODY_SIZE : Z := 1280.
Definition XPACK_SIZE : Z := XHEAD_SIZE + XBODY_SIZE.
Definition XPACK_SERIAL_RANGE : Z := 64.
Definition XPACK_PSF_DEFAULT : Z := 100000.
Definition XPACK_PSF_SAMPLING : Z := 10000000.
Definition XMSG_BUF_RANGE : Z := 8.
Definition XCHANNEL_TIMEDOUT_LIMIT : Z := 10.
Definition XCHANNEL_RTT_SAMPLING_COUNTS : Z := 256.
Definition XCHANNEL_THRESHOLD_MIN : Z := 8.
Definition XCHANNEL_THRESHOLD_INIT : Z := XPACK_SERIAL_RANGE.
Definition NANO_SECONDS : Z := 1000000000.

Definition XPACK_TYPE_ACK : Z := 0x00.
Definition XPACK_TYPE_REQ : Z := 0x01.
Definition XPACK_TYPE_MSG : Z := 0x02.
Definition XPACK_TYPE_RES : Z := 0x03.
Definition XPACK_TYPE_FLUSH : Z := 0xF0.
Definition XPACK_TYPE_LOCAL : Z := 0xF1.

(** ** Data *)

(** [a_type], [a_sn] and [a_pos] are the fields of [ack]; the flags and the key
    are never read on the wire and left out. *)
Record xhead := mkhead {
  h_type : Z; h_sn : Z; h_resend : Z;
  a_type : Z; a_sn : Z; a_pos : Z;
  h_cid : Z; h_len : Z; h_range : Z;
}.

Record xpack := mkpack {
  k_ts : Z; k_kabuf : Z; k_timedout : Z; k_msg : option positive;
  k_head : xhead; k_body : list Z;
}.

(** [serialbuf], [sserialbuf] and [xmsgbuf] differ in the type of the slots. *)
Record ring (A : Type) := mkring {
  r_range : Z; r_spos : Z; r_rpos : Z; r_wpos : Z; r_buf : list A;
}.
Arguments mkring {A}.
Arguments r_range {A}.
Arguments r_spos {A}.
Arguments r_rpos {A}.
Arguments r_wpos {A}.
Arguments r_buf {A}.

(** The fields of [xchannel] that only decide when to send. *)
Record xtiming := mktiming {
  t_kabuf : Z; t_threshold : Z;
  t_psf : Z; t_psf_begin : Z; t_psf_counter : Z;
  t_rtt : Z; t_rtt_counter : Z; t_rtt_duration : Z;
  t_send_ts : Z; t_recv_ts : Z; t_ack_ts : Z; t_timedout : bool;
}.

Record xchannel := mkchannel {
  c_serial_range : Z; c_tm : xtiming; c_cid : Z;
  c_spos : Z; c_rpos : Z; c_wpos : Z;
  c_msg : option positive; c_req : option positive; c_ack : xhead;
  c_msgbuf : ring (option positive); c_recvbuf : ring (option xpack); c_sendbuf : ring xpack;
}.

(** The counters of [struct xmsger] a channel updates. *)
Record xmsger := mkmsger { m_pos : Z; m_len : Z; m_timer : Z }.

(** What the code does to the outside: a datagram handed to the socket, and the
    three callbacks.  A message from the peer is logged with its frame. *)
Inductive event :=
| Sent (h : xhead) (payload : list Z)
| FromPeer (m : positive) (f : xframe)
| ToPeer (m : positive)
| TimedOut.

Record st := mkst {
  s_ch : xchannel; s_frames : gmap positive xframe; s_ms : xmsger;
  s_tick : nat; s_log : list event;
}.

#[export] Instance eta_xhead : Settable xhead := fun r =>
  mkhead (h_type r) (h_sn r) (h_resend r) (a_type r) (a_sn r) (a_pos r) (h_cid r) (h_len r) (h_range r).
#[export] Instance eta_xpack : Settable xpack := fun r =>
  mkpack (k_ts r) (k_kabuf r) (k_timedout r) (k_msg r) (k_head r) (k_body r).
#[export] Instance eta_ring {A} : Settable (ring A) := fun r =>
  mkring (r_range r) (r_spos r) (r_rpos r) (r_wpos r) (r_buf r).
#[export] Instance eta_xtiming : Settable xtiming := fun r =>
  mktiming (t_kabuf r) (t_threshold r) (t_psf r) (t_psf_begin r) (t_psf_counter r) (t_rtt r)
    (t_rtt_counter r) (t_rtt_duration r) (t_send_ts r) (t_recv_ts r) (t_ack_ts r) (t_timedout r).
#[export] Instance eta_xchannel : Settable xchannel := fun r =>
  mkchannel (c_serial_range r) (c_tm r) (c_cid r) (c_spos r) (c_rpos r) (c_wpos r) (c_msg r)
    (c_req r) (c_ack r) (c_msgbuf r) (c_recvbuf r) (c_sendbuf r).
#[export] Instance eta_xmsger : Settable xmsger := fun r => mkmsger (m_pos r) (m_len r) (m_timer r).
#[export] Instance eta_st : Settable st := fun r =>
  mkst (s_ch r) (s_frames r) (s_ms r) (s_tick r) (s_log r).

(** ** The environment *)

(** The [n]-th call to the outside reads the clock, sends a datagram or
    allocates; [e_d2u] is what converting a double out of range yields. *)
Record env := mkenv {
  e_clock : nat -> Z;
  e_send : nat -> bool;
  e_malloc : nat -> Z -> option xframe;
  e_d2u : Z -> Z;
}.

(** ** The ring macros *)

Section Ring.
Context {A : Type}.
Definition __serialbuf_wpos (b : ring A) : Z := Z.land (r_wpos b) (r_range b - 1).
Definition __serialbuf_rpos (b : ring A) : Z := Z.land (r_rpos b) (r_range b - 1).
Definition __serialbuf_spos (b : ring A) : Z := Z.land (r_spos b) (r_range b - 1).
Definition __serialbuf_recvable (b : ring A) : Z := u16 (r_spos b - r_rpos b).
Definition __serialbuf_sendable (b : ring A) : Z := u16 (r_wpos b - r_spos b).
Definition __serialbuf_readable (b : ring A) : Z := u16 (r_wpos b - r_rpos b).
Definition __serialbuf_writable (b : ring A) : Z := u16 (r_range b - r_wpos b + r_rpos b).

(** [b->buf[i]] and [b->buf[i] = x]. *)
Definition ring_get (b : ring A) (i : Z) : option A := rd (r_buf b) i.
Definition ring_set (b : ring A) (i : Z) (x : A) : option (ring A) :=
  l ← wr (r_buf b) i x; Some (b <| r_buf := l |>).
End Ring.

(** ** Doubles

    The code scales times by the double 1.5.  A non-negative integer is rounded
    to 53 significant bits, ties to even; products with 1.5 are computed in
    units of one half, where they are integers. *)
Definition rnd53 (m : Z) : Z :=
  let e := Z.max 0 (Z.log2 m - 52) in
  let q := Z.shiftr m e in
  let r := m - Z.shiftl q e in
  let up := (2 ^ e <? 2 * r) || ((2 * r =? 2 ^ e) && Z.odd q) in
  (q + Z.b2z up) * 2 ^ e.

(** Twice the double [x * 1.5]. *)
Definition scaled (x : Z) : Z := rnd53 (3 * rnd53 x).

Section Code.
Context (e : env).

Definition to_u64 (d : Z) : Z := if decide (d < 2 ^ 64) then d else u64 (e_d2u e d).

(** [rtt * XCHANNEL_RESEND_SCALING_FACTOR * 2] and
    [timedout *= XCHANNEL_RESEND_SCALING_FACTOR]. *)
Definition first_timeout (rtt : Z) : Z := to_u64 (scaled rtt).
Definition next_timeout (t : Z) : Z := to_u64 (scaled t / 2).

(** ** Calls to the outside *)

Definition clock (s : st) : Z * st :=
  (u64 (e_clock e (s_tick s)), s <| s_tick := S (s_tick s) |>).

Definition log (ev : event) (s : st) : st := s <| s_log := s_log s ++ [ev] |>.

(** [udp_sendto(sock, addr, &pack->head, XHEAD_SIZE + len)]: the head and the
    first [len] bytes of the body that follows it. *)
Definition udp_sendto (h : xhead) (body : list Z) (len : Z) (s : st) : option (bool * st) :=
  payload ← rd_range body 0 len;
  let ok := e_send e (s_tick s) in
  let s := s <| s_tick := S (s_tick s) |> in
  Some (ok, if ok then log (Sent h payload) s else s).

(** ** Messages *)

Definition xmsg_fixed (msg : xframe) : xframe :=
  let msg := msg <| f_spos := 0 |> <| f_rpos := 0 |> in
  if decide (f_wpos msg > 0) then
    let r := f_wpos msg / XBODY_SIZE in
    msg <| f_range := if decide (u64 (r * XBODY_SIZE) < f_wpos msg) then u64 (r + 1) else r |>
  else msg <| f_range := 1 |>.

(** ** Creation *)

Definition empty_head : xhead := mkhead 0 0 0 0 0 0 0 0 0.
Definition empty_pack : xpack :=
  mkpack 0 0 0 None empty_head (replicate (Z.to_nat XBODY_SIZE) 0).
Definition empty_ring {A} (range : Z) (x : A) : ring A :=
  mkring range 0 0 0 (replicate (S (Z.to_nat range)) x).

(** [now] is the clock; the list of channels is the caller's. *)
Definition xchannel_create (now serial_range : Z) : xchannel :=
  mkchannel serial_range
    (mktiming 0 XCHANNEL_THRESHOLD_INIT 0 0 0 100000000 0 0 now now 0 false)
    0 0 0 0 None None empty_head
    (empty_ring XMSG_BUF_RANGE None) (empty_ring serial_range None)
    (empty_ring serial_range empty_pack).

(** ** Sending *)

(** The length of the next packet of a message. *)
Definition next_len (msg : xframe) : Z :=
  if decide (f_wpos msg > 0) then
    if decide (u64 (f_wpos msg - f_spos msg) < XBODY_SIZE) then u64 (f_wpos msg - f_spos msg)
    else XBODY_SIZE
  else 0.

Definition xchannel_serial_msg (s : st) : option st :=
  let c := s_ch s in
  if decide (__serialbuf_writable (c_sendbuf c) > 0 /\ __serialbuf_sendable (c_msgbuf c) > 0) then
    p ← ring_get (c_msgbuf c) (__serialbuf_spos (c_msgbuf c));
    m ← p;
    msg ← s_frames s !! m;
    pack ← ring_get (c_sendbuf c) (__serialbuf_wpos (c_sendbuf c));
    let len := next_len msg in
    src ← rd_range (f_buf msg) (f_spos msg) len;
    body ← wr_range (k_body pack) 0 src;
    let head := k_head pack <| h_type := f_type msg |> <| h_len := len |>
                  <| h_range := u16 (f_range msg) |> <| h_resend := 0 |>
                  <| a_type := 0 |> <| a_pos := c_serial_range c |>
                  <| h_cid := c_cid c |> <| h_sn := r_wpos (c_sendbuf c) |> in
    let pack := pack <| k_msg := Some m |> <| k_ts := t_rtt (c_tm c) |> <| k_head := head |>
                     <| k_body := body |> in
    let msg := msg <| f_spos := u64 (f_spos msg + len) |> <| f_range := u64 (f_range msg - 1) |> in
    sb ← ring_set (c_sendbuf c) (__serialbuf_wpos (c_sendbuf c)) pack;
    let sb := sb <| r_wpos := u16 (r_wpos sb + 1) |> in
    let mb := if decide (f_spos msg = f_wpos msg)
              then c_msgbuf c <| r_spos := u16 (r_spos (c_msgbuf c) + 1) |> else c_msgbuf c in
    Some (s <| s_ch := c <| c_sendbuf := sb |> <| c_msgbuf := mb |> |>
            <| s_frames := <[m := msg]> (s_frames s) |>)
  else Some s.

Definition set_pack (i : Z) (pack : xpack) (s : st) : option st :=
  sb ← ring_set (c_sendbuf (s_ch s)) i pack;
  Some (s <| s_ch; c_sendbuf := sb |>).

(** The bookkeeping after a successful [sendto] of slot [i]: the pending
    acknowledgement went along, [spos] moves on and the packet is stamped; then
    the next packet is cut. *)
Definition sent_pack (i : Z) (pack : xpack) (s : st) : option st :=
  let s := s <| s_ch; c_ack; a_type := 0 |> in
  let s := s <| s_ch; c_sendbuf; r_spos := u16 (r_spos (c_sendbuf (s_ch s)) + 1) |> in
  let '(now, s) := clock s in
  let tm := c_tm (s_ch s) in
  let pack := pack <| k_head; h_resend := 1 |> <| k_ts := now |>
                   <| k_kabuf := if decide (t_kabuf tm ≠ 0) then u64 (now - t_kabuf tm) else 0 |>
                   <| k_timedout := first_timeout (t_rtt tm) |> in
  s ← set_pack i pack s;
  xchannel_serial_msg
    (s <| s_ch; c_tm := tm <| t_send_ts := now |> <| t_kabuf := 0 |> |>
       <| s_ch; c_spos := u64 (c_spos (s_ch s) + h_len (k_head pack)) |>).

Definition xchannel_send_pack (s : st) : option st :=
  s ← (if decide (__serialbuf_sendable (c_sendbuf (s_ch s)) = 0)
       then xchannel_serial_msg s else Some s);
  if decide (__serialbuf_sendable (c_sendbuf (s_ch s)) > 0) then
    let i := __serialbuf_spos (c_sendbuf (s_ch s)) in
    pack ← ring_get (c_sendbuf (s_ch s)) i;
    let ack := c_ack (s_ch s) in
    let pack := if decide (a_type ack ≠ 0)
                then pack <| k_head; a_type := a_type ack |> <| k_head; a_sn := a_sn ack |>
                          <| k_head; a_pos := a_pos ack |>
                else pack in
    s ← set_pack i pack s;
    '(ok, s) ← udp_sendto (k_head pack) (k_body pack) (h_len (k_head pack)) s;
    if ok : bool then sent_pack i pack s else Some s
  else Some s.

Definition xchannel_send_ack (s : st) : option st :=
  '(ok, s) ← udp_sendto (c_ack (s_ch s)) [] 0 s;
  Some (if ok : bool
        then s <| s_ch; c_ack; a_type := 0 |> <| s_ch; c_ack; h_resend := 0 |> else s).

(** The last acknowledgement, for a peer that has no channel any more. *)
Definition xchannel_send_final (pack : xpack) (s : st) : option st :=
  let pos := u16 (h_sn (k_head pack) + 1) in
  let h := k_head pack <| h_type := XPACK_TYPE_ACK |> <| a_type := XPACK_TYPE_RES |>
             <| a_pos := pos |> <| a_sn := pos |> <| h_len := 0 |> <| h_range := 1 |> in
  '(_, s) ← udp_sendto h [] 0 s;
  Some s.

(** ** Receiving *)

(** The first packet of a message: [None] when its frame cannot be allocated. *)
Definition start_msg (h : xhead) (s : st) : option (st * positive) :=
  match c_msg (s_ch s) with
  | Some m => Some (s, m)
  | None =>
      let n := h_range h * XBODY_SIZE in
      let mem := e_malloc e (s_tick s) n in
      let s := s <| s_tick := S (s_tick s) |> in
      f ← xl_creator mem n;
      let m := fresh (dom (s_frames s)) in
      let f := f <| f_type := h_type h |> <| f_range := h_range h |> in
      Some (s <| s_frames := <[m := f]> (s_frames s) |> <| s_ch; c_msg := Some m |>, m)
  end.

(** The packet is appended to the frame [m], which goes to the client when it
    was the last one. *)
Definition append_pack (pack : xpack) (s : st) (m : positive) : option st :=
  let h := k_head pack in
  msg ← s_frames s !! m;
  msg ← (if decide (h_len h > 0) then
           src ← rd_range (k_body pack) 0 (h_len h);
           b ← wr_range (f_buf msg) (f_wpos msg) src;
           Some (msg <| f_buf := b |> <| f_wpos := u64 (f_wpos msg + h_len h) |>)
         else Some msg);
  let msg := msg <| f_range := u64 (f_range msg - 1) |> in
  Some (if decide (f_range msg = 0) then
          let msg := xl_fixed msg in
          log (FromPeer m msg)
            (s <| s_frames := <[m := msg]> (s_frames s) |> <| s_ch; c_msg := None |>)
        else s <| s_frames := <[m := msg]> (s_frames s) |>).

(** One turn of the loop of [xchannel_recv_msg] on the packet [pack]: [None] in
    the result when the frame of a new message cannot be allocated. *)
Definition recv_one (pack : xpack) (s : st) : option (option st) :=
  match start_msg (k_head pack) s with
  | None => Some None
  | Some (s, m) => s ← append_pack pack s m; Some (Some s)
  end.

(** [do { ... } while (pack != NULL)]: every packet of the ring from [rpos] on
    is consumed and its slot cleared. *)
Fixpoint recv_loop (fuel : nat) (pack : xpack) (s : st) : option (st * Z) :=
  match fuel with
  | O => None
  | S fuel' =>
      r ← recv_one pack s;
      match r with
      | None => Some (s, -1)
      | Some s =>
          let rb := c_recvbuf (s_ch s) in
          rb ← ring_set rb (__serialbuf_rpos rb) None;
          let rb := rb <| r_rpos := u16 (r_rpos rb + 1) |> in
          let s := s <| s_ch; c_recvbuf := rb |> in
          next ← ring_get rb (__serialbuf_rpos rb);
          match next with
          | None => Some (s, 0)
          | Some pack => recv_loop fuel' pack s
          end
      end
  end.

Definition xchannel_recv_msg (s : st) : option (st * Z) :=
  let '(now, s) := clock s in
  let s := s <| s_ch; c_tm; t_recv_ts := now |> in
  let rb := c_recvbuf (s_ch s) in
  if decide (__serialbuf_readable rb > 0) then
    p ← ring_get rb (__serialbuf_rpos rb);
    pack ← p;
    recv_loop (S (Z.to_nat (r_range rb))) pack s
  else Some (s, 0).

(** ** Acknowledgements *)

(** [xchannel_sampling] first updates the mean round trip of the last 256
    acknowledgements, of which one round trip counts at most twice the mean. *)
Definition sample_rtt (tm : xtiming) (ts : Z) : xtiming :=
  let rtt := u64 (t_ack_ts tm - ts) in
  let twice := u64 (Z.shiftl (t_rtt tm) 1) in
  let tm := tm <| t_rtt_duration := u64 (t_rtt_duration tm + if decide (rtt > twice) then twice else rtt) |> in
  if decide (t_rtt_counter tm < XCHANNEL_RTT_SAMPLING_COUNTS) then
    let n := u16 (t_rtt_counter tm + 1) in
    tm <| t_rtt_counter := n |> <| t_rtt := t_rtt_duration tm / n |>
  else
    let d := u64 (t_rtt_duration tm - t_rtt tm) in
    tm <| t_rtt_duration := d |> <| t_rtt := Z.shiftr d 8 |>.

(** Then it measures the sending period over 10 ms and sets the threshold from
    it, at most [limit], or gives the period up when the packet had waited
    longer than a round trip and a half. *)
Definition sample_psf (limit kabuf : Z) (tm : xtiming) : option xtiming :=
  if decide (t_psf tm = 0) then
    if decide (t_psf_begin tm = 0) then
      Some (tm <| t_psf_begin := t_ack_ts tm |> <| t_psf_counter := u64 (t_psf_counter tm + 1) |>)
    else
      let tm := tm <| t_psf_counter := u64 (t_psf_counter tm + 1) |> in
      if decide (u64 (t_ack_ts tm - t_psf_begin tm) >= XPACK_PSF_SAMPLING) then
        if decide (t_psf_counter tm = 0) then None
        else
          let tm := tm <| t_psf := XPACK_PSF_SAMPLING / t_psf_counter tm |> in
          if decide (t_psf tm = 0) then None
          else
            let th := u16 (u64 (t_rtt tm + t_psf tm - 1) / t_psf tm + 1) in
            Some (tm <| t_threshold := if decide (th > limit) then limit else th |>)
      else Some tm
  else if decide (2 * rnd53 kabuf > scaled (t_rtt tm)) then
    Some (tm <| t_psf := 0 |> <| t_psf_begin := 0 |> <| t_psf_counter := 0 |>
             <| t_threshold := XCHANNEL_THRESHOLD_INIT |>)
  else Some tm.

(** [limit] is [recvbuf->range]. *)
Definition xchannel_sampling (limit : Z) (tm : xtiming) (pack : xpack)
  : option (xtiming * xpack) :=
  tm ← sample_psf limit (k_kabuf pack) (sample_rtt tm (k_ts pack));
  Some (tm, pack <| k_ts := 0 |>).

(** [if (pack->ts != 0) xchannel_sampling(channel, pack)] on slot [i]. *)
Definition sample_slot (i : Z) (s : st) : option st :=
  pack ← ring_get (c_sendbuf (s_ch s)) i;
  if decide (k_ts pack ≠ 0) then
    '(tm, pack) ← xchannel_sampling (r_range (c_recvbuf (s_ch s))) (c_tm (s_ch s)) pack;
    set_pack i pack (s <| s_ch; c_tm := tm |>)
  else Some s.

(** The data of slot [i] has arrived: its message is handed back when all of it
    has, and [rpos] moves on. *)
Definition ack_release (i : Z) (pack : xpack) (s : st) : option st :=
  m ← k_msg pack;
  msg ← s_frames s !! m;
  let msg := msg <| f_rpos := u64 (f_rpos msg + h_len (k_head pack)) |> in
  let s := s <| s_frames := <[m := msg]> (s_frames s) |> in
  s ← (if decide (f_rpos msg = f_wpos msg) then
         let s := log (ToPeer m) s in
         let mb := c_msgbuf (s_ch s) in
         mb ← ring_set mb (__serialbuf_rpos mb) None;
         let mb := mb <| r_rpos := u16 (r_rpos mb + 1) |> in
         set_pack i (pack <| k_msg := None |>) (s <| s_ch; c_msgbuf := mb |>)
       else Some s);
  Some (s <| s_ch; c_sendbuf; r_rpos := u16 (r_rpos (c_sendbuf (s_ch s)) + 1) |>).

(** The reset when everything queued is acknowledged. *)
Definition idle_reset (tm : xtiming) : xtiming :=
  tm <| t_threshold := XCHANNEL_THRESHOLD_INIT |> <| t_ack_ts := 0 |> <| t_rtt_counter := 0 |>
     <| t_psf_begin := 0 |> <| t_psf := 0 |>.

(** One turn of the loop over the packets a cumulative acknowledgement covers:
    the packet at [rpos] is sampled, its length added to the counters, which
    resets the timing when nothing is left to send, and the slot released. *)
Definition ack_one (s : st) : option st :=
  let i := __serialbuf_rpos (c_sendbuf (s_ch s)) in
  s ← sample_slot i s;
  pack ← ring_get (c_sendbuf (s_ch s)) i;
  let len := h_len (k_head pack) in
  let s := s <| s_ms; m_pos := u64 (m_pos (s_ms s) + len) |>
             <| s_ch; c_rpos := u64 (c_rpos (s_ch s) + len) |> in
  let s := (if decide (c_rpos (s_ch s) = c_wpos (s_ch s)) then
              s <| s_ch; c_tm := idle_reset (c_tm (s_ch s)) |>
            else s) in
  ack_release i pack s.

Fixpoint ack_loop (fuel : nat) (pos : Z) (s : st) : option st :=
  let sb := c_sendbuf (s_ch s) in
  if decide (u16 (pos - r_rpos sb) <= u16 (r_spos sb - r_rpos sb) /\ r_rpos sb ≠ pos) then
    match fuel with
    | O => None
    | S fuel' => s ← ack_one s; ack_loop fuel' pos s
    end
  else Some s.

(** The fast retransmission: the first unconfirmed packet from [index] on that
    was sent once is sent again; a failed send goes on with the next. *)
Fixpoint resend_loop (fuel : nat) (index sn : Z) (s : st) : option st :=
  if decide (index ≠ sn) then
    match fuel with
    | O => None
    | S fuel' =>
        let sb := c_sendbuf (s_ch s) in
        let i := Z.land index (r_range sb - 1) in
        pack ← ring_get sb i;
        if decide (k_ts pack ≠ 0 /\ h_resend (k_head pack) < 2) then
          let '(now, s) := clock s in
          let kabuf := u64 (now - k_ts pack) in
          let pack := pack <| k_head; h_resend := u16 (h_resend (k_head pack) + 1) |>
                           <| k_kabuf := kabuf |> <| k_ts := u64 (k_ts pack + kabuf) |> in
          let pack := if decide (a_type (k_head pack) ≠ 0)
                      then pack <| k_head; a_pos := r_wpos (c_recvbuf (s_ch s)) |> else pack in
          '(ok, s) ← udp_sendto (k_head pack) (k_body pack) (h_len (k_head pack)) s;
          if ok : bool then set_pack i (pack <| k_timedout := next_timeout (k_timedout pack) |>) s
          else
            s ← set_pack i pack s;
            resend_loop fuel' (u16 (index + 1)) sn s
        else resend_loop fuel' (u16 (index + 1)) sn s
    end
  else Some s.

Definition xchannel_recv_ack (h : xhead) (s : st) : option st :=
  let sb := c_sendbuf (s_ch s) in
  if decide (__serialbuf_recvable sb > 0
             /\ u16 (a_sn h - r_rpos sb) <= u16 (r_spos sb - r_rpos sb)) then
    let '(now, s) := clock s in
    let s := s <| s_ch; c_tm := c_tm (s_ch s) <| t_recv_ts := now |> <| t_ack_ts := now |> |> in
    s ← ack_loop (S (Z.to_nat (u16 (a_pos h - r_rpos sb)))) (a_pos h) s;
    if decide (a_sn h ≠ a_pos h) then
      let sb := c_sendbuf (s_ch s) in
      s ← sample_slot (Z.land (a_sn h) (r_range sb - 1)) s;
      if decide (u16 (a_sn h - r_rpos sb) > 3)
      then resend_loop (S (Z.to_nat (u16 (a_sn h - r_rpos sb)))) (r_rpos sb) (a_sn h) s
      else Some s
    else Some s
  else Some s.

(** ** Receiving a packet *)

(** The packets that arrived early are counted in. *)
Fixpoint advance_loop (fuel : nat) (s : st) : option st :=
  let rb := c_recvbuf (s_ch s) in
  slot ← ring_get rb (__serialbuf_wpos rb);
  match slot with
  | Some _ =>
      if decide (__serialbuf_writable rb > 0) then
        match fuel with
        | O => None
        | S fuel' =>
            let w := u16 (r_wpos rb + 1) in
            advance_loop fuel' (s <| s_ch; c_recvbuf; r_wpos := w |>
                                  <| s_ch; c_ack; a_pos := w |> <| s_ch; c_ack; a_sn := w |>)
        end
      else Some s
  | None => Some s
  end.

Definition ack_piggyback (pack : xpack) (s : st) : option st :=
  if decide (a_type (k_head pack) ≠ 0) then xchannel_recv_ack (k_head pack) s else Some s.

(** The result of [xchannel_recv_msg], which it ends with. *)
Definition xchannel_recv_pack (pack : xpack) (s : st) : option (st * Z) :=
  let h := k_head pack in
  let s := s <| s_ch; c_ack; h_type := XPACK_TYPE_ACK |> <| s_ch; c_ack; a_type := h_type h |> in
  let rb := c_recvbuf (s_ch s) in
  let index := Z.land (h_sn h) (r_range rb - 1) in
  s ← (if decide (h_sn h = r_wpos rb) then
         s ← ack_piggyback pack s;
         rb ← ring_set (c_recvbuf (s_ch s)) index (Some pack);
         let w := u16 (r_wpos rb + 1) in
         let s := s <| s_ch; c_recvbuf := rb <| r_wpos := w |> |>
                    <| s_ch; c_ack; a_pos := w |> <| s_ch; c_ack; a_sn := w |> in
         advance_loop (S (Z.to_nat (__serialbuf_writable (c_recvbuf (s_ch s))))) s
       else if decide (u16 (r_wpos rb - h_sn h) > u16 (h_sn h - r_wpos rb)) then
         let s := s <| s_ch; c_ack; a_sn := h_sn h |> <| s_ch; c_ack; a_pos := r_wpos rb |> in
         slot ← ring_get rb index;
         match slot with
         | None =>
             s ← ack_piggyback pack s;
             rb ← ring_set (c_recvbuf (s_ch s)) index (Some pack);
             Some (s <| s_ch; c_recvbuf := rb |>)
         | Some _ => Some s
         end
       else
         Some (s <| s_ch; c_ack; a_pos := r_wpos rb |> <| s_ch; c_ack; a_sn := r_wpos rb |>
                 <| s_ch; c_ack; h_resend := 2 |>));
  xchannel_recv_msg s.

(** ** The handlers of the message loop *)

(** A datagram of a peer that has a channel. *)
Definition recv_existing (pack : xpack) (s : st) : option (st * Z) :=
  let ty := h_type (k_head pack) in
  if decide (ty = XPACK_TYPE_MSG) then
    '(s, r) ← xchannel_recv_pack pack s;
    if decide (r ≠ 0) then Some (s, r)
    else
      s ← (if decide (__serialbuf_sendable (c_sendbuf (s_ch s)) > 0)
           then xchannel_send_pack s else xchannel_send_ack s);
      Some (s, 0)
  else if decide (ty = XPACK_TYPE_ACK) then
    s ← xchannel_recv_ack (k_head pack) s; Some (s, 0)
  else if decide (ty = XPACK_TYPE_RES) then
    '(s, r) ← xchannel_recv_pack pack s;
    if decide (r ≠ 0) then Some (s, r)
    else s ← xchannel_send_ack s; Some (s, 0)
  else if decide (ty = XPACK_TYPE_REQ) then
    if decide (h_resend (k_head pack) > 0 \/ a_pos (k_head pack) = r_range (c_recvbuf (s_ch s))) then
      '(s, r) ← xchannel_recv_pack pack s;
      if decide (r ≠ 0) then Some (s, r)
      else s ← xchannel_send_ack s; Some (s, 0)
    else Some (s, 0)
  else Some (s, 0).

(** The first datagram of a peer that asks for a connection. *)
Definition recv_request (pack : xpack) (s : st) : option (st * Z) :=
  let h := k_head pack in
  let '(now, s) := clock s in
  let s := s <| s_ch := xchannel_create now (a_pos h) |>
             <| s_ch; c_cid := h_cid h |> <| s_ch; c_ack; h_cid := h_cid h |> in
  '(s, r) ← xchannel_recv_pack pack s;
  if decide (r ≠ 0) then Some (s, r)
  else s ← xchannel_send_ack s; Some (s, 0).

(** [xmsger_send]: the message, which the client owns until now, is queued. *)
Definition xmsger_send (m : positive) (s : st) : option (st * Z) :=
  let mb := c_msgbuf (s_ch s) in
  if decide (__serialbuf_writable mb > 0) then
    msg ← s_frames s !! m;
    let msg := xmsg_fixed msg in
    mb ← ring_set mb (__serialbuf_wpos mb) (Some m);
    Some (s <| s_frames := <[m := msg]> (s_frames s) |>
            <| s_ms; m_len := u64 (m_len (s_ms s) + f_wpos msg) |>
            <| s_ch; c_wpos := u64 (c_wpos (s_ch s) + f_wpos msg) |>
            <| s_ch; c_msgbuf := mb <| r_wpos := u16 (r_wpos mb + 1) |> |>, 0)
  else Some (s, -1).

Definition lower_timer (delay : Z) (s : st) : st :=
  if decide (m_timer (s_ms s) > delay) then s <| s_ms; m_timer := delay |> else s.

(** The retransmission of slot [i], which timed out at [now]. *)
Definition resend_first (i : Z) (spack : xpack) (now : Z) (s : st) : option (st * bool) :=
  let spack := if decide (a_type (k_head spack) ≠ 0)
               then spack <| k_head; a_pos := r_wpos (c_recvbuf (s_ch s)) |> else spack in
  let spack := spack <| k_kabuf := u64 (now - k_ts spack) |> <| k_ts := now |> in
  '(ok, s) ← udp_sendto (k_head spack) (k_body spack) (h_len (k_head spack)) s;
  if ok : bool then
    let spack := spack <| k_head; h_resend := u16 (h_resend (k_head spack) + 1) |>
                       <| k_timedout := next_timeout (k_timedout spack) |> in
    s ← set_pack i spack s;
    let n := t_threshold (c_tm (s_ch s)) in
    Some (if decide (n > XCHANNEL_THRESHOLD_MIN) then s <| s_ch; c_tm; t_threshold := n - 1 |> else s, false)
  else s ← set_pack i spack s; Some (s, false).

(** One turn of the loop of [xmsger_send_all]: [true] when it breaks off the
    loop over the channels. *)
Definition send_tick (s : st) : option (st * bool) :=
  let '(now, s) := clock s in
  let tm := c_tm (s_ch s) in
  let gap := if decide (t_psf tm > 0) then t_psf tm else XPACK_PSF_DEFAULT in
  let delay := s64 (gap - (now - t_send_ts tm)) in
  s ← (if decide (delay > 0) then Some (lower_timer delay s)
       else if decide (__serialbuf_readable (c_sendbuf (s_ch s)) < t_threshold tm)
       then xchannel_send_pack s
       else if decide (t_kabuf tm = 0) then Some (s <| s_ch; c_tm; t_kabuf := now |>)
       else Some s);
  if decide (__serialbuf_recvable (c_sendbuf (s_ch s)) > 0) then
    let '(now, s) := clock s in
    let i := __serialbuf_rpos (c_sendbuf (s_ch s)) in
    spack ← ring_get (c_sendbuf (s_ch s)) i;
    let tm := c_tm (s_ch s) in
    let last := if decide (t_ack_ts tm > 0) then t_ack_ts tm else t_send_ts tm in
    let delay := s64 (k_timedout spack - (now - last)) in
    if decide (delay > 0) then Some (lower_timer delay s, false)
    else if decide (u64 (now - last) > NANO_SECONDS * XCHANNEL_TIMEDOUT_LIMIT) then
      Some (if t_timedout tm then s else log TimedOut (s <| s_ch; c_tm; t_timedout := true |>), true)
    else
      resend_first i spack now s
  else if decide (c_rpos (s_ch s) = c_wpos (s_ch s)) then
    let '(now, s) := clock s in
    let tm := c_tm (s_ch s) in
    Some (if decide (u64 (now - t_recv_ts tm) > NANO_SECONDS * XCHANNEL_TIMEDOUT_LIMIT
                     /\ t_timedout tm = false)
          then log TimedOut (s <| s_ch; c_tm; t_timedout := true |>) else s, false)
  else Some (s, false).
End Code.
