(* ===== verification/Stream.v ===== *)
(** * Message streams

    The abstract view of one direction of a channel: a sequence of messages,
    each cut into packets of [XBODY_SIZE] bytes, and the numbering of the
    packets of the whole sequence from 0 on.  The senders and receivers of
    [xnet/xmsger.c] are refined to it in Sender.v, Receiver.v and Protocol.v. *)

From S2P Require Import Prelude Xline Channel.

(** A message: its type and its bytes. *)
Abbreviation gmsg := (Z * list Z)%type (only parsing).

(** The number of packets of a message, at least one. *)
Definition count (m : gmsg) : Z :=
  Z.max 1 ((Z.of_nat (length m.2) + XBODY_SIZE - 1) / XBODY_SIZE).

(** The number of packets of a sequence of messages. *)
Fixpoint total (ms : list gmsg) : Z :=
  match ms with
  | [] => 0
  | m :: ms => count m + total ms
  end.

(** The number of the first packet of message [k]. *)
Definition off (ms : list gmsg) (k : nat) : Z := total (take k ms).

(** Packet [r] of a message. *)
Definition chunk (m : gmsg) (r : Z) : list Z :=
  take (Z.to_nat XBODY_SIZE) (drop (Z.to_nat (XBODY_SIZE * r)) m.2).

(** Packet [i] of the sequence is packet [r] of message [k], which is [m]. *)
Definition located (ms : list gmsg) (i : Z) (k : nat) (r : Z) (m : gmsg) : Prop :=
  ms !! k = Some m /\ 0 <= r < count m /\ i = off ms k + r.

(** A client's messages: types the messenger carries, and no longer than the
    16-bit packet count of the header can say. *)
Definition msg_ok (m : gmsg) : Prop :=
  (m.1 = XPACK_TYPE_REQ \/ m.1 = XPACK_TYPE_MSG \/ m.1 = XPACK_TYPE_RES) /\ count m < 2 ^ 16.

(** ** Lemmas *)

Lemma count_pos m : 1 <= count m.
Proof. unfold count. lia. Qed.

Lemma count_len m :
  Z.of_nat (length m.2) <= XBODY_SIZE * count m /\
  (0 < Z.of_nat (length m.2) -> XBODY_SIZE * (count m - 1) < Z.of_nat (length m.2)).
Proof. unfold count, XBODY_SIZE. dlia. Qed.

Lemma count_le m r : 0 <= r < count m -> XBODY_SIZE * r <= Z.of_nat (length m.2).
Proof. unfold count, XBODY_SIZE. dlia. Qed.

Lemma total_app a b : total (a ++ b) = total a + total b.
Proof. induction a as [|m a IH]; simpl; lia. Qed.

Lemma total_nonneg ms : 0 <= total ms.
Proof. induction ms as [|m ms IH]; simpl; [lia|]. pose proof (count_pos m). lia. Qed.

Lemma off_0 ms : off ms 0 = 0.
Proof. done. Qed.

Lemma off_S ms k m : ms !! k = Some m -> off ms (S k) = off ms k + count m.
Proof.
  intros H. unfold off. rewrite (take_S_r _ _ _ H), total_app. simpl. lia.
Qed.

Lemma off_mono ms j k : (j <= k)%nat -> off ms j <= off ms k.
Proof.
  intros H. unfold off. rewrite <- (take_drop j (take k ms)), take_take, total_app.
  replace (j `min` k)%nat with j by lia. pose proof (total_nonneg (drop j (take k ms))). lia.
Qed.

Lemma off_nonneg ms k : 0 <= off ms k.
Proof. apply total_nonneg. Qed.

Lemma off_all ms k : (length ms <= k)%nat -> off ms k = total ms.
Proof. intros. unfold off. by rewrite take_ge. Qed.

Lemma off_app ms ms' k : (k <= length ms)%nat -> off (ms ++ ms') k = off ms k.
Proof. intros. unfold off. by rewrite take_app_le. Qed.

Lemma off_lt ms j k m : ms !! j = Some m -> (j < k)%nat -> off ms j + count m <= off ms k.
Proof. intros Hm Hjk. rewrite <- (off_S _ _ _ Hm). apply off_mono. lia. Qed.

Lemma located_unique ms i k r m k' r' m' :
  located ms i k r m -> located ms i k' r' m' -> k = k' /\ r = r' /\ m = m'.
Proof.
  intros (Hm & Hr & Hi) (Hm' & Hr' & Hi').
  assert (k = k') as <-.
  { destruct (lt_eq_lt_dec k k') as [[H|H]|H]; [|done|]; exfalso.
    - pose proof (off_lt _ _ _ _ Hm H). lia.
    - pose proof (off_lt _ _ _ _ Hm' H). lia. }
  split; [done|]. split; [lia|congruence].
Qed.

Lemma located_app ms ms' i k r m : located ms i k r m -> located (ms ++ ms') i k r m.
Proof.
  intros (Hm & Hr & Hi). pose proof (lookup_lt_Some _ _ _ Hm).
  split; [by apply lookup_app_l_Some|]. rewrite off_app by lia. done.
Qed.

Lemma located_exists ms i : 0 <= i < total ms -> exists k r m, located ms i k r m.
Proof.
  revert i. induction ms as [|m ms IH]; intros i Hi; simpl in Hi; [lia|].
  destruct (decide (i < count m)).
  - exists 0%nat, i, m. split_and!; done || lia || (rewrite off_0; lia).
  - destruct (IH (i - count m)) as (k & r & m' & Hm & Hr & E); [lia|].
    exists (S k), r, m'. split_and!; [done|lia|lia|]. unfold off in *. simpl. lia.
Qed.

(** The length of a packet: full but for the last one. *)
Lemma chunk_length m r :
  0 <= r < count m ->
  Z.of_nat (length (chunk m r)) = Z.min XBODY_SIZE (Z.of_nat (length m.2) - XBODY_SIZE * r).
Proof.
  intros Hr. pose proof (count_le m r Hr). unfold chunk. rewrite length_take, length_drop.
  unfold XBODY_SIZE in *. lia.
Qed.

(** The packets of a message, in order, are its bytes. *)
Lemma chunk_step m r :
  0 <= r -> take (Z.to_nat (XBODY_SIZE * r)) m.2 ++ chunk m r
            = take (Z.to_nat (XBODY_SIZE * (r + 1))) m.2.
Proof.
  intros Hr. unfold chunk, XBODY_SIZE. rewrite take_take_drop. f_equal. lia.
Qed.

Lemma take_all_bytes m : take (Z.to_nat (XBODY_SIZE * count m)) m.2 = m.2.
Proof. apply take_ge. pose proof (count_len m). lia. Qed.

(** The progress of a message in bytes: full packets until the last one. *)
Definition done_bytes (m : gmsg) (r : Z) : Z := Z.min (XBODY_SIZE * r) (Z.of_nat (length m.2)).

Lemma done_bytes_step m r :
  0 <= r < count m -> done_bytes m r + Z.of_nat (length (chunk m r)) = done_bytes m (r + 1).
Proof.
  intros Hr. rewrite chunk_length by done. pose proof (count_len m). pose proof (count_le m r).
  unfold done_bytes, XBODY_SIZE in *. lia.
Qed.

Lemma done_bytes_full m r : 0 <= r < count m -> 1 < count m \/ 0 < Z.of_nat (length m.2) ->
  done_bytes m r < Z.of_nat (length m.2).
Proof.
  intros Hr Hc. pose proof (count_len m) as [Hl Hs]. unfold done_bytes.
  assert (0 < Z.of_nat (length m.2)).
  { destruct (decide (0 < Z.of_nat (length m.2))); [done|].
    unfold count, XBODY_SIZE in *. dlia. }
  unfold XBODY_SIZE in *. lia.
Qed.

Lemma done_bytes_all m : done_bytes m (count m) = Z.of_nat (length m.2).
Proof. pose proof (count_len m). unfold done_bytes. lia. Qed.
