(* ===== verification/Sender.v ===== *)
(** * The sending side of a channel

    The sequence numbers of the ring are the low 16 bits of unbounded packet
    numbers: [sd_R] packets are acknowledged, [sd_S] sent at least once and
    [sd_W] cut from messages.  [snd_ok] ties the rings and the frames of the
    messages in flight to the message stream; every function that touches the
    sending side keeps it ([snd_step]). *)

From S2P Require Import Prelude Xline Channel Stream.

(** ** Ghost state *)

Record sender := mksender {
  sd_R : Z; sd_S : Z; sd_W : Z;
  sd_msgs : list gmsg; sd_ids : list positive;
  sd_acked : nat; sd_ser : nat;
}.

#[export] Instance eta_sender : Settable sender := fun r =>
  mksender (sd_R r) (sd_S r) (sd_W r) (sd_msgs r) (sd_ids r) (sd_acked r) (sd_ser r).

(** The frame of a message that is not yet handed back. *)
Definition in_flight (g : sender) (x : positive) : Prop :=
  exists k, (sd_acked g <= k)%nat /\ sd_ids g !! k = Some x.

(** The head and payload of packet [i]. *)
Definition data_is (ms : list gmsg) (i : Z) (h : xhead) (c : list Z) : Prop :=
  exists k r m, located ms i k r m /\ h_sn h = u16 i /\ h_type h = m.1
    /\ h_len h = Z.of_nat (length c) /\ h_range h = count m - r /\ c = chunk m r.

(** The acknowledgement fields of a packet: none, or, once the channel has
    received something ([q] is false), one of the peer's packets. *)
Definition ack_ok (q : bool) (h : xhead) : Prop :=
  (a_type h = 0 /\ a_pos h = XPACK_SERIAL_RANGE) \/ (q = false /\ a_type h <> 0).

(** A slot that holds packet [i]. *)
Definition slot_ok (q : bool) (g : sender) (i : Z) (p : xpack) : Prop :=
  (exists c, data_is (sd_msgs g) i (k_head p) c /\ rd_range (k_body p) 0 (h_len (k_head p)) = Some c)
  /\ Z.of_nat (length (k_body p)) = XBODY_SIZE
  /\ ack_ok q (k_head p)
  /\ (sd_R g <= i -> forall k r m, located (sd_msgs g) i k r m -> k_msg p = sd_ids g !! k).

(** How many of the packets of message [k] lie before packet [x]. *)
Definition part (ms : list gmsg) (x : Z) (k : nat) (m : gmsg) : Z :=
  Z.max 0 (Z.min (x - off ms k) (count m)).

(** The frame of message [k]. *)
Definition frame_ok (g : sender) (k : nat) (m : gmsg) (f : xframe) : Prop :=
  f_type f = m.1 /\ f_wpos f = Z.of_nat (length m.2) /\ firstn (length m.2) (f_buf f) = m.2
  /\ f_spos f = done_bytes m (part (sd_msgs g) (sd_W g) k m)
  /\ f_range f = count m - part (sd_msgs g) (sd_W g) k m
  /\ f_rpos f = done_bytes m (part (sd_msgs g) (sd_R g) k m).

Record snd_ok (q : bool) (g : sender) (sb : ring xpack) (mb : ring (option positive))
    (fr : gmap positive xframe) : Prop := {
  so_range : r_range sb = XPACK_SERIAL_RANGE;
  so_buf : length (r_buf sb) = S (Z.to_nat XPACK_SERIAL_RANGE);
  so_rpos : r_rpos sb = u16 (sd_R g);
  so_spos : r_spos sb = u16 (sd_S g);
  so_wpos : r_wpos sb = u16 (sd_W g);
  so_order : 0 <= sd_R g <= sd_S g /\ sd_S g <= sd_W g <= sd_R g + XPACK_SERIAL_RANGE;
  so_mrange : r_range mb = XMSG_BUF_RANGE;
  so_mbuf : length (r_buf mb) = S (Z.to_nat XMSG_BUF_RANGE);
  so_mrpos : r_rpos mb = u16 (Z.of_nat (sd_acked g));
  so_mspos : r_spos mb = u16 (Z.of_nat (sd_ser g));
  so_mwpos : r_wpos mb = u16 (Z.of_nat (length (sd_msgs g)));
  so_morder : (sd_acked g <= sd_ser g <= length (sd_msgs g))%nat
              /\ (length (sd_msgs g) <= sd_acked g + 8)%nat;
  so_ids : length (sd_ids g) = length (sd_msgs g);
  so_distinct : forall j k x, (sd_acked g <= j)%nat -> (sd_acked g <= k)%nat ->
    sd_ids g !! j = Some x -> sd_ids g !! k = Some x -> j = k;
  so_msgs : Forall msg_ok (sd_msgs g);
  so_ser : off (sd_msgs g) (sd_ser g) <= sd_W g <= total (sd_msgs g)
           /\ ((sd_ser g < length (sd_msgs g))%nat -> sd_W g < off (sd_msgs g) (S (sd_ser g)));
  so_acked : off (sd_msgs g) (sd_acked g) <= sd_R g
           /\ ((sd_acked g < length (sd_msgs g))%nat -> sd_R g < off (sd_msgs g) (S (sd_acked g)));
  so_slots : forall i, 0 <= i -> sd_W g - XPACK_SERIAL_RANGE <= i < sd_W g ->
    exists p, rd (r_buf sb) (i mod XPACK_SERIAL_RANGE) = Some p /\ slot_ok q g i p;
  so_unused : forall j, sd_W g <= j < XPACK_SERIAL_RANGE ->
    exists p, rd (r_buf sb) j = Some p /\ k_ts p = 0 /\ Z.of_nat (length (k_body p)) = XBODY_SIZE;
  so_mslots : forall k x, (sd_acked g <= k)%nat -> sd_ids g !! k = Some x ->
    rd (r_buf mb) (Z.of_nat k mod XMSG_BUF_RANGE) = Some (Some x);
  so_frames : forall k m x, (sd_acked g <= k)%nat -> sd_msgs g !! k = Some m ->
    sd_ids g !! k = Some x -> exists f, fr !! x = Some f /\ frame_ok g k m f;
}.

Definition Snd (q : bool) (g : sender) (s : st) : Prop :=
  snd_ok q g (c_sendbuf (s_ch s)) (c_msgbuf (s_ch s)) (s_frames s)
  /\ c_serial_range (s_ch s) = XPACK_SERIAL_RANGE
  /\ h_type (c_ack (s_ch s)) = XPACK_TYPE_ACK
  /\ (q = true -> a_type (c_ack (s_ch s)) = 0).

(** ** Events *)

Definition sent_of (ev : event) : option (xhead * list Z) :=
  match ev with Sent h c => Some (h, c) | _ => None end.
Definition to_peer_of (ev : event) : option positive :=
  match ev with ToPeer m => Some m | _ => None end.
Definition from_peer_of (ev : event) : option gmsg :=
  match ev with
  | FromPeer _ f => Some (f_type f, firstn (Z.to_nat (f_wpos f)) (f_buf f))
  | _ => None
  end.

(** A datagram of the channel: a bare acknowledgement, or packet [i] of the
    stream for an [i] in [lo, hi). *)
Definition sent_ok (q : bool) (ms : list gmsg) (lo hi : Z) (ev : event) : Prop :=
  match ev with
  | Sent h c => (h_type h = XPACK_TYPE_ACK /\ c = [] /\ q = false)
                \/ (exists i, 0 <= i /\ lo <= i < hi /\ data_is ms i h c /\ ack_ok q h)
  | _ => True
  end.

(** A move of the sending side that leaves the receiving side alone. *)
Record snd_step (q : bool) (g : sender) (s : st) (g' : sender) (s' : st) (evs : list event)
  : Prop := {
  ss_msgs : sd_msgs g' = sd_msgs g /\ sd_ids g' = sd_ids g;
  ss_R : sd_R g <= sd_R g';
  ss_W : sd_W g <= sd_W g';
  ss_acked : (sd_acked g <= sd_acked g')%nat;
  ss_log : s_log s' = s_log s ++ evs;
  ss_sent : Forall (sent_ok q (sd_msgs g) (sd_W g - XPACK_SERIAL_RANGE) (sd_W g')) evs;
  ss_to : omap to_peer_of evs
          = firstn (sd_acked g' - sd_acked g) (skipn (sd_acked g) (sd_ids g));
  ss_from : omap from_peer_of evs = [];
  ss_recv : c_recvbuf (s_ch s') = c_recvbuf (s_ch s) /\ c_msg (s_ch s') = c_msg (s_ch s);
  ss_frames : forall x, ~ in_flight g x -> s_frames s' !! x = s_frames s !! x;
  ss_dom : dom (s_frames s') = dom (s_frames s);
}.

(** ** Steps compose *)

Lemma in_flight_mono g g' x :
  sd_ids g' = sd_ids g -> (sd_acked g <= sd_acked g')%nat -> in_flight g' x -> in_flight g x.
Proof. intros E Hle (k & Hk & Hx). exists k. rewrite <- E. split; [lia|done]. Qed.

Lemma sent_ok_mono q ms lo hi lo' hi' ev :
  lo' <= lo -> hi <= hi' -> sent_ok q ms lo hi ev -> sent_ok q ms lo' hi' ev.
Proof.
  intros Hl Hh. destruct ev; simpl; try done.
  intros [H|(i & Hi & Hb & H)]; [by left|right]. exists i. split; [done|]. split; [lia|done].
Qed.

Lemma snd_step_refl q g s : snd_step q g s g s [].
Proof.
  split; try done; try lia.
  - by rewrite app_nil_r.
  - by rewrite Nat.sub_diag, take_0.
Qed.

Lemma take_drop_split {A} (l : list A) a b c :
  (a <= b <= c)%nat ->
  take (c - a) (drop a l) = take (b - a) (drop a l) ++ take (c - b) (drop b l).
Proof.
  intros H. replace (drop b l) with (drop (b - a) (drop a l)) by (rewrite drop_drop; f_equal; lia).
  rewrite take_take_drop. f_equal. lia.
Qed.

Lemma snd_step_trans q g s g1 s1 e1 g2 s2 e2 :
  snd_step q g s g1 s1 e1 -> snd_step q g1 s1 g2 s2 e2 -> snd_step q g s g2 s2 (e1 ++ e2).
Proof.
  intros [[Hm Hi] HR HW Ha Hl Hse Ht Hf [Hr Hc] Hfr Hd]
         [[Hm2 Hi2] HR2 HW2 Ha2 Hl2 Hse2 Ht2 Hf2 [Hr2 Hc2] Hfr2 Hd2].
  split; try lia; try (split; congruence); try congruence.
  - by rewrite Hl2, Hl, app_assoc.
  - apply Forall_app. split; (eapply Forall_impl; [eassumption|]); intros ev; rewrite ?Hm;
      apply sent_ok_mono; lia.
  - rewrite omap_app, Ht, Ht2, Hi. symmetry. by apply take_drop_split.
  - by rewrite omap_app, Hf, Hf2.
  - intros x Hx. rewrite Hfr2; [by apply Hfr|]. intros H. apply Hx. by eapply in_flight_mono.
Qed.

(** A change of the channel outside the rings, of the counters and of the log
    by events that are neither data nor callbacks. *)
Lemma snd_step_same q g s s' evs :
  Forall (sent_ok q (sd_msgs g) (sd_W g - XPACK_SERIAL_RANGE) (sd_W g)) evs ->
  omap to_peer_of evs = [] -> omap from_peer_of evs = [] ->
  s_log s' = s_log s ++ evs -> s_frames s' = s_frames s ->
  c_recvbuf (s_ch s') = c_recvbuf (s_ch s) -> c_msg (s_ch s') = c_msg (s_ch s) ->
  snd_step q g s g s' evs.
Proof.
  intros Hs Ht Hf Hl Hfr Hr Hc. split; try done; try lia; try congruence.
  by rewrite Nat.sub_diag, take_0.
Qed.

(** ** Reading the state *)

Section Facts.
Context (q : bool) (g : sender) (sb : ring xpack) (mb : ring (option positive))
  (fr : gmap positive xframe).
Context (H : snd_ok q g sb mb fr).

Lemma so_R_nonneg : 0 <= sd_R g.
Proof using H. destruct (so_order _ _ _ _ _ H). lia. Qed.

Lemma sb_index x : Z.land (u16 x) (r_range sb - 1) = x mod XPACK_SERIAL_RANGE.
Proof using H. rewrite (so_range _ _ _ _ _ H). apply (u16_land_ones x 6). lia. Qed.

Lemma mb_index x : Z.land (u16 x) (r_range mb - 1) = x mod XMSG_BUF_RANGE.
Proof using H. rewrite (so_mrange _ _ _ _ _ H). apply (u16_land_ones x 3). lia. Qed.

Lemma sb_recvable : __serialbuf_recvable sb = sd_S g - sd_R g.
Proof using H.
  unfold __serialbuf_recvable. rewrite (so_spos _ _ _ _ _ H), (so_rpos _ _ _ _ _ H).
  destruct (so_order _ _ _ _ _ H). unfold XPACK_SERIAL_RANGE in *. apply u16_diff. lia.
Qed.

Lemma sb_sendable : __serialbuf_sendable sb = sd_W g - sd_S g.
Proof using H.
  unfold __serialbuf_sendable. rewrite (so_spos _ _ _ _ _ H), (so_wpos _ _ _ _ _ H).
  destruct (so_order _ _ _ _ _ H). unfold XPACK_SERIAL_RANGE in *. apply u16_diff. lia.
Qed.

Lemma sb_writable : __serialbuf_writable sb = XPACK_SERIAL_RANGE - (sd_W g - sd_R g).
Proof using H.
  unfold __serialbuf_writable. rewrite (so_range _ _ _ _ _ H), (so_wpos _ _ _ _ _ H), (so_rpos _ _ _ _ _ H).
  destruct (so_order _ _ _ _ _ H). unfold u16, wrap, XPACK_SERIAL_RANGE in *.
  rewrite Zplus_mod, Zminus_mod, Z.mod_mod, <- Zminus_mod, Z.mod_mod, <- Zplus_mod by lia.
  rewrite Z.mod_small; lia.
Qed.

Lemma mb_sendable :
  __serialbuf_sendable mb = Z.of_nat (length (sd_msgs g)) - Z.of_nat (sd_ser g).
Proof using H.
  unfold __serialbuf_sendable. rewrite (so_mspos _ _ _ _ _ H), (so_mwpos _ _ _ _ _ H).
  destruct (so_morder _ _ _ _ _ H). apply u16_diff. lia.
Qed.

Lemma mb_writable :
  __serialbuf_writable mb
  = XMSG_BUF_RANGE - (Z.of_nat (length (sd_msgs g)) - Z.of_nat (sd_acked g)).
Proof using H.
  unfold __serialbuf_writable. rewrite (so_mrange _ _ _ _ _ H), (so_mwpos _ _ _ _ _ H), (so_mrpos _ _ _ _ _ H).
  destruct (so_morder _ _ _ _ _ H). unfold u16, wrap, XMSG_BUF_RANGE in *.
  rewrite Zplus_mod, Zminus_mod, Z.mod_mod, <- Zminus_mod, Z.mod_mod, <- Zplus_mod by lia.
  rewrite Z.mod_small; lia.
Qed.
End Facts.

(** ** Cutting a packet *)

Lemma rd_range_write (b b' src : list Z) :
  wr_range b 0 src = Some b' -> rd_range b' 0 (Z.of_nat (length src)) = Some src.
Proof.
  intros Hw. unfold wr_range in Hw. case_decide; [|done]. injection Hw as <-.
  by apply (rd_range_app []).
Qed.

Lemma rd_range_chunk m buf r :
  firstn (length m.2) buf = m.2 -> 0 <= r < count m ->
  rd_range buf (XBODY_SIZE * r) (Z.of_nat (length (chunk m r))) = Some (chunk m r).
Proof.
  intros Hb Hr. pose proof (count_le m r Hr).
  set (A := take (Z.to_nat (XBODY_SIZE * r)) m.2).
  set (B := drop (Z.to_nat XBODY_SIZE) (drop (Z.to_nat (XBODY_SIZE * r)) m.2)).
  assert (E : m.2 = A ++ chunk m r ++ B) by (unfold A, B, chunk; by rewrite !take_drop).
  rewrite <- (take_drop (length m.2) buf), Hb, E, <- !app_assoc.
  apply rd_range_app; [|done]. unfold A, XBODY_SIZE in *. rewrite length_take. lia.
Qed.

Lemma part_before ms x k m : x <= off ms k -> part ms x k m = 0.
Proof. pose proof (count_pos m). unfold part. lia. Qed.

Lemma part_after ms x k m : off ms k + count m <= x -> part ms x k m = count m.
Proof. pose proof (count_pos m). unfold part. lia. Qed.

Lemma part_in ms k m r : 0 <= r <= count m -> part ms (off ms k + r) k m = r.
Proof. unfold part. lia. Qed.

(** Moving past packet [i], which is packet [r] of message [k]. *)
Lemma part_step ms i k r m : located ms i k r m -> part ms (i + 1) k m = r + 1.
Proof. intros (Hm & Hr & ->). unfold part. lia. Qed.

Lemma part_at ms i k r m : located ms i k r m -> part ms i k m = r.
Proof. intros (Hm & Hr & ->). unfold part. lia. Qed.

Lemma part_other ms i k r m j m' :
  located ms i k r m -> ms !! j = Some m' -> j <> k -> part ms (i + 1) j m' = part ms i j m'.
Proof.
  intros (Hm & Hr & ->) Hj Hne. pose proof (count_pos m').
  destruct (lt_eq_lt_dec j k) as [[Hlt|]|Hlt]; [|done|].
  - pose proof (off_lt _ _ _ _ Hj Hlt). rewrite !part_after; lia.
  - pose proof (off_lt _ _ _ _ Hm Hlt). rewrite !part_before; lia.
Qed.

(** The next packet to cut is the next one of the first unfinished message. *)
Lemma next_located g sb mb fr q :
  snd_ok q g sb mb fr -> (sd_ser g < length (sd_msgs g))%nat ->
  exists m x, sd_msgs g !! sd_ser g = Some m /\ sd_ids g !! sd_ser g = Some x
    /\ located (sd_msgs g) (sd_W g) (sd_ser g) (sd_W g - off (sd_msgs g) (sd_ser g)) m.
Proof.
  intros H Hlt. destruct (lookup_lt_is_Some_2 _ _ Hlt) as [m Hm].
  destruct (lookup_lt_is_Some_2 (sd_ids g) (sd_ser g)) as [x Hx]; [by rewrite (so_ids _ _ _ _ _ H)|].
  destruct (so_ser _ _ _ _ _ H) as [Hlo Hhi]. specialize (Hhi Hlt). rewrite (off_S _ _ _ Hm) in Hhi.
  exists m, x. split; [done|]. split; [done|]. split_and!; [done|lia|lia|lia].
Qed.

(** The length of the next packet is the length of its chunk. *)
Lemma next_len_chunk m f r :
  f_wpos f = Z.of_nat (length m.2) -> f_spos f = done_bytes m r -> 0 <= r < count m ->
  Z.of_nat (length m.2) < 2 ^ 64 ->
  next_len f = Z.of_nat (length (chunk m r)).
Proof.
  intros Hw Hs Hr Hb. pose proof (count_le m r Hr). rewrite chunk_length by done.
  unfold next_len. rewrite Hw, Hs. unfold done_bytes, XBODY_SIZE in *. rewrite u64_small by lia.
  repeat case_decide; lia.
Qed.

Lemma msg_ok_bound ms k m : Forall msg_ok ms -> ms !! k = Some m ->
  count m < 2 ^ 16 /\ Z.of_nat (length m.2) <= XBODY_SIZE * 2 ^ 16 /\ m.1 <> XPACK_TYPE_ACK.
Proof.
  intros H Hm. destruct (Forall_lookup_1 _ _ _ _ H Hm) as [Ht Hc]. pose proof (count_len m) as [Hl _].
  unfold XBODY_SIZE in *. split; [done|]. split; [lia|].
  unfold XPACK_TYPE_ACK, XPACK_TYPE_REQ, XPACK_TYPE_MSG, XPACK_TYPE_RES in *. lia.
Qed.

Lemma data_is_located ms i h c k r m :
  data_is ms i h c -> located ms i k r m ->
  h_sn h = u16 i /\ h_type h = m.1 /\ h_len h = Z.of_nat (length c) /\ h_range h = count m - r
  /\ c = chunk m r.
Proof.
  intros (k' & r' & m' & Hl & H) Hl'.
  destruct (located_unique _ _ _ _ _ _ _ _ Hl Hl') as (-> & -> & ->). done.
Qed.

(** Window slots: a write at the slot of packet [i] does not touch the others. *)
Lemma window_slot W i j :
  W - XPACK_SERIAL_RANGE < i <= W -> W - XPACK_SERIAL_RANGE < j <= W ->
  i mod XPACK_SERIAL_RANGE = j mod XPACK_SERIAL_RANGE -> i = j.
Proof. intros Hi Hj E. unfold XPACK_SERIAL_RANGE in *. apply (mod_inj 64); [lia|lia|done]. Qed.

Definition serialised (g : sender) (m : gmsg) : sender :=
  g <| sd_W := sd_W g + 1 |>
    <| sd_ser := if decide (sd_W g + 1 = off (sd_msgs g) (sd_ser g) + count m)
                 then S (sd_ser g) else sd_ser g |>.

(** The invariant after packet [sd_W g] has been cut into its slot. *)
Lemma snd_ok_serial q g sb mb fr m x r p f l :
  snd_ok q g sb mb fr -> sd_W g - sd_R g < XPACK_SERIAL_RANGE ->
  sd_ids g !! sd_ser g = Some x -> located (sd_msgs g) (sd_W g) (sd_ser g) r m ->
  wr (r_buf sb) (sd_W g mod XPACK_SERIAL_RANGE) p = Some l ->
  (forall g', sd_msgs g' = sd_msgs g -> sd_ids g' = sd_ids g -> slot_ok q g' (sd_W g) p) ->
  (forall g', sd_msgs g' = sd_msgs g -> sd_R g' = sd_R g -> sd_W g' = sd_W g + 1 ->
     frame_ok g' (sd_ser g) m f) ->
  snd_ok q (serialised g m)
    (sb <| r_buf := l |> <| r_wpos := u16 (r_wpos sb + 1) |>)
    (if decide (sd_W g + 1 = off (sd_msgs g) (sd_ser g) + count m)
     then mb <| r_spos := u16 (r_spos mb + 1) |> else mb)
    (<[x := f]> fr).
Proof.
  intros H Hw Hx Hloc Hl Hp Hf. pose proof Hloc as (Hm & Hr & HW). destruct H.
  pose proof (lookup_lt_Some _ _ _ Hm) as Hser. unfold serialised. set (last := decide (_ = _)) in *.
  pose proof (off_S _ _ _ Hm) as HoffS.
  assert (HW' : sd_W g + 1 <= off (sd_msgs g) (sd_ser g) + count m) by lia.
  split; simpl; try done.
  - rewrite <- so_buf0. by eapply wr_length.
  - by rewrite so_wpos0, u16_add_l.
  - destruct so_order0. lia.
  - by destruct last.
  - by destruct last.
  - by destruct last.
  - destruct last; [|done]. simpl. rewrite so_mspos0, u16_add_l. f_equal. lia.
  - by destruct last.
  - destruct so_morder0. destruct last; lia.
  - split.
    + pose proof (off_mono (sd_msgs g) (S (sd_ser g)) (length (sd_msgs g))) as Hmono.
      rewrite (off_all _ (length (sd_msgs g))) in Hmono by lia. destruct last; lia.
    + intros Hlt. destruct last as [E|]; [|lia].
      destruct (lookup_lt_is_Some_2 _ _ Hlt) as [m2 Hm2]. rewrite (off_S _ _ _ Hm2).
      pose proof (count_pos m2). lia.
  - intros i Hi Hwin. rewrite (rd_wr _ _ _ _ _ Hl).
    destruct (decide (i = sd_W g)) as [->|Hne].
    + rewrite decide_True by done. exists p. split; [done|by apply Hp].
    + rewrite decide_False by (intros E; apply (window_slot (sd_W g)) in E; lia).
      destruct (so_slots0 i) as (p' & Hp' & Hs); [lia|lia|]. exists p'. split; [done|exact Hs].
  - intros j Hj. rewrite (rd_wr _ _ _ _ _ Hl), decide_False; [apply so_unused0; lia|].
    unfold XPACK_SERIAL_RANGE in *. pose proof so_R_nonneg. destruct so_order0.
    rewrite Z.mod_small; lia.
  - intros k y Hk Hy. destruct last; simpl; by apply so_mslots0.
  - intros k m' y Hk Hm' Hy. destruct (decide (k = sd_ser g)) as [->|Hne].
    + assert (m' = m) as -> by congruence. assert (y = x) as -> by congruence.
      rewrite lookup_insert_eq. exists f. split; [done|]. by apply Hf.
    + rewrite lookup_insert_ne by (intros ->; apply Hne; eapply so_distinct0; eauto; lia).
      destruct (so_frames0 k m' y Hk Hm' Hy) as (f' & Hf' & Hok). exists f'. split; [done|].
      unfold frame_ok in *. simpl. by rewrite !(part_other _ _ _ _ _ _ _ Hloc Hm' Hne).
Qed.

Lemma ring_get_slot q g sb mb fr i :
  snd_ok q g sb mb fr -> exists p, ring_get sb (i mod XPACK_SERIAL_RANGE) = Some p
    /\ Z.of_nat (length (k_body p)) = XBODY_SIZE
    /\ ((exists j, 0 <= j /\ sd_W g - XPACK_SERIAL_RANGE <= j < sd_W g
          /\ j mod XPACK_SERIAL_RANGE = i mod XPACK_SERIAL_RANGE /\ slot_ok q g j p)
        \/ k_ts p = 0).
Proof.
  intros H. pose proof (Z.mod_pos_bound i XPACK_SERIAL_RANGE ltac:(done)) as Hb.
  set (a := i mod XPACK_SERIAL_RANGE) in *. pose proof (so_R_nonneg _ _ _ _ _ H).
  destruct (so_order _ _ _ _ _ H).
  set (j := sd_W g - 1 - (sd_W g - 1 - a) mod XPACK_SERIAL_RANGE).
  pose proof (Z.mod_pos_bound (sd_W g - 1 - a) XPACK_SERIAL_RANGE ltac:(done)) as Hj.
  assert (Hja : j mod XPACK_SERIAL_RANGE = a).
  { unfold j. rewrite Zminus_mod_idemp_r. replace (_ - (_ - a)) with a by lia.
    apply Z.mod_small. lia. }
  destruct (decide (0 <= j)) as [Hj0|Hj0].
  - destruct (so_slots _ _ _ _ _ H j) as (p & Hp & Hs); [done|unfold j; lia|].
    rewrite Hja in Hp. exists p. split; [done|]. split; [apply Hs|]. left. exists j.
    unfold XPACK_SERIAL_RANGE in *. unfold j in *. split; [lia|]. split; [lia|]. done.
  - destruct (so_unused _ _ _ _ _ H a) as (p & Hp & Ht & Hl).
    { destruct (decide (sd_W g <= a)); [lia|]. exfalso. apply Hj0. unfold j.
      pose proof (Z.mod_le (sd_W g - 1 - a) XPACK_SERIAL_RANGE ltac:(lia) ltac:(done)). lia. }
    exists p. auto.
Qed.

Lemma mb_get_spos q g sb mb fr x :
  snd_ok q g sb mb fr -> sd_ids g !! sd_ser g = Some x ->
  ring_get mb (__serialbuf_spos mb) = Some (Some x).
Proof.
  intros H Hx. unfold ring_get, __serialbuf_spos.
  rewrite (so_mspos _ _ _ _ _ H), (mb_index _ _ _ _ _ H).
  destruct (so_morder _ _ _ _ _ H). apply (so_mslots _ _ _ _ _ H); [lia|done].
Qed.

(** Writing a slot of the send ring. *)
Lemma sb_set q g sb mb fr i p :
  snd_ok q g sb mb fr ->
  exists l, wr (r_buf sb) (i mod XPACK_SERIAL_RANGE) p = Some l
    /\ ring_set sb (i mod XPACK_SERIAL_RANGE) p = Some (sb <| r_buf := l |>).
Proof.
  intros H. destruct (wr_is_Some (r_buf sb) (i mod XPACK_SERIAL_RANGE) p) as [l Hl].
  { pose proof (Z.mod_pos_bound i XPACK_SERIAL_RANGE ltac:(done)).
    rewrite (so_buf _ _ _ _ _ H). unfold XPACK_SERIAL_RANGE in *. lia. }
  exists l. split; [done|]. unfold ring_set. by rewrite Hl.
Qed.

Lemma sb_index_wpos q g sb mb fr :
  snd_ok q g sb mb fr -> __serialbuf_wpos sb = sd_W g mod XPACK_SERIAL_RANGE.
Proof.
  intros H. unfold __serialbuf_wpos. by rewrite (so_wpos _ _ _ _ _ H), (sb_index _ _ _ _ _ H).
Qed.

Lemma sb_index_spos q g sb mb fr :
  snd_ok q g sb mb fr -> __serialbuf_spos sb = sd_S g mod XPACK_SERIAL_RANGE.
Proof.
  intros H. unfold __serialbuf_spos. by rewrite (so_spos _ _ _ _ _ H), (sb_index _ _ _ _ _ H).
Qed.

Lemma sb_index_rpos q g sb mb fr :
  snd_ok q g sb mb fr -> __serialbuf_rpos sb = sd_R g mod XPACK_SERIAL_RANGE.
Proof.
  intros H. unfold __serialbuf_rpos. by rewrite (so_rpos _ _ _ _ _ H), (sb_index _ _ _ _ _ H).
Qed.

Lemma serial_msg_spec q g s :
  Snd q g s ->
  exists g' s', xchannel_serial_msg s = Some s' /\ Snd q g' s' /\ snd_step q g s g' s' []
    /\ sd_R g' = sd_R g /\ sd_S g' = sd_S g /\ c_tm (s_ch s') = c_tm (s_ch s)
    /\ c_ack (s_ch s') = c_ack (s_ch s) /\ sd_W g' <= sd_W g + 1
    /\ (sd_S g = sd_W g -> sd_W g - sd_R g < XPACK_SERIAL_RANGE ->
        (sd_ser g < length (sd_msgs g))%nat -> sd_W g' = sd_W g + 1).
Proof.
  intros (H & Hsr & Hack & Hq). unfold xchannel_serial_msg.
  rewrite (sb_writable _ _ _ _ _ H), (mb_sendable _ _ _ _ _ H). case_decide as Hd.
  2:{ exists g, s. split; [done|]. split; [done|]. split; [apply snd_step_refl|].
      do 4 (split; [done|]). split; [lia|]. intros. lia. }
  destruct Hd as [Hwr Hser].
  destruct (next_located _ _ _ _ _ H) as (m & x & Hm & Hx & Hloc); [lia|].
  set (r := sd_W g - off (sd_msgs g) (sd_ser g)) in *. pose proof Hloc as (_ & Hr & _).
  destruct (so_morder _ _ _ _ _ H) as [Hmo _].
  destruct (so_frames _ _ _ _ _ H (sd_ser g) m x ltac:(lia) Hm Hx) as (f & Hfx & Hft & Hfw & Hfb & Hfs & Hfr & Hfp).
  rewrite (part_at _ _ _ _ _ Hloc) in Hfs, Hfr.
  destruct (msg_ok_bound _ _ _ (so_msgs _ _ _ _ _ H) Hm) as (Hcnt & Hlen & _).
  pose proof (chunk_length m r Hr) as Hcl. pose proof (count_le m r Hr) as Hcle.
  rewrite (mb_get_spos _ _ _ _ _ x H Hx). cbn [mbind option_bind]. rewrite Hfx.
  cbn [mbind option_bind]. rewrite (sb_index_wpos _ _ _ _ _ H).
  destruct (ring_get_slot _ _ _ _ _ (sd_W g) H) as (p & -> & Hpl & _). cbn [mbind option_bind].
  rewrite (next_len_chunk m f r) by (done || (unfold XBODY_SIZE in *; lia)).
  assert (Hsp : f_spos f = XBODY_SIZE * r) by (rewrite Hfs; unfold done_bytes; lia).
  rewrite Hsp, rd_range_chunk by done. cbn [mbind option_bind].
  destruct (wr_range_is_Some (k_body p) 0 (chunk m r)) as [b Hb]; [lia|unfold XBODY_SIZE in *; lia|].
  rewrite Hb. cbn [mbind option_bind].
  match goal with |- context [ ring_set _ _ ?y ] => set (p' := y) end.
  destruct (sb_set _ _ _ _ _ (sd_W g) p' H) as (l & Hl & ->). cbn [mbind option_bind].
  match goal with |- context [ <[x := ?y]> (s_frames s) ] => set (f' := y) end.
  assert (Hsp' : f_spos f' = done_bytes m (r + 1)).
  { unfold f'. simpl. rewrite <- (done_bytes_step m r Hr). unfold done_bytes.
    rewrite u64_small; unfold XBODY_SIZE in *; lia. }
  assert (Hlast : f_spos f' = f_wpos f' <-> sd_W g + 1 = off (sd_msgs g) (sd_ser g) + count m).
  { rewrite Hsp'. change (f_wpos f') with (f_wpos f). rewrite Hfw. pose proof (done_bytes_all m).
    split; [|intros E; replace (r + 1) with (count m) by lia; done]. intros E.
    destruct (decide (r + 1 = count m)); [lia|]. pose proof (done_bytes_full m (r + 1)). lia. }
  rewrite (decide_ext _ _ _ _ Hlast). exists (serialised g m). eexists. split; [done|].
  assert (Hslot : forall g', sd_msgs g' = sd_msgs g -> sd_ids g' = sd_ids g -> slot_ok q g' (sd_W g) p').
  { intros g' Em Ei. pose proof (wr_range_length _ _ _ _ Hb) as Hlb. unfold slot_ok. rewrite Em, Ei.
    split; [|split; [simpl; lia|split; [left; simpl; by rewrite Hsr|]]].
    - exists (chunk m r). simpl. split; [|by eapply rd_range_write].
      exists (sd_ser g), r, m. split; [done|]. simpl. rewrite (so_wpos _ _ _ _ _ H), Hfr.
      rewrite (u16_small (count m - r)) by lia. done.
    - intros _ k' r' m' Hl'. destruct (located_unique _ _ _ _ _ _ _ _ Hl' Hloc) as (-> & _). done. }
  assert (Hframe : forall g', sd_msgs g' = sd_msgs g -> sd_R g' = sd_R g -> sd_W g' = sd_W g + 1 ->
            frame_ok g' (sd_ser g) m f').
  { intros g' Em ER EW. unfold frame_ok. rewrite Em, ER, EW, (part_step _ _ _ _ _ Hloc), Hsp'.
    split_and!; try done. unfold f'. simpl. rewrite Hfr, u64_small; lia. }
  pose proof (snd_ok_serial q g _ _ _ m x r p' f' l H ltac:(lia) Hx Hloc Hl Hslot Hframe) as Hok.
  split; [split; [exact Hok|done]|].
  split; [|simpl; split_and!; done || lia].
  split; simpl; try done; try lia.
  - by rewrite app_nil_r.
  - by rewrite Nat.sub_diag, take_0.
  - intros y Hy. apply lookup_insert_ne. intros ->. apply Hy. exists (sd_ser g). split; [lia|done].
  - rewrite dom_insert_L. apply elem_of_dom_2 in Hfx.
    by apply subseteq_union_1_L, singleton_subseteq_l.
Qed.

(** ** Changing a slot in place *)

(** The new contents [p'] of a slot that held [p]: the packet is the same. *)
Definition same_packet (q : bool) (p p' : xpack) : Prop :=
  k_msg p' = k_msg p /\ k_body p' = k_body p /\ h_sn (k_head p') = h_sn (k_head p)
  /\ h_type (k_head p') = h_type (k_head p) /\ h_len (k_head p') = h_len (k_head p)
  /\ h_range (k_head p') = h_range (k_head p)
  /\ (ack_ok q (k_head p) -> ack_ok q (k_head p')).

Lemma same_packet_slot q g i p p' : same_packet q p p' -> slot_ok q g i p -> slot_ok q g i p'.
Proof.
  intros (Em & Eb & E1 & E2 & E3 & E4 & Ea) ((c & (k & r & m & Hd) & Hc) & Hl & Hk & Hm).
  unfold slot_ok, data_is. rewrite Eb, Em, E3. split; [|split; [done|split; [by apply Ea|done]]].
  exists c. split; [|done]. exists k, r, m. by rewrite E1, E2, E4.
Qed.

(** A slot is used when it holds one of the last packets cut. *)
Definition used (g : sender) (i : Z) : Prop :=
  exists j, 0 <= j /\ sd_W g - XPACK_SERIAL_RANGE <= j < sd_W g
    /\ j mod XPACK_SERIAL_RANGE = i mod XPACK_SERIAL_RANGE.

Lemma snd_ok_slot q g sb mb fr i p p' l :
  snd_ok q g sb mb fr -> rd (r_buf sb) (i mod XPACK_SERIAL_RANGE) = Some p ->
  same_packet q p p' -> (k_ts p' = 0 \/ used g i) ->
  wr (r_buf sb) (i mod XPACK_SERIAL_RANGE) p' = Some l ->
  snd_ok q g (sb <| r_buf := l |>) mb fr.
Proof.
  intros H Hp Hsame Hts Hl. pose proof (so_R_nonneg _ _ _ _ _ H) as HR.
  pose proof (wr_length _ _ _ _ Hl) as Hlen. destruct H. split; simpl; try done.
  - by rewrite Hlen.
  - intros j Hj Hw. rewrite (rd_wr _ _ _ _ _ Hl). case_decide as E; [|by apply so_slots0].
    destruct (so_slots0 j Hj Hw) as (p2 & Hp2 & Hs). rewrite <- E, Hp in Hp2. injection Hp2 as <-.
    exists p'. split; [done|]. by eapply same_packet_slot.
  - intros j Hj. rewrite (rd_wr _ _ _ _ _ Hl). case_decide as E; [|by apply so_unused0].
    destruct (so_unused0 j Hj) as (p2 & Hp2 & Ht & Hb). rewrite <- E, Hp in Hp2.
    injection Hp2 as <-. exists p'. split; [done|]. destruct Hsame as (_ & Eb & _). rewrite Eb.
    split; [|done]. destruct Hts as [|(j' & Hj0 & Hj' & Ej')]; [done|exfalso].
    destruct so_order0. unfold XPACK_SERIAL_RANGE in *. rewrite E in Ej'.
    rewrite Z.mod_small in Ej' by lia. lia.
Qed.

(** Functions that touch only the sending side's slots, stamps and counters. *)
Lemma set_pack_spec q g s i p p' :
  Snd q g s -> ring_get (c_sendbuf (s_ch s)) (i mod XPACK_SERIAL_RANGE) = Some p ->
  same_packet q p p' -> (k_ts p' = 0 \/ used g i) ->
  exists l, set_pack (i mod XPACK_SERIAL_RANGE) p' s = Some (s <| s_ch; c_sendbuf; r_buf := l |>)
    /\ Snd q g (s <| s_ch; c_sendbuf; r_buf := l |>)
    /\ ring_get (c_sendbuf (s_ch (s <| s_ch; c_sendbuf; r_buf := l |>))) (i mod XPACK_SERIAL_RANGE)
       = Some p'.
Proof.
  intros (H & Hrest) Hp Hsame Hts. destruct (sb_set _ _ _ _ _ i p' H) as (l & Hl & E).
  exists l. unfold set_pack. rewrite E. split; [done|]. split.
  - split; [|exact Hrest]. simpl. by eapply snd_ok_slot.
  - unfold ring_get. simpl. by rewrite (rd_wr _ _ _ _ _ Hl), decide_True.
Qed.

Lemma Snd_frame q g s s' :
  Snd q g s -> c_sendbuf (s_ch s') = c_sendbuf (s_ch s) -> c_msgbuf (s_ch s') = c_msgbuf (s_ch s) ->
  s_frames s' = s_frames s -> c_serial_range (s_ch s') = c_serial_range (s_ch s) ->
  h_type (c_ack (s_ch s')) = h_type (c_ack (s_ch s)) ->
  (a_type (c_ack (s_ch s)) = 0 -> a_type (c_ack (s_ch s')) = 0) ->
  Snd q g s'.
Proof.
  intros (H & Hr & Ha & Hq) E1 E2 E3 E4 E5 E6. unfold Snd. rewrite E1, E2, E3, E4, E5.
  split; [done|]. split; [done|]. split; [done|]. auto.
Qed.

Lemma snd_step_only q g s s' :
  s_log s' = s_log s -> s_frames s' = s_frames s ->
  c_recvbuf (s_ch s') = c_recvbuf (s_ch s) -> c_msg (s_ch s') = c_msg (s_ch s) ->
  snd_step q g s g s' [].
Proof. intros. apply snd_step_same; try done. by rewrite app_nil_r. Qed.

(** Sending the packet of a slot. *)
Lemma sendto_spec e q g s i p :
  Snd q g s -> slot_ok q g i p -> 0 <= i -> sd_W g - XPACK_SERIAL_RANGE <= i < sd_W g ->
  exists ok s' evs, udp_sendto e (k_head p) (k_body p) (h_len (k_head p)) s = Some (ok, s')
    /\ s' = s <| s_tick := S (s_tick s) |> <| s_log := s_log s ++ evs |>
    /\ Snd q g s' /\ snd_step q g s g s' evs.
Proof.
  intros Hs ((c & Hd & Hc) & Hl & Ha & _) Hi Hw. unfold udp_sendto. rewrite Hc. cbn [mbind option_bind].
  destruct (e_send e (s_tick s)).
  - exists true. do 2 eexists. split; [done|]. split; [by unfold log|].
    split; [by eapply Snd_frame|]. apply snd_step_same; try done.
    constructor; [|done]. right. by exists i.
  - exists false. eexists _, []. split; [done|]. rewrite app_nil_r. split; [by destruct s|].
    split; [by eapply Snd_frame|]. by apply snd_step_only.
Qed.

(** ** Sending *)

Definition psf (s : st) : Z := t_psf_counter (c_tm (s_ch s)).

Lemma snd_ok_sent q g sb mb fr :
  snd_ok q g sb mb fr -> sd_S g < sd_W g ->
  snd_ok q (g <| sd_S := sd_S g + 1 |>) (sb <| r_spos := u16 (r_spos sb + 1) |>) mb fr.
Proof.
  intros H Hlt. destruct H. split; simpl; try done.
  - by rewrite so_spos0, u16_add_l.
  - lia.
Qed.

Lemma Snd_sent q g s :
  Snd q g s -> sd_S g < sd_W g ->
  Snd q (g <| sd_S := sd_S g + 1 |>)
    (s <| s_ch; c_sendbuf; r_spos := u16 (r_spos (c_sendbuf (s_ch s)) + 1) |>).
Proof. intros (H & Hrest) Hlt. split; [by apply snd_ok_sent|done]. Qed.

Lemma snd_step_sent q g s s' evs :
  snd_step q g s g s' evs -> snd_step q g s (g <| sd_S := sd_S g + 1 |>) s' evs.
Proof. intros []. by split. Qed.

(** The acknowledgement a packet takes along. *)
Lemma same_packet_ack q (ack : xhead) p :
  (q = true -> a_type ack = 0) ->
  same_packet q p (if decide (a_type ack ≠ 0)
    then p <| k_head; a_type := a_type ack |> <| k_head; a_sn := a_sn ack |>
           <| k_head; a_pos := a_pos ack |> else p).
Proof.
  intros Hq. case_decide as Hd; [|done]. do 6 (split; [done|]). intros _. right. simpl.
  destruct q; [by rewrite Hq in Hd|done].
Qed.

Lemma same_packet_refresh q w p :
  same_packet q p (if decide (a_type (k_head p) ≠ 0) then p <| k_head; a_pos := w |> else p).
Proof.
  case_decide as Hd; [|done]. do 6 (split; [done|]). intros [[? _]|[? ?]]; [done|by right].
Qed.

Lemma same_packet_trans q p1 p2 p3 :
  same_packet q p1 p2 -> same_packet q p2 p3 -> same_packet q p1 p3.
Proof.
  intros (E1 & E2 & E3 & E4 & E5 & E6 & F) (E1' & E2' & E3' & E4' & E5' & E6' & F').
  do 6 (split; [congruence|]). auto.
Qed.

Lemma used_window q g sb mb fr i :
  snd_ok q g sb mb fr -> sd_R g <= i < sd_W g -> used g i /\ 0 <= i /\
  sd_W g - XPACK_SERIAL_RANGE <= i < sd_W g.
Proof.
  intros H Hi. destruct (so_order _ _ _ _ _ H). assert (0 <= i) by lia.
  split; [exists i|]; split_and!; done || lia.
Qed.

Lemma sent_pack_spec e q g s p :
  Snd q g s -> sd_S g < sd_W g ->
  ring_get (c_sendbuf (s_ch s)) (sd_S g mod XPACK_SERIAL_RANGE) = Some p ->
  exists g' s', sent_pack e (sd_S g mod XPACK_SERIAL_RANGE) p s = Some s' /\ Snd q g' s'
    /\ snd_step q g s g' s' [] /\ sd_R g' = sd_R g /\ sd_W g' <= sd_W g + 1 /\ psf s' = psf s.
Proof.
  intros Hs Hlt Hp. unfold sent_pack. pose proof Hs as (Hok & _ & _ & Hq).
  destruct (so_order _ _ _ _ _ Hok) as [HRS HSW].
  destruct (used_window _ _ _ _ _ (sd_S g) Hok) as (Hu & _); [lia|].
  set (s1 := s <| s_ch; c_ack; a_type := 0 |>).
  assert (Hs1 : Snd q g s1) by (by eapply Snd_frame).
  pose proof (Snd_sent q g s1 Hs1 Hlt) as Hs2.
  set (s2 := s1 <| s_ch; c_sendbuf; r_spos := _ |>) in *. unfold clock.
  set (now := u64 _). set (s3 := s2 <| s_tick := _ |>).
  set (g1 := g <| sd_S := sd_S g + 1 |>) in *.
  assert (Hs3 : Snd q g1 s3) by (by eapply Snd_frame).
  match goal with |- context [ set_pack _ ?y s3 ] => set (p' := y) end.
  destruct (set_pack_spec q g1 s3 (sd_S g) p p' Hs3) as (l & -> & Hs4 & _);
    [exact Hp|done|by right|].
  cbn [mbind option_bind]. set (s4 := s3 <| s_ch; c_sendbuf; r_buf := l |>) in *.
  match goal with |- context [ xchannel_serial_msg ?y ] => set (s5 := y) end.
  assert (Hs5 : Snd q g1 s5) by (by eapply Snd_frame).
  destruct (serial_msg_spec q g1 s5 Hs5) as (g6 & s6 & E & Hs6 & Hst6 & HR & HS & Htm & Hack & HW & _).
  exists g6, s6. split_and!; try done.
  - rewrite <- (app_nil_l []). eapply snd_step_trans; [|exact Hst6].
    apply snd_step_sent. by apply snd_step_only.
  - unfold psf. by rewrite Htm.
Qed.

Lemma send_pack_spec e q g s :
  Snd q g s ->
  exists g' s' evs, xchannel_send_pack e s = Some s' /\ Snd q g' s'
    /\ snd_step q g s g' s' evs /\ sd_R g' = sd_R g /\ sd_W g' <= sd_W g + 2 /\ psf s' = psf s.
Proof.
  intros Hs. unfold xchannel_send_pack.
  assert (H1 : exists g1 s1, (if decide (__serialbuf_sendable (c_sendbuf (s_ch s)) = 0)
                then xchannel_serial_msg s else Some s) = Some s1
             /\ Snd q g1 s1 /\ snd_step q g s g1 s1 [] /\ sd_R g1 = sd_R g
             /\ sd_W g1 <= sd_W g + 1 /\ c_tm (s_ch s1) = c_tm (s_ch s)).
  { case_decide; [|by exists g, s; split_and!; try done; try lia; apply snd_step_refl].
    destruct (serial_msg_spec q g s Hs) as (g1 & s1 & ? & ? & ? & ? & ? & ? & ? & ? & _).
    exists g1, s1. done. }
  destruct H1 as (g1 & s1 & -> & Hs1 & Hst1 & HR1 & HW1 & Htm1). cbn [mbind option_bind].
  pose proof Hs1 as (Hok1 & _ & _ & Hq1). rewrite (sb_sendable _ _ _ _ _ Hok1).
  case_decide as Hd.
  2:{ exists g1, s1, []. split_and!; try done; try lia. unfold psf. by rewrite Htm1. }
  destruct (so_order _ _ _ _ _ Hok1) as [HRS HSW].
  destruct (used_window _ _ _ _ _ (sd_S g1) Hok1) as (Hu & HS0 & HSw); [lia|].
  rewrite (sb_index_spos _ _ _ _ _ Hok1).
  destruct (so_slots _ _ _ _ _ Hok1 (sd_S g1)) as (p & Hp & Hslot); [done|done|].
  unfold ring_get at 1. rewrite Hp. cbn [mbind option_bind].
  match goal with |- context [ set_pack _ ?y s1 ] => set (p1 := y) end.
  assert (Hsame1 : same_packet q p p1) by (by apply same_packet_ack).
  destruct (set_pack_spec q g1 s1 (sd_S g1) p p1 Hs1 Hp Hsame1) as (l1 & -> & Hs2 & Hget2); [by right|].
  cbn [mbind option_bind]. set (s2 := s1 <| s_ch; c_sendbuf; r_buf := l1 |>) in *.
  pose proof (same_packet_slot _ _ _ _ _ Hsame1 Hslot) as Hslot1.
  destruct (sendto_spec e q g1 s2 (sd_S g1) p1 Hs2 Hslot1 HS0 HSw) as (ok & s3 & evs & -> & E3 & Hs3 & Hst3).
  cbn [mbind option_bind].
  assert (Hst13 : snd_step q g s g1 s3 evs).
  { rewrite <- (app_nil_l evs). eapply snd_step_trans; [exact Hst1|].
    rewrite <- (app_nil_l evs). eapply snd_step_trans; [|exact Hst3]. by apply snd_step_only. }
  assert (Hpsf3 : psf s3 = psf s) by (rewrite E3; unfold psf; simpl; by rewrite Htm1).
  destruct ok; [|exists g1, s3, evs; split_and!; try done; lia].
  assert (Hget3 : ring_get (c_sendbuf (s_ch s3)) (sd_S g1 mod XPACK_SERIAL_RANGE) = Some p1)
    by (by rewrite E3).
  destruct (sent_pack_spec e q g1 s3 p1 Hs3) as (g4 & s4 & E4 & Hs4 & Hst4 & HR4 & HW4 & Hp4);
    [lia|exact Hget3|].
  exists g4, s4, evs. rewrite <- (app_nil_r evs). split_and!; try done; try lia.
  by eapply snd_step_trans.
Qed.

Lemma send_ack_spec e g s :
  Snd false g s ->
  exists s' evs, xchannel_send_ack e s = Some s' /\ Snd false g s'
    /\ snd_step false g s g s' evs /\ psf s' = psf s.
Proof.
  intros Hs. pose proof Hs as (_ & _ & Ha & _). unfold xchannel_send_ack, udp_sendto.
  cbn [rd_range mbind option_bind]. unfold rd_range. rewrite decide_True by (simpl; lia).
  cbn [mbind option_bind]. destruct (e_send e (s_tick s)); eexists.
  - exists [Sent (c_ack (s_ch s)) []]. split; [done|]. split; [by eapply Snd_frame|].
    split; [|done]. apply snd_step_same; try done. constructor; [by left|done].
  - exists []. split; [done|]. split; [by eapply Snd_frame|]. split; [|done]. by apply snd_step_only.
Qed.

(** ** Acknowledgements *)

(** The one fault of the channel code is the division by a sampling period that
    has become 0: it needs [10^7] samples.  [psf_room n] says that [n] more
    samples are safe. *)
Definition psf_room (n : Z) (s : st) : Prop := 0 <= psf s /\ psf s + n < XPACK_PSF_SAMPLING.
Definition psf_le (n : Z) (s s' : st) : Prop := 0 <= psf s -> 0 <= psf s' <= psf s + n.

(** [o] runs to a state in [Q], or stops for want of room for [n] samples. *)
Definition runs {A} (n : Z) (s : st) (o : option A) (Q : A -> Prop) : Prop :=
  match o with Some a => Q a | None => ~ psf_room n s end.

Lemma runs_bind {A B} n m s (o : option A) (f : A -> option B) (P : A -> Prop) (Q : B -> Prop) :
  runs n s o P -> n <= m ->
  (forall a, P a -> runs m s (f a) Q) -> runs m s (o ≫= f) Q.
Proof.
  intros Ho Hnm Hf. destruct o as [a|]; simpl; [by apply Hf|]. simpl in Ho. unfold psf_room in *. lia.
Qed.

Lemma runs_mono {A} n s (o : option A) (P Q : A -> Prop) :
  runs n s o P -> (forall a, P a -> Q a) -> runs n s o Q.
Proof. destruct o; simpl; auto. Qed.

Lemma runs_later {A} n m k s s' (o : option A) (Q : A -> Prop) :
  runs n s' o Q -> psf_le k s s' -> n + k <= m -> runs m s o Q.
Proof.
  unfold runs, psf_room, psf_le. destruct o; [done|]. intros H Hk Hm [H0 H1]. apply H.
  specialize (Hk H0). lia.
Qed.

Lemma psf_le_trans a b c s1 s2 s3 :
  psf_le a s1 s2 -> psf_le b s2 s3 -> a + b <= c -> psf_le c s1 s3.
Proof. unfold psf_le. lia. Qed.

Lemma psf_le_eq n s s' : psf s' = psf s -> 0 <= n -> psf_le n s s'.
Proof. unfold psf_le. lia. Qed.

Lemma u64_incr_le c : 0 <= c -> 0 <= u64 (c + 1) <= c + 1.
Proof.
  intros Hc. pose proof (u64_range (c + 1)). split; [lia|]. unfold u64, wrap. apply Z.mod_le; lia.
Qed.

Lemma sampling_spec limit tm p :
  match xchannel_sampling limit tm p with
  | Some (tm', p') =>
      p' = p <| k_ts := 0 |> /\
      (0 <= t_psf_counter tm -> 0 <= t_psf_counter tm' <= t_psf_counter tm + 1)
  | None => ~ (0 <= t_psf_counter tm /\ t_psf_counter tm + 1 < XPACK_PSF_SAMPLING)
  end.
Proof.
  unfold xchannel_sampling, sample_psf. set (tm1 := sample_rtt tm (k_ts p)).
  assert (Hc : t_psf_counter tm1 = t_psf_counter tm) by (unfold tm1, sample_rtt; by case_decide).
  clearbody tm1. pose proof (u64_incr_le (t_psf_counter tm)) as Hi.
  repeat (case_decide; simpl; rewrite ?Hc in *; try (split; [done|]; simpl; lia)).
  - intros [Hz Hr]. unfold u64, wrap, XPACK_PSF_SAMPLING in *. rewrite Z.mod_small in *; lia.
  - intros [Hz Hr]. assert (XPACK_PSF_SAMPLING / u64 (t_psf_counter tm + 1) >= 1); [|lia].
    apply Z.le_ge, Z.div_le_lower_bound; [|lia]. specialize (Hi Hz). lia.
Qed.

Lemma sample_slot_spec q g s i :
  Snd q g s ->
  runs 1 s (sample_slot (i mod XPACK_SERIAL_RANGE) s)
    (fun s' => Snd q g s' /\ snd_step q g s g s' [] /\ psf_le 1 s s').
Proof.
  intros Hs. pose proof Hs as (Hok & _). unfold sample_slot.
  destruct (ring_get_slot _ _ _ _ _ i Hok) as (p & Hp & _). rewrite Hp. cbn [mbind option_bind].
  case_decide; [|split; [done|]; split; [apply snd_step_refl|by apply psf_le_eq]].
  pose proof (sampling_spec (r_range (c_recvbuf (s_ch s))) (c_tm (s_ch s)) p) as Hsam.
  destruct (xchannel_sampling _ _ _) as [[tm' p']|]; [|exact Hsam].
  destruct Hsam as [-> Hc]. cbn [mbind option_bind].
  set (s1 := s <| s_ch; c_tm := tm' |>). assert (Hs1 : Snd q g s1) by (by eapply Snd_frame).
  destruct (set_pack_spec q g s1 i p (p <| k_ts := 0 |>) Hs1 Hp) as (l & -> & Hs2 & _);
    [done|by left|].
  split; [done|]. split; [by apply snd_step_only|exact Hc].
Qed.

(** The packet at [sd_R] belongs to the first message in flight. *)
Lemma acked_located q g sb mb fr :
  snd_ok q g sb mb fr -> sd_R g < sd_W g ->
  exists m x r, sd_msgs g !! sd_acked g = Some m /\ sd_ids g !! sd_acked g = Some x
    /\ located (sd_msgs g) (sd_R g) (sd_acked g) r m.
Proof.
  intros H Hlt. destruct (so_acked _ _ _ _ _ H) as [Hlo Hhi]. destruct (so_ser _ _ _ _ _ H) as [[_ Hw] _].
  destruct (decide (sd_acked g < length (sd_msgs g))%nat) as [Hl|].
  2:{ rewrite off_all in Hlo by lia. lia. }
  destruct (lookup_lt_is_Some_2 _ _ Hl) as [m Hm].
  destruct (lookup_lt_is_Some_2 (sd_ids g) (sd_acked g)) as [x Hx]; [by rewrite (so_ids _ _ _ _ _ H)|].
  specialize (Hhi Hl). rewrite (off_S _ _ _ Hm) in Hhi.
  exists m, x, (sd_R g - off (sd_msgs g) (sd_acked g)). unfold located. split_and!; try done; lia.
Qed.

Definition acknowledged (g : sender) (m : gmsg) : sender :=
  g <| sd_R := sd_R g + 1 |>
    <| sd_acked := if decide (sd_R g + 1 = off (sd_msgs g) (sd_acked g) + count m)
                   then S (sd_acked g) else sd_acked g |>.

(** The slots of a ring whose slot [i] has lost its message pointer. *)
Lemma slots_released q g sb mb fr l p p' :
  snd_ok q g sb mb fr -> sd_R g < sd_W g ->
  rd (r_buf sb) (sd_R g mod XPACK_SERIAL_RANGE) = Some p ->
  p' = p \/ p' = p <| k_msg := None |> ->
  wr (r_buf sb) (sd_R g mod XPACK_SERIAL_RANGE) p' = Some l ->
  forall g', sd_msgs g' = sd_msgs g -> sd_ids g' = sd_ids g -> sd_R g' = sd_R g + 1 ->
  forall i, 0 <= i -> sd_W g - XPACK_SERIAL_RANGE <= i < sd_W g ->
    exists p2, rd l (i mod XPACK_SERIAL_RANGE) = Some p2 /\ slot_ok q g' i p2.
Proof.
  intros H HRW Hp Hp' Hl g' Em Ei ER i Hi Hw. rewrite (rd_wr _ _ _ _ _ Hl).
  destruct (so_order _ _ _ _ _ H) as [HRS HSW].
  destruct (so_slots _ _ _ _ _ H i Hi Hw) as (p2 & Hp2 & Hd & Hb & Ha & Hm). case_decide as E.
  - assert (i = sd_R g) as -> by (symmetry; apply (window_slot (sd_W g - 1)); done || lia).
    rewrite Hp in Hp2. injection Hp2 as <-. exists p'. split; [done|].
    unfold slot_ok. rewrite Em, ER. destruct Hp' as [->| ->]; simpl; split_and!; try done; lia.
  - exists p2. split; [done|]. unfold slot_ok. rewrite Em, Ei, ER. split_and!; try done.
    intros Hle. apply Hm. lia.
Qed.

Lemma snd_ok_ack q g sb mb fr m x r f f' p p' l ml :
  snd_ok q g sb mb fr -> sd_R g < sd_S g ->
  sd_ids g !! sd_acked g = Some x -> located (sd_msgs g) (sd_R g) (sd_acked g) r m ->
  fr !! x = Some f -> f' = f <| f_rpos := done_bytes m (r + 1) |> ->
  rd (r_buf sb) (sd_R g mod XPACK_SERIAL_RANGE) = Some p ->
  p' = p \/ p' = p <| k_msg := None |> ->
  wr (r_buf sb) (sd_R g mod XPACK_SERIAL_RANGE) p' = Some l ->
  wr (r_buf mb) (Z.of_nat (sd_acked g) mod XMSG_BUF_RANGE) None = Some ml ->
  snd_ok q (acknowledged g m)
    (sb <| r_buf := l |> <| r_rpos := u16 (r_rpos sb + 1) |>)
    (if decide (sd_R g + 1 = off (sd_msgs g) (sd_acked g) + count m)
     then mb <| r_buf := ml |> <| r_rpos := u16 (r_rpos mb + 1) |> else mb)
    (<[x := f']> fr).
Proof.
  intros H HRS Hx Hloc Hfx -> Hp Hp' Hl Hml.
  assert (HRW : sd_R g < sd_W g) by (destruct (so_order _ _ _ _ _ H); lia).
  pose proof (slots_released _ _ _ _ _ _ _ _ H HRW Hp Hp' Hl) as Hslots.
  pose proof Hloc as (Hm & Hr & HR). destruct H.
  pose proof (lookup_lt_Some _ _ _ Hm) as Hlt. unfold acknowledged. set (last := decide (_ = _)) in *.
  pose proof (off_S _ _ _ Hm) as HoffS.
  assert (HR' : sd_R g + 1 <= off (sd_msgs g) (sd_acked g) + count m) by lia.
  split; simpl; try done.
  - rewrite <- so_buf0. by eapply wr_length.
  - by rewrite so_rpos0, u16_add_l.
  - destruct so_order0. lia.
  - by destruct last.
  - destruct last; [|done]. simpl. rewrite <- so_mbuf0. by eapply wr_length.
  - destruct last; [|done]. simpl. rewrite so_mrpos0, u16_add_l. f_equal. lia.
  - by destruct last.
  - by destruct last.
  - destruct so_morder0 as [Hmo Hmo2], so_ser0 as [[Hs0 Hs1] Hs2]. split; [|destruct last; lia].
    destruct last as [E|]; [|lia]. split; [|lia].
    destruct (decide (sd_ser g = sd_acked g)) as [Es|]; [|lia].
    rewrite Es in Hs2. specialize (Hs2 Hlt). rewrite HoffS in Hs2. lia.
  - intros j k y Hj Hk. apply so_distinct0; destruct last; lia.
  - split; [destruct last; lia|]. intros Hlt'. destruct last as [E|]; [|lia].
    destruct (lookup_lt_is_Some_2 _ _ Hlt') as [m2 Hm2]. rewrite (off_S _ _ _ Hm2).
    pose proof (count_pos m2). lia.
  - intros i Hi Hw. by apply Hslots.
  - intros j Hj. rewrite (rd_wr _ _ _ _ _ Hl), decide_False; [by apply so_unused0|].
    destruct so_order0. unfold XPACK_SERIAL_RANGE in *. rewrite Z.mod_small; lia.
  - intros k y Hk Hy. destruct last as [E|]; simpl; [|by apply so_mslots0].
    rewrite (rd_wr _ _ _ _ _ Hml), decide_False; [apply so_mslots0; [lia|done]|].
    apply lookup_lt_Some in Hy. rewrite so_ids0 in Hy. intros E2.
    apply (mod_inj XMSG_BUF_RANGE) in E2; unfold XMSG_BUF_RANGE in *; lia.
  - intros k m' y Hk Hm' Hy. destruct (decide (k = sd_acked g)) as [->|Hne].
    + assert (m' = m) as -> by congruence. assert (y = x) as -> by congruence.
      rewrite lookup_insert_eq. eexists. split; [done|].
      destruct (so_frames0 _ _ _ ltac:(reflexivity) Hm Hx) as (f2 & Hf2 & Hok).
      rewrite Hfx in Hf2. injection Hf2 as <-. unfold frame_ok in *. simpl.
      rewrite (part_step _ _ _ _ _ Hloc). tauto.
    + assert (sd_acked g <= k)%nat by (destruct last; lia).
      rewrite lookup_insert_ne by (intros ->; apply Hne; eapply so_distinct0; eauto; lia).
      destruct (so_frames0 k m' y) as (f2 & Hf2 & Hok); [done|done|done|]. exists f2. split; [done|].
      unfold frame_ok in *. simpl. by rewrite !(part_other _ _ _ _ _ _ _ Hloc Hm' Hne).
Qed.

Lemma mb_set_rpos q g sb mb fr :
  snd_ok q g sb mb fr ->
  exists l, wr (r_buf mb) (Z.of_nat (sd_acked g) mod XMSG_BUF_RANGE) None = Some l
    /\ ring_set mb (__serialbuf_rpos mb) None = Some (mb <| r_buf := l |>).
Proof.
  intros H. unfold ring_set, __serialbuf_rpos.
  rewrite (so_mrpos _ _ _ _ _ H), (mb_index _ _ _ _ _ H).
  destruct (wr_is_Some (r_buf mb) (Z.of_nat (sd_acked g) mod XMSG_BUF_RANGE) None) as [l Hl].
  { pose proof (Z.mod_pos_bound (Z.of_nat (sd_acked g)) XMSG_BUF_RANGE ltac:(done)).
    rewrite (so_mbuf _ _ _ _ _ H). unfold XMSG_BUF_RANGE in *. lia. }
  exists l. by rewrite Hl.
Qed.

Lemma ack_release_spec q g s p :
  Snd q g s -> sd_R g < sd_S g ->
  ring_get (c_sendbuf (s_ch s)) (sd_R g mod XPACK_SERIAL_RANGE) = Some p ->
  exists g' s' evs, ack_release (sd_R g mod XPACK_SERIAL_RANGE) p s = Some s' /\ Snd q g' s'
    /\ snd_step q g s g' s' evs /\ sd_R g' = sd_R g + 1 /\ sd_S g' = sd_S g
    /\ sd_W g' = sd_W g /\ psf s' = psf s.
Proof.
  intros (Hok & Hrest) HRS Hp. destruct (so_order _ _ _ _ _ Hok) as [HRS' HSW].
  destruct (so_slots _ _ _ _ _ Hok (sd_R g)) as (p2 & Hp2 & ((c & Hd & Hc) & Hb & Ha & Hmsg)); [lia|lia|].
  unfold ring_get in Hp. rewrite Hp in Hp2. injection Hp2 as <-.
  destruct (acked_located _ _ _ _ _ Hok) as (m & x & r & Hm & Hx & Hloc); [lia|].
  destruct (data_is_located _ _ _ _ _ _ _ Hd Hloc) as (_ & _ & Hlen & _ & ->).
  destruct (so_frames _ _ _ _ _ Hok (sd_acked g) m x ltac:(lia) Hm Hx)
    as (f & Hfx & Hft & Hfw & Hfb & Hfs & Hfr & Hfp).
  rewrite (part_at _ _ _ _ _ Hloc) in Hfp. pose proof Hloc as (_ & Hr & HR).
  destruct (msg_ok_bound _ _ _ (so_msgs _ _ _ _ _ Hok) Hm) as (_ & Hlenm & _).
  pose proof (done_bytes_step m r Hr) as Hstep. pose proof (count_le m r Hr).
  unfold ack_release. rewrite (Hmsg ltac:(lia) _ _ _ Hloc), Hx. cbn [mbind option_bind].
  rewrite Hfx. cbn [mbind option_bind]. rewrite Hlen, Hfp, Hstep, u64_small
    by (unfold done_bytes, XBODY_SIZE in *; lia).
  set (f' := f <| f_rpos := done_bytes m (r + 1) |>).
  assert (Hlast : f_rpos f' = f_wpos f' <-> sd_R g + 1 = off (sd_msgs g) (sd_acked g) + count m).
  { change (f_rpos f') with (done_bytes m (r + 1)). change (f_wpos f') with (f_wpos f). rewrite Hfw.
    pose proof (done_bytes_all m).
    split; [|intros E; replace (r + 1) with (count m) by lia; done]. intros E.
    destruct (decide (r + 1 = count m)); [lia|]. pose proof (done_bytes_full m (r + 1)). lia. }
  destruct (mb_set_rpos _ _ _ _ _ Hok) as (ml & Hml & Eml).
  destruct (sb_set _ _ _ _ _ (sd_R g) (p <| k_msg := None |>) Hok) as (l2 & Hl2 & El2).
  pose proof (snd_ok_ack q g _ _ _ m x r f f' p p _ ml Hok HRS Hx Hloc Hfx eq_refl Hp
                (or_introl eq_refl) (wr_id _ _ _ Hp) Hml) as Hok1.
  pose proof (snd_ok_ack q g _ _ _ m x r f f' p _ l2 ml Hok HRS Hx Hloc Hfx eq_refl Hp
                (or_intror eq_refl) Hl2 Hml) as Hok2.
  assert (Hdom : dom (<[x := f']> (s_frames s)) = dom (s_frames s)).
  { rewrite dom_insert_L. apply elem_of_dom_2 in Hfx.
    by apply subseteq_union_1_L, singleton_subseteq_l. }
  assert (Hfr' : forall y, ~ in_flight g y -> <[x := f']> (s_frames s) !! y = s_frames s !! y).
  { intros y Hy. apply lookup_insert_ne. intros ->. apply Hy. exists (sd_acked g). split; [lia|done]. }
  rewrite (decide_ext _ _ _ _ Hlast). unfold acknowledged in *. case_decide as E.
  - set (s1 := log _ _). change (c_msgbuf (s_ch s1)) with (c_msgbuf (s_ch s)). rewrite Eml.
    cbn [mbind option_bind]. unfold set_pack.
    match goal with |- context [ c_sendbuf (s_ch ?y) ] =>
      change (c_sendbuf (s_ch y)) with (c_sendbuf (s_ch s)) end.
    rewrite El2. cbn [mbind option_bind].
    eexists. eexists. exists [ToPeer x]. split; [done|].
    split; [split; [exact Hok2|exact Hrest]|]. split; [|done].
    split; simpl; try done; try lia.
    + constructor; done.
    + replace (S (sd_acked g) - sd_acked g)%nat with 1%nat by lia.
      by rewrite (drop_S _ _ _ Hx).
  - cbn [mbind option_bind]. eexists. eexists. exists []. split; [done|].
    split; [split; [|exact Hrest]|].
    { simpl. destruct (c_sendbuf (s_ch s)). exact Hok1. }
    split; [|done]. split; simpl; try done; try lia.
    + by rewrite app_nil_r.
    + by rewrite Nat.sub_diag, take_0.
Qed.

Lemma ack_one_spec q g s :
  Snd q g s -> sd_R g < sd_S g ->
  runs 1 s (ack_one s) (fun s' => exists g' evs, Snd q g' s' /\ snd_step q g s g' s' evs
    /\ sd_R g' = sd_R g + 1 /\ sd_S g' = sd_S g /\ sd_W g' = sd_W g /\ psf_le 1 s s').
Proof.
  intros Hs HRS. pose proof Hs as (Hok & _). unfold ack_one.
  rewrite (sb_index_rpos _ _ _ _ _ Hok).
  eapply runs_bind; [by apply sample_slot_spec|done|]. intros s1 (Hs1 & Hst1 & Hps1).
  destruct (ring_get_slot _ _ _ _ _ (sd_R g) (proj1 Hs1)) as (p & Hp & _).
  rewrite Hp. cbn [mbind option_bind].
  match goal with |- context [ ack_release _ p ?y ] => set (s2 := y) end.
  assert (Hs2 : Snd q g s2) by (unfold s2; case_decide; by eapply Snd_frame).
  assert (Hst2 : snd_step q g s1 g s2 []) by (unfold s2; case_decide; by apply snd_step_only).
  assert (Hps2 : psf s2 = psf s1) by (unfold s2; by case_decide).
  destruct (ack_release_spec q g s2 p Hs2 HRS) as (g' & s' & evs & -> & Hs' & Hst' & HR & HS & HW & Hps').
  { unfold s2. by case_decide. }
  exists g', evs. split_and!; try done.
  - rewrite <- (app_nil_l evs). eapply snd_step_trans; [exact Hst1|].
    rewrite <- (app_nil_l evs). eapply snd_step_trans; [exact Hst2|done].
  - unfold psf_le in *. lia.
Qed.

(** The packet number an acknowledged position stands for, when it lies in the
    window of unacknowledged packets. *)
Definition ack_target (g : sender) (pos : Z) : Z :=
  if decide (u16 (pos - sd_R g) <= sd_S g - sd_R g) then sd_R g + u16 (pos - sd_R g) else sd_R g.

Lemma ack_loop_spec q pos fuel : forall g s,
  Snd q g s -> 0 <= pos < 2 ^ 16 -> (Z.to_nat (u16 (pos - sd_R g)) <= fuel)%nat ->
  runs (ack_target g pos - sd_R g) s (ack_loop fuel pos s) (fun s' => exists g' evs,
    Snd q g' s' /\ snd_step q g s g' s' evs /\ sd_R g' = ack_target g pos
    /\ sd_S g' = sd_S g /\ sd_W g' = sd_W g /\ psf_le (ack_target g pos - sd_R g) s s').
Proof.
  assert (Hstop : forall g s, Snd q g s -> ack_target g pos = sd_R g ->
    exists g' evs, Snd q g' s /\ snd_step q g s g' s evs /\ sd_R g' = ack_target g pos
    /\ sd_S g' = sd_S g /\ sd_W g' = sd_W g /\ psf_le (ack_target g pos - sd_R g) s s).
  { intros g s Hs E. exists g, []. split; [done|]. split; [apply snd_step_refl|].
    do 3 (split; [done|]). apply psf_le_eq; [done|lia]. }
  induction fuel as [|fuel IH]; intros g s Hs Hpos Hf; pose proof Hs as (Hok & _);
    destruct (so_order _ _ _ _ _ Hok) as [HRS HSW]; pose proof (u16_range (pos - sd_R g)) as Hd;
    cbn [ack_loop]; rewrite (so_rpos _ _ _ _ _ Hok), (so_spos _ _ _ _ _ Hok),
      u16_diff, u16_sub_r by (unfold XPACK_SERIAL_RANGE in *; lia);
    pose proof (u16_eq_iff pos (sd_R g) Hpos) as Heq.
  - rewrite decide_False by (intros [_ H]; apply H, Heq; lia). apply Hstop; [done|].
    unfold ack_target. case_decide; lia.
  - case_decide as Hc; [|apply Hstop; [done|]; unfold ack_target; case_decide; [|done];
      assert (u16 (sd_R g) = pos) as E by (destruct (decide (u16 (sd_R g) = pos)); tauto);
      apply Heq in E; lia].
    destruct Hc as [Hle Hne]. assert (Hpos1 : 0 < u16 (pos - sd_R g)) by (rewrite Heq in Hne; lia).
    pose proof (u16_pred _ _ Hpos1) as Hpred.
    assert (Htgt : ack_target g pos = sd_R g + u16 (pos - sd_R g))
      by (unfold ack_target; by rewrite decide_True).
    eapply runs_bind; [apply ack_one_spec; [done|lia]|lia|].
    intros s1 (g1 & e1 & Hs1 & Hst1 & HR1 & HS1 & HW1 & Hp1).
    assert (Htgt1 : ack_target g1 pos = ack_target g pos).
    { rewrite Htgt. unfold ack_target. rewrite HR1, HS1, Hpred, decide_True by lia. lia. }
    eapply runs_later; [|exact Hp1|].
    + eapply runs_mono; [apply (IH g1 s1 Hs1 Hpos); rewrite HR1, Hpred; lia|].
      intros s2 (g2 & e2 & Hs2 & Hst2 & HR2 & HS2 & HW2 & Hp2). exists g2, (e1 ++ e2).
      split; [done|]. split; [by eapply snd_step_trans|]. do 3 (split; [congruence|]).
      eapply psf_le_trans; [exact Hp1|exact Hp2|lia].
    + lia.
Qed.

(** ** Fast retransmission *)

Lemma resend_loop_spec e q g sn fuel : forall s index,
  Snd q g s -> 0 <= index < 2 ^ 16 -> 0 <= sn < 2 ^ 16 ->
  (Z.to_nat (u16 (sn - index)) <= fuel)%nat ->
  exists s' evs, resend_loop e fuel index sn s = Some s' /\ Snd q g s'
    /\ snd_step q g s g s' evs /\ psf s' = psf s.
Proof.
  assert (Hskip : forall s, Snd q g s -> exists s' evs, Some s = Some s' /\ Snd q g s'
            /\ snd_step q g s g s' evs /\ psf s' = psf s).
  { intros s Hs. exists s, []. split; [done|]. split; [done|]. split; [apply snd_step_refl|done]. }
  induction fuel as [|fuel IH]; intros s index Hs Hi Hsn Hf; cbn [resend_loop];
    pose proof (u16_range (sn - index)) as Hd.
  - rewrite decide_False; [by apply Hskip|]. intros Hne. apply Hne.
    rewrite <- (u16_small index) by lia. apply u16_eq_iff; [done|lia].
  - case_decide as Hne; [|by apply Hskip].
    assert (Hpos : 0 < u16 (sn - index)).
    { destruct (decide (u16 (sn - index) = 0)) as [E|]; [|lia]. apply u16_eq_iff in E; [|done].
      rewrite u16_small in E by lia. done. }
    assert (Hnext : (Z.to_nat (u16 (sn - u16 (index + 1))) <= fuel)%nat)
      by (rewrite u16_sub_r, u16_pred by done; lia).
    pose proof Hs as (Hok & _). pose proof (sb_index _ _ _ _ _ Hok index) as Hidx.
    rewrite (u16_small index Hi) in Hidx. rewrite Hidx.
    destruct (ring_get_slot _ _ _ _ _ index Hok) as (p & Hp & Hb & Hcase). rewrite Hp.
    cbn [mbind option_bind]. case_decide as Hts; [|apply IH; done || apply u16_range].
    destruct Hcase as [(j & Hj0 & Hj & Ej & Hslot)|]; [|tauto].
    unfold clock. set (s1 := s <| s_tick := _ |>).
    assert (Hs1 : Snd q g s1) by (by eapply Snd_frame).
    match goal with |- context [ udp_sendto e (k_head ?y) ] => set (p' := y) end.
    assert (Hsame : same_packet q p p').
    { unfold p'. eapply same_packet_trans; [|apply same_packet_refresh]. done. }
    destruct (sendto_spec e q g s1 j p' Hs1) as (ok & s2 & evs & E & -> & Hs2 & Hst2);
      [by eapply same_packet_slot|done|done|].
    rewrite E. cbn [mbind option_bind].
    match type of Hs2 with Snd _ _ ?y => set (s2 := y) in * end.
    assert (Hst12 : snd_step q g s g s2 evs).
    { rewrite <- (app_nil_l evs). eapply snd_step_trans; [|exact Hst2]. by apply snd_step_only. }
    assert (Hu : used g index) by (exists j; done).
    destruct ok.
    + destruct (set_pack_spec q g s2 index p (p' <| k_timedout := next_timeout e (k_timedout p') |>) Hs2 Hp)
        as (l & -> & Hs3 & _); [exact Hsame|by right|].
      eexists _, evs. split; [done|]. split; [exact Hs3|]. split; [|done].
      rewrite <- (app_nil_r evs). eapply snd_step_trans; [exact Hst12|]. by apply snd_step_only.
    + destruct (set_pack_spec q g s2 index p p' Hs2 Hp Hsame) as (l & -> & Hs3 & _); [by right|].
      cbn [mbind option_bind]. set (s3 := s2 <| s_ch; c_sendbuf; r_buf := l |>) in *.
      destruct (IH s3 (u16 (index + 1)) Hs3 (u16_range _) Hsn Hnext)
        as (s4 & e4 & -> & Hs4 & Hst4 & Hp4).
      exists s4, (evs ++ e4). split; [done|]. split; [done|]. split; [|by rewrite Hp4].
      eapply snd_step_trans; [|exact Hst4]. rewrite <- (app_nil_r evs).
      eapply snd_step_trans; [exact Hst12|]. by apply snd_step_only.
Qed.

(** ** Processing an acknowledgement *)

Lemma recv_ack_spec e q g s h :
  Snd q g s -> 0 <= a_sn h < 2 ^ 16 -> 0 <= a_pos h < 2 ^ 16 ->
  runs (XPACK_SERIAL_RANGE + 1) s (xchannel_recv_ack e h s) (fun s' => exists g' evs,
    Snd q g' s' /\ snd_step q g s g' s' evs
    /\ (sd_R g' = sd_R g \/ sd_R g' = ack_target g (a_pos h))
    /\ sd_S g' = sd_S g /\ sd_W g' = sd_W g /\ psf_le (XPACK_SERIAL_RANGE + 1) s s').
Proof.
  intros Hs Hsn Hpos. pose proof Hs as (Hok & _). destruct (so_order _ _ _ _ _ Hok) as [HRS HSW].
  assert (Hskip : exists g' evs, Snd q g' s /\ snd_step q g s g' s evs
    /\ (sd_R g' = sd_R g \/ sd_R g' = ack_target g (a_pos h))
    /\ sd_S g' = sd_S g /\ sd_W g' = sd_W g /\ psf_le (XPACK_SERIAL_RANGE + 1) s s).
  { exists g, []. split; [done|]. split; [apply snd_step_refl|]. split; [by left|].
    do 2 (split; [done|]). by apply psf_le_eq. }
  unfold xchannel_recv_ack. case_decide; [|exact Hskip]. unfold clock.
  set (now := u64 _). set (s1 := _ <| s_ch; c_tm := _ |>).
  assert (Hs1 : Snd q g s1) by (by eapply Snd_frame).
  assert (Hst1 : snd_step q g s g s1 []) by (by apply snd_step_only).
  rewrite (so_rpos _ _ _ _ _ Hok), u16_sub_r.
  assert (Htgt : 0 <= ack_target g (a_pos h) - sd_R g <= XPACK_SERIAL_RANGE).
  { unfold ack_target. pose proof (u16_range (a_pos h - sd_R g)). case_decide; lia. }
  eapply (runs_bind (ack_target g (a_pos h) - sd_R g)); [|lia|].
  { apply (runs_later (ack_target g (a_pos h) - sd_R g) _ 0 s s1); [|by apply psf_le_eq|lia].
    apply (ack_loop_spec q (a_pos h) _ g s1 Hs1 Hpos). lia. }
  intros s2 (g2 & e2 & Hs2 & Hst2 & HR2 & HS2 & HW2 & Hp2).
  assert (Hst02 : snd_step q g s g2 s2 e2)
    by (rewrite <- (app_nil_l e2); by eapply snd_step_trans).
  assert (Hp02 : psf_le (ack_target g (a_pos h) - sd_R g) s s2) by exact Hp2.
  case_decide as Hne.
  2:{ exists g2, e2. split; [done|]. split; [done|]. split; [by right|]. do 2 (split; [done|]).
      unfold psf_le in *. lia. }
  pose proof Hs2 as (Hok2 & _). destruct (so_order _ _ _ _ _ Hok2) as [HRS2 HSW2].
  assert (Hidx : Z.land (a_sn h) (r_range (c_sendbuf (s_ch s2)) - 1) = a_sn h mod XPACK_SERIAL_RANGE)
    by (rewrite <- (u16_small (a_sn h) Hsn) at 1; by rewrite (sb_index _ _ _ _ _ Hok2)).
  rewrite Hidx. eapply (runs_bind (XPACK_SERIAL_RANGE + 1)); [|lia|].
  { eapply runs_later; [by apply sample_slot_spec|exact Hp02|lia]. }
  intros s3 (Hs3 & Hst3 & Hp3).
  assert (Hst03 : snd_step q g s g2 s3 e2)
    by (rewrite <- (app_nil_r e2); by eapply snd_step_trans).
  assert (Hp03 : psf_le (XPACK_SERIAL_RANGE + 1) s s3) by (eapply psf_le_trans; [exact Hp02|exact Hp3|lia]).
  case_decide.
  2:{ exists g2, e2. split; [done|]. split; [done|]. split; [by right|]. done. }
  pose proof (so_rpos _ _ _ _ _ Hok2) as Hrpos. rewrite Hrpos.
  destruct (resend_loop_spec e q g2 (a_sn h) (S (Z.to_nat (u16 (a_sn h - u16 (sd_R g2))))) s3 (u16 (sd_R g2)) Hs3)
    as (s4 & e4 & -> & Hs4 & Hst4 & Hp4); [apply u16_range|done|lia|].
  exists g2, (e2 ++ e4). split; [done|]. split; [by eapply snd_step_trans|]. split; [by right|].
  do 2 (split; [done|]). unfold psf_le in *. lia.
Qed.

(** ** Queueing a message *)

Lemma xmsg_fixed_spec f m :
  f_wpos f = Z.of_nat (length m.2) -> msg_ok m ->
  let f' := xmsg_fixed f in
  f_spos f' = 0 /\ f_rpos f' = 0 /\ f_range f' = count m /\ f_type f' = f_type f
  /\ f_wpos f' = f_wpos f /\ f_buf f' = f_buf f.
Proof.
  intros Hw [_ Hc]. pose proof (count_len m) as [Hl _]. unfold xmsg_fixed. simpl. rewrite Hw.
  unfold count, XBODY_SIZE in *. case_decide; simpl; [|split_and!; try done; dlia].
  rewrite u64_small by dlia. case_decide; [rewrite u64_small by dlia|]; split_and!; try done; dlia.
Qed.

Definition queued (g : sender) (m : gmsg) (x : positive) : sender :=
  g <| sd_msgs := sd_msgs g ++ [m] |> <| sd_ids := sd_ids g ++ [x] |>.

Lemma slot_ok_queued q g m x i p :
  length (sd_ids g) = length (sd_msgs g) -> i < total (sd_msgs g) -> 0 <= i ->
  slot_ok q g i p -> slot_ok q (queued g m x) i p.
Proof.
  intros Hlen Hi H0 ((c & (k & r & m' & Hl & Hd) & Hc) & Hb & Ha & Hm).
  split; [|split; [done|split; [done|]]].
  - exists c. split; [|done]. exists k, r, m'. split; [by apply located_app|done].
  - simpl. intros HR k2 r2 m2 Hl2. destruct (located_unique _ _ _ _ _ _ _ _ Hl2 (located_app _ [m] _ _ _ _ Hl))
      as (-> & -> & ->). rewrite (Hm HR _ _ _ Hl). symmetry. apply lookup_app_l.
    destruct Hl as (Hk & _). apply lookup_lt_Some in Hk. lia.
Qed.

Lemma snd_ok_queued q g sb mb fr m x f l :
  snd_ok q g sb mb fr -> msg_ok m -> ~ in_flight g x ->
  (length (sd_msgs g) < sd_acked g + 8)%nat ->
  f_type f = m.1 -> f_wpos f = Z.of_nat (length m.2) -> firstn (length m.2) (f_buf f) = m.2 ->
  wr (r_buf mb) (Z.of_nat (length (sd_msgs g)) mod XMSG_BUF_RANGE) (Some x) = Some l ->
  snd_ok q (queued g m x) sb (mb <| r_buf := l |> <| r_wpos := u16 (r_wpos mb + 1) |>)
    (<[x := xmsg_fixed f]> fr).
Proof.
  intros H Hm Hx Hroom Ht Hw Hb Hl. pose proof (so_R_nonneg _ _ _ _ _ H).
  destruct (xmsg_fixed_spec f m Hw Hm) as (F1 & F2 & F3 & F4 & F5 & F6).
  assert (Htot : total (sd_msgs g ++ [m]) = total (sd_msgs g) + count m)
    by (rewrite total_app; simpl; lia).
  pose proof (count_pos m). destruct H. split; simpl; try done.
  - rewrite <- so_mbuf0. by eapply wr_length.
  - rewrite so_mwpos0, u16_add_l, length_app. f_equal. simpl. lia.
  - rewrite length_app. simpl. lia.
  - rewrite !length_app. simpl. lia.
  - assert (Hnew : forall j, (sd_acked g <= j)%nat -> (sd_ids g ++ [x]) !! j = Some x ->
              j = length (sd_ids g)).
    { intros j Hj Hjx. apply lookup_app_Some in Hjx as [Hjx|[Hle Hjx]]; [exfalso; apply Hx; by exists j|].
      apply list_lookup_singleton_Some in Hjx as [? _]. lia. }
    intros j k y Hj Hk Hjy Hky. destruct (decide (y = x)) as [->|Hne].
    { rewrite (Hnew j), (Hnew k); done. }
    apply lookup_app_Some in Hjy as [Hjy|[_ Hjy]];
      [|apply list_lookup_singleton_Some in Hjy as [_ ?]; congruence].
    apply lookup_app_Some in Hky as [Hky|[_ Hky]];
      [|apply list_lookup_singleton_Some in Hky as [_ ?]; congruence].
    by eapply so_distinct0.
  - apply Forall_app. split; [done|]. by constructor.
  - destruct so_ser0 as [[S0 S1] S2], so_morder0 as [M1 M2]. rewrite off_app by lia. split; [lia|].
    intros _. destruct (decide (sd_ser g < length (sd_msgs g))%nat).
    + rewrite off_app by lia. auto.
    + assert (Hs : sd_ser g = length (sd_msgs g)) by lia. rewrite Hs.
      rewrite off_all by (rewrite length_app; simpl; lia). lia.
  - destruct so_acked0 as [S0 S2], so_morder0 as [M1 M2], so_order0, so_ser0 as [[_ S1] _].
    rewrite off_app by lia. split; [lia|].
    intros _. destruct (decide (sd_acked g < length (sd_msgs g))%nat).
    + rewrite off_app by lia. auto.
    + assert (Hs : sd_acked g = length (sd_msgs g)) by lia. rewrite Hs.
      rewrite off_all by (rewrite length_app; simpl; lia). lia.
  - intros i Hi Hwin. destruct (so_slots0 i Hi Hwin) as (p & Hp & Hs). exists p. split; [done|].
    apply slot_ok_queued; try done. destruct so_ser0. lia.
  - intros k y Hk Hy. rewrite (rd_wr _ _ _ _ _ Hl).
    apply lookup_app_Some in Hy as [Hy|[Hle Hy]].
    + rewrite decide_False; [by apply so_mslots0|]. apply lookup_lt_Some in Hy.
      intros E. apply (mod_inj XMSG_BUF_RANGE) in E; unfold XMSG_BUF_RANGE in *; lia.
    + apply list_lookup_singleton_Some in Hy as [Hk0 Ey]. subst y.
      rewrite decide_True by (f_equal; lia). done.
  - intros k m' y Hk Hm' Hy. apply lookup_app_Some in Hm' as [Hm'|[Hle Hm']].
    + pose proof (lookup_lt_Some _ _ _ Hm') as Hlt. rewrite lookup_app_l in Hy by lia.
      rewrite lookup_insert_ne by (intros ->; apply Hx; by exists k).
      destruct (so_frames0 k m' y Hk Hm' Hy) as (f2 & Hf2 & Hok). exists f2. split; [done|].
      unfold frame_ok, part in *. simpl. by rewrite off_app by lia.
    + apply list_lookup_singleton_Some in Hm' as [Hk0 Em]. subst m'.
      rewrite lookup_app_r in Hy by lia. apply list_lookup_singleton_Some in Hy as [_ Ey]. subst y.
      rewrite lookup_insert_eq. eexists. split; [done|].
      assert (Hoff : off (sd_msgs g ++ [m]) k = total (sd_msgs g)).
      { replace k with (length (sd_msgs g)) by lia. rewrite off_app by lia. by apply off_all. }
      destruct so_ser0 as [[_ S1] _], so_order0. unfold frame_ok. simpl.
      rewrite !part_before by lia. rewrite F4, F5, F6, F1, F2, F3. unfold done_bytes, XBODY_SIZE.
      split_and!; try done; lia.
Qed.

Lemma xmsger_send_spec q g s m x f :
  Snd q g s -> msg_ok m -> ~ in_flight g x -> s_frames s !! x = Some f ->
  f_type f = m.1 -> f_wpos f = Z.of_nat (length m.2) -> firstn (length m.2) (f_buf f) = m.2 ->
  exists s' r, xmsger_send x s = Some (s', r)
    /\ ((r = 0 /\ Snd q (queued g m x) s') \/ (r = -1 /\ s' = s))
    /\ s_log s' = s_log s /\ c_recvbuf (s_ch s') = c_recvbuf (s_ch s)
    /\ c_msg (s_ch s') = c_msg (s_ch s) /\ c_ack (s_ch s') = c_ack (s_ch s)
    /\ (forall y, y <> x -> s_frames s' !! y = s_frames s !! y)
    /\ dom (s_frames s') = dom (s_frames s) /\ psf s' = psf s.
Proof.
  intros (Hok & Hrest) Hm Hx Hf Ht Hw Hb. unfold xmsger_send.
  rewrite (mb_writable _ _ _ _ _ Hok). case_decide as Hroom.
  2:{ exists s, (-1). split; [done|]. split; [by right|]. done. }
  rewrite Hf. cbn [mbind option_bind]. unfold ring_set, __serialbuf_wpos.
  rewrite (so_mwpos _ _ _ _ _ Hok), (mb_index _ _ _ _ _ Hok).
  destruct (wr_is_Some (r_buf (c_msgbuf (s_ch s)))
              (Z.of_nat (length (sd_msgs g)) mod XMSG_BUF_RANGE) (Some x)) as [l Hl].
  { pose proof (Z.mod_pos_bound (Z.of_nat (length (sd_msgs g))) XMSG_BUF_RANGE ltac:(done)).
    rewrite (so_mbuf _ _ _ _ _ Hok). unfold XMSG_BUF_RANGE in *. lia. }
  rewrite Hl. cbn [mbind option_bind]. do 2 eexists. split; [done|].
  split; [left; split; [done|]; split; [|exact Hrest]|].
  - simpl. unfold XMSG_BUF_RANGE in *.
    by eapply snd_ok_queued; try done; lia.
  - do 4 (split; [done|]). split; [intros y Hy; by apply lookup_insert_ne|]. split; [|done].
    simpl. rewrite dom_insert_L. apply elem_of_dom_2 in Hf.
    by apply subseteq_union_1_L, singleton_subseteq_l.
Qed.
