(* ===== verification/Receiver.v ===== *)
(** * The receiving side of a channel

    The receive ring holds packets of a window of 64 packet numbers; the
    packets before [rv_V] have all arrived, those before [rv_Vr] have been
    reassembled, and [rv_D] messages have been handed to the client.
    [rcv_ok] ties the ring and the frame under assembly to the stream of the
    peer, and [rcv_step] describes what the receiving functions do. *)

From S2P Require Import Prelude Xline Channel Stream Sender.

(** ** Ghost state *)

Record receiver := mkreceiver { rv_V : Z; rv_Vr : Z; rv_D : nat }.

#[export] Instance eta_receiver : Settable receiver := fun r =>
  mkreceiver (rv_V r) (rv_Vr r) (rv_D r).

(** A received packet [i] of the stream [ms]. *)
Definition pack_is (ms : list gmsg) (i : Z) (p : xpack) : Prop :=
  exists c, data_is ms i (k_head p) c /\ rd_range (k_body p) 0 (h_len (k_head p)) = Some c.

(** The frame under assembly, after [r] packets of [m]. *)
Definition partial_ok (m : gmsg) (r : Z) (f : xframe) : Prop :=
  f_type f = m.1 /\ f_range f = count m - r /\ f_wpos f = done_bytes m r
  /\ firstn (Z.to_nat (f_wpos f)) (f_buf f) = firstn (Z.to_nat (XBODY_SIZE * r)) m.2
  /\ Z.of_nat (length (f_buf f)) = count m * XBODY_SIZE.

Definition assembly_ok (ms : list gmsg) (v : receiver) (cm : option positive)
    (fr : gmap positive xframe) : Prop :=
  if decide (rv_Vr v = off ms (rv_D v)) then cm = None
  else exists x m f, cm = Some x /\ ms !! rv_D v = Some m /\ fr !! x = Some f
         /\ partial_ok m (rv_Vr v - off ms (rv_D v)) f.

Record rcv_ok (ms : list gmsg) (v : receiver) (rb : ring (option xpack))
    (cm : option positive) (fr : gmap positive xframe) : Prop := {
  ro_range : r_range rb = XPACK_SERIAL_RANGE;
  ro_buf : length (r_buf rb) = S (Z.to_nat XPACK_SERIAL_RANGE);
  ro_rpos : r_rpos rb = u16 (rv_Vr v);
  ro_wpos : r_wpos rb = u16 (rv_V v);
  ro_order : 0 <= rv_Vr v <= rv_V v /\ rv_V v <= rv_Vr v + XPACK_SERIAL_RANGE;
  ro_total : rv_V v <= total ms;
  ro_msgs : Forall msg_ok ms;
  ro_slots : forall i, rv_Vr v <= i < rv_Vr v + XPACK_SERIAL_RANGE ->
    exists o, rd (r_buf rb) (i mod XPACK_SERIAL_RANGE) = Some o
      /\ (o = None \/ exists p, o = Some p /\ pack_is ms i p)
      /\ (i < rv_V v -> o <> None);
  ro_delivered : off ms (rv_D v) <= rv_Vr v
    /\ ((rv_D v < length ms)%nat -> rv_Vr v < off ms (S (rv_D v)))
    /\ (rv_D v <= length ms)%nat;
  ro_assembly : assembly_ok ms v cm fr;
}.

(** The packet after the last contiguous one has not arrived. *)
Definition settled (v : receiver) (rb : ring (option xpack)) : Prop :=
  rv_V v < rv_Vr v + XPACK_SERIAL_RANGE ->
  rd (r_buf rb) (rv_V v mod XPACK_SERIAL_RANGE) = Some None.

Definition Rcv (ms : list gmsg) (v : receiver) (s : st) : Prop :=
  rcv_ok ms v (c_recvbuf (s_ch s)) (c_msg (s_ch s)) (s_frames s).

(** A move of the receiving side that leaves the sending side alone. *)
Record rcv_step (ms : list gmsg) (v : receiver) (s : st) (v' : receiver) (s' : st)
    (evs : list event) : Prop := {
  rs_D : (rv_D v <= rv_D v')%nat;
  rs_log : s_log s' = s_log s ++ evs;
  rs_sent : omap sent_of evs = [];
  rs_to : omap to_peer_of evs = [];
  rs_from : omap from_peer_of evs = firstn (rv_D v' - rv_D v) (skipn (rv_D v) ms);
  rs_snd : c_sendbuf (s_ch s') = c_sendbuf (s_ch s) /\ c_msgbuf (s_ch s') = c_msgbuf (s_ch s)
    /\ c_serial_range (s_ch s') = c_serial_range (s_ch s) /\ c_ack (s_ch s') = c_ack (s_ch s);
  rs_psf : psf s' = psf s;
  rs_frames : forall x, x ∈ dom (s_frames s) -> c_msg (s_ch s) <> Some x ->
    s_frames s' !! x = s_frames s !! x;
  rs_msg : forall x, c_msg (s_ch s') = Some x -> c_msg (s_ch s) = Some x \/ x ∉ dom (s_frames s);
  rs_dom : dom (s_frames s) ⊆ dom (s_frames s');
}.

Lemma rcv_step_refl ms v s : rcv_step ms v s v s [].
Proof.
  split; try done.
  - by rewrite app_nil_r.
  - by rewrite Nat.sub_diag, take_0.
  - by left.
Qed.

Lemma rcv_step_trans ms v s v1 s1 e1 v2 s2 e2 :
  rcv_step ms v s v1 s1 e1 -> rcv_step ms v1 s1 v2 s2 e2 -> rcv_step ms v s v2 s2 (e1 ++ e2).
Proof.
  intros [D L S T F (A1 & A2 & A3 & A4) P Fr M Dm] [D' L' S' T' F' (B1 & B2 & B3 & B4) P' Fr' M' Dm'].
  split; try lia; try congruence.
  - by rewrite L', L, app_assoc.
  - by rewrite omap_app, S, S'.
  - by rewrite omap_app, T, T'.
  - rewrite omap_app, F, F'. symmetry. by apply take_drop_split.
  - split_and!; congruence.
  - intros x Hx Hm. rewrite Fr'; [by apply Fr|by apply Dm|].
    intros E. destruct (M x E); [congruence|done].
  - intros x E. destruct (M' x E) as [E'|Hn]; [by apply M|]. right. intros Hx. by apply Hn, Dm.
  - by etrans.
Qed.

(** ** Reading the state *)

Section Facts.
Context (ms : list gmsg) (v : receiver) (rb : ring (option xpack)) (cm : option positive)
  (fr : gmap positive xframe).
Context (H : rcv_ok ms v rb cm fr).

Lemma rb_index x : Z.land (u16 x) (r_range rb - 1) = x mod XPACK_SERIAL_RANGE.
Proof using H. rewrite (ro_range _ _ _ _ _ H). apply (u16_land_ones x 6). lia. Qed.

Lemma rb_index_rpos : __serialbuf_rpos rb = rv_Vr v mod XPACK_SERIAL_RANGE.
Proof using H. unfold __serialbuf_rpos. by rewrite (ro_rpos _ _ _ _ _ H), rb_index. Qed.

Lemma rb_index_wpos : __serialbuf_wpos rb = rv_V v mod XPACK_SERIAL_RANGE.
Proof using H. unfold __serialbuf_wpos. by rewrite (ro_wpos _ _ _ _ _ H), rb_index. Qed.

Lemma rb_readable : __serialbuf_readable rb = rv_V v - rv_Vr v.
Proof using H.
  unfold __serialbuf_readable. rewrite (ro_wpos _ _ _ _ _ H), (ro_rpos _ _ _ _ _ H).
  destruct (ro_order _ _ _ _ _ H). unfold XPACK_SERIAL_RANGE in *. apply u16_diff. lia.
Qed.

Lemma rb_writable : __serialbuf_writable rb = XPACK_SERIAL_RANGE - (rv_V v - rv_Vr v).
Proof using H.
  unfold __serialbuf_writable.
  rewrite (ro_range _ _ _ _ _ H), (ro_wpos _ _ _ _ _ H), (ro_rpos _ _ _ _ _ H).
  destruct (ro_order _ _ _ _ _ H). unfold u16, wrap, XPACK_SERIAL_RANGE in *.
  rewrite Zplus_mod, Zminus_mod, Z.mod_mod, <- Zminus_mod, Z.mod_mod, <- Zplus_mod by lia.
  rewrite Z.mod_small; lia.
Qed.

Lemma rb_set i o :
  exists l, wr (r_buf rb) (i mod XPACK_SERIAL_RANGE) o = Some l
    /\ ring_set rb (i mod XPACK_SERIAL_RANGE) o = Some (rb <| r_buf := l |>).
Proof using H.
  destruct (wr_is_Some (r_buf rb) (i mod XPACK_SERIAL_RANGE) o) as [l Hl].
  { pose proof (Z.mod_pos_bound i XPACK_SERIAL_RANGE ltac:(done)).
    rewrite (ro_buf _ _ _ _ _ H). unfold XPACK_SERIAL_RANGE in *. lia. }
  exists l. split; [done|]. unfold ring_set. by rewrite Hl.
Qed.

(** The next packet to reassemble belongs to the first undelivered message. *)
Lemma next_assembled :
  rv_Vr v < total ms ->
  exists m, ms !! rv_D v = Some m
    /\ located ms (rv_Vr v) (rv_D v) (rv_Vr v - off ms (rv_D v)) m.
Proof using H.
  intros Hlt. destruct (ro_delivered _ _ _ _ _ H) as (Hlo & Hhi & Hd).
  destruct (decide (rv_D v < length ms)%nat) as [Hl|]; [|rewrite off_all in Hlo by lia; lia].
  destruct (lookup_lt_is_Some_2 _ _ Hl) as [m Hm]. specialize (Hhi Hl).
  rewrite (off_S _ _ _ Hm) in Hhi. exists m. split; [done|]. unfold located. split_and!; try done; lia.
Qed.
End Facts.

(** What receiving a packet does to the frame under assembly. *)
Lemma partial_step m r f c buf :
  partial_ok m r f -> 0 <= r < count m -> c = chunk m r ->
  wr_range (f_buf f) (f_wpos f) c = Some buf ->
  forall f', f_type f' = f_type f -> f_range f' = f_range f - 1 -> f_buf f' = buf ->
  f_wpos f' = f_wpos f + Z.of_nat (length c) -> partial_ok m (r + 1) f'.
Proof.
  intros (Ht & Hr & Hw & Hb & Hl) Hrc -> Hwr f' Et Er Eb Ew.
  pose proof (done_bytes_step m r Hrc) as Hs. pose proof (count_le m r Hrc).
  assert (Hw' : f_wpos f = XBODY_SIZE * r) by (rewrite Hw; unfold done_bytes; lia).
  unfold partial_ok. rewrite Et, Er, Eb, Ew. split_and!; try done; try lia.
  - rewrite Hw'. pose proof (wr_range_length _ _ _ _ Hwr). unfold wr_range in Hwr.
    case_decide as Hd; [|done]. injection Hwr as <-. rewrite Hw' in *.
    replace (Z.to_nat (XBODY_SIZE * r + Z.of_nat (length (chunk m r))))
      with (Z.to_nat (XBODY_SIZE * r) + length (chunk m r))%nat by (unfold XBODY_SIZE in *; lia).
    rewrite <- (chunk_step m r) by lia. rewrite <- Hb.
    rewrite app_assoc, take_app_le; [by rewrite take_ge by (rewrite length_app, length_take; lia)|].
    rewrite length_app, length_take. lia.
  - pose proof (wr_range_length _ _ _ _ Hwr). lia.
Qed.

(** ** Reassembly *)

(** [malloc] returns a buffer of the size asked for. *)
Definition env_ok (e : env) : Prop :=
  forall n size f, e_malloc e n size = Some f -> Z.of_nat (length (f_buf f)) = size.

Lemma wr_range_nil {A} (m : list A) off :
  0 <= off <= Z.of_nat (length m) -> wr_range m off [] = Some m.
Proof.
  intros. unfold wr_range. simpl. rewrite decide_True by lia.
  by rewrite Nat.add_0_r, take_drop.
Qed.

(** The state in which [recv_one] appends: the frame [x] with [r] packets. *)
Definition assembling (m : gmsg) (r : Z) (x : positive) (s : st) : Prop :=
  exists f, s_frames s !! x = Some f /\ partial_ok m r f.

Lemma append_frame m r f p :
  partial_ok m r f -> 0 <= r < count m -> count m < 2 ^ 16 ->
  h_len (k_head p) = Z.of_nat (length (chunk m r)) ->
  rd_range (k_body p) 0 (h_len (k_head p)) = Some (chunk m r) ->
  exists f', (if decide (h_len (k_head p) > 0) then
      src ← rd_range (k_body p) 0 (h_len (k_head p));
      b ← wr_range (f_buf f) (f_wpos f) src;
      Some (f <| f_buf := b |> <| f_wpos := u64 (f_wpos f + h_len (k_head p)) |>)
    else Some f) = Some f'
    /\ f_range f' = f_range f /\ partial_ok m (r + 1) (f' <| f_range := u64 (f_range f' - 1) |>)
    /\ u64 (f_range f' - 1) = count m - (r + 1).
Proof.
  intros Hp Hr Hc Hlen Hrd. pose proof Hp as (Ht & Hrg & Hw & Hb & Hl).
  pose proof (chunk_length m r Hr) as Hcl. pose proof (count_le m r Hr).
  assert (Hw' : f_wpos f = XBODY_SIZE * r) by (rewrite Hw; unfold done_bytes; lia).
  assert (Hfit : f_wpos f + Z.of_nat (length (chunk m r)) <= Z.of_nat (length (f_buf f))).
  { rewrite Hl, Hw'. unfold XBODY_SIZE in *. nia. }
  assert (Hu : u64 (f_range f - 1) = count m - (r + 1)) by (rewrite Hrg, u64_small; lia).
  case_decide as Hpos.
  - rewrite Hrd. cbn [mbind option_bind].
    destruct (wr_range_is_Some (f_buf f) (f_wpos f) (chunk m r)) as [b Hb']; [unfold XBODY_SIZE in *; lia|done|].
    rewrite Hb'. cbn [mbind option_bind]. eexists. split; [done|]. split; [done|]. split; [|done].
    eapply (partial_step m r f _ b); try done; simpl; [rewrite Hu; lia|].
    rewrite Hlen. apply u64_small. unfold XBODY_SIZE in *. lia.
  - exists f. split; [done|]. split; [done|]. split; [|done].
    assert (chunk m r = []) as E by (apply nil_length_inv; lia).
    eapply (partial_step m r f [] (f_buf f)); try done; simpl; [|rewrite Hu; lia|lia].
    apply wr_range_nil. unfold XBODY_SIZE in *. lia.
Qed.

Lemma firstn_full m : firstn (Z.to_nat (done_bytes m (count m))) m.2 = m.2.
Proof. rewrite done_bytes_all, Nat2Z.id. by apply take_ge. Qed.

(** Appending packet [Vr] of the stream. *)
Lemma append_spec ms v s x m p :
  Forall msg_ok ms -> ms !! rv_D v = Some m ->
  located ms (rv_Vr v) (rv_D v) (rv_Vr v - off ms (rv_D v)) m ->
  pack_is ms (rv_Vr v) p -> c_msg (s_ch s) = Some x ->
  assembling m (rv_Vr v - off ms (rv_D v)) x s ->
  exists v' s' evs, append_pack p s x = Some s'
    /\ rv_V v' = rv_V v /\ rv_Vr v' = rv_Vr v + 1
    /\ assembly_ok ms v' (c_msg (s_ch s')) (s_frames s')
    /\ off ms (rv_D v') <= rv_Vr v'
    /\ ((rv_D v' < length ms)%nat -> rv_Vr v' < off ms (S (rv_D v')))
    /\ (rv_D v' <= length ms)%nat
    /\ rcv_step ms v s v' s' evs /\ c_recvbuf (s_ch s') = c_recvbuf (s_ch s).
Proof.
  intros H Hm Hloc (c & Hd & Hc) Hx (f & Hf & Hpart).
  set (r := rv_Vr v - off ms (rv_D v)) in *. pose proof Hloc as (_ & Hr & _).
  destruct (data_is_located _ _ _ _ _ _ _ Hd Hloc) as (_ & _ & Hlen & _ & ->).
  destruct (msg_ok_bound _ _ _ H Hm) as (Hcnt & _ & _).
  destruct (append_frame m r f p Hpart Hr Hcnt Hlen Hc) as (f1 & E & Hr1 & Hp1 & Hu).
  unfold append_pack. rewrite Hf. cbn [mbind option_bind]. rewrite E. cbn [mbind option_bind].
  cbv zeta. set (f' := f1 <| f_range := u64 (f_range f1 - 1) |>) in *.
  assert (Hrng : f_range f' = count m - (r + 1)) by exact Hu.
  pose proof (off_S _ _ _ Hm) as HoffS. pose proof (lookup_lt_Some _ _ _ Hm) as Hlt.
  assert (Hdom : forall y, dom (<[x := y]> (s_frames s)) = dom (s_frames s)).
  { intros y. rewrite dom_insert_L. apply elem_of_dom_2 in Hf.
    by apply subseteq_union_1_L, singleton_subseteq_l. }
  assert (Hoth : forall y z, c_msg (s_ch s) <> Some y -> <[x := z]> (s_frames s) !! y = s_frames s !! y)
    by (intros y z Hy; apply lookup_insert_ne; congruence).
  destruct (decide (f_range f' = 0)) as [Hlast|Hlast].
  - exists (v <| rv_Vr := rv_Vr v + 1 |> <| rv_D := S (rv_D v) |>).
    eexists. exists [FromPeer x (xl_fixed f')]. split; [done|]. simpl.
    do 2 (split; [done|]). split; [unfold assembly_ok; simpl; by rewrite decide_True by lia|].
    split; [lia|]. split.
    { intros Hlt2. destruct (lookup_lt_is_Some_2 _ _ Hlt2) as [m2 Hm2]. rewrite (off_S _ _ _ Hm2).
      pose proof (count_pos m2). lia. }
    split; [lia|]. split; [|done]. split; simpl; try done; try lia.
    + replace (S (rv_D v) - rv_D v)%nat with 1%nat by lia. rewrite (drop_S _ _ _ Hm). simpl.
      destruct Hp1 as (T1 & _ & W1 & B1 & _). do 2 f_equal. destruct m as [ty bs]. simpl in *.
      f_equal; [done|]. etrans; [exact B1|]. replace (r + 1) with (count (ty, bs)) by lia. apply (take_all_bytes (ty, bs)).
    + intros y _. apply Hoth.
    + by rewrite Hdom.
  - exists (v <| rv_Vr := rv_Vr v + 1 |>). eexists. exists []. split; [done|]. simpl.
    do 2 (split; [done|]). split.
    { unfold assembly_ok. simpl. rewrite decide_False by lia. exists x, m, f'.
      rewrite lookup_insert_eq. split_and!; try done.
      replace (rv_Vr v + 1 - off ms (rv_D v)) with (r + 1) by lia. exact Hp1. }
    split; [lia|]. split; [intros _; lia|]. split; [lia|]. split; [|done].
    split; simpl; try done; try lia.
    + by rewrite app_nil_r.
    + by rewrite Nat.sub_diag, take_0.
    + intros y _. apply Hoth.
    + by left.
    + by rewrite Hdom.
Qed.

(** The first packet of a message allocates a frame for it. *)
Lemma start_spec e ms v s m p :
  env_ok e -> Rcv ms v s -> ms !! rv_D v = Some m ->
  located ms (rv_Vr v) (rv_D v) (rv_Vr v - off ms (rv_D v)) m -> pack_is ms (rv_Vr v) p ->
  start_msg e (k_head p) s = None \/
  exists s1 x, start_msg e (k_head p) s = Some (s1, x) /\ c_msg (s_ch s1) = Some x
    /\ assembling m (rv_Vr v - off ms (rv_D v)) x s1
    /\ rcv_step ms v s v s1 [] /\ c_recvbuf (s_ch s1) = c_recvbuf (s_ch s).
Proof.
  intros He H Hm Hloc (c & Hd & Hc). pose proof (ro_assembly _ _ _ _ _ H) as Ha.
  unfold assembly_ok in Ha. unfold start_msg. case_decide as Hfirst.
  - rewrite Ha. destruct (data_is_located _ _ _ _ _ _ _ Hd Hloc) as (_ & Hty & _ & Hrg & _).
    replace (rv_Vr v - off ms (rv_D v)) with 0 in * by lia. rewrite Z.sub_0_r in Hrg.
    unfold xl_creator. destruct (e_malloc e _ _) as [f|] eqn:Ef; [|by left]. right.
    apply He in Ef. do 2 eexists. split; [done|]. split; [done|]. split.
    + eexists. split; [simpl; apply lookup_insert_eq|]. unfold partial_ok, done_bytes. simpl.
      rewrite Ef, Hrg, Hty. split_and!; try done; lia.
    + split; [|done]. split; simpl; try done.
      * by rewrite app_nil_r.
      * by rewrite Nat.sub_diag, take_0.
      * intros y Hy _. apply lookup_insert_ne. intros <-. by apply (is_fresh (dom (s_frames s))).
      * intros x [= <-]. right. apply is_fresh.
      * rewrite dom_insert_L. set_solver.
  - right. destruct Ha as (x & m' & f & Hx & Hm' & Hf & Hp). rewrite Hx. exists s, x. split; [done|].
    split; [|split; [|split; [apply rcv_step_refl|done]]].
    + done.
    + exists f. split; [done|]. by replace m with m' by congruence.
Qed.

(** The loop consumes packet [Vr] and clears its slot. *)
Definition clear_slot (s : st) (l : list (option xpack)) : st :=
  s <| s_ch; c_recvbuf := c_recvbuf (s_ch s) <| r_buf := l |>
         <| r_rpos := u16 (r_rpos (c_recvbuf (s_ch s)) + 1) |> |>.

Lemma rcv_step_frame ms v s v' s' s'' evs :
  rcv_step ms v s v' s' evs -> s_frames s'' = s_frames s' -> s_log s'' = s_log s' ->
  c_msg (s_ch s'') = c_msg (s_ch s') -> c_sendbuf (s_ch s'') = c_sendbuf (s_ch s') ->
  c_msgbuf (s_ch s'') = c_msgbuf (s_ch s') ->
  c_serial_range (s_ch s'') = c_serial_range (s_ch s') -> c_ack (s_ch s'') = c_ack (s_ch s') ->
  psf s'' = psf s' -> rcv_step ms v s v' s'' evs.
Proof.
  intros [D L S T F (A1 & A2 & A3 & A4) P Fr M Dm] E1 E2 E3 E4 E5 E6 E7 E8.
  split; rewrite ?E1, ?E2, ?E3; try done; [|congruence]. split_and!; congruence.
Qed.

Lemma rcv_ok_consumed ms v v' rb cm fr cm' fr' l :
  rcv_ok ms v rb cm fr -> rv_Vr v < rv_V v ->
  wr (r_buf rb) (rv_Vr v mod XPACK_SERIAL_RANGE) None = Some l ->
  rv_V v' = rv_V v -> rv_Vr v' = rv_Vr v + 1 -> assembly_ok ms v' cm' fr' ->
  off ms (rv_D v') <= rv_Vr v' ->
  ((rv_D v' < length ms)%nat -> rv_Vr v' < off ms (S (rv_D v'))) -> (rv_D v' <= length ms)%nat ->
  rcv_ok ms v' (rb <| r_buf := l |> <| r_rpos := u16 (r_rpos rb + 1) |>) cm' fr'.
Proof.
  intros H Hlt Hl HV HVr Ha D1 D2 D3. destruct H. split; simpl; rewrite ?HV, ?HVr; try done; try lia.
  - rewrite <- ro_buf0. by eapply wr_length.
  - by rewrite ro_rpos0, u16_add_l.
  - intros i Hi. rewrite (rd_wr _ _ _ _ _ Hl). destruct (decide (i = rv_Vr v + XPACK_SERIAL_RANGE)) as [->|Hne].
    + rewrite decide_True by (symmetry; apply mod_turn).
      exists None. split; [done|]. split; [by left|lia].
    + rewrite decide_False; [apply ro_slots0; lia|].
      intros E. apply mod_inj in E; unfold XPACK_SERIAL_RANGE in *; lia.
Qed.

Lemma recv_one_spec e ms v s p :
  env_ok e -> Rcv ms v s -> rv_Vr v < rv_V v -> pack_is ms (rv_Vr v) p ->
  recv_one e p s = Some None \/
  exists v' s' evs l, recv_one e p s = Some (Some s')
    /\ c_recvbuf (s_ch s') = c_recvbuf (s_ch s)
    /\ wr (r_buf (c_recvbuf (s_ch s))) (rv_Vr v mod XPACK_SERIAL_RANGE) None = Some l
    /\ rv_V v' = rv_V v /\ rv_Vr v' = rv_Vr v + 1
    /\ Rcv ms v' (clear_slot s' l) /\ rcv_step ms v s v' (clear_slot s' l) evs.
Proof.
  intros He H Hlt Hp. pose proof (ro_total _ _ _ _ _ H).
  destruct (next_assembled _ _ _ _ _ H) as (m & Hm & Hloc); [lia|].
  unfold recv_one.
  destruct (start_spec e ms v s m p He H Hm Hloc Hp) as [->|(s1 & x & -> & Hx & Has & Hst1 & Hrb1)];
    [by left|right].
  destruct (append_spec ms v s1 x m p (ro_msgs _ _ _ _ _ H) Hm Hloc Hp Hx Has)
    as (v' & s2 & evs & -> & HV & HVr & Hasm & D1 & D2 & D3 & Hst2 & Hrb2).
  cbn [mbind option_bind]. destruct (rb_set _ _ _ _ _ H (rv_Vr v) None) as (l & Hl & _).
  exists v', s2, evs, l. split; [done|]. split; [by rewrite Hrb2|].
  split; [done|]. do 2 (split; [done|]). split.
  - unfold Rcv. simpl. rewrite Hrb2, Hrb1. by eapply rcv_ok_consumed.
  - apply (rcv_step_frame ms v s v' s2); try done. rewrite <- (app_nil_l evs). by eapply rcv_step_trans.
Qed.

Lemma settled_next ms v s :
  Rcv ms v s -> settled v (c_recvbuf (s_ch s)) ->
  exists o, rd (r_buf (c_recvbuf (s_ch s))) (rv_Vr v mod XPACK_SERIAL_RANGE) = Some o
    /\ ((o = None /\ rv_Vr v = rv_V v) \/ (rv_Vr v < rv_V v /\ exists p, o = Some p /\ pack_is ms (rv_Vr v) p)).
Proof.
  intros H Hset. destruct (ro_order _ _ _ _ _ H). destruct (decide (rv_Vr v = rv_V v)) as [E|Hne].
  - exists None. split; [|by left]. rewrite E. apply Hset. unfold XPACK_SERIAL_RANGE. lia.
  - destruct (ro_slots _ _ _ _ _ H (rv_Vr v)) as (o & Ho & [->|Hp] & Hn);
      [unfold XPACK_SERIAL_RANGE; lia|destruct (Hn ltac:(lia)); done|].
    exists o. split; [done|]. right. split; [lia|done].
Qed.

Lemma settled_consumed v v' rb l :
  settled v rb -> rv_Vr v < rv_V v -> rv_V v <= rv_Vr v + XPACK_SERIAL_RANGE ->
  wr (r_buf rb) (rv_Vr v mod XPACK_SERIAL_RANGE) None = Some l ->
  rv_V v' = rv_V v -> settled v' (rb <| r_buf := l |> <| r_rpos := u16 (r_rpos rb + 1) |>).
Proof.
  intros Hset Hlt Hle Hl HV _. simpl. rewrite (rd_wr _ _ _ _ _ Hl), HV.
  destruct (decide (rv_V v = rv_Vr v + XPACK_SERIAL_RANGE)) as [->|Hne].
  - by rewrite mod_turn, decide_True.
  - rewrite decide_False; [apply Hset; lia|].
    intros E. apply mod_inj in E; unfold XPACK_SERIAL_RANGE in *; lia.
Qed.

(** The loop ends with every contiguous packet consumed, or breaks off when a
    frame cannot be allocated. *)
Lemma recv_loop_spec e ms fuel : forall v s p,
  env_ok e -> Rcv ms v s -> settled v (c_recvbuf (s_ch s)) -> rv_Vr v < rv_V v ->
  pack_is ms (rv_Vr v) p -> (Z.to_nat (rv_V v - rv_Vr v) <= fuel)%nat ->
  exists v' s' evs r, recv_loop e fuel p s = Some (s', r) /\ Rcv ms v' s'
    /\ settled v' (c_recvbuf (s_ch s')) /\ rv_V v' = rv_V v /\ rv_Vr v <= rv_Vr v'
    /\ (r = 0 /\ rv_Vr v' = rv_V v' \/ r = -1) /\ rcv_step ms v s v' s' evs.
Proof.
  induction fuel as [|fuel IH]; intros v s p He H Hset Hlt Hp Hf; [lia|].
  cbn [recv_loop].
  destruct (recv_one_spec e ms v s p He H Hlt Hp) as [->|(v1 & s1 & e1 & l & -> & Hrb & Hl & HV & HVr & H1 & Hst1)].
  { cbn [mbind option_bind]. exists v, s, [], (-1). split; [done|]. do 2 (split; [done|]).
    split; [done|]. split; [lia|]. split; [by right|apply rcv_step_refl]. }
  cbn [mbind option_bind]. cbv zeta. rewrite Hrb. rewrite (rb_index_rpos _ _ _ _ _ H).
  unfold ring_set. rewrite Hl. cbn [mbind option_bind].
  set (s2 := clear_slot s1 l) in *. set (rb' := _ <| r_rpos := _ |>).
  assert (Es : s1 <| s_ch; c_recvbuf := rb' |> = s2) by (unfold s2, clear_slot, rb'; by rewrite Hrb).
  assert (Er : rb' = c_recvbuf (s_ch s2)) by (by rewrite <- Es).
  rewrite Es. assert (Hset2 : settled v1 (c_recvbuf (s_ch s2))).
  { rewrite <- Er. apply (settled_consumed v v1 (c_recvbuf (s_ch s)) l); try done. apply (ro_order _ _ _ _ _ H). }
  rewrite Er. unfold ring_get. rewrite (rb_index_rpos _ _ _ _ _ H1).
  destruct (settled_next ms v1 s2 H1 Hset2) as (o & -> & [[-> E]|(Hlt1 & p1 & -> & Hp1)]);
    cbn [mbind option_bind].
  - exists v1, s2, e1, 0. do 4 (split; [done|]). split; [lia|]. split; [left; lia|done].
  - destruct (IH v1 s2 p1 He H1 Hset2 Hlt1 Hp1) as (v' & s' & e2 & r & -> & H' & Hset' & HV' & HVr' & Hr & Hst');
      [lia|].
    exists v', s', (e1 ++ e2), r. do 3 (split; [done|]). split; [lia|]. split; [lia|]. split; [done|].
    by eapply rcv_step_trans.
Qed.

Lemma recv_msg_spec e ms v s :
  env_ok e -> Rcv ms v s -> settled v (c_recvbuf (s_ch s)) ->
  exists v' s' evs r, xchannel_recv_msg e s = Some (s', r) /\ Rcv ms v' s'
    /\ settled v' (c_recvbuf (s_ch s')) /\ rv_V v' = rv_V v /\ rv_Vr v <= rv_Vr v'
    /\ (r = 0 /\ rv_Vr v' = rv_V v' \/ r = -1) /\ rcv_step ms v s v' s' evs.
Proof.
  intros He H Hset. unfold xchannel_recv_msg, clock. set (s1 := _ <| s_ch; c_tm; t_recv_ts := _ |>).
  assert (H1 : Rcv ms v s1) by exact H. assert (Hset1 : settled v (c_recvbuf (s_ch s1))) by exact Hset.
  assert (Hst1 : rcv_step ms v s v s1 []) by (apply (rcv_step_frame ms v s v s); by try apply rcv_step_refl).
  rewrite (rb_readable _ _ _ _ _ H1), (rb_index_rpos _ _ _ _ _ H1). unfold ring_get.
  destruct (settled_next ms v s1 H1 Hset1) as (o & -> & [[-> E]|(Hlt & p & -> & Hp)]).
  - rewrite decide_False by lia. exists v, s1, [], 0. do 3 (split; [done|]). split; [done|].
    split; [lia|]. split; [by left|done].
  - rewrite decide_True by lia. cbn [mbind option_bind].
    destruct (recv_loop_spec e ms (S (Z.to_nat (r_range (c_recvbuf (s_ch s1))))) v s1 p He H1 Hset1 Hlt Hp)
      as (v' & s' & evs & r & -> & H' & Hset' & HV & HVr & Hr & Hst).
    { rewrite (ro_range _ _ _ _ _ H1). destruct (ro_order _ _ _ _ _ H1). lia. }
    exists v', s', evs, r. do 6 (split; [done|]). rewrite <- (app_nil_l evs). by eapply rcv_step_trans.
Qed.

(** ** Storing a packet *)

Lemma pack_is_range ms i p : pack_is ms i p -> 0 <= i < total ms.
Proof.
  intros (c & (k & r & m & (Hm & Hr & ->) & _) & _). pose proof (off_nonneg ms k).
  pose proof (off_S _ _ _ Hm). pose proof (off_mono ms (S k) (length ms)) as Hmono.
  pose proof (lookup_lt_Some _ _ _ Hm). rewrite (off_all _ (length ms)) in Hmono by lia. lia.
Qed.

Lemma rcv_ok_store ms v rb cm fr i p l :
  rcv_ok ms v rb cm fr -> rv_Vr v <= i < rv_Vr v + XPACK_SERIAL_RANGE -> pack_is ms i p ->
  wr (r_buf rb) (i mod XPACK_SERIAL_RANGE) (Some p) = Some l ->
  rcv_ok ms v (rb <| r_buf := l |>) cm fr.
Proof.
  intros H Hi Hp Hl. destruct H. split; simpl; try done.
  - rewrite <- ro_buf0. by eapply wr_length.
  - intros j Hj. rewrite (rd_wr _ _ _ _ _ Hl). destruct (decide (i = j)) as [->|Hne].
    + rewrite decide_True by done. exists (Some p). split; [done|]. split; [right; by exists p|done].
    + rewrite decide_False; [by apply ro_slots0|].
      intros E. apply mod_inj in E; unfold XPACK_SERIAL_RANGE in *; lia.
Qed.

Lemma rcv_ok_count ms v rb cm fr p :
  rcv_ok ms v rb cm fr -> rv_V v < rv_Vr v + XPACK_SERIAL_RANGE ->
  rd (r_buf rb) (rv_V v mod XPACK_SERIAL_RANGE) = Some (Some p) ->
  rcv_ok ms (v <| rv_V := rv_V v + 1 |>) (rb <| r_wpos := u16 (r_wpos rb + 1) |>) cm fr.
Proof.
  intros H Hlt Hp. destruct H.
  assert (Hpk : pack_is ms (rv_V v) p).
  { destruct (ro_slots0 (rv_V v)) as (o & Ho & [->|(p' & -> & Hp')] & _); [lia|congruence|].
    by assert (p = p') as -> by congruence. }
  apply pack_is_range in Hpk. split; simpl; try done; try lia.
  - by rewrite ro_wpos0, u16_add_l.
  - intros j Hj. destruct (ro_slots0 j Hj) as (o & Ho & Hc & Hn). exists o. split; [done|].
    split; [done|]. intros Hj1. destruct (decide (j = rv_V v)) as [->|]; [|apply Hn; lia]. congruence.
Qed.

(** [s'] is [s] after [n] more packets have been counted in. *)
Definition counted (s s' : st) : Prop :=
  exists w sn pos, s' = s <| s_ch; c_recvbuf; r_wpos := w |>
    <| s_ch; c_ack; a_pos := pos |> <| s_ch; c_ack; a_sn := sn |>.

Lemma counted_trans s s1 s2 : counted s s1 -> counted s1 s2 -> counted s s2.
Proof. intros (w & sn & pos & ->) (w' & sn' & pos' & ->). by exists w', sn', pos'. Qed.

(** The loop counts in the packets that are there, and stops at the first that
    is not or when the ring is full. *)
Lemma advance_spec ms fuel : forall v s,
  Rcv ms v s -> (Z.to_nat (rv_Vr v + XPACK_SERIAL_RANGE - rv_V v) <= fuel)%nat ->
  exists v' s', advance_loop fuel s = Some s' /\ Rcv ms v' s' /\ settled v' (c_recvbuf (s_ch s'))
    /\ rv_V v <= rv_V v' /\ rv_Vr v' = rv_Vr v /\ rv_D v' = rv_D v
    /\ (s' = s \/ counted s s').
Proof.
  induction fuel as [|fuel IH]; intros v s H Hf; cbn [advance_loop];
    rewrite (rb_index_wpos _ _ _ _ _ H), (rb_writable _ _ _ _ _ H);
    destruct (rb_set _ _ _ _ _ H (rv_V v) None) as (? & Hw & _);
    apply wr_is_Some_rd in Hw as [o Ho]; unfold ring_get; rewrite Ho; cbn [mbind option_bind];
    destruct (ro_order _ _ _ _ _ H) as [Ho1 Ho2].
  - assert (rv_V v = rv_Vr v + XPACK_SERIAL_RANGE) by lia.
    exists v, s. split; [destruct o; [by rewrite decide_False by lia|done]|]. split; [done|].
    split; [intros ?; lia|]. split; [lia|]. do 2 (split; [done|]). by left.
  - destruct o as [p|].
    2:{ exists v, s. do 2 (split; [done|]). split; [by intros _|]. split; [lia|].
        do 2 (split; [done|]). by left. }
    case_decide as Hroom.
    2:{ exists v, s. do 2 (split; [done|]). split; [intros ?; lia|]. split; [lia|].
        do 2 (split; [done|]). by left. }
    set (w := u16 _). set (s1 := s <| s_ch; c_recvbuf; r_wpos := w |> <| s_ch; c_ack; a_pos := w |>
                                   <| s_ch; c_ack; a_sn := w |>).
    assert (H1 : Rcv ms (v <| rv_V := rv_V v + 1 |>) s1) by (eapply rcv_ok_count; done || lia).
    destruct (IH _ s1 H1) as (v' & s' & -> & H' & Hset & HV & HVr & HD & Hc); [simpl; lia|].
    simpl in HV, HVr, HD. exists v', s'. do 3 (split; [done|]). split; [lia|]. do 2 (split; [done|]).
    right. assert (counted s s1) by (by exists w, w, w). destruct Hc as [->|Hc]; [done|].
    by eapply counted_trans.
Qed.
