(* ===== verification/Node.v ===== *)
(** * A channel end: sending and receiving together

    The two sides of a channel share the frames and the log but nothing else:
    the frame under assembly is never one of the frames in flight.  [Node] says
    so, and the handlers of the message loop keep it; [node_step] describes what
    a handler does to the streams in both directions. *)

From S2P Require Import Prelude Xline Channel Stream Sender Receiver.

(** ** The invariant *)

Definition Node (q : bool) (g : sender) (ms : list gmsg) (v : receiver) (s : st) : Prop :=
  Snd q g s /\ Rcv ms v s /\ (forall x, c_msg (s_ch s) = Some x -> ~ in_flight g x).

(** Between two handlers everything contiguous has been reassembled. *)
Definition idle (v : receiver) (s : st) : Prop :=
  rv_Vr v = rv_V v /\ settled v (c_recvbuf (s_ch s)).

Record node_step (q : bool) (g : sender) (ms : list gmsg) (v : receiver) (s : st)
    (g' : sender) (v' : receiver) (s' : st) (evs : list event) : Prop := {
  ns_msgs : sd_msgs g' = sd_msgs g /\ sd_ids g' = sd_ids g;
  ns_R : sd_R g <= sd_R g';
  ns_W : sd_W g <= sd_W g';
  ns_acked : (sd_acked g <= sd_acked g')%nat;
  ns_Vr : rv_Vr v <= rv_Vr v';
  ns_D : (rv_D v <= rv_D v')%nat;
  ns_log : s_log s' = s_log s ++ evs;
  ns_sent : Forall (sent_ok q (sd_msgs g) (sd_W g - XPACK_SERIAL_RANGE) (sd_W g')) evs;
  ns_to : omap to_peer_of evs
          = firstn (sd_acked g' - sd_acked g) (skipn (sd_acked g) (sd_ids g));
  ns_from : omap from_peer_of evs = firstn (rv_D v' - rv_D v) (skipn (rv_D v) ms);
}.

(** ** Steps *)

Lemma node_step_snd q g ms v s g' s' evs :
  snd_step q g s g' s' evs -> node_step q g ms v s g' v s' evs.
Proof. intros []. split; try done; try lia. by rewrite Nat.sub_diag, take_0. Qed.

Lemma node_step_rcv q g ms v s v' s' evs :
  rv_Vr v <= rv_Vr v' -> rcv_step ms v s v' s' evs -> node_step q g ms v s g v' s' evs.
Proof.
  intros HV []. split; try done; try lia.
  - apply Forall_forall. intros ev Hev. destruct ev; try done. exfalso.
    apply list_elem_of_lookup in Hev as [k Hk].
    assert (Hin : (h, payload) ∈ omap sent_of evs).
    { apply list_elem_of_omap. eexists. split; [by eapply list_elem_of_lookup_2|done]. }
    rewrite rs_sent in Hin. by apply not_elem_of_nil in Hin.
  - by rewrite Nat.sub_diag, take_0.
Qed.

Lemma node_step_silent q g ms v s v' s' :
  rv_Vr v' = rv_Vr v -> rv_D v' = rv_D v -> s_log s' = s_log s ->
  node_step q g ms v s g v' s' [].
Proof.
  intros E1 E2 E3. split; try done; try lia; rewrite ?E2, ?Nat.sub_diag, ?take_0; try done.
  by rewrite app_nil_r.
Qed.

Lemma node_step_trans q g ms v s g1 v1 s1 e1 g2 v2 s2 e2 :
  node_step q g ms v s g1 v1 s1 e1 -> node_step q g1 ms v1 s1 g2 v2 s2 e2 ->
  node_step q g ms v s g2 v2 s2 (e1 ++ e2).
Proof.
  intros [[Hm Hi] HR HW Ha HV HD Hl Hs Ht Hf] [[Hm2 Hi2] HR2 HW2 Ha2 HV2 HD2 Hl2 Hs2 Ht2 Hf2].
  split; try lia; try (split; congruence).
  - by rewrite Hl2, Hl, app_assoc.
  - apply Forall_app. split; (eapply Forall_impl; [eassumption|]); intros ev; rewrite ?Hm;
      apply sent_ok_mono; lia.
  - rewrite omap_app, Ht, Ht2, Hi. symmetry. by apply take_drop_split.
  - rewrite omap_app, Hf, Hf2. symmetry. by apply take_drop_split.
Qed.

(** ** The sides leave each other alone *)

Lemma rcv_ok_frames ms v rb cm fr fr' :
  rcv_ok ms v rb cm fr -> (forall x, cm = Some x -> fr' !! x = fr !! x) -> rcv_ok ms v rb cm fr'.
Proof.
  intros H E. pose proof (ro_assembly _ _ _ _ _ H) as Ha. destruct H. split; try done.
  unfold assembly_ok in Ha |- *. destruct (decide _); [done|].
  destruct Ha as (x & m & f & Hx & Hm & Hf & Hp). exists x, m, f. by rewrite E.
Qed.

Lemma snd_ok_frames q g sb mb fr fr' :
  snd_ok q g sb mb fr -> (forall x, in_flight g x -> fr' !! x = fr !! x) -> snd_ok q g sb mb fr'.
Proof.
  intros H E. destruct H. split; try done. intros k m x Hk Hm Hx.
  rewrite E by (by exists k). by apply so_frames.
Qed.

Lemma in_flight_dom q g s x : Snd q g s -> in_flight g x -> x ∈ dom (s_frames s).
Proof.
  intros (H & _) (k & Hk & Hx).
  destruct (lookup_lt_is_Some_2 (sd_msgs g) k) as [m Hm].
  { rewrite <- (so_ids _ _ _ _ _ H). by eapply lookup_lt_Some. }
  destruct (so_frames _ _ _ _ _ H k m x Hk Hm Hx) as (f & Hf & _). by eapply elem_of_dom_2.
Qed.

Lemma Node_snd q g ms v s g' s' evs :
  Node q g ms v s -> Snd q g' s' -> snd_step q g s g' s' evs -> Node q g' ms v s'.
Proof.
  intros (Hs & Hr & Hd) Hs' Hst. pose proof Hst as [[_ Hi] _ _ Ha _ _ _ _ [Erb Ecm] Hfr _].
  split; [done|]. split.
  - unfold Rcv in *. rewrite Erb, Ecm. eapply rcv_ok_frames; [done|]. intros x Hx. apply Hfr. auto.
  - rewrite Ecm. intros x Hx Hin. apply (Hd x Hx). by eapply in_flight_mono.
Qed.

Lemma Node_rcv q g ms v s v' s' evs :
  Node q g ms v s -> Rcv ms v' s' -> rcv_step ms v s v' s' evs -> Node q g ms v' s'.
Proof.
  intros (Hs & Hr & Hd) Hr' Hst. pose proof Hst as [_ _ _ _ _ (E1 & E2 & E3 & E4) _ Hfr Hm _].
  pose proof Hs as (Hok & Hsr & Ha & Hq). split; [|split; [done|]].
  - unfold Snd. rewrite E1, E2, E3, E4. split; [|done]. eapply snd_ok_frames; [done|].
    intros x Hx. apply Hfr; [by eapply in_flight_dom|]. intros E. by apply (Hd x E).
  - intros x Hx Hin. destruct (Hm x Hx) as [E|Hn]; [by apply (Hd x E)|].
    apply Hn. by eapply in_flight_dom.
Qed.

Lemma Snd_weaken q g s : Snd q g s -> Snd false g s.
Proof.
  intros (H & Hr & Ha & _). split; [|done]. destruct H. split; try done.
  - intros i Hi Hw. destruct (so_slots i Hi Hw) as (p & Hp & H1 & H2 & H3 & H4). exists p.
    split; [done|]. do 2 (split; [done|]). split; [|done]. destruct H3 as [|[_ ?]]; [by left|by right].
Qed.

Lemma Node_weaken q g ms v s : Node q g ms v s -> Node false g ms v s.
Proof. intros (Hs & H). split; [by eapply Snd_weaken|done]. Qed.

(** The receiving functions change the pending acknowledgement and the stamps;
    the sending side does not depend on them once it has a peer. *)
Lemma Node_frame g ms v s v' s' :
  Node false g ms v s -> rcv_ok ms v' (c_recvbuf (s_ch s')) (c_msg (s_ch s)) (s_frames s) ->
  c_sendbuf (s_ch s') = c_sendbuf (s_ch s) -> c_msgbuf (s_ch s') = c_msgbuf (s_ch s) ->
  s_frames s' = s_frames s -> c_serial_range (s_ch s') = c_serial_range (s_ch s) ->
  h_type (c_ack (s_ch s')) = XPACK_TYPE_ACK -> c_msg (s_ch s') = c_msg (s_ch s) ->
  Node false g ms v' s'.
Proof.
  intros (Hs & Hr & Hd) Hr' E1 E2 E3 E4 E5 E6. pose proof Hs as (H & Hsr & _ & _).
  split; [|split].
  - unfold Snd. by rewrite E1, E2, E3, E4, E5.
  - unfold Rcv. by rewrite E3, E6.
  - by rewrite E6.
Qed.

(** ** A packet arrives *)

(** What the acknowledgement fields of a head do to the sending side. *)
Definition acked_by (h : xhead) (g g' : sender) : Prop :=
  sd_R g' = sd_R g \/ (a_type h <> 0 \/ h_type h = XPACK_TYPE_ACK) /\ sd_R g' = ack_target g (a_pos h).

Definition wire_ok (h : xhead) : Prop := 0 <= a_sn h < 2 ^ 16 /\ 0 <= a_pos h < 2 ^ 16.

(** The state after a packet with head [h] has been taken in, before it is
    reassembled. *)
Definition taken (h : xhead) (g : sender) (ms : list gmsg) (v : receiver) (s s' : st) : Prop :=
  exists g' v' evs, Node false g' ms v' s' /\ settled v' (c_recvbuf (s_ch s'))
    /\ node_step false g ms v s g' v' s' evs /\ acked_by h g g' /\ sd_W g' = sd_W g
    /\ (rv_V v <= rv_V v' /\ rv_Vr v' = rv_Vr v) /\ psf_le (XPACK_SERIAL_RANGE + 1) s s'.

Lemma piggyback_spec e g ms v s p :
  Node false g ms v s -> wire_ok (k_head p) ->
  runs (XPACK_SERIAL_RANGE + 1) s (ack_piggyback e p s) (fun s' => exists g' evs,
    Node false g' ms v s' /\ node_step false g ms v s g' v s' evs /\ acked_by (k_head p) g g'
    /\ sd_W g' = sd_W g /\ c_recvbuf (s_ch s') = c_recvbuf (s_ch s)
    /\ psf_le (XPACK_SERIAL_RANGE + 1) s s').
Proof.
  intros H [Hsn Hpos]. pose proof H as (Hs & _). unfold ack_piggyback. case_decide as Ht.
  - eapply runs_mono; [by apply recv_ack_spec|]. intros s' (g' & evs & Hs' & Hst & HR & HS & HW & Hp).
    exists g', evs. split; [by eapply Node_snd|]. split; [by apply node_step_snd|].
    split; [destruct HR; [by left|right; split; [by left|done]]|].
    split; [done|]. split; [apply Hst|done].
  - exists g, []. split; [done|]. split; [by apply node_step_silent|]. split; [by left|].
    do 2 (split; [done|]). by apply psf_le_eq.
Qed.

Lemma store_spec ms v s i p :
  Rcv ms v s -> rv_Vr v <= i < rv_Vr v + XPACK_SERIAL_RANGE -> pack_is ms i p ->
  exists l, ring_set (c_recvbuf (s_ch s)) (i mod XPACK_SERIAL_RANGE) (Some p)
            = Some (c_recvbuf (s_ch s) <| r_buf := l |>)
    /\ rcv_ok ms v (c_recvbuf (s_ch s) <| r_buf := l |>) (c_msg (s_ch s)) (s_frames s)
    /\ wr (r_buf (c_recvbuf (s_ch s))) (i mod XPACK_SERIAL_RANGE) (Some p) = Some l.
Proof.
  intros H Hi Hp. destruct (rb_set _ _ _ _ _ H i (Some p)) as (l & Hl & E). exists l.
  split; [done|]. split; [by eapply rcv_ok_store|done].
Qed.

Lemma counted_same s s' :
  s' = s \/ counted s s' ->
  c_sendbuf (s_ch s') = c_sendbuf (s_ch s) /\ c_msgbuf (s_ch s') = c_msgbuf (s_ch s)
  /\ s_frames s' = s_frames s /\ c_serial_range (s_ch s') = c_serial_range (s_ch s)
  /\ h_type (c_ack (s_ch s')) = h_type (c_ack (s_ch s)) /\ c_msg (s_ch s') = c_msg (s_ch s)
  /\ s_log s' = s_log s /\ psf s' = psf s.
Proof. intros [->|(w & sn & pos & ->)]; done. Qed.

(** The next packet in order: it and what follows it is counted in. *)
Lemma in_order_spec e g ms v s p :
  Node false g ms v s -> idle v s -> wire_ok (k_head p) -> pack_is ms (rv_V v) p ->
  runs (XPACK_SERIAL_RANGE + 1) s
    (s ← ack_piggyback e p s;
     rb ← ring_set (c_recvbuf (s_ch s)) (rv_V v mod XPACK_SERIAL_RANGE) (Some p);
     let w := u16 (r_wpos rb + 1) in
     let s := s <| s_ch; c_recvbuf := rb <| r_wpos := w |> |>
                <| s_ch; c_ack; a_pos := w |> <| s_ch; c_ack; a_sn := w |> in
     advance_loop (S (Z.to_nat (__serialbuf_writable (c_recvbuf (s_ch s))))) s)
    (taken (k_head p) g ms v s).
Proof.
  intros H [Hidle Hset] Hw Hp. eapply runs_bind; [by apply piggyback_spec|lia|].
  intros s1 (g1 & e1 & H1 & Hst1 & HR1 & HW1 & Hrb1 & Hp1). pose proof H1 as ((Hok1 & _ & Ha1 & _) & Hr1 & _).
  destruct (store_spec ms v s1 (rv_V v) p Hr1) as (l & -> & Hr2 & Hl); [unfold XPACK_SERIAL_RANGE; lia|done|].
  cbn [mbind option_bind]. cbv zeta. set (w := u16 _).
  set (s2 := s1 <| s_ch; c_recvbuf := _ |> <| s_ch; c_ack; a_pos := w |> <| s_ch; c_ack; a_sn := w |>).
  assert (Hr3 : Rcv ms (v <| rv_V := rv_V v + 1 |>) s2).
  { eapply (rcv_ok_count _ _ _ _ _ p Hr2); [unfold XPACK_SERIAL_RANGE; lia|].
    simpl. by rewrite (rd_wr _ _ _ _ _ Hl), decide_True. }
  assert (H2 : Node false g1 ms (v <| rv_V := rv_V v + 1 |>) s2) by (by eapply Node_frame).
  destruct (advance_spec ms (S (Z.to_nat (__serialbuf_writable (c_recvbuf (s_ch s2))))) _ s2 Hr3)
    as (v' & s' & -> & Hr' & Hset' & HV & HVr & HD & Hc).
  { rewrite (rb_writable _ _ _ _ _ Hr3). lia. }
  simpl in HV, HVr, HD.
  assert (Hs' : Node false g1 ms v' s' /\ s_log s' = s_log s2 /\ psf s' = psf s2).
  { destruct (counted_same _ _ Hc) as (E1 & E2 & E3 & E4 & E5 & E6 & E7 & E8). clearbody s2.
    split; [|done]. unfold Rcv in Hr'. rewrite E3, E6 in Hr'.
    apply (Node_frame g1 ms _ s2 v' s' H2); try done. rewrite E5. apply H2. }
  destruct Hs' as (H' & El & Ep). exists g1, v', e1. split; [done|]. split; [done|]. split.
  { rewrite <- (app_nil_r e1). eapply node_step_trans; [exact Hst1|]. by apply node_step_silent. }
  split; [done|]. split; [done|]. split; [split; lia|]. unfold psf_le in *. rewrite Ep. exact Hp1.
Qed.

(** Nothing is taken in: a packet that arrived before, or is there already. *)
Lemma taken_nothing h g ms v s s' :
  Node false g ms v s -> idle v s ->
  c_sendbuf (s_ch s') = c_sendbuf (s_ch s) -> c_msgbuf (s_ch s') = c_msgbuf (s_ch s) ->
  s_frames s' = s_frames s -> c_serial_range (s_ch s') = c_serial_range (s_ch s) ->
  h_type (c_ack (s_ch s')) = XPACK_TYPE_ACK -> c_msg (s_ch s') = c_msg (s_ch s) ->
  c_recvbuf (s_ch s') = c_recvbuf (s_ch s) -> s_log s' = s_log s -> psf s' = psf s ->
  taken h g ms v s s'.
Proof.
  intros H [_ Hset] E1 E2 E3 E4 E5 E6 E7 E8 E9. exists g, v, []. split.
  - eapply Node_frame; try done. rewrite E7. apply H.
  - rewrite E7. split; [done|]. split; [by apply node_step_silent|]. split; [by left|].
    split; [done|]. split; [split; lia|]. by apply psf_le_eq.
Qed.

(** A packet ahead of the next one in order is kept if its slot is free. *)
Lemma ahead_spec e g ms v s i p :
  Node false g ms v s -> idle v s -> wire_ok (k_head p) -> pack_is ms i p ->
  rv_V v < i < rv_V v + XPACK_SERIAL_RANGE ->
  runs (XPACK_SERIAL_RANGE + 1) s
    (slot ← ring_get (c_recvbuf (s_ch s)) (i mod XPACK_SERIAL_RANGE);
     match slot with
     | None =>
         s ← ack_piggyback e p s;
         rb ← ring_set (c_recvbuf (s_ch s)) (i mod XPACK_SERIAL_RANGE) (Some p);
         Some (s <| s_ch; c_recvbuf := rb |>)
     | Some _ => Some s
     end)
    (taken (k_head p) g ms v s).
Proof.
  intros H Hid Hw Hp Hi. pose proof Hid as [Hidle Hset]. pose proof H as ((_ & _ & Ha & _) & Hr & _).
  destruct (ro_slots _ _ _ _ _ Hr i) as (o & Ho & _); [lia|].
  unfold ring_get. rewrite Ho. cbn [mbind option_bind]. destruct o as [p0|].
  { simpl. by apply taken_nothing. }
  eapply runs_bind; [by apply piggyback_spec|lia|].
  intros s1 (g1 & e1 & H1 & Hst1 & HR1 & HW1 & Hrb1 & Hp1). pose proof H1 as ((Hok1 & _ & Ha1 & _) & Hr1 & _).
  destruct (store_spec ms v s1 i p Hr1) as (l & -> & Hr2 & Hl); [lia|done|].
  cbn [mbind option_bind runs]. set (s2 := s1 <| s_ch; c_recvbuf := _ |>).
  assert (H2 : Node false g1 ms v s2) by (by eapply Node_frame).
  exists g1, v, e1. split; [done|]. split.
  { intros Hlt. simpl. rewrite (rd_wr _ _ _ _ _ Hl), decide_False.
    - rewrite Hrb1. by apply Hset.
    - intros E. apply mod_inj in E; unfold XPACK_SERIAL_RANGE in *; lia. }
  split.
  { rewrite <- (app_nil_r e1). eapply node_step_trans; [exact Hst1|]. by apply node_step_silent. }
  split; [done|]. split; [done|]. split; [split; lia|]. exact Hp1.
Qed.

Lemma taken_from h g ms v s s0 s' :
  s_log s0 = s_log s -> psf s0 = psf s -> taken h g ms v s0 s' -> taken h g ms v s s'.
Proof.
  intros El Ep (g' & v' & evs & H & Hset & Hst & HR & HW & HV & Hp). exists g', v', evs.
  do 2 (split; [done|]). split.
  - destruct Hst. split; try done. congruence.
  - do 3 (split; [done|]). unfold psf_le in *. by rewrite <- Ep.
Qed.

(** Taking in packet [i] of the peer: a packet up to 2^15 behind and less than
    64 ahead of the next one in order is recognised for what it is. *)
Lemma recv_pack_spec e g ms v s i p :
  env_ok e -> Node false g ms v s -> idle v s -> wire_ok (k_head p) -> pack_is ms i p ->
  rv_V v - 2 ^ 15 <= i < rv_V v + XPACK_SERIAL_RANGE ->
  runs (XPACK_SERIAL_RANGE + 1) s (xchannel_recv_pack e p s) (fun '(s', r) =>
    exists g' v' evs, Node false g' ms v' s' /\ node_step false g ms v s g' v' s' evs
    /\ acked_by (k_head p) g g' /\ sd_W g' = sd_W g
    /\ (r = 0 /\ idle v' s' \/ r = -1)
    /\ (rv_V v <= rv_Vr v' /\ rv_Vr v' <= rv_V v + XPACK_SERIAL_RANGE)
    /\ psf_le (XPACK_SERIAL_RANGE + 1) s s').
Proof.
  intros He H Hid Hw Hp Hi. pose proof Hid as [Hidle _]. unfold xchannel_recv_pack. cbv zeta.
  set (s0 := s <| s_ch; c_ack; h_type := _ |> <| s_ch; c_ack; a_type := _ |>).
  assert (H0 : Node false g ms v s0) by (eapply Node_frame; try done; apply H).
  assert (Hid0 : idle v s0) by exact Hid. pose proof H0 as (_ & Hr0 & _).
  assert (Hsn : h_sn (k_head p) = u16 i).
  { destruct Hp as (c & (k & r & m & _ & E & _) & _). exact E. }
  apply (runs_bind (XPACK_SERIAL_RANGE + 1) _ _ _ _ (taken (k_head p) g ms v s)); [|lia|].
  - apply (runs_mono _ s0 _ (taken (k_head p) g ms v s0)); [|intros s'; by apply taken_from].
    rewrite Hsn, (rb_index _ _ _ _ _ Hr0), (ro_wpos _ _ _ _ _ Hr0).
    destruct (decide (i = rv_V v)) as [->|Hne].
    + rewrite decide_True by done. by apply in_order_spec.
    + rewrite decide_False.
      2:{ intros E. apply u16_inj in E; unfold XPACK_SERIAL_RANGE in *; lia. }
      destruct (decide (rv_V v < i)).
      * rewrite decide_True.
        2:{ rewrite u16_diff_neg, u16_diff by (unfold XPACK_SERIAL_RANGE in *; lia).
            unfold XPACK_SERIAL_RANGE in *. lia. }
        set (s1 := s0 <| s_ch; c_ack; a_sn := _ |> <| s_ch; c_ack; a_pos := _ |>).
        assert (H1 : Node false g ms v s1) by (eapply Node_frame; try done; apply H).
        apply (runs_mono _ s1 _ (taken (k_head p) g ms v s1)); [|intros s'; by apply taken_from].
        apply (ahead_spec e g ms v s1 i p H1); try done. lia.
      * rewrite decide_False.
        2:{ rewrite u16_diff, u16_diff_neg by (unfold XPACK_SERIAL_RANGE in *; lia). lia. }
        simpl. by apply taken_nothing.
  - intros s1 (g1 & v1 & e1 & H1 & Hset1 & Hst1 & HR1 & HW1 & [HV1 HVr1] & Hp1).
    pose proof H1 as (_ & Hr1 & _).
    destruct (recv_msg_spec e ms v1 s1 He Hr1 Hset1)
      as (v2 & s2 & e2 & r & -> & Hr2 & Hset2 & HV2 & HVr2 & Hr & Hst2).
    simpl. exists g1, v2, (e1 ++ e2). split; [by eapply Node_rcv|]. split.
    { eapply node_step_trans; [done|]. by apply node_step_rcv. }
    split; [done|]. split; [done|]. split; [destruct Hr as [[-> E]| ->]; [by left|by right]|].
    split; [destruct (ro_order _ _ _ _ _ Hr1), (ro_order _ _ _ _ _ Hr2); split; lia|].
    eapply psf_le_trans; [exact Hp1|apply (psf_le_eq 0); [apply Hst2|lia]|lia].
Qed.

(** ** The handlers *)

(** What a handler of a datagram with head [h] leads to. *)
Definition handled (h : xhead) (g : sender) (ms : list gmsg) (v : receiver) (s : st)
    (res : st * Z) : Prop :=
  exists g' v' evs, Node false g' ms v' res.1 /\ node_step false g ms v s g' v' res.1 evs
    /\ acked_by h g g' /\ sd_W g' <= sd_W g + 2
    /\ (res.2 = 0 /\ idle v' res.1 \/ res.2 = -1)
    /\ (rv_V v <= rv_Vr v' /\ rv_Vr v' <= rv_V v + XPACK_SERIAL_RANGE)
    /\ psf_le (XPACK_SERIAL_RANGE + 1) s res.1.

(** A function that sends and nothing else. *)
Definition sends (f : st -> option st) : Prop :=
  forall g s, Snd false g s -> exists g' s' evs, f s = Some s' /\ Snd false g' s'
    /\ snd_step false g s g' s' evs /\ sd_R g' = sd_R g /\ sd_W g' <= sd_W g + 2
    /\ psf s' = psf s.

Lemma sends_pack e : sends (xchannel_send_pack e).
Proof.
  intros g s Hs. destruct (send_pack_spec e _ g s Hs) as (g' & s' & evs & H).
  exists g', s', evs. tauto.
Qed.

Lemma sends_ack e : sends (xchannel_send_ack e).
Proof.
  intros g s Hs. destruct (send_ack_spec e g s Hs) as (s' & evs & E & H & Hst & Hp).
  exists g, s', evs. do 4 (split; [done|]). split; [lia|done].
Qed.

Lemma sends_if (P : st -> Prop) `{!forall s, Decision (P s)} f1 f2 :
  sends f1 -> sends f2 -> sends (fun s => if decide (P s) then f1 s else f2 s).
Proof. intros H1 H2 g s Hs. case_decide; [by apply H1|by apply H2]. Qed.

Lemma idle_snd q g v s g' s' evs : snd_step q g s g' s' evs -> idle v s -> idle v s'.
Proof. intros [] [Hi Hset]. split; [done|]. by replace (c_recvbuf (s_ch s')) with (c_recvbuf (s_ch s)) by (symmetry; apply ss_recv). Qed.

(** A packet is taken in and answered. *)
Lemma reply_spec e (f : st -> option st) g ms v s i p :
  sends f ->
  env_ok e -> Node false g ms v s -> idle v s -> wire_ok (k_head p) -> pack_is ms i p ->
  rv_V v - 2 ^ 15 <= i < rv_V v + XPACK_SERIAL_RANGE ->
  runs (XPACK_SERIAL_RANGE + 1) s
    ('(s, r) ← xchannel_recv_pack e p s;
     if decide (r ≠ 0) then Some (s, r) else s ← f s; Some (s, 0))
    (handled (k_head p) g ms v s).
Proof.
  intros Hf He H Hid Hw Hp Hi. eapply runs_bind; [by eapply recv_pack_spec|lia|].
  intros [s1 r] (g1 & v1 & e1 & H1 & Hst1 & HR1 & HW1 & Hr & HV & Hp1). case_decide as Hr0.
  { exists g1, v1, e1. simpl. do 3 (split; [done|]). split; [lia|]. split; [|done]. destruct Hr; tauto. }
  destruct Hr as [[_ Hid1]| ->]; [|done]. pose proof H1 as (Hs1 & _).
  destruct (Hf g1 s1 Hs1) as (g2 & s2 & e2 & -> & Hs2 & Hst2 & HR2 & HW2 & Hp2).
  exists g2, v1, (e1 ++ e2). simpl. split; [by eapply Node_snd|].
  split; [eapply node_step_trans; [done|by apply node_step_snd]|].
  split; [unfold acked_by; by rewrite HR2|]. split; [lia|]. split; [left; split; [done|by eapply idle_snd]|].
  split; [done|]. eapply psf_le_trans; [exact Hp1|by apply (psf_le_eq 0)|lia].
Qed.

Lemma ignored_spec h g ms v s :
  Node false g ms v s -> idle v s -> handled h g ms v s (s, 0).
Proof.
  intros H Hid. exists g, v, []. simpl. split; [done|]. split; [by apply node_step_silent|].
  split; [by left|]. split; [lia|]. split; [by left|]. split; [destruct Hid; unfold XPACK_SERIAL_RANGE; lia|by apply psf_le_eq].
Qed.

Lemma ack_type_spec e g ms v s h :
  Node false g ms v s -> idle v s -> wire_ok h -> h_type h = XPACK_TYPE_ACK ->
  runs (XPACK_SERIAL_RANGE + 1) s (s ← xchannel_recv_ack e h s; Some (s, 0)) (handled h g ms v s).
Proof.
  intros H Hid [Hsn Hpos] Ht. pose proof H as (Hs & _).
  eapply runs_bind; [by apply recv_ack_spec|lia|].
  intros s1 (g1 & e1 & Hs1 & Hst1 & HR & HS & HW & Hp). exists g1, v, e1. simpl.
  split; [by eapply Node_snd|]. split; [by apply node_step_snd|].
  split; [destruct HR; [by left|right; split; [by right|done]]|]. split; [lia|].
  split; [left; split; [done|by eapply idle_snd]|]. split; [destruct Hid; unfold XPACK_SERIAL_RANGE; lia|done].
Qed.

Lemma existing_spec e g ms v s p :
  env_ok e -> Node false g ms v s -> idle v s -> wire_ok (k_head p) ->
  (h_type (k_head p) = XPACK_TYPE_ACK
   \/ exists i, pack_is ms i p /\ rv_V v - 2 ^ 15 <= i < rv_V v + XPACK_SERIAL_RANGE) ->
  runs (XPACK_SERIAL_RANGE + 1) s (recv_existing e p s) (handled (k_head p) g ms v s).
Proof.
  intros He H Hid Hw Hcase. unfold recv_existing. cbv zeta.
  assert (Hdata : forall ty, h_type (k_head p) = ty -> ty <> XPACK_TYPE_ACK ->
            exists i, pack_is ms i p /\ rv_V v - 2 ^ 15 <= i < rv_V v + XPACK_SERIAL_RANGE).
  { intros ty E Hne. destruct Hcase; [congruence|done]. }
  case_decide as E1.
  { destruct (Hdata _ E1) as (i & Hp & Hi); [done|].
    by apply (reply_spec e _ g ms v s i p 
      (sends_if (fun s => __serialbuf_sendable (c_sendbuf (s_ch s)) > 0) _ _ (sends_pack e) (sends_ack e))). }
  case_decide as E2; [by apply ack_type_spec|].
  case_decide as E3.
  { destruct (Hdata _ E3) as (i & Hp & Hi); [done|]. by apply (reply_spec e _ g ms v s i p (sends_ack e)). }
  case_decide as E4; [|by apply ignored_spec]. case_decide; [|by apply ignored_spec].
  destruct (Hdata _ E4) as (i & Hp & Hi); [done|]. by apply (reply_spec e _ g ms v s i p (sends_ack e)).
Qed.

(** ** A new channel *)

Definition new_sender : sender := mksender 0 0 0 [] [] 0 0.
Definition new_receiver : receiver := mkreceiver 0 0 0.

Lemma rd_replicate {A} n (x : A) i : 0 <= i < Z.of_nat n -> rd (replicate n x) i = Some x.
Proof. intros. unfold rd. rewrite decide_True by lia. apply lookup_replicate_2. lia. Qed.

Lemma create_ok q ms now fr :
  Forall msg_ok ms ->
  let c := xchannel_create now XPACK_SERIAL_RANGE in
  snd_ok q new_sender (c_sendbuf c) (c_msgbuf c) fr
  /\ rcv_ok ms new_receiver (c_recvbuf c) None fr
  /\ settled new_receiver (c_recvbuf c).
Proof.
  intros Hms c. split; [|split].
  - split; try done; try (simpl; lia).
    + rewrite off_0. simpl. lia.
    + rewrite off_0. simpl. lia.
    + intros j Hj. exists empty_pack. split; [|split; [done|]].
      * apply rd_replicate. simpl in Hj. unfold XPACK_SERIAL_RANGE in *. lia.
      * unfold empty_pack, k_body. by rewrite length_replicate.
  - split; try done; try apply total_nonneg.
    + intros i Hi. exists None. split; [|split; [by left|intros ?; simpl in *; lia]].
      apply rd_replicate. pose proof (Z.mod_pos_bound i XPACK_SERIAL_RANGE ltac:(done)).
      unfold XPACK_SERIAL_RANGE in *. lia.
    + split; [done|]. split; [|simpl; lia]. intros Hl. destruct ms as [|m ms]; [simpl in Hl; lia|].
      pose proof (count_pos m). unfold off. simpl. lia.
  - intros _. by apply rd_replicate.
Qed.

(** The channel of a connection request has the range the request names. *)
Lemma request_spec e ms s i p :
  env_ok e -> Forall msg_ok ms -> wire_ok (k_head p) -> pack_is ms i p ->
  0 <= i < XPACK_SERIAL_RANGE -> a_pos (k_head p) = XPACK_SERIAL_RANGE ->
  exists s0, psf s0 = 0 /\ s_log s0 = s_log s /\
  runs (XPACK_SERIAL_RANGE + 1) s0 (recv_request e p s)
    (handled (k_head p) new_sender ms new_receiver s0).
Proof.
  intros He Hms Hw Hp Hi Hpos. unfold recv_request, clock. cbv zeta.
  set (now := u64 _). rewrite Hpos.
  match goal with |- context [ xchannel_recv_pack e p ?y ] => set (s0 := y) end.
  destruct (create_ok false ms now (s_frames s) Hms) as (Hsnd & Hrcv & Hset).
  assert (H0 : Node false new_sender ms new_receiver s0) by done.
  exists s0. do 2 (split; [done|]).
  apply (reply_spec e _ new_sender ms new_receiver s0 i p (sends_ack e)); try done. simpl. lia.
Qed.

(** ** A turn of the send loop *)

Lemma snd_step_tick q g s s' evs :
  Forall (fun ev => ev = TimedOut) evs -> s_log s' = s_log s ++ evs -> s_frames s' = s_frames s ->
  c_recvbuf (s_ch s') = c_recvbuf (s_ch s) -> c_msg (s_ch s') = c_msg (s_ch s) ->
  snd_step q g s g s' evs.
Proof.
  intros Hev Hl Hf Hr Hm. apply snd_step_same; try done.
  - eapply Forall_impl; [exact Hev|]. by intros ev ->.
  - clear Hl. induction Hev as [|ev evs -> _ IH]; done.
  - clear Hl. induction Hev as [|ev evs -> _ IH]; done.
Qed.

(** The retransmission of the oldest unacknowledged packet. *)
Lemma resend_first_spec e q g s (now : Z) p :
  Snd q g s -> sd_R g < sd_S g ->
  ring_get (c_sendbuf (s_ch s)) (sd_R g mod XPACK_SERIAL_RANGE) = Some p ->
  exists s' evs b, resend_first e (sd_R g mod XPACK_SERIAL_RANGE) p now s = Some (s', b)
    /\ Snd q g s' /\ snd_step q g s g s' evs /\ psf s' = psf s.
Proof.
  intros Hs Hlt Hp. unfold resend_first. cbv zeta.
  match goal with |- context [ udp_sendto e (k_head ?y) ] => set (p1 := y) end. pose proof Hs as (Hok & _). destruct (so_order _ _ _ _ _ Hok) as [HRS HSW].
  destruct (used_window _ _ _ _ _ (sd_R g) Hok) as (Hu & Hge & Hwin); [lia|].
  destruct (so_slots _ _ _ _ _ Hok (sd_R g)) as (p' & Hp' & Hslot); [done|done|].
  assert (p' = p) as -> by (unfold ring_get in Hp; congruence).
  assert (Hsame : same_packet q p p1).
  { eapply same_packet_trans; [apply (same_packet_refresh q (r_wpos (c_recvbuf (s_ch s))))|done]. }
  destruct (sendto_spec e q g s (sd_R g) p1 Hs) as (ok & s1 & evs & -> & E1 & Hs1 & Hst1);
    [by eapply same_packet_slot|done|done|]. cbn [mbind option_bind].
  assert (Hp1 : ring_get (c_sendbuf (s_ch s1)) (sd_R g mod XPACK_SERIAL_RANGE) = Some p) by (by rewrite E1).
  assert (Hpsf : psf s1 = psf s) by (by rewrite E1).
  destruct ok.
  - match goal with |- context [ set_pack _ ?y s1 ] => set (p2 := y) end.
    destruct (set_pack_spec q g s1 (sd_R g) p p2 Hs1 Hp1) as (l & -> & Hs2 & _); [done|by right|].
    cbn [mbind option_bind]. set (s2 := s1 <| s_ch; c_sendbuf; r_buf := l |>) in *.
    assert (Hst2 : snd_step q g s g s2 evs).
    { rewrite <- (app_nil_r evs). eapply snd_step_trans; [exact Hst1|]. by apply snd_step_only. }
    eexists _, evs, false. split; [done|]. case_decide; [|by split].
    split; [by eapply Snd_frame|]. split; [|exact Hpsf].
    rewrite <- (app_nil_r evs). eapply snd_step_trans; [exact Hst2|]. by apply snd_step_only.
  - destruct (set_pack_spec q g s1 (sd_R g) p p1 Hs1 Hp1 Hsame) as (l & -> & Hs2 & _); [by right|].
    cbn [mbind option_bind]. eexists _, evs, false. split; [done|]. split; [exact Hs2|]. split; [|exact Hpsf].
    rewrite <- (app_nil_r evs). eapply snd_step_trans; [exact Hst1|]. by apply snd_step_only.
Qed.

(** A stage of the turn: it runs, keeps the invariant and sends at most. *)
Definition ticks (q : bool) (g : sender) (s : st) (g' : sender) (s' : st) : Prop :=
  exists evs, Snd q g' s' /\ snd_step q g s g' s' evs /\ sd_R g' = sd_R g
    /\ sd_W g' <= sd_W g + 2 /\ psf s' = psf s.

Lemma ticks_frame q g s g' s' s'' :
  ticks q g s g' s' -> s_frames s'' = s_frames s' -> s_ch s'' = s_ch s' -> s_log s'' = s_log s' ->
  ticks q g s g' s''.
Proof.
  intros (evs & Hs & Hst & HR & HW & Hp) E1 E2 E3. exists evs. split; [apply (Snd_frame q g' s'); rewrite ?E1, ?E2; done|].
  split; [|split; [done|split; [done|unfold psf; by rewrite E2]]].
  rewrite <- (app_nil_r evs). eapply snd_step_trans; [exact Hst|]. apply snd_step_only; congruence.
Qed.

Lemma ticks_lower q g s g' s' z : ticks q g s g' s' -> ticks q g s g' (lower_timer z s').
Proof. intros H. unfold lower_timer. case_decide; [by eapply ticks_frame|done]. Qed.

Lemma ticks_timedout q g s g' s' :
  ticks q g s g' s' -> ticks q g s g' (log TimedOut (s' <| s_ch; c_tm; t_timedout := true |>)).
Proof.
  intros (evs & Hs & Hst & HR & HW & Hp). exists (evs ++ [TimedOut]).
  split; [by eapply Snd_frame|]. split; [|done]. eapply snd_step_trans; [exact Hst|].
  apply snd_step_tick; try done. by constructor.
Qed.

Lemma ticks_snd q g s g1 s1 g' s' evs :
  ticks q g s g1 s1 -> Snd q g' s' -> snd_step q g1 s1 g' s' evs -> sd_R g' = sd_R g1 ->
  sd_W g' = sd_W g1 -> psf s' = psf s1 -> ticks q g s g' s'.
Proof.
  intros (e1 & Hs & Hst & HR & HW & Hp) Hs' Hst' HR' HW' Hp'. exists (e1 ++ evs).
  split; [done|]. split; [by eapply snd_step_trans|]. split; [congruence|]. split; [lia|congruence].
Qed.

(** The turn never faults and does what sending may do. *)
Lemma send_tick_spec e q g s :
  Snd q g s -> exists g' s' b, send_tick e s = Some (s', b) /\ ticks q g s g' s'.
Proof.
  intros Hs. unfold send_tick, clock. set (s0 := s <| s_tick := _ |>). cbv zeta.
  assert (Ht0 : ticks q g s g s0).
  { exists []. split; [by eapply Snd_frame|]. split; [by apply snd_step_only|]. split; [done|]. split; [lia|done]. }
  pose proof Ht0 as (_ & Hs0 & _).
  assert (H1 : forall o, (o = Some s0 \/ (exists z, o = Some (lower_timer z s0)) \/ o = xchannel_send_pack e s0
               \/ (exists z, o = Some (s0 <| s_ch; c_tm; t_kabuf := z |>))) ->
             exists g1 s1, o = Some s1 /\ ticks q g s g1 s1).
  { intros o [->|[[z ->]|[->|[z ->]]]].
    - by exists g, s0.
    - exists g. eexists. split; [done|]. by apply ticks_lower.
    - destruct (send_pack_spec e q g s0 Hs0) as (g1 & s1 & evs & E & Hs1 & Hst & HR & HW & Hp).
      exists g1, s1. split; [done|]. exists evs. split; [done|].
      split; [by destruct Hst; split|]. split; [done|]. split; [done|exact Hp].
    - exists g. eexists. split; [done|]. eapply ticks_snd; [exact Ht0|by eapply Snd_frame| |done..].
      by apply snd_step_only. }
  match goal with |- context [ ?o ≫= _ ] => destruct (H1 o) as (g1 & s1 & -> & Ht1) end.
  { repeat case_decide; eauto 6. }
  clear H1. cbn [mbind option_bind]. pose proof Ht1 as (_ & Hs1 & _). pose proof Hs1 as (Hok1 & _).
  rewrite (sb_recvable _ _ _ _ _ Hok1). case_decide as Hrec.
  - set (s2 := s1 <| s_tick := _ |>). cbv zeta. change (s_ch s2) with (s_ch s1).
    rewrite (sb_index_rpos _ _ _ _ _ Hok1).
    destruct (ring_get_slot _ _ _ _ _ (sd_R g1) Hok1) as (p & Hp & _). rewrite Hp. cbn [mbind option_bind].
    assert (Ht2 : ticks q g s g1 s2) by (by eapply ticks_frame). pose proof Ht2 as (_ & Hs2 & _).
    set (last := if decide (t_ack_ts _ > 0) then _ else _).
    case_decide.
    { exists g1. do 2 eexists. split; [done|]. by apply ticks_lower. }
    case_decide.
    { exists g1. do 2 eexists. split; [done|]. destruct (t_timedout _); [done|by apply ticks_timedout]. }
    destruct (resend_first_spec e q g1 s2 (u64 (e_clock e (s_tick s1))) p Hs2)
      as (s3 & evs & b & -> & Hs3 & Hst3 & Hp3); [lia|exact Hp|].
    exists g1, s3, b. split; [done|]. by eapply ticks_snd.
  - case_decide; [|by exists g1, s1, false]. cbv zeta. set (s2 := s1 <| s_tick := _ |>).
    assert (Ht2 : ticks q g s g1 s2) by (by eapply ticks_frame).
    exists g1. do 2 eexists. split; [done|]. case_decide; [by apply ticks_timedout|done].
Qed.
