(* ===== verification/Protocol.v ===== *)
(** * Two peers and a network

    One peer has connected to another; between them is a network that loses,
    duplicates and reorders datagrams.  The peers run the handlers of
    [xnet/xmsger.c]; their clients queue messages and own the frames they have
    not queued or have got back.  The invariant ties both ends to the two
    streams, and the theorems say what the clients may rely on: messages arrive
    in order, once and unchanged, and one reported as delivered has arrived.

    Sequence numbers have 16 bits, so the code relies on a datagram not
    surviving the arrival of 2^15 later packets; [timely] says so with the
    history variables of an endpoint, which count packets without wrapping.  The
    steps of the system take what the network promises as a parameter; the
    guarantees are those of a network that keeps to [expected]. *)

From S2P Require Import Prelude Xline Channel Stream Sender Receiver Node.

(** ** The system *)

(** [n_W] packets cut, [n_R] acknowledged and [n_V] reassembled since the
    connection was made; [n_queued] the messages the client has queued. *)
Record endpoint := mkendpoint {
  n_st : st; n_open : bool; n_alive : bool;
  n_W : Z; n_R : Z; n_V : Z;
  n_queued : list (positive * gmsg);
}.

#[export] Instance eta_endpoint : Settable endpoint := fun r =>
  mkendpoint (n_st r) (n_open r) (n_alive r) (n_W r) (n_R r) (n_V r) (n_queued r).

(** A datagram of the peer [d_from], with the packet number its 16-bit sequence
    number and the count its acknowledgement stood for when it was sent. *)
Record dgram := mkdgram {
  d_from : bool; d_head : xhead; d_body : list Z; d_sn : Z; d_ack : Z;
}.

Record config := mkconfig { c_node : bool -> endpoint; c_net : list dgram }.

Definition update {A} (f : bool -> A) (side : bool) (x : A) : bool -> A :=
  fun b => if Bool.eqb b side then x else f b.

(** The head as the fields of its struct hold it. *)
Definition wire (h : xhead) : xhead :=
  mkhead (u16 (h_type h)) (u16 (h_sn h)) (u16 (h_resend h)) (u16 (a_type h)) (u16 (a_sn h))
    (u16 (a_pos h)) (u16 (h_cid h)) (u16 (h_len h)) (u16 (h_range h)).

(** The least number from [x] on, and the greatest up to [x], whose low 16 bits
    are [pos]. *)
Definition catch_up (x pos : Z) : Z := x + u16 (pos - x).
Definition latest (x pos : Z) : Z := x - u16 (x - pos).

(** An endpoint after a handler, and the datagrams the handler has sent. *)
Definition tracked (n : endpoint) (s : st) : endpoint :=
  if n_open n then
    n <| n_st := s |>
      <| n_W := catch_up (n_W n) (r_wpos (c_sendbuf (s_ch s))) |>
      <| n_R := catch_up (n_R n) (r_rpos (c_sendbuf (s_ch s))) |>
      <| n_V := catch_up (n_V n) (r_rpos (c_recvbuf (s_ch s))) |>
  else n <| n_st := s |>.

Definition stamped (side : bool) (n : endpoint) (evs : list event) : list dgram :=
  omap (fun ev => '(h, c) ← sent_of ev;
    Some (mkdgram side (wire h) c (latest (n_W n - 1) (h_sn h)) (latest (n_V n) (a_pos h)))) evs.

Definition after (c : config) (side : bool) (n : endpoint) : config :=
  mkconfig (update (c_node c) side n)
    (c_net c ++ stamped side n (drop (length (s_log (n_st (c_node c side)))) (s_log (n_st n)))).

(** The client's frames: those the messenger does not hold. *)
Definition owned (n : endpoint) (x : positive) : Prop :=
  ~ (x ∈ drop (length (omap to_peer_of (s_log (n_st n)))) ((n_queued n).*1))
  /\ (n_open n = true -> c_msg (s_ch (n_st n)) <> Some x).

(** The frame holds the message. *)
Definition holds (f : xframe) (m : gmsg) : Prop :=
  f_type f = m.1 /\ f_wpos f = Z.of_nat (length m.2) /\ firstn (length m.2) (f_buf f) = m.2.

(** The packet and the acknowledgement of a datagram, where it has one, are not
    older than 2^15 packets. *)
Definition timely (n : endpoint) (d : dgram) : Prop :=
  (h_type (d_head d) <> XPACK_TYPE_ACK -> n_V n - 2 ^ 15 <= d_sn d)
  /\ (a_type (d_head d) <> 0 \/ h_type (d_head d) = XPACK_TYPE_ACK -> n_R n - 2 ^ 15 <= d_ack d).

(** What [recvfrom] leaves in the packet buffer, and the check of its length. *)
Definition carries (p : xpack) (d : dgram) : Prop :=
  k_head p = d_head d /\ h_len (d_head d) = Z.of_nat (length (d_body d))
  /\ rd_range (k_body p) 0 (h_len (d_head d)) = Some (d_body d).

(** What the network promises about a datagram [d] that reaches the endpoint [n].
    An endpoint that has no channel answers a final datagram, one of type RES,
    with an acknowledgement of everything up to it ([xchannel_send_final]), as if
    it had been there; [expected] excludes that one delivery.  Without the
    promise, the sender takes packets for received that never were: see
    [final_ack_confirms_lost] in Delivery.v. *)
Definition expected (n : endpoint) (d : dgram) : Prop :=
  timely n d /\ (n_open n = false -> h_type (d_head d) <> XPACK_TYPE_RES).
Definition unrestricted (n : endpoint) (d : dgram) : Prop := True.

Section System.
Context (e : bool -> env) (allowed : endpoint -> dgram -> Prop).

(** The message loop on a datagram: the peer has a channel, or asks for one. *)
Definition deliver (side : bool) (p : xpack) (n : endpoint) : option (st * Z) :=
  if n_open n then recv_existing (e side) p (n_st n)
  else if decide (h_type (k_head p) = XPACK_TYPE_REQ) then recv_request (e side) p (n_st n)
  else if decide (h_type (k_head p) = XPACK_TYPE_RES) then
    s ← xchannel_send_final (e side) p (n_st n); Some (s, 0)
  else Some (n_st n, 0).

Definition opened (p : xpack) (n : endpoint) : bool :=
  n_open n || bool_decide (h_type (k_head p) = XPACK_TYPE_REQ).

Inductive step : config -> config -> Prop :=
| step_write c side x f :
    owned (c_node c side) x ->
    step c (mkconfig (update (c_node c) side
             ((c_node c side) <| n_st; s_frames := <[x := f]> (s_frames (n_st (c_node c side))) |>))
             (c_net c))
| step_send c side x f m s r :
    let n := c_node c side in
    n_open n = true -> n_alive n = true -> owned n x -> s_frames (n_st n) !! x = Some f ->
    holds f m -> msg_ok m -> xmsger_send x (n_st n) = Some (s, r) ->
    step c (after c side (tracked n s
             <| n_queued := n_queued n ++ (if decide (r = 0) then [(x, m)] else []) |>))
| step_deliver c side d p s r :
    let n := c_node c side in
    n_alive n = true -> d ∈ c_net c -> d_from d = negb side -> carries p d -> allowed n d ->
    deliver side p n = Some (s, r) ->
    step c (after c side (tracked (n <| n_open := opened p n |>) s
                            <| n_alive := bool_decide (r = 0) |>))
| step_tick c side s b :
    let n := c_node c side in
    n_open n = true -> n_alive n = true -> send_tick (e side) (n_st n) = Some (s, b) ->
    step c (after c side (tracked n s)).

(** At first one peer has a channel, the other one does not. *)
Record initial (c : config) : Prop := {
  in_net : c_net c = [];
  in_node : forall side, let n := c_node c side in
    n_open n = side /\ n_alive n = true /\ n_W n = 0 /\ n_R n = 0 /\ n_V n = 0
    /\ n_queued n = [] /\ s_log (n_st n) = [];
  in_channel : exists now, let c0 := xchannel_create now XPACK_SERIAL_RANGE in
    let s := n_st (c_node c true) in
    c_sendbuf (s_ch s) = c_sendbuf c0 /\ c_recvbuf (s_ch s) = c_recvbuf c0
    /\ c_msgbuf (s_ch s) = c_msgbuf c0 /\ c_msg (s_ch s) = None /\ psf s = 0
    /\ c_serial_range (s_ch s) = XPACK_SERIAL_RANGE
    /\ h_type (c_ack (s_ch s)) = XPACK_TYPE_ACK /\ a_type (c_ack (s_ch s)) = 0;
}.

Definition reachable (c : config) : Prop := exists c0, initial c0 /\ rtc step c0 c.
End System.

(** What the clients have sent, got, and been told has arrived. *)
Definition queued_msgs (n : endpoint) : list gmsg := (n_queued n).*2.
Definition delivered (n : endpoint) : list gmsg := omap from_peer_of (s_log (n_st n)).
Definition confirmed (n : endpoint) : list positive := omap to_peer_of (s_log (n_st n)).

(** ** The invariant *)

Record end_ok (q : bool) (ms : list gmsg) (g : sender) (v : receiver) (n : endpoint) : Prop := {
  eo_queued : sd_ids g = (n_queued n).*1 /\ sd_msgs g = (n_queued n).*2;
  eo_hist : n_W n = sd_W g /\ n_R n = sd_R g /\ n_V n = rv_Vr v;
  eo_open : n_open n = true ->
    Node q g ms v (n_st n) /\ (n_alive n = true -> idle v (n_st n));
  eo_closed : n_open n = false -> g = new_sender /\ v = new_receiver;
  eo_to : confirmed n = take (sd_acked g) (sd_ids g);
  eo_from : delivered n = take (rv_D v) ms;
}.

Definition dgram_ok (q : bool) (g : sender) (v : receiver) (d : dgram) : Prop :=
  wire_ok (d_head d) /\ d_ack d <= rv_Vr v /\ u16 (d_ack d) = a_pos (d_head d)
  /\ ((h_type (d_head d) = XPACK_TYPE_ACK /\ q = false)
      \/ (data_is (sd_msgs g) (d_sn d) (d_head d) (d_body d) /\ 0 <= d_sn d < sd_W g
          /\ (q = true -> a_type (d_head d) = 0 /\ a_pos (d_head d) = XPACK_SERIAL_RANGE))).

Definition inv_with (gs : bool -> sender) (vs : bool -> receiver) (c : config) : Prop :=
  n_open (c_node c true) = true /\
  forall side, let q := negb (n_open (c_node c (negb side))) in
    end_ok q (sd_msgs (gs (negb side))) (gs side) (vs side) (c_node c side)
    /\ sd_R (gs side) <= rv_Vr (vs (negb side))
    /\ Forall msg_ok (sd_msgs (gs side))
    /\ (forall d, d ∈ c_net c -> d_from d = side ->
          n_open (c_node c side) = true /\ dgram_ok q (gs side) (vs side) d).

Definition Inv (c : config) : Prop := exists gs vs, inv_with gs vs c.

(** ** Counters *)

Lemma catch_up_u16 x y : x <= y < x + 2 ^ 16 -> catch_up x (u16 y) = y.
Proof. intros H. unfold catch_up. rewrite u16_sub_l. rewrite u16_small; lia. Qed.

Lemma latest_u16 x y : x - 2 ^ 16 < y <= x -> latest x (u16 y) = y.
Proof. intros H. unfold latest. rewrite u16_sub_r. rewrite u16_small; lia. Qed.

Lemma latest_le x pos : latest x pos <= x.
Proof. unfold latest. pose proof (u16_range (x - pos)). lia. Qed.

Lemma u16_latest x pos : u16 (latest x pos) = u16 pos.
Proof. unfold latest. rewrite u16_sub_r. f_equal. lia. Qed.

Lemma data_is_wire ms i h c : Forall msg_ok ms -> data_is ms i h c -> data_is ms i (wire h) c.
Proof.
  intros Hms (k & r & m & Hl & Hsn & Ht & Hlen & Hr & ->). exists k, r, m. split; [done|].
  pose proof Hl as (Hm & Hr' & _). destruct (Forall_lookup_1 _ _ _ _ Hms Hm) as [Hty Hc].
  pose proof (chunk_length m r Hr'). unfold wire. simpl. rewrite Hsn, Ht, Hlen, Hr.
  split; [apply u16_small, u16_range|]. split; [|split; [|split; [|done]]]; apply u16_small.
  - unfold XPACK_TYPE_REQ, XPACK_TYPE_MSG, XPACK_TYPE_RES in *. lia.
  - unfold XBODY_SIZE in *. lia.
  - lia.
Qed.

(** ** Datagrams *)

Lemma dgram_ok_mono q q' g g' v v' d ext :
  dgram_ok q g v d -> sd_msgs g' = sd_msgs g ++ ext -> sd_W g <= sd_W g' -> rv_Vr v <= rv_Vr v' ->
  (q' = true -> q = true) -> dgram_ok q' g' v' d.
Proof.
  intros (Hw & Hle & Hu & Hd) Em HW HV Hq. split; [done|]. split; [lia|]. split; [done|].
  destruct Hd as [[Ht ->]|((k & r & m & Hl & H) & Hi & Ha)].
  - left. split; [done|]. destruct q'; [by discriminate Hq|done].
  - right. split; [|split; [lia|auto]]. exists k, r, m. rewrite Em. split; [by apply located_app|done].
Qed.

(** Datagrams sent by a handler are good. *)
Lemma stamped_ok q g g' v side n evs d :
  Forall msg_ok (sd_msgs g) -> sd_msgs g' = sd_msgs g ->
  Forall (sent_ok q (sd_msgs g) (sd_W g - XPACK_SERIAL_RANGE) (sd_W g')) evs ->
  n_W n = sd_W g' -> n_V n = rv_Vr v -> sd_W g' <= sd_W g + 2 ->
  d ∈ stamped side n evs -> d_from d = side /\ dgram_ok q g' v d.
Proof.
  intros Hms Em Hs HW HV Hlt Hd. unfold stamped in Hd. apply list_elem_of_omap in Hd as (ev & Hev & E).
  pose proof (proj1 (Forall_forall _ _) Hs ev Hev) as Hok. destruct ev as [h c| | |]; try done.
  simpl in E. injection E as <-. split; [done|]. unfold dgram_ok, wire_ok. simpl.
  split; [split; apply u16_range|]. split; [rewrite <- HV; apply latest_le|].
  split; [apply u16_latest|]. destruct Hok as [(Ht & -> & Hq)|(i & Hi & Hb & Hda & Ha)].
  - left. by rewrite Ht.
  - right. assert (Hsn : h_sn h = u16 i) by (destruct Hda as (k & r & m & _ & ? & _); done).
    rewrite Hsn, HW, latest_u16 by (unfold XPACK_SERIAL_RANGE in *; lia). rewrite Em.
    split; [by apply data_is_wire|]. split; [lia|]. intros ->.
    destruct Ha as [[Ht Hp]|[? _]]; [|done]. by rewrite Ht, Hp.
Qed.

(** ** Endpoints *)

Lemma end_ok_weaken q q' ms g v n :
  end_ok q ms g v n -> (q' = true -> q = true) -> end_ok q' ms g v n.
Proof.
  intros [H1 H2 H3 H4 H5 H6] Hq. split; try done. intros Ho. destruct (H3 Ho) as [HN Hid].
  split; [|done]. destruct q'; [by rewrite <- Hq|by eapply Node_weaken].
Qed.

Lemma rcv_ok_app ms m v rb cm fr : msg_ok m -> rcv_ok ms v rb cm fr -> rcv_ok (ms ++ [m]) v rb cm fr.
Proof.
  intros Hm H. pose proof (ro_assembly _ _ _ _ _ H) as Ha.
  destruct (ro_delivered _ _ _ _ _ H) as (D1 & D2 & D3). pose proof (ro_total _ _ _ _ _ H).
  pose proof (count_pos m) as Hc. pose proof (total_app ms [m]) as Ht. simpl in Ht.
  destruct (ro_order _ _ _ _ _ H). destruct H. split; try done.
  - lia.
  - apply Forall_app. split; [done|by constructor].
  - intros i Hi. destruct (ro_slots i Hi) as (o & Ho & Hp & Hn). exists o. split; [done|].
    split; [|done]. destruct Hp as [|(p & -> & c & (k & r & m' & Hl & Hd) & Hrd)]; [by left|right].
    exists p. split; [done|]. exists c. split; [|done]. exists k, r, m'. split; [by apply located_app|done].
  - rewrite off_app by lia. split; [done|]. split; [|rewrite length_app; lia]. intros _.
    destruct (decide (rv_D v < length ms)%nat).
    + rewrite off_app by lia. auto.
    + rewrite off_all by (rewrite length_app; simpl; lia). lia.
  - unfold assembly_ok in Ha |- *. rewrite off_app by lia. destruct (decide _); [done|].
    destruct Ha as (x & m' & f & Hx & Hm' & Hr). exists x, m', f. split; [done|].
    split; [by apply lookup_app_l_Some|done].
Qed.

Lemma end_ok_app q ms m g v n : msg_ok m -> (rv_D v <= length ms)%nat ->
  end_ok q ms g v n -> end_ok q (ms ++ [m]) g v n.
Proof.
  intros Hm HD [H1 H2 H3 H4 H5 H6]. split; try done.
  - intros Ho. destruct (H3 Ho) as [(HS & HR & Hd) Hid]. split; [|done]. split; [done|].
    split; [by apply rcv_ok_app|done].
  - by rewrite take_app_le.
Qed.

Lemma owned_not_in_flight q ms g v n x :
  end_ok q ms g v n -> (sd_acked g <= length (sd_ids g))%nat -> owned n x -> ~ in_flight g x.
Proof.
  intros [[E1 E2] _ _ _ H5 _] Hle [Hx _] (k & Hk & Hkx). apply Hx. unfold confirmed in H5.
  rewrite H5, length_take, <- E1. apply list_elem_of_lookup. exists (k - sd_acked g)%nat.
  rewrite lookup_drop. rewrite <- Hkx. f_equal. lia.
Qed.

Lemma take_more {A} (l : list A) a b :
  (a <= b)%nat -> take a l ++ take (b - a) (drop a l) = take b l.
Proof. intros H. rewrite take_take_drop. f_equal. lia. Qed.

Lemma node_step_from q g ms v s s0 g' v' s' evs :
  s_log s0 = s_log s -> node_step q g ms v s0 g' v' s' evs -> node_step q g ms v s g' v' s' evs.
Proof. intros E []. split; try done. by rewrite <- E. Qed.

(** The endpoint after a handler. *)
Lemma end_ok_step q0 q ms g v n g' v' s evs alive :
  end_ok q0 ms g v n -> Node q g' ms v' s -> node_step q g ms v (n_st n) g' v' s evs ->
  sd_W g <= sd_R g + XPACK_SERIAL_RANGE -> sd_W g' <= sd_W g + 2 ->
  rv_Vr v' <= rv_Vr v + XPACK_SERIAL_RANGE -> (alive = true -> idle v' s) ->
  end_ok q ms g' v' (tracked (n <| n_open := true |>) s <| n_alive := alive |>).
Proof.
  intros [[E1 E2] (W0 & R0 & V0) _ _ H5 H6] HN [[Em Ei] SR SW SA SV SD SL SS ST SF] HWR HW HV Hal.
  pose proof HN as ((Hok & _) & Hr & _). destruct (so_order _ _ _ _ _ Hok) as [O1 O2].
  split; simpl; try done.
  - by rewrite Ei, Em, E1, E2.
  - rewrite (so_wpos _ _ _ _ _ Hok), (so_rpos _ _ _ _ _ Hok), (ro_rpos _ _ _ _ _ Hr), W0, R0, V0.
    unfold XPACK_SERIAL_RANGE in *. rewrite !catch_up_u16 by lia. done.
  - unfold confirmed in *. simpl. rewrite SL, omap_app, H5, ST, Ei. by apply take_more.
  - unfold delivered in *. simpl. rewrite SL, omap_app, H6, SF. by apply take_more.
Qed.

Lemma update_same {A} (f : bool -> A) side x : update f side x side = x.
Proof. unfold update. by rewrite eqb_reflx. Qed.
Lemma update_other {A} (f : bool -> A) side x : update f side x (negb side) = f (negb side).
Proof. unfold update. by destruct side. Qed.

(** One endpoint moves on; the other one sees no more than that it is open. *)
Lemma inv_after c side n' g' v' evs gs vs :
  inv_with gs vs c ->
  let q := negb (n_open (c_node c (negb side))) in
  (n_open (c_node c side) = true -> n_open n' = true) -> evs = [] \/ n_open n' = true ->
  sd_msgs g' = sd_msgs (gs side) ->
  end_ok q (sd_msgs (gs (negb side))) g' v' n' ->
  sd_R g' <= rv_Vr (vs (negb side)) -> rv_Vr (vs side) <= rv_Vr v' ->
  sd_W (gs side) <= sd_W g' <= sd_W (gs side) + 2 ->
  s_log (n_st n') = s_log (n_st (c_node c side)) ++ evs ->
  Forall (sent_ok q (sd_msgs (gs side)) (sd_W (gs side) - XPACK_SERIAL_RANGE) (sd_W g')) evs ->
  Inv (after c side n').
Proof.
  intros [Hopen Hinv] q Ho Hevs Em He HR HV HW Hl Hs.
  exists (update gs side g'), (update vs side v'). split.
  { unfold after. simpl. unfold update. destruct side; simpl; auto. }
  unfold after. rewrite Hl, drop_app_length. intros sd. simpl.
  destruct (Hinv side) as (I1 & I2 & I3 & I4), (Hinv (negb side)) as (J1 & J2 & J3 & J4).
  rewrite negb_involutive in *. destruct (decide (sd = side)) as [->|Hne].
  - rewrite !update_same, !update_other. split; [done|]. split; [done|].
    split; [by rewrite Em|]. intros d [Hd|Hd]%elem_of_app Hf.
    + destruct (I4 d Hd Hf) as [Ho1 Hok]. split; [auto|]. eapply (dgram_ok_mono _ _ _ _ _ _ _ []); try done; [|lia].
      by rewrite app_nil_r.
    + destruct Hevs as [->|Ho']; [by apply not_elem_of_nil in Hd|]. split; [done|].
      destruct He as [_ (H1 & _ & H3) _ _ _ _]. apply (stamped_ok q (gs side) g' v' side n' evs d); try done; lia.
  - assert (sd = negb side) as -> by (by destruct sd, side). rewrite negb_involutive.
    rewrite !update_same, !update_other. rewrite Em.
    assert (Hq : negb (n_open n') = true -> negb (n_open (c_node c side)) = true).
    { destruct (n_open (c_node c side)); [by rewrite Ho|done]. }
    split; [by eapply end_ok_weaken|]. split; [lia|]. split; [done|].
    intros d [Hd|Hd]%elem_of_app Hf.
    + destruct (J4 d Hd Hf) as [? Hok]. split; [done|].
      eapply (dgram_ok_mono _ _ _ _ _ _ _ []); try done; [by rewrite app_nil_r].
    + exfalso. unfold stamped in Hd. apply list_elem_of_omap in Hd as (ev & _ & E).
      destruct ev; try done. simpl in E. injection E as <-. simpl in Hf. by destruct side.
Qed.

(** ** The invariant holds at first *)

Lemma inv_initial c : initial c -> Inv c.
Proof.
  intros [Hnet Hnode (now & H1 & H2 & H3 & H4 & _ & H6 & H7 & H8)].
  exists (fun _ => new_sender), (fun _ => new_receiver). split; [apply (Hnode true)|].
  intros side. destruct (Hnode side) as (N1 & N2 & N3 & N4 & N5 & N6 & N7).
  split; [|split; [done|split; [by constructor|]]].
  - split; try done.
    + by rewrite N6.
    + intros Ho. rewrite N1 in Ho. subst side.
      destruct (create_ok (negb (n_open (c_node c (negb true)))) [] now (s_frames (n_st (c_node c true))))
        as (Hs & Hr & Hset); [by constructor|].
      split.
      * split; [|split].
        -- split; [by rewrite H1, H3|]. done.
        -- unfold Rcv. by rewrite H2, H4.
        -- intros x E. congruence.
      * intros _. split; [done|]. by rewrite H2.
    + unfold confirmed. by rewrite N7.
    + unfold delivered. by rewrite N7.
  - rewrite Hnet. intros d Hd. by apply not_elem_of_nil in Hd.
Qed.

(** ** The clients' steps *)

Lemma acked_le q ms g v n : end_ok q ms g v n -> (sd_acked g <= length (sd_ids g))%nat.
Proof.
  intros [_ _ H3 H4 _ _]. destruct (n_open n).
  - destruct (H3 eq_refl) as [((Hok & _) & _) _]. rewrite (so_ids _ _ _ _ _ Hok).
    destruct (so_morder _ _ _ _ _ Hok). lia.
  - by destruct (H4 eq_refl) as [-> _].
Qed.

Lemma D_le q ms g v n : end_ok q ms g v n -> (rv_D v <= length ms)%nat.
Proof.
  intros [_ _ H3 H4 _ _]. destruct (n_open n).
  - destruct (H3 eq_refl) as [(_ & Hr & _) _]. by destruct (ro_delivered _ _ _ _ _ Hr) as (_ & _ & ?).
  - destruct (H4 eq_refl) as [_ ->]. simpl. lia.
Qed.

Lemma end_ok_write q ms g v n x f :
  end_ok q ms g v n -> owned n x ->
  end_ok q ms g v (n <| n_st; s_frames := <[x := f]> (s_frames (n_st n)) |>).
Proof.
  intros H Hx. pose proof (owned_not_in_flight _ _ _ _ _ _ H (acked_le _ _ _ _ _ H) Hx) as Hnf.
  destruct Hx as [_ Hcm]. destruct H as [H1 H2 H3 H4 H5 H6]. split; try done.
  simpl. intros Ho. destruct (H3 Ho) as [((Hok & Hs) & Hr & Hd) Hid]. specialize (Hcm Ho).
  split; [|done]. split; [|split; [|done]].
  - split; [|done]. eapply snd_ok_frames; [done|]. intros y Hy. apply lookup_insert_ne. by intros ->.
  - eapply rcv_ok_frames; [done|]. intros y Hy. apply lookup_insert_ne. by intros ->.
Qed.

Lemma inv_write c side x f :
  Inv c -> owned (c_node c side) x ->
  Inv (mkconfig (update (c_node c) side
        ((c_node c side) <| n_st; s_frames := <[x := f]> (s_frames (n_st (c_node c side))) |>))
        (c_net c)).
Proof.
  intros (gs & vs & Ho & H) Hx.
  assert (Hopen : forall sd, n_open (update (c_node c) side
    ((c_node c side) <| n_st; s_frames := <[x := f]> (s_frames (n_st (c_node c side))) |>) sd)
    = n_open (c_node c sd)).
  { intros sd. destruct (decide (sd = side)) as [->|Hne]; [by rewrite update_same|].
    assert (sd = negb side) as -> by (by destruct sd, side). by rewrite update_other. }
  exists gs, vs. split; [simpl; by rewrite Hopen|]. intros sd. simpl. rewrite !Hopen.
  destruct (H sd) as (I1 & I2). split; [|done].
  destruct (decide (sd = side)) as [->|Hne]; [rewrite update_same; by apply end_ok_write|].
  assert (sd = negb side) as -> by (by destruct sd, side). by rewrite update_other.
Qed.

Lemma tracked_open n s :
  n_open n = true -> tracked n s = tracked (n <| n_open := true |>) s <| n_alive := n_alive n |>.
Proof. intros H. destruct n. simpl in H. by subst. Qed.

Lemma in_flight_queued g m x y :
  length (sd_ids g) = length (sd_msgs g) -> in_flight (queued g m x) y -> in_flight g y \/ y = x.
Proof.
  intros Hl (k & Hk & Hy). simpl in *. apply lookup_app_Some in Hy as [Hy|[_ Hy]]; [left; by exists k|].
  right. apply list_lookup_singleton_Some in Hy as [_ ?]. done.
Qed.

Lemma Node_queued q ms g v s s' m x :
  Node q g ms v s -> Snd q (queued g m x) s' -> c_recvbuf (s_ch s') = c_recvbuf (s_ch s) ->
  c_msg (s_ch s') = c_msg (s_ch s) -> c_msg (s_ch s) <> Some x ->
  (forall y, y <> x -> s_frames s' !! y = s_frames s !! y) -> Node q (queued g m x) ms v s'.
Proof.
  intros (Hs & Hr & Hd) Hs' E1 E2 Hx Hf. pose proof Hs as (Hok & _). split; [done|]. split.
  - unfold Rcv. rewrite E1, E2. eapply rcv_ok_frames; [done|]. intros y Hy. apply Hf. by intros ->.
  - rewrite E2. intros y Hy Hin. apply in_flight_queued in Hin as [Hin| ->];
      [by apply (Hd y)|done|apply (so_ids _ _ _ _ _ Hok)].
Qed.

(** The endpoint after its client has queued a message. *)
Lemma end_ok_send q ms g v n m x s :
  end_ok q ms g v n -> n_open n = true -> (sd_acked g <= length (sd_ids g))%nat ->
  Snd q (queued g m x) s -> Node q (queued g m x) ms v s ->
  c_recvbuf (s_ch s) = c_recvbuf (s_ch (n_st n)) -> s_log s = s_log (n_st n) ->
  sd_W g <= sd_R g + XPACK_SERIAL_RANGE ->
  end_ok q ms (queued g m x) v (tracked n s <| n_queued := n_queued n ++ [(x, m)] |>).
Proof.
  intros [[E1 E2] (W0 & R0 & V0) H3 H4 H5 H6] Ho Hle (Hok & _) HN Erb El HW.
  destruct (H3 Ho) as [(_ & Hr & _) Hid]. unfold tracked. rewrite Ho. split; simpl.
  - by rewrite !fmap_app, E1, E2.
  - rewrite (so_wpos _ _ _ _ _ Hok), (so_rpos _ _ _ _ _ Hok), Erb, (ro_rpos _ _ _ _ _ Hr), W0, R0, V0.
    simpl. unfold XPACK_SERIAL_RANGE in *. rewrite !catch_up_u16 by lia. done.
  - intros _. split; [done|]. intros Ha. destruct (Hid Ha) as [? Hset]. split; [done|]. by rewrite Erb.
  - congruence.
  - unfold confirmed in *. simpl. rewrite El, H5. by rewrite take_app_le by lia.
  - unfold delivered in *. simpl. by rewrite El.
Qed.

Lemma inv_send c side x f m s r :
  let n := c_node c side in
  Inv c -> n_open n = true -> owned n x -> s_frames (n_st n) !! x = Some f ->
  holds f m -> msg_ok m -> xmsger_send x (n_st n) = Some (s, r) ->
  Inv (after c side (tracked n s
         <| n_queued := n_queued n ++ (if decide (r = 0) then [(x, m)] else []) |>)).
Proof.
  intros n (gs & vs & Hinv) Ho Hx Hf (F1 & F2 & F3) Hm E. pose proof Hinv as [Hopen Hside].
  destruct (Hside side) as (I1 & I2 & I3 & I4), (Hside (negb side)) as (J1 & J2 & J3 & J4).
  rewrite negb_involutive in *. fold n in I1, I4, J1, J4.
  pose proof (owned_not_in_flight _ _ _ _ _ _ I1 (acked_le _ _ _ _ _ I1) Hx) as Hnf.
  destruct (eo_open _ _ _ _ _ I1 Ho) as [HN Hid]. pose proof HN as (HS & HR & Hd).
  pose proof HS as (Hok & _). destruct (so_order _ _ _ _ _ Hok) as [O1 O2].
  destruct (xmsger_send_spec _ _ _ m x f HS Hm Hnf Hf F1 F2 F3)
    as (s' & r' & E' & Hres & El & Erb & Ecm & _ & Hfr & _). rewrite E in E'. injection E' as <- <-.
  destruct Hres as [[-> HS']|[-> ->]].
  - rewrite decide_True by done.
    assert (HN' : Node (negb (n_open (c_node c (negb side)))) (queued (gs side) m x) (sd_msgs (gs (negb side))) (vs side) s)
      by (eapply Node_queued; try done; by apply Hx).
    pose proof (end_ok_send _ _ _ _ _ m x s I1 Ho (acked_le _ _ _ _ _ I1) HS' HN' Erb El ltac:(lia)) as He.
    set (n' := _ <| n_queued := _ |>) in *.
    assert (Ho' : n_open n' = true) by (unfold n', tracked; by rewrite Ho).
    assert (El' : s_log (n_st n') = s_log (n_st n)) by (unfold n', tracked; by rewrite Ho).
    exists (update gs side (queued (gs side) m x)), vs. unfold after. fold n. rewrite El', drop_all, app_nil_r.
    split; [simpl; unfold update; by destruct (Bool.eqb _ _)|]. intros sd. simpl.
    destruct (decide (sd = side)) as [->|Hne].
    + rewrite !update_same, !update_other. split; [done|]. split; [done|]. split.
      { simpl. apply Forall_app. split; [done|by constructor]. }
      intros d Hd' Hf'. destruct (I4 d Hd' Hf') as [_ Hdok]. split; [done|].
      by eapply (dgram_ok_mono _ _ _ _ _ _ _ [m]).
    + assert (sd = negb side) as -> by (by destruct sd, side). rewrite negb_involutive.
      rewrite !update_same, !update_other, Ho'. rewrite Ho in J1, J4. simpl.
      split; [|done]. apply end_ok_app; [done|by eapply D_le|done].
  - rewrite decide_False, app_nil_r by done.
    replace (tracked n (n_st n) <| n_queued := n_queued n |>) with (tracked n (n_st n))
      by (unfold tracked; rewrite Ho; by destruct n).
    apply (inv_after c side _ (gs side) (vs side) [] gs vs Hinv); try done; try lia.
    + intros _. unfold tracked. by rewrite Ho.
    + by left.
    + rewrite tracked_open by done. apply (end_ok_step (negb (n_open (c_node c (negb side)))) _ _ (gs side) (vs side) n _ _ _ []); try done; try lia.
      * by apply node_step_silent.
    + unfold tracked. rewrite Ho. simpl. by rewrite app_nil_r.
Qed.

(** ** The messenger's steps *)

Lemma inv_tick (e : bool -> env) c side s b :
  let n := c_node c side in
  Inv c -> n_open n = true -> n_alive n = true -> send_tick (e side) (n_st n) = Some (s, b) ->
  Inv (after c side (tracked n s)).
Proof.
  intros n (gs & vs & Hinv) Ho Ha E. pose proof Hinv as [Hopen Hside].
  destruct (Hside side) as (I1 & I2 & I3 & I4). fold n in I1, I4.
  destruct (eo_open _ _ _ _ _ I1 Ho) as [HN Hid]. pose proof HN as (HS & HR & Hd). specialize (Hid Ha).
  pose proof HS as (Hok & _). destruct (so_order _ _ _ _ _ Hok) as [O1 O2].
  destruct (send_tick_spec (e side) _ _ _ HS) as (g' & s' & b' & E' & evs & HS' & Hst & ER & EW & _).
  rewrite E in E'. injection E' as <- <-. pose proof Hst as [[Em Ei] _ SW _ SL SS _ _ _ _ _].
  apply (inv_after c side _ g' (vs side) evs gs vs Hinv); try done; try lia.
  - intros _. unfold tracked. by rewrite Ho.
  - right. unfold tracked. by rewrite Ho.
  - rewrite tracked_open, Ha by done.
    apply (end_ok_step (negb (n_open (c_node c (negb side)))) _ _ (gs side) (vs side) n _ _ _ evs);
      try done; try lia.
    + by eapply Node_snd.
    + by apply node_step_snd.
    + intros _. by eapply idle_snd.
  - unfold tracked. rewrite Ho. simpl. done.
Qed.

(** An acknowledgement read in time moves [rpos] to where the peer is, or not
    at all. *)
Lemma acked_by_le g P g' h V :
  sd_S g <= sd_R g + XPACK_SERIAL_RANGE -> sd_R g <= V -> P <= V ->
  (a_type h <> 0 \/ h_type h = XPACK_TYPE_ACK -> sd_R g - 2 ^ 15 <= P) ->
  u16 P = a_pos h -> acked_by h g g' -> sd_R g' <= V.
Proof.
  intros HS HR HP Ht Hu [->|[Ha ->]]; [done|]. specialize (Ht Ha). unfold ack_target. rewrite <- Hu.
  case_decide as Hc; [|done]. rewrite u16_sub_l in *.
  destruct (decide (P < sd_R g)) as [Hlt|Hge].
  - exfalso. revert Hc. unfold u16, wrap, XPACK_SERIAL_RANGE in *.
    rewrite <- (Z.mod_unique_pos (P - sd_R g) (2 ^ 16) (-1) (P - sd_R g + 2 ^ 16)); lia.
  - assert (u16 (P - sd_R g) <= P - sd_R g) by (unfold u16, wrap; apply Z.mod_le; lia). lia.
Qed.

(** What a datagram does to the endpoint it is delivered to. *)
Definition delivered_ok (gs : bool -> sender) (vs : bool -> receiver) (side : bool) (n : endpoint)
    (p : xpack) (res : st * Z) : Prop :=
  (opened p n = true /\ exists g' v' evs,
     Node false g' (sd_msgs (gs (negb side))) v' res.1
     /\ node_step false (gs side) (sd_msgs (gs (negb side))) (vs side) (n_st n) g' v' res.1 evs
     /\ sd_R g' <= rv_Vr (vs (negb side)) /\ sd_W g' <= sd_W (gs side) + 2
     /\ rv_Vr v' <= rv_Vr (vs side) + XPACK_SERIAL_RANGE
     /\ (res.2 = 0 /\ idle v' res.1 \/ res.2 = -1))
  \/ (opened p n = false /\ res = (n_st n, 0)).

Lemma deliver_open_spec (e : bool -> env) gs vs c side d p :
  let n := c_node c side in
  inv_with gs vs c -> env_ok (e side) -> n_open n = true -> n_alive n = true ->
  d ∈ c_net c -> d_from d = negb side -> carries p d -> timely n d ->
  runs (XPACK_SERIAL_RANGE + 1) (n_st n) (deliver e side p n) (delivered_ok gs vs side n p).
Proof.
  intros n Hinv He Ho Ha Hd Hf (Hk & Hlen & Hb) [T1 T2]. pose proof Hinv as [Hopen Hside].
  destruct (Hside side) as (I1 & I2 & I3 & I4), (Hside (negb side)) as (J1 & J2 & J3 & J4).
  rewrite negb_involutive in *. fold n in I1, I4, J1, J4.
  destruct (J4 d Hd Hf) as [Ho2 (Dw & Dle & Du & Dd)]. rewrite Ho2 in I1. simpl in I1.
  destruct (eo_open _ _ _ _ _ I1 Ho) as [HN Hid]. specialize (Hid Ha). pose proof HN as ((Hok & _) & _).
  destruct (so_order _ _ _ _ _ Hok) as [O1 O2]. destruct (eo_hist _ _ _ _ _ I1) as (W0 & R0 & V0).
  destruct (eo_open _ _ _ _ _ J1 Ho2) as [((Hok2 & _) & _) _]. destruct (so_order _ _ _ _ _ Hok2) as [P1 P2].
  unfold deliver. rewrite Ho. pose proof Hid as [Hi _].
  eapply runs_mono; [apply (existing_spec (e side) _ _ _ _ p He HN Hid)|].
  - by rewrite Hk.
  - rewrite Hk. destruct Dd as [[Ht _]|(Hda & Hr & _)]; [by left|right]. exists (d_sn d). split.
    + exists (d_body d). by rewrite Hk.
    + assert (h_type (d_head d) <> XPACK_TYPE_ACK) as Hna; [|specialize (T1 Hna); lia].
      destruct Hda as (k & r & m & (Hm & _) & _ & -> & _). by eapply msg_ok_bound.
  - intros [s r] (g' & v' & evs & H1 & H2 & H3 & H4 & H5 & [_ H6] & _). left.
    unfold opened. rewrite Ho. split; [done|]. exists g', v', evs. do 2 (split; [done|]).
    split; [|split; [done|split; [simpl in *; lia|done]]].
    rewrite Hk in H3. eapply (acked_by_le (gs side) (d_ack d) g' (d_head d)); try done; try lia.
Qed.

Lemma deliver_closed_spec (e : bool -> env) gs vs c side d p :
  let n := c_node c side in
  inv_with gs vs c -> env_ok (e side) -> n_open n = false ->
  d ∈ c_net c -> d_from d = negb side -> carries p d -> timely n d ->
  h_type (d_head d) <> XPACK_TYPE_RES ->
  exists res, deliver e side p n = Some res /\ delivered_ok gs vs side n p res.
Proof.
  intros n Hinv He Ho Hd Hf (Hk & Hlen & Hb) [T1 T2] Hres. pose proof Hinv as [Hopen Hside].
  destruct (Hside side) as (I1 & I2 & I3 & I4), (Hside (negb side)) as (J1 & J2 & J3 & J4).
  rewrite negb_involutive in *. fold n in I1, I4, J1, J4.
  destruct (J4 d Hd Hf) as [Ho2 (Dw & Dle & Du & Dd)]. rewrite Ho in J1, Dd. simpl in J1, Dd.
  destruct (eo_open _ _ _ _ _ J1 Ho2) as [((Hok2 & _) & _) _]. destruct (so_order _ _ _ _ _ Hok2) as [P1 P2].
  destruct (eo_closed _ _ _ _ _ I1 Ho) as [Eg Ev].
  unfold deliver, delivered_ok, opened. rewrite Ho, Hk. simpl. case_decide as Hreq.
  2:{ rewrite decide_False by done. eexists. split; [done|]. right. by rewrite bool_decide_false. }
  rewrite bool_decide_true by done.
  destruct Dd as [[Ht _]|(Hda & Hr & Ha)]; [by rewrite Ht in Hreq|]. destruct (Ha eq_refl) as [Ha1 Ha2].
  destruct (request_spec (e side) (sd_msgs (gs (negb side))) (n_st n) (d_sn d) p) as (s0 & Hp0 & Hl0 & Hrun);
    try done; try (by rewrite Hk).
  { exists (d_body d). by rewrite Hk. }
  { rewrite Ev in J2. simpl in J2. lia. }
  destruct (recv_request (e side) p (n_st n)) as [[s r]|]; simpl in Hrun.
  2:{ exfalso. apply Hrun. unfold psf_room. rewrite Hp0. unfold XPACK_SERIAL_RANGE, XPACK_PSF_SAMPLING. lia. }
  exists (s, r). split; [done|]. left. split; [done|].
  destruct Hrun as (g' & v' & evs & H1 & H2 & H3 & H4 & H5 & [_ H6] & _).
  exists g', v', evs. rewrite Eg, Ev. split; [done|]. split; [by eapply node_step_from|].
  split; [|done]. unfold acked_by in H3. rewrite Hk, Ha1 in H3.
  destruct H3 as [->|[[?|Ht] _]]; [rewrite Eg in I2; exact I2|done|by rewrite Ht in Hreq].
Qed.

Lemma inv_deliver (e : bool -> env) c side d p s r :
  let n := c_node c side in
  Inv c -> env_ok (e side) -> n_alive n = true -> d ∈ c_net c -> d_from d = negb side ->
  carries p d -> expected n d ->
  deliver e side p n = Some (s, r) ->
  Inv (after c side (tracked (n <| n_open := opened p n |>) s <| n_alive := bool_decide (r = 0) |>)).
Proof.
  intros n (gs & vs & Hinv) He Ha Hd Hf Hc [Ht Hres] E. pose proof Hinv as [Hopen Hside].
  assert (Hok : delivered_ok gs vs side n p (s, r)).
  { destruct (n_open n) eqn:Ho.
    - pose proof (deliver_open_spec e gs vs c side d p Hinv He Ho Ha Hd Hf Hc Ht) as Hr.
      fold n in Hr. by rewrite E in Hr.
    - destruct (deliver_closed_spec e gs vs c side d p Hinv He Ho Hd Hf Hc Ht (Hres eq_refl)) as (res & E' & Hr).
      fold n in E', Hr. rewrite E in E'. by injection E' as <-. }
  destruct (Hside side) as (I1 & I2 & I3 & I4), (Hside (negb side)) as (J1 & J2 & J3 & J4).
  rewrite negb_involutive in *. fold n in I1, I4, J1, J4. destruct (J4 d Hd Hf) as [Ho2 _].
  rewrite Ho2 in I1. simpl in I1.
  assert (HW : sd_W (gs side) <= sd_R (gs side) + XPACK_SERIAL_RANGE).
  { destruct (n_open n) eqn:Ho.
    - destruct (eo_open _ _ _ _ _ I1 Ho) as [((Hok' & _) & _) _]. destruct (so_order _ _ _ _ _ Hok'). lia.
    - destruct (eo_closed _ _ _ _ _ I1 Ho) as [-> _]. simpl. unfold XPACK_SERIAL_RANGE. lia. }
  destruct Hok as [(-> & g' & v' & evs & H1 & H2 & H3 & H4 & H5 & H6)|[Ho [= -> ->]]].
  - pose proof H2 as [[Em Ei] _ SW _ SV _ SL SS _ _].
    apply (inv_after c side _ g' v' evs gs vs Hinv); rewrite ?Ho2; try done; try lia.
    + by right.
    + by apply (end_ok_step false _ _ (gs side) (vs side) n _ _ _ evs); try done;
        intros Hr; apply bool_decide_eq_true in Hr; destruct H6 as [[_ ?]|?]; [|simpl in *; lia].
  - assert (Hno : n_open n = false) by (unfold opened in Ho; by destruct (n_open n)).
    rewrite Ho. unfold tracked. simpl.
    apply (inv_after c side _ (gs side) (vs side) [] gs vs Hinv); rewrite ?Ho2; try done; try lia.
    + fold n. by rewrite Hno.
    + by left.
    + destruct I1 as [K1 K2 K3 K4 K5 K6]. split; try done. intros _. by apply K4.
    + simpl. by rewrite app_nil_r.
Qed.

Lemma inv_step (e : bool -> env) c c' : (forall side, env_ok (e side)) -> step e expected c c' -> Inv c -> Inv c'.
Proof.
  intros He [] Hinv.
  - by apply inv_write.
  - by eapply inv_send.
  - by eapply inv_deliver.
  - by eapply inv_tick.
Qed.

Lemma inv_reachable (e : bool -> env) c : (forall side, env_ok (e side)) -> reachable e expected c -> Inv c.
Proof.
  intros He (c0 & Hi & Hs). apply inv_initial in Hi. induction Hs as [|c1 c2 c3 H1 _ IH]; [done|].
  apply IH. by eapply inv_step.
Qed.
