(* ===== verification/Delivery.v ===== *)
(** * What the clients of a channel may rely on

    The guarantees of the protocol of Protocol.v in the clients' terms: what is
    delivered is a prefix of what was sent, what is confirmed has been
    delivered, the windows and queues are bounded, and no handler runs into
    undefined behaviour.  All of them are about executions over a network that
    loses, duplicates and reorders datagrams but keeps to [expected]: a datagram
    arrives before 2^15 later packets, the range in which serial numbers can be
    compared, and a final datagram (type RES) does not arrive at an end that has
    no channel.  The code does not enforce the latter, and
    [final_ack_confirms_lost] shows what it loses then.  A concrete run shows
    that the hypotheses of the theorems can hold and that messages do arrive. *)

From S2P Require Import Prelude Xline Channel Stream Sender Receiver Node Protocol.

(** ** A concrete run *)

(** A clock that advances by a millisecond per reading, a network that takes
    every datagram and a [malloc] that always succeeds. *)
Definition demo_frame (bs : list Z) (ty : Z) : xframe :=
  mkframe 1 ty 0 0 0 0 (Z.of_nat (length bs)) (Z.of_nat (length bs)) [] bs.

Definition demo_env : env := mkenv
  (fun n => 1000000000 + 1000000 * Z.of_nat (S n))
  (fun _ => true)
  (fun _ size => if decide (0 <= size) then Some (demo_frame (replicate (Z.to_nat size) 0) 0) else None)
  (fun _ => 0).

Definition demo_msg : gmsg := (XPACK_TYPE_REQ, [7; 8; 9]).

Definition demo_st : st :=
  mkst (xchannel_create 1000000000 XPACK_SERIAL_RANGE) {[ 1%positive := demo_frame [7; 8; 9] XPACK_TYPE_REQ ]}
    (mkmsger 0 0 0) 0 [].

Definition demo_start : config :=
  mkconfig (fun side => mkendpoint demo_st side true 0 0 0 []) [].

(** The moves of a run, for states in which they do not fault. *)
Definition queue_move (side : bool) (x : positive) (m : gmsg) (c : config) : config :=
  match xmsger_send x (n_st (c_node c side)) with
  | Some (s, r) => after c side (tracked (c_node c side) s
      <| n_queued := n_queued (c_node c side) ++ (if decide (r = 0) then [(x, m)] else []) |>)
  | None => c
  end.

Definition tick_move (side : bool) (c : config) : config :=
  match send_tick demo_env (n_st (c_node c side)) with
  | Some (s, _) => after c side (tracked (c_node c side) s)
  | None => c
  end.

Definition pack_of (d : dgram) : xpack := mkpack 0 0 0 None (d_head d) (d_body d).

Definition deliver_move (side : bool) (k : nat) (c : config) : config :=
  match c_net c !! k with
  | Some d =>
      let n := c_node c side in
      match deliver (fun _ => demo_env) side (pack_of d) n with
      | Some (s, r) => after c side (tracked (n <| n_open := opened (pack_of d) n |>) s
                                       <| n_alive := bool_decide (r = 0) |>)
      | None => c
      end
  | None => c
  end.

Definition demo_queued : config := queue_move true 1 demo_msg demo_start.
Definition demo_sent : config := tick_move true demo_queued.
Definition demo_arrived : config := deliver_move false 0 demo_sent.
Definition demo_confirmed : config := deliver_move true 1 demo_arrived.

(** ** The moves of a run are steps *)

Lemma demo_env_ok : env_ok demo_env.
Proof.
  intros n size f H. simpl in H. case_decide; [|done]. injection H as <-. simpl.
  rewrite length_replicate. lia.
Qed.

Lemma queue_move_step e side x f m c :
  n_open (c_node c side) = true -> n_alive (c_node c side) = true -> owned (c_node c side) x ->
  s_frames (n_st (c_node c side)) !! x = Some f -> holds f m -> msg_ok m ->
  is_Some (xmsger_send x (n_st (c_node c side))) -> step e expected c (queue_move side x m c).
Proof.
  intros Ho Ha Hx Hf Hh Hm [[s r] E]. unfold queue_move. rewrite E. by eapply step_send.
Qed.

Lemma tick_move_step side c :
  n_open (c_node c side) = true -> n_alive (c_node c side) = true ->
  is_Some (send_tick demo_env (n_st (c_node c side))) -> step (fun _ => demo_env) expected c (tick_move side c).
Proof.
  intros Ho Ha [[s b] E]. unfold tick_move. rewrite E. by eapply (step_tick (fun _ => demo_env) expected).
Qed.

Lemma deliver_move_step side k d c :
  n_alive (c_node c side) = true -> c_net c !! k = Some d -> d_from d = negb side ->
  h_len (d_head d) = Z.of_nat (length (d_body d)) -> expected (c_node c side) d ->
  is_Some (deliver (fun _ => demo_env) side (pack_of d) (c_node c side)) ->
  step (fun _ => demo_env) expected c (deliver_move side k c).
Proof.
  intros Ha Hk Hf Hl Ht [[s r] E]. unfold deliver_move. rewrite Hk. cbv zeta. rewrite E.
  eapply step_deliver; try done; [by eapply list_elem_of_lookup_2|].
  split; [done|]. split; [done|]. simpl. rewrite Hl, rd_range_prefix by lia.
  by rewrite Nat2Z.id, take_ge.
Qed.

Lemma demo_initial : initial demo_start.
Proof.
  split; [done| |].
  - intros side. do 6 (split; [done|]). done.
  - exists 1000000000. cbv zeta. split_and!; reflexivity.
Qed.

Lemma demo_msg_ok : msg_ok demo_msg.
Proof. split; [by left|reflexivity]. Qed.

Definition no_dgram : dgram := mkdgram true empty_head [] 0 0.

Lemma demo_reachable : reachable (fun _ => demo_env) expected demo_confirmed.
Proof.
  exists demo_start. split; [apply demo_initial|].
  apply rtc_l with demo_queued.
  { apply (queue_move_step _ true 1 (demo_frame [7; 8; 9] XPACK_TYPE_REQ) demo_msg); try reflexivity.
    - split; [apply not_elem_of_nil|done].
    - done.
    - apply demo_msg_ok.
    - vm_compute. by eexists. }
  apply rtc_l with demo_sent.
  { apply (tick_move_step true demo_queued); vm_compute; [done|done|by eexists]. }
  apply rtc_l with demo_arrived.
  { apply (deliver_move_step false 0 (default no_dgram (c_net demo_sent !! 0%nat)) demo_sent);
      vm_compute; first [done | by eexists | naive_solver]. }
  apply rtc_l with demo_confirmed; [|apply rtc_refl].
  apply (deliver_move_step true 1 (default no_dgram (c_net demo_arrived !! 1%nat)) demo_arrived);
    vm_compute; first [done | by eexists | naive_solver].
Qed.

(** ** The invariant in the clients' terms *)

Lemma acked_le_D gs vs c side :
  inv_with gs vs c -> (sd_acked (gs side) <= rv_D (vs (negb side)))%nat.
Proof.
  intros [_ H]. destruct (H side) as (I1 & I2 & _), (H (negb side)) as (J1 & _).
  rewrite negb_involutive in *. pose proof (D_le _ _ _ _ _ J1) as HD.
  pose proof (acked_le _ _ _ _ _ I1) as Ha.
  assert (HR : off (sd_msgs (gs side)) (sd_acked (gs side)) <= sd_R (gs side)
               /\ length (sd_ids (gs side)) = length (sd_msgs (gs side))).
  { destruct (n_open (c_node c side)) eqn:Ho.
    - destruct (eo_open _ _ _ _ _ I1 Ho) as [((Hok & _) & _) _].
      split; [apply (so_acked _ _ _ _ _ Hok)|apply (so_ids _ _ _ _ _ Hok)].
    - destruct (eo_closed _ _ _ _ _ I1 Ho) as [-> _]. done. }
  destruct HR as [HR Hl].
  assert (HV : (rv_D (vs (negb side)) < length (sd_msgs (gs side)))%nat ->
               rv_Vr (vs (negb side)) < off (sd_msgs (gs side)) (S (rv_D (vs (negb side))))).
  { destruct (n_open (c_node c (negb side))) eqn:Ho.
    - destruct (eo_open _ _ _ _ _ J1 Ho) as [(_ & Hr & _) _]. apply (ro_delivered _ _ _ _ _ Hr).
    - destruct (eo_closed _ _ _ _ _ J1 Ho) as [_ ->]. simpl. intros Hlt.
      destruct (sd_msgs (gs side)) as [|m ms]; [simpl in Hlt; lia|]. pose proof (count_pos m).
      unfold off. simpl. lia. }
  destruct (decide (sd_acked (gs side) <= rv_D (vs (negb side)))%nat) as [|Hgt]; [done|exfalso].
  specialize (HV ltac:(lia)). pose proof (off_mono (sd_msgs (gs side)) (S (rv_D (vs (negb side)))) (sd_acked (gs side))).
  lia.
Qed.

Lemma end_ok_all q ms g v n :
  end_ok q ms g v n -> sd_R g = total (sd_msgs g) -> sd_acked g = length (sd_msgs g).
Proof.
  intros H HR. pose proof (acked_le _ _ _ _ _ H) as Hle. destruct (n_open n) eqn:Ho.
  - destruct (eo_open _ _ _ _ _ H Ho) as [((Hok & _) & _) _]. rewrite (so_ids _ _ _ _ _ Hok) in Hle.
    destruct (so_acked _ _ _ _ _ Hok) as [_ Ha].
    destruct (decide (sd_acked g < length (sd_msgs g))%nat) as [Hlt|]; [|lia]. specialize (Ha Hlt).
    pose proof (off_mono (sd_msgs g) (S (sd_acked g)) (length (sd_msgs g)) ltac:(lia)) as Hm.
    rewrite (off_all _ (length _)) in Hm by lia. lia.
  - by destruct (eo_closed _ _ _ _ _ H Ho) as [-> _].
Qed.

(** ** The guarantees *)

(** C1: In every execution of the two peers over a network that loses,
    duplicates and reorders datagrams but keeps to [expected] (no datagram
    arrives 2^15 packets late, and no final one, of type RES, at an end without
    a channel), the messages handed to a client are a prefix of the messages its
    peer has queued: in order, each once, type and bytes unchanged. *)
Theorem messages_in_order e c side :
  (forall side, env_ok (e side)) -> reachable e expected c ->
  delivered (c_node c side) `prefix_of` queued_msgs (c_node c (negb side)).
Proof.
  intros He Hr. destruct (inv_reachable e c He Hr) as (gs & vs & _ & H).
  destruct (H side) as (I1 & _), (H (negb side)) as (J1 & _).
  rewrite (eo_from _ _ _ _ _ I1). destruct (eo_queued _ _ _ _ _ J1) as [_ E].
  unfold queued_msgs. rewrite <- E. apply prefix_take.
Qed.

Lemma messages_in_order_witness :
  delivered (c_node demo_confirmed false) = [demo_msg]
  /\ delivered (c_node demo_confirmed false) `prefix_of` queued_msgs (c_node demo_confirmed true).
Proof.
  split; [vm_compute; reflexivity|].
  apply (messages_in_order (fun _ => demo_env) demo_confirmed false);
    [intros _; apply demo_env_ok|apply demo_reachable].
Defined.

(** C2: Over a network that keeps to [expected] (no datagram arrives 2^15
    packets late, and no final one, of type RES, at an end without a channel), a
    message the messenger reports as delivered ([on_message_to_peer]) has been
    handed to the peer's client, and the reports come in the order in which the
    messages were queued.  Without the promise this fails: see
    [final_ack_confirms_lost]. *)
Theorem confirmed_is_delivered e c side :
  (forall side, env_ok (e side)) -> reachable e expected c ->
  let n := c_node c side in
  exists k, confirmed n = take k (n_queued n).*1
    /\ take k (queued_msgs n) `prefix_of` delivered (c_node c (negb side)).
Proof.
  intros He Hr n. destruct (inv_reachable e c He Hr) as (gs & vs & Hinv). pose proof Hinv as [_ H].
  pose proof (acked_le_D _ _ _ side Hinv) as Hle.
  destruct (H side) as (I1 & _), (H (negb side)) as (J1 & _). rewrite negb_involutive in *.
  destruct (eo_queued _ _ _ _ _ I1) as [E1 E2]. exists (sd_acked (gs side)).
  split; [unfold n; rewrite (eo_to _ _ _ _ _ I1); by rewrite E1|].
  rewrite (eo_from _ _ _ _ _ J1). unfold n, queued_msgs. rewrite <- E2.
  exists (take (rv_D (vs (negb side)) - sd_acked (gs side)) (drop (sd_acked (gs side)) (sd_msgs (gs side)))).
  symmetry. by apply take_more.
Qed.

Lemma confirmed_is_delivered_witness :
  confirmed (c_node demo_confirmed true) = [1%positive]
  /\ exists k, confirmed (c_node demo_confirmed true) = take k (n_queued (c_node demo_confirmed true)).*1
       /\ take k (queued_msgs (c_node demo_confirmed true)) `prefix_of` delivered (c_node demo_confirmed false).
Proof.
  split; [vm_compute; reflexivity|].
  apply (confirmed_is_delivered (fun _ => demo_env) demo_confirmed true);
    [intros _; apply demo_env_ok|apply demo_reachable].
Defined.

(** C4: Over a network that keeps to [expected] (no datagram arrives 2^15
    packets late, and no final one, of type RES, at an end without a channel),
    once every packet of a client's messages is acknowledged its peer's client
    has got every message and every message has been reported. *)
Theorem all_acknowledged e c side :
  (forall side, env_ok (e side)) -> reachable e expected c ->
  let n := c_node c side in
  n_R n = total (queued_msgs n) ->
  delivered (c_node c (negb side)) = queued_msgs n /\ confirmed n = (n_queued n).*1.
Proof.
  intros He Hr n HR. destruct (inv_reachable e c He Hr) as (gs & vs & Hinv). pose proof Hinv as [_ H].
  pose proof (acked_le_D _ _ _ side Hinv) as Hle.
  destruct (H side) as (I1 & _), (H (negb side)) as (J1 & _). rewrite negb_involutive in *.
  destruct (eo_queued _ _ _ _ _ I1) as [E1 E2]. destruct (eo_hist _ _ _ _ _ I1) as (_ & R0 & _).
  unfold n, queued_msgs in *. rewrite <- E2, R0 in HR. pose proof (end_ok_all _ _ _ _ _ I1 HR) as Ha.
  pose proof (D_le _ _ _ _ _ J1) as HD. pose proof (acked_le _ _ _ _ _ I1) as Hl.
  split.
  - rewrite (eo_from _ _ _ _ _ J1), <- E2. apply take_ge. lia.
  - rewrite (eo_to _ _ _ _ _ I1), <- E1. apply take_ge.
    replace (length (sd_ids (gs side))) with (length (sd_msgs (gs side))); [lia|].
    by rewrite E1, E2, !length_fmap.
Qed.

Lemma all_acknowledged_witness :
  delivered (c_node demo_confirmed false) = queued_msgs (c_node demo_confirmed true)
  /\ confirmed (c_node demo_confirmed true) = (n_queued (c_node demo_confirmed true)).*1.
Proof.
  apply (all_acknowledged (fun _ => demo_env) demo_confirmed true);
    [intros _; apply demo_env_ok|apply demo_reachable|vm_compute; reflexivity].
Defined.

(** C3: In every state that is reached over a network that keeps to [expected],
    no handler of a live peer runs into undefined behaviour: not the send loop,
    not a datagram that is less than 2^15 packets late and is not a final one
    (RES) for an end without a channel, and not the queueing of an owned message.
    Taking an acknowledgement needs room for 65 more samples of the sending
    period, without which the code divides by zero (see [sampling_divides_by_zero]). *)
Theorem handlers_never_fault e c side :
  (forall side, env_ok (e side)) -> reachable e expected c ->
  let n := c_node c side in
  n_alive n = true ->
  (n_open n = true -> is_Some (send_tick (e side) (n_st n)))
  /\ (forall d p, d ∈ c_net c -> d_from d = negb side -> carries p d -> expected n d ->
        psf_room (XPACK_SERIAL_RANGE + 1) (n_st n) -> is_Some (deliver e side p n))
  /\ (forall x f m, n_open n = true -> owned n x -> s_frames (n_st n) !! x = Some f ->
        holds f m -> msg_ok m -> is_Some (xmsger_send x (n_st n))).
Proof.
  intros He Hr n Ha. destruct (inv_reachable e c He Hr) as (gs & vs & Hinv). pose proof Hinv as [_ H].
  destruct (H side) as (I1 & _). fold n in I1. split; [|split].
  - intros Ho. destruct (eo_open _ _ _ _ _ I1 Ho) as [(HS & _) _].
    destruct (send_tick_spec (e side) _ _ _ HS) as (g' & s' & b & -> & _). by eexists.
  - intros d p Hd Hf Hc [Ht Hres] Hroom. destruct (n_open n) eqn:Ho.
    + pose proof (deliver_open_spec e gs vs c side d p Hinv (He side) Ho Ha Hd Hf Hc Ht) as Hrun.
      fold n in Hrun. destruct (deliver e side p n); [by eexists|done].
    + destruct (deliver_closed_spec e gs vs c side d p Hinv (He side) Ho Hd Hf Hc Ht (Hres eq_refl))
        as (res & E & _). fold n in E. rewrite E. by eexists.
  - intros x f m Ho Hx Hf (F1 & F2 & F3) Hm. destruct (eo_open _ _ _ _ _ I1 Ho) as [(HS & _) _].
    pose proof (owned_not_in_flight _ _ _ _ _ _ I1 (acked_le _ _ _ _ _ I1) Hx) as Hnf.
    destruct (xmsger_send_spec _ _ _ m x f HS Hm Hnf Hf F1 F2 F3) as (s' & r & -> & _). by eexists.
Qed.

Lemma handlers_never_fault_witness :
  is_Some (send_tick demo_env (n_st (c_node demo_confirmed true))).
Proof.
  apply (handlers_never_fault (fun _ => demo_env) demo_confirmed true);
    [intros _; apply demo_env_ok|apply demo_reachable|vm_compute; reflexivity|vm_compute; reflexivity].
Defined.

(** C5: Over a network that keeps to [expected] (no datagram arrives 2^15
    packets late, and no final one, of type RES, at an end without a channel)
    the windows are bounded: at most 64 packets are cut and not acknowledged, at
    most 8 messages queued and not reported, and only packets the peer has
    reassembled are acknowledged. *)
Theorem windows_bounded e c side :
  (forall side, env_ok (e side)) -> reachable e expected c ->
  let n := c_node c side in
  0 <= n_R n <= n_W n /\ n_W n <= n_R n + XPACK_SERIAL_RANGE
  /\ (length (n_queued n) <= length (confirmed n) + Z.to_nat XMSG_BUF_RANGE)%nat
  /\ n_R n <= n_V (c_node c (negb side)) <= total (queued_msgs n).
Proof.
  intros He Hr n. destruct (inv_reachable e c He Hr) as (gs & vs & _ & H).
  destruct (H side) as (I1 & I2 & _), (H (negb side)) as (J1 & _). rewrite negb_involutive in *. fold n in I1.
  destruct (eo_queued _ _ _ _ _ I1) as [E1 E2]. destruct (eo_hist _ _ _ _ _ I1) as (W0 & R0 & _).
  destruct (eo_hist _ _ _ _ _ J1) as (_ & _ & V0). rewrite W0, R0, V0, (eo_to _ _ _ _ _ I1).
  assert (HV : rv_Vr (vs (negb side)) <= total (queued_msgs n)).
  { unfold queued_msgs. rewrite <- E2. destruct (n_open (c_node c (negb side))) eqn:Ho.
    - destruct (eo_open _ _ _ _ _ J1 Ho) as [(_ & Hv & _) _]. destruct (ro_order _ _ _ _ _ Hv).
      pose proof (ro_total _ _ _ _ _ Hv). lia.
    - destruct (eo_closed _ _ _ _ _ J1 Ho) as [_ ->]. apply total_nonneg. }
  rewrite length_take. assert (length (n_queued n) = length (sd_msgs (gs side))) as ->
    by (by rewrite E2, length_fmap).
  destruct (n_open n) eqn:Ho.
  - destruct (eo_open _ _ _ _ _ I1 Ho) as [((Hok & _) & _) _].
    destruct (so_order _ _ _ _ _ Hok), (so_morder _ _ _ _ _ Hok). pose proof (so_ids _ _ _ _ _ Hok).
    unfold XMSG_BUF_RANGE in *. split; [lia|]. split; [lia|]. split; lia.
  - destruct (eo_closed _ _ _ _ _ I1 Ho) as [Eg _]. rewrite Eg in *. simpl in *.
    unfold XPACK_SERIAL_RANGE. split; [lia|]. split; [lia|]. split; lia.
Qed.

Lemma windows_bounded_witness :
  n_R (c_node demo_confirmed true) = 1 /\ n_R (c_node demo_confirmed true) <= n_V (c_node demo_confirmed false).
Proof.
  split; [vm_compute; reflexivity|].
  apply (windows_bounded (fun _ => demo_env) demo_confirmed true);
    [intros _; apply demo_env_ok|apply demo_reachable].
Defined.

(** ** The last acknowledgement *)

(** An acknowledgement of the packets up to [i], which has been sent. *)
Lemma recv_final_spec e q g s h i :
  Snd q g s -> a_sn h = u16 (i + 1) -> a_pos h = u16 (i + 1) -> sd_R g <= i < sd_S g ->
  runs (XPACK_SERIAL_RANGE + 1) s (xchannel_recv_ack e h s) (fun s' => exists g' evs,
    Snd q g' s' /\ snd_step q g s g' s' evs /\ sd_R g' = i + 1 /\ sd_W g' = sd_W g).
Proof.
  intros Hs Hsn Hpos Hi. pose proof Hs as (Hok & _). destruct (so_order _ _ _ _ _ Hok) as [HRS HSW].
  unfold XPACK_SERIAL_RANGE in HSW. assert (Ht : ack_target g (a_pos h) = i + 1).
  { unfold ack_target. rewrite Hpos, u16_sub_l, u16_small by lia. rewrite decide_True; lia. }
  unfold xchannel_recv_ack. rewrite (sb_recvable _ _ _ _ _ Hok), Hsn, Hpos, (so_rpos _ _ _ _ _ Hok), (so_spos _ _ _ _ _ Hok), !u16_diff by lia.
  rewrite decide_True by lia. unfold clock. set (now := u64 _). set (s1 := _ <| s_ch; c_tm := _ |>).
  assert (Hs1 : Snd q g s1) by (by eapply Snd_frame).
  assert (Hst1 : snd_step q g s g s1 []) by (by apply snd_step_only).
  eapply (runs_bind (XPACK_SERIAL_RANGE + 1)); [|lia|].
  { apply (runs_later (ack_target g (a_pos h) - sd_R g) _ 0 s s1); [|by apply psf_le_eq|unfold XPACK_SERIAL_RANGE; lia].
    rewrite <- Hpos. apply (ack_loop_spec q (a_pos h) _ g s1 Hs1); [rewrite Hpos; apply u16_range|].
    rewrite Hpos, u16_sub_l, u16_small by lia. lia. }
  intros s2 (g2 & e2 & Hs2 & Hst2 & HR2 & HS2 & HW2 & _). rewrite decide_False by (by intros []; done).
  exists g2, e2. split; [done|]. split; [|by rewrite HR2, Ht].
  rewrite <- (app_nil_l e2). by eapply snd_step_trans.
Qed.

(** The acknowledgement with which an end without a channel answers [d]. *)
Definition final_head (d : dgram) : xhead :=
  let pos := u16 (h_sn (d_head d) + 1) in
  d_head d <| h_type := XPACK_TYPE_ACK |> <| a_type := XPACK_TYPE_RES |>
    <| a_pos := pos |> <| a_sn := pos |> <| h_len := 0 |> <| h_range := 1 |>.

(** The end after it has answered, and the configuration. *)
Definition final_sent (e : bool -> env) (c : config) (side : bool) (d : dgram) : config :=
  let n := c_node c side in
  let s := log (Sent (final_head d) []) (n_st n <| s_tick := S (s_tick (n_st n)) |>) in
  after c side (n <| n_st := s |>).

Lemma final_step e c side d p : let n := c_node c side in
  n_open n = false -> n_alive n = true -> d ∈ c_net c -> d_from d = negb side -> carries p d ->
  h_type (d_head d) = XPACK_TYPE_RES -> (forall k, e_send (e side) k = true) ->
  step e unrestricted c (final_sent e c side d).
Proof.
  intros n Ho Ha Hd Hf Hc Ht Hsend. pose proof Hc as (Hk & _).
  pose proof (step_deliver e unrestricted c side d p
    (log (Sent (final_head d) []) (n_st n <| s_tick := S (s_tick (n_st n)) |>)) 0 Ha Hd Hf Hc I) as Hstep.
  fold n in Hstep. assert (E : tracked (n <| n_open := opened p n |>) (log (Sent (final_head d) [])
      (n_st n <| s_tick := S (s_tick (n_st n)) |>)) <| n_alive := bool_decide (0 = 0) |>
    = n <| n_st := log (Sent (final_head d) []) (n_st n <| s_tick := S (s_tick (n_st n)) |>) |>).
  { unfold opened. rewrite Ho, Hk, Ht. unfold tracked. simpl. destruct n. simpl in *. by subst. }
  rewrite E in Hstep. apply Hstep. unfold deliver. rewrite Ho, Hk, Ht, decide_False, decide_True by done.
  unfold xchannel_send_final, udp_sendto. rewrite Hsend. cbn [mbind option_bind]. by rewrite Hk.
Qed.

Definition final_dgram (side : bool) (n : endpoint) (d : dgram) : dgram :=
  mkdgram side (wire (final_head d)) [] (latest (n_W n - 1) (h_sn (d_head d))) (latest (n_V n) (u16 (h_sn (d_head d) + 1))).

Lemma final_net e c side d : c_net (final_sent e c side d) = c_net c ++ [final_dgram side (c_node c side) d].
Proof.
  unfold final_sent, after, log. cbn [c_net n_st s_log set_field]. simpl. rewrite drop_app_length. done.
Qed.

(** C34: Why the other guarantees need a network that keeps to [expected].  When
    a final datagram, the last packet of a message, reaches an end that has no
    channel, the end acknowledges it and everything before it, and when the
    acknowledgement gets back, all those messages are reported to the sender as
    delivered.  The receiver has got none of them. *)
Theorem final_ack_confirms_lost e c side d p k m :
  (forall side, env_ok (e side)) -> reachable e expected c -> (forall j, e_send (e side) j = true) ->
  let n := c_node c side in let o := c_node c (negb side) in
  n_open n = false -> n_alive n = true -> n_alive o = true -> psf_room (XPACK_SERIAL_RANGE + 1) (n_st o) ->
  d ∈ c_net c -> d_from d = negb side -> carries p d -> h_type (d_head d) = XPACK_TYPE_RES ->
  located (queued_msgs o) (d_sn d) k (count m - 1) m ->
  n_R o <= d_sn d < n_R o + __serialbuf_recvable (c_sendbuf (s_ch (n_st o))) ->
  exists c1 c2, step e unrestricted c c1 /\ step e unrestricted c1 c2
    /\ take (S k) (n_queued o).*1 `prefix_of` confirmed (c_node c2 (negb side))
    /\ n_R (c_node c2 (negb side)) = d_sn d + 1 /\ delivered (c_node c2 side) = [].
Proof.
  intros He Hr Hsend n o Hn Han Hao Hroom Hd Hf Hc Ht Hl Hwin.
  destruct (inv_reachable e c He Hr) as (gs & vs & Hinv). pose proof Hinv as [Hopen Hside].
  destruct (Hside side) as (I1 & I2 & I3 & I4), (Hside (negb side)) as (J1 & J2 & J3 & J4).
  rewrite negb_involutive in *. fold n o in I1, I4, J1, J4. fold n o in Hn.
  destruct (J4 d Hd Hf) as [Ho (_ & _ & _ & Dd)]. rewrite Hn in J1. simpl in J1.
  destruct Dd as [[Ht' _]|(Hda & _ & _)]; [by rewrite Ht in Ht'|]. destruct Hda as (k' & r' & m' & Hl' & Hsn & _).
  destruct (eo_open _ _ _ _ _ J1 Ho) as [HN Hid]. specialize (Hid Hao). pose proof HN as (HS & _). pose proof HS as (Hok & _).
  destruct (eo_hist _ _ _ _ _ J1) as (W0 & R0 & V0). destruct (eo_queued _ _ _ _ _ J1) as [Q1 Q2].
  destruct (so_order _ _ _ _ _ Hok) as [O1 O2]. rewrite (sb_recvable _ _ _ _ _ Hok), R0 in Hwin.
  set (d' := final_dgram side n d). set (p' := mkpack 0 0 0 None (d_head d') []).
  assert (Hpos : a_pos (d_head d') = u16 (d_sn d + 1) /\ a_sn (d_head d') = u16 (d_sn d + 1)).
  { unfold d', final_dgram, wire, final_head. simpl. rewrite Hsn, (u16_small (u16 _)) by apply u16_range. by rewrite u16_add_l. }
  destruct Hpos as [Hpos Hasn].
  pose proof (recv_final_spec (e (negb side)) _ _ _ (d_head d') (d_sn d) HS Hasn Hpos ltac:(lia)) as Hrun.
  destruct (xchannel_recv_ack _ _ (n_st o)) as [s'|] eqn:Es; [|by exfalso; apply Hrun].
  destruct Hrun as (g' & evs & HS' & Hst & HR' & HW').
  set (c1 := final_sent e c side d).
  assert (Hc1 : c_node c1 (negb side) = o) by (unfold c1, final_sent, after; simpl; by rewrite update_other).
  assert (Hstep : step e unrestricted c1 (after c1 (negb side)
    (tracked (o <| n_open := opened p' o |>) s' <| n_alive := bool_decide (0 = 0) |>))).
  { pose proof (step_deliver e unrestricted c1 (negb side) d' p' s' 0) as Hs. rewrite Hc1 in Hs. apply Hs; [done| | | |done|].
    - unfold c1. rewrite final_net. apply elem_of_app. right. by left.
    - simpl. by rewrite negb_involutive.
    - split; [done|]. split; [done|]. simpl. done.
    - unfold deliver. rewrite Ho. unfold recv_existing. cbn [k_head p' d' final_dgram d_head wire h_type final_head].
      simpl. change (wire (final_head d)) with (d_head d'). by rewrite Es. }
  eexists c1, _. split; [by eapply final_step|]. split; [exact Hstep|].
  assert (Hend : end_ok true (sd_msgs (gs side)) g' (vs (negb side)) (tracked (o <| n_open := true |>) s' <| n_alive := true |>)).
  { apply (end_ok_step true _ _ (gs (negb side)) (vs (negb side)) o _ _ _ evs true J1); try done; unfold XPACK_SERIAL_RANGE in *; try lia.
    - by eapply Node_snd.
    - by apply node_step_snd.
    - intros _. by eapply idle_snd. }
  assert (Hx : c_node (after c1 (negb side) (tracked (o <| n_open := opened p' o |>) s' <| n_alive := bool_decide (0 = 0) |>)) (negb side)
    = tracked (o <| n_open := true |>) s' <| n_alive := true |>).
  { unfold after. cbn [c_node]. rewrite update_same. unfold opened. by rewrite Ho. }
  assert (Hy : delivered (c_node (after c1 (negb side) (tracked (o <| n_open := opened p' o |>) s' <| n_alive := bool_decide (0 = 0) |>)) side) = []).
  { unfold after. cbn [c_node]. rewrite <- (negb_involutive side) at 2. rewrite update_other.
    unfold c1, final_sent, after. cbn [c_node]. rewrite negb_involutive, update_same. fold n.
    pose proof (eo_from _ _ _ _ _ I1) as Hfrom. destruct (eo_closed _ _ _ _ _ I1 Hn) as [_ Ev]. rewrite Ev in Hfrom.
    unfold delivered, log in *. simpl in *. by rewrite omap_app, Hfrom. }
  rewrite Hx. split; [|split; [|exact Hy]].
  - rewrite (eo_to _ _ _ _ _ Hend). destruct Hst as [[Em Ei] _ _ _ _ _ _ _ _ _ _]. rewrite Ei, Q1.
    pose proof HS' as (Hok' & _). destruct (so_acked _ _ _ _ _ Hok') as [_ Ha']. rewrite HR', Em in Ha'.
    destruct Hl as (Hk & _ & Hi). unfold queued_msgs in Hk, Hi. rewrite <- Q2 in Hk, Hi.
    pose proof (off_S _ _ _ Hk) as HS1. pose proof (lookup_lt_Some _ _ _ Hk) as Hlt.
    assert (S k <= sd_acked g')%nat as Hle.
    { destruct (decide (S k <= sd_acked g')%nat) as [|Hgt]; [done|exfalso]. specialize (Ha' ltac:(lia)).
      pose proof (off_mono (sd_msgs (gs (negb side))) (S (sd_acked g')) (S k) ltac:(lia)). lia. }
    replace (take (S k) _) with (take (S k) (take (sd_acked g') (n_queued o).*1)); [apply prefix_take|].
    rewrite take_take. f_equal. lia.
  - destruct (eo_hist _ _ _ _ _ Hend) as (_ & -> & _). done.
Qed.

(** A request and a response are queued and sent; the response arrives first. *)
Definition lost_start : config :=
  mkconfig (fun side => mkendpoint (demo_st <| s_frames :=
      {[ 1%positive := demo_frame [7; 8; 9] XPACK_TYPE_REQ; 2%positive := demo_frame [5] XPACK_TYPE_RES ]} |>)
    side true 0 0 0 []) [].
Definition lost_queued : config := queue_move true 2 (XPACK_TYPE_RES, [5]) (queue_move true 1 demo_msg lost_start).
Definition lost_sent : config := tick_move true (tick_move true lost_queued).

Lemma lost_reachable : reachable (fun _ => demo_env) expected lost_sent.
Proof.
  exists lost_start. split.
  { split; [done|intros side; do 6 (split; [done|]); done|]. exists 1000000000. cbv zeta. split_and!; reflexivity. }
  apply rtc_l with (queue_move true 1 demo_msg lost_start).
  { apply (queue_move_step _ true 1 (demo_frame [7; 8; 9] XPACK_TYPE_REQ) demo_msg); try reflexivity.
    - split; [apply not_elem_of_nil|done].
    - done.
    - apply demo_msg_ok.
    - vm_compute. by eexists. }
  apply rtc_l with lost_queued.
  { apply (queue_move_step _ true 2 (demo_frame [5] XPACK_TYPE_RES) (XPACK_TYPE_RES, [5])); try (vm_compute; done).
    - split; [|vm_compute; done]. vm_compute. intros H. inversion H as [|? ? ? H']; subst. by inversion H'.
    - split; [by right; right|reflexivity].
    - vm_compute. by eexists. }
  apply rtc_l with (tick_move true lost_queued).
  { apply (tick_move_step true lost_queued); vm_compute; [done|done|by eexists]. }
  apply rtc_l with lost_sent; [|apply rtc_refl].
  apply (tick_move_step true (tick_move true lost_queued)); vm_compute; [done|done|by eexists].
Qed.

Lemma final_ack_confirms_lost_witness : exists c1 c2,
  step (fun _ => demo_env) unrestricted lost_sent c1 /\ step (fun _ => demo_env) unrestricted c1 c2
  /\ [1%positive; 2%positive] `prefix_of` confirmed (c_node c2 true) /\ n_R (c_node c2 true) = 2
  /\ delivered (c_node c2 false) = [].
Proof.
  assert (E1 : take 2 (n_queued (c_node lost_sent true)).*1 = [1%positive; 2%positive]) by (vm_compute; done).
  assert (E2 : d_sn (default no_dgram (c_net lost_sent !! 1%nat)) + 1 = 2) by (vm_compute; done).
  rewrite <- E1, <- E2.
  apply (final_ack_confirms_lost (fun _ => demo_env) lost_sent false (default no_dgram (c_net lost_sent !! 1%nat))
    (pack_of (default no_dgram (c_net lost_sent !! 1%nat))) 1 (XPACK_TYPE_RES, [5])).
  - intros ?. apply demo_env_ok.
  - apply lost_reachable.
  - intros ?. done.
  - vm_compute. done.
  - vm_compute. done.
  - vm_compute. done.
  - split; vm_compute; [discriminate|reflexivity].
  - apply (list_elem_of_lookup_2 _ 1). vm_compute. done.
  - vm_compute. done.
  - split; [reflexivity|]. split; vm_compute; done.
  - vm_compute. done.
  - split; [vm_compute; reflexivity|]. split; vm_compute; [split; [discriminate|reflexivity]|reflexivity].
  - split; vm_compute; [discriminate|reflexivity].
Defined.
