(* ===== verification/Timing.v ===== *)
(** * Timeouts and the sampling of the channel

    When a channel retransmits and how fast it sends depend on two estimates:
    the round trip time [rtt], a mean over the last 256 acknowledgements, and
    the sending period [psf], measured over 10 ms.  This file says what the
    estimates are, and what resetting them on an idle channel does to them. *)

From S2P Require Import Prelude Xline Channel.

(** ** Doubles *)

Lemma rnd53_small m : 0 <= m < 2 ^ 53 -> rnd53 m = m.
Proof.
  intros Hm. unfold rnd53. assert (Z.max 0 (Z.log2 m - 52) = 0) as ->.
  { destruct (decide (m = 0)) as [->|]; [done|].
    assert (Z.log2 m < 53) by (apply Z.log2_lt_pow2; lia). lia. }
  rewrite Z.shiftr_0_r, Z.shiftl_0_r, Z.sub_diag. simpl. lia.
Qed.

Lemma scaled_small x : 0 <= x < 2 ^ 51 -> scaled x = 3 * x.
Proof. intros Hx. unfold scaled. rewrite (rnd53_small x), rnd53_small by lia. done. Qed.

(** C18: For times below 26 days the floating point arithmetic of the timeouts is
    exact: a packet first times out after three round trips, and each
    retransmission multiplies that by one and a half. *)
Theorem timeouts_exact e t :
  0 <= t < 2 ^ 51 -> first_timeout e t = 3 * t /\ next_timeout e t = 3 * t / 2.
Proof.
  intros Ht. unfold first_timeout, next_timeout, to_u64. rewrite scaled_small by done.
  rewrite !decide_True; [done| |lia]. apply Z.div_lt_upper_bound; lia.
Qed.

Lemma timeouts_exact_witness :
  first_timeout (mkenv (fun _ => 0) (fun _ => true) (fun _ _ => None) (fun _ => 0)) 100000000 = 300000000.
Proof. apply (timeouts_exact _ 100000000). lia. Defined.

(** ** The round trip estimate *)

(** The round trip a packet with stamp [ts] is sampled with. *)
Definition sample (tm : xtiming) (ts : Z) : Z := u64 (t_ack_ts tm - ts).

(** An estimator that has seen round trips between [A] and [B]: the duration is
    the sum of the last [n] of them, up to rounding, and the estimate their mean. *)
Record est_ok (A B : Z) (tm : xtiming) : Prop := {
  est_n : 0 <= t_rtt_counter tm <= XCHANNEL_RTT_SAMPLING_COUNTS;
  est_sum : t_rtt_counter tm * A <= t_rtt_duration tm <= t_rtt_counter tm * B
            + (if decide (t_rtt_counter tm = XCHANNEL_RTT_SAMPLING_COUNTS) then 255 else 0);
  est_mean : 0 < t_rtt_counter tm -> t_rtt tm = t_rtt_duration tm / t_rtt_counter tm;
  est_start : A <= 2 * t_rtt tm < 2 ^ 63;
}.

(** What a round trip of [x] counts, and what it takes the place of. *)
Definition counts (tm : xtiming) (x : Z) : Z := Z.min x (2 * t_rtt tm).
Definition leaves (tm : xtiming) : Z := if decide (t_rtt_counter tm = XCHANNEL_RTT_SAMPLING_COUNTS) then t_rtt tm else 0.

Lemma sampling_rtt limit tm p tm' p' :
  xchannel_sampling limit tm p = Some (tm', p') ->
  t_rtt tm' = t_rtt (sample_rtt tm (k_ts p))
  /\ t_rtt_duration tm' = t_rtt_duration (sample_rtt tm (k_ts p))
  /\ t_rtt_counter tm' = t_rtt_counter (sample_rtt tm (k_ts p)).
Proof.
  unfold xchannel_sampling, sample_psf. generalize (sample_rtt tm (k_ts p)). intros tm1 H.
  simp_bind H. injection H as <- _.
  repeat match type of E with context [ decide ?P ] => destruct (decide P) end;
    try discriminate E; injection E as <-; done.
Qed.

Lemma est_ok_bound A B tm : 0 <= A <= B -> est_ok A B tm -> 0 < t_rtt_counter tm -> A <= t_rtt tm <= B.
Proof.
  intros HB [Hn Hs Hm _] Hp. rewrite (Hm Hp). unfold XCHANNEL_RTT_SAMPLING_COUNTS in *.
  destruct Hs as [Hs0 Hs]. split; [apply Z.div_le_lower_bound; lia|]. case_decide as Hf.
  - rewrite Hf in *. dlia.
  - apply Z.div_le_upper_bound; lia.
Qed.

(** The new sum and the new mean. *)
Lemma sample_rtt_exact A B tm ts : 0 <= A <= B -> B < 2 ^ 48 -> est_ok A B tm -> sample tm ts <= B ->
  t_rtt_duration (sample_rtt tm ts) = t_rtt_duration tm + counts tm (sample tm ts) - leaves tm
  /\ t_rtt_counter (sample_rtt tm ts) = Z.min XCHANNEL_RTT_SAMPLING_COUNTS (t_rtt_counter tm + 1)
  /\ t_rtt (sample_rtt tm ts) = t_rtt_duration (sample_rtt tm ts) / t_rtt_counter (sample_rtt tm ts).
Proof.
  intros HA HB [Hn Hsum Hm Hst] Hs. unfold sample_rtt, counts, leaves, sample in *. cbv zeta.
  pose proof (u64_range (t_ack_ts tm - ts)) as Hr. rewrite Z.shiftl_mul_pow2 by lia. change (2 ^ 1) with 2.
  rewrite (u64_small (t_rtt tm * 2)) by lia.
  unfold XCHANNEL_RTT_SAMPLING_COUNTS in *. assert (0 <= t_rtt_counter tm * A) by nia. assert (t_rtt_counter tm * B <= 256 * B) by nia.
  replace (if decide (u64 (t_ack_ts tm - ts) > t_rtt tm * 2) then t_rtt tm * 2 else u64 (t_ack_ts tm - ts))
    with (Z.min (u64 (t_ack_ts tm - ts)) (2 * t_rtt tm))
    by (destruct (decide (u64 (t_ack_ts tm - ts) > t_rtt tm * 2)); lia).
  set (a := Z.min _ _) in *. assert (Ha : 0 <= a <= B) by lia. clearbody a. unfold XCHANNEL_RTT_SAMPLING_COUNTS in *.
  simpl. assert (Hd : u64 (t_rtt_duration tm + a) = t_rtt_duration tm + a) by (apply u64_small; destruct (decide (_ = 256)); nia).
  rewrite Hd. destruct (decide (t_rtt_counter tm < 256)) as [Hc|Hc].
  - rewrite (decide_False (P := t_rtt_counter tm = 256)) by lia. simpl. rewrite u16_small by lia.
    split; [lia|]. split; [lia|done].
  - assert (Ef : t_rtt_counter tm = 256) by lia. rewrite decide_True in Hsum |- * by done.
    specialize (Hm ltac:(lia)). rewrite Ef in *. assert (0 <= t_rtt tm <= t_rtt_duration tm) by dlia.
    simpl. rewrite !u64_small by lia. split; [lia|]. split; [lia|]. by rewrite Z.shiftr_div_pow2 by lia.
Qed.

Lemma sample_rtt_ok A B tm ts :
  0 <= A <= B -> B < 2 ^ 48 -> est_ok A B tm -> A <= sample tm ts <= B ->
  est_ok A B (sample_rtt tm ts) /\ 0 < t_rtt_counter (sample_rtt tm ts).
Proof.
  intros HA HB He Hs. destruct (sample_rtt_exact A B tm ts HA HB He ltac:(lia)) as (Hd & Hc & Hr).
  pose proof He as [Hn Hsum Hm Hst]. unfold counts, leaves in Hd. set (a := Z.min _ _) in *.
  assert (Ha : A <= a <= B) by lia. clearbody a. unfold XCHANNEL_RTT_SAMPLING_COUNTS in *.
  split; [|lia].
  assert (Hsum' : t_rtt_counter (sample_rtt tm ts) * A <= t_rtt_duration (sample_rtt tm ts)
    <= t_rtt_counter (sample_rtt tm ts) * B + (if decide (t_rtt_counter (sample_rtt tm ts) = 256) then 255 else 0)).
  { rewrite Hd, Hc. destruct (decide (t_rtt_counter tm = 256)) as [Ef|Hne].
    - specialize (Hm ltac:(lia)). rewrite Ef in *. rewrite (Z.min_l 256 (256 + 1)), decide_True by lia.
      assert (256 * t_rtt tm <= t_rtt_duration tm < 256 * t_rtt tm + 256) by dlia. lia.
    - rewrite Z.min_r by lia. destruct (decide (_ + 1 = 256)); nia. }
  assert (Hp : est_ok A B (sample_rtt tm ts) <-> A <= 2 * t_rtt (sample_rtt tm ts) < 2 ^ 63).
  { split; [by intros []|]. intros Hb. split; [unfold XCHANNEL_RTT_SAMPLING_COUNTS; lia|exact Hsum'|done|exact Hb]. }
  apply Hp. assert (A <= t_rtt (sample_rtt tm ts) <= B); [|lia]. rewrite Hr. rewrite Hc in *.
  split; [apply Z.div_le_lower_bound; lia|]. case_decide as Hf; [rewrite Hf in *; dlia|apply Z.div_le_upper_bound; lia].
Qed.


(** A channel that has seen one round trip of 1 ms. *)
Definition demo_timing : xtiming := mktiming 0 64 0 0 1 1000000 1 1000000 0 0 9000000 false.
Definition demo_sampled : xpack := mkpack 7500000 0 0 None empty_head [].


(** The reset of an idle channel clears the count of the estimator but not
    its sum, so that the next acknowledgement makes the estimate the whole
    sum: of 256 round trips, when the estimator was full. *)
Lemma rtt_jumps_after_idle limit tm now p tm' p' :
  0 <= t_rtt_duration tm < 2 ^ 62 -> t_rtt tm = t_rtt_duration tm / XCHANNEL_RTT_SAMPLING_COUNTS ->
  xchannel_sampling limit (idle_reset tm <| t_ack_ts := now |>) p = Some (tm', p') ->
  256 * t_rtt tm <= t_rtt tm'.
Proof.
  unfold XCHANNEL_RTT_SAMPLING_COUNTS. intros Hd Hr E.
  assert (Hr' : 0 <= t_rtt tm < 2 ^ 61) by dlia.
  destruct (sampling_rtt _ _ _ _ _ E) as (E1 & _ & _). rewrite E1.
  unfold sample_rtt, idle_reset. simpl. set (add := if decide (_ > _) then _ else _).
  assert (Ha : 0 <= add <= 2 ^ 62).
  { pose proof (u64_range (now - k_ts p)). unfold add. clear add E E1.
    rewrite Z.shiftl_mul_pow2, (u64_small (t_rtt tm * 2 ^ 1)) by lia.
    destruct (decide (u64 _ > _)); lia. }
  clearbody add. rewrite (u64_small (_ + _)), u16_small, Z.div_1_r by lia. dlia.
Qed.

Definition demo_full : xtiming :=
  demo_timing <| t_rtt_counter := 256 |> <| t_rtt_duration := 256000000 |>.


(** ** The sending period *)

(** The period is 10 ms divided by the number of samples, which nothing but
    congestion resets: with 10^7 samples it is 0, and the next statement divides
    by it. *)
Lemma sampling_divides_by_zero limit tm p :
  t_psf tm = 0 -> t_psf_begin tm <> 0 ->
  XPACK_PSF_SAMPLING <= t_psf_counter tm < 2 ^ 64 - 1 ->
  XPACK_PSF_SAMPLING <= u64 (t_ack_ts tm - t_psf_begin tm) ->
  xchannel_sampling limit tm p = None.
Proof.
  intros H1 H2 H3 H4. unfold xchannel_sampling, sample_psf.
  assert (E : t_psf (sample_rtt tm (k_ts p)) = t_psf tm
    /\ t_psf_begin (sample_rtt tm (k_ts p)) = t_psf_begin tm
    /\ t_psf_counter (sample_rtt tm (k_ts p)) = t_psf_counter tm
    /\ t_ack_ts (sample_rtt tm (k_ts p)) = t_ack_ts tm) by (unfold sample_rtt; by case_decide).
  destruct E as (E1 & E2 & E3 & E4). rewrite E1, E2. simpl. rewrite E2, E3, E4.
  rewrite !decide_True, decide_False by (done || lia). unfold XPACK_PSF_SAMPLING in *.
  rewrite decide_True by lia. rewrite u64_small by lia. rewrite decide_False by lia.
  rewrite Z.div_small by lia. by rewrite decide_True.
Qed.


(** The threshold is cut to 16 bits before it is compared with the window.
    A channel whose threshold has become 0 that way, with nothing left to be
    acknowledged, sends nothing any more and keeps the threshold. *)
Lemma zero_threshold_stalls e s s' b :
  t_threshold (c_tm (s_ch s)) = 0 -> __serialbuf_recvable (c_sendbuf (s_ch s)) = 0 ->
  send_tick e s = Some (s', b) ->
  (s_log s' = s_log s \/ s_log s' = s_log s ++ [TimedOut])
  /\ t_threshold (c_tm (s_ch s')) = 0 /\ c_sendbuf (s_ch s') = c_sendbuf (s_ch s).
Proof.
  intros Ht Hr. unfold send_tick, clock. set (s0 := s <| s_tick := _ |>). cbv zeta.
  assert (H1 : forall o, (o = Some s0 \/ (exists z, o = Some (lower_timer z s0))
               \/ (exists z, o = Some (s0 <| s_ch; c_tm; t_kabuf := z |>))) ->
             exists s1, o = Some s1 /\ s_log s1 = s_log s /\ t_threshold (c_tm (s_ch s1)) = 0
               /\ c_sendbuf (s_ch s1) = c_sendbuf (s_ch s)).
  { intros o [->|[[z ->]|[z ->]]]; eexists; (split; [done|]); [done| |done].
    unfold lower_timer. case_decide; done. }
  match goal with |- context [ ?o ≫= _ ] => destruct (H1 o) as (s1 & -> & El & Et & Eb) end.
  { change (s_ch s0) with (s_ch s). rewrite Ht. destruct (decide (s64 _ > 0)); [eauto|].
    rewrite (decide_False (P := _ < 0)) by (pose proof (u16_range (r_wpos (c_sendbuf (s_ch s)) - r_rpos (c_sendbuf (s_ch s))));
      unfold __serialbuf_readable; simpl; lia).
    destruct (decide (t_kabuf _ = 0)); [right; right; by eexists|by left]. }
  clear H1. cbn [mbind option_bind]. rewrite Eb, Hr. rewrite decide_False by lia.
  case_decide; [|intros [= <- <-]; auto]. cbv zeta. case_decide; intros [= <- <-]; simpl.
  - split; [right; by rewrite El|]. done.
  - split; [by left|]. done.
Qed.

(** A sending period of 1 us and a round trip of 65535 us. *)
Definition demo_fast : xtiming := mktiming 0 64 0 1 9999 65535000 255 16711425000 0 0 70000000 false.
Definition demo_stalled : st :=
  mkst (xchannel_create 0 XPACK_SERIAL_RANGE
          <| c_tm := (default (demo_fast, demo_sampled)
               (xchannel_sampling 64 demo_fast (demo_sampled <| k_ts := 4465000 |>))).1 |>)
    ∅ (mkmsger 0 0 0) 0 [].

