(* ===== verification/Messenger.v ===== *)
(** * The messenger of [xnet/xmsger.c]

    [struct xmsger] with its channels: the tree of peers, in which a datagram
    finds the channel it belongs to, the list over which [xmsger_send_all]
    goes, the commands that the clients send through the local socket, and the
    turns of [msger_loop].  The handlers of a single channel are those of
    [Channel]; [on_channel] runs them on one channel of the messenger.

    A channel is known by its address in the store of channels.  The [prev] and
    [next] of the list are [None] where they point to its head. *)

From S2P Require Import Prelude Xline Channel Avl.

(** ** Data *)

(** The three 64-bit words of a socket address ([__xipaddr]). *)
Record addr := mkaddr { w_0 : Z; w_1 : Z; w_2 : Z }.

(** What [Channel] leaves out of [struct xchannel]; [x_sock] is the number of
    the messenger's socket. *)
Record chan := mkchan {
  x_ch : xchannel; x_addr : addr; x_ucid : addr; x_sock : Z;
  x_prev : option positive; x_next : option positive; x_ctx : option Z;
}.

(** [g_first] and [g_last] are the [next] and the [prev] of the head of the
    list.  The log says which channel an event belongs to, if any. *)
Record messenger := mkmessenger {
  g_ms : xmsger; g_cid : Z; g_laddr : addr; g_peers : avl_tree;
  g_len : Z; g_first : option positive; g_last : option positive;
  g_chans : gmap positive chan; g_frames : gmap positive xframe;
  g_tick : nat; g_log : list (option positive * event);
}.

#[export] Instance eta_chan : Settable chan := fun r =>
  mkchan (x_ch r) (x_addr r) (x_ucid r) (x_sock r) (x_prev r) (x_next r) (x_ctx r).
#[export] Instance eta_messenger : Settable messenger := fun r =>
  mkmessenger (g_ms r) (g_cid r) (g_laddr r) (g_peers r) (g_len r) (g_first r) (g_last r)
    (g_chans r) (g_frames r) (g_tick r) (g_log r).

Definition upd_chan (p : positive) (f : chan -> chan) (g : messenger) : option messenger :=
  c ← g_chans g !! p; Some (g <| g_chans := <[p := f c]> (g_chans g) |>).

(** A handler of [Channel] on the channel at [p]. *)
Definition state_of (c : xchannel) (g : messenger) : st := mkst c (g_frames g) (g_ms g) (g_tick g) [].

Definition with_state (p : option positive) (s : st) (g : messenger) : messenger :=
  g <| g_frames := s_frames s |> <| g_ms := s_ms s |> <| g_tick := s_tick s |>
    <| g_log := g_log g ++ map (pair p) (s_log s) |>.

Definition on_channel {A} (p : positive) (f : st -> option (st * A)) (g : messenger) : option (messenger * A) :=
  c ← g_chans g !! p;
  '(s, r) ← f (state_of (x_ch c) g);
  Some (with_state (Some p) s g <| g_chans := <[p := c <| x_ch := s_ch s |>]> (g_chans g) |>, r).

Definition xchannel_get_req (p : positive) (g : messenger) : option (option positive) :=
  c ← g_chans g !! p; Some (c_req (x_ch c)).
Definition xchannel_get_ctx (p : positive) (g : messenger) : option (option Z) := c ← g_chans g !! p; Some (x_ctx c).
Definition xchannel_set_ctx (p : positive) (ctx : option Z) (g : messenger) : option messenger :=
  upd_chan p (fun c => c <| x_ctx := ctx |>) g.

(** ** The list of channels *)

Definition set_next (l : option positive) (v : option positive) (g : messenger) : option messenger :=
  match l with None => Some (g <| g_first := v |>) | Some p => upd_chan p (fun c => c <| x_next := v |>) g end.
Definition set_prev (l : option positive) (v : option positive) (g : messenger) : option messenger :=
  match l with None => Some (g <| g_last := v |>) | Some p => upd_chan p (fun c => c <| x_prev := v |>) g end.

Definition __ring_list_take_out (rnode : positive) (g : messenger) : option messenger :=
  c ← g_chans g !! rnode;
  g ← set_next (x_prev c) (x_next c) g;
  c ← g_chans g !! rnode;
  g ← set_prev (x_next c) (x_prev c) g;
  Some (g <| g_len := u64 (g_len g - 1) |>).

Definition __ring_list_put_into_head (rnode : positive) (g : messenger) : option messenger :=
  g ← upd_chan rnode (fun c => c <| x_next := g_first g |>) g;
  g ← upd_chan rnode (fun c => c <| x_prev := None |>) g;
  c ← g_chans g !! rnode;
  g ← set_next (x_prev c) (Some rnode) g;
  c ← g_chans g !! rnode;
  g ← set_prev (x_next c) (Some rnode) g;
  Some (g <| g_len := u64 (g_len g + 1) |>).

(** ** Peers

    The words are compared as [uint64_t]. *)
Definition unicid_find (a b : addr) : Z :=
  if decide (u64 (w_0 a) ≠ u64 (w_0 b)) then (if decide (u64 (w_0 a) > u64 (w_0 b)) then 1 else -1)
  else if decide (u64 (w_1 a) ≠ u64 (w_1 b)) then (if decide (u64 (w_1 a) > u64 (w_1 b)) then 1 else -1)
  else if decide (u64 (w_2 a) ≠ u64 (w_2 b)) then (if decide (u64 (w_2 a) > u64 (w_2 b)) then 1 else -1)
  else 0.

Definition no_addr : addr := mkaddr 0 0 0.
Definition ucid_of (g : messenger) (p : positive) : addr :=
  match g_chans g !! p with Some c => x_ucid c | None => no_addr end.

Definition unicid_comp (g : messenger) (p q : positive) : Z := unicid_find (ucid_of g p) (ucid_of g q).

(** The number of the channel goes into the first two bytes of the first word. *)
Definition set_cid (a : addr) (cid : Z) : addr := mkaddr (Z.lor (Z.land (w_0 a) (2 ^ 64 - 2 ^ 16)) cid) (w_1 a) (w_2 a).

Definition find_peer (a : addr) (g : messenger) : option (option positive) :=
  avl_tree_find (fun a q => unicid_find a (ucid_of g q)) (g_peers g) a.

Definition add_peer (p : positive) (g : messenger) : option (messenger * option positive) :=
  '(t, r) ← avl_tree_add (unicid_comp g) p (g_peers g);
  Some (g <| g_peers := t |>, r).

Section Messenger.
(** The environment of the handlers, the address of a new channel or [None]
    when one of its four blocks cannot be had, and [udp_addr_is_ipv6]. *)
Context (e : env) (calloc : messenger -> option positive) (is_ipv6 : addr -> bool).

(** ** Opening and closing a channel *)

Definition create_channel (serial_range : Z) (g : messenger) : option (messenger * option positive) :=
  match calloc g with
  | None => Some (g, None)
  | Some p =>
      let now := u64 (e_clock e (g_tick g)) in
      let c := mkchan (xchannel_create now serial_range) no_addr no_addr 0 None None None in
      let g := g <| g_tick := S (g_tick g) |> <| g_chans := <[p := c]> (g_chans g) |>
                 <| g_peers := mktree (t_avl (g_peers g) <| a_nodes := <[p := mknode None None None 0]>
                                         (a_nodes (t_avl (g_peers g))) |>) (t_count (g_peers g)) |> in
      g ← __ring_list_put_into_head p g;
      Some (g, Some p)
  end.

(** [xl_free(&p)] on a frame of the store: the frame is gone and the pointer
    [NULL] when this was the last reference, and otherwise it stays. *)
Definition free_frame (m : positive) (frames : gmap positive xframe) : option (gmap positive xframe * option positive) :=
  f ← frames !! m;
  Some (match xl_free f with None => (delete m frames, None) | Some f => (<[m := f]> frames, Some m) end).

(** The messages that are queued, slot by slot. *)
Fixpoint clear_msgbuf (fuel : nat) (i : Z) (s : st) : option st :=
  let mb := c_msgbuf (s_ch s) in
  if decide (i < r_range mb) then
    match fuel with
    | O => None
    | S fuel =>
        slot ← ring_get mb i;
        s ← match slot with
          | None => Some s
          | Some m =>
              f ← s_frames s !! m;
              '(frames, slot) ← free_frame m (s_frames s);
              mb ← ring_set mb i slot;
              Some (s <| s_ms; m_len := u64 (m_len (s_ms s) - u64 (f_wpos f - f_rpos f)) |>
                      <| s_frames := frames |> <| s_ch; c_msgbuf := mb |>)
          end;
        clear_msgbuf fuel (i + 1) s
    end
  else Some s.

Fixpoint clear_recvbuf (fuel : nat) (i : Z) (rb : ring (option xpack)) : option (ring (option xpack)) :=
  if decide (i < r_range rb) then
    match fuel with
    | O => None
    | S fuel =>
        slot ← ring_get rb i;
        rb ← match slot with None => Some rb | Some _ => ring_set rb i None end;
        clear_recvbuf fuel (i + 1) rb
    end
  else Some rb.

Definition free_msg (m : option positive) (s : st) : option (st * option positive) :=
  match m with
  | None => Some (s, None)
  | Some m => '(frames, m) ← free_frame m (s_frames s); Some (s <| s_frames := frames |>, m)
  end.

Definition xchannel_clear (s : st) : option st :=
  let sb := c_sendbuf (s_ch s) in
  let sb := sb <| r_spos := r_wpos sb |> <| r_rpos := r_wpos sb |> in
  rb ← clear_recvbuf (Z.to_nat (r_range (c_recvbuf (s_ch s)))) 0 (c_recvbuf (s_ch s));
  let s := s <| s_ch; c_sendbuf := sb |> <| s_ch; c_recvbuf := rb |> in
  s ← clear_msgbuf (Z.to_nat (r_range (c_msgbuf (s_ch s)))) 0 s;
  '(s, m) ← free_msg (c_msg (s_ch s)) s;
  let s := s <| s_ch; c_msg := m |> in
  '(s, m) ← free_msg (c_req (s_ch s)) s;
  Some (s <| s_ch; c_req := m |>).

Definition xchannel_free (p : positive) (g : messenger) : option messenger :=
  '(g, _) ← on_channel p (fun s => s ← xchannel_clear s; Some (s, tt)) g;
  g ← __ring_list_take_out p g;
  empty ← avl_node_empty p (t_avl (g_peers g));
  t ← (if empty : bool then Some (g_peers g) else avl_tree_remove p (g_peers g));
  Some (g <| g_peers := mktree (t_avl t <| a_nodes := delete p (a_nodes (t_avl t)) |>) (t_count t) |>
          <| g_chans := delete p (g_chans g) |>).

(** ** The commands of the clients *)

(** A local datagram: the type in [ack.type], the frame in [flags[0]] with the
    address and the channel in its arguments, and the channel in [flags[8]]. *)
Record command := mkcommand {
  l_type : Z; l_msg : option positive; l_ipaddr : addr; l_channel : option positive; l_flags8 : option positive;
}.

(** [do ... while]: numbers are tried until one is free for the address; as many
    as there are channels are enough when there is a free one. *)
Fixpoint cid_loop (fuel : nat) (p : positive) (g : messenger) : option messenger :=
  match fuel with
  | O => None
  | S fuel =>
      let cid := u16 (g_cid g) in
      g ← upd_chan p (fun c => c <| x_ch; c_cid := cid |> <| x_ucid := set_cid (x_ucid c) cid |>)
            (g <| g_cid := u16 (cid + 1) |>);
      '(g, r) ← add_peer p g;
      match r with
      | None => Some g
      | Some _ => cid_loop fuel p g
      end
  end.

(** [xmsger_connect], [xmsger_disconnect] and [xmsger_flush] send a command to
    the loop, from the address [laddr] of the local socket; [sent] is what the
    socket did. *)
Definition xmsger_connect (msger msg : option positive) (f : xframe) (ipaddr : addr) (channel : option positive) (sent : bool)
  : option command * Z :=
  match msger, msg with
  | Some _, Some m =>
      if sent then (Some (mkcommand (f_type f) (Some m) ipaddr channel None), 0) else (None, -1)
  | _, _ => (None, -1)
  end.

Definition xmsger_disconnect := xmsger_connect.

Definition xmsger_flush (msger channel : option positive) (sent : bool) : option command * Z :=
  match msger, channel with
  | Some _, Some p => if sent then (Some (mkcommand XPACK_TYPE_FLUSH None no_addr None (Some p)), 0) else (None, -1)
  | _, _ => (None, -1)
  end.

(** The message becomes the next one of the queue. *)
Definition put_msg (m : positive) (s : st) : option st :=
  f ← s_frames s !! m;
  let mb := c_msgbuf (s_ch s) in
  mb ← ring_set mb (__serialbuf_wpos mb) (Some m);
  Some (s <| s_ms; m_len := u64 (m_len (s_ms s) + f_wpos f) |>
          <| s_ch; c_wpos := u64 (c_wpos (s_ch s) + f_wpos f) |>
          <| s_ch; c_msgbuf := mb <| r_wpos := u16 (r_wpos mb + 1) |> |>).

Definition fix_frame (m : positive) (f : xframe -> xframe) (g : messenger) : option messenger :=
  x ← g_frames g !! m; Some (g <| g_frames := <[m := f x]> (g_frames g) |>).

Definition xmsger_local_recv (head : command) (g : messenger) : option (messenger * Z) :=
  if decide (l_type head = XPACK_TYPE_REQ) then
    '(g, p) ← create_channel XPACK_SERIAL_RANGE g;
    match p with
    | None => Some (g, -1)
    | Some p =>
        match l_msg head with
        | None => Some (g, -1)
        | Some m =>
            g ← fix_frame m xmsg_fixed g;
            g ← fix_frame m xl_hold g;
            let a := l_ipaddr head in
            g ← upd_chan p (fun c => c <| x_ch; c_req := Some m |> <| x_addr := a |>
                                       <| x_sock := if is_ipv6 a then 1 else 0 |> <| x_ucid := a |>) g;
            g ← cid_loop (size (g_chans g)) p g;
            '(g, _) ← on_channel p (fun s => s ← put_msg m (s <| s_ch; c_ack; h_cid := c_cid (s_ch s) |>); Some (s, tt)) g;
            Some (g, 0)
        end
    end
  else if decide (l_type head = XPACK_TYPE_RES) then
    m ← l_msg head;
    match l_channel head with
    | None => Some (g, -1)
    | Some p =>
        g ← fix_frame m xmsg_fixed g;
        '(g, _) ← on_channel p (fun s => s ← put_msg m s; Some (s, tt)) g;
        Some (g, 0)
    end
  else if decide (l_type head = XPACK_TYPE_FLUSH) then
    p ← l_flags8 head;
    g ← xchannel_free p g;
    Some (g, 0)
  else Some (g, 0).

(** ** Sending *)

Fixpoint send_loop (fuel : nat) (channel : option positive) (g : messenger) : option messenger :=
  match channel with
  | None => Some g
  | Some p =>
      match fuel with
      | O => None
      | S fuel =>
          '(g, stop) ← on_channel p (send_tick e) g;
          if stop : bool then Some g
          else c ← g_chans g !! p; send_loop fuel (x_next c) g
      end
  end.

Definition xmsger_send_all (g : messenger) : option messenger :=
  if decide (g_len g > 0) then send_loop (size (g_chans g)) (g_first g) g else Some g.

(** ** Receiving *)

(** A datagram from a peer without a channel that asks for one. *)
Definition open_channel (sid : Z) (a cid : addr) (pack : xpack) (g : messenger) : option (messenger * Z) :=
  let h := k_head pack in
  '(g, p) ← create_channel (a_pos h) g;
  match p with
  | None => Some (g, -1)
  | Some p =>
      g ← upd_chan p (fun c => c <| x_ch; c_cid := h_cid h |> <| x_ch; c_ack; h_cid := h_cid h |>
                                 <| x_addr := a |> <| x_sock := sid |> <| x_ucid := cid |>) g;
      '(g, r) ← add_peer p g;
      match r with
      | Some _ => Some (g, -1)
      | None =>
          on_channel p (fun s =>
            '(s, r) ← xchannel_recv_pack e pack s;
            if decide (r ≠ 0) then Some (s, r) else s ← xchannel_send_ack e s; Some (s, 0)) g
      end
  end.

(** The handling of a datagram up to [xmsger_send_all]; a result other than 0
    ends the loop. *)
Definition recv_datagram (sid : Z) (a : addr) (pack : xpack) (g : messenger) : option (messenger * Z) :=
  let cid := set_cid a (h_cid (k_head pack)) in
  channel ← find_peer cid g;
  match channel with
  | Some p => on_channel p (recv_existing e pack) g
  | None =>
      if decide (h_type (k_head pack) = XPACK_TYPE_REQ) then open_channel sid a cid pack g
      else if decide (h_type (k_head pack) = XPACK_TYPE_RES) then
        s ← xchannel_send_final e pack (state_of (xchannel_create 0 0) g);
        Some (with_state None s g, 0)
      else Some (g, 0)
  end.

(** What [udp_recvfrom] can give: a command through the socket, or a datagram. *)
Inductive input :=
| Local (a : addr) (head : command)
| Datagram (sid : Z) (a : addr) (pack : xpack).

(** One turn of the inner loop. *)
Definition recv_turn (i : input) (g : messenger) : option (messenger * Z) :=
  match i with
  | Local a head =>
      if decide (w_0 a = w_0 (g_laddr g)) then '(g, _) ← xmsger_local_recv head g; Some (g, 0) else Some (g, 0)
  | Datagram sid a pack =>
      '(g, r) ← recv_datagram sid a pack g;
      if decide (r ≠ 0) then Some (g, r)
      else g ← xmsger_send_all g; Some (g, 0)
  end.

(** The inputs that are there are handled one by one, ... *)
Fixpoint recv_all (ins : list input) (g : messenger) : option (messenger * Z) :=
  match ins with
  | [] => Some (g, 0)
  | i :: ins =>
      '(g, r) ← recv_turn i g;
      if decide (r ≠ 0) then Some (g, r) else recv_all ins g
  end.

(** ... then the loop waits for the next ones and sends what is due.  Each
    element of [turns] is what one turn of the outer loop finds. *)
Fixpoint msger_loop (turns : list (list input)) (g : messenger) : option (messenger * Z) :=
  match turns with
  | [] => Some (g, 0)
  | ins :: turns =>
      '(g, r) ← recv_all ins g;
      if decide (r ≠ 0) then Some (g, r)
      else
        g ← xmsger_send_all (g <| g_ms; m_timer := 10000000 |>);
        msger_loop turns g
  end.

(** [msger->running] is [false] and the thread has ended: every channel is freed. *)
Fixpoint free_loop (fuel : nat) (channel : option positive) (g : messenger) : option messenger :=
  match channel with
  | None => Some g
  | Some p =>
      match fuel with
      | O => None
      | S fuel => c ← g_chans g !! p; g ← xchannel_free p g; free_loop fuel (x_next c) g
      end
  end.

Definition xmsger_free (g : messenger) : option messenger :=
  g ← free_loop (size (g_chans g)) (g_first g) g;
  '(t, _) ← avl_tree_clear (g_peers g);
  Some (g <| g_peers := t |>).
End Messenger.

(** [xmsger_create] once the sockets are open. *)
Definition xmsger_create (now : Z) (laddr : addr) : messenger :=
  mkmessenger (mkmsger 0 0 100000000) (u16 (now mod 65535)) laddr (avl_tree_init ∅) 0 None None ∅ ∅ 0 [].
