(* ===== verification/Peers.v ===== *)
(** * The channels of a messenger

    The list of channels and the tree of peers hold the same channels, the tree
    sorted by address and number, whatever the peers and the clients do; so a
    datagram is handled by the one channel that belongs to it. *)

From stdpp Require Import sorting.
From S2P Require Import Prelude Xline Channel Avl AvlShape AvlBalance AvlTree Messenger.
#[local] Open Scope Z_scope.

(** ** The list *)

(** The channels of [l] are linked; before them is [prev], after them [next]. *)
Fixpoint seg (m : gmap positive chan) (prev : option positive) (l : list positive) (next : option positive) : Prop :=
  match l with
  | [] => True
  | p :: l =>
      (exists c, m !! p = Some c /\ x_prev c = prev
        /\ x_next c = match head l with Some q => Some q | None => next end)
      /\ seg m (Some p) l next
  end.

Definition or_else {A} (x y : option A) : option A := match x with Some _ => x | None => y end.

Lemma or_else_none {A} (x : option A) : or_else x None = x.
Proof. by destruct x. Qed.

Lemma head_app {A} (a b : list A) : head (a ++ b) = or_else (head a) (head b).
Proof. by destruct a. Qed.

Lemma seg_app m prev a b next :
  seg m prev (a ++ b) next <-> seg m prev a (or_else (head b) next) /\ seg m (or_else (last a) prev) b next.
Proof.
  revert prev. induction a as [|p a IH]; intros prev; cbn [app seg].
  - split; [done|by intros [_ ?]].
  - rewrite IH, head_app. replace (last (p :: a)) with (or_else (last a) (Some p)) by (rewrite last_cons; by destruct (last a)).
    replace (or_else (or_else (last a) (Some p)) prev) with (or_else (last a) (Some p)) by (by destruct (last a)).
    replace (match or_else (head a) (head b) with Some q => Some q | None => next end)
      with (match head a with Some q => Some q | None => or_else (head b) next end) by (by destruct (head a), (head b)).
    tauto.
Qed.

Lemma seg_agree m m' prev l next : (forall p, p ∈ l -> m' !! p = m !! p) -> seg m prev l next -> seg m' prev l next.
Proof.
  revert prev. induction l as [|p l IH]; intros prev Hl; cbn [seg]; [done|]. intros [(c & Hc & Hp) Hs].
  split; [exists c; rewrite Hl by left; done|]. apply IH; [|done]. intros q Hq. apply Hl. by right.
Qed.

(** What the list operations leave alone. *)
Definition core (c : chan) : chan := c <| x_prev := None |> <| x_next := None |>.
Definition same_core (m m' : gmap positive chan) : Prop := core <$> m' = core <$> m.

Lemma same_core_insert m p c c' : m !! p = Some c -> core c' = core c -> same_core m (<[p := c']> m).
Proof. intros Hp Hc. unfold same_core. rewrite fmap_insert, Hc. apply insert_id. by rewrite lookup_fmap, Hp. Qed.

Lemma same_core_lookup m m' p c' : same_core m m' -> m' !! p = Some c' -> exists c, m !! p = Some c /\ core c = core c'.
Proof.
  intros H Hp. assert ((core <$> m') !! p = Some (core c')) as E by (by rewrite lookup_fmap, Hp). rewrite H, lookup_fmap in E.
  destruct (m !! p) as [c|]; simpl in E; [|done]. exists c. split; [done|]. by apply (inj Some).
Qed.

(** The link from the end of [a], or from the head of the list, is set. *)
Lemma set_next_ok g a next v : seg (g_chans g) None a next -> NoDup a ->
  exists m, set_next (last a) v g = Some (g <| g_first := if a is [] then v else g_first g |> <| g_chans := m |>)
    /\ seg m None a v /\ (forall q, q ∉ a -> m !! q = g_chans g !! q) /\ same_core (g_chans g) m.
Proof.
  intros Hs ND. destruct a as [|q a _] using rev_ind.
  - exists (g_chans g). simpl. split; [by destruct g|done].
  - rewrite last_snoc. apply seg_app in Hs as [Ha [(c & Hc & Hp & Hn) _]]. simpl in Hp, Hn, Ha.
    apply NoDup_app in ND as (NDa & Hd & _). unfold set_next, upd_chan. rewrite Hc. cbn [mbind option_bind].
    exists (<[q := c <| x_next := v |>]> (g_chans g)). split.
    { destruct (a ++ [q]) eqn:E; [by destruct a|]. by destruct g. }
    assert (Hq : q ∉ a) by (intros Hq; apply (Hd q Hq); by left).
    split; [|split].
    + apply seg_app. split.
      * eapply seg_agree; [|exact Ha]. intros p Hp'. apply lookup_insert_ne. by intros ->.
      * simpl. split; [|done]. exists (c <| x_next := v |>). by rewrite lookup_insert_eq.
    + intros p Hp'. apply lookup_insert_ne. intros ->. apply Hp'. set_solver.
    + by eapply same_core_insert.
Qed.

(** The link back from the start of [b], or from the head of the list, is set. *)
Lemma set_prev_ok g prev b v : seg (g_chans g) prev b None -> NoDup b ->
  exists m, set_prev (head b) v g = Some (g <| g_last := if b is [] then v else g_last g |> <| g_chans := m |>)
    /\ seg m v b None /\ (forall q, q ∉ b -> m !! q = g_chans g !! q) /\ same_core (g_chans g) m.
Proof.
  intros Hs ND. destruct b as [|q b].
  - exists (g_chans g). simpl. split; [by destruct g|done].
  - destruct Hs as [(c & Hc & Hp & Hn) Hs]. apply NoDup_cons in ND as [Hq ND]. simpl.
    unfold upd_chan. rewrite Hc. cbn [mbind option_bind].
    exists (<[q := c <| x_prev := v |>]> (g_chans g)). split; [by destruct g|]. split; [split|split].
    + exists (c <| x_prev := v |>). by rewrite lookup_insert_eq.
    + eapply seg_agree; [|exact Hs]. intros p Hp'. apply lookup_insert_ne. by intros ->.
    + intros p Hp'. apply lookup_insert_ne. intros ->. apply Hp'. by left.
    + by eapply same_core_insert.
Qed.

Record list_ok (g : messenger) (ps : list positive) : Prop := {
  lo_nodup : NoDup ps;
  lo_first : g_first g = head ps;
  lo_last : g_last g = last ps;
  lo_seg : seg (g_chans g) None ps None;
  lo_len : g_len g = u64 (Z.of_nat (length ps));
}.

(** Only the list fields and the links change. *)
Definition relinked (g g' : messenger) : Prop :=
  same_core (g_chans g) (g_chans g')
  /\ exists f l n m, g' = g <| g_first := f |> <| g_last := l |> <| g_len := n |> <| g_chans := m |>.

Lemma put_into_head_ok g ps p c : list_ok g ps -> p ∉ ps -> g_chans g !! p = Some c ->
  exists g', __ring_list_put_into_head p g = Some g' /\ list_ok g' (p :: ps) /\ relinked g g'.
Proof.
  intros [ND Hf Hl Hs Hn] Hp Hc. unfold __ring_list_put_into_head, upd_chan. rewrite Hc. cbn [mbind option_bind].
  simpl g_chans. rewrite lookup_insert_eq. cbn [mbind option_bind]. rewrite insert_insert_eq. simpl g_chans.
  rewrite lookup_insert_eq. cbn [mbind option_bind]. simpl x_prev. cbn [set_next mbind option_bind]. simpl g_chans.
  rewrite lookup_insert_eq. cbn [mbind option_bind]. simpl x_next. rewrite Hf.
  match goal with |- context [set_prev _ _ ?x] => set (g1 := x) end.
  assert (exists c1, g_chans g1 !! p = Some c1 /\ x_prev c1 = None /\ x_next c1 = head ps) as (c1 & Hc1 & Hp1 & Hx1)
    by (eexists; split; [apply lookup_insert_eq|done]).
  assert (Hs1 : seg (g_chans g1) None ps None).
  { eapply seg_agree; [|exact Hs]. intros q Hq. apply lookup_insert_ne. by intros ->. }
  destruct (set_prev_ok g1 None ps (Some p) Hs1 ND) as (m & E & Hm & Ho & Hsc). rewrite E. cbn [mbind option_bind].
  eexists. split; [done|]. split; [split|].
  - by apply NoDup_cons.
  - done.
  - simpl g_last. rewrite last_cons, <- Hl. destruct ps as [|q ps]; [by rewrite Hl|].
    simpl. rewrite Hl. by destruct (last (q :: ps)) eqn:El; [|apply last_None in El].
  - split; [|done]. exists c1. rewrite Ho by done. split; [done|]. split; [done|]. rewrite Hx1. by destruct ps.
  - simpl. rewrite Hn, u64_add_l. f_equal. lia.
  - split; [|by eexists _, _, _, _]. unfold same_core in *. simpl g_chans. rewrite Hsc. by apply (same_core_insert _ _ c).
Qed.

Lemma take_out_ok g a p b : list_ok g (a ++ p :: b) ->
  exists g', __ring_list_take_out p g = Some g' /\ list_ok g' (a ++ b) /\ relinked g g'.
Proof.
  intros [ND Hf Hl Hs Hn]. apply seg_app in Hs as [Ha [(c & Hc & Hp & Hnx) Hb]].
  simpl or_else in Ha. rewrite or_else_none in Hp. pose proof ND as (NDa & Hd & [Hpb NDb]%NoDup_cons)%NoDup_app.
  assert (Hpa : p ∉ a) by (intros H; apply (Hd p H); by left).
  assert (Hx : x_next c = head b) by (by rewrite Hnx; destruct (head b)). clear Hnx.
  unfold __ring_list_take_out. rewrite Hc. cbn [mbind option_bind]. rewrite Hp, Hx.
  destruct (set_next_ok g a _ (head b) Ha NDa) as (m1 & E1 & Ha1 & Ho1 & Hc1). rewrite E1. cbn [mbind option_bind].
  simpl g_chans. rewrite (Ho1 p Hpa), Hc. cbn [mbind option_bind]. rewrite Hp, Hx.
  match goal with |- context [set_prev _ _ ?x] => set (g1 := x) end.
  assert (Hb1 : seg (g_chans g1) (Some p) b None).
  { eapply seg_agree; [|exact Hb]. intros q Hq. apply Ho1. intros Hqa. apply (Hd q Hqa). by right. }
  destruct (set_prev_ok g1 (Some p) b (last a) Hb1 NDb) as (m2 & E2 & Hb2 & Ho2 & Hc2). rewrite E2. cbn [mbind option_bind].
  eexists. split; [done|]. split; [split|].
  - apply NoDup_app. split; [done|]. split; [|done]. intros q Hqa Hqb. apply (Hd q Hqa). by right.
  - simpl. rewrite head_app. destruct a; [by destruct b|done].
  - simpl. rewrite Hl, !last_app, last_cons. destruct b as [|q b]; [simpl; by destruct (last a)|].
    simpl. destruct (last (q :: b)) eqn:El; [done|by apply last_None in El].
  - apply seg_app. rewrite !or_else_none. split; [|done].
    eapply seg_agree; [|exact Ha1]. intros q Hq. apply Ho2. intros Hqb. apply (Hd q Hq). by right.
  - simpl. rewrite Hn, !length_app. simpl length. rewrite u64_pred. f_equal. lia.
  - split; [|by eexists _, _, _, _]. unfold same_core in *. simpl g_chans in *. by rewrite Hc2.
Qed.

(** ** The tree of peers *)

Definition akey (a : addr) : Z := u64 (w_0 a) * 2 ^ 128 + u64 (w_1 a) * 2 ^ 64 + u64 (w_2 a).
Definition ukey (g : messenger) (p : positive) : Z := akey (ucid_of g p).

Lemma unicid_find_key a b : (unicid_find a b = 0 <-> akey a = akey b) /\ (unicid_find a b < 0 <-> akey a < akey b).
Proof.
  unfold unicid_find, akey. pose proof (u64_range (w_0 a)). pose proof (u64_range (w_1 a)). pose proof (u64_range (w_2 a)).
  pose proof (u64_range (w_0 b)). pose proof (u64_range (w_1 b)). pose proof (u64_range (w_2 b)).
  change (2 ^ 128) with (2 ^ 64 * 2 ^ 64). repeat case_decide; split; split; intros; nia.
Qed.

#[export] Instance unicid_find_compares g : Compares (fun a q => unicid_find a (ucid_of g q)) akey (ukey g).
Proof. split; intros; apply unicid_find_key. Qed.
#[export] Instance unicid_comp_compares g : Compares (unicid_comp g) (ukey g) (ukey g).
Proof. split; intros; apply unicid_find_key. Qed.

Definition peers_ok (g : messenger) (es : list positive) : Prop := is_tree (g_peers g) es /\ sorted (ukey g) es.

Lemma sorted_ext key key' l : (forall p, p ∈ l -> key p = key' p) -> sorted key l -> sorted key' l.
Proof.
  intros H. unfold sorted. induction 1 as [|p l Hs IH Hp]; [constructor|]. constructor.
  - apply IH. intros q Hq. apply H. by right.
  - rewrite Forall_forall in Hp |- *. intros q Hq. rewrite <- !H by (left || by right). by apply Hp.
Qed.

Lemma sorted_inj key l p q : sorted key l -> p ∈ l -> q ∈ l -> key p = key q -> p = q.
Proof.
  unfold sorted. induction 1 as [|x l Hs IH Hx]; [by intros ?%not_elem_of_nil|]. rewrite Forall_forall in Hx.
  intros [->|Hp]%elem_of_cons [->|Hq]%elem_of_cons Hk; [done|apply Hx in Hq; lia|apply Hx in Hp; lia|by apply IH].
Qed.

(** A node outside the tree may come and go. *)
Lemma is_tree_agree t a es p : is_tree t es -> p ∉ es -> agree [p] (t_avl t) a -> a_root a = a_root (t_avl t) ->
  is_tree (mktree a (t_count t)) es.
Proof.
  intros (T & (Hs & Hc & ND) & B & E & C) Hp Ha Hr. exists T. split; [|done]. split; [|split; [|done]].
  - eapply shape_agree; [exact Ha| |exact Hs]. rewrite E. intros q Hq ->%list_elem_of_singleton. done.
  - eapply cshape_agree; [exact Ha|done| |exact Hc]. by intros q ?%not_elem_of_nil.
Qed.

Lemma ukey_core g g' p : same_core (g_chans g) (g_chans g') -> ukey g' p = ukey g p.
Proof.
  intros H. unfold ukey, ucid_of. f_equal.
  destruct (g_chans g' !! p) as [c'|] eqn:E'.
  - destruct (same_core_lookup _ _ _ _ H E') as (c & -> & Hc). by apply (f_equal x_ucid) in Hc.
  - destruct (g_chans g !! p) as [c|] eqn:E; [|done].
    destruct (same_core_lookup (g_chans g') (g_chans g) p c) as (c' & Hc' & _); [done|done|congruence].
Qed.

(** ** Both together *)

(** The channels [ps] are in the list, [es] of them in the tree. *)
Record channels (g : messenger) (ps es : list positive) : Prop := {
  ch_list : list_ok g ps;
  ch_peers : peers_ok g es;
  ch_dom p : is_Some (g_chans g !! p) <-> p ∈ ps;
  ch_sub p : p ∈ es -> p ∈ ps;
}.

Definition messenger_ok (g : messenger) : Prop := exists ps es, channels g ps es /\ es ≡ₚ ps.

Lemma seg_update m prev l next p c c' : m !! p = Some c -> x_prev c' = x_prev c -> x_next c' = x_next c ->
  seg m prev l next -> seg (<[p := c']> m) prev l next.
Proof.
  intros Hp H1 H2. revert prev. induction l as [|q l IH]; intros prev; cbn [seg]; [done|].
  intros [(c0 & H0 & Hpr & Hnx) Hs]. split; [|by apply IH]. destruct (decide (p = q)) as [<-|Hne].
  - exists c'. rewrite lookup_insert_eq. assert (c0 = c) as -> by congruence. split; [done|]. by rewrite H1, H2.
  - exists c0. by rewrite lookup_insert_ne.
Qed.

(** A channel changes apart from its links, and from its place in the tree. *)
Lemma channels_update g g' ps es p c c' :
  channels g ps es -> g_chans g !! p = Some c -> g_chans g' = <[p := c']> (g_chans g) ->
  x_prev c' = x_prev c -> x_next c' = x_next c -> (p ∈ es -> x_ucid c' = x_ucid c) ->
  g_peers g' = g_peers g -> g_len g' = g_len g -> g_first g' = g_first g -> g_last g' = g_last g ->
  channels g' ps es.
Proof.
  intros [[ND Hf Hl Hs Hn] [Ht Hso] Hd Hsub] Hc Hc' H1 H2 Hu E1 E2 E3 E4. split; [split|split|..].
  - done.
  - by rewrite E3.
  - by rewrite E4.
  - rewrite Hc'. by eapply seg_update.
  - by rewrite E2.
  - by rewrite E1.
  - eapply sorted_ext; [|exact Hso]. intros q Hq. unfold ukey, ucid_of. rewrite Hc'. destruct (decide (p = q)) as [<-|Hne].
    + rewrite lookup_insert_eq, Hc. by rewrite Hu.
    + by rewrite lookup_insert_ne.
  - intros q. rewrite Hc', lookup_insert_is_Some. rewrite <- Hd. destruct (decide (p = q)) as [<-|Hne]; [|naive_solver].
    split; [by eexists|by left].
  - done.
Qed.

(** Fields of the messenger that have nothing to do with the channels. *)
Lemma channels_same g g' ps es : channels g ps es -> g_chans g' = g_chans g ->
  g_peers g' = g_peers g -> g_len g' = g_len g -> g_first g' = g_first g -> g_last g' = g_last g -> channels g' ps es.
Proof.
  intros [[ND Hf Hl Hs Hn] [Ht Hso] Hd Hsub] E0 E1 E2 E3 E4.
  assert (Hu : forall q, ukey g' q = ukey g q) by (intros q; unfold ukey, ucid_of; by rewrite E0).
  split; [split; congruence|split; [by rewrite E1|]|by rewrite E0|done].
  eapply sorted_ext; [|exact Hso]. done.
Qed.

Lemma on_channel_ok {A} p (f : st -> option (st * A)) g g' r ps es :
  channels g ps es -> on_channel p f g = Some (g', r) -> channels g' ps es.
Proof.
  intros H E. unfold on_channel in E. destruct (g_chans g !! p) as [c|] eqn:Hc; [|done]. cbn [mbind option_bind] in E.
  destruct (f (state_of (x_ch c) g)) as [[s r']|]; [|done]. cbn [mbind option_bind] in E. injection E as <- <-.
  by eapply (channels_update g _ ps es p c (c <| x_ch := s_ch s |>)).
Qed.

(** An event of a channel leaves the other channels alone. *)
Lemma on_channel_other {A} p (f : st -> option (st * A)) g g' r q :
  on_channel p f g = Some (g', r) -> q ≠ p -> g_chans g' !! q = g_chans g !! q.
Proof.
  intros E Hq. unfold on_channel in E. destruct (g_chans g !! p) as [c|] eqn:Hc; [|done]. cbn [mbind option_bind] in E.
  destruct (f (state_of (x_ch c) g)) as [[s r']|]; [|done]. cbn [mbind option_bind] in E. injection E as <- <-.
  simpl. by rewrite lookup_insert_ne.
Qed.

Lemma upd_chan_ok p f g ps es : channels g ps es -> p ∈ ps -> p ∉ es ->
  (forall c, x_prev (f c) = x_prev c /\ x_next (f c) = x_next c) ->
  exists g', upd_chan p f g = Some g' /\ channels g' ps es /\ (forall q, q ≠ p -> ukey g' q = ukey g q)
    /\ g_peers g' = g_peers g /\ g_chans g' = alter f p (g_chans g).
Proof.
  intros H Hp He Hf. destruct (proj2 (ch_dom _ _ _ H p) Hp) as [c Hc]. unfold upd_chan. rewrite Hc. cbn [mbind option_bind].
  eexists. split; [done|]. split; [|split; [|split; [done|]]].
  - by eapply (channels_update g _ ps es p c (f c)); [..|apply Hf|apply Hf| | | | |].
  - intros q Hq. unfold ukey, ucid_of. simpl. by rewrite lookup_insert_ne.
  - simpl. apply map_eq. intros q. destruct (decide (p = q)) as [->|].
    + by rewrite lookup_insert_eq, lookup_alter_eq, Hc.
    + by rewrite lookup_insert_ne, lookup_alter_ne.
Qed.

(** ** Opening *)

Definition fresh_address (calloc : messenger -> option positive) : Prop :=
  forall g p, calloc g = Some p -> g_chans g !! p = None.

Lemma create_channel_ok e calloc range g ps es : fresh_address calloc -> channels g ps es ->
  calloc g = None /\ create_channel e calloc range g = Some (g, None)
  \/ exists g' p, create_channel e calloc range g = Some (g', Some p) /\ channels g' (p :: ps) es /\ (p ∉ ps)
     /\ is_Some (get p (t_avl (g_peers g'))) /\ (forall q, q ≠ p -> ukey g' q = ukey g q)
     /\ (exists c, g_chans g' !! p = Some c /\ x_ch c = xchannel_create (u64 (e_clock e (g_tick g))) range)
     /\ g_log g' = g_log g /\ g_frames g' = g_frames g /\ g_ms g' = g_ms g /\ g_cid g' = g_cid g
     /\ g_tick g' = S (g_tick g) /\ calloc g = Some p
     /\ (forall q, q ≠ p -> core <$> (g_chans g' !! q) = core <$> (g_chans g !! q)).
Proof.
  intros Hcal H. unfold create_channel. destruct (calloc g) as [p|] eqn:E; [|by left]. right.
  pose proof H as [Hl [Ht Hso] Hd Hsub]. pose proof (Hcal g p E) as Hnew.
  assert (Hp : p ∉ ps) by (rewrite <- Hd, Hnew; by intros [? ?]).
  set (now := u64 (e_clock e (g_tick g))). set (c0 := mkchan _ _ _ _ _ _ _).
  match goal with |- context [__ring_list_put_into_head p ?x] => set (g1 := x) end.
  assert (Hl1 : list_ok g1 ps).
  { destruct Hl as [ND Hf Hl' Hs Hn]. split; [done..| |done]. eapply seg_agree; [|exact Hs].
    intros q Hq. apply lookup_insert_ne. by intros ->. }
  destruct (put_into_head_ok g1 ps p c0 Hl1 Hp) as (g' & E' & Hl' & Hc & Hre); [apply lookup_insert_eq|].
  destruct Hre as (f & l & n & m & ->). rewrite E'. cbn [mbind option_bind].
  assert (Hm : core <$> m = core <$> (<[p := c0]> (g_chans g))) by exact Hc.
  assert (Hk : forall q, q ≠ p -> ukey (g1 <| g_first := f |> <| g_last := l |> <| g_len := n |> <| g_chans := m |>) q = ukey g q).
  { intros q Hq. rewrite (ukey_core g1) by done. unfold ukey, ucid_of. simpl. by rewrite lookup_insert_ne. }
  eexists _, p. split; [done|]. split; [|split; [done|split; [|split; [done|split; [|split_and!; try done]]]]].
  - split; [done| | |].
    + split; [eapply is_tree_agree; [exact Ht| | |done]|].
      * intros Hpe. by apply Hp, Hsub.
      * intros q Hq. unfold get. simpl. apply lookup_insert_ne. intros ->. apply Hq. by left.
      * eapply sorted_ext; [|exact Hso]. intros q Hq. rewrite Hk; [done|]. intros ->. by apply Hp, Hsub.
    + intros q. simpl. rewrite <- (fmap_is_Some core), <- lookup_fmap. rewrite Hm, lookup_fmap, fmap_is_Some, lookup_insert_is_Some.
      rewrite elem_of_cons, Hd. destruct (decide (p = q)); naive_solver.
    + intros q Hq. right. by apply Hsub.
  - simpl. unfold get. simpl. rewrite lookup_insert_eq. by eexists.
  - assert (core <$> (m !! p) = Some (core c0)) as Hcp by (by rewrite <- lookup_fmap, Hm, lookup_fmap, lookup_insert_eq).
    simpl. destruct (m !! p) as [c|]; simpl in Hcp; [|done]. exists c. split; [done|]. apply (inj Some) in Hcp.
    by apply (f_equal x_ch) in Hcp.
  - intros q Hq. simpl. by rewrite <- lookup_fmap, Hm, lookup_fmap, lookup_insert_ne.
Qed.

(** The peer with an address and a number. *)
Definition has_ucid (g : messenger) (a : addr) (p : positive) : Prop := ukey g p = akey a.

Lemma find_peer_ok g ps es a : channels g ps es -> find_peer a g = Some (with_key (ukey g) (akey a) es).
Proof.
  intros [_ [Ht Hso] _ _]. unfold find_peer. destruct (is_tree_sound _ _ Ht) as (T & Hs & E & _). pose proof Hs as (S & B & _).
  unfold avl_tree_find. rewrite (root_ok _ _ S). rewrite <- E in Hso |- *.
  apply (tree_find_loop_ok _ _ _ a T (t_avl (g_peers g)) None _ (proj1 S) Hso B). by apply fuel_height.
Qed.

Lemma with_key_some key x l p : with_key key x l = Some p -> p ∈ l /\ key p = x.
Proof.
  unfold with_key. intros E. assert (p ∈ filter (fun q => key q = x) l) as [? ?]%list_elem_of_filter; [|done].
  destruct (filter _ l); [done|]. injection E as ->. by left.
Qed.

Lemma with_key_empty key x l : with_key key x l = None -> forall q, q ∈ l -> key q ≠ x.
Proof.
  unfold with_key. intros E q Hq Hk. assert (q ∈ filter (fun q => key q = x) l) as Hf by by apply list_elem_of_filter.
  destruct (filter _ l); [by apply not_elem_of_nil in Hf|done].
Qed.

Lemma add_peer_ok g ps es p : channels g ps es -> p ∈ ps -> p ∉ es -> is_Some (get p (t_avl (g_peers g))) ->
  (exists q, q ∈ es /\ ukey g q = ukey g p /\ add_peer p g = Some (g, Some q))
  \/ exists g' es', add_peer p g = Some (g', None) /\ channels g' ps es' /\ es' ≡ₚ p :: es
     /\ g_chans g' = g_chans g /\ g_frames g' = g_frames g /\ g_ms g' = g_ms g /\ g_cid g' = g_cid g
     /\ g_tick g' = g_tick g /\ g_log g' = g_log g.
Proof.
  intros H Hp He Hg. pose proof H as [Hl [Ht Hso] Hd Hsub]. unfold add_peer.
  destruct (tree_add_ok (unicid_comp g) (ukey g) p (g_peers g) es Ht Hso Hg He)
    as [(q & Hq & Hk & E)|(t' & a & b & Eab & E & Ht' & Hso' & _)]; rewrite E; cbn [mbind option_bind].
  - left. exists q. split; [done|]. split; [done|]. by destruct g.
  - right. eexists _, (a ++ p :: b). split; [done|]. split; [|split; [|done]].
    + destruct Hl as [ND Hf Hl Hs Hn]. split; [done|split; [done|]|done|].
      * eapply sorted_ext; [|exact Hso']. done.
      * intros q. rewrite <- Permutation_middle, <- Eab. intros [->|?]%elem_of_cons; [done|by apply Hsub].
    + by rewrite <- Permutation_middle, Eab.
Qed.

(** ** Channel numbers *)

Lemma land_high w : u64 (Z.land w (2 ^ 64 - 2 ^ 16)) = u64 w / 2 ^ 16 * 2 ^ 16.
Proof.
  unfold u64. rewrite !wrap_land by lia. rewrite <- Z.shiftr_div_pow2, <- Z.shiftl_mul_pow2 by lia.
  change (2 ^ 64 - 2 ^ 16) with (Z.shiftl (Z.ones 48) 16).
  apply Z.bits_inj_iff'. intros i Hi. rewrite Z.shiftl_spec, !Z.land_spec by done.
  destruct (decide (i < 16)).
  - rewrite Z.shiftl_spec_low, (Z.testbit_neg_r _ (i - 16)) by lia. by rewrite andb_false_r.
  - rewrite Z.shiftl_spec, Z.shiftr_spec, Z.land_spec by lia. replace (i - 16 + 16) with i by lia.
    destruct (decide (i < 64)).
    + rewrite !Z.ones_spec_low by lia. by rewrite !andb_true_r.
    + rewrite !Z.ones_spec_high by lia. by rewrite !andb_false_r.
Qed.

(** What a number adds to the key of an address. *)
Lemma akey_set_cid a c : 0 <= c < 2 ^ 16 ->
  akey (set_cid a c) = (u64 (w_0 a) / 2 ^ 16 * 2 ^ 16 + c) * 2 ^ 128 + u64 (w_1 a) * 2 ^ 64 + u64 (w_2 a).
Proof.
  intros Hc. unfold akey, set_cid. simpl w_0. simpl w_1. simpl w_2. f_equal. f_equal. f_equal.
  rewrite <- land_high. pose proof (land_high (w_0 a)) as E. pose proof (u64_range (w_0 a)).
  assert (u64 (Z.lor (Z.land (w_0 a) (2 ^ 64 - 2 ^ 16)) c) = Z.lor (u64 (Z.land (w_0 a) (2 ^ 64 - 2 ^ 16))) c) as ->.
  { unfold u64. rewrite !wrap_land, Z.land_lor_distr_l by lia. f_equal.
    rewrite <- (wrap_land 64), wrap_small by lia. done. }
  rewrite E, lor_add_low by lia. done.
Qed.

Lemma set_cid_again a c c' : 0 <= c < 2 ^ 16 -> 0 <= c' < 2 ^ 16 -> akey (set_cid (set_cid a c) c') = akey (set_cid a c').
Proof.
  intros H H'. rewrite !akey_set_cid by done. pose proof (akey_set_cid a c H) as E. unfold akey in E.
  assert (u64 (w_0 (set_cid a c)) / 2 ^ 16 = u64 (w_0 a) / 2 ^ 16) as ->.
  { assert (u64 (w_0 (set_cid a c)) = u64 (w_0 a) / 2 ^ 16 * 2 ^ 16 + c) as ->.
    { simpl w_1 in E. simpl w_2 in E. lia. }
    rewrite Z.div_add_l by lia. rewrite (Z.div_small c) by lia. lia. }
  done.
Qed.

Lemma akey_set_cid_inj a c c' : 0 <= c < 2 ^ 16 -> 0 <= c' < 2 ^ 16 -> akey (set_cid a c) = akey (set_cid a c') -> c = c'.
Proof. intros H H'. rewrite !akey_set_cid by done. lia. Qed.

(** Fewer channels than numbers leave a number free, not far from any start. *)
Lemma free_number g es a start : Z.of_nat (length es) < 2 ^ 16 ->
  exists c, 0 <= c < 2 ^ 16 /\ u16 (c - start) <= Z.of_nat (length es) /\ forall q, q ∈ es -> ukey g q ≠ akey (set_cid a c).
Proof.
  intros Hlen. set (ns := seqZ 0 (Z.of_nat (length es) + 1)).
  set (key := fun k => akey (set_cid a (u16 (start + k)))).
  assert (Hin : forall k, k ∈ ns -> 0 <= k <= Z.of_nat (length es)) by (intros k Hk%elem_of_seqZ; lia).
  destruct (decide (Forall (fun k => key k ∈ map (ukey g) es) ns)) as [H|H].
  - exfalso. assert (Hsub : key <$> ns ⊆+ map (ukey g) es).
    { apply NoDup_submseteq.
      - apply NoDup_fmap_2_strong; [|apply NoDup_seqZ]. intros x y Hx%Hin Hy%Hin E.
        apply akey_set_cid_inj in E; [|apply u16_range..]. apply u16_inj in E; lia.
      - intros x [c [-> Hc]]%list_elem_of_fmap. rewrite Forall_forall in H. by apply H. }
    apply submseteq_length in Hsub. unfold ns in Hsub. rewrite length_fmap, length_seqZ, length_map in Hsub. lia.
  - apply not_Forall_Exists in H; [|apply _]. apply Exists_exists in H as (k & Hk%Hin & Hn).
    exists (u16 (start + k)). split; [apply u16_range|]. split.
    + rewrite u16_sub_l. replace (start + k - start) with k by lia. rewrite u16_small; lia.
    + intros q Hq Hkq. apply Hn. unfold key. rewrite <- Hkq. by apply list_elem_of_fmap_2.
Qed.

(** What opening a channel leaves as it is. *)
Record kept (p : positive) (g g' : messenger) : Prop := {
  kp_other q : q ≠ p -> ukey g' q = ukey g q;
  kp_frames : g_frames g' = g_frames g;
  kp_ms : g_ms g' = g_ms g;
  kp_log : g_log g' = g_log g;
}.

Lemma kept_trans p g1 g2 g3 : kept p g1 g2 -> kept p g2 g3 -> kept p g1 g3.
Proof. intros [A1 A2 A3 A4] [B1 B2 B3 B4]. split; [intros q Hq; by rewrite B1, A1|congruence..]. Qed.

Lemma cid_loop_ok a p c0 : 0 <= c0 < 2 ^ 16 -> forall fuel g ps es c,
  channels g ps es -> p ∈ ps -> p ∉ es -> is_Some (get p (t_avl (g_peers g))) ->
  g_chans g !! p = Some c -> (forall k, 0 <= k < 2 ^ 16 -> akey (set_cid (x_ucid c) k) = akey (set_cid a k)) ->
  (forall q, q ∈ es -> ukey g q ≠ akey (set_cid a c0)) -> u16 (c0 - g_cid g) < Z.of_nat fuel ->
  exists g' es' n c', cid_loop fuel p g = Some g' /\ channels g' ps es' /\ es' ≡ₚ p :: es /\ kept p g g'
    /\ g_chans g' !! p = Some c' /\ x_ch c' = (x_ch c) <| c_cid := n |> /\ 0 <= n < 2 ^ 16
    /\ ukey g' p = akey (set_cid a n) /\ forall q, q ∈ es -> ukey g q ≠ akey (set_cid a n).
Proof.
  intros Hc0. induction fuel as [|fuel IH]; intros g ps es c H Hp He Hg Hc Ha Hfree Hfuel; [pose proof (u16_range (c0 - g_cid g)); lia|].
  cbn [cid_loop]. set (cid := u16 (g_cid g)). pose proof (u16_range (g_cid g) : 0 <= cid < 2 ^ 16) as Hcid.
  set (g0 := g <| g_cid := u16 (cid + 1) |>).
  assert (H0 : channels g0 ps es) by (by eapply channels_same).
  destruct (upd_chan_ok p (fun c => c <| x_ch; c_cid := cid |> <| x_ucid := set_cid (x_ucid c) cid |>) g0 ps es H0 Hp He)
    as (g1 & E1 & H1 & Ho & Hpe & Hch); [done|]. rewrite E1. cbn [mbind option_bind].
  assert (g1 = g0 <| g_chans := g_chans g1 |>) as Hg1.
  { unfold upd_chan in E1. simpl in E1. rewrite Hc in E1. by injection E1 as <-. }
  set (c1 := c <| x_ch; c_cid := cid |> <| x_ucid := set_cid (x_ucid c) cid |>).
  assert (Hc1 : g_chans g1 !! p = Some c1) by (rewrite Hch; simpl; by rewrite lookup_alter_eq, Hc).
  assert (Hk : ukey g1 p = akey (set_cid a cid)) by (unfold ukey, ucid_of; rewrite Hc1; simpl; by apply Ha).
  assert (Hes : forall q, q ∈ es -> ukey g1 q = ukey g q) by (intros q Hq; apply Ho; by intros ->).
  assert (K1 : kept p g g1) by (split; [exact Ho|by rewrite Hg1..]).
  destruct (add_peer_ok g1 ps es p H1 Hp He) as [(q & Hq & Hkq & E2)|(g2 & es' & E2 & H2 & Hperm & Hc2 & Hf2 & Hm2 & _ & _ & Hl2)];
    [by rewrite Hpe| |]; rewrite E2; cbn [mbind option_bind].
  - assert (Hne : c0 ≠ cid) by (intros ->; apply (Hfree q Hq); rewrite <- Hes by done; by rewrite Hkq).
    assert (Hcid1 : g_cid g1 = u16 (cid + 1)) by (by rewrite Hg1).
    destruct (IH g1 ps es c1 H1 Hp He) as (g' & es' & n & c' & E' & H' & Hpm & K' & Hc' & Hx & Hn & Hk' & Hne').
    + by rewrite Hpe.
    + done.
    + intros k Hk0. simpl. rewrite set_cid_again by done. by apply Ha.
    + intros x Hx. rewrite Hes by done. by apply Hfree.
    + rewrite Hcid1, u16_sub_r. rewrite <- u16_sub_r in Hfuel. fold cid in Hfuel.
      replace (c0 - (cid + 1)) with (c0 - cid - 1) by lia. clearbody cid. unfold u16, wrap in *. dlia.
    + exists g', es', n, c'. split; [exact E'|]. split; [done|]. split; [done|]. split; [by eapply kept_trans|].
      split; [done|]. split; [done|]. split; [done|]. split; [done|]. intros x Hxe. rewrite <- Hes by done. by apply Hne'.
  - exists g2, es', cid, c1. split; [done|]. split; [done|]. split; [done|].
    assert (Hu2 : forall x, ukey g2 x = ukey g1 x) by (intros x; unfold ukey, ucid_of; by rewrite Hc2).
    split; [eapply kept_trans; [exact K1|]; by split|]. split; [by rewrite Hc2|]. split; [done|]. split; [done|].
    split; [by rewrite Hu2|]. intros q Hq Hk'. rewrite <- Hk in Hk'.
    assert (q = p) as ->; [|done]. apply (sorted_inj (ukey g2) es'); [apply H2|rewrite Hperm; by right|rewrite Hperm; by left|].
    by rewrite !Hu2, Hes.
Qed.

(** ** Closing *)

Lemma remove_peer_ok t es p : is_tree t es -> p ∈ es ->
  exists empty t' a b, es = a ++ p :: b /\ avl_node_empty p (t_avl t) = Some empty
    /\ (if empty : bool then Some t else avl_tree_remove p t) = Some t' /\ is_tree t' (a ++ b).
Proof.
  intros Ht (a & b & ->)%list_elem_of_split. destruct (remove_ok t a p b Ht) as (t' & E & Ht' & _).
  unfold avl_tree_remove in *. destruct (avl_node_empty p (t_avl t)) as [empty|]; [|done]. cbn [mbind option_bind] in E |- *.
  exists empty, t', a, b. split; [done|]. split; [done|]. split; [by destruct empty|done].
Qed.

Lemma xchannel_free_ok p g g' ps es : channels g ps es -> p ∈ es -> xchannel_free p g = Some g' ->
  exists a b a' b', ps = a ++ p :: b /\ es = a' ++ p :: b' /\ channels g' (a ++ b) (a' ++ b').
Proof.
  intros H He E. unfold xchannel_free in E. pose proof (ch_sub _ _ _ H p He) as Hp.
  destruct (on_channel p _ g) as [[g1 []]|] eqn:E1; [|done]. cbn [mbind option_bind] in E.
  apply (on_channel_ok _ _ _ _ _ _ _ H) in E1 as H1. apply list_elem_of_split in Hp as (a & b & ->).
  destruct (take_out_ok g1 a p b (ch_list _ _ _ H1)) as (g2 & E2 & Hl & Hc & f & l & n & m & Eg2).
  rewrite E2 in E. cbn [mbind option_bind] in E. assert (Hpe : g_peers g2 = g_peers g1) by (by rewrite Eg2).
  pose proof H1 as [_ [Ht Hso] Hd Hsub]. rewrite Hpe in E.
  destruct (remove_peer_ok _ _ _ Ht He) as (empty & t' & a' & b' & -> & E3 & E4 & Ht'). rewrite E3 in E.
  cbn [mbind option_bind] in E. rewrite E4 in E. cbn [mbind option_bind] in E. injection E as <-.
  exists a, b, a', b'. split; [done|]. split; [done|]. destruct (sorted_middle _ _ _ _ Hso) as (Hlo & Hhi & Hso').
  assert (Hnp : p ∉ a ++ b) by (destruct H1 as [[ND _ _ _ _] _ _ _]; by apply NoDup_middle).
  assert (Hnp' : p ∉ a' ++ b').
  { intros [Hx|Hx]%elem_of_app; [apply Hlo in Hx|apply Hhi in Hx]; lia. }
  split.
  - destruct Hl as [ND Hf Hl' Hs Hn]. split; [done..| |done]. eapply seg_agree; [|exact Hs].
    intros q Hq. simpl. apply lookup_delete_ne. by intros ->.
  - split; [eapply is_tree_agree; [exact Ht'| |intros q Hq|done]|].
    + exact Hnp'.
    + unfold get. simpl. apply lookup_delete_ne. intros ->. apply Hq. by left.
    + eapply sorted_ext; [|exact Hso']. intros q Hq. transitivity (ukey g2 q); [by symmetry; apply ukey_core|].
      unfold ukey, ucid_of. simpl. rewrite lookup_delete_ne; [done|]. by intros ->.
  - intros q. simpl. rewrite lookup_delete_is_Some. rewrite <- (fmap_is_Some core), <- lookup_fmap, Hc, lookup_fmap, fmap_is_Some, Hd.
    set_solver.
  - intros q Hq. assert (q ∈ a ++ p :: b) as Hq' by (apply Hsub; set_solver). assert (q ≠ p) by (by intros ->). set_solver.
Qed.

(** ** Datagrams *)

Section Loop.
Context (e : env) (calloc : messenger -> option positive) (is_ipv6 : addr -> bool) (Hcalloc : fresh_address calloc).

(** The state in which the first datagram of a new channel is handled. *)
Record opened_channel (g g1 : messenger) (p : positive) (c : chan) (pack : xpack) : Prop := {
  oc_chan : g_chans g1 !! p = Some c;
  oc_ucid : akey (x_ucid c) = ukey g1 p;
  oc_kept : kept p g g1;
  oc_new : g_chans g !! p = None;
  oc_others q : q ≠ p -> core <$> (g_chans g1 !! q) = core <$> (g_chans g !! q);
  oc_handler c0 : ('(s, r) ← xchannel_recv_pack e pack (state_of (x_ch c) g1);
      if decide (r ≠ 0) then Some (s, r) else s ← xchannel_send_ack e s; Some (s, 0))
    = recv_request e pack (state_of c0 g);
}.

Lemma open_channel_ok sid a cid pack g ps es : channels g ps es -> (forall q, q ∈ es -> ukey g q ≠ akey cid) ->
  calloc g = None /\ open_channel e calloc sid a cid pack g = Some (g, -1)
  \/ exists p g1 c es', calloc g = Some p /\ channels g1 (p :: ps) es' /\ es' ≡ₚ p :: es /\ opened_channel g g1 p c pack
     /\ x_ucid c = cid /\ x_addr c = a /\ x_sock c = sid
     /\ open_channel e calloc sid a cid pack g
        = on_channel p (fun s => '(s, r) ← xchannel_recv_pack e pack s;
            if decide (r ≠ 0) then Some (s, r) else s ← xchannel_send_ack e s; Some (s, 0)) g1.
Proof using Hcalloc.
  intros H Hfree. unfold open_channel.
  destruct (create_channel_ok e calloc (a_pos (k_head pack)) g ps es Hcalloc H)
    as [[En E]|(g1 & p & E & H1 & Hp & Hg & Hk1 & (c & Hc & Hx) & Hlog & Hfr & Hms & Hcid & Htick & Hal & Hco)]; rewrite E; cbn [mbind option_bind]; [by left|right].
  assert (Hpe : p ∉ es) by (intros Hpe; by apply Hp, (ch_sub _ _ _ H)).
  match goal with |- context [upd_chan p ?x g1] => set (f := x) end. destruct (upd_chan_ok p f g1 (p :: ps) es H1) as (g2 & E2 & H2 & Hk2 & Hpeers & Hch);
    [by left|done|done|]. rewrite E2. cbn [mbind option_bind].
  assert (Hg2 : g2 = g1 <| g_chans := g_chans g2 |>).
  { unfold upd_chan in E2. rewrite Hc in E2. by injection E2 as <-. }
  assert (Hc2 : g_chans g2 !! p = Some (f c)) by (by rewrite Hch, lookup_alter_eq, Hc).
  assert (Hkp : ukey g2 p = akey cid) by (unfold ukey, ucid_of; by rewrite Hc2).
  destruct (add_peer_ok g2 (p :: ps) es p H2) as [(q & Hq & Hkq & E3)|(g3 & es' & E3 & H3 & Hperm & Hc3 & Hf3 & Hm3 & _ & Ht3 & Hl3)];
    [by left|done|by rewrite Hpeers| |]; rewrite E3; cbn [mbind option_bind].
  { exfalso. apply (Hfree q Hq). rewrite <- Hkp, <- Hkq. rewrite Hk2, Hk1; [done|..]; by intros ->. }
  exists p, g3, (f c), es'. split; [done|]. split; [done|]. split; [done|]. split; [|done].
  assert (Hu3 : forall x, ukey g3 x = ukey g2 x) by (intros x; unfold ukey, ucid_of; by rewrite Hc3).
  split.
  - by rewrite Hc3.
  - by rewrite Hu3, Hkp.
  - split; [intros q Hq; rewrite Hu3, Hk2, Hk1 by done; done|by rewrite ?Hf3, ?Hm3, ?Hl3, Hg2..].
  - destruct (g_chans g !! p) eqn:E'; [|done]. exfalso. apply Hp. apply (ch_dom _ _ _ H). by eexists.
  - intros q Hq. rewrite Hc3, Hch, lookup_alter_ne by done. by apply Hco.
  - intros c0. unfold recv_request, state_of, clock. simpl s_tick. simpl s_ch.
    rewrite Hf3, Hm3, Ht3, Hg2. simpl. rewrite Hfr, Hms, Htick, Hx. done.
Qed.

Definition opening (pack : xpack) (s : st) : option (st * Z) :=
  '(s, r) ← xchannel_recv_pack e pack s; if decide (r ≠ 0) then Some (s, r) else s ← xchannel_send_ack e s; Some (s, 0).

Lemma recv_datagram_ok sid a pack g ps es : channels g ps es -> es ≡ₚ ps ->
  let cid := set_cid a (h_cid (k_head pack)) in
  match with_key (ukey g) (akey cid) es with
  | Some p => recv_datagram e calloc sid a pack g = on_channel p (recv_existing e pack) g
  | None =>
      (h_type (k_head pack) = XPACK_TYPE_REQ -> calloc g = None /\ recv_datagram e calloc sid a pack g = Some (g, -1)
        \/ exists p g1 c es', calloc g = Some p /\ channels g1 (p :: ps) es' /\ es' ≡ₚ p :: es /\ opened_channel g g1 p c pack
           /\ x_ucid c = cid /\ x_addr c = a /\ x_sock c = sid
           /\ recv_datagram e calloc sid a pack g = on_channel p (opening pack) g1)
      /\ (h_type (k_head pack) = XPACK_TYPE_RES -> recv_datagram e calloc sid a pack g
           = (s ← xchannel_send_final e pack (state_of (xchannel_create 0 0) g); Some (with_state None s g, 0)))
      /\ (h_type (k_head pack) ≠ XPACK_TYPE_REQ -> h_type (k_head pack) ≠ XPACK_TYPE_RES ->
           recv_datagram e calloc sid a pack g = Some (g, 0))
  end.
Proof using Hcalloc.
  intros H Hperm cid. unfold recv_datagram. fold cid. rewrite (find_peer_ok g ps es cid H). cbn [mbind option_bind].
  destruct (with_key (ukey g) (akey cid) es) as [p|] eqn:E; [done|]. pose proof (with_key_empty _ _ _ E) as Hfree.
  split; [|split].
  - intros ->. rewrite decide_True by done.
    destruct (open_channel_ok sid a cid pack g ps es H Hfree) as [?|(p & g1 & c & es' & ?)]; [by left|right].
    by exists p, g1, c, es'.
  - intros ->. by rewrite decide_False, decide_True.
  - intros ? ?. by rewrite !decide_False.
Qed.

(** ** Every turn keeps list and tree together *)

Lemma send_loop_ok ps es : forall fuel channel g g', channels g ps es -> send_loop e fuel channel g = Some g' -> channels g' ps es.
Proof.
  induction fuel as [|fuel IH]; intros [p|] g g' H E; cbn [send_loop] in E; [done|by injection E as <-| |by injection E as <-].
  destruct (on_channel p (send_tick e) g) as [[g1 stop]|] eqn:E1; [|done]. cbn [mbind option_bind] in E.
  apply (on_channel_ok _ _ _ _ _ _ _ H) in E1. destruct stop; [by injection E as <-|].
  destruct (g_chans g1 !! p) as [c|]; [|done]. by eapply IH.
Qed.

Lemma send_all_ok g g' ps es : channels g ps es -> xmsger_send_all e g = Some g' -> channels g' ps es.
Proof.
  intros H E. unfold xmsger_send_all in E. case_decide; [by eapply send_loop_ok|by injection E as <-].
Qed.

Lemma recv_datagram_keeps sid a pack g g' r : messenger_ok g -> recv_datagram e calloc sid a pack g = Some (g', r) -> messenger_ok g'.
Proof using Hcalloc.
  intros (ps & es & H & Hperm) E. pose proof (recv_datagram_ok sid a pack g ps es H Hperm) as Hd. cbv zeta in Hd.
  destruct (with_key _ _ es) as [p|].
  - rewrite Hd in E. apply (on_channel_ok _ _ _ _ _ _ _ H) in E. by exists ps, es.
  - destruct Hd as (Hq & Hs & Ho). destruct (decide (h_type (k_head pack) = XPACK_TYPE_REQ)) as [Ht|Ht].
    + destruct (Hq Ht) as [[_ E']|(p & g1 & c & es' & _ & H1 & Hp1 & _ & _ & _ & _ & E')]; rewrite E' in E.
      * injection E as <- <-. by exists ps, es.
      * apply (on_channel_ok _ _ _ _ _ _ _ H1) in E. exists (p :: ps), es'. split; [done|]. by rewrite Hp1, Hperm.
    + destruct (decide (h_type (k_head pack) = XPACK_TYPE_RES)) as [Ht'|Ht'].
      * rewrite Hs in E by done. destruct (xchannel_send_final e pack _) as [s|]; [|done]. injection E as <- <-.
        exists ps, es. split; [|done]. by eapply channels_same.
      * rewrite Ho in E by done. injection E as <- <-. by exists ps, es.
Qed.

Lemma fix_frame_ok m f g g' ps es : channels g ps es -> fix_frame m f g = Some g' -> channels g' ps es.
Proof.
  intros H E. unfold fix_frame in E. destruct (g_frames g !! m); [|done]. injection E as <-. by eapply channels_same.
Qed.

(** The message is queued in an empty ring. *)
Lemma put_first_ok m f (s : st) :
  s_frames s !! m = Some f -> c_msgbuf (s_ch s) = empty_ring XMSG_BUF_RANGE None ->
  exists s', put_msg m s = Some s' /\ s_frames s' = s_frames s /\ c_cid (s_ch s') = c_cid (s_ch s)
    /\ c_req (s_ch s') = c_req (s_ch s) /\ ring_get (c_msgbuf (s_ch s')) 0 = Some (Some m) /\ r_wpos (c_msgbuf (s_ch s')) = 1.
Proof using Type.
  intros Hf Hmb. unfold put_msg. rewrite Hf, Hmb. cbn [mbind option_bind]. by eexists.
Qed.

(** A client connects: a channel with a number of its own. *)
Record connected (g g' : messenger) (head : command) (m : positive) (f : xframe) (p : positive) : Prop := {
  cn_channel : exists c n, g_chans g' !! p = Some c /\ 0 <= n < 2 ^ 16 /\ c_cid (x_ch c) = n
    /\ akey (x_ucid c) = akey (set_cid (l_ipaddr head) n) /\ c_req (x_ch c) = Some m
    /\ ring_get (c_msgbuf (x_ch c)) 0 = Some (Some m) /\ r_wpos (c_msgbuf (x_ch c)) = 1;
  cn_number q : q ≠ p -> is_Some (g_chans g' !! q) -> ukey g' q ≠ ukey g' p;
  cn_frames : g_frames g' = <[m := xl_hold (xmsg_fixed f)]> (g_frames g);
}.

Lemma fix_frame_eq m x f g : g_frames g !! m = Some x -> fix_frame m f g = Some (g <| g_frames := <[m := f x]> (g_frames g) |>).
Proof using Type. unfold fix_frame. by intros ->. Qed.

Lemma distinct_keys g ps es p q : channels g ps es -> es ≡ₚ ps -> is_Some (g_chans g !! p) -> is_Some (g_chans g !! q) ->
  ukey g p = ukey g q -> p = q.
Proof using Type.
  intros H Hperm Hp Hq. apply (sorted_inj (ukey g) es); [apply H|by rewrite Hperm; apply (ch_dom _ _ _ H)..].
Qed.

Lemma create_some_ok range p g ps es : calloc g = Some p -> channels g ps es ->
  exists g', create_channel e calloc range g = Some (g', Some p) /\ channels g' (p :: ps) es /\ (p ∉ ps)
     /\ is_Some (get p (t_avl (g_peers g'))) /\ (forall q, q ≠ p -> ukey g' q = ukey g q)
     /\ (exists c, g_chans g' !! p = Some c /\ x_ch c = xchannel_create (u64 (e_clock e (g_tick g))) range)
     /\ g_frames g' = g_frames g.
Proof using Hcalloc.
  intros Hcal H. destruct (create_channel_ok e calloc range g ps es Hcalloc H)
    as [[En E]|(g1 & p' & E & H1 & Hp & Hg & Hk1 & Hc & _ & Hfr & _ & _ & _ & Hcal' & _)].
  - exfalso. unfold create_channel in E. rewrite Hcal in E. by destruct (__ring_list_put_into_head p _).
  - assert (p' = p) as -> by congruence. by exists g1.
Qed.

(** The request up to the choice of the number. *)
Lemma connect_start_ok g head m f p ps es : channels g ps es -> l_type head = XPACK_TYPE_REQ -> l_msg head = Some m ->
  g_frames g !! m = Some f -> calloc g = Some p ->
  exists g1 c, xmsger_local_recv e calloc is_ipv6 head g
      = (g ← cid_loop (size (g_chans g1)) p g1;
         '(g, _) ← on_channel p (fun s => s ← put_msg m (s <| s_ch; c_ack; h_cid := c_cid (s_ch s) |>); Some (s, tt)) g;
         Some (g, 0))
    /\ channels g1 (p :: ps) es /\ (p ∉ ps) /\ is_Some (get p (t_avl (g_peers g1)))
    /\ g_chans g1 !! p = Some c /\ x_ucid c = l_ipaddr head /\ c_req (x_ch c) = Some m
    /\ c_msgbuf (x_ch c) = empty_ring XMSG_BUF_RANGE None
    /\ (forall q, q ≠ p -> ukey g1 q = ukey g q) /\ g_frames g1 = <[m := xl_hold (xmsg_fixed f)]> (g_frames g).
Proof using Hcalloc.
  intros H Ht Hm Hf Hcal. unfold xmsger_local_recv. rewrite decide_True by done.
  destruct (create_some_ok XPACK_SERIAL_RANGE p g ps es Hcal H) as (g1 & E & H1 & Hp & Hg & Hk1 & (c1 & Hc1 & Hx1) & Hfr).
  rewrite E. cbn [mbind option_bind]. rewrite Hm.
  rewrite (fix_frame_eq m f) by (by rewrite Hfr). cbn [mbind option_bind].
  rewrite (fix_frame_eq m (xmsg_fixed f)) by apply lookup_insert_eq. cbn [mbind option_bind].
  match goal with |- context [upd_chan p _ ?x] => set (g2 := x) end.
  assert (H2 : channels g2 (p :: ps) es) by (by eapply channels_same).
  assert (Hpe : p ∉ es) by (intros Hpe; by apply Hp, (ch_sub _ _ _ H)).
  match goal with |- context [upd_chan p ?x g2] => set (fc := x) end.
  destruct (upd_chan_ok p fc g2 (p :: ps) es H2) as (g3 & E3 & H3 & Hk3 & Hpeers & Hch); [by left|done|done|].
  rewrite E3. cbn [mbind option_bind].
  assert (Hg3 : g3 = g2 <| g_chans := g_chans g3 |>).
  { unfold upd_chan in E3. simpl in E3. rewrite Hc1 in E3. by injection E3 as <-. }
  exists g3, (fc c1). split; [done|]. split; [done|]. split; [done|]. split; [by rewrite Hpeers|].
  split; [rewrite Hch; simpl; by rewrite lookup_alter_eq, Hc1|]. split; [done|]. split; [done|].
  split; [simpl; by rewrite Hx1|]. split; [intros q Hq; rewrite Hk3 by done; by apply Hk1|].
  rewrite Hg3. simpl. by rewrite insert_insert_eq, Hfr.
Qed.

Lemma channels_count g ps es : channels g ps es -> length ps = size (g_chans g).
Proof using Type.
  intros H. rewrite <- size_dom. destruct (ch_list _ _ _ H) as [ND _ _ _ _].
  rewrite <- (size_list_to_set (C := gset positive) _ ND). f_equal. apply set_eq. intros q.
  by rewrite elem_of_list_to_set, elem_of_dom, (ch_dom _ _ _ H).
Qed.

Lemma peers_count g ps es : channels g ps es -> es ≡ₚ ps -> length es = size (g_chans g).
Proof using Type. intros H Hperm. rewrite Hperm. by eapply channels_count. Qed.

Lemma connect_ok g head m f p : messenger_ok g -> l_type head = XPACK_TYPE_REQ -> l_msg head = Some m ->
  g_frames g !! m = Some f -> calloc g = Some p -> Z.of_nat (size (g_chans g)) < 2 ^ 16 ->
  exists g', xmsger_local_recv e calloc is_ipv6 head g = Some (g', 0) /\ messenger_ok g' /\ connected g g' head m f p.
Proof using Hcalloc.
  intros (ps & es & H & Hperm) Ht Hm Hf Hcal Hsz.
  destruct (connect_start_ok g head m f p ps es H Ht Hm Hf Hcal) as (g1 & c & E & H1 & Hp & Hg & Hc & Hu & Hreq & Hmb & Hk1 & Hfr).
  rewrite E. assert (Hpe : p ∉ es) by (intros Hpe; by apply Hp, (ch_sub _ _ _ H)).
  destruct (free_number g1 es (l_ipaddr head) (g_cid g1)) as (c0 & Hc0 & Hd & Hfree); [by rewrite (peers_count _ _ _ H Hperm)|].
  assert (Hfuel : u16 (c0 - g_cid g1) < Z.of_nat (size (g_chans g1))).
  { rewrite <- (channels_count _ _ _ H1). simpl. rewrite <- Hperm. lia. }
  destruct (cid_loop_ok (l_ipaddr head) p c0 Hc0 (size (g_chans g1)) g1 (p :: ps) es c H1)
    as (g4 & es' & n & c4 & E4 & H4 & Hperm4 & K4 & Hc4 & Hx4 & Hn & Hk4 & Hne4); [by left|done|done|done|by intros; rewrite Hu|done|done|].
  rewrite E4. cbn [mbind option_bind].
  destruct (put_first_ok m (xl_hold (xmsg_fixed f)) (state_of (x_ch c4) g4 <| s_ch; c_ack; h_cid := c_cid (s_ch (state_of (x_ch c4) g4)) |>))
    as (s' & Es & Hs1 & Hs2 & Hs3 & Hs4 & Hs5).
  { simpl. rewrite (kp_frames _ _ _ K4), Hfr. apply lookup_insert_eq. }
  { simpl. by rewrite Hx4. }
  destruct (on_channel p _ g4) as [[g5 []]|] eqn:E5.
  2: { unfold on_channel in E5. rewrite Hc4 in E5. cbn [mbind option_bind] in E5. by rewrite Es in E5. }
  pose proof (on_channel_ok _ _ _ _ _ _ _ H4 E5) as H5. assert (Hperm5 : es' ≡ₚ p :: ps) by (by rewrite Hperm4, Hperm).
  cbn [mbind option_bind]. exists g5. split; [done|]. split; [by exists (p :: ps), es'|].
  unfold on_channel in E5. rewrite Hc4 in E5. cbn [mbind option_bind] in E5. rewrite Es in E5.
  cbn [mbind option_bind] in E5. injection E5 as <-. split.
  - exists (c4 <| x_ch := s_ch s' |>), n. simpl. rewrite lookup_insert_eq. split; [done|]. split; [done|].
    simpl in Hs2, Hs3. rewrite Hx4 in Hs2, Hs3. split; [exact Hs2|].
    split; [unfold ukey, ucid_of in Hk4; by rewrite Hc4 in Hk4|]. by rewrite Hs3.
  - intros q Hq Hsome Heq. apply Hq. by apply (distinct_keys _ _ _ _ _ H5 Hperm5 Hsome); [simpl; rewrite lookup_insert_eq; eexists|].
  - simpl. rewrite Hs1. simpl. by rewrite (kp_frames _ _ _ K4).
Qed.

(** What the clients keep to: a request comes with its message, and there are
    fewer channels than numbers. *)
Definition command_ok (head : command) (g : messenger) : Prop :=
  l_type head = XPACK_TYPE_REQ -> is_Some (l_msg head) /\ Z.of_nat (size (g_chans g)) < 2 ^ 16.

Lemma local_request_keeps head g g' r : messenger_ok g -> command_ok head g -> l_type head = XPACK_TYPE_REQ ->
  xmsger_local_recv e calloc is_ipv6 head g = Some (g', r) -> messenger_ok g'.
Proof using Hcalloc.
  intros H Hok Ht E. destruct (Hok Ht) as [[m Hm] Hsz]. destruct (calloc g) as [p|] eqn:Hcal.
  - destruct (g_frames g !! m) as [f|] eqn:Hf.
    + destruct (connect_ok g head m f p H Ht Hm Hf Hcal Hsz) as (g1 & E1 & H1 & _). congruence.
    + exfalso. destruct H as (ps & es & H & _). destruct (create_some_ok XPACK_SERIAL_RANGE p g ps es Hcal H) as (g1 & E1 & _ & _ & _ & _ & _ & Hfr).
      unfold xmsger_local_recv in E. rewrite decide_True, E1 in E by done. cbn [mbind option_bind] in E.
      unfold fix_frame in E. by rewrite Hm, Hfr, Hf in E.
  - unfold xmsger_local_recv, create_channel in E. rewrite decide_True, Hcal in E by done. cbn [mbind option_bind] in E. by injection E as <- _.
Qed.

Lemma local_recv_keeps head g g' r : messenger_ok g -> command_ok head g ->
  xmsger_local_recv e calloc is_ipv6 head g = Some (g', r) -> messenger_ok g'.
Proof using Hcalloc.
  intros H Hok E. destruct (decide (l_type head = XPACK_TYPE_REQ)) as [Ht|Ht]; [by eapply local_request_keeps|].
  destruct H as (ps & es & H & Hperm). unfold xmsger_local_recv in E. rewrite decide_False in E by done.
  case_decide.
  - destruct (l_msg head) as [m|]; [|done]. cbn [mbind option_bind] in E.
    destruct (l_channel head) as [p|]; [|injection E as <- _; by exists ps, es].
    destruct (fix_frame m xmsg_fixed g) as [g1|] eqn:E1; [|done]. cbn [mbind option_bind] in E.
    apply (fix_frame_ok _ _ _ _ _ _ H) in E1. destruct (on_channel p _ g1) as [[g2 []]|] eqn:E2; [|done].
    apply (on_channel_ok _ _ _ _ _ _ _ E1) in E2. injection E as <- _. by exists ps, es.
  - case_decide; [|injection E as <- _; by exists ps, es].
    destruct (l_flags8 head) as [p|]; [|done]. cbn [mbind option_bind] in E.
    destruct (xchannel_free p g) as [g1|] eqn:E1; [|done]. injection E as <- _.
    assert (Hp : p ∈ es).
    { rewrite Hperm. apply (ch_dom _ _ _ H). unfold xchannel_free, on_channel in E1.
      destruct (g_chans g !! p); [by eexists|done]. }
    destruct (xchannel_free_ok _ _ _ _ _ H Hp E1) as (a & b & a' & b' & -> & -> & H2).
    exists (a ++ b), (a' ++ b'). split; [done|]. apply (Permutation_cons_inv (a := p)). by rewrite !Permutation_middle.
Qed.

(** ** The life of a messenger *)

(** Between turns of the loop the clients queue messages and write to frames. *)
Inductive mstep : messenger -> messenger -> Prop :=
| m_recv g i g' r : (forall a head, i = Local a head -> command_ok head g) ->
    recv_turn e calloc is_ipv6 i g = Some (g', r) -> mstep g g'
| m_idle g g' : xmsger_send_all e (g <| g_ms; m_timer := 10000000 |>) = Some g' -> mstep g g'
| m_send g p m g' r : on_channel p (xmsger_send m) g = Some (g', r) -> mstep g g'
| m_ctx g p ctx g' : xchannel_set_ctx p ctx g = Some g' -> mstep g g'
| m_write g frames : mstep g (g <| g_frames := frames |>).

Definition running (g : messenger) : Prop := exists now laddr, rtc mstep (xmsger_create now laddr) g.

Lemma create_messenger_ok now laddr : messenger_ok (xmsger_create now laddr).
Proof using Type.
  exists [], []. split; [|done]. split.
  - split; [constructor|done..].
  - split; [|constructor]. exists Leaf. split; [|done]. split; [done|]. split; [done|constructor].
  - intros p. simpl. rewrite lookup_empty. split; [by intros [? ?]|by intros ?%not_elem_of_nil].
  - done.
Qed.

Lemma recv_turn_keeps i g g' r : (forall a head, i = Local a head -> command_ok head g) -> messenger_ok g ->
  recv_turn e calloc is_ipv6 i g = Some (g', r) -> messenger_ok g'.
Proof using Hcalloc.
  intros Hok H E. destruct i as [a head|sid a pack]; cbn [recv_turn] in E.
  - case_decide; [|by injection E as <- _].
    destruct (xmsger_local_recv e calloc is_ipv6 head g) as [[g1 r1]|] eqn:E1; [|done]. injection E as <- _.
    eapply local_recv_keeps; [done|by eapply Hok|done].
  - destruct (recv_datagram e calloc sid a pack g) as [[g1 r1]|] eqn:E1; [|done]. cbn [mbind option_bind] in E.
    apply (recv_datagram_keeps _ _ _ _ _ _ H) in E1 as H1. case_decide; [by injection E as <- _|].
    destruct (xmsger_send_all e g1) as [g2|] eqn:E2; [|done]. injection E as <- _.
    destruct H1 as (ps & es & H1 & Hp). exists ps, es. split; [|done]. by eapply send_all_ok.
Qed.

Lemma mstep_keeps g g' : mstep g g' -> messenger_ok g -> messenger_ok g'.
Proof using Hcalloc.
  intros Hs H. destruct Hs as [g i g' r Hok E|g g' E|g p m g' r E|g p ctx g' E|g frames].
  - by eapply recv_turn_keeps.
  - destruct H as (ps & es & H & Hp). exists ps, es. split; [|done]. eapply send_all_ok; [|exact E]. by eapply channels_same.
  - destruct H as (ps & es & H & Hp). exists ps, es. split; [|done]. by eapply on_channel_ok.
  - destruct H as (ps & es & H & Hp). exists ps, es. split; [|done]. unfold xchannel_set_ctx, upd_chan in E.
    destruct (g_chans g !! p) as [c|] eqn:Hc; [|done]. injection E as <-.
    by eapply (channels_update g _ ps es p c (c <| x_ctx := ctx |>)).
  - destruct H as (ps & es & H & Hp). exists ps, es. split; [|done]. by eapply channels_same.
Qed.

Lemma running_ok g : running g -> messenger_ok g.
Proof using Hcalloc.
  intros (now & laddr & R). pose proof (create_messenger_ok now laddr) as H. revert H.
  induction R as [|g1 g2 g3 Hs R IH]; [done|]. intros H. apply IH. by eapply mstep_keeps.
Qed.
End Loop.
