(* ===== verification/Routing.v ===== *)
(** * What the peers and clients of a messenger may rely on

    Whose channel a datagram goes to, what opening a channel does, and what
    happens when a peer or a client does not keep to the protocol. *)

From S2P Require Import Prelude Xline Channel Avl AvlTree Messenger Peers Stream Sender Receiver Delivery.

(** ** Concrete messengers *)

Definition next_chan (g : messenger) : option positive := Some (fresh (dom (g_chans g))).

Lemma next_chan_ok : fresh_address next_chan.
Proof. intros g p [= <-]. apply not_elem_of_dom, is_fresh. Qed.

Definition no_ipv6 (_ : addr) : bool := false.
Definition peer_addr : addr := mkaddr 0x0100007F28240002 0 0.
Definition own_addr : addr := mkaddr 0x0100007F29240002 0 0.

(** A client has written a request and asks for a connection. *)
Definition messenger_start : messenger := xmsger_create 1000000000 own_addr.
Definition messenger_written : messenger :=
  messenger_start <| g_frames := {[ 1%positive := demo_frame [7; 8; 9] XPACK_TYPE_REQ ]} |>.
Definition connect_command : command := mkcommand XPACK_TYPE_REQ (Some 1%positive) peer_addr None None.
Definition messenger_connected : messenger :=
  match recv_turn demo_env next_chan no_ipv6 (Local own_addr connect_command) messenger_written with
  | Some (g, _) => g
  | None => messenger_start
  end.

Lemma messenger_written_running : running demo_env next_chan no_ipv6 messenger_written.
Proof. exists 1000000000, own_addr. apply rtc_once. apply m_write. Qed.

Lemma messenger_connected_running : running demo_env next_chan no_ipv6 messenger_connected.
Proof.
  destruct messenger_written_running as (now & la & R). exists now, la. eapply rtc_r; [exact R|].
  apply (m_recv _ _ _ _ (Local own_addr connect_command) _ 0).
  - intros a head [= _ <-] _. split; [by eexists|vm_compute; done].
  - vm_compute. reflexivity.
Qed.

(** ** Routing *)

(** The channels other than [p] are as they were, but for the links of the list. *)
Definition untouched (p : positive) (g g' : messenger) : Prop :=
  forall q, q ≠ p -> core <$> (g_chans g' !! q) = core <$> (g_chans g !! q).

Lemma on_channel_untouched {A} p (f : st -> option (st * A)) g g' r : on_channel p f g = Some (g', r) -> untouched p g g'.
Proof. intros E q Hq. by rewrite (on_channel_other _ _ _ _ _ q E Hq). Qed.

(** The channel with an address and a number, and no other. *)
Definition belongs (g : messenger) (cid : addr) (p : positive) : Prop :=
  is_Some (g_chans g !! p) /\ ukey g p = akey cid
  /\ forall q, is_Some (g_chans g !! q) -> ukey g q = akey cid -> q = p.

(** C6: However a messenger got where it is, the list of channels and the tree
    of peers hold the same channels, no two with the same address and number;
    so a datagram is handled by the one channel that belongs to it, and touches
    no other.  Without such a channel a request opens one, whose first datagram
    is handled as [recv_request] says in the state the messenger was in, and only
    when there is no memory for a channel the loop ends with an error; a response
    is answered without a channel; and anything else is dropped. *)
Theorem datagram_routed (e : env) (calloc : messenger -> option positive) (is_ipv6 : addr -> bool) (g : messenger)
    (sid : Z) (a : addr) (pack : xpack)
  (Hcalloc : fresh_address calloc) (Hg : running e calloc is_ipv6 g) :
  let cid := set_cid a (h_cid (k_head pack)) in
  let ty := h_type (k_head pack) in
  messenger_ok g
  /\ ((exists p, belongs g cid p /\ recv_datagram e calloc sid a pack g = on_channel p (recv_existing e pack) g
       /\ forall g' r, recv_datagram e calloc sid a pack g = Some (g', r) -> untouched p g g')
      \/ ((forall q, is_Some (g_chans g !! q) -> ukey g q ≠ akey cid)
          /\ (ty = XPACK_TYPE_REQ -> match calloc g with
              | None => recv_datagram e calloc sid a pack g = Some (g, -1)
              | Some p => exists g1 c, g_chans g !! p = None /\ g_chans g1 !! p = Some c /\ x_ucid c = cid /\ x_addr c = a
                 /\ x_sock c = sid /\ untouched p g g1
                 /\ recv_datagram e calloc sid a pack g
                    = ('(s, r) ← recv_request e pack (state_of (x_ch c) g);
                       Some (with_state (Some p) s g1 <| g_chans := <[p := c <| x_ch := s_ch s |>]> (g_chans g1) |>, r))
              end)
          /\ (ty = XPACK_TYPE_RES -> recv_datagram e calloc sid a pack g
              = (s ← xchannel_send_final e pack (state_of (xchannel_create 0 0) g); Some (with_state None s g, 0)))
          /\ (ty ≠ XPACK_TYPE_REQ -> ty ≠ XPACK_TYPE_RES -> recv_datagram e calloc sid a pack g = Some (g, 0)))).
Proof.
  intros cid ty. pose proof (running_ok e calloc is_ipv6 Hcalloc g Hg) as Hok. split; [done|].
  destruct Hok as (ps & es & H & Hperm). pose proof (recv_datagram_ok e calloc Hcalloc sid a pack g ps es H Hperm) as Hd.
  cbv zeta in Hd. fold cid in Hd. fold ty in Hd.
  assert (Hdom : forall q, is_Some (g_chans g !! q) <-> q ∈ es) by (intros q; rewrite Hperm; apply (ch_dom _ _ _ H)).
  destruct (with_key (ukey g) (akey cid) es) as [p|] eqn:E; [left|right].
  - apply with_key_some in E as [Hp Hk]. exists p. split; [split; [by apply Hdom|]; split; [done|]|].
    + intros q Hq Hkq. apply (distinct_keys g ps es q p H Hperm); [done|by apply Hdom|congruence].
    + split; [done|]. rewrite Hd. intros g' r. apply on_channel_untouched.
  - destruct Hd as (Hq & Hs & Ho). split; [|split; [|done]].
    + intros q Hq'%Hdom. by eapply with_key_empty.
    + intros Ht. destruct (Hq Ht) as [[-> E1]|(p & g1 & c & es' & -> & H1 & _ & O & Hu & Ha & Hsk & E1)]; [done|].
      exists g1, c. split; [apply O|]. split; [apply O|]. split; [done|]. split; [done|]. split; [done|].
      split; [exact (oc_others _ _ _ _ _ _ O)|]. rewrite E1. unfold on_channel. rewrite (oc_chan _ _ _ _ _ _ O). cbn [mbind option_bind].
      unfold opening. by rewrite (oc_handler _ _ _ _ _ _ O (x_ch c)).
Qed.

(** A message of the peer that has been asked for a connection. *)
Definition answer : xpack :=
  mkpack 0 0 0 None (mkhead XPACK_TYPE_MSG 0 1 0 0 0 1435 3 1) (replicate (Z.to_nat XBODY_SIZE) 5).

Lemma datagram_routed_witness :
  (exists p, belongs messenger_connected (set_cid peer_addr 1435) p
     /\ g_cid messenger_start = 1435 /\ messenger_ok messenger_connected)
  /\ exists g, recv_datagram demo_env next_chan 0 peer_addr answer messenger_connected = Some (g, 0)
     /\ (snd <$> g_log g) !! 0%nat <> None.
Proof.
  pose proof (datagram_routed demo_env next_chan no_ipv6 messenger_connected 0 peer_addr answer
    next_chan_ok messenger_connected_running) as [H1 [(p & H2 & _)|(H2 & _)]].
  - split; [by exists p|]. eexists. split; [vm_compute; reflexivity|vm_compute; done].
  - exfalso. apply (H2 1%positive); [vm_compute; by eexists|by vm_compute].
Defined.

(** ** Commands *)

(** C7: A client that connects gets a channel with a number that no other
    channel to the same address has: while there are fewer channels than
    numbers, the loop that tries the numbers ends.  The channel holds the
    message twice, as its request and as the first in its queue, and a
    reference for each. *)
Theorem connect_gets_number (e : env) (calloc : messenger -> option positive) (is_ipv6 : addr -> bool) (g : messenger)
    (head : command) (m p : positive) (f : xframe)
  (Hcalloc : fresh_address calloc) (Hg : running e calloc is_ipv6 g)
  (Ht : l_type head = XPACK_TYPE_REQ) (Hm : l_msg head = Some m) (Hf : g_frames g !! m = Some f)
  (Hp : calloc g = Some p) (Hsize : Z.of_nat (size (g_chans g)) < 2 ^ 16) :
  exists g', xmsger_local_recv e calloc is_ipv6 head g = Some (g', 0) /\ messenger_ok g' /\ connected g g' head m f p.
Proof. by apply connect_ok; [|apply (running_ok e calloc is_ipv6)|..]. Qed.

Lemma connect_gets_number_witness :
  exists g', xmsger_local_recv demo_env next_chan no_ipv6 connect_command messenger_written = Some (g', 0) /\ messenger_ok g'
    /\ connected messenger_written g' connect_command 1 (demo_frame [7; 8; 9] XPACK_TYPE_REQ) 1.
Proof.
  apply (connect_gets_number demo_env next_chan no_ipv6 messenger_written connect_command 1 1);
    [apply next_chan_ok|apply messenger_written_running|vm_compute; done..].
Defined.

(** [xmsger_send] refuses a message when the queue is full, but the command
    that ends a connection does not look: it overwrites the oldest message that
    is not acknowledged yet, which is lost, and the queue then claims to hold
    one message more than it has room for. *)
Lemma disconnect_overwrites (e : env) (calloc : messenger -> option positive) (is_ipv6 : addr -> bool) (g : messenger)
    (head : command) (m p : positive) (c : chan) (f : xframe)
  (Ht : l_type head = XPACK_TYPE_RES) (Hm : l_msg head = Some m) (Hf : g_frames g !! m = Some f)
  (Hp : l_channel head = Some p) (Hc : g_chans g !! p = Some c)
  (Hrange : r_range (c_msgbuf (x_ch c)) = XMSG_BUF_RANGE) (Hbuf : length (r_buf (c_msgbuf (x_ch c))) = 9%nat)
  (Hpos : 0 <= r_rpos (c_msgbuf (x_ch c)) < 2 ^ 16)
  (Hfull : r_wpos (c_msgbuf (x_ch c)) = u16 (r_rpos (c_msgbuf (x_ch c)) + XMSG_BUF_RANGE)) :
  xmsger_send m (state_of (x_ch c) g) = Some (state_of (x_ch c) g, -1)
  /\ exists g' c', xmsger_local_recv e calloc is_ipv6 head g = Some (g', 0) /\ g_chans g' !! p = Some c'
     /\ __serialbuf_rpos (c_msgbuf (x_ch c')) = __serialbuf_rpos (c_msgbuf (x_ch c))
     /\ ring_get (c_msgbuf (x_ch c')) (__serialbuf_rpos (c_msgbuf (x_ch c))) = Some (Some m)
     /\ __serialbuf_readable (c_msgbuf (x_ch c')) = XMSG_BUF_RANGE + 1.
Proof.
  set (mb := c_msgbuf (x_ch c)) in *.
  assert (Hw : __serialbuf_wpos mb = __serialbuf_rpos mb).
  { unfold __serialbuf_wpos, __serialbuf_rpos. rewrite Hfull, Hrange. unfold XMSG_BUF_RANGE.
    rewrite (u16_land_ones _ 3), <- (u16_small (r_rpos mb)), (u16_land_ones _ 3) by lia. rewrite u16_small by lia. dlia. }
  assert (Hi : 0 <= __serialbuf_rpos mb < 8).
  { unfold __serialbuf_rpos. rewrite Hrange, <- (u16_small (r_rpos mb)) by lia. unfold XMSG_BUF_RANGE.
    rewrite (u16_land_ones _ 3) by lia. apply Z.mod_pos_bound. lia. }
  split.
  - unfold xmsger_send. simpl s_ch. fold mb. rewrite decide_False; [done|]. unfold __serialbuf_writable.
    rewrite Hrange, Hfull. unfold XMSG_BUF_RANGE, u16, wrap. dlia.
  - unfold xmsger_local_recv. rewrite Ht, decide_False, decide_True by done. rewrite Hm, Hp. cbn [mbind option_bind].
    rewrite (fix_frame_eq m f) by done. cbn [mbind option_bind]. unfold on_channel. simpl g_chans. rewrite Hc.
    cbn [mbind option_bind]. unfold put_msg. simpl s_frames. rewrite lookup_insert_eq. cbn [mbind option_bind].
    simpl s_ch. fold mb. rewrite Hw. unfold ring_set.
    destruct (wr_is_Some (r_buf mb) (__serialbuf_rpos mb) (Some m)) as [b Eb]; [lia|]. rewrite Eb. cbn [mbind option_bind].
    eexists _, _. split; [done|]. simpl. rewrite lookup_insert_eq. split; [done|]. simpl.
    split; [done|]. split; [unfold ring_get; simpl; by rewrite (rd_wr _ _ _ _ _ Eb), decide_True|].
    unfold __serialbuf_readable. simpl. rewrite Hfull. unfold XMSG_BUF_RANGE, u16, wrap. dlia.
Qed.

(** The ninth message of a connection of which nothing has been acknowledged. *)
Definition full_channel : chan :=
  mkchan (xchannel_create 0 XPACK_SERIAL_RANGE <| c_msgbuf := mkring 8 0 0 8 (replicate 8 (Some 2%positive) ++ [None]) |>)
    peer_addr peer_addr 0 None None None.
Definition messenger_full : messenger :=
  messenger_written <| g_chans := {[ 5%positive := full_channel ]} |>.
Definition disconnect_command : command := mkcommand XPACK_TYPE_RES (Some 1%positive) peer_addr (Some 5%positive) None.


(** ** Forged requests *)

(** A ring of one slot with a mask of all ones. *)
Lemma early_in_no_window (e : env) pack (s : st) : r_range (c_recvbuf (s_ch s)) = 0 -> r_wpos (c_recvbuf (s_ch s)) = 0 ->
  length (r_buf (c_recvbuf (s_ch s))) = 1%nat -> 0 < h_sn (k_head pack) < 2 ^ 15 -> xchannel_recv_pack e pack s = None.
Proof.
  intros Hr Hw Hl Hs. unfold xchannel_recv_pack. cbv zeta.
  match goal with |- context [ack_piggyback e pack ?x] => set (s1 := x) end.
  assert (Hrb : c_recvbuf (s_ch s1) = c_recvbuf (s_ch s)) by done. rewrite Hrb, Hr, Hw.
  rewrite decide_False by lia. rewrite decide_True by (unfold u16, wrap; dlia).
  change (0 - 1) with (-1). rewrite Z.land_m1_r. unfold ring_get at 1. unfold rd at 1. rewrite decide_True by lia.
  rewrite (lookup_ge_None_2 (r_buf _)); [done|]. lia.
Qed.

(** A body for a frame without room. *)
Lemma append_without_room pack (s : st) m f : s_frames s !! m = Some f -> f_buf f = [] -> f_wpos f = 0 -> 0 < h_len (k_head pack) ->
  append_pack pack s m = None.
Proof.
  intros Hf Hb Hw Hl. unfold append_pack. rewrite Hf. cbn [mbind option_bind]. rewrite decide_True by lia.
  destruct (rd_range (k_body pack) 0 (h_len (k_head pack))) as [src|] eqn:Es; [|done]. cbn [mbind option_bind].
  assert (Z.of_nat (length src) = h_len (k_head pack)).
  { unfold rd_range in Es. case_decide; [|done]. injection Es as <-. rewrite length_take, length_drop. lia. }
  unfold wr_range. rewrite Hb, Hw. by rewrite decide_False by (simpl; lia).
Qed.

Definition first_stored (pack : xpack) : ring (option xpack) :=
  mkring XPACK_SERIAL_RANGE 0 0 1 (Some pack :: replicate 64 None).

Lemma recv_without_room (e : env) pack (s : st) : c_recvbuf (s_ch s) = first_stored pack -> c_msg (s_ch s) = None ->
  h_range (k_head pack) = 0 -> 0 < h_len (k_head pack) ->
  (forall n, exists f, e_malloc e n 0 = Some f /\ f_buf f = []) -> xchannel_recv_msg e s = None.
Proof.
  intros Hrb Hmsg Hr Hl Hm. unfold xchannel_recv_msg, clock. set (s1 := s <| s_tick := _ |> <| s_ch; c_tm; t_recv_ts := _ |>).
  assert (Hrb1 : c_recvbuf (s_ch s1) = first_stored pack) by done. rewrite Hrb1. rewrite decide_True by (by vm_compute).
  change (ring_get (first_stored pack) (__serialbuf_rpos (first_stored pack))) with (Some (Some pack)).
  cbn [mbind option_bind]. cbn [recv_loop]. unfold recv_one, start_msg.
  assert (Hmsg1 : c_msg (s_ch s1) = None) by done. rewrite Hmsg1. cbv zeta. rewrite Hr. change (0 * XBODY_SIZE) with 0.
  destruct (Hm (s_tick s1)) as (f & -> & Hf). unfold xl_creator. cbn [mbind option_bind].
  rewrite (append_without_room _ _ _ (f <| f_ref := 1 |> <| f_size := 0 |> <| f_wpos := 0 |> <| f_rpos := 0 |>
    <| f_spos := 0 |> <| f_range := 0 |> <| f_type := h_type (k_head pack) |> <| f_range := 0 |>)); [done| |done|done|done].
  apply lookup_insert_eq.
Qed.

Lemma body_without_room (e : env) pack (s : st) : c_recvbuf (s_ch s) = empty_ring XPACK_SERIAL_RANGE None -> c_msg (s_ch s) = None ->
  h_sn (k_head pack) = 0 -> a_type (k_head pack) = 0 -> h_range (k_head pack) = 0 -> 0 < h_len (k_head pack) ->
  (forall n, exists f, e_malloc e n 0 = Some f /\ f_buf f = []) -> xchannel_recv_pack e pack s = None.
Proof.
  intros Hrb Hmsg Hs Ht Hr Hl Hm. unfold xchannel_recv_pack. cbv zeta.
  match goal with |- context [ack_piggyback e pack ?x] => set (s1 := x) end.
  assert (Hrb1 : c_recvbuf (s_ch s1) = c_recvbuf (s_ch s)) by done. rewrite Hrb1, Hrb, Hs.
  rewrite decide_True by done. unfold ack_piggyback. rewrite Ht, decide_False by (by intros H). cbn [mbind option_bind].
  rewrite Hrb1, Hrb.
  change (ring_set (empty_ring (A := option xpack) XPACK_SERIAL_RANGE None) (Z.land 0 (r_range (empty_ring (A := option xpack) XPACK_SERIAL_RANGE None) - 1)) (Some pack))
    with (Some (first_stored pack <| r_wpos := 0 |>)).
  cbn [mbind option_bind].
  match goal with |- context [advance_loop _ ?x] => set (s2 := x) end.
  assert (Hrb2 : c_recvbuf (s_ch s2) = first_stored pack) by done.
  assert (E : forall fuel, advance_loop fuel s2 = Some s2) by (intros []; cbn [advance_loop]; by rewrite Hrb2).
  rewrite E. cbn [mbind option_bind]. by apply (recv_without_room e pack).
Qed.


Definition forged (range sn window len : Z) : xpack :=
  mkpack 0 0 0 None (mkhead XPACK_TYPE_REQ sn 0 0 0 window 7 len range) (replicate (Z.to_nat XBODY_SIZE) 0).

