(* ===== verification/Heaplet.v ===== *)
(** * A separation logic for the memory of the allocator

    Memory is a finite map from addresses to cells: a cell holds a byte, or is
    free for the operating system to map.  An assertion is a property of a part
    of memory that stays true of larger parts; the assertions form a
    logic of bunched implications in the sense of Iris, so that its proof mode
    can be used.  A computation reads and writes memory and faults outside it;
    [wp] says that it ends, without a fault, in a result and a part of memory of
    which something is true, while the rest of memory stays as it is. *)

From iris.bi Require Import interface.
From iris.proofmode Require Import proofmode.
From S2P Require Import Prelude.
#[local] Open Scope Z_scope.

Abbreviation mem := (gmap Z (option Z)).

(** ** Assertions *)

Record heapProp := HeapProp {
  holds_at :> mem -> Prop;
  holds_mono m m' : m ⊆ m' -> holds_at m -> holds_at m';
}.
Arguments holds_at : simpl never.

Inductive heapProp_equiv' (P Q : heapProp) : Prop := { heapProp_in_equiv m : P m <-> Q m }.
#[local] Instance heapProp_equiv : Equiv heapProp := heapProp_equiv'.
#[local] Instance heapProp_equivalence : Equivalence (≡@{heapProp}).
Proof.
  split.
  - intros P. by split.
  - intros P Q [H]. split. intros m. by rewrite H.
  - intros P Q R [H1] [H2]. split. intros m. by rewrite H1 H2.
Qed.
Canonical Structure heapPropO := discreteO heapProp.

Inductive heapProp_entails (P Q : heapProp) : Prop := { heapProp_in_entails m : P m -> Q m }.

Program Definition heapProp_emp : heapProp := HeapProp (fun _ => True) _.
Next Obligation. done. Qed.
Program Definition heapProp_pure (φ : Prop) : heapProp := HeapProp (fun _ => φ) _.
Next Obligation. done. Qed.
Program Definition heapProp_and (P Q : heapProp) : heapProp := HeapProp (fun m => P m /\ Q m) _.
Next Obligation. intros P Q m m' Hm [??]; split; by eapply holds_mono. Qed.
Program Definition heapProp_or (P Q : heapProp) : heapProp := HeapProp (fun m => P m \/ Q m) _.
Next Obligation. intros P Q m m' Hm [?|?]; [left|right]; by eapply holds_mono. Qed.
Program Definition heapProp_impl (P Q : heapProp) : heapProp :=
  HeapProp (fun m => forall m', m ⊆ m' -> P m' -> Q m') _.
Next Obligation. intros P Q m m' Hm H m'' Hm'. apply H. by etrans. Qed.
Program Definition heapProp_forall {A} (Φ : A -> heapProp) : heapProp := HeapProp (fun m => forall x, Φ x m) _.
Next Obligation. intros A Φ m m' Hm H x. by eapply holds_mono. Qed.
Program Definition heapProp_exist {A} (Φ : A -> heapProp) : heapProp := HeapProp (fun m => exists x, Φ x m) _.
Next Obligation. intros A Φ m m' Hm [x ?]. exists x. by eapply holds_mono. Qed.
Program Definition heapProp_sep (P Q : heapProp) : heapProp :=
  HeapProp (fun m => exists m1 m2, m1 ##ₘ m2 /\ m1 ∪ m2 ⊆ m /\ P m1 /\ Q m2) _.
Next Obligation. intros P Q m m' Hm (m1 & m2 & ? & ? & ? & ?). exists m1, m2. split_and!; try done. by etrans. Qed.
Program Definition heapProp_wand (P Q : heapProp) : heapProp :=
  HeapProp (fun m => forall m', m ##ₘ m' -> P m' -> Q (m ∪ m')) _.
Next Obligation.
  intros P Q m m' Hm H m'' Hd HP. eapply holds_mono; [|apply H, HP]; [by apply map_union_mono_r|by eapply map_disjoint_weaken_l].
Qed.
Definition heapProp_persistently (P : heapProp) : heapProp := heapProp_pure (heapProp_entails heapProp_emp P).
Definition heapProp_later (P : heapProp) : heapProp := P.

Lemma heapProp_bi_mixin :
  BiMixin heapProp_entails heapProp_emp heapProp_pure heapProp_and heapProp_or heapProp_impl
    (@heapProp_forall) (@heapProp_exist) heapProp_sep heapProp_wand.
Proof.
  split.
  - split; [by intros P; split|]. intros P Q R [H1] [H2]. split. auto.
  - intros P Q. split.
    + intros [H]. split; split; intros; by apply H.
    + intros [[H1] [H2]]. split. intros m. split; auto.
  - intros n φ ψ H. split. intros m. exact H.
  - intros n P P' [HP] Q Q' [HQ]. split. intros m. change ((P m /\ Q m) <-> (P' m /\ Q' m)). by rewrite HP HQ.
  - intros n P P' [HP] Q Q' [HQ]. split. intros m. change ((P m \/ Q m) <-> (P' m \/ Q' m)). by rewrite HP HQ.
  - intros n P P' [HP] Q Q' [HQ]. split. intros m.
    split; intros H m' Hm HPm; apply HQ, H; try done; by apply HP.
  - intros A n Φ Ψ H. split. intros m. split; intros Hx x; by apply (H x).
  - intros A n Φ Ψ H. split. intros m. split; intros [x Hx]; exists x; by apply (H x).
  - intros n P P' [HP] Q Q' [HQ]. split. intros m.
    split; intros (m1 & m2 & ? & ? & ? & ?); exists m1, m2; split_and!; try done; (by apply HP) || by apply HQ.
  - intros n P P' [HP] Q Q' [HQ]. split. intros m. split; intros H m' Hd HPm; apply HQ, H; try done; by apply HP.
  - intros φ P H. split. intros m _. exact H.
  - intros φ P H. split. intros m Hφ. by apply (H Hφ).
  - intros P Q. split. by intros m [? _].
  - intros P Q. split. by intros m [_ ?].
  - intros P Q R [H1] [H2]. split. intros m HP. split; auto.
  - intros P Q. split. intros m HP. by left.
  - intros P Q. split. intros m HP. by right.
  - intros P Q R [H1] [H2]. split. intros m [?|?]; auto.
  - intros P Q R [H]. split. intros m HP m' Hm HQ. apply H. split; [by eapply holds_mono|done].
  - intros P Q R [H]. split. intros m [HP HQ]. by apply (H m HP m).
  - intros A P Ψ H. split. intros m HP x. by apply (H x).
  - intros A Ψ a. split. intros m H. apply H.
  - intros A Ψ a. split. intros m H. by exists a.
  - intros A Φ Q H. split. intros m [x Hx]. by apply (H x).
  - intros P P' Q Q' [H1] [H2]. split. intros m (m1 & m2 & ? & ? & ? & ?). exists m1, m2. split_and!; auto.
  - intros P. split. intros m HP. exists ∅, m. split_and!; [apply map_disjoint_empty_l|by rewrite map_empty_union|done|done].
  - intros P. split. intros m (m1 & m2 & ? & Hm & _ & HP). eapply holds_mono; [|exact HP].
    etrans; [|exact Hm]. by apply map_union_subseteq_r.
  - intros P Q. split. intros m (m1 & m2 & ? & ? & ? & ?). exists m2, m1. split_and!; try done.
    by rewrite map_union_comm.
  - intros P Q R. split. intros m (m12 & m3 & Hd & Hm & (m1 & m2 & Hd' & Hm' & HP & HQ) & HR).
    assert (m1 ⊆ m12 /\ m2 ⊆ m12) as [H1 H2].
    { split; (etrans; [|exact Hm']); [apply map_union_subseteq_l|by apply map_union_subseteq_r]. }
    exists m1, (m2 ∪ m3). split_and!; [| |done|].
    + apply map_disjoint_union_r. split; [done|]. by eapply map_disjoint_weaken_l.
    + rewrite map_union_assoc. etrans; [|exact Hm]. by apply map_union_mono_r.
    + exists m2, m3. split_and!; try done. by eapply map_disjoint_weaken_l.
  - intros P Q R [H]. split. intros m HP m' Hd HQ. apply H. by exists m, m'.
  - intros P Q R [H]. split. intros m (m1 & m2 & Hd & Hm & HP & HQ). eapply holds_mono; [exact Hm|]. by apply (H m1 HP m2).
Qed.

Lemma heapProp_persistently_mixin :
  BiPersistentlyMixin heapProp_entails heapProp_emp heapProp_and (@heapProp_exist) heapProp_sep heapProp_persistently.
Proof.
  eapply bi_persistently_mixin_discrete, heapProp_bi_mixin; [done| |done].
  intros A Φ [H]. destruct (H ∅) as [x Hx]; [done|]. exists x. split. intros m _. eapply holds_mono; [|exact Hx]. apply map_empty_subseteq.
Qed.

Lemma heapProp_later_mixin :
  BiLaterMixin heapProp_entails heapProp_pure heapProp_or heapProp_impl (@heapProp_forall) (@heapProp_exist)
    heapProp_sep heapProp_persistently heapProp_later.
Proof. eapply bi_later_mixin_id, heapProp_bi_mixin. done. Qed.

Canonical Structure heapPropI : bi := {|
  bi_ofe_mixin := ofe_mixin_of heapProp;
  bi_bi_mixin := heapProp_bi_mixin;
  bi_bi_persistently_mixin := heapProp_persistently_mixin;
  bi_bi_later_mixin := heapProp_later_mixin |}.

#[export] Instance heapProp_pure_forall : BiPureForall heapPropI.
Proof. intros A φ. split. intros m H x. exact (H x). Qed.
#[export] Instance heapProp_affine : BiAffine heapPropI.
Proof. intros P. split. done. Qed.

(** ** Computations

    [M A] is a computation on memory: [None] is an access outside of it. *)

Definition M (A : Type) : Type := mem -> option (A * mem).
#[export] Instance M_ret : MRet M := fun A x σ => Some (x, σ).
#[export] Instance M_bind : MBind M := fun A B k c σ =>
  match c σ with Some (x, σ') => k x σ' | None => None end.

Definition fault {A} : M A := fun _ => None.
(** A computation on regions and integers within one on memory. *)
Definition lift {A} (o : option A) : M A := fun σ => match o with Some x => Some (x, σ) | None => None end.

Definition load1 (a : Z) : M Z := fun σ =>
  match σ !! a with Some (Some b) => Some (b, σ) | _ => None end.
Definition store1 (a b : Z) : M unit := fun σ =>
  match σ !! a with Some (Some _) => Some (tt, <[a := Some b]> σ) | _ => None end.

Fixpoint load_bytes (n : nat) (a : Z) : M (list Z) :=
  match n with
  | O => mret []
  | S n => b ← load1 a; bs ← load_bytes n (a + 1); mret (b :: bs)
  end.
Fixpoint store_bytes (a : Z) (bs : list Z) : M unit :=
  match bs with
  | [] => mret tt
  | b :: bs => store1 a b;; store_bytes (a + 1) bs
  end.

(** A [size_t] or a pointer, in the byte order of the machine. *)
Definition load (a : Z) : M Z := bs ← load_bytes 8 a; mret (of_le_bytes bs).
Definition store (a v : Z) : M unit := store_bytes a (le_bytes 8 v).

(** ** Assertions on memory *)

Program Definition pointsto (a : Z) (c : option Z) : heapProp := HeapProp (fun m => m !! a = Some c) _.
Next Obligation. intros a c m m' Hm H. cbn in *. by eapply lookup_weaken. Qed.

(** The bytes [bs] from [a] on; [n] bytes, whatever they are; a word. *)
Fixpoint region (a : Z) (bs : list Z) : heapProp :=
  match bs with [] => emp | b :: bs => pointsto a (Some b) ∗ region (a + 1) bs end%I.
Definition space (a n : Z) : heapProp :=
  (∃ bs, ⌜Z.of_nat (length bs) = n /\ is_bytes bs⌝ ∗ region a bs)%I.
Definition word (a v : Z) : heapProp := (⌜0 <= v < 2 ^ 64⌝ ∗ region a (le_bytes 8 v))%I.

(** ** Computations that end well *)

Lemma map_split_subseteq (m1 m : mem) : m1 ⊆ m -> exists m2, m = m1 ∪ m2 /\ m1 ##ₘ m2.
Proof.
  intros H. exists (m ∖ m1). split; [by rewrite map_difference_union|].
  by apply map_disjoint_difference_r1.
Qed.

Program Definition wp {A} (c : M A) (Q : A -> heapProp) : heapProp :=
  HeapProp (fun m => forall mF, m ##ₘ mF ->
    exists x m', c (m ∪ mF) = Some (x, m' ∪ mF) /\ m' ##ₘ mF /\ Q x m') _.
Next Obligation.
  intros A c Q m m2 Hm H mF Hd.
  destruct (map_split_subseteq m m2 Hm) as (m3 & -> & Hd3).
  apply map_disjoint_union_l in Hd as [Hd1 Hd2].
  destruct (H (m3 ∪ mF)) as (x & m' & Hc & Hd' & HQ).
  { by apply map_disjoint_union_r. }
  apply map_disjoint_union_r in Hd' as [Hd'1 Hd'2].
  exists x, (m' ∪ m3). rewrite -!map_union_assoc. split; [done|]. split.
  - by apply map_disjoint_union_l.
  - eapply holds_mono; [|exact HQ]. by apply map_union_subseteq_l.
Qed.

(** What holds of a part of memory when [wp] does: the computation can be run
    in any memory that has the part. *)
Lemma wp_run {A} (P R : heapProp) (c : M A) Q m :
  (P ⊢ wp c Q) -> holds_at (P ∗ R)%I m ->
  exists x m', c m = Some (x, m') /\ holds_at (Q x ∗ R)%I m'.
Proof.
  intros [HP] (m1 & m2 & Hd & Hm & H1 & H2).
  destruct (map_split_subseteq _ _ Hm) as (m3 & -> & Hd3).
  apply map_disjoint_union_l in Hd3 as [Hd3 Hd4].
  destruct (HP m1 H1 (m2 ∪ m3)) as (x & m' & Hc & Hd' & HQ).
  { by apply map_disjoint_union_r. }
  apply map_disjoint_union_r in Hd' as [Hd'1 Hd'2].
  exists x, (m' ∪ (m2 ∪ m3)). rewrite -map_union_assoc. split; [done|].
  exists m', m2. split_and!; try done. rewrite map_union_assoc. apply map_union_subseteq_l.
Qed.

Lemma wp_run_whole {A} (P : heapProp) (c : M A) Q m :
  (P ⊢ wp c Q) -> holds_at P m -> exists x m', c m = Some (x, m') /\ holds_at (Q x) m'.
Proof.
  intros [HP] HPm. destruct (HP m HPm ∅) as (x & m' & Hc & _ & HQ); [apply map_disjoint_empty_r|].
  rewrite !map_union_empty in Hc. by exists x, m'.
Qed.

Lemma holds_pure_sep φ (R : heapProp) m : holds_at (⌜φ⌝ ∗ R)%I m -> φ /\ holds_at R m.
Proof.
  intros (m1 & m2 & Hd & Hm & Hφ & HR). split; [exact Hφ|]. eapply holds_mono; [|exact HR].
  etrans; [|exact Hm]. by apply map_union_subseteq_r.
Qed.

Lemma wp_ret {A} (x : A) Q : Q x ⊢ wp (mret x) Q.
Proof. split. intros m H mF Hd. by exists x, m. Qed.

Lemma wp_bind {A B} (c : M A) (k : A -> M B) Q : wp c (fun x => wp (k x) Q) ⊢ wp (c ≫= k) Q.
Proof.
  split. intros m H mF Hd. destruct (H mF Hd) as (x & m' & Hc & Hd' & H').
  destruct (H' mF Hd') as (y & m'' & Hk & Hd'' & HQ).
  exists y, m''. split_and!; try done. unfold mbind, M_bind. by rewrite Hc.
Qed.

Lemma wp_wand {A} (c : M A) Q Q' : wp c Q ⊢ (∀ x, Q x -∗ Q' x) -∗ wp c Q'.
Proof.
  apply bi.wand_intro_r. split. intros m (m1 & m2 & Hd & Hm & H1 & H2) mF HdF.
  destruct (map_split_subseteq _ _ Hm) as (m3 & -> & Hd3).
  apply map_disjoint_union_l in Hd3 as [Hd3 Hd4]. apply map_disjoint_union_l in HdF as [HdF Hd3F].
  apply map_disjoint_union_l in HdF as [Hd1F Hd2F].
  destruct (H1 (m2 ∪ m3 ∪ mF)) as (x & m' & Hc & Hd' & HQ).
  { rewrite -map_union_assoc. by rewrite !map_disjoint_union_r. }
  rewrite -map_union_assoc !map_disjoint_union_r in Hd'. destruct Hd' as (Hd2' & Hd3' & HdF').
  exists x, (m' ∪ m2 ∪ m3). split_and!.
  - rewrite -!map_union_assoc in Hc |- *. done.
  - by rewrite !map_disjoint_union_l.
  - eapply holds_mono; [apply map_union_subseteq_l|]. rewrite map_union_comm //. by apply H2.
Qed.

Lemma wp_frame {A} (c : M A) Q R : R ∗ wp c Q ⊢ wp c (fun x => R ∗ Q x).
Proof. iIntros "[HR H]". iApply (wp_wand with "H"). iIntros (x) "$". done. Qed.

#[export] Instance frame_wp {A} p (c : M A) R Q Q' :
  (forall x, Frame p R (Q x) (Q' x)) -> Frame p R (wp c Q) (wp c Q') | 2.
Proof.
  rewrite /Frame. iIntros (HR) "[HR H]". iApply (wp_wand with "H"). iIntros (x) "H". iApply HR. iFrame.
Qed.

Lemma wp_lift {A} (o : option A) x Q : o = Some x -> Q x ⊢ wp (lift o) Q.
Proof. intros ->. apply wp_ret. Qed.

Lemma wp_load1 a b Q : pointsto a (Some b) ∗ (pointsto a (Some b) -∗ Q b) ⊢ wp (load1 a) Q.
Proof.
  split. intros m (m1 & m2 & Hd & Hm & H1 & H2) mF HdF.
  assert (Ha : m !! a = Some (Some b)). { eapply lookup_weaken; [|exact Hm]. by apply lookup_union_Some_l. }
  exists b, m. split_and!; try done.
  - unfold load1. by rewrite (lookup_union_Some_l _ _ _ _ Ha).
  - eapply holds_mono; [exact Hm|]. rewrite map_union_comm //. by apply H2.
Qed.

Lemma wp_store1 a b b' Q : pointsto a (Some b) ∗ (pointsto a (Some b') -∗ Q tt) ⊢ wp (store1 a b') Q.
Proof.
  split. intros m (m1 & m2 & Hd & Hm & H1 & H2) mF HdF.
  assert (Ha : m !! a = Some (Some b)). { eapply lookup_weaken; [|exact Hm]. by apply lookup_union_Some_l. }
  exists tt, (<[a := Some b']> m). split_and!.
  - unfold store1. rewrite (lookup_union_Some_l _ _ _ _ Ha). by rewrite insert_union_l.
  - apply map_disjoint_insert_l. split; [|done]. by eapply map_disjoint_Some_l.
  - assert (Hd' : m2 ##ₘ <[a := Some b']> m1).
    { apply map_disjoint_insert_r. split; [|done]. eapply map_disjoint_Some_l; [exact Hd|exact H1]. }
    eapply holds_mono; [|apply (H2 (<[a := Some b']> m1) Hd')].
    + rewrite map_union_comm // -insert_union_l. by apply insert_mono.
    + cbn. apply lookup_insert_eq.
Qed.

(** ** Regions and words *)

Lemma region_app a bs bs' : region a (bs ++ bs') ⊣⊢ region a bs ∗ region (a + Z.of_nat (length bs)) bs'.
Proof.
  revert a. induction bs as [|b bs IH]; intros a; cbn [app region length].
  - rewrite left_id. by replace (a + Z.of_nat 0) with a by lia.
  - rewrite IH assoc. by replace (a + 1 + Z.of_nat (length bs)) with (a + Z.of_nat (S (length bs))) by lia.
Qed.

Lemma wp_load_bytes bs a Q : region a bs -∗ (region a bs -∗ Q bs) -∗ wp (load_bytes (length bs) a) Q.
Proof.
  revert a Q. induction bs as [|b bs IH]; intros a Q; cbn [length load_bytes region].
  - iIntros "_ H". iApply wp_ret. by iApply "H".
  - iIntros "[Hb Hbs] H". iApply wp_bind. iApply wp_load1. iFrame "Hb". iIntros "Hb".
    iApply wp_bind. iApply (IH with "Hbs"). iIntros "Hbs". iApply wp_ret. iApply "H". iFrame.
Qed.

Lemma wp_store_bytes bs bs' a Q :
  length bs = length bs' -> region a bs -∗ (region a bs' -∗ Q tt) -∗ wp (store_bytes a bs') Q.
Proof.
  revert bs a Q. induction bs' as [|b' bs' IH]; intros [|b bs] a Q Hl; try done; cbn [store_bytes region].
  - iIntros "_ H". iApply wp_ret. by iApply "H".
  - iIntros "[Hb Hbs] H". iApply wp_bind. iApply wp_store1. iFrame "Hb". iIntros "Hb".
    iApply (IH with "Hbs"); [by injection Hl|]. iIntros "Hbs". iApply "H". iFrame.
Qed.

Lemma word_bound a v : word a v ⊢ ⌜0 <= v < 2 ^ 64⌝.
Proof. iIntros "[$ _]". Qed.

Lemma wp_load' a v (Q : Z -> heapProp) : word a v -∗ (word a v -∗ Q v) -∗ wp (load a) Q.
Proof.
  iIntros "[%Hv Hr] H". iApply wp_bind.
  iApply (wp_load_bytes (le_bytes 8 v) with "Hr"). iIntros "Hr". iApply wp_ret.
  rewrite of_le_bytes_le_bytes wrap_small //. iApply "H". by iFrame.
Qed.

Lemma wp_load {B} a v (k : Z -> M B) Q : word a v -∗ (word a v -∗ wp (k v) Q) -∗ wp (load a ≫= k) Q.
Proof. iIntros "H Hk". iApply wp_bind. iApply (wp_load' with "H"). iIntros "H". by iApply "Hk". Qed.

Lemma wp_store' a v v' (Q : unit -> heapProp) :
  0 <= v' < 2 ^ 64 -> word a v -∗ (word a v' -∗ Q tt) -∗ wp (store a v') Q.
Proof.
  iIntros (Hv') "[_ Hr] H". iApply (wp_store_bytes (le_bytes 8 v) with "Hr"); [by rewrite !le_bytes_length|].
  iIntros "Hr". iApply "H". by iFrame.
Qed.

Lemma wp_store {B} a v v' (k : unit -> M B) Q :
  0 <= v' < 2 ^ 64 -> word a v -∗ (word a v' -∗ wp (k tt) Q) -∗ wp (store a v' ≫= k) Q.
Proof. iIntros (Hv) "H Hk". iApply wp_bind. iApply (wp_store' with "H"); [done|]. iIntros "H". by iApply "Hk". Qed.

Lemma space_join a n m : space a n -∗ space (a + n) m -∗ space a (n + m).
Proof.
  iIntros "(%bs & [%Hl %Hb] & H1) (%bs' & [%Hl' %Hb'] & H2)".
  iExists (bs ++ bs'). rewrite region_app Hl. iFrame. iPureIntro. split; [rewrite length_app; lia|by apply Forall_app].
Qed.

Lemma space_split a n m : 0 <= n -> 0 <= m -> space a (n + m) -∗ space a n ∗ space (a + n) m.
Proof.
  iIntros (Hn Hm) "(%bs & [%Hl %Hb] & H)".
  assert (Hl' : Z.of_nat (length (take (Z.to_nat n) bs)) = n) by (rewrite length_take; lia).
  rewrite -{1}(take_drop (Z.to_nat n) bs) region_app Hl'. iDestruct "H" as "[H1 H2]".
  iSplitL "H1"; iExists _; iFrame; iPureIntro; (split; [|by auto using Forall_take, Forall_drop]); [done|].
  rewrite length_drop. lia.
Qed.

Lemma space_word a : space a 8 ⊢ ∃ v, word a v.
Proof.
  iIntros "(%bs & [%Hl %Hb] & H)". iExists (of_le_bytes bs). unfold word.
  assert (Hn : length bs = 8%nat) by lia.
  pose proof (of_le_bytes_range bs Hb) as Hr. rewrite Hn in Hr.
  iSplit; [done|]. rewrite -Hn le_bytes_of_le_bytes //.
Qed.

Lemma word_space a v : word a v ⊢ space a 8.
Proof.
  iIntros "[%Hv H]". iExists _. iFrame. iPureIntro.
  split; [by rewrite le_bytes_length|apply le_bytes_is_bytes].
Qed.

Lemma pointsto_excl a b b' : pointsto a b ∗ pointsto a b' ⊢ False.
Proof.
  split. intros m (m1 & m2 & Hd & _ & H1 & H2). exfalso. rewrite map_disjoint_spec in Hd. exact (Hd a _ _ H1 H2).
Qed.

Lemma word_excl a v v' : word a v -∗ word a v' -∗ False.
Proof. iIntros "[_ [H _]] [_ [H' _]]". iApply pointsto_excl. iFrame. Qed.

#[global] Typeclasses Opaque pointsto region space word wp.
