(* ===== verification/Xmalloc.v ===== *)
(** * The allocator of [xnet/xmalloc.c]

    The build without [UNWIND_BACKTRACE].  Blocks lie one behind the other in a
    page; a block starts with its flag and its size, and the flag says how to
    find the block before it: the size of that block while it is free, and
    otherwise an odd number that names pool and page.  The free blocks are in a
    doubly linked list, and one more, [p_ptr], is the one from which requests
    are cut.  Blocks that are freed while another thread holds the lock of the
    page wait in one of three lists.

    Headers and contents are bytes of memory; the structures of the manager are
    records, passed along.  A call is one step: whether another thread holds a
    lock when it is tried is an argument.  The answers of [mmap] are an argument,
    too; a call takes those it needs and passes the others on.  The size of a page
    and the number of pools ([XMALLOC_PAGE_SIZE] and [XMALLOC_MAX_POOL]) are
    parameters.  A pointer is an address, and [NULL] is 0. *)

From iris.bi Require Import interface.
From iris.proofmode Require Import proofmode.
From S2P Require Import Prelude Bytes Heaplet.
#[local] Open Scope Z_scope.

(** ** Data *)

Record xptr_list := mkxptr_list { l_lock : bool; l_head : Z; l_memory_size : Z }.

Record xmalloc_page := mkxmalloc_page {
  p_lock : bool; p_id : Z; p_size : Z; p_start_address : Z; p_ptr : Z; p_head : Z; p_end : Z;
  p_recycle_pool : list xptr_list;
}.

Record xmalloc_pool := mkxmalloc_pool {
  o_page_number : Z; o_id : Z; o_aligned_address : Z; o_page : list xmalloc_page;
}.

Record xmalloc := mkxmalloc {
  m_init : bool; m_pool_index : Z; m_page_size : Z; m_pool_number : Z; m_preloading_page : Z;
  m_page_aligned_mask : Z; m_pool : list xmalloc_pool;
}.

#[export] Instance eta_xptr_list : Settable xptr_list := fun r =>
  mkxptr_list (l_lock r) (l_head r) (l_memory_size r).
#[export] Instance eta_xmalloc_page : Settable xmalloc_page := fun r =>
  mkxmalloc_page (p_lock r) (p_id r) (p_size r) (p_start_address r) (p_ptr r) (p_head r) (p_end r) (p_recycle_pool r).
#[export] Instance eta_xmalloc_pool : Settable xmalloc_pool := fun r =>
  mkxmalloc_pool (o_page_number r) (o_id r) (o_aligned_address r) (o_page r).
#[export] Instance eta_xmalloc : Settable xmalloc := fun r =>
  mkxmalloc (m_init r) (m_pool_index r) (m_page_size r) (m_pool_number r) (m_preloading_page r)
    (m_page_aligned_mask r) (m_pool r).

Definition __max_page_number : Z := 1024.
Definition __max_recycle_pool : Z := 3.
Definition __free_pointer_size : Z := 32.
Definition __work_pointer_size : Z := 16.
Definition __align_mask : Z := 7.

Definition __req2align (req : Z) : Z :=
  if decide (u64 (req + __work_pointer_size) < __free_pointer_size) then __free_pointer_size
  else Z.land (u64 (u64 (req + __work_pointer_size) + __align_mask)) (u64 (Z.lnot __align_mask)).

(** The fields of [struct xpointer] at [p]. *)
Definition get_flag (p : Z) : M Z := load p.
Definition get_size (p : Z) : M Z := load (p + 8).
Definition get_prev (p : Z) : M Z := load (p + 16).
Definition get_next (p : Z) : M Z := load (p + 24).
Definition set_flag (p v : Z) : M unit := store p v.
Definition set_size (p v : Z) : M unit := store (p + 8) v.
Definition set_prev (p v : Z) : M unit := store (p + 16) v.
Definition set_next (p v : Z) : M unit := store (p + 24) v.

Definition __pointer2address (p : Z) : Z := p + __work_pointer_size.
Definition __address2pointer (a : Z) : Z := a - __work_pointer_size.
Definition __mergeable (p : Z) : M bool := f ← get_flag p; mret (bool_decide (Z.land f 1 = 0)).
Definition __prev_pointer (p : Z) : M Z := f ← get_flag p; mret (p - f).
Definition __next_pointer (p : Z) : M Z := s ← get_size p; mret (p + s).

(** The flag of a block whose predecessor is in use. *)
Definition inuse_flag (pool page : Z) : Z := Z.lor (Z.lor (Z.shiftl pool 11) (Z.shiftl page 1)) 1.

(** ** Merging and freeing blocks *)

(** [ptr->next->prev = ptr->prev; ptr->prev->next = ptr->next]. *)
Definition unlink (ptr : Z) : M unit :=
  n ← get_next ptr; v ← get_prev ptr; set_prev n v;;
  v ← get_prev ptr; n ← get_next ptr; set_next v n.

(** [ptr->next->prev = ptr; ptr->prev->next = ptr]. *)
Definition link_neighbours (ptr : Z) : M unit :=
  n ← get_next ptr; set_prev n ptr;;
  v ← get_prev ptr; set_next v ptr.

(** Before [page->head->next], and before [page->end]. *)
Definition put_first (ptr : Z) (pg : xmalloc_page) : M unit :=
  n ← get_next (p_head pg); set_next ptr n;;
  set_prev ptr (p_head pg);;
  link_neighbours ptr.

Definition put_last (ptr : Z) (pg : xmalloc_page) : M unit :=
  set_next ptr (p_end pg);;
  v ← get_prev (p_end pg); set_prev ptr v;;
  link_neighbours ptr.

(** [__prev_pointer(ptr)->size += ptr->size; ptr = __prev_pointer(ptr)]. *)
Definition absorb_left (ptr : Z) : M Z :=
  pv ← __prev_pointer ptr; s ← get_size pv; s' ← get_size ptr; set_size pv (u64 (s + s'));;
  __prev_pointer ptr.

(** [__next_pointer(ptr)->flag = ptr->size]. *)
Definition mark_free (ptr : Z) : M unit :=
  nx ← __next_pointer ptr; s ← get_size ptr; set_flag nx s.

(** The block behind [ptr], if it is free, is taken out of the list and joined. *)
Definition merge_right (ptr : Z) : M unit :=
  nx ← __next_pointer ptr; nn ← __next_pointer nx; free ← __mergeable nn;
  if free : bool then
    nx ← __next_pointer ptr; v ← get_prev nx; n ← get_next nx; set_next v n;;
    nx ← __next_pointer ptr; n ← get_next nx; v ← get_prev nx; set_prev n v;;
    nx ← __next_pointer ptr; s ← get_size ptr; s' ← get_size nx; set_size ptr (u64 (s + s'))
  else mret tt.

(** The block before [ptr], if it is free, is taken out of the list and joined.
    With [mark] the flag of the block behind is set on the way. *)
Definition merge_left (mark : bool) (ptr : Z) : M Z :=
  free ← __mergeable ptr;
  if free : bool then
    ptr ← absorb_left ptr;
    (if mark then mark_free ptr else mret tt);;
    unlink ptr;;
    mret ptr
  else mret ptr.

(** The three cases of [free_pointer]: the block lies before [page->ptr], behind
    it, or elsewhere. *)
Definition free_before (ptr : Z) (pg : xmalloc_page) : M xmalloc_page :=
  ptr ← merge_left false ptr;
  s ← get_size ptr; s' ← get_size (p_ptr pg); set_size ptr (u64 (s + s'));;
  mark_free ptr;;
  mret (pg <| p_ptr := ptr |>).

Definition free_behind (ptr : Z) (pg : xmalloc_page) : M xmalloc_page :=
  merge_right ptr;;
  s ← get_size (p_ptr pg); s' ← get_size ptr; set_size (p_ptr pg) (u64 (s + s'));;
  mark_free (p_ptr pg);;
  mret pg.

Definition free_elsewhere (ptr : Z) (pg : xmalloc_page) : M xmalloc_page :=
  ptr ← merge_left true ptr;
  merge_right ptr;;
  mark_free ptr;;
  s ← get_size ptr; f ← get_next (p_head pg); fs ← get_size f;
  (if decide (fs <= s) then put_first ptr pg else put_last ptr pg);;
  mret pg.

Definition free_pointer (ptr : Z) (pg : xmalloc_page) : M xmalloc_page :=
  nx ← __next_pointer ptr;
  if decide (nx = p_ptr pg) then free_before ptr pg else
  np ← __next_pointer (p_ptr pg);
  if decide (np = ptr) then free_behind ptr pg else free_elsewhere ptr pg.

(** ** Locks

    [held] says that another thread has the lock. *)

Definition try_lock_page (held : bool) (pg : xmalloc_page) : option xmalloc_page :=
  if held || p_lock pg then None else Some (pg <| p_lock := true |>).
Definition unlock_page (pg : xmalloc_page) : xmalloc_page := pg <| p_lock := false |>.

Definition try_lock_list (held : bool) (l : xptr_list) : option xptr_list :=
  if held || l_lock l then None else Some (l <| l_lock := true |>).

Definition set_list (i : Z) (l : xptr_list) (pg : xmalloc_page) : option xmalloc_page :=
  ls ← wr (p_recycle_pool pg) i l; Some (pg <| p_recycle_pool := ls |>).

(** ** Blocks that wait to be freed *)

(** [while (head)] over one list; [count] says whether [memory_size] is kept. *)
Fixpoint drain (fuel : nat) (count : bool) (i : Z) (pg : xmalloc_page) : M xmalloc_page :=
  l ← lift (rd (p_recycle_pool pg) i);
  if decide (l_head l = 0) then mret pg else
  match fuel with
  | O => fault
  | S fuel =>
      let ptr := l_head l in
      n ← get_next ptr;
      size ← (if count then get_size ptr else mret 0);
      pg ← lift (set_list i (l <| l_head := n |> <| l_memory_size := u64 (l_memory_size l - size) |>) pg);
      pg ← free_pointer ptr pg;
      drain fuel count i pg
  end.

Definition drain_fuel (pg : xmalloc_page) : nat := S (Z.to_nat (p_size pg / __free_pointer_size)).

(** The block is put into list [i], of which the lock is taken; [again] is the
    second try of the lock of the page. *)
Definition recycle_into (i : Z) (l : xptr_list) (again : bool) (ptr : Z) (pg : xmalloc_page) : M xmalloc_page :=
  set_next ptr (l_head l);;
  s ← get_size ptr;
  pg ← lift (set_list i (l <| l_head := ptr |> <| l_memory_size := u64 (l_memory_size l + s) |>) pg);
  pg ← match try_lock_page again pg with
       | Some pg => pg ← drain (drain_fuel pg) true i pg; mret (unlock_page pg)
       | None => mret pg
       end;
  l ← lift (rd (p_recycle_pool pg) i);
  lift (set_list i (l <| l_lock := false |>) pg).

(** The locks of the lists are tried in turn; [held] are the answers, and after
    them a lock is free. *)
Fixpoint recycle (i : Z) (held : list bool) (again : bool) (ptr : Z) (pg : xmalloc_page) : M xmalloc_page :=
  l ← lift (rd (p_recycle_pool pg) i);
  match try_lock_list (default false (head held)) l with
  | Some l => recycle_into i l again ptr pg
  | None =>
      match held with
      | [] => fault
      | _ :: held => recycle ((i + 1) mod __max_recycle_pool) held again ptr pg
      end
  end.

Fixpoint flush_lists (n : nat) (i : Z) (pg : xmalloc_page) : M xmalloc_page :=
  match n with
  | O => mret pg
  | S n => pg ← drain (drain_fuel pg) false i pg; flush_lists n (i + 1) pg
  end.
Definition flush_page (pg : xmalloc_page) : M xmalloc_page := flush_lists (Z.to_nat __max_recycle_pool) 0 pg.

(** ** Cutting blocks *)

(** The block from which requests are cut changes places with the first free one. *)
Definition exchange (pg : xmalloc_page) : M xmalloc_page :=
  put_last (p_ptr pg) pg;;
  mark_free (p_ptr pg);;
  ptr ← get_next (p_head pg);
  n ← get_next ptr; set_next (p_head pg) n;;
  n ← get_next (p_head pg); set_prev n (p_head pg);;
  mret (pg <| p_ptr := ptr |>).

Definition cut (flag size : Z) (pg : xmalloc_page) : M (Z * xmalloc_page) :=
  let ptr := p_ptr pg + size in
  set_flag ptr flag;;
  s ← get_size (p_ptr pg); set_size ptr (u64 (s - size));;
  mark_free ptr;;
  set_prev ptr (p_ptr pg);;
  let pg := pg <| p_ptr := ptr |> in
  ptr ← get_prev (p_ptr pg);
  set_size ptr size;;
  mret (ptr, pg).

(** The block to cut from has room for the request and a header behind it; or
    the first free block has. *)
Definition make_room (size : Z) (pg : xmalloc_page) : M (option xmalloc_page) :=
  let reserved_size := u64 (size + __free_pointer_size) in
  s ← get_size (p_ptr pg);
  if decide (reserved_size > s) then
    f ← get_next (p_head pg); fs ← get_size f;
    if decide (fs > reserved_size) then pg ← exchange pg; mret (Some pg) else mret None
  else mret (Some pg).

Definition get_page (i : Z) (pl : xmalloc_pool) : option xmalloc_page := rd (o_page pl) i.
Definition set_page (i : Z) (pg : xmalloc_page) (pl : xmalloc_pool) : option xmalloc_pool :=
  l ← wr (o_page pl) i pg; Some (pl <| o_page := l |>).

(** The pages from [i] on are tried in turn. *)
Fixpoint scan (n : nat) (i : Z) (busy : Z -> bool) (size : Z) (pl : xmalloc_pool) : M (option Z * xmalloc_pool) :=
  match n with
  | O => mret (None, pl)
  | S n =>
      pg ← lift (get_page i pl);
      match try_lock_page (busy i) pg with
      | None => scan n (i + 1) busy size pl
      | Some pg =>
          r ← make_room size pg;
          match r with
          | None => pl ← lift (set_page i (unlock_page pg) pl); scan n (i + 1) busy size pl
          | Some pg =>
              '(ptr, pg) ← cut (inuse_flag (o_id pl) i) size pg;
              pl ← lift (set_page i (unlock_page pg) pl);
              mret (Some ptr, pl)
          end
      end
  end.

(** The first page number of which the lock is free and that is not in use. *)
Fixpoint next_page (n : nat) (busy : Z -> bool) (pl : xmalloc_pool) : option (option Z * xmalloc_pool) :=
  if decide (o_page_number pl < __max_page_number) then
    match n with
    | O => None
    | S n =>
        let page_id := o_page_number pl in
        let pl := pl <| o_page_number := u64 (o_page_number pl + 1) |> in
        pg ← get_page page_id pl;
        match try_lock_page (busy page_id) pg with
        | Some pg =>
            if decide (p_id pg = 0) then
              pl ← set_page page_id (pg <| p_id := page_id |>) pl; Some (Some page_id, pl)
            else pl ← set_page page_id (unlock_page pg) pl; next_page n busy pl
        | None => next_page n busy pl
        end
    end
  else Some (None, pl).

(** ** Pages and pools *)

Definition __XAPI_MAP_FAILED : Z := 2 ^ 64 - 1.
Definition cells (a n : Z) (c : option Z) : mem := map_seqZ a (replicate (Z.to_nat n) c).
Definition unmapped (σ : mem) (a n : Z) : bool := forallb (fun x => bool_decide (σ !! x = Some None)) (seqZ a n).

(** Either [mmap] fails, or it maps cleared memory where none was mapped. *)
Definition mmap (answer n : Z) : M Z := fun σ =>
  if decide (answer = __XAPI_MAP_FAILED) then Some (answer, σ)
  else if unmapped σ answer n then Some (answer, cells answer n (Some 0) ∪ σ) else None.

Definition munmap (a n : Z) : M unit := fun σ =>
  Some (tt, map_imap (fun x c => Some (if decide (a <= x < a + n) then None else c)) σ).

Section Manager.
(** [XMALLOC_PAGE_SIZE] and [XMALLOC_MAX_POOL]. *)
Variables __page_size __max_pool_number : Z.

(** [do ... while (1)] until an aligned region is found: whether there is one,
    where it is, and [pool->aligned_address], the hint for [mmap]. *)
Fixpoint map_aligned (os : list Z) (hint n : Z) : M (bool * Z * Z * list Z) :=
  match os with
  | [] => fault
  | answer :: os =>
      a ← mmap answer n;
      if decide (a = __XAPI_MAP_FAILED) then mret (false, a, hint, os)
      else if decide (Z.land a __align_mask ≠ 0) then
        munmap a n;;
        map_aligned os (Z.land (u64 (a + __align_mask)) (u64 (Z.lnot __align_mask))) n
      else mret (true, a, u64 (a + n), os)
  end.

Definition empty_list : xptr_list := mkxptr_list false 0 0.

(** The head, one large block and the end. *)
Definition format_page (pool_id : Z) (pg : xmalloc_page) : M xmalloc_page :=
  let flag := inuse_flag pool_id (p_id pg) in
  let head := p_start_address pg in
  set_flag head flag;; set_size head __free_pointer_size;;
  ptr ← __next_pointer head;
  set_flag ptr flag;;
  set_size ptr (u64 (p_size pg - Z.shiftl __free_pointer_size 1));;
  en ← __next_pointer ptr;
  s ← get_size ptr; set_flag en s;;
  set_size en __free_pointer_size;;
  set_prev head 0;; set_next head en;;
  set_prev en head;; set_next en 0;;
  mret (pg <| p_ptr := ptr |> <| p_head := head |> <| p_end := en |>
           <| p_recycle_pool := replicate (Z.to_nat __max_recycle_pool) empty_list |>).

(** The size of the page is written before it is known whether there is memory;
    so is the address. *)
Definition malloc_page (mask : Z) (pl : xmalloc_pool) (pg : xmalloc_page) (page_size : Z) (os : list Z) :
    M (bool * xmalloc_pool * xmalloc_page * list Z) :=
  let size := Z.land (u64 (page_size + __free_pointer_size * 4 + mask)) (u64 (Z.lnot mask)) in
  let pg := pg <| p_size := size |> in
  '(ok, a, aligned, os) ← map_aligned os 0 size;
  let pl := pl <| o_aligned_address := aligned |> in
  let pg := pg <| p_start_address := a |> in
  if ok : bool then pg ← format_page (o_id pl) pg; mret (true, pl, pg, os) else mret (false, pl, pg, os).

(** The pages of a pool that are made at the start. *)
Fixpoint preload_pages (n : nat) (page_id mask page_size : Z) (pl : xmalloc_pool) (os : list Z) :
    M (bool * xmalloc_pool * list Z) :=
  match n with
  | O => mret (true, pl, os)
  | S n =>
      pg ← lift (get_page page_id pl);
      let pl := pl <| o_page_number := u64 (o_page_number pl + 1) |> in
      '(ok, pl, pg, os) ← malloc_page mask pl (pg <| p_id := page_id |>) page_size os;
      pl ← lift (set_page page_id pg pl);
      if ok : bool then preload_pages n (page_id + 1) mask page_size pl os else mret (false, pl, os)
  end.

Definition set_pool (i : Z) (pl : xmalloc_pool) (mm : xmalloc) : option xmalloc :=
  l ← wr (m_pool mm) i pl; Some (mm <| m_pool := l |>).

Fixpoint make_pools (n : nat) (mm : xmalloc) (os : list Z) : M (bool * xmalloc * list Z) :=
  match n with
  | O => mret (true, mm, os)
  | S n =>
      let i := m_pool_number mm in
      pl ← lift (rd (m_pool mm) i);
      '(ok, pl, os) ← preload_pages (Z.to_nat (m_preloading_page mm)) 0 (m_page_aligned_mask mm)
                        (m_page_size mm) (pl <| o_id := i |>) os;
      mm ← lift (set_pool i pl mm);
      if ok : bool then make_pools n (mm <| m_pool_number := i + 1 |>) os else mret (false, mm, os)
  end.

Definition malloc_pool (mm : xmalloc) (os : list Z) : M (bool * xmalloc * list Z) :=
  if m_init mm then mret (true, mm, os) else
  let mm := mm <| m_page_size := __page_size |> <| m_preloading_page := 2 |>
               <| m_page_aligned_mask := 4096 - 1 |> <| m_pool_number := 0 |> in
  '(ok, mm, os) ← make_pools (Z.to_nat __max_pool_number) mm os;
  mret (ok, if ok : bool then mm <| m_init := true |> else mm, os).

(** ** The functions *)

(** A block of [size] bytes from a new page. *)
Definition malloc_new_page (busy : Z -> bool) (size page_size mask : Z) (pl : xmalloc_pool) (os : list Z) :
    M (Z * xmalloc_pool * list Z) :=
  '(page, pl) ← lift (next_page (S (Z.to_nat __max_page_number)) busy pl);
  if decide (__max_page_number <= o_page_number pl) then
    page_id ← lift page;
    pg ← lift (get_page page_id pl);
    pl ← lift (set_page page_id (unlock_page pg) pl);
    mret (0, pl, os)
  else
    page_id ← lift page;
    pg ← lift (get_page page_id pl);
    '(ok, pl, pg, os) ← malloc_page mask pl pg (u64 (page_size + size)) os;
    if ok : bool then
      '(ptr, pg) ← cut (inuse_flag (o_id pl) (p_id pg)) size pg;
      pl ← lift (set_page page_id (unlock_page pg) pl);
      mret (__pointer2address ptr, pl, os)
    else
      pl ← lift (set_page page_id (unlock_page pg) pl);
      mret (0, pl, os).

Definition malloc (os : list Z) (busy : Z -> bool) (size : Z) (mm : xmalloc) : M (Z * xmalloc * list Z) :=
  '(ok, mm, os) ← (if m_init mm then mret (true, mm, os) else malloc_pool mm os);
  if ok : bool then
    let mm := mm <| m_pool_index := u64 (m_pool_index mm + 1) |> in
    let k := Z.land (m_pool_index mm) (__max_pool_number - 1) in
    pl ← lift (rd (m_pool mm) k);
    let size := __req2align size in
    '(r, pl) ← scan (Z.to_nat (o_page_number pl)) 0 busy size pl;
    match r with
    | Some ptr => mm ← lift (set_pool k pl mm); mret (__pointer2address ptr, mm, os)
    | None =>
        '(a, pl, os) ← malloc_new_page busy size (m_page_size mm) (m_page_aligned_mask mm) pl os;
        mm ← lift (set_pool k pl mm); mret (a, mm, os)
    end
  else mret (0, mm, os).

(** [again] and [held] are the answers of the locks in [recycle].  What the
    checks before would log is left out. *)
Definition free (busy : bool) (held : list bool) (again : bool) (address : Z) (mm : xmalloc) : M xmalloc :=
  if decide (address = 0) then mret mm else
  let ptr := __address2pointer address in
  nx ← __next_pointer ptr; f ← get_flag nx;
  let pool_id := Z.land (Z.shiftr f 11) 0x3FF in
  pl ← lift (rd (m_pool mm) pool_id);
  nx ← __next_pointer ptr; f ← get_flag nx;
  let page_id := Z.land (Z.shiftr f 1) 0x3FF in
  pg ← lift (get_page page_id pl);
  pg ← match try_lock_page busy pg with
       | Some pg => pg ← free_pointer ptr pg; mret (unlock_page pg)
       | None => recycle 0 held again ptr pg
       end;
  pl ← lift (set_page page_id pg pl);
  lift (set_pool pool_id pl mm).

Fixpoint zero_words (l : nat) (i ptr : Z) : M unit :=
  match l with O => mret tt | S l => store (ptr + 8 * i) 0;; zero_words l (i + 1) ptr end.
Fixpoint zero_tail (r : nat) (size ptr : Z) : M unit :=
  match r with O => mret tt | S r' => store1 (ptr + (size - Z.of_nat r)) 0;; zero_tail r' size ptr end.

Definition calloc (os : list Z) (busy : Z -> bool) (number size : Z) (mm : xmalloc) : M (Z * xmalloc * list Z) :=
  let size := u64 (size * number) in
  '(ptr, mm, os) ← malloc os busy size mm;
  if decide (ptr = 0) then mret (ptr, mm, os) else
  zero_words (Z.to_nat (Z.shiftr size 3)) 0 ptr;;
  zero_tail (Z.to_nat (size mod 8)) size ptr;;
  mret (ptr, mm, os).

(** [mcopy] on two regions of memory. *)
Definition copy (dst src n : Z) : M unit :=
  d ← load_bytes (Z.to_nat n) dst;
  s ← load_bytes (Z.to_nat n) src;
  r ← lift (mcopy (Some (d, 0)) (Some (s, 0)) n);
  match r with Some (d, _) => store_bytes dst d | None => mret tt end.

Definition realloc (os : list Z) (busy : Z -> bool) (held : bool) (rheld : list bool) (again : bool)
    (address size : Z) (mm : xmalloc) : M (Z * xmalloc * list Z) :=
  let old_pointer := __address2pointer address in
  if decide (size > 0) then
    '(new_address, mm, os) ← malloc os busy size mm;
    if decide (new_address = 0) then mret (0, mm, os) else
    if decide (address = 0) then mret (new_address, mm, os) else
    s ← get_size old_pointer;
    (if decide (size > u64 (s - __work_pointer_size)) then
       s ← get_size old_pointer; copy new_address address (u64 (s - __work_pointer_size))
     else copy new_address address size);;
    mm ← free held rheld again address mm;
    mret (new_address, mm, os)
  else if decide (address = 0) then mret (0, mm, os) else
  mm ← free held rheld again address mm;
  mret (0, mm, os).

Definition aligned_alloc (os : list Z) (busy : Z -> bool) (held : bool) (rheld : list bool) (again : bool)
    (alignment size : Z) (mm : xmalloc) : M (Z * xmalloc * list Z) :=
  if decide (alignment = __align_mask + 1) then malloc os busy size mm else
  if decide (size = 0 \/ alignment = 0 \/ Z.land alignment 7 ≠ 0 \/ Z.land alignment (alignment - 1) ≠ 0)
  then mret (0, mm, os) else
  '(address, mm, os) ← malloc os busy (u64 (size + alignment + __free_pointer_size)) mm;
  if decide (address = 0) then mret (0, mm, os) else
  let mask := u64 (Z.lnot (alignment - 1)) in
  if decide (Z.land address mask = address) then mret (address, mm, os) else
  let aligned_address := Z.land (u64 (address + alignment + __free_pointer_size)) mask in
  let aligned_pointer := __address2pointer aligned_address in
  let pointer := __address2pointer address in
  let free_size := u64 (aligned_pointer - pointer) in
  s ← get_size pointer; set_size aligned_pointer (u64 (s - free_size));;
  nx ← __next_pointer pointer; f ← get_flag nx; set_flag aligned_pointer f;;
  set_size pointer free_size;;
  mm ← free held rheld again address mm;
  mret (aligned_address, mm, os).

Definition memalign := aligned_alloc.
Definition _aligned_alloc := aligned_alloc.

(** The result and what is stored in [*ptr]. *)
Definition posix_memalign (os : list Z) (busy : Z -> bool) (held : bool) (rheld : list bool) (again : bool)
    (align size : Z) (mm : xmalloc) : M (Z * Z * xmalloc * list Z) :=
  '(ptr, mm, os) ← aligned_alloc os busy held rheld again align size mm;
  mret (if decide (ptr = 0) then -1 else 0, ptr, mm, os).
End Manager.

(** ** Looking for leaks, and the end *)

Fixpoint flush_pages (n : nat) (page_id : Z) (pl : xmalloc_pool) : M xmalloc_pool :=
  match n with
  | O => mret pl
  | S n =>
      pg ← lift (get_page page_id pl);
      pl ← (if decide (p_start_address pg ≠ 0) then pg ← flush_page pg; lift (set_page page_id pg pl)
            else mret pl);
      flush_pages n (page_id + 1) pl
  end.

Fixpoint flush_pools (n : nat) (pool_id : Z) (mm : xmalloc) : M xmalloc :=
  match n with
  | O => mret mm
  | S n =>
      pl ← lift (rd (m_pool mm) pool_id);
      pl ← flush_pages (Z.to_nat (o_page_number pl)) 0 pl;
      mm ← lift (set_pool pool_id pl mm);
      flush_pools n (pool_id + 1) mm
  end.
Definition flush_cache (mm : xmalloc) : M xmalloc := flush_pools (Z.to_nat (m_pool_number mm)) 0 mm.

(** [while (ptr != end) ptr = __next_pointer(ptr)]. *)
Fixpoint walk (fuel : nat) (ptr en : Z) : M unit :=
  if decide (ptr = en) then mret tt else
  match fuel with O => fault | S fuel => nx ← __next_pointer ptr; walk fuel nx en end.

(** How often [cb] is called for the pages of a pool. *)
Fixpoint leaking_pages (n : nat) (page_id : Z) (pl : xmalloc_pool) : M nat :=
  match n with
  | O => mret O
  | S n =>
      pg ← lift (get_page page_id pl);
      leaks ← (if decide (p_start_address pg = 0) then mret false else
               s ← get_size (p_ptr pg);
               mret (bool_decide (s ≠ u64 (p_size pg - __free_pointer_size * 2))));
      (if leaks : bool then
         ptr ← __next_pointer (p_head pg); walk (drain_fuel pg) ptr (p_end pg)
       else mret tt);;
      k ← leaking_pages n (page_id + 1) pl;
      mret (if leaks : bool then S k else k)
  end.

Fixpoint leaking_pools (n : nat) (pool_id : Z) (mm : xmalloc) : M nat :=
  match n with
  | O => mret O
  | S n =>
      pl ← lift (rd (m_pool mm) pool_id);
      k ← leaking_pages (Z.to_nat (o_page_number pl)) 0 pl;
      k' ← leaking_pools n (pool_id + 1) mm;
      mret (k + k')%nat
  end.

(** [cb] is not [NULL]. *)
Definition xmalloc_leak_trace (mm : xmalloc) : M (nat * xmalloc) :=
  mm ← flush_cache mm;
  k ← leaking_pools (Z.to_nat (m_pool_number mm)) 0 mm;
  mret (k, mm).

Fixpoint release_pages (pgs : list xmalloc_page) : M unit :=
  match pgs with
  | [] => mret tt
  | pg :: pgs =>
      (if decide (p_start_address pg ≠ 0) then munmap (p_start_address pg) (p_size pg) else mret tt);;
      release_pages pgs
  end.
Fixpoint release_pools (pls : list xmalloc_pool) : M unit :=
  match pls with
  | [] => mret tt
  | pl :: pls => release_pages (take (Z.to_nat (o_page_number pl)) (o_page pl));; release_pools pls
  end.

(** The manager before the first call; all bytes are 0. *)
Definition no_page : xmalloc_page := mkxmalloc_page false 0 0 0 0 0 0 (replicate 3 empty_list).
Definition no_pool : xmalloc_pool := mkxmalloc_pool 0 0 0 (replicate (Z.to_nat (__max_page_number + 1)) no_page).
Definition memory_manager (pools : Z) : xmalloc := mkxmalloc false 0 0 0 0 0 (replicate (Z.to_nat (pools + 1)) no_pool).

Definition xmalloc_release (pools : Z) (mm : xmalloc) : M xmalloc :=
  release_pools (take (Z.to_nat (m_pool_number mm)) (m_pool mm));; mret (memory_manager pools).
