(* ===== verification/XmallocPage.v ===== *)
(** * The pages of the allocator

    A page is a sequence of blocks and a doubly linked list of the free ones.
    The invariant of a page says what the memory of both is, which part of it
    belongs to the users of the blocks, and that neighbouring free blocks are
    always joined; freeing a block and cutting one keep it. *)

From iris.bi Require Import interface.
From iris.proofmode Require Import proofmode.
From S2P Require Import Prelude Heaplet Xmalloc.
#[local] Open Scope Z_scope.

(** ** Blocks *)

(** [Main] is the block at [page->ptr]; [Head] and [End] bound the list. *)
Inductive kind := Head | Used | Free | Main | End.
#[export] Instance kind_eq_dec : EqDecision kind.
Proof. solve_decision. Defined.

Abbreviation block := (kind * Z)%type.

Definition is_free (k : kind) : bool := match k with Free | Main => true | _ => false end.

(** Which block may lie behind which. *)
Definition follows (k1 k2 : kind) : bool :=
  match k1, k2 with
  | _, Head | End, _ | Head, End | Used, End => false
  | Head, _ | Used, _ | _, Used | _, End => true
  | _, _ => false
  end.

Fixpoint shape (bs : list block) : bool :=
  match bs with
  | b1 :: (b2 :: _) as t => follows b1.1 b2.1 && shape t
  | _ => true
  end.

Fixpoint total (bs : list block) : Z :=
  match bs with [] => 0 | (_, n) :: bs => n + total bs end.

(** The addresses of the blocks of one kind, and the blocks in use with their
    sizes, when the first block is at [a]. *)
Fixpoint addrs (k : kind) (a : Z) (bs : list block) : list Z :=
  match bs with
  | [] => []
  | (k', n) :: bs => if decide (k' = k) then a :: addrs k (a + n) bs else addrs k (a + n) bs
  end.
Fixpoint used (a : Z) (bs : list block) : list (Z * Z) :=
  match bs with
  | [] => []
  | (k, n) :: bs => if decide (k = Used) then (a, n) :: used (a + n) bs else used (a + n) bs
  end.

Definition block_ok (b : block) : Prop := 32 <= b.2 /\ b.2 mod 8 = 0.

Section Blocks.
Implicit Types (bs : list block) (a n : Z).

Lemma blocks_total_app bs bs' : total (bs ++ bs') = total bs + total bs'.
Proof. induction bs as [|[k n] bs IH]; cbn [app total]; [lia|]. rewrite IH. lia. Qed.

Lemma blocks_total_nonneg bs : Forall block_ok bs -> 0 <= total bs.
Proof. induction 1 as [|[k n] bs [H _] _ IH]; cbn [total] in *; [lia|]. cbn in H. lia. Qed.

Lemma addrs_app k a bs bs' : addrs k a (bs ++ bs') = addrs k a bs ++ addrs k (a + total bs) bs'.
Proof.
  revert a. induction bs as [|[k' n] bs IH]; intros a; cbn [app addrs total]; [by rewrite Z.add_0_r|].
  rewrite IH Z.add_assoc. by case_decide.
Qed.

Lemma used_app a bs bs' : used a (bs ++ bs') = used a bs ++ used (a + total bs) bs'.
Proof.
  revert a. induction bs as [|[k' n] bs IH]; intros a; cbn [app used total]; [by rewrite Z.add_0_r|].
  rewrite IH Z.add_assoc. by case_decide.
Qed.

Lemma shape_app bs b bs' : shape (bs ++ b :: bs') = shape (bs ++ [b]) && shape (b :: bs').
Proof.
  induction bs as [|b1 [|b2 bs] IH]; cbn [app] in *; [done| |].
  - cbn [shape]. by rewrite andb_true_r.
  - change (follows b1.1 b2.1 && shape (b2 :: bs ++ b :: bs') =
            follows b1.1 b2.1 && shape (b2 :: bs ++ [b]) && shape (b :: bs')).
    by rewrite IH andb_assoc.
Qed.

(** Where the block at an address is. *)
Lemma elem_of_addrs k a bs y :
  y ∈ addrs k a bs -> exists pre n post, bs = pre ++ (k, n) :: post /\ y = a + total pre.
Proof.
  revert a. induction bs as [|[k' n] bs IH]; intros a; cbn [addrs]; [by intros ?%elem_of_nil|].
  case_decide as Hk; [intros [->|H]%elem_of_cons|intros H].
  - subst k'. exists [], n, bs. by rewrite Z.add_0_r.
  - destruct (IH _ H) as (pre & m & post & -> & ->). exists ((k', n) :: pre), m, post. cbn [total]. split; [done|lia].
  - destruct (IH _ H) as (pre & m & post & -> & ->). exists ((k', n) :: pre), m, post. cbn [total]. split; [done|lia].
Qed.

Lemma elem_of_used a bs y n :
  (y, n) ∈ used a bs -> exists pre post, bs = pre ++ (Used, n) :: post /\ y = a + total pre.
Proof.
  revert a. induction bs as [|[k' m] bs IH]; intros a; cbn [used]; [by intros ?%elem_of_nil|].
  case_decide as Hk; [intros [[= -> ->]|H]%elem_of_cons|intros H].
  - subst k'. exists [], bs. by rewrite Z.add_0_r.
  - destruct (IH _ H) as (pre & post & -> & ->). exists ((k', m) :: pre), post. cbn [total]. split; [done|lia].
  - destruct (IH _ H) as (pre & post & -> & ->). exists ((k', m) :: pre), post. cbn [total]. split; [done|lia].
Qed.

Lemma addrs_bounds k a bs y : Forall block_ok bs -> y ∈ addrs k a bs -> a <= y /\ y + 32 <= a + total bs.
Proof.
  intros Hok (pre & n & post & -> & ->)%elem_of_addrs.
  apply Forall_app in Hok as [Hpre [Hn Hpost]%Forall_cons].
  apply blocks_total_nonneg in Hpre, Hpost. rewrite blocks_total_app. cbn [total]. destruct Hn as [Hn _]. cbn in Hn. lia.
Qed.

Lemma used_bounds a bs y n : Forall block_ok bs -> (y, n) ∈ used a bs -> a <= y /\ 32 <= n /\ y + n <= a + total bs.
Proof.
  intros Hok (pre & post & -> & ->)%elem_of_used.
  apply Forall_app in Hok as [Hpre [Hn Hpost]%Forall_cons].
  apply blocks_total_nonneg in Hpre, Hpost. rewrite blocks_total_app. cbn [total]. destruct Hn as [Hn _]. cbn in Hn. lia.
Qed.
End Blocks.

(** ** The memory of blocks and of the list *)

(** What a block owns behind its size.  The links of a free block belong to the
    list, the content of a block in use to its user. *)
Definition body (k : kind) (a n : Z) : heapProp :=
  match k with
  | Free => space (a + 32) (n - 32)
  | Main => space (a + 16) (n - 16)
  | _ => emp
  end%I.

Definition next_flag (k : kind) (n : Z) : option Z := if is_free k then Some n else None.

(** The blocks from [a] on.  The first flag is [pf], or [tag] if the block
    before is in use. *)
Fixpoint tiles (tag a : Z) (pf : option Z) (bs : list block) : heapProp :=
  match bs with
  | [] => emp
  | (k, n) :: bs =>
      word a (default tag pf) ∗ word (a + 8) n ∗ body k a n ∗ tiles tag (a + n) (next_flag k n) bs
  end%I.

Fixpoint segs (l : list Z) : heapProp :=
  match l with
  | x :: (y :: _) as t => word (x + 24) y ∗ word (y + 16) x ∗ segs t
  | _ => emp
  end%I.

(** The list from [s] over the blocks [fs] to [e]. *)
Definition chain (s : Z) (fs : list Z) (e : Z) : heapProp :=
  (word (s + 16) 0 ∗ segs (s :: fs ++ [e]) ∗ word (e + 24) 0)%I.

Fixpoint last_flag (pf : option Z) (bs : list block) : option Z :=
  match bs with [] => pf | (k, n) :: bs => last_flag (next_flag k n) bs end.

Lemma last_flag_snoc pf bs k n : last_flag pf (bs ++ [(k, n)]) = next_flag k n.
Proof. revert pf. induction bs as [|[k' n'] bs IH]; intros pf; cbn [app last_flag]; [done|apply IH]. Qed.

Lemma tiles_nil tag a pf : tiles tag a pf [] ⊣⊢ emp.
Proof. done. Qed.

Lemma tiles_cons tag a pf k n bs :
  tiles tag a pf ((k, n) :: bs) ⊣⊢
  word a (default tag pf) ∗ word (a + 8) n ∗ body k a n ∗ tiles tag (a + n) (next_flag k n) bs.
Proof. done. Qed.

Lemma tiles_app tag a pf bs bs' :
  tiles tag a pf (bs ++ bs') ⊣⊢ tiles tag a pf bs ∗ tiles tag (a + total bs) (last_flag pf bs) bs'.
Proof.
  revert a pf. induction bs as [|[k n] bs IH]; intros a pf; cbn [app tiles total last_flag].
  - by rewrite left_id Z.add_0_r.
  - by rewrite IH Z.add_assoc !assoc.
Qed.

Lemma tiles_reflag tag a pf b bs :
  tiles tag a pf (b :: bs) -∗
  word a (default tag pf) ∗ (∀ pf', word a (default tag pf') -∗ tiles tag a pf' (b :: bs)).
Proof. destruct b as [k n]. cbn [tiles]. iIntros "($ & $ & $ & $)" (pf') "$". Qed.

Lemma tiles_size tag a pf pre k n post :
  tiles tag a pf (pre ++ (k, n) :: post) -∗
  word (a + total pre + 8) n ∗ (word (a + total pre + 8) n -∗ tiles tag a pf (pre ++ (k, n) :: post)).
Proof. rewrite tiles_app. cbn [tiles]. iIntros "($ & $ & $ & $ & $) $". Qed.

(** An unlinked free block becomes a linked one by giving up the place of its links. *)
Lemma tiles_relabel tag a pf pre n post :
  32 <= n ->
  tiles tag a pf (pre ++ (Main, n) :: post) ⊣⊢
  space (a + total pre + 16) 16 ∗ tiles tag a pf (pre ++ (Free, n) :: post).
Proof.
  intros Hn. rewrite !tiles_app. cbn [tiles body next_flag is_free].
  replace (n - 16) with (16 + (n - 32)) by lia. iSplit.
  - iIntros "($ & $ & $ & H & $)". iDestruct (space_split with "H") as "[$ H]"; [lia..|].
    by replace (a + total pre + 16 + 16) with (a + total pre + 32) by lia.
  - iIntros "(H1 & $ & $ & $ & H & $)". iApply (space_join with "H1").
    by replace (a + total pre + 16 + 16) with (a + total pre + 32) by lia.
Qed.

#[global] Typeclasses Opaque segs tiles chain.

Lemma segs_cons x y l : segs (x :: y :: l) ⊣⊢ word (x + 24) y ∗ word (y + 16) x ∗ segs (y :: l).
Proof. done. Qed.

Lemma segs_one x : segs [x] ⊣⊢ emp.
Proof. done. Qed.

Lemma segs_app l x l' : segs (l ++ x :: l') ⊣⊢ segs (l ++ [x]) ∗ segs (x :: l').
Proof.
  induction l as [|y [|z l] IH]; cbn [app] in *.
  - by rewrite segs_one left_id.
  - rewrite !segs_cons !segs_one right_id. by rewrite !assoc.
  - rewrite !segs_cons IH. by rewrite !assoc.
Qed.

Lemma snoc_case {A} (x : A) l : exists l' y, x :: l = l' ++ [y] /\ (l = [] -> y = x).
Proof.
  destruct (exists_last (l := x :: l)) as (l' & y & E); [done|]. exists l', y. split; [done|].
  intros ->. destruct l' as [|? [|]]; cbn in E; congruence.
Qed.

Lemma cons_case {A} (x : A) l : exists y l', l ++ [x] = y :: l' /\ (l = [] -> y = x).
Proof. destruct l as [|y l]; [by exists x, []|by exists y, (l ++ [x])]. Qed.

(** Taking a block out of the list, and putting one in. *)
Lemma chain_out s fs x fs' e :
  chain s (fs ++ x :: fs') e -∗ ∃ p n,
  ⌜fs = [] -> p = s⌝ ∗ word (p + 24) x ∗ word (x + 16) p ∗ word (x + 24) n ∗ word (n + 16) x ∗
  (word (p + 24) n -∗ word (n + 16) p -∗ chain s (fs ++ fs') e).
Proof.
  destruct (snoc_case s fs) as (l & p & Hl & Hp). destruct (cons_case e fs') as (n & l' & Hl' & _).
  assert (E1 : s :: (fs ++ x :: fs') ++ [e] = l ++ p :: x :: n :: l').
  { rewrite -app_assoc -app_comm_cons Hl' (app_comm_cons fs _ s) Hl -app_assoc //. }
  assert (E2 : s :: (fs ++ fs') ++ [e] = l ++ p :: n :: l').
  { rewrite -app_assoc Hl' (app_comm_cons fs _ s) Hl -app_assoc //. }
  unfold chain. rewrite E1 E2. iIntros "(Hs & H & He)".
  iDestruct (segs_app l p (x :: n :: l') with "H") as "[H1 H]".
  iEval (rewrite !segs_cons) in "H". iDestruct "H" as "(Hpx & Hxp & Hxn & Hnx & H)".
  iExists p, n. iSplit; [done|]. iFrame "Hpx Hxp Hxn Hnx".
  iIntros "Hpn Hnp". iFrame "Hs He". iApply (segs_app l p (n :: l')). iFrame "H1". iApply segs_cons. iFrame.
Qed.

Lemma chain_in s fs fs' e :
  chain s (fs ++ fs') e -∗ ∃ p n,
  ⌜(fs = [] -> p = s) /\ (fs' = [] -> n = e)⌝ ∗ word (p + 24) n ∗ word (n + 16) p ∗
  (∀ x, word (p + 24) x -∗ word (x + 16) p -∗ word (x + 24) n -∗ word (n + 16) x -∗ chain s (fs ++ x :: fs') e).
Proof.
  destruct (snoc_case s fs) as (l & p & Hl & Hp). destruct (cons_case e fs') as (n & l' & Hl' & Hn).
  assert (E1 : forall x, s :: (fs ++ x :: fs') ++ [e] = l ++ p :: x :: n :: l').
  { intros x. rewrite -app_assoc -app_comm_cons Hl' (app_comm_cons fs _ s) Hl -app_assoc //. }
  assert (E2 : s :: (fs ++ fs') ++ [e] = l ++ p :: n :: l').
  { rewrite -app_assoc Hl' (app_comm_cons fs _ s) Hl -app_assoc //. }
  unfold chain. rewrite E2. iIntros "(Hs & H & He)".
  iDestruct (segs_app l p (n :: l') with "H") as "[H1 H]".
  iEval (rewrite segs_cons) in "H". iDestruct "H" as "(Hpn & Hnp & H)".
  iExists p, n. iFrame "Hpn Hnp". iSplit; [done|].
  iIntros (x) "H2 H3 H4 H5". rewrite E1. iFrame "Hs He". iApply (segs_app l p (x :: n :: l')). iFrame "H1".
  iApply segs_cons. iFrame "H2 H3". iApply segs_cons. iFrame.
Qed.

(** ** The steps of freeing and cutting *)

Section Steps.
Context {B : Type} (Q : B -> heapProp).

Lemma wp_next_pointer p n (k : Z -> M B) :
  word (p + 8) n -∗ (word (p + 8) n -∗ wp (k (p + n)) Q) -∗ wp (__next_pointer p ≫= k) Q.
Proof.
  iIntros "H Hk". iApply wp_bind. iApply (wp_load with "H"). iIntros "H". iApply wp_ret. by iApply "Hk".
Qed.

Lemma wp_prev_pointer p f (k : Z -> M B) :
  word p f -∗ (word p f -∗ wp (k (p - f)) Q) -∗ wp (__prev_pointer p ≫= k) Q.
Proof.
  iIntros "H Hk". iApply wp_bind. iApply (wp_load with "H"). iIntros "H". iApply wp_ret. by iApply "Hk".
Qed.

Lemma wp_mergeable p f (k : bool -> M B) :
  word p f -∗ (word p f -∗ wp (k (bool_decide (Z.land f 1 = 0))) Q) -∗ wp (__mergeable p ≫= k) Q.
Proof.
  iIntros "H Hk". iApply wp_bind. iApply (wp_load with "H"). iIntros "H". iApply wp_ret. by iApply "Hk".
Qed.

Lemma space_words x : space x 16 -∗ ∃ v w, word x v ∗ word (x + 8) w.
Proof.
  iIntros "H". iDestruct (space_split x 8 8 with "H") as "[H1 H2]"; [lia..|].
  iDestruct (space_word with "H1") as (v) "H1". iDestruct (space_word with "H2") as (w) "H2".
  iExists v, w. iFrame.
Qed.

Lemma words_space x v w : word x v -∗ word (x + 8) w -∗ space x 16.
Proof.
  iIntros "H1 H2". iApply (space_join x 8 8 with "[H1] [H2]"); by iApply word_space.
Qed.

Lemma links_space x v w : word (x + 16) v -∗ word (x + 24) w -∗ space (x + 16) 16.
Proof. iIntros "H1 H2". iApply (words_space with "H1"). by replace (x + 16 + 8) with (x + 24) by lia. Qed.

Lemma space_links x : space (x + 16) 16 -∗ ∃ v w, word (x + 16) v ∗ word (x + 24) w.
Proof.
  iIntros "H". iDestruct (space_words with "H") as (v w) "[H1 H2]".
  iExists v, w. iFrame. by replace (x + 16 + 8) with (x + 24) by lia.
Qed.

End Steps.

Section Links.
Context (Q : unit -> heapProp).

Lemma wp_unlink s fs x fs' e :
  chain s (fs ++ x :: fs') e -∗
  (chain s (fs ++ fs') e -∗ space (x + 16) 16 -∗ Q tt) -∗ wp (unlink x) Q.
Proof.
  iIntros "Hc Hk". iDestruct (chain_out with "Hc") as (p n) "(_ & Hpx & Hxp & Hxn & Hnx & Hc)".
  iDestruct (word_bound with "Hxp") as %Hp. iDestruct (word_bound with "Hxn") as %Hn.
  iApply (wp_load with "Hxn"). iIntros "Hxn". iApply (wp_load with "Hxp"). iIntros "Hxp".
  iApply (wp_store with "Hnx"); [done|]. iIntros "Hnp".
  iApply (wp_load with "Hxp"). iIntros "Hxp". iApply (wp_load with "Hxn"). iIntros "Hxn".
  iApply (wp_store' with "Hpx"); [done|]. iIntros "Hpn".
  iApply ("Hk" with "[Hc Hpn Hnp] [Hxp Hxn]"); [iApply ("Hc" with "Hpn Hnp")|iApply (links_space with "Hxp Hxn")].
Qed.

Lemma wp_link_neighbours p n x vn vp :
  0 <= x < 2 ^ 64 ->
  word (x + 24) n -∗ word (x + 16) p -∗ word (n + 16) vn -∗ word (p + 24) vp -∗
  (word (x + 24) n -∗ word (x + 16) p -∗ word (n + 16) x -∗ word (p + 24) x -∗ Q tt) -∗
  wp (link_neighbours x) Q.
Proof.
  iIntros (Hx) "Hxn Hxp Hn Hp Hk".
  iApply (wp_load with "Hxn"). iIntros "Hxn". iApply (wp_store with "Hn"); [done|]. iIntros "Hn".
  iApply (wp_load with "Hxp"). iIntros "Hxp". iApply (wp_store' with "Hp"); [done|]. iIntros "Hp".
  iApply ("Hk" with "Hxn Hxp Hn Hp").
Qed.

Lemma wp_put_first pg x fs :
  0 <= x < 2 ^ 64 -> 0 <= p_head pg < 2 ^ 64 ->
  chain (p_head pg) fs (p_end pg) -∗ space (x + 16) 16 -∗
  (chain (p_head pg) (x :: fs) (p_end pg) -∗ Q tt) -∗ wp (put_first x pg) Q.
Proof.
  iIntros (Hx Hh) "Hc Hs Hk". iDestruct (chain_in _ [] with "Hc") as (p n) "([%Hp _] & Hpn & Hnp & Hc)".
  specialize (Hp eq_refl) as ->. iDestruct (space_links with "Hs") as (v w) "[Hxp Hxn]".
  iDestruct (word_bound with "Hpn") as %Hn.
  iApply (wp_load with "Hpn"). iIntros "Hpn". iApply (wp_store with "Hxn"); [done|]. iIntros "Hxn".
  iApply (wp_store with "Hxp"); [done|]. iIntros "Hxp".
  iApply (wp_link_neighbours with "Hxn Hxp Hnp Hpn"); [done|]. iIntros "Hxn Hxp Hnx Hpx".
  iApply "Hk". iApply ("Hc" with "Hpx Hxp Hxn Hnx").
Qed.

Lemma wp_put_last pg x fs :
  0 <= x < 2 ^ 64 -> 0 <= p_end pg < 2 ^ 64 ->
  chain (p_head pg) fs (p_end pg) -∗ space (x + 16) 16 -∗
  (chain (p_head pg) (fs ++ [x]) (p_end pg) -∗ Q tt) -∗ wp (put_last x pg) Q.
Proof.
  iIntros (Hx Hh) "Hc Hs Hk". iDestruct (chain_in _ fs [] with "[Hc]") as (p n) "([_ %Hn] & Hpn & Hnp & Hc)".
  { by rewrite app_nil_r. }
  specialize (Hn eq_refl) as ->. iDestruct (space_links with "Hs") as (v w) "[Hxp Hxn]".
  iDestruct (word_bound with "Hnp") as %Hp.
  iApply (wp_store with "Hxn"); [done|]. iIntros "Hxn".
  iApply (wp_load with "Hnp"). iIntros "Hnp". iApply (wp_store with "Hxp"); [done|]. iIntros "Hxp".
  iApply (wp_link_neighbours with "Hxn Hxp Hnp Hpn"); [done|]. iIntros "Hxn Hxp Hnx Hpx".
  iApply "Hk". iApply ("Hc" with "Hpx Hxp Hxn Hnx").
Qed.
End Links.

(** A block that belongs to nobody: not in the list, and in nobody's use. *)
Definition hole (x n f : Z) : heapProp := (word x f ∗ word (x + 8) n ∗ space (x + 16) (n - 16))%I.

Lemma space_links_join x n : 32 <= n -> space (x + 16) 16 -∗ space (x + 32) (n - 32) -∗ space (x + 16) (n - 16).
Proof.
  iIntros (Hn) "Hl H". replace (n - 16) with (16 + (n - 32)) by lia. iApply (space_join with "Hl").
  by replace (x + 16 + 16) with (x + 32) by lia.
Qed.

Lemma hole_join x0 n0 f0 x n f m :
  16 <= n0 -> x = x0 + n0 ->
  word x0 f0 -∗ word (x0 + 8) (n0 + n) -∗ space (x0 + 16) (n0 - 16) -∗
  word x f -∗ word (x + 8) m -∗ space (x + 16) (n - 16) -∗ hole x0 (n0 + n) f0.
Proof.
  iIntros (Hn0 ->) "$ $ H0 Hf Hm H".
  replace (n0 + n - 16) with ((n0 - 16) + (16 + (n - 16))) by lia.
  iApply (space_join with "H0"). replace (x0 + 16 + (n0 - 16)) with (x0 + n0) by lia.
  iApply (space_join with "[Hf Hm] H"). iApply (words_space with "Hf Hm").
Qed.

(** What lies before a block that is freed, and behind it, once free neighbours
    are joined. *)
Definition edge_left (pre : list block) : Prop := exists pre0 k n, pre = pre0 ++ [(k, n)] /\ (k = Head \/ k = Used).
Definition edge_right (post : list block) : Prop := exists k n post0, post = (k, n) :: post0 /\ (k = Used \/ k = End).
Definition none_or_free (l : list block) : Prop := l = [] \/ exists n, l = [(Free, n)].

Lemma wp_absorb_left {B} x0 n0 x n (k : Z -> M B) Q :
  x = x0 + n0 -> 0 <= n0 + n < 2 ^ 64 ->
  word (x0 + 8) n0 -∗ word x n0 -∗ word (x + 8) n -∗
  (word (x0 + 8) (n0 + n) -∗ word x n0 -∗ word (x + 8) n -∗ wp (k x0) Q) -∗ wp (absorb_left x ≫= k) Q.
Proof.
  iIntros (Hx Hb) "H0 Hf Hn Hk". assert (Hp : x - n0 = x0) by lia. iApply wp_bind.
  iApply (wp_prev_pointer with "Hf"). iIntros "Hf". rewrite Hp.
  iApply (wp_load with "H0"). iIntros "H0". iApply (wp_load with "Hn"). iIntros "Hn".
  rewrite u64_small //. iApply (wp_store with "H0"); [done|]. iIntros "H0".
  iApply (wp_load with "Hf"). iIntros "Hf". iApply wp_ret. rewrite Hp. iApply ("Hk" with "H0 Hf Hn").
Qed.

Lemma wp_mark_free x n f Q :
  word (x + 8) n -∗ word (x + n) f -∗ (word (x + 8) n -∗ word (x + n) n -∗ Q tt) -∗ wp (mark_free x) Q.
Proof.
  iIntros "Hn Hf Hk". iDestruct (word_bound with "Hn") as %Hb.
  iApply (wp_next_pointer with "Hn"). iIntros "Hn". iApply (wp_load with "Hn"). iIntros "Hn".
  iApply (wp_store' with "Hf"); [done|]. iIntros "Hf". iApply ("Hk" with "Hn Hf").
Qed.

Lemma flag_free n : n mod 8 = 0 -> bool_decide (Z.land n 1 = 0) = true.
Proof.
  intros H. apply bool_decide_true. change 1 with (Z.ones 1). rewrite Z.land_ones //.
  change (2 ^ 1) with 2. rewrite (Z.div_mod n 8) // H Z.add_0_r. change 8 with (2 * 4).
  by rewrite -Z.mul_assoc Z.mul_comm Z_mod_mult.
Qed.

Section Merging.
Context (tag : Z) (Htag : Z.land tag 1 = 1).

Lemma flag_used : bool_decide (Z.land tag 1 = 0) = false.
Proof using Htag. rewrite Htag //. Qed.

(** What [merge_left] leaves of the blocks before and of the list. *)
Definition left_merged (s : Z) (pre : list block) (fs : list Z) (pre' l : list block) (gs : list Z) : Prop :=
  pre = pre' ++ l /\ none_or_free l /\ edge_left pre' /\ addrs Free (s + total pre') l ++ gs ≡ₚ fs.

Lemma wp_merge_left {B} mark s pre ptr n g h fs e (k : Z -> M B) Q :
  (edge_left pre \/ exists pre0 n0, pre = pre0 ++ [(Free, n0)] /\ edge_left pre0 /\ ptr - n0 ∈ fs) ->
  Forall block_ok pre -> ptr = s + total pre -> 0 <= s -> 0 <= n -> ptr + n < 2 ^ 64 ->
  tiles tag s None pre -∗ hole ptr n (default tag (last_flag None pre)) -∗ word (ptr + n) g -∗ chain h fs e -∗
  (∀ pre' l gs g', ⌜left_merged s pre fs pre' l gs⌝ -∗ tiles tag s None pre' -∗
     hole (s + total pre') (total l + n) (default tag (last_flag None pre')) -∗
     word (ptr + n) g' -∗ chain h gs e -∗ wp (k (s + total pre')) Q) -∗
  wp (merge_left mark ptr ≫= k) Q.
Proof using Htag.
  iIntros ([(pre0 & k0 & n0 & -> & Hk0)|(pre0 & n0 & -> & Hedge & Hin)] Hok Hptr Hs Hn Hb) "Hpre (Hf & Hsz & Hbody) Hg Hc Hk";
    iApply wp_bind; rewrite last_flag_snoc.
  - subst ptr. replace (default tag (next_flag k0 n0)) with tag by by destruct Hk0 as [-> | ->].
    iApply (wp_mergeable with "Hf"). iIntros "Hf". rewrite flag_used. iApply wp_ret.
    iApply ("Hk" $! _ [] fs g with "[] Hpre [Hf Hsz Hbody] Hg Hc").
    + iPureIntro. split_and!; [by rewrite app_nil_r|by left|by exists pre0, k0, n0|done].
    + rewrite last_flag_snoc. replace (default tag (next_flag k0 n0)) with tag by by destruct Hk0 as [-> | ->].
      iFrame.
  - apply Forall_app in Hok as [Hok [[Hn0 Hm0] _]%Forall_cons]. cbn [snd] in Hn0, Hm0.
    apply blocks_total_nonneg in Hok. rewrite blocks_total_app in Hptr. cbn [total] in Hptr.
    assert (Hx : ptr = (s + total pre0) + n0) by lia.
    apply list_elem_of_split in Hin as (f1 & f2 & ->). replace (ptr - n0) with (s + total pre0) by lia.
    rewrite tiles_app. cbn [tiles body]. iDestruct "Hpre" as "(Hpre & Hf0 & Hs0 & Hb0 & _)".
    iApply (wp_mergeable with "Hf"). iIntros "Hf". rewrite flag_free //.
    iApply (wp_absorb_left with "Hs0 Hf Hsz"); [done|lia|]. iIntros "Hs0 Hf Hsz".
    iApply wp_bind. set (x0 := s + total pre0) in *.
    iApply (wp_wand _ (fun _ => word (x0 + 8) (n0 + n) ∗ ∃ g', word (ptr + n) g')%I with "[Hs0 Hg]").
    { destruct mark; [|iApply wp_ret; iFrame].
      replace (ptr + n) with (x0 + (n0 + n)) by lia. iApply (wp_mark_free with "Hs0 Hg"). iIntros "$ Hg". by iExists _. }
    iIntros (_) "[Hs0 (%g' & Hg)]". iApply wp_bind. iApply (wp_unlink with "Hc"). iIntros "Hc Hl". iApply wp_ret.
    iApply ("Hk" $! pre0 [(Free, n0)] (f1 ++ f2) g' with "[] Hpre [-Hg Hc] Hg Hc").
    + iPureIntro. split_and!; [done|right; by exists n0|done|]. change (x0 :: f1 ++ f2 ≡ₚ f1 ++ x0 :: f2). by rewrite Permutation_middle.
    + cbn [total]. rewrite Z.add_0_r. iApply (hole_join with "Hf0 Hs0 [Hl Hb0] Hf Hsz Hbody"); [lia|done|].
      iApply (space_links_join with "Hl Hb0"). lia.
Qed.

(** What [merge_right] leaves of the blocks behind. *)
Definition right_merged (x : Z) (post : list block) (fs : list Z) (r post' : list block) (gs : list Z) : Prop :=
  post = r ++ post' /\ none_or_free r /\ edge_right post' /\ addrs Free x r ++ gs ≡ₚ fs.

Lemma wp_merge_right x n f pf b1 b2 post s fs e Q :
  b1.1 = Used \/ b1.1 = Free /\ (b2.1 = Used \/ b2.1 = End) /\ x + n ∈ fs ->
  block_ok b1 -> 16 <= n -> n + b1.2 < 2 ^ 64 ->
  hole x n f -∗ tiles tag (x + n) pf (b1 :: b2 :: post) -∗ chain s fs e -∗
  (∀ r post' gs pf', ⌜right_merged (x + n) (b1 :: b2 :: post) fs r post' gs⌝ -∗
     hole x (n + total r) f -∗ tiles tag (x + (n + total r)) pf' post' -∗ chain s gs e -∗ Q tt) -∗
  wp (merge_right x) Q.
Proof using Htag.
  destruct b1 as [k1 n1], b2 as [k2 n2]. unfold block_ok. cbn [fst snd].
  iIntros (Hk1 [Hn1 Hm1] Hn Hb) "(Hf & Hs & Hbody) Hpost Hc Hk". cbn [tiles].
  iDestruct "Hpost" as "(Hf1 & Hs1 & Hb1 & Hf2 & Hpost)".
  iApply (wp_next_pointer with "Hs"). iIntros "Hs".
  iApply (wp_next_pointer with "Hs1"). iIntros "Hs1".
  iApply (wp_mergeable with "Hf2"). iIntros "Hf2".
  destruct Hk1 as [-> | (-> & Hk2 & Hin)]; cbn [next_flag is_free default].
  - rewrite flag_used. iApply wp_ret.
    iApply ("Hk" $! [] _ fs pf with "[] [Hf Hs Hbody] [-Hc] Hc").
    + iPureIntro. split_and!; [done|by left|by exists Used, n1, ((k2, n2) :: post); auto|done].
    + cbn [total]. rewrite Z.add_0_r. iFrame.
    + cbn [total tiles next_flag is_free default]. rewrite Z.add_0_r. iFrame.
  - rewrite flag_free //. apply list_elem_of_split in Hin as (f1 & f2 & ->). set (y := x + n) in *.
    iDestruct (chain_out with "Hc") as (p q) "(_ & Hpy & Hyp & Hyq & Hqy & Hc)".
    iDestruct (word_bound with "Hyp") as %Hp. iDestruct (word_bound with "Hyq") as %Hq.
    iApply (wp_next_pointer with "Hs"). iIntros "Hs".
    iApply (wp_load with "Hyp"). iIntros "Hyp". iApply (wp_load with "Hyq"). iIntros "Hyq".
    iApply (wp_store with "Hpy"); [done|]. iIntros "Hpq".
    iApply (wp_next_pointer with "Hs"). iIntros "Hs".
    iApply (wp_load with "Hyq"). iIntros "Hyq". iApply (wp_load with "Hyp"). iIntros "Hyp".
    iApply (wp_store with "Hqy"); [done|]. iIntros "Hqp".
    iApply (wp_next_pointer with "Hs"). iIntros "Hs".
    iApply (wp_load with "Hs"). iIntros "Hs". iApply (wp_load with "Hs1"). iIntros "Hs1".
    rewrite u64_small; [|lia]. iApply (wp_store' with "Hs"); [lia|]. iIntros "Hs".
    iApply ("Hk" $! [(Free, n1)] ((k2, n2) :: post) (f1 ++ f2) (Some n1) with "[] [Hf Hs Hbody Hf1 Hs1 Hb1 Hyp Hyq] [Hf2 Hpost] [Hc Hpq Hqp]").
    + iPureIntro. split_and!; [done|right; by exists n1|by exists k2, n2, post|].
      change (y :: f1 ++ f2 ≡ₚ f1 ++ y :: f2). by rewrite Permutation_middle.
    + cbn [total]. rewrite Z.add_0_r. iApply (hole_join with "Hf Hs Hbody Hf1 Hs1 [Hb1 Hyp Hyq]"); [lia|done|].
      iApply (space_links_join with "[Hyp Hyq] Hb1"); [lia|]. iApply (links_space with "Hyp Hyq").
    + cbn [total tiles]. rewrite Z.add_0_r. replace (x + (n + n1)) with (y + n1) by lia. iFrame.
    + iApply ("Hc" with "Hpq Hqp").
Qed.
End Merging.

(** ** The invariant of a page *)

(** [us] are the blocks in use with their sizes, [bs] all blocks, [fs] the list. *)
Record page_ok (pg : xmalloc_page) (us : gmap Z Z) (bs : list block) (fs : list Z) : Prop := {
  ok_shape : shape bs = true;
  ok_first : head bs = Some (Head, 32);
  ok_last : last bs = Some (End, 32);
  ok_blocks : Forall block_ok bs;
  ok_total : total bs = p_size pg;
  ok_main : addrs Main (p_start_address pg) bs = [p_ptr pg];
  ok_free : fs ≡ₚ addrs Free (p_start_address pg) bs;
  ok_used : forall x n, us !! x = Some n <-> (x, n) ∈ used (p_start_address pg) bs;
  ok_head : p_head pg = p_start_address pg;
  ok_end : p_end pg = p_start_address pg + p_size pg - 32;
  ok_bounds : 0 < p_start_address pg /\ p_start_address pg + p_size pg < 2 ^ 64;
  ok_aligned : p_start_address pg mod 8 = 0;
}.

Definition page_inv (tag : Z) (pg : xmalloc_page) (us : gmap Z Z) : heapProp :=
  (∃ bs fs, ⌜page_ok pg us bs fs⌝ ∗ tiles tag (p_start_address pg) None bs ∗ chain (p_head pg) fs (p_end pg))%I.

Lemma shape_snoc_cons bs b b' bs' :
  shape (bs ++ b :: b' :: bs') = shape (bs ++ [b]) && (follows b.1 b'.1 && shape (b' :: bs')).
Proof. by rewrite shape_app. Qed.

Lemma follows_no_end k n post : last ((k, n) :: post) = Some (End, 32) -> k ≠ End -> exists b post', post = b :: post'.
Proof. destruct post as [|b post]; [intros [= -> ->]; done|eauto]. Qed.

(** The blocks around one in use. *)
Lemma used_neighbours pg us bs fs ptr n :
  page_ok pg us bs fs -> us !! ptr = Some n ->
  exists pre k0 n0 k1 n1 b2 post,
  bs = (pre ++ [(k0, n0)]) ++ (Used, n) :: (k1, n1) :: b2 :: post /\
  ptr = p_start_address pg + total (pre ++ [(k0, n0)]) /\
  (k0 = Head \/ k0 = Used \/ is_free k0 = true /\ edge_left pre) /\
  (k1 = Used \/ is_free k1 = true /\ (b2.1 = Used \/ b2.1 = End)).
Proof.
  intros Hok Hp. apply (ok_used _ _ _ _ Hok), elem_of_used in Hp as (pre & post & Hbs & Hptr).
  pose proof (ok_shape _ _ _ _ Hok) as Hs. pose proof (ok_first _ _ _ _ Hok) as Hf.
  pose proof (ok_last _ _ _ _ Hok) as Hl. rewrite Hbs in Hs, Hf, Hl. clear Hok.
  destruct pre as [|b0 pre _] using rev_ind; [done|]. destruct b0 as [k0 n0].
  rewrite last_app in Hl. destruct post as [|[k1 n1] post]; [done|].
  rewrite -app_assoc in Hs. cbn [app] in Hs. rewrite shape_snoc_cons in Hs.
  apply andb_true_iff in Hs as [Hs0 [Hk0 Hs1]%andb_true_iff]. cbn [shape fst] in Hs1, Hk0.
  apply andb_true_iff in Hs1 as [Hk1 Hs1].
  destruct post as [|b2 post].
  { cbn in Hl. injection Hl as -> ->. done. }
  exists pre, k0, n0, k1, n1, b2, post. split_and!; [done|done| |].
  - destruct k0; try done; [by left|by right; left| |]; right; right; (split; [done|]);
    (destruct pre as [|[k n'] pre _] using rev_ind; [done|]; exists pre, k, n'; split; [done|]);
    rewrite -app_assoc in Hs0; cbn [app] in Hs0; rewrite shape_snoc_cons in Hs0;
    apply andb_true_iff in Hs0 as [_ [Hk _]%andb_true_iff]; cbn [fst] in Hk;
    (destruct k; try done; auto).
  - cbn [shape] in Hs1. apply andb_true_iff in Hs1 as [Hk2 _]. cbn [fst] in Hk2.
    destruct k1; try done; auto; right; (split; [done|]); destruct b2 as [[] ?]; try done; auto.
Qed.

Lemma shape_join pre mid post k m :
  shape (pre ++ mid ++ post) = true -> edge_left pre -> edge_right post -> is_free k = true ->
  shape (pre ++ (k, m) :: post) = true.
Proof.
  intros Hs (pre0 & k0 & n0 & -> & Hk0) (k1 & n1 & post0 & -> & Hk1) Hk.
  rewrite app_assoc shape_app in Hs. apply andb_true_iff in Hs as [Hs1 Hs2].
  rewrite -!app_assoc in Hs1. cbn [app] in Hs1. rewrite shape_app in Hs1. apply andb_true_iff in Hs1 as [Hs1 _].
  rewrite -app_assoc. cbn [app]. rewrite shape_snoc_cons Hs1. cbn [shape fst]. apply andb_true_iff.
  split; [done|]. apply andb_true_iff. split; [|apply andb_true_iff; split; [|done]].
  - destruct k; try done; by destruct Hk0 as [-> | ->].
  - destruct k; try done; by destruct Hk1 as [-> | ->].
Qed.

Lemma total_ok k bs : Forall block_ok bs -> bs <> [] -> block_ok (k, total bs).
Proof.
  intros H Hne. split; cbn [snd].
  - destruct H as [|[k' n] bs [Hn _] H]; [done|]. apply blocks_total_nonneg in H. cbn [total snd] in *. lia.
  - clear Hne. induction H as [|[k' n] bs [_ Hn] H IH]; [done|]. cbn [total snd] in *.
    rewrite Z.add_mod // Hn IH //.
Qed.

Lemma used_delete pg us pre mid post fs ptr n k :
  page_ok pg us (pre ++ mid ++ post) fs -> is_free k = true ->
  used (p_start_address pg + total pre) mid = [(ptr, n)] ->
  forall x m, delete ptr us !! x = Some m <-> (x, m) ∈ used (p_start_address pg) (pre ++ (k, total mid) :: post).
Proof.
  intros Hok Hk Hmid x m. pose proof (ok_blocks _ _ _ _ Hok) as Hb. apply Forall_app in Hb as [Hb1 [Hb2 Hb3]%Forall_app].
  set (s := p_start_address pg) in *.
  assert (Hin : s + total pre <= ptr /\ 32 <= n /\ ptr + n <= s + total pre + total mid).
  { apply (used_bounds _ mid); [done|]. rewrite Hmid. by left. }
  pose proof (used_bounds s pre) as H1. pose proof (used_bounds (s + total pre + total mid) post) as H3.
  assert (Hu : used s (pre ++ (k, total mid) :: post) = used s pre ++ used (s + total pre + total mid) post).
  { rewrite used_app. cbn [used]. rewrite decide_False //. by destruct k. }
  rewrite Hu lookup_delete_Some (ok_used _ _ _ _ Hok) -/s !used_app Hmid !elem_of_app list_elem_of_singleton.
  split.
  - intros [Hne [H|[[= -> ->]|H]]]; auto. done.
  - intros [H|H]; (split; [intros <-|by auto]).
    + apply H1 in H; [lia|done].
    + apply H3 in H; [lia|done].
Qed.

Lemma page_ok_join pg us pre mid post fs k gs fs' ptr n p' :
  page_ok pg us (pre ++ mid ++ post) fs -> edge_left pre -> edge_right post ->
  used (p_start_address pg + total pre) mid = [(ptr, n)] ->
  fs ≡ₚ addrs Free (p_start_address pg + total pre) mid ++ gs ->
  (k = Free /\ addrs Main (p_start_address pg + total pre) mid = [] /\ p' = p_ptr pg /\
     fs' ≡ₚ (p_start_address pg + total pre) :: gs) \/
  (k = Main /\ addrs Main (p_start_address pg + total pre) mid = [p_ptr pg] /\ p' = p_start_address pg + total pre /\
     fs' ≡ₚ gs) ->
  page_ok (pg <| p_ptr := p' |>) (delete ptr us) (pre ++ (k, total mid) :: post) fs'.
Proof.
  intros Hok Hl Hr Hu Hfs Hk.
  assert (Hfree : is_free k = true) by by destruct Hk as [[-> _]|[-> _]].
  pose proof (used_delete _ _ _ _ _ _ _ _ k Hok Hfree Hu) as Hused.
  pose proof (shape_join _ _ _ k (total mid) (ok_shape _ _ _ _ Hok) Hl Hr Hfree) as Hshape.
  assert (Hne : mid <> []) by by intros ->.
  destruct Hok as [_ Hf Hla Hb Ht Hm Hfr _ Hhd Hen Hbd Hal].
  destruct Hl as (pre0 & k0 & n0 & Hpre & _). destruct Hr as (k1 & n1 & post0 & Hpost & _).
  rewrite !addrs_app in Hm Hfr. rewrite !blocks_total_app in Ht. apply Forall_app in Hb as [Hb1 [Hb2 Hb3]%Forall_app].
  set (s := p_start_address pg) in *.
  split; try done; cbn [p_start_address p_size p_head p_end].
  - rewrite Hpre in Hf |- *. by destruct pre0.
  - rewrite Hpost app_assoc last_app_cons in Hla. by rewrite Hpost last_app_cons.
  - apply Forall_app. split; [done|]. apply Forall_cons. split; [by apply total_ok|done].
  - rewrite blocks_total_app. cbn [total]. fold s. rewrite -Ht. lia.
  - change (addrs Main s (pre ++ (k, total mid) :: post) = [p']). rewrite addrs_app. cbn [addrs].
    destruct Hk as [(-> & Hmm & -> & _)|(-> & Hmm & -> & _)]; rewrite Hmm in Hm.
    + by case_decide.
    + case_decide; [|done]. cbn [app] in Hm.
      revert Hm. generalize (addrs Main s pre) (addrs Main (s + total pre + total mid) post).
      by intros [|x [|]] [|].
  - change (fs' ≡ₚ addrs Free s (pre ++ (k, total mid) :: post)). rewrite addrs_app. cbn [addrs].
    assert (Hgs : gs ≡ₚ addrs Free s pre ++ addrs Free (s + total pre + total mid) post).
    { apply (Permutation_app_inv_l (addrs Free (s + total pre) mid)). rewrite -Hfs Hfr. solve_Permutation. }
    destruct Hk as [(-> & _ & _ & ->)|(-> & _ & _ & ->)]; rewrite Hgs; (case_decide; [|done]) || (case_decide; [done|]).
    + solve_Permutation.
    + done.
Qed.

(** ** Freeing a block *)

Lemma addrs_at k a pre n post : a + total pre ∈ addrs k a (pre ++ (k, n) :: post).
Proof. rewrite addrs_app. cbn [addrs]. case_decide; [|done]. apply elem_of_app. right. by left. Qed.

Lemma in_list pg us pre n post fs :
  page_ok pg us (pre ++ (Free, n) :: post) fs -> p_start_address pg + total pre ∈ fs.
Proof. intros H. rewrite (ok_free _ _ _ _ H). apply addrs_at. Qed.

Lemma main_at pg us pre n post fs :
  page_ok pg us (pre ++ (Main, n) :: post) fs -> p_ptr pg = p_start_address pg + total pre.
Proof.
  intros H. pose proof (addrs_at Main (p_start_address pg) pre n post) as Hin.
  rewrite (ok_main _ _ _ _ H) in Hin. by apply list_elem_of_singleton in Hin.
Qed.

Lemma page_room pg us pre b post fs :
  page_ok pg us (pre ++ b :: post) fs ->
  0 < p_start_address pg /\ 0 <= total pre /\ 32 <= b.2 /\ 0 <= total post /\
  p_start_address pg + total pre + b.2 + total post < 2 ^ 64.
Proof.
  intros H. destruct (ok_bounds _ _ _ _ H) as [H1 H2]. pose proof (ok_blocks _ _ _ _ H) as H3.
  apply Forall_app in H3 as [H3 [[H4 _] H5]%Forall_cons]. apply blocks_total_nonneg in H3, H5.
  rewrite -(ok_total _ _ _ _ H) blocks_total_app in H2. destruct b as [k n]. cbn [total snd] in *. lia.
Qed.

Lemma none_or_free_other l : none_or_free l -> forall a, used a l = [] /\ addrs Main a l = [].
Proof. by intros [-> | [n ->]] a. Qed.

(** The first block of the list, or its end. *)
Lemma chain_first s fs e :
  chain s fs e -∗ word (s + 24) (default e (head fs)) ∗ (word (s + 24) (default e (head fs)) -∗ chain s fs e).
Proof.
  unfold chain. destruct fs as [|f fs]; cbn [app head default from_option]; iIntros "($ & H & $)";
    iEval (rewrite segs_cons) in "H"; iDestruct "H" as "($ & H1 & H2)"; iIntros "H"; iApply segs_cons; iFrame.
Qed.

Lemma listed_block pg us bs fs f :
  page_ok pg us bs fs -> f ∈ fs \/ f = p_end pg ->
  exists pre k n post, bs = pre ++ (k, n) :: post /\ f = p_start_address pg + total pre.
Proof.
  intros Hok [Hf| ->].
  - rewrite (ok_free _ _ _ _ Hok) in Hf. apply elem_of_addrs in Hf as (pre & n & post & -> & ->). eauto 10.
  - pose proof (ok_last _ _ _ _ Hok) as Hl. apply last_Some in Hl as (pre & ->). exists pre, End, 32, []. split; [done|].
    rewrite (ok_end _ _ _ _ Hok) -(ok_total _ _ _ _ Hok) blocks_total_app. cbn [total]. lia.
Qed.

Lemma page_bounds pg us bs fs :
  page_ok pg us bs fs -> 0 <= p_head pg < 2 ^ 64 /\ 0 <= p_end pg < 2 ^ 64.
Proof.
  intros Hok. destruct (ok_bounds _ _ _ _ Hok) as [H1 H2]. rewrite (ok_head _ _ _ _ Hok) (ok_end _ _ _ _ Hok).
  pose proof (ok_last _ _ _ _ Hok) as Hl. apply last_Some in Hl as (pre & ->).
  destruct (page_room _ _ _ _ _ _ Hok) as (_ & H3 & _). rewrite -(ok_total _ _ _ _ Hok) blocks_total_app in H2 |- *.
  cbn [total] in *. lia.
Qed.

Section Freeing.
Context (tag : Z) (Htag : Z.land tag 1 = 1).
Context (pg : xmalloc_page) (us : gmap Z Z) (Q : xmalloc_page -> heapProp).

(** What the caller of the three cases knows when one of them ends. *)
Definition freed (ptr : Z) : heapProp :=
  (∀ bs fs p', ⌜page_ok (pg <| p_ptr := p' |>) (delete ptr us) bs fs⌝ -∗
     tiles tag (p_start_address pg) None bs -∗ chain (p_head pg) fs (p_end pg) -∗ Q (pg <| p_ptr := p' |>))%I.

Definition left_side (pre : list block) : Prop :=
  edge_left pre \/ exists pre0 n0, pre = pre0 ++ [(Free, n0)] /\ edge_left pre0.

Lemma left_side_in pre b post fs ptr :
  page_ok pg us (pre ++ b :: post) fs -> left_side pre -> ptr = p_start_address pg + total pre ->
  edge_left pre \/ exists pre0 n0, pre = pre0 ++ [(Free, n0)] /\ edge_left pre0 /\ ptr - n0 ∈ fs.
Proof.
  intros Hok [H|(pre0 & n0 & -> & H)] ->; [by left|right]. exists pre0, n0. split_and!; try done.
  rewrite -app_assoc in Hok. apply in_list in Hok. rewrite blocks_total_app. cbn [total].
  by replace (p_start_address pg + (total pre0 + (n0 + 0)) - n0) with (p_start_address pg + total pre0) by lia.
Qed.

Lemma wp_free_before pre n n1 b2 post fs ptr :
  page_ok pg us (pre ++ (Used, n) :: (Main, n1) :: b2 :: post) fs -> left_side pre ->
  b2.1 = Used \/ b2.1 = End -> ptr = p_start_address pg + total pre ->
  tiles tag (p_start_address pg) None (pre ++ (Used, n) :: (Main, n1) :: b2 :: post) -∗
  chain (p_head pg) fs (p_end pg) -∗ space (ptr + 16) (n - 16) -∗ freed ptr -∗
  wp (free_before ptr pg) Q.
Proof using Htag.
  destruct b2 as [k2 n2]. iIntros (Hok Hl Hb2 Hptr) "Ht Hc Hs Hk". set (s := p_start_address pg) in *.
  destruct (page_room _ _ _ _ _ _ Hok) as (Hb1 & Hb2' & Hb3 & Hb4 & Hb5). cbn [snd total] in *. fold s in Hb1, Hb5.
  pose proof (ok_blocks _ _ _ _ Hok) as Hbs. apply Forall_app in Hbs as [Hpre [_ [[Hn1 Hm1] Hpost]%Forall_cons]%Forall_cons].
  cbn [snd] in Hn1, Hm1. apply blocks_total_nonneg in Hpost. cbn [total] in Hpost.
  assert (Hp : p_ptr pg = ptr + n).
  { rewrite (app_assoc pre [_]) in Hok. apply main_at in Hok. rewrite blocks_total_app in Hok. cbn [total] in Hok. lia. }
  rewrite tiles_app. cbn [tiles]. rewrite -Hptr. iDestruct "Ht" as "(Hpre & Hf & Hsz & _ & Hg & Hsz1 & Hb & Hpost)".
  iApply (wp_merge_left tag Htag _ s pre ptr n with "Hpre [Hf Hsz Hs] Hg Hc"); [by eapply left_side_in|done..|lia|lia|lia|iFrame|].
  iIntros (pre' l gs g' (Hpre' & Hl' & Hedge & Hgs)) "Hpre (Hf & Hsz & Hs) Hg Hc".
  set (x := s + total pre') in *. assert (Hlx : ptr = x + total l) by (rewrite Hptr Hpre' blocks_total_app; lia).
  rewrite Hpre' in Hok Hpre. apply Forall_app in Hpre as [Hx%blocks_total_nonneg Hl0%blocks_total_nonneg].
  assert (Hx0 : 0 < x) by (unfold x; lia).
  iApply (wp_load with "Hsz"). iIntros "Hsz". rewrite Hp. iApply (wp_load with "Hsz1"). iIntros "Hsz1".
  rewrite u64_small; [|lia]. iApply (wp_store with "Hsz"); [lia|]. iIntros "Hsz".
  cbn [tiles]. iDestruct "Hpost" as "[Hf2 Hpost]".
  iApply wp_bind. replace (ptr + n + n1) with (x + (total l + n + n1)) by lia.
  iApply (wp_mark_free with "Hsz Hf2"). iIntros "Hsz Hf2". iApply wp_ret.
  destruct (none_or_free_other _ Hl' x) as [Hu0 Hm0].
  rewrite -app_assoc (app_assoc l [_; _] (_ :: _)) in Hok.
  assert (Hmid : total (l ++ [(Used, n); (Main, n1)]) = total l + n + n1) by (rewrite blocks_total_app; cbn [total]; lia).
  iApply ("Hk" $! (pre' ++ (Main, total (l ++ [(Used, n); (Main, n1)])) :: (k2, n2) :: post) gs x with "[] [-Hc] Hc").
  - iPureIntro. eapply (page_ok_join _ _ _ _ _ _ Main gs gs ptr n); [exact Hok|done|by exists k2, n2, post|..].
    + rewrite used_app Hu0. fold s x. by rewrite -Hlx.
    + fold s x. by rewrite addrs_app right_id_L Hgs.
    + right. fold s x. rewrite addrs_app Hm0. cbn [addrs app]. by rewrite -Hlx Hp.
  - rewrite tiles_app Hmid. cbn [tiles body]. iFrame "Hpre". fold x.
    iDestruct (hole_join with "Hf [Hsz] Hs Hg Hsz1 Hb") as "($ & $ & $)"; [lia|lia|done|]. iFrame.
Qed.

Definition right_side (b1 b2 : block) : Prop := b1.1 = Used \/ b1.1 = Free /\ (b2.1 = Used \/ b2.1 = End).

Lemma right_side_in pre b b1 b2 post fs y :
  page_ok pg us (pre ++ b :: b1 :: b2 :: post) fs -> right_side b1 b2 -> y = p_start_address pg + total pre + b.2 ->
  b1.1 = Used \/ b1.1 = Free /\ (b2.1 = Used \/ b2.1 = End) /\ y ∈ fs.
Proof.
  intros Hok [H|[Hk H]] ->; [by left|right]. split_and!; try done. destruct b1 as [k1 n1]. cbn [fst] in Hk. subst k1.
  rewrite (app_assoc pre [_]) in Hok. apply in_list in Hok. rewrite blocks_total_app in Hok. destruct b. cbn [total snd] in *.
  by rewrite Z.add_0_r Z.add_assoc in Hok.
Qed.

Lemma wp_free_behind pre n0 n b1 b2 post fs ptr :
  page_ok pg us (pre ++ (Main, n0) :: (Used, n) :: b1 :: b2 :: post) fs -> edge_left pre -> right_side b1 b2 ->
  ptr = p_start_address pg + total pre + n0 ->
  tiles tag (p_start_address pg) None (pre ++ (Main, n0) :: (Used, n) :: b1 :: b2 :: post) -∗
  chain (p_head pg) fs (p_end pg) -∗ space (ptr + 16) (n - 16) -∗ freed ptr -∗
  wp (free_behind ptr pg) Q.
Proof using Htag.
  iIntros (Hok Hedge Hr Hptr) "Ht Hc Hs Hk". set (s := p_start_address pg) in *.
  pose proof (main_at _ _ _ _ _ _ Hok) as Hp. fold s in Hp.
  destruct (page_room _ _ _ _ _ _ Hok) as (Hb1 & Hb2' & Hb3 & Hb4 & Hb5). cbn [snd total] in *. fold s in Hb1, Hb5.
  pose proof (ok_blocks _ _ _ _ Hok) as Hbs.
  apply Forall_app in Hbs as [_ [_ [[Hn _] [Hb [[Hn2 _] Hpost]%Forall_cons]%Forall_cons]%Forall_cons]%Forall_cons].
  cbn [snd] in Hn. apply blocks_total_nonneg in Hpost.
  rewrite tiles_app. iEval (cbn [tiles]) in "Ht". rewrite -Hptr.
  iDestruct "Ht" as "(Hpre & Hf0 & Hsz0 & Hb0 & Hf & Hsz & _ & Hpost)".
  iApply wp_bind. iApply (wp_merge_right tag Htag ptr n with "[Hf Hsz Hs] Hpost Hc"); [|done|lia| |iFrame|].
  { rewrite (app_assoc pre [_]) in Hok. eapply right_side_in; [exact Hok|done|].
    rewrite blocks_total_app. cbn [total snd]. fold s. lia. }
  { destruct b1, b2. cbn [total snd] in *. lia. }
  iIntros (r post' gs pf' (Hpost' & Hr' & Hedge' & Hgs)) "(Hf & Hsz & Hs) Hpost Hc".
  rewrite Hpost' in Hok. clear Hpost' Hb Hn2 Hpost Hb4 Hb5 Hr.
  pose proof (ok_blocks _ _ _ _ Hok) as Hbs.
  apply Forall_app in Hbs as [_ [_ [_ [Hr%blocks_total_nonneg Hpost%blocks_total_nonneg]%Forall_app]%Forall_cons]%Forall_cons].
  destruct (page_room _ _ _ _ _ _ Hok) as (_ & _ & _ & _ & Hb5). cbn [snd total] in *. rewrite blocks_total_app in Hb5. fold s in Hb5.
  set (x := s + total pre) in *. rewrite Hp.
  iApply (wp_load with "Hsz0"). iIntros "Hsz0". iApply (wp_load with "Hsz"). iIntros "Hsz".
  rewrite u64_small; [|lia]. iApply (wp_store with "Hsz0"); [lia|]. iIntros "Hsz0".
  destruct Hedge' as (k2 & n2 & post2 & -> & Hk2). cbn [tiles]. iDestruct "Hpost" as "[Hf2 Hpost]".
  iApply wp_bind. replace (ptr + (n + total r)) with (x + (n0 + (n + total r))) by lia.
  iApply (wp_mark_free with "Hsz0 Hf2"). iIntros "Hsz0 Hf2". iApply wp_ret.
  destruct (none_or_free_other _ Hr' (ptr + n)) as [Hu0 Hm0].
  assert (Hmid : total ((Main, n0) :: (Used, n) :: r) = n0 + (n + total r)) by done.
  replace (Q pg) with (Q (pg <| p_ptr := x |>)) by by rewrite -Hp; destruct pg.
  iApply ("Hk" $! (pre ++ (Main, total ((Main, n0) :: (Used, n) :: r)) :: (k2, n2) :: post2) gs x with "[] [-Hc] Hc").
  - iPureIntro. eapply (page_ok_join _ _ _ ((Main, n0) :: (Used, n) :: r) _ _ Main gs gs ptr n);
      [exact Hok|done|by exists k2, n2, post2|..]; fold s x.
    + change (used x ((Main, n0) :: (Used, n) :: r)) with ((x + n0, n) :: used (x + n0 + n) r). by rewrite -Hptr Hu0.
    + change (addrs Free x ((Main, n0) :: (Used, n) :: r)) with (addrs Free (x + n0 + n) r). by rewrite -Hptr Hgs.
    + right. change (addrs Main x ((Main, n0) :: (Used, n) :: r)) with (x :: addrs Main (x + n0 + n) r).
      by rewrite -Hptr Hm0 Hp.
  - rewrite tiles_app Hmid. cbn [tiles body]. iFrame "Hpre". fold x.
    iDestruct (hole_join with "Hf0 Hsz0 Hb0 Hf Hsz Hs") as "($ & $ & $)"; [lia|lia|]. iFrame.
Qed.

(** The block is free and its neighbours are joined; it goes to one end of the list. *)
Lemma wp_enlist pre mid post fs gs x n ptr m :
  page_ok pg us (pre ++ mid ++ post) fs -> edge_left pre -> edge_right post ->
  used (p_start_address pg + total pre) mid = [(ptr, m)] -> addrs Main (p_start_address pg + total pre) mid = [] ->
  fs ≡ₚ addrs Free (p_start_address pg + total pre) mid ++ gs ->
  x = p_start_address pg + total pre -> n = total mid ->
  tiles tag (p_start_address pg) None pre -∗ hole x n (default tag (last_flag None pre)) -∗
  tiles tag (x + n) (Some n) post -∗ chain (p_head pg) gs (p_end pg) -∗ freed ptr -∗
  wp (s ← get_size x; f ← get_next (p_head pg); fs ← get_size f;
      (if decide (fs <= s) then put_first x pg else put_last x pg);; mret pg) Q.
Proof.
  iIntros (Hok Hl Hr Hu Hm Hfs Hx Hn) "Hpre (Hf & Hs & Hb) Hpost Hc Hk".
  assert (H : forall fs', fs' ≡ₚ x :: gs -> page_ok (pg <| p_ptr := p_ptr pg |>) (delete ptr us) (pre ++ (Free, n) :: post) fs').
  { intros fs' Hfs'. subst n. eapply page_ok_join; try done. left. by subst x. }
  assert (Hroom := page_room _ _ _ _ _ _ (H _ (reflexivity _))). cbn [snd p_start_address set_field] in Hroom.
  change (p_start_address (pg <|p_ptr := p_ptr pg|>)) with (p_start_address pg) in Hroom.
  iApply (wp_load with "Hs"). iIntros "Hs".
  iDestruct (chain_first with "Hc") as "[Hh Hc]". iApply (wp_load with "Hh"). iIntros "Hh".
  iDestruct ("Hc" with "Hh") as "Hc".
  iAssert (tiles tag (p_start_address pg) None (pre ++ (Main, n) :: post)) with "[Hpre Hf Hs Hb Hpost]" as "Ht".
  { rewrite tiles_app. cbn [tiles body]. rewrite -Hx. iFrame. }
  iEval (rewrite tiles_relabel; [|lia]) in "Ht". iDestruct "Ht" as "[Hl Ht]". rewrite -Hx.
  destruct (listed_block _ _ _ _ (default (p_end pg) (head gs)) (H _ (reflexivity _))) as (A & kf & nf & B & HAB & Hf).
  { destruct gs; [by right|left; right; by left]. }
  change (p_start_address (pg <|p_ptr := p_ptr pg|>)) with (p_start_address pg) in Hf. rewrite Hf HAB.
  iDestruct (tiles_size with "Ht") as "[Hf Ht]". iApply (wp_load with "Hf"). iIntros "Hf".
  iDestruct ("Ht" with "Hf") as "Ht". rewrite -HAB.
  pose proof (ok_head _ _ _ _ Hok) as Hhd. pose proof (ok_end _ _ _ _ Hok) as Hen.
  destruct (ok_bounds _ _ _ _ Hok) as [_ Hbd]. destruct (page_bounds _ _ _ _ Hok) as [Hb1 Hb2].
  assert (E : pg <| p_ptr := p_ptr pg |> = pg) by by destruct pg.
  iApply wp_bind. case_decide.
  - iApply (wp_put_first with "Hc Hl"); [lia..|]. iIntros "Hc". iApply wp_ret. iEval (rewrite -E).
    iApply ("Hk" with "[] Ht Hc"). iPureIntro. by apply H.
  - iApply (wp_put_last with "Hc Hl"); [lia..|]. iIntros "Hc". iApply wp_ret. iEval (rewrite -E).
    iApply ("Hk" with "[] Ht Hc"). iPureIntro. apply H. solve_Permutation.
Qed.

Lemma wp_free_elsewhere pre n b1 b2 post fs ptr :
  page_ok pg us (pre ++ (Used, n) :: b1 :: b2 :: post) fs -> left_side pre -> right_side b1 b2 ->
  ptr = p_start_address pg + total pre ->
  tiles tag (p_start_address pg) None (pre ++ (Used, n) :: b1 :: b2 :: post) -∗
  chain (p_head pg) fs (p_end pg) -∗ space (ptr + 16) (n - 16) -∗ freed ptr -∗
  wp (free_elsewhere ptr pg) Q.
Proof using Htag.
  iIntros (Hok Hl Hr Hptr) "Ht Hc Hs Hk". set (s := p_start_address pg) in *.
  destruct (page_room _ _ _ _ _ _ Hok) as (Hb1 & Hb2' & Hb3 & Hb4 & Hb5). cbn [snd total] in *. fold s in Hb1, Hb5.
  pose proof (ok_blocks _ _ _ _ Hok) as Hbs.
  apply Forall_app in Hbs as [Hpre [_ [Hb [[Hn2 _] Hpost]%Forall_cons]%Forall_cons]%Forall_cons].
  apply blocks_total_nonneg in Hpost.
  assert (Hroom : ptr + n + b1.2 < 2 ^ 64) by (destruct b1, b2; cbn [total snd] in *; lia).
  pose proof (right_side_in _ _ _ _ _ _ (ptr + n) Hok Hr ltac:(cbn [snd]; fold s; lia)) as Hin.
  rewrite tiles_app tiles_cons -Hptr.
  iDestruct "Ht" as "(Hpre & Hf & Hsz & _ & Hpost)". iDestruct (tiles_reflag with "Hpost") as "[Hg Hpost]".
  iApply (wp_merge_left tag Htag _ s pre ptr n with "Hpre [Hf Hsz Hs] Hg Hc");
    [by eapply left_side_in|done..|lia|lia|destruct Hb; lia|iFrame|].
  iIntros (pre' l gs g' (Hpre' & Hl' & Hedge & Hgs)) "Hpre Hh Hg Hc".
  iDestruct ("Hpost" $! (Some g') with "Hg") as "Hpost".
  set (x := s + total pre') in *. assert (Hlx : ptr = x + total l) by (rewrite Hptr Hpre' blocks_total_app; lia).
  rewrite Hpre' in Hok Hpre. apply Forall_app in Hpre as [Hx%blocks_total_nonneg Hl0].
  pose proof (blocks_total_nonneg _ Hl0) as Hl1. assert (Hx0 : 0 < x) by (unfold x; lia).
  replace (ptr + n) with (x + (total l + n)) by lia.
  iApply wp_bind. iApply (wp_merge_right tag Htag x (total l + n) with "Hh Hpost Hc"); [|done|lia..|].
  { destruct Hin as [Hin|(Hk1 & Hk2 & Hin)]; [by left|right]. split_and!; try done. rewrite -Hgs in Hin.
    apply elem_of_app in Hin as [Hin%addrs_bounds|Hin]; [lia|done|]. by replace (x + (total l + n)) with (ptr + n) by lia. }
  iIntros (r post' gs' pf' (Hpost' & Hr' & Hedge' & Hgs')) "(Hf & Hsz & Hs) Hpost Hc".
  destruct Hedge' as (k2 & n2 & post2 & -> & Hk2).
  iDestruct (tiles_reflag with "Hpost") as "[Hg Hpost]".
  iApply wp_bind. iApply (wp_mark_free with "Hsz Hg"). iIntros "Hsz Hg".
  iDestruct ("Hpost" $! (Some (total l + n + total r)) with "Hg") as "Hpost".
  destruct (none_or_free_other _ Hl' x) as [Hu0 Hm0]. destruct (none_or_free_other _ Hr' (ptr + n)) as [Hu1 Hm1].
  rewrite Hpost' in Hok. rewrite -app_assoc (app_comm_cons r) (app_assoc l (_ :: r)) in Hok.
  iApply (wp_enlist pre' (l ++ (Used, n) :: r) ((k2, n2) :: post2) fs gs' x with "Hpre [Hf Hsz Hs] Hpost Hc Hk");
    [exact Hok|done|by exists k2, n2, post2|..|done| |iFrame]; fold s x.
  - rewrite used_app Hu0 -Hlx. change (used ptr ((Used, n) :: r)) with ((ptr, n) :: used (ptr + n) r). by rewrite Hu1.
  - rewrite addrs_app Hm0 -Hlx. change (addrs Main ptr ((Used, n) :: r)) with (addrs Main (ptr + n) r). done.
  - rewrite addrs_app -Hlx. change (addrs Free ptr ((Used, n) :: r)) with (addrs Free (ptr + n) r).
    rewrite -Hgs -Hgs'. replace (x + (total l + n)) with (ptr + n) by lia. by rewrite app_assoc.
  - rewrite blocks_total_app. cbn [total]. lia.
Qed.
End Freeing.

Lemma main_block pg us bs fs :
  page_ok pg us bs fs -> exists pre n post, bs = pre ++ (Main, n) :: post /\ p_ptr pg = p_start_address pg + total pre.
Proof. intros H. apply elem_of_addrs. rewrite (ok_main _ _ _ _ H). by left. Qed.

(** Blocks at the same place are the same. *)
Lemma place_inj pre b post pre' b' post' :
  Forall block_ok (pre ++ b :: post) -> pre ++ b :: post = pre' ++ b' :: post' -> total pre = total pre' ->
  pre = pre' /\ b = b' /\ post = post'.
Proof.
  revert pre'. induction pre as [|[k n] pre IH]; intros [|[k' n'] pre'] Hok E Ht.
  - by injection E as -> ->.
  - cbn [app] in Hok, E. injection E as E1 E2. subst. apply Forall_cons in Hok as [[Hn _] Hok]. apply Forall_app in Hok as [Hok _].
    apply blocks_total_nonneg in Hok. cbn [total snd] in *. lia.
  - cbn [app] in E. injection E as E1 E2. subst. apply Forall_app in Hok as [[[Hn _] Hok]%Forall_cons _].
    apply blocks_total_nonneg in Hok. cbn [total snd] in *. lia.
  - cbn [app] in E. injection E as -> -> E. apply Forall_cons in Hok as [_ Hok]. cbn [total] in Ht.
    destruct (IH _ Hok E) as (-> & -> & ->); [lia|done].
Qed.

Lemma prefix_inj pre b post pre' post' :
  Forall block_ok (pre ++ b :: post) -> pre ++ b :: post = pre' ++ post' -> total pre = total pre' -> pre = pre'.
Proof.
  intros Hok E Ht. destruct post' as [|b' post'].
  - rewrite app_nil_r in E. rewrite -E blocks_total_app in Ht.
    apply Forall_app in Hok as [_ [[Hb _] Hok%blocks_total_nonneg]%Forall_cons]. destruct b. cbn [total snd] in *. lia.
  - by destruct (place_inj _ _ _ _ _ _ Hok E Ht).
Qed.

Lemma left_side_of pre k n :
  k = Head \/ k = Used \/ is_free k = true /\ edge_left pre -> k <> Main -> left_side (pre ++ [(k, n)]).
Proof.
  intros [->|[->|[Hk H]]] Hne; [left; eexists _, _, _; eauto..|right]. exists pre, n. by destruct k.
Qed.

Lemma right_side_of k n b2 :
  k = Used \/ is_free k = true /\ (b2.1 = Used \/ b2.1 = End) -> k <> Main -> right_side (k, n) b2.
Proof. intros [->|[Hk H]] Hne; [by left|right]. by destruct k. Qed.

(** Freeing a block in use: it is no longer one, and nothing else changes for
    the users of the page. *)
Lemma wp_free_pointer tag pg us ptr n Q :
  Z.land tag 1 = 1 -> us !! ptr = Some n ->
  page_inv tag pg us -∗ space (ptr + 16) (n - 16) -∗
  (∀ p', page_inv tag (pg <| p_ptr := p' |>) (delete ptr us) -∗ Q (pg <| p_ptr := p' |>)) -∗
  wp (free_pointer ptr pg) Q.
Proof.
  iIntros (Htag Hus) "(%bs & %fs & %Hok & Ht & Hc) Hs Hk".
  destruct (used_neighbours _ _ _ _ _ _ Hok Hus) as (pre & k0 & n0 & k1 & n1 & b2 & post & -> & Hptr & Hk0 & Hk1).
  iAssert (freed tag pg us Q ptr) with "[Hk]" as "Hk".
  { iIntros (bs' fs' p' Hok') "Ht Hc". iApply "Hk". iExists bs', fs'. by iFrame. }
  destruct (main_block _ _ _ _ Hok) as (A & m & C & HA & Hp).
  iDestruct (tiles_size with "Ht") as "[Hsz Ht]". rewrite -Hptr.
  iApply (wp_next_pointer with "Hsz"). iIntros "Hsz". iDestruct ("Ht" with "Hsz") as "Ht".
  pose proof (ok_blocks _ _ _ _ Hok) as Hb.
  assert (Hn : 32 <= n /\ 32 <= n0).
  { apply Forall_app in Hb as [[_ [[H0 _] _]%Forall_cons]%Forall_app [[H _] _]%Forall_cons]. cbn [snd] in *. lia. }
  rewrite blocks_total_app in Hptr. cbn [total] in Hptr. case_decide as Hnx.
  - assert (Hk : (k1, n1) = (Main, m)).
    { rewrite (app_assoc _ [_]) in HA, Hb. eapply (place_inj _ _ _ _ _ _ Hb HA). rewrite !blocks_total_app. cbn [total]. lia. }
    injection Hk as -> ->.
    iApply (wp_free_before tag Htag _ _ _ _ _ _ _ _ _ _ Hok with "Ht Hc Hs Hk");
      [|by destruct Hk1 as [|[_ ?]]|rewrite blocks_total_app; cbn [total]; lia].
    apply left_side_of; [done|]. intros ->. rewrite -app_assoc in Hok. apply main_at in Hok. lia.
  - iEval (rewrite HA) in "Ht". iDestruct (tiles_size with "Ht") as "[Hsz Ht]". rewrite -Hp.
    iApply (wp_next_pointer with "Hsz"). iIntros "Hsz". iDestruct ("Ht" with "Hsz") as "Ht". rewrite -HA.
    assert (Hr : right_side (k1, n1) b2).
    { apply right_side_of; [done|]. intros ->. rewrite (app_assoc _ [_]) in Hok. apply main_at in Hok.
      rewrite !blocks_total_app in Hok. cbn [total] in Hok. lia. }
    case_decide as Hnp.
    + assert (Hk : pre ++ [(k0, n0)] = A ++ [(Main, m)]).
      { rewrite (app_assoc A [_] C) in HA. apply (prefix_inj _ _ _ _ _ Hb HA). rewrite !blocks_total_app. cbn [total]. lia. }
      apply app_inj_tail in Hk as [<- [= -> ->]]. rewrite -app_assoc in Hok |- *.
      destruct Hk0 as [?|[?|[_ Hk0]]]; [done..|].
      iApply (wp_free_behind tag Htag _ _ _ _ _ _ _ _ _ _ _ Hok with "Ht Hc Hs Hk"); [done|done|lia].
    + iApply (wp_free_elsewhere tag Htag _ _ _ _ _ _ _ _ _ _ Hok with "Ht Hc Hs Hk");
        [|done|rewrite blocks_total_app; cbn [total]; lia].
      apply left_side_of; [done|]. intros ->. rewrite -app_assoc in Hok. pose proof (main_at _ _ _ _ _ _ Hok) as Hp'.
      rewrite -app_assoc in HA, Hb. destruct (place_inj _ _ _ _ _ _ Hb HA) as (_ & [= ->] & _); lia.
Qed.
