(* ===== verification/XmallocCut.v ===== *)
(** * Cutting blocks from the pages of the allocator

    [cut] and [exchange] keep the invariant of a page, a new page has it, and so
    do the lists of blocks that wait to be freed. *)

From iris.bi Require Import interface.
From iris.proofmode Require Import proofmode.
From S2P Require Import Prelude Heaplet Xmalloc XmallocPage.
#[local] Open Scope Z_scope.

(** ** Exchanging the block from which requests are cut *)

Section Relabel.
Implicit Types (bs : list block) (a n : Z).

Lemma shape_relabel bs n bs' : shape (bs ++ (Main, n) :: bs') = shape (bs ++ (Free, n) :: bs').
Proof.
  induction bs as [|[k1 n1] [|b2 bs] IH]; cbn [app] in *.
  - destruct bs' as [|[[] ?] bs']; done.
  - destruct k1, bs' as [|[[] ?] bs']; done.
  - change (follows k1 b2.1 && shape (b2 :: bs ++ (Main, n) :: bs') =
            follows k1 b2.1 && shape (b2 :: bs ++ (Free, n) :: bs')). by rewrite IH.
Qed.

Lemma used_relabel a bs n bs' : used a (bs ++ (Main, n) :: bs') = used a (bs ++ (Free, n) :: bs').
Proof. by rewrite !used_app. Qed.

Lemma addrs_free_relabel a bs n bs' :
  addrs Free a (bs ++ (Free, n) :: bs') ≡ₚ (a + total bs) :: addrs Free a (bs ++ (Main, n) :: bs').
Proof.
  rewrite !addrs_app.
  change (addrs Free (a + total bs) ((Free, n) :: bs')) with ((a + total bs) :: addrs Free (a + total bs + n) bs').
  change (addrs Free (a + total bs) ((Main, n) :: bs')) with (addrs Free (a + total bs + n) bs').
  by rewrite Permutation_middle.
Qed.

Lemma addrs_main_relabel a bs n bs' :
  addrs Main a (bs ++ (Main, n) :: bs') ≡ₚ (a + total bs) :: addrs Main a (bs ++ (Free, n) :: bs').
Proof.
  rewrite !addrs_app.
  change (addrs Main (a + total bs) ((Main, n) :: bs')) with ((a + total bs) :: addrs Main (a + total bs + n) bs').
  change (addrs Main (a + total bs) ((Free, n) :: bs')) with (addrs Main (a + total bs + n) bs').
  by rewrite Permutation_middle.
Qed.

Lemma total_relabel bs n bs' : total (bs ++ (Main, n) :: bs') = total (bs ++ (Free, n) :: bs').
Proof. by rewrite !blocks_total_app. Qed.

Lemma blocks_relabel bs n bs' :
  Forall block_ok (bs ++ (Main, n) :: bs') <-> Forall block_ok (bs ++ (Free, n) :: bs').
Proof. rewrite !Forall_app !Forall_cons. done. Qed.

Lemma head_relabel bs n bs' m :
  head (bs ++ (Main, n) :: bs') = Some (Head, m) <-> head (bs ++ (Free, n) :: bs') = Some (Head, m).
Proof. by destruct bs. Qed.

Lemma last_relabel bs n bs' m :
  last (bs ++ (Main, n) :: bs') = Some (End, m) <-> last (bs ++ (Free, n) :: bs') = Some (End, m).
Proof. rewrite !last_app_cons. by destruct bs'. Qed.
End Relabel.

(** The page with its main block, of size [m], in sight. *)
Definition page_main (tag : Z) (pg : xmalloc_page) (us : gmap Z Z) (m : Z) : heapProp :=
  (∃ pre post fs, ⌜page_ok pg us (pre ++ (Main, m) :: post) fs⌝ ∗
     tiles tag (p_start_address pg) None (pre ++ (Main, m) :: post) ∗ chain (p_head pg) fs (p_end pg))%I.

Lemma page_main_intro tag pg us : page_inv tag pg us -∗ ∃ m, page_main tag pg us m.
Proof.
  iIntros "(%bs & %fs & %Hok & Ht & Hc)". destruct (main_block _ _ _ _ Hok) as (pre & m & post & -> & _).
  iExists m, pre, post, fs. by iFrame.
Qed.

Lemma page_main_elim tag pg us m : page_main tag pg us m -∗ page_inv tag pg us.
Proof. iIntros "(%pre & %post & %fs & %Hok & Ht & Hc)". iExists _, fs. by iFrame. Qed.

Lemma wp_main_size {B} tag pg us m (k : Z -> M B) Q :
  page_main tag pg us m -∗ (page_main tag pg us m -∗ wp (k m) Q) -∗ wp (get_size (p_ptr pg) ≫= k) Q.
Proof.
  iIntros "(%pre & %post & %fs & %Hok & Ht & Hc) Hk". rewrite (main_at _ _ _ _ _ _ Hok).
  iDestruct (tiles_size with "Ht") as "[Hs Ht]". iApply (wp_load with "Hs"). iIntros "Hs". iApply "Hk".
  iExists pre, post, fs. iFrame. iSplit; [done|]. by iApply "Ht".
Qed.

Lemma main_next pg us pre m post fs :
  page_ok pg us (pre ++ (Main, m) :: post) fs -> exists b post', post = b :: post'.
Proof.
  intros H. pose proof (ok_last _ _ _ _ H) as Hl. rewrite last_app_cons in Hl. by eapply follows_no_end.
Qed.

(** Setting the flag behind a free block anew. *)
Lemma wp_mark_again tag a pf pre k n b post Q :
  is_free k = true ->
  tiles tag a pf (pre ++ (k, n) :: b :: post) -∗ (tiles tag a pf (pre ++ (k, n) :: b :: post) -∗ Q tt) -∗
  wp (mark_free (a + total pre)) Q.
Proof.
  iIntros (Hk) "Ht Hq". rewrite tiles_app tiles_cons. iDestruct "Ht" as "(Hpre & Hf & Hs & Hb & Ht)".
  iDestruct (tiles_reflag with "Ht") as "[Hg Ht]". unfold next_flag. rewrite Hk.
  iApply (wp_mark_free with "Hs Hg"). iIntros "Hs Hg". iApply "Hq". iFrame. by iApply "Ht".
Qed.

(** [page->head->next] and its size; the main block has been made a free one
    that is not in the list yet. *)
Definition first_ok (pg : xmalloc_page) (us : gmap Z Z) (m f n : Z) (pre post : list block) (fs : list Z) : Prop :=
  page_ok pg us (pre ++ (Main, m) :: post) fs /\ f = default (p_end pg) (head fs) /\
  exists bs k bs', pre ++ (Free, m) :: post = bs ++ (k, n) :: bs' /\ f = p_start_address pg + total bs /\
    (n = 32 \/ k = Free /\ exists gs, fs = f :: gs).

Definition page_first (tag : Z) (pg : xmalloc_page) (us : gmap Z Z) (m f n : Z) : heapProp :=
  (∃ pre post fs, ⌜first_ok pg us m f n pre post fs⌝ ∗
     tiles tag (p_start_address pg) None (pre ++ (Free, m) :: post) ∗ space (p_ptr pg + 16) 16 ∗
     chain (p_head pg) fs (p_end pg))%I.

Lemma page_first_intro tag pg us m : page_main tag pg us m -∗ ∃ f n, page_first tag pg us m f n.
Proof.
  iIntros "(%pre & %post & %fs & %Hok & Ht & Hc)".
  destruct (page_room _ _ _ _ _ _ Hok) as (_ & _ & Hm & _). cbn [snd] in Hm.
  rewrite tiles_relabel // -(main_at _ _ _ _ _ _ Hok). iDestruct "Ht" as "[Hs Ht]".
  set (f := default (p_end pg) (head fs)).
  assert (H : exists bs k n bs', pre ++ (Free, m) :: post = bs ++ (k, n) :: bs' /\ f = p_start_address pg + total bs /\
        (n = 32 \/ k = Free /\ exists gs, fs = f :: gs)).
  { destruct fs as [|f' gs]; unfold f; cbn [head default].
    - pose proof (ok_last _ _ _ _ Hok) as Hl. destruct (main_next _ _ _ _ _ _ Hok) as (b & post' & ->).
      rewrite last_app_cons last_cons_cons in Hl. apply last_Some in Hl as (pp & Hpp). rewrite Hpp.
      exists (pre ++ (Free, m) :: pp), End, 32, []. split; [by rewrite -app_assoc|]. split; [|by left].
      rewrite (ok_end _ _ _ _ Hok) -(ok_total _ _ _ _ Hok) Hpp !blocks_total_app. cbn [total]. rewrite blocks_total_app. cbn [total]. lia.
    - assert (Hin : f' ∈ addrs Free (p_start_address pg) (pre ++ (Free, m) :: post)).
      { rewrite addrs_free_relabel -(ok_free _ _ _ _ Hok). right. by left. }
      apply elem_of_addrs in Hin as (bs & n & bs' & E & ->). exists bs, Free, n, bs'. split; [done|]. split; [done|]. right. eauto. }
  destruct H as (bs & k & n & bs' & H). iExists f, n, pre, post, fs. iFrame. iPureIntro. split; [done|]. split; [done|].
  by exists bs, k, bs'.
Qed.

Lemma page_first_elim tag pg us m f n : page_first tag pg us m f n -∗ page_main tag pg us m.
Proof.
  iIntros "(%pre & %post & %fs & (%Hok & _) & Ht & Hs & Hc)". iExists pre, post, fs. iFrame. iSplit; [done|].
  destruct (page_room _ _ _ _ _ _ Hok) as (_ & _ & Hm & _). cbn [snd] in Hm.
  iApply tiles_relabel; [done|]. rewrite -(main_at _ _ _ _ _ _ Hok). iFrame.
Qed.

Lemma wp_first_size {B} tag pg us m f n (k : Z -> M B) Q :
  page_first tag pg us m f n -∗ (page_first tag pg us m f n -∗ wp (k n) Q) -∗
  wp (f ← get_next (p_head pg); get_size f ≫= k) Q.
Proof.
  iIntros "(%pre & %post & %fs & (%Hok & %Hf & %bs & %kf & %bs' & %E & %Hfa & %Hn) & Ht & Hs & Hc) Hk".
  iDestruct (chain_first with "Hc") as "[Hh Hc]". iApply (wp_load with "Hh"). iIntros "Hh". rewrite -Hf.
  iDestruct ("Hc" with "Hh") as "Hc". rewrite Hfa E. iDestruct (tiles_size with "Ht") as "[Hsz Ht]".
  iApply (wp_load with "Hsz"). iIntros "Hsz". iApply "Hk". iDestruct ("Ht" with "Hsz") as "Ht". rewrite -E -Hfa.
  iExists pre, post, fs. iFrame. iPureIntro. split; [done|]. split; [done|]. by exists bs, kf, bs'.
Qed.

(** The free block becomes the main one, and the main one goes to the end of the list. *)
Lemma exchange_ok pg us m f gs n pre post bs bs' :
  page_ok pg us (pre ++ (Main, m) :: post) (f :: gs) ->
  pre ++ (Free, m) :: post = bs ++ (Free, n) :: bs' -> f = p_start_address pg + total bs ->
  page_ok (pg <| p_ptr := f |>) us (bs ++ (Main, n) :: bs') (gs ++ [p_ptr pg]).
Proof.
  intros Hok E Hf. pose proof (main_at _ _ _ _ _ _ Hok) as Hp.
  destruct Hok as [Hs Hfi Hla Hb Ht Hm Hfr Hu Hhd Hen Hbd Hal]. set (s := p_start_address pg) in *.
  pose proof (addrs_main_relabel s pre m post) as Hm1. rewrite Hm -Hp E in Hm1.
  pose proof (addrs_main_relabel s bs n bs') as Hm2.
  pose proof (addrs_free_relabel s pre m post) as Hf1. rewrite -Hfr -Hp E addrs_free_relabel -Hf in Hf1.
  split; try done.
  - by rewrite shape_relabel -E -shape_relabel.
  - by rewrite head_relabel -E -head_relabel.
  - by rewrite last_relabel -E -last_relabel.
  - by rewrite blocks_relabel -E -blocks_relabel.
  - by rewrite total_relabel -E -total_relabel.
  - change (addrs Main s (bs ++ (Main, n) :: bs') = [f]). apply Permutation_singleton_r.
    apply Permutation_cons_inv, Permutation_nil in Hm1. by rewrite Hm2 Hm1 Hf.
  - change (gs ++ [p_ptr pg] ≡ₚ addrs Free s (bs ++ (Main, n) :: bs')).
    rewrite perm_swap in Hf1. apply Permutation_cons_inv in Hf1. rewrite Hf1. solve_Permutation.
  - intros x k. change (p_start_address (pg <|p_ptr := f|>)) with s. by rewrite Hu !used_relabel E.
Qed.

Lemma wp_exchange tag pg us m f n Q :
  32 < n ->
  page_first tag pg us m f n -∗ (page_main tag (pg <| p_ptr := f |>) us n -∗ Q (pg <| p_ptr := f |>)) -∗
  wp (exchange pg) Q.
Proof.
  iIntros (Hn) "(%pre & %post & %fs & (%Hok & %Hf & %bs & %kf & %bs' & %E & %Hfa & %Hc) & Ht & Hs & Hc) Hk".
  destruct Hc as [->|[-> [gs ->]]]; [lia|].
  destruct (main_next _ _ _ _ _ _ Hok) as (b & post' & ->).
  destruct (page_room _ _ _ _ _ _ Hok) as (Hb1 & Hb2 & Hb3 & Hb4 & Hb5). cbn [snd] in *.
  destruct (page_bounds _ _ _ _ Hok) as [Hh He]. pose proof (main_at _ _ _ _ _ _ Hok) as Hp.
  iApply wp_bind. iApply (wp_put_last with "Hc Hs"); [lia|done|]. iIntros "Hc".
  iApply wp_bind. iEval (rewrite Hp). iApply (wp_mark_again with "Ht"); [done|]. iIntros "Ht".
  iDestruct (chain_out _ [] with "Hc") as (p g) "(%Hpe & Hpf & Hfp & Hfg & Hgf & Hc)". specialize (Hpe eq_refl) as ->.
  iDestruct (word_bound with "Hfg") as %Hg.
  iApply (wp_load with "Hpf"). iIntros "Hpf". iApply (wp_load with "Hfg"). iIntros "Hfg".
  iApply (wp_store with "Hpf"); [done|]. iIntros "Hpf". iApply (wp_load with "Hpf"). iIntros "Hpf".
  iApply (wp_store with "Hgf"); [done|]. iIntros "Hgf". iApply wp_ret. iApply "Hk".
  iExists bs, bs', (gs ++ [p_ptr pg]). iSplit; [iPureIntro; by eapply exchange_ok|].
  iSplitR "Hc Hpf Hgf"; [|iApply ("Hc" with "Hpf Hgf")].
  iApply tiles_relabel; [lia|]. rewrite E. iFrame. rewrite -Hfa. iApply (links_space with "Hfp Hfg").
Qed.

(** ** Cutting *)

Lemma shape_split pre m post n k :
  shape (pre ++ (Main, m) :: post) = true -> shape (pre ++ (Used, n) :: (Main, k) :: post) = true.
Proof.
  induction pre as [|[k1 n1] [|b2 pre] IH]; cbn [app] in *.
  - destruct post as [|[[] ?] post]; done.
  - destruct k1, post as [|[[] ?] post]; done.
  - change (follows k1 b2.1 && shape (b2 :: pre ++ (Main, m) :: post) = true ->
            follows k1 b2.1 && shape (b2 :: pre ++ (Used, n) :: (Main, k) :: post) = true).
    intros [H1 H2]%andb_true_iff. rewrite H1 IH //.
Qed.

Lemma cut_page_ok pg us pre m post fs size :
  page_ok pg us (pre ++ (Main, m) :: post) fs -> 32 <= size -> size mod 8 = 0 -> size + 32 <= m ->
  us !! p_ptr pg = None /\
  page_ok (pg <| p_ptr := p_ptr pg + size |>) (<[p_ptr pg := size]> us)
    (pre ++ (Used, size) :: (Main, m - size) :: post) fs.
Proof.
  intros Hok Hs1 Hs2 Hs3. pose proof (main_at _ _ _ _ _ _ Hok) as Hp.
  pose proof (ok_blocks _ _ _ _ Hok) as Hbs. apply Forall_app in Hbs as [Hb1 [[Hm Hm8] Hb2]%Forall_cons]. cbn [snd] in Hm, Hm8.
  assert (Hnone : us !! p_ptr pg = None).
  { destruct (us !! p_ptr pg) as [n|] eqn:En; [|done]. apply (ok_used _ _ _ _ Hok) in En.
    rewrite used_app in En. cbn [used] in En. case_decide; [done|].
    apply elem_of_app in En as [En%used_bounds|En%used_bounds]; [lia|done|lia|done]. }
  split; [done|]. destruct Hok as [Hs Hfi Hla Hb Ht Hmn Hfr Hu Hhd Hen Hbd Hal]. set (s := p_start_address pg) in *.
  assert (Hadd : s + total pre + size + (m - size) = s + total pre + m) by lia.
  rewrite addrs_app in Hmn. rewrite addrs_app in Hfr.
  split; try done.
  - by eapply shape_split.
  - by destruct pre.
  - rewrite last_app_cons in Hla. rewrite last_app_cons. by destruct post.
  - rewrite Forall_app !Forall_cons. split_and!; [done|by split| |done].
    split; cbn [snd]; [lia|]. by rewrite Zminus_mod Hm8 Hs2.
  - cbn [p_size]. rewrite -Ht !blocks_total_app. cbn [total]. lia.
  - change (addrs Main s (pre ++ (Used, size) :: (Main, m - size) :: post) = [p_ptr pg + size]).
    rewrite addrs_app. change (addrs Main (s + total pre) ((Used, size) :: (Main, m - size) :: post))
      with ((s + total pre + size) :: addrs Main (s + total pre + size + (m - size)) post).
    change (addrs Main (s + total pre) ((Main, m) :: post)) with ((s + total pre) :: addrs Main (s + total pre + m) post) in Hmn.
    rewrite Hadd Hp. revert Hmn. generalize (addrs Main s pre) (addrs Main (s + total pre + m) post). by intros [|? [|]] [|].
  - change (fs ≡ₚ addrs Free s (pre ++ (Used, size) :: (Main, m - size) :: post)).
    rewrite addrs_app Hfr. change (addrs Free (s + total pre) ((Used, size) :: (Main, m - size) :: post))
      with (addrs Free (s + total pre + size + (m - size)) post). by rewrite Hadd.
  - intros x n. change (p_start_address (pg <|p_ptr := p_ptr pg + size|>)) with s.
    rewrite used_app. change (used (s + total pre) ((Used, size) :: (Main, m - size) :: post))
      with ((s + total pre, size) :: used (s + total pre + size + (m - size)) post).
    rewrite Hadd Hp lookup_insert_Some Hu used_app. change (used (s + total pre) ((Main, m) :: post)) with (used (s + total pre + m) post).
    rewrite !elem_of_app elem_of_cons. split.
    + intros [[<- <-]|[_ [H|H]]].
      * right. left. reflexivity.
      * left. exact H.
      * right. right. exact H.
    + intros [H|[[= -> ->]|H]]; [right; split; [|by left]|left; split; reflexivity|right; split; [|by right]].
      * apply used_bounds in H; [lia|done].
      * apply used_bounds in H; [lia|done].
Qed.

Lemma main_aligned pg us pre m post fs : page_ok pg us (pre ++ (Main, m) :: post) fs -> p_ptr pg mod 8 = 0.
Proof.
  intros Hok. rewrite (main_at _ _ _ _ _ _ Hok). pose proof (ok_blocks _ _ _ _ Hok) as Hb.
  apply Forall_app in Hb as [Hb _]. rewrite Z.add_mod // (ok_aligned _ _ _ _ Hok).
  destruct pre as [|b pre]; [done|]. destruct (total_ok Free (b :: pre) Hb) as [_ H]; [done|]. cbn [snd] in H. by rewrite H.
Qed.

Lemma wp_cut tag pg us m size Q :
  0 <= tag < 2 ^ 64 -> 32 <= size -> size mod 8 = 0 -> size + 32 <= m ->
  page_main tag pg us m -∗
  (⌜us !! p_ptr pg = None /\ p_ptr pg mod 8 = 0⌝ -∗ page_inv tag (pg <| p_ptr := p_ptr pg + size |>) (<[p_ptr pg := size]> us) -∗
     space (p_ptr pg + 16) (size - 16) -∗ Q (p_ptr pg, pg <| p_ptr := p_ptr pg + size |>)) -∗
  wp (cut tag size pg) Q.
Proof.
  iIntros (Htag Hs1 Hs2 Hs3) "(%pre & %post & %fs & %Hok & Ht & Hc) Hk".
  destruct (cut_page_ok _ _ _ _ _ _ _ Hok Hs1 Hs2 Hs3) as [Hnone Hok'].
  pose proof (main_aligned _ _ _ _ _ _ Hok) as Hal.
  pose proof (main_at _ _ _ _ _ _ Hok) as Hp. destruct (main_next _ _ _ _ _ _ Hok) as (b & post' & ->).
  destruct (page_room _ _ _ _ _ _ Hok) as (Hb1 & Hb2 & _ & Hb4 & Hb5). cbn [snd] in *.
  rewrite tiles_app tiles_cons -Hp. iDestruct "Ht" as "(Hpre & Hf & Hs & Hb & Hpost)". cbn [body].
  set (p := p_ptr pg) in *. set (q := p + size) in *.
  replace (m - 16) with ((size - 16) + (16 + (16 + (m - size - 32)))) by lia.
  iDestruct (space_split with "Hb") as "[Hmine Hb]"; [lia..|]. replace (p + 16 + (size - 16)) with q by lia.
  iDestruct (space_split with "Hb") as "[Hh Hb]"; [lia..|]. iDestruct (space_split with "Hb") as "[Hl Hb]"; [lia..|].
  iDestruct (space_words with "Hh") as (v w) "[Hqf Hqs]". iDestruct (space_links with "Hl") as (pv nv) "[Hqp Hqn]".
  iDestruct (tiles_reflag with "Hpost") as "[Hg Hpost]". unfold cut.
  fold p q. iApply (wp_store with "Hqf"); [done|]. iIntros "Hqf". iApply (wp_load with "Hs"). iIntros "Hs".
  rewrite u64_small; [|lia]. iApply (wp_store with "Hqs"); [lia|]. iIntros "Hqs".
  replace (p + m) with (q + (m - size)) by lia. iApply wp_bind.
  iApply (wp_mark_free with "Hqs Hg"). iIntros "Hqs Hg". iDestruct ("Hpost" $! (Some (m - size)) with "Hg") as "Hpost".
  iApply (wp_store with "Hqp"); [lia|]. iIntros "Hqp". iApply (wp_load with "Hqp"). iIntros "Hqp".
  iApply (wp_store with "Hs"); [lia|]. iIntros "Hs". iApply wp_ret. iApply ("Hk" with "[%] [-Hmine] Hmine"); [by split|].
  iExists _, fs. iSplit; [done|]. iFrame "Hc". rewrite tiles_app tiles_cons -Hp. iFrame "Hpre Hf Hs". iSplit; [done|].
  rewrite tiles_cons. iFrame "Hqf Hqs Hpost". cbn [body].
  replace (m - size - 16) with (16 + (m - size - 32)) by lia. iApply (space_join with "[Hqp Hqn] Hb").
  iApply (links_space with "Hqp Hqn").
Qed.

(** ** New pages *)

Lemma space_header x :
  space x 32 -∗ ∃ f n p q, word x f ∗ word (x + 8) n ∗ word (x + 16) p ∗ word (x + 24) q.
Proof.
  iIntros "H". iDestruct (space_split x 16 16 with "H") as "[H1 H2]"; [lia..|].
  iDestruct (space_words with "H1") as (f n) "[Hf Hn]". iDestruct (space_links with "H2") as (p q) "[Hp Hq]".
  iExists f, n, p, q. iFrame.
Qed.

Lemma new_page_ok pg n :
  0 < p_start_address pg -> p_start_address pg mod 8 = 0 -> 96 <= n -> n mod 8 = 0 ->
  p_start_address pg + n < 2 ^ 64 -> p_size pg = n -> p_head pg = p_start_address pg ->
  p_end pg = p_start_address pg + n - 32 -> p_ptr pg = p_start_address pg + 32 ->
  page_ok pg ∅ ([(Head, 32)] ++ (Main, n - 64) :: [(End, 32)]) [].
Proof.
  intros Hs0 Hs8 Hn0 Hn8 Hb Hsz Hh He Hp. split; try done; cbn [app].
  - repeat constructor; cbn [snd]; try lia. rewrite Zminus_mod Hn8 //.
  - cbn [total]. lia.
  - by rewrite Hp.
  - intros x k. by rewrite lookup_empty; split; [|intros ?%elem_of_nil].
  - by rewrite He Hsz.
  - by rewrite Hsz.
Qed.

Lemma wp_format_page pool_id pg Q :
  let tag := inuse_flag pool_id (p_id pg) in
  0 <= tag < 2 ^ 64 -> 0 < p_start_address pg -> p_start_address pg mod 8 = 0 ->
  96 <= p_size pg -> p_size pg mod 8 = 0 -> p_start_address pg + p_size pg < 2 ^ 64 ->
  space (p_start_address pg) (p_size pg) -∗
  (let pg' := pg <| p_ptr := p_start_address pg + 32 |> <| p_head := p_start_address pg |>
                 <| p_end := p_start_address pg + p_size pg - 32 |>
                 <| p_recycle_pool := replicate 3 empty_list |> in
   page_main tag pg' ∅ (p_size pg - 64) -∗ Q pg') -∗
  wp (format_page pool_id pg) Q.
Proof.
  cbv zeta. iIntros (Htag Hs0 Hs8 Hn0 Hn8 Hb) "H Hk".
  set (s := p_start_address pg) in *. set (n := p_size pg) in *. set (tag := inuse_flag pool_id (p_id pg)) in *.
  replace n with (32 + ((16 + (n - 80)) + 32)) at 1 by lia.
  iDestruct (space_split with "H") as "[Hh H]"; [lia..|]. iDestruct (space_split with "H") as "[Hm He]"; [lia..|].
  iDestruct (space_split with "Hm") as "[Hm Hb]"; [lia..|].
  replace (s + 32 + (16 + (n - 80))) with (s + n - 32) by lia. set (e := s + n - 32) in *.
  iDestruct (space_header with "Hh") as (? ? ? ?) "(Hhf & Hhs & Hhp & Hhn)".
  iDestruct (space_words with "Hm") as (? ?) "[Hmf Hms]".
  iDestruct (space_header with "He") as (? ? ? ?) "(Hef & Hes & Hep & Hen)".
  unfold format_page. fold s n tag. change (Z.shiftl __free_pointer_size 1) with 64. change __free_pointer_size with 32.
  change (Z.to_nat __max_recycle_pool) with 3%nat. rewrite u64_small; [|lia].
  iApply (wp_store with "Hhf"); [done|]. iIntros "Hhf". iApply (wp_store with "Hhs"); [lia|]. iIntros "Hhs".
  iApply (wp_next_pointer with "Hhs"). iIntros "Hhs".
  iApply (wp_store with "Hmf"); [done|]. iIntros "Hmf". iApply (wp_store with "Hms"); [lia|]. iIntros "Hms".
  iApply (wp_next_pointer with "Hms"). iIntros "Hms". replace (s + 32 + (n - 64)) with e by lia.
  iApply (wp_load with "Hms"). iIntros "Hms".
  iApply (wp_store with "Hef"); [lia|]. iIntros "Hef". iApply (wp_store with "Hes"); [lia|]. iIntros "Hes".
  iApply (wp_store with "Hhp"); [lia|]. iIntros "Hhp". iApply (wp_store with "Hhn"); [lia|]. iIntros "Hhn".
  iApply (wp_store with "Hep"); [lia|]. iIntros "Hep". iApply (wp_store with "Hen"); [lia|]. iIntros "Hen".
  iApply wp_ret. iApply "Hk". iExists [(Head, 32)], [(End, 32)], []. iSplit.
  { iPureIntro. apply new_page_ok; done. }
  iSplitR "Hhp Hhn Hep Hen"; [|unfold chain; iFrame "Hhp Hen"; iApply segs_cons; iFrame "Hhn Hep"; by iApply segs_one].
  rewrite tiles_app !tiles_cons !tiles_nil. cbn [total body]. change (p_start_address (_ <| p_ptr := _ |> <| p_head := _ |> <| p_end := _ |> <| p_recycle_pool := _ |>)) with s.
  rewrite Z.add_0_r. replace (s + 32 + (n - 64)) with e by lia. replace (n - 64 - 16) with (n - 80) by lia.
  iSplitL "Hhf Hhs"; [by iFrame "Hhf Hhs"|]. by iFrame "Hmf Hms Hb Hef Hes".
Qed.
