(* ===== verification/XmallocLists.v ===== *)
(** * Blocks that wait to be freed

    A block that is freed while another thread has the page goes to one of the
    three lists of the page, and later with the rest of its list to the page. *)

From iris.bi Require Import interface.
From iris.proofmode Require Import proofmode.
From S2P Require Import Prelude Heaplet Xmalloc XmallocPage XmallocCut.
#[local] Open Scope Z_scope.

(** The list from [h] over the blocks [rs]; the links lie in their contents. *)
Fixpoint rlist (h : Z) (rs : list (Z * Z)) : heapProp :=
  match rs with
  | [] => ⌜h = 0⌝
  | (x, n) :: rs =>
      ∃ v nx, ⌜h = x⌝ ∗ word (x + 16) v ∗ word (x + 24) nx ∗ space (x + 32) (n - 32) ∗ rlist nx rs
  end%I.

(** Of the blocks in use, [live] are with the users and the rest wait in [rss]. *)
Definition waiting (us live : gmap Z Z) (rss : list (list (Z * Z))) : Prop :=
  map_to_list us ≡ₚ map_to_list live ++ concat rss.

Definition page_lists (tag : Z) (pg : xmalloc_page) (live : gmap Z Z) (rss : list (list (Z * Z))) : heapProp :=
  (∃ us, ⌜waiting us live rss⌝ ∗ page_inv tag pg us ∗
     [∗ list] l; rs ∈ p_recycle_pool pg; rss, rlist (l_head l) rs)%I.

(** What freeing leaves as it is. *)
Definition same_page (pg pg' : xmalloc_page) : Prop :=
  p_lock pg' = p_lock pg /\ p_id pg' = p_id pg /\ p_size pg' = p_size pg /\
  p_start_address pg' = p_start_address pg /\ map l_lock (p_recycle_pool pg') = map l_lock (p_recycle_pool pg).

#[export] Instance same_page_refl : Reflexive same_page.
Proof. by intros pg. Qed.
#[export] Instance same_page_trans : Transitive same_page.
Proof. intros a b c (?&?&?&?&?) (?&?&?&?&?). split_and!; congruence. Qed.

Lemma concat_pop {A} (rss : list (list A)) i x rs :
  rss !! i = Some (x :: rs) -> concat rss ≡ₚ x :: concat (<[i := rs]> rss).
Proof.
  intros H. rewrite (insert_take_drop rss i rs (lookup_lt_Some _ _ _ H)) -{1}(take_drop_middle _ _ _ H).
  rewrite !concat_app. cbn [concat app]. symmetry. apply Permutation_middle.
Qed.

Lemma waiting_pop us live rss i x n rs :
  waiting us live rss -> rss !! i = Some ((x, n) :: rs) ->
  us !! x = Some n /\ waiting (delete x us) live (<[i := rs]> rss).
Proof.
  intros H Hi.
  assert (Hx : us !! x = Some n).
  { apply elem_of_map_to_list. rewrite H (concat_pop _ _ _ _ Hi). apply elem_of_app. right. by left. }
  split; [done|]. unfold waiting in *. rewrite -(map_to_list_delete us x n) // (concat_pop _ _ _ _ Hi) in H.
  rewrite -Permutation_middle in H. by apply Permutation_cons_inv in H.
Qed.

Lemma waiting_push us live rss i x n rs :
  waiting us live rss -> live !! x = Some n -> rss !! i = Some rs ->
  us !! x = Some n /\ waiting us (delete x live) (<[i := (x, n) :: rs]> rss).
Proof.
  intros H Hx Hi. unfold waiting in *. rewrite -(map_to_list_delete live x n) // in H. split.
  { apply elem_of_map_to_list. rewrite H. by left. }
  rewrite H (concat_pop (<[i := (x, n) :: rs]> rss) i (x, n) rs) ?list_lookup_insert_eq //.
  - rewrite list_insert_insert_eq (list_insert_id _ _ _ Hi). solve_Permutation.
  - by eapply lookup_lt_Some.
Qed.

Lemma used_length a bs : Forall block_ok bs -> 32 * Z.of_nat (length (used a bs)) <= total bs.
Proof.
  intros H. revert a. induction H as [|[k n] bs [Hn _] _ IH]; intros a; cbn [used total]; [done|].
  specialize (IH (a + n)). cbn [snd] in Hn. case_decide; cbn [length]; lia.
Qed.

(** There are not more blocks than fit in the page. *)
Lemma page_count pg us bs fs : page_ok pg us bs fs -> 32 * Z.of_nat (size us) <= p_size pg.
Proof.
  intros Hok. pose proof (used_length (p_start_address pg) _ (ok_blocks _ _ _ _ Hok)) as H.
  rewrite (ok_total _ _ _ _ Hok) in H. enough (size us <= length (used (p_start_address pg) bs))%nat by lia.
  rewrite -length_map_to_list. apply submseteq_length, NoDup_submseteq; [apply NoDup_map_to_list|].
  intros [x n] Hx. apply elem_of_map_to_list in Hx. by apply (ok_used _ _ _ _ Hok).
Qed.

(** Locks and lists are no part of the invariant of the blocks. *)
Definition same_blocks (pg pg' : xmalloc_page) : Prop :=
  p_start_address pg' = p_start_address pg /\ p_size pg' = p_size pg /\ p_ptr pg' = p_ptr pg /\
  p_head pg' = p_head pg /\ p_end pg' = p_end pg.

Lemma page_ok_ext pg pg' us bs fs : same_blocks pg pg' -> page_ok pg us bs fs -> page_ok pg' us bs fs.
Proof.
  intros (E1 & E2 & E3 & E4 & E5) []. by split; rewrite ?E1 ?E2 ?E3 ?E4 ?E5.
Qed.

Lemma page_inv_ext tag pg pg' us : same_blocks pg pg' -> page_inv tag pg us -∗ page_inv tag pg' us.
Proof.
  iIntros (H) "(%bs & %fs & %Hok & Ht & Hc)". iExists bs, fs. iSplit; [iPureIntro; by eapply page_ok_ext|].
  destruct H as (-> & _ & _ & -> & ->). iFrame.
Qed.

Lemma wp_used_size tag pg us x n Q :
  us !! x = Some n -> page_inv tag pg us -∗ (page_inv tag pg us -∗ Q n) -∗ wp (get_size x) Q.
Proof.
  iIntros (Hx) "(%bs & %fs & %Hok & Ht & Hc) Hk".
  pose proof Hx as Hu. apply (ok_used _ _ _ _ Hok), elem_of_used in Hu as (pre & post & -> & ->).
  iDestruct (tiles_size with "Ht") as "[Hs Ht]". iApply (wp_load' with "Hs"). iIntros "Hs". iApply "Hk".
  iExists _, fs. iFrame. iSplit; [done|]. by iApply "Ht".
Qed.

Lemma page_used_bounds tag pg us x n :
  us !! x = Some n -> page_inv tag pg us -∗ ⌜0 < x /\ 32 <= n /\ x + n < 2 ^ 64⌝.
Proof.
  iIntros (Hx) "(%bs & %fs & %Hok & _)". iPureIntro.
  apply (ok_used _ _ _ _ Hok), used_bounds in Hx; [|by destruct Hok].
  pose proof (ok_total _ _ _ _ Hok). destruct (ok_bounds _ _ _ _ Hok). lia.
Qed.

Lemma set_list_ok i l l' pg :
  p_recycle_pool pg !! Z.to_nat i = Some l -> 0 <= i ->
  set_list i l' pg = Some (pg <| p_recycle_pool := <[Z.to_nat i := l']> (p_recycle_pool pg) |>).
Proof.
  intros H Hi. unfold set_list, wr. rewrite decide_True //. apply lookup_lt_Some in H. lia.
Qed.

Lemma map_insert_same {A B} (f : A -> B) l i x y : l !! i = Some x -> f y = f x -> map f (<[i := y]> l) = map f l.
Proof.
  intros Hx Hf. change (f <$> <[i := y]> l = f <$> l). rewrite list_fmap_insert Hf. apply list_insert_id.
  by rewrite list_lookup_fmap Hx.
Qed.

Lemma lift_rd {B} pg i l (k : xptr_list -> M B) Q :
  p_recycle_pool pg !! Z.to_nat i = Some l -> 0 <= i ->
  wp (k l) Q -∗ wp (lift (rd (p_recycle_pool pg) i) ≫= k) Q.
Proof.
  iIntros (Hl Hi) "H". iApply wp_bind. iApply wp_lift; [|done]. unfold rd. by rewrite decide_True.
Qed.

Lemma rlists_lookup pg rss i rs :
  rss !! i = Some rs ->
  ([∗ list] l; rs ∈ p_recycle_pool pg; rss, rlist (l_head l) rs) -∗ ⌜exists l, p_recycle_pool pg !! i = Some l⌝.
Proof.
  iIntros (Hrs) "H". iDestruct (big_sepL2_length with "H") as %Hlen. iPureIntro.
  apply lookup_lt_is_Some_2. rewrite Hlen. by eapply lookup_lt_Some.
Qed.

Lemma wp_drain_end tag live fuel count i pg rss Q :
  0 <= i -> rss !! Z.to_nat i = Some [] ->
  page_lists tag pg live rss -∗ (page_lists tag pg live rss -∗ Q pg) -∗ wp (drain fuel count i pg) Q.
Proof.
  iIntros (Hi Hrs) "(%us & %Hw & Hp & Hr) Hk". iDestruct (rlists_lookup _ _ _ _ Hrs with "Hr") as %[l Hl].
  iDestruct (big_sepL2_lookup_acc _ _ _ _ l [] with "Hr") as "[Hh Hr]"; [done..|]. iDestruct "Hh" as %Hh.
  destruct fuel; cbn [drain]; (iApply lift_rd; [done..|]); rewrite decide_True //; iApply wp_ret; iApply "Hk";
    iExists us; iFrame; (iSplit; [done|]); by iApply "Hr".
Qed.

Lemma wp_drain tag live fuel count i Q :
  Z.land tag 1 = 1 -> 0 <= i -> forall pg rss rs, rss !! Z.to_nat i = Some rs -> (length rs <= fuel)%nat ->
  page_lists tag pg live rss -∗
  (∀ pg', ⌜same_page pg pg'⌝ -∗ page_lists tag pg' live (<[Z.to_nat i := []]> rss) -∗ Q pg') -∗
  wp (drain fuel count i pg) Q.
Proof.
  intros Htag Hi. induction fuel as [|fuel IH]; intros pg rss [|[x n] rs] Hrs Hlen; cbn [length] in Hlen; try lia;
    [rewrite list_insert_id //; iIntros "H Hk"; iApply (wp_drain_end with "H"); [done..|]; by iApply "Hk"..|].
  iIntros "(%us & %Hw & Hp & Hr) Hk". iDestruct (rlists_lookup _ _ _ _ Hrs with "Hr") as %[l Hl].
  destruct (waiting_pop _ _ _ _ _ _ _ Hw Hrs) as [Hx Hw'].
  iDestruct (page_used_bounds with "Hp") as %Hb; [done|].
  iDestruct (big_sepL2_insert_acc _ _ _ _ l ((x, n) :: rs) with "Hr") as "[Hl Hr]"; [done..|].
  iDestruct "Hl" as (v nx) "(%Hh & Hv & Hn & Hs & Hl)". cbn [drain]. iApply lift_rd; [done..|].
  rewrite Hh decide_False; [|lia]. iApply (wp_load with "Hn"). iIntros "Hn". iApply wp_bind.
  iApply (wp_wand _ (fun _ => page_inv tag pg us) with "[Hp]").
  { destruct count; [|by iApply wp_ret]. iApply (wp_used_size with "Hp"); [done|]. by iIntros "$". }
  iIntros (size) "Hp". set (l' := l <| l_head := nx |> <| l_memory_size := u64 (l_memory_size l - size) |>).
  iApply wp_bind. iApply wp_lift; [by eapply set_list_ok|].
  set (pg' := pg <| p_recycle_pool := <[Z.to_nat i := l']> (p_recycle_pool pg) |>).
  iApply wp_bind. iApply (wp_free_pointer tag pg' us x n with "[Hp] [Hv Hn Hs]"); [done|done| | |].
  { by iApply (page_inv_ext with "Hp"). }
  { iApply (space_links_join with "[Hv Hn] Hs"); [lia|]. iApply (links_space with "Hv Hn"). }
  iIntros (p') "Hp".
  iApply (IH _ (<[Z.to_nat i := rs]> rss) rs with "[Hp Hl Hr]"); [|lia| |].
  { apply list_lookup_insert_eq. by eapply lookup_lt_Some. }
  { iExists (delete x us). iSplit; [done|]. iFrame "Hp". by iApply ("Hr" $! l' rs). }
  iIntros (pg2 Hsame) "H". rewrite list_insert_insert_eq. iApply ("Hk" with "[] H"). iPureIntro.
  etrans; [|exact Hsame]. split_and!; try done. by apply (map_insert_same l_lock _ _ l).
Qed.

(** The fuel is enough: the blocks of a list fit in the page. *)
Lemma drain_fuel_enough tag pg live rss i rs :
  rss !! i = Some rs -> page_lists tag pg live rss -∗ ⌜(length rs <= drain_fuel pg)%nat⌝.
Proof.
  iIntros (Hrs) "(%us & %Hw & (%bs & %fs & %Hok & _) & _)". iPureIntro.
  pose proof (page_count _ _ _ _ Hok) as H. unfold drain_fuel. change __free_pointer_size with 32.
  apply Permutation_length in Hw. rewrite length_map_to_list length_app in Hw.
  assert (length rs <= length (concat rss))%nat.
  { rewrite -(take_drop_middle _ _ _ Hrs) concat_app !length_app. cbn [length]. lia. }
  assert (Z.of_nat (length rs) <= p_size pg / 32) by (apply Z.div_le_lower_bound; lia). lia.
Qed.

Definition list_locks (pg : xmalloc_page) : list bool := map l_lock (p_recycle_pool pg).
Definition no_locks (pg : xmalloc_page) : Prop := p_lock pg = false /\ list_locks pg = [false; false; false].

Lemma page_lists_ext tag pg pg' live rss :
  same_blocks pg pg' -> p_recycle_pool pg' = p_recycle_pool pg ->
  page_lists tag pg live rss -∗ page_lists tag pg' live rss.
Proof.
  iIntros (H E) "(%us & %Hw & Hp & Hr)". iExists us. rewrite E. iFrame "Hr". iSplit; [done|]. by iApply (page_inv_ext with "Hp").
Qed.

Lemma live_in_use us live rss x n : waiting us live rss -> live !! x = Some n -> us !! x = Some n.
Proof.
  intros H Hx. apply elem_of_map_to_list. rewrite H. apply elem_of_app. left. by apply elem_of_map_to_list.
Qed.

(** The first block of a list is 0 or an address. *)
Lemma list_head_bound tag pg us live rss i h rs :
  waiting us live rss -> rss !! i = Some rs -> page_inv tag pg us -∗ rlist h rs -∗ ⌜0 <= h < 2 ^ 64⌝.
Proof.
  iIntros (Hw Hrs) "Hp Hl". destruct rs as [|[x n] rs]; cbn [rlist]; [by iDestruct "Hl" as %->|].
  iDestruct "Hl" as (v nx) "(-> & _)". destruct (waiting_pop _ _ _ _ _ _ _ Hw Hrs) as [Hx _].
  iDestruct (page_used_bounds with "Hp") as %Hb; [done|]. iPureIntro. lia.
Qed.

Lemma wp_drain_locked tag live again i pg rss rs Q :
  Z.land tag 1 = 1 -> 0 <= i -> rss !! Z.to_nat i = Some rs -> p_lock pg = false ->
  page_lists tag pg live rss -∗
  (∀ pg' rss', ⌜same_page pg pg' /\ length rss' = length rss⌝ -∗ page_lists tag pg' live rss' -∗ Q pg') -∗
  wp (match try_lock_page again pg with
      | Some pg => pg ← drain (drain_fuel pg) true i pg; mret (unlock_page pg)
      | None => mret pg
      end) Q.
Proof.
  iIntros (Htag Hi Hrs Hlock) "H Hk". unfold try_lock_page. rewrite Hlock orb_false_r.
  destruct again; [iApply wp_ret; by iApply ("Hk" with "[] H")|].
  set (pg1 := pg <| p_lock := true |>). iDestruct (page_lists_ext _ _ pg1 with "H") as "H"; [done..|].
  iDestruct (drain_fuel_enough _ _ _ _ _ _ Hrs with "H") as %Hf. iApply wp_bind.
  iApply (wp_drain with "H"); [done..|]. iIntros (pg2 Hsame) "H". iApply wp_ret.
  iApply ("Hk" $! (unlock_page pg2) (<[Z.to_nat i := []]> rss) with "[] [H]").
  - iPureIntro. split; [|by rewrite length_insert]. destruct Hsame as (_ & ? & ? & ? & ?). split_and!; try done.
  - by iApply (page_lists_ext with "H").
Qed.

Lemma page_lists_unlock tag pg live rss i l l' :
  p_recycle_pool pg !! i = Some l -> l_head l' = l_head l ->
  page_lists tag pg live rss -∗ page_lists tag (pg <| p_recycle_pool := <[i := l']> (p_recycle_pool pg) |>) live rss.
Proof.
  iIntros (Hl Hh) "(%us & %Hw & Hp & Hr)". iExists us. iSplit; [done|]. iSplitL "Hp"; [by iApply (page_inv_ext with "Hp")|].
  iDestruct (big_sepL2_length with "Hr") as %Hlen.
  destruct (lookup_lt_is_Some_2 rss i) as [rs Hrs]; [rewrite -Hlen; by eapply lookup_lt_Some|].
  iDestruct (big_sepL2_insert_acc _ _ _ _ l rs with "Hr") as "[Hl Hr]"; [done..|].
  iDestruct ("Hr" $! l' rs with "[Hl]") as "Hr"; [by rewrite Hh|]. rewrite (list_insert_id rss) //.
Qed.

Lemma list_no_lock pg i :
  list_locks pg = [false; false; false] -> 0 <= i < 3 ->
  exists l, p_recycle_pool pg !! Z.to_nat i = Some l /\ l_lock l = false.
Proof.
  unfold list_locks. intros H Hi. destruct (p_recycle_pool pg) as [|l0 [|l1 [|l2 [|]]]]; try done. injection H as H0 H1 H2.
  assert (i = 0 \/ i = 1 \/ i = 2) as [->|[->| ->]] by lia; eexists; eauto.
Qed.

Lemma wp_recycle_into tag live i l again ptr n pg rss Q :
  Z.land tag 1 = 1 -> 0 <= i -> p_recycle_pool pg !! Z.to_nat i = Some l -> l_lock l = false -> p_lock pg = false ->
  live !! ptr = Some n ->
  page_lists tag pg live rss -∗ space (ptr + 16) (n - 16) -∗
  (∀ pg' rss', ⌜same_page pg pg'⌝ -∗ page_lists tag pg' (delete ptr live) rss' -∗ Q pg') -∗
  wp (recycle_into i (l <| l_lock := true |>) again ptr pg) Q.
Proof.
  iIntros (Htag Hi Hl Hunl Hlock Hptr) "(%us & %Hw & Hp & Hr) Hs Hk".
  iDestruct (big_sepL2_length with "Hr") as %Hlen.
  destruct (lookup_lt_is_Some_2 rss (Z.to_nat i)) as [rs Hrs]; [rewrite -Hlen; by eapply lookup_lt_Some|].
  destruct (waiting_push _ _ _ _ _ _ _ Hw Hptr Hrs) as [Hu Hw'].
  iDestruct (page_used_bounds with "Hp") as %Hb; [done|].
  iDestruct (big_sepL2_insert_acc _ _ _ _ l rs with "Hr") as "[Hl Hr]"; [done..|].
  iDestruct (list_head_bound _ _ _ _ _ _ _ _ Hw Hrs with "Hp Hl") as %Hh.
  replace (n - 16) with (16 + (n - 32)) by lia. iDestruct (space_split with "Hs") as "[Hlk Hs]"; [lia..|].
  iDestruct (space_links with "Hlk") as (v w) "[Hv Hn]".
  iApply (wp_store with "Hn"); [done|]. iIntros "Hn". iApply wp_bind. iApply (wp_used_size with "Hp"); [done|]. iIntros "Hp".
  iApply wp_bind. iApply wp_lift; [by eapply set_list_ok|]. iApply wp_bind.
  match goal with |- context [<[Z.to_nat i := ?x]> _] => set (l' := x) end.
  set (pg1 := pg <| p_recycle_pool := <[Z.to_nat i := l']> (p_recycle_pool pg) |>).
  iApply (wp_drain_locked tag (delete ptr live) again i pg1 (<[Z.to_nat i := (ptr, n) :: rs]> rss) with "[-Hk]"); [done..| |done| |].
  { apply list_lookup_insert_eq. by eapply lookup_lt_Some. }
  { iExists us. iSplit; [done|]. iSplitL "Hp"; [by iApply (page_inv_ext with "Hp")|].
    iApply ("Hr" $! l' ((ptr, n) :: rs)). iExists v, (l_head l). iFrame "Hv Hn Hl". iSplit; [done|].
    by replace (ptr + 16 + 16) with (ptr + 32) by lia. }
  iIntros (pg2 rss' [Hsame Hlen']) "H".
  assert (Hl2 : exists l2, p_recycle_pool pg2 !! Z.to_nat i = Some l2).
  { apply lookup_lt_is_Some_2. destruct Hsame as (_ & _ & _ & _ & Hm). apply (f_equal length) in Hm.
    rewrite !length_map /= length_insert in Hm. rewrite Hm. by eapply lookup_lt_Some. }
  destruct Hl2 as [l2 Hl2]. iApply lift_rd; [done..|]. iApply wp_lift; [by eapply set_list_ok|].
  iApply ("Hk" with "[] [H]"); [|by iApply page_lists_unlock].
  iPureIntro. destruct Hsame as (H1 & H2 & H3 & H4 & H5). split_and!; try done.
  change (l_lock <$> <[Z.to_nat i := l2 <| l_lock := false |>]> (p_recycle_pool pg2) = l_lock <$> p_recycle_pool pg).
  change (l_lock <$> p_recycle_pool pg2 = l_lock <$> <[Z.to_nat i := l']> (p_recycle_pool pg)) in H5.
  rewrite list_fmap_insert H5 list_fmap_insert list_insert_insert_eq. apply list_insert_id.
  by rewrite list_lookup_fmap Hl /= Hunl.
Qed.

Lemma wp_recycle tag live ptr n again Q :
  Z.land tag 1 = 1 -> live !! ptr = Some n -> forall held i pg rss,
  0 <= i < 3 -> no_locks pg ->
  page_lists tag pg live rss -∗ space (ptr + 16) (n - 16) -∗
  (∀ pg' rss', ⌜same_page pg pg'⌝ -∗ page_lists tag pg' (delete ptr live) rss' -∗ Q pg') -∗
  wp (recycle i held again ptr pg) Q.
Proof.
  intros Htag Hptr held. induction held as [|h held IH]; intros i pg rss Hi [Hlock Hlists]; iIntros "H Hs Hk".
  all: destruct (list_no_lock pg i Hlists Hi) as (l & Hl & Hunl); cbn [recycle]; iApply lift_rd; [done|lia|].
  all: unfold try_lock_list; cbn [head default from_option]; rewrite Hunl orb_false_r.
  - iApply (wp_recycle_into with "H Hs Hk"); [done|lia|done..].
  - destruct h; [|iApply (wp_recycle_into with "H Hs Hk"); [done|lia|done..]].
    iApply (IH with "H Hs Hk"); [|done]. change __max_recycle_pool with 3. apply Z.mod_pos_bound. lia.
Qed.

(** Flushing leaves no block waiting. *)
Lemma wp_flush_lists tag live Q :
  Z.land tag 1 = 1 -> forall n i pg rss, 0 <= i -> (Z.to_nat i + n <= length rss)%nat ->
  page_lists tag pg live rss -∗
  (∀ pg' rss', ⌜same_page pg pg'⌝ -∗ ⌜length rss' = length rss /\ take (Z.to_nat i) rss' = take (Z.to_nat i) rss /\
     Forall (fun rs => rs = []) (take n (drop (Z.to_nat i) rss'))⌝ -∗
     page_lists tag pg' live rss' -∗ Q pg') -∗
  wp (flush_lists n i pg) Q.
Proof.
  intros Htag. induction n as [|n IH]; intros i pg rss Hi Hlen; iIntros "H Hk"; cbn [flush_lists].
  - iApply wp_ret. iApply ("Hk" with "[] [] H"); iPureIntro; [done|]. by rewrite take_0.
  - destruct (lookup_lt_is_Some_2 rss (Z.to_nat i)) as [rs Hrs]; [lia|].
    iDestruct (drain_fuel_enough _ _ _ _ _ _ Hrs with "H") as %Hf. iApply wp_bind.
    iApply (wp_drain with "H"); [done..|]. iIntros (pg' Hsame) "H".
    iApply (IH with "H"); [lia|rewrite length_insert; lia|].
    iIntros (pg2 rss' Hsame' (Hl & Ht & Hall)) "H". iApply ("Hk" with "[] [] H"); iPureIntro; [by etrans|].
    rewrite length_insert in Hl. replace (Z.to_nat (i + 1)) with (S (Z.to_nat i)) in * by lia.
    assert (Hi' : rss' !! Z.to_nat i = Some []).
    { rewrite -(lookup_take_lt _ (S (Z.to_nat i))); [|lia]. rewrite Ht lookup_take_lt; [|lia].
      apply list_lookup_insert_eq. lia. }
    split_and!; [done| |].
    + apply (f_equal (take (Z.to_nat i))) in Ht. rewrite !take_take in Ht.
      replace (Z.to_nat i `min` S (Z.to_nat i))%nat with (Z.to_nat i) in Ht by lia. by rewrite Ht take_insert_ge.
    + rewrite (drop_S _ _ _ Hi'). cbn [take]. by apply Forall_cons.
Qed.

Lemma wp_flush_page tag live pg rss Q :
  Z.land tag 1 = 1 -> length rss = 3%nat ->
  page_lists tag pg live rss -∗
  (∀ pg', ⌜same_page pg pg'⌝ -∗ page_lists tag pg' live [[]; []; []] -∗ Q pg') -∗ wp (flush_page pg) Q.
Proof.
  iIntros (Htag Hl) "H Hk". iApply (wp_flush_lists with "H"); [done..|by rewrite Hl|].
  iIntros (pg' rss' Hsame (Hl' & _ & Hall)) "H". rewrite Hl in Hl'. destruct rss' as [|a [|b [|c [|]]]]; try done.
  cbn in Hall. apply Forall_cons in Hall as [-> [-> [-> _]%Forall_cons]%Forall_cons]. by iApply ("Hk" with "[] H").
Qed.
