(* ===== verification/XmallocHeap.v ===== *)
(** * The allocator as a heap

    The manager keeps every page of every pool well-formed; what its users see
    is a map from addresses to contents, and the address space that the operating
    system has left. *)

From iris.bi Require Import interface.
From iris.proofmode Require Import proofmode.
From stdpp Require Import fin_maps fin_map_dom.
From S2P Require Import Prelude Bytes Heaplet Xmalloc XmallocPage XmallocCut XmallocLists.
#[local] Open Scope Z_scope.

(** ** Mapping memory *)

Fixpoint free_space (n : nat) (a : Z) : heapProp :=
  match n with O => emp | S n => pointsto a None ∗ free_space n (a + 1) end%I.

Lemma free_space_lookup n a m : holds_at (free_space n a) m -> forall x, a <= x < a + Z.of_nat n -> m !! x = Some None.
Proof.
  revert a m. induction n as [|n IH]; intros a m H x Hx; [lia|].
  destruct H as (m1 & m2 & Hd & Hm & H1 & H2). eapply lookup_weaken; [|exact Hm].
  destruct (decide (x = a)) as [->|Hne]; [by apply lookup_union_Some_l|].
  apply lookup_union_Some_r; [done|]. apply (IH _ _ H2). lia.
Qed.

Lemma cells_lookup a n c x : cells a n c !! x = if decide (a <= x < a + n) then Some c else None.
Proof.
  unfold cells. case_decide as H.
  - apply lookup_map_seqZ_Some. split; [lia|]. apply lookup_replicate. split; [done|lia].
  - apply lookup_map_seqZ_None. rewrite length_replicate. lia.
Qed.

Lemma region_cells a n : holds_at (region a (replicate n 0)) (cells a (Z.of_nat n) (Some 0)).
Proof.
  revert a. induction n as [|n IH]; intros a; [done|]. cbn [replicate region].
  exists {[ a := Some 0 ]}, (cells (a + 1) (Z.of_nat n) (Some 0)). split_and!; [..|done].
  - apply map_disjoint_singleton_l. rewrite cells_lookup. case_decide; [lia|done].
  - apply map_subseteq_spec. intros x c [Hx|[Hne Hx]]%lookup_union_Some_raw.
    + apply lookup_singleton_Some in Hx as [<- <-]. rewrite cells_lookup. case_decide; [done|lia].
    + rewrite cells_lookup in Hx. rewrite cells_lookup. do 2 case_decide; done || lia.
  - apply lookup_singleton_eq.
Qed.

Lemma wp_mmap a n Q :
  0 <= n -> a <> __XAPI_MAP_FAILED -> free_space (Z.to_nat n) a -∗ (space a n -∗ Q a) -∗ wp (mmap a n) Q.
Proof.
  iIntros (Hn Ha) "H1 H2". iStopProof. split. intros m (m1 & m2 & Hd & Hm & H1 & H2) mF HdF.
  pose proof (free_space_lookup _ _ _ H1) as Hfree.
  assert (Hin : forall x, a <= x < a + n -> m1 !! x = Some None /\ m !! x = Some None).
  { intros x Hx. assert (m1 !! x = Some None) as Hx1 by (apply Hfree; lia). split; [done|].
    eapply lookup_weaken; [|exact Hm]. by apply lookup_union_Some_l. }
  assert (Hdm : cells a n (Some 0) ##ₘ m2).
  { apply map_disjoint_spec. intros x c c' Hx. rewrite cells_lookup in Hx. case_decide as Hax; [|done].
    destruct (Hin x Hax) as [Hx1 _]. rewrite map_disjoint_spec in Hd. by apply (Hd x None c'). }
  exists a, (cells a n (Some 0) ∪ m). split_and!.
  - unfold mmap. rewrite decide_False //. replace (unmapped (m ∪ mF) a n) with true; [by rewrite map_union_assoc|].
    symmetry. apply forallb_forall. intros x Hx%list_elem_of_In%elem_of_seqZ. apply bool_decide_true.
    apply lookup_union_Some_l, Hin. lia.
  - apply map_disjoint_union_l. split; [|done]. apply map_disjoint_spec. intros x c c' Hx. rewrite cells_lookup in Hx.
    case_decide as Hax; [|done]. destruct (Hin x Hax) as [_ Hx1]. rewrite map_disjoint_spec in HdF. by apply (HdF x None c').
  - eapply holds_mono; [|apply (H2 (cells a n (Some 0)))].
    + rewrite (map_union_comm m2); [|by apply symmetry]. apply map_union_mono_l. etrans; [|exact Hm]. by apply map_union_subseteq_r.
    + by apply symmetry.
    + exists (replicate (Z.to_nat n) 0). exists ∅, (cells a n (Some 0)). split_and!.
      * apply map_disjoint_empty_l.
      * by rewrite map_empty_union.
      * rewrite length_replicate. split; [lia|]. by apply Forall_replicate.
      * pose proof (region_cells a (Z.to_nat n)) as Hr. by rewrite Z2Nat.id in Hr.
Qed.

(** ** Numbers *)

Lemma inuse_flag_add k i : 0 <= i < 1024 -> 0 <= k -> inuse_flag k i = k * 2048 + i * 2 + 1.
Proof.
  intros Hi Hk. unfold inuse_flag. rewrite !Z.shiftl_mul_pow2 //. change (2 ^ 1) with 2.
  rewrite (lor_add_low k (i * 2) 11); [|lia..]. change (2 ^ 11) with 2048.
  replace (k * 2048 + i * 2) with ((k * 1024 + i) * 2 ^ 1) by lia. rewrite lor_add_low; lia.
Qed.

Lemma inuse_flag_ok k i :
  0 <= i < 1024 -> 0 <= k < 1024 ->
  let tag := inuse_flag k i in
  Z.land tag 1 = 1 /\ 0 <= tag < 2 ^ 64 /\ Z.land (Z.shiftr tag 11) 0x3FF = k /\ Z.land (Z.shiftr tag 1) 0x3FF = i.
Proof.
  intros Hi Hk tag. unfold tag. rewrite inuse_flag_add; [|lia..].
  change 0x3FF with (Z.ones 10). change 1 with (Z.ones 1) at 2. rewrite !Z.land_ones // !Z.shiftr_div_pow2 //.
  change (2 ^ 10) with 1024. change (2 ^ 1) with 2. change (2 ^ 11) with 2048.
  split_and!; Z.to_euclidean_division_equations; lia.
Qed.

(** Rounding up to a multiple of a power of two, as the code does it. *)
Lemma round_up x k :
  0 <= k <= 63 -> 0 <= x < 2 ^ 64 -> Z.land x (u64 (Z.lnot (2 ^ k - 1))) = 2 ^ k * (x / 2 ^ k).
Proof.
  intros Hk Hx. rewrite Z.mul_comm -Z.shiftr_div_pow2; [|lia]. rewrite -Z.shiftl_mul_pow2; [|lia].
  unfold u64. rewrite wrap_land // Z.sub_1_r -Z.ones_equiv. apply Z.bits_inj_iff'. intros i Hi.
  rewrite !Z.land_spec Z.lnot_spec // Z.testbit_ones_nonneg; [|lia..]. rewrite Z.testbit_ones_nonneg; [|lia..].
  rewrite Z.shiftl_spec //. destruct (decide (i < k)) as [H|H].
  - rewrite (Z.testbit_neg_r (Z.shiftr x k)); [|lia]. replace (i <? k) with true by lia. by rewrite andb_false_r.
  - rewrite Z.shiftr_spec; [|lia]. replace (i - k + k) with i by lia. replace (i <? k) with false by lia.
    destruct (decide (i < 64)).
    + replace (i <? 64) with true by lia. by rewrite !andb_true_r.
    + rewrite (bits_above 64); [done|done|lia].
Qed.

Lemma round_up_mod x k :
  0 <= k <= 63 -> 0 <= x -> x + (2 ^ k - 1) < 2 ^ 64 ->
  let y := Z.land (u64 (x + (2 ^ k - 1))) (u64 (Z.lnot (2 ^ k - 1))) in
  x <= y < x + 2 ^ k /\ y mod 2 ^ k = 0.
Proof.
  intros Hk Hx Hb y. assert (0 < 2 ^ k) by (apply Z.pow_pos_nonneg; lia).
  unfold y. rewrite u64_small; [|lia]. rewrite round_up; [|lia..]. rewrite Z.mul_comm Z_mod_mult.
  pose proof (Z.div_mod (x + (2 ^ k - 1)) (2 ^ k)) as Hd. pose proof (Z.mod_pos_bound (x + (2 ^ k - 1)) (2 ^ k)). lia.
Qed.

Lemma land_le x y : 0 <= y -> Z.land x y <= y.
Proof.
  intros Hy. assert (H : Z.ldiff (Z.land x y) y = 0).
  { apply Z.bits_inj_iff'. intros i _. rewrite Z.ldiff_spec Z.land_spec Z.bits_0. by destruct (Z.testbit x i), (Z.testbit y i). }
  apply Z.sub_nocarry_ldiff in H. assert (0 <= Z.ldiff y (Z.land x y)) by (apply Z.ldiff_nonneg; by left). lia.
Qed.

(** The size of the block for a request. *)
Lemma req2align_ok req :
  0 <= req < 2 ^ 63 ->
  let size := __req2align req in 32 <= size /\ size mod 8 = 0 /\ req <= size - 16 /\ size < req + 40.
Proof.
  intros Hr size. unfold size, __req2align. change __work_pointer_size with 16. change __free_pointer_size with 32.
  rewrite u64_small; [|lia]. case_decide; [split_and!; done || lia|].
  destruct (round_up_mod (req + 16) 3) as [H1 H2]; [lia..|]. change (2 ^ 3 - 1) with 7 in *. change (2 ^ 3) with 8 in *.
  change __align_mask with 7. lia.
Qed.

Definition page_bytes (page_size : Z) : Z :=
  Z.land (u64 (page_size + __free_pointer_size * 4 + (4096 - 1))) (u64 (Z.lnot (4096 - 1))).

Lemma page_bytes_ok n :
  0 <= n < 2 ^ 63 -> n + 128 <= page_bytes n < n + 128 + 4096 /\ page_bytes n mod 8 = 0.
Proof.
  intros Hn. unfold page_bytes. change (__free_pointer_size * 4) with 128.
  destruct (round_up_mod (n + 128) 12) as [H1 H2]; [lia..|]. change (2 ^ 12) with 4096 in *. split; [lia|].
  revert H2. generalize (Z.land (u64 (n + 128 + (4096 - 1))) (u64 (Z.lnot (4096 - 1)))). intros y Hy.
  Z.to_euclidean_division_equations. lia.
Qed.

(** ** Pages from the operating system *)

(** [a] is an address that [mmap] may answer for [n] bytes. *)
Definition good_answer (a n : Z) : Prop := 0 < a /\ a mod 8 = 0 /\ a + n < 2 ^ 64.

Lemma land_7 a : Z.land a 7 = a mod 8.
Proof. change 7 with (Z.ones 3). by rewrite Z.land_ones. Qed.

Lemma wp_malloc_page {B} pl pg page_size a os (k : bool * xmalloc_pool * xmalloc_page * list Z -> M B) Q :
  let n := page_bytes page_size in
  0 <= page_size < 2 ^ 63 -> 0 <= o_id pl < 1024 -> 0 <= p_id pg < 1024 -> good_answer a n ->
  free_space (Z.to_nat n) a -∗
  (∀ pg' x, ⌜p_lock pg' = p_lock pg /\ p_id pg' = p_id pg /\ p_recycle_pool pg' = replicate 3 empty_list⌝ -∗
     page_main (inuse_flag (o_id pl) (p_id pg)) pg' ∅ (n - 64) -∗
     wp (k (true, pl <| o_aligned_address := x |>, pg', os)) Q) -∗
  wp (malloc_page (4096 - 1) pl pg page_size (a :: os) ≫= k) Q.
Proof.
  intros n Hps Hk Hi (Ha0 & Ha8 & Hab). iIntros "Hf Hk". destruct (page_bytes_ok _ Hps) as [Hn Hn8]. fold n in Hn, Hn8.
  unfold malloc_page. fold (page_bytes page_size). fold n. iApply wp_bind. iApply wp_bind. cbn [map_aligned].
  assert (Hne : a <> __XAPI_MAP_FAILED) by (unfold __XAPI_MAP_FAILED; lia).
  iApply wp_bind. iApply (wp_mmap with "Hf"); [lia|done|]. iIntros "Hs".
  case_decide; [done|]. change __align_mask with 7. rewrite land_7 Ha8. case_decide as H7; [done|].
  iApply wp_ret. cbv beta iota zeta.
  destruct (inuse_flag_ok (o_id pl) (p_id pg)) as (_ & Htag & _); [done..|].
  iApply wp_bind. iApply (wp_format_page _ (pg <| p_size := n |> <| p_start_address := a |>) with "[Hs]");
    [done|done|done|change (96 <= n); lia|done|done|done|]. iIntros "Hp". iApply wp_ret.
  by iApply ("Hk" with "[] Hp").
Qed.

(** ** Blocks of one page *)

(** Page [i] of pool [k], with the blocks that its users have. *)
Definition page_any (k i : nat) (pg : xmalloc_page) (live : gmap Z Z) : heapProp :=
  (∃ rss, ⌜p_id pg = Z.of_nat i /\ no_locks pg⌝ ∗ page_lists (inuse_flag k i) pg live rss)%I.

Lemma wp_make_room tag pg us size Q :
  32 <= size < 2 ^ 63 ->
  page_inv tag pg us -∗
  ((page_inv tag pg us -∗ Q None) ∧
   (∀ p' m, ⌜size + 32 <= m⌝ -∗ page_main tag (pg <| p_ptr := p' |>) us m -∗ Q (Some (pg <| p_ptr := p' |>)))) -∗
  wp (make_room size pg) Q.
Proof.
  iIntros (Hs) "H Hk". iDestruct (page_main_intro with "H") as (m) "H". unfold make_room.
  change __free_pointer_size with 32. rewrite u64_small; [|lia].
  iApply (wp_main_size with "H"). iIntros "H". case_decide as Hm.
  - iDestruct (page_first_intro with "H") as (f n) "H". iApply (wp_first_size with "H"). iIntros "H".
    case_decide as Hn.
    + iDestruct "Hk" as "[_ Hk]". iApply wp_bind. iApply (wp_exchange with "H"); [lia|]. iIntros "H". iApply wp_ret.
      iApply ("Hk" with "[] H"). iPureIntro. lia.
    + iDestruct "Hk" as "[Hk _]". iApply wp_ret. iApply "Hk".
      iDestruct (page_first_elim with "H") as "H". iApply (page_main_elim with "H").
  - iDestruct "Hk" as "[_ Hk]". iApply wp_ret. assert (E : pg <| p_ptr := p_ptr pg |> = pg) by by destruct pg.
    iEval (rewrite -E). iApply ("Hk" $! _ m); [iPureIntro; lia|]. by rewrite E.
Qed.

Lemma waiting_insert us live rss p n :
  waiting us live rss -> us !! p = None -> live !! p = None /\ waiting (<[p := n]> us) (<[p := n]> live) rss.
Proof.
  intros H Hp. assert (Hl : live !! p = None).
  { destruct (live !! p) as [m|] eqn:E; [|done]. by rewrite (live_in_use _ _ _ _ _ H E) in Hp. }
  split; [done|]. unfold waiting in *. rewrite !map_to_list_insert // H. done.
Qed.

(** Cutting a block gives it to a user. *)
Lemma wp_cut_live tag pg us live rss m size Q :
  waiting us live rss -> 0 <= tag < 2 ^ 64 -> 32 <= size -> size mod 8 = 0 -> size + 32 <= m ->
  page_main tag pg us m -∗ ([∗ list] l; rs ∈ p_recycle_pool pg; rss, rlist (l_head l) rs) -∗
  (∀ p p', ⌜live !! p = None /\ 0 < p /\ p + size < 2 ^ 64 /\ p mod 8 = 0⌝ -∗ page_lists tag (pg <| p_ptr := p' |>) (<[p := size]> live) rss -∗
     space (p + 16) (size - 16) -∗ Q (p, pg <| p_ptr := p' |>)) -∗
  wp (cut tag size pg) Q.
Proof.
  iIntros (Hw Ht Hs1 Hs8 Hm) "H Hr Hk". iApply (wp_cut with "H"); [done..|]. iIntros ([Hnone Hal]) "H Hs".
  destruct (waiting_insert _ _ _ _ size Hw Hnone) as [Hl Hw'].
  iDestruct (page_used_bounds with "H") as %Hb; [apply lookup_insert_eq|].
  iApply ("Hk" with "[] [H Hr] Hs"); [iPureIntro; lia || (split; [done|lia])|].
  iExists _. iFrame "H Hr". done.
Qed.

(** ** The pages of a pool *)

Section SepL.
Context {A : Type}.
Implicit Types (Φ Ψ : nat -> A -> heapProp) (l : list A).

Definition others Φ l (i : nat) : heapProp := ([∗ list] j ↦ z ∈ l, if decide (j = i) then emp else Φ j z)%I.

Lemma sepL_take_out Φ l i x : l !! i = Some x -> ([∗ list] j ↦ z ∈ l, Φ j z) -∗ Φ i x ∗ others Φ l i.
Proof. iIntros (Hi) "H". by rewrite (big_sepL_delete _ _ i x). Qed.

Lemma sepL_put_back Φ Ψ l i x y :
  l !! i = Some x -> (forall j z, l !! j = Some z -> j <> i -> Φ j z ⊢ Ψ j z) ->
  others Φ l i -∗ Ψ i y -∗ [∗ list] j ↦ z ∈ <[i := y]> l, Ψ j z.
Proof.
  iIntros (Hi Heq) "H Hy". assert (i < length l)%nat by by eapply lookup_lt_Some.
  rewrite (big_sepL_delete _ (<[i := y]> l) i y) ?list_lookup_insert_eq //. iFrame "Hy".
  unfold others. iStopProof. rewrite -{1}(list_insert_id l i x) //.
  rewrite !insert_take_drop // !big_sepL_app !big_sepL_cons !length_take. replace (i `min` length l)%nat with i by lia.
  rewrite !Nat.add_0_r. iIntros "(H1 & H2 & H3)". iSplitL "H1"; [|iSplitL "H2"].
  - iApply (big_sepL_mono with "H1"). intros j z Hj. apply lookup_take_Some in Hj as [Hj Hlt].
    case_decide; [lia|]. by apply Heq.
  - by case_decide.
  - iApply (big_sepL_mono with "H3"). intros j z Hj. rewrite lookup_drop in Hj.
    case_decide; [lia|]. apply Heq; [|lia]. rewrite -Hj. f_equal. lia.
Qed.
End SepL.

Record pool_ok (k : nat) (pl : xmalloc_pool) : Prop := {
  pool_id : o_id pl = Z.of_nat k;
  pool_number : 0 <= o_page_number pl < 1024;
  pool_length : length (o_page pl) = 1025%nat;
  pool_fresh : forall i : nat, o_page_number pl <= Z.of_nat i < 1025 ->
    exists pg, o_page pl !! i = Some pg /\ p_lock pg = false /\ p_id pg = 0;
}.

Definition pool_inv (k : nat) (pl : xmalloc_pool) (L : nat -> gmap Z Z) : heapProp :=
  (⌜pool_ok k pl⌝ ∗ [∗ list] i ↦ pg ∈ take (Z.to_nat (o_page_number pl)) (o_page pl), page_any k i pg (L i))%I.

Definition upd {X} (i : nat) (x : X) (L : nat -> X) : nat -> X := fun j => if decide (j = i) then x else L j.

Lemma pool_page k pl (i : nat) :
  pool_ok k pl -> (i < 1025)%nat -> exists pg, get_page i pl = Some pg /\ o_page pl !! i = Some pg.
Proof.
  intros H Hi. destruct (lookup_lt_is_Some_2 (o_page pl) i) as [pg Hpg]; [rewrite (pool_length _ _ H); lia|].
  exists pg. split; [|done]. unfold get_page, rd. case_decide; [|lia]. by rewrite Nat2Z.id.
Qed.

Lemma pool_set_page k pl (i : nat) pg :
  pool_ok k pl -> (i < 1025)%nat -> set_page i pg pl = Some (pl <| o_page := <[i := pg]> (o_page pl) |>).
Proof.
  intros H Hi. unfold set_page, wr. rewrite (pool_length _ _ H). case_decide; [|lia]. by rewrite Nat2Z.id.
Qed.

Lemma pool_ok_set k pl (i : nat) pg :
  pool_ok k pl -> Z.of_nat i < o_page_number pl -> pool_ok k (pl <| o_page := <[i := pg]> (o_page pl) |>).
Proof.
  intros [H1 H2 H3 H4] Hi. split; try done.
  - cbn [o_page]. by rewrite length_insert.
  - intros j Hj. destruct (H4 j Hj) as (pg' & Hpg' & H). exists pg'. split; [|done].
    change (<[i := pg]> (o_page pl) !! j = Some pg'). rewrite list_lookup_insert_ne //. change (o_page_number (pl <| o_page := _ |>)) with (o_page_number pl) in Hj. lia.
Qed.

(** Taking a page of a pool, and putting it back. *)
Lemma pool_take k pl L (i : nat) :
  Z.of_nat i < o_page_number pl -> pool_inv k pl L -∗ ∃ pg,
  ⌜pool_ok k pl /\ o_page pl !! i = Some pg⌝ ∗ page_any k i pg (L i) ∗
  (∀ pg' m, page_any k i pg' m -∗ pool_inv k (pl <| o_page := <[i := pg']> (o_page pl) |>) (upd i m L)).
Proof.
  iIntros (Hi) "[%Hok H]". pose proof (pool_number _ _ Hok) as Hn.
  destruct (pool_page k pl i Hok) as (pg & _ & Hpg); [lia|]. iExists pg. iSplit; [done|].
  assert (Ht : take (Z.to_nat (o_page_number pl)) (o_page pl) !! i = Some pg) by (rewrite lookup_take_lt //; lia).
  iDestruct (sepL_take_out with "H") as "[$ H]"; [done|]. iIntros (pg' m) "Hp". iSplit; [iPureIntro; by apply pool_ok_set|].
  change (o_page_number (pl <| o_page := _ |>)) with (o_page_number pl).
  change (o_page (pl <| o_page := <[i := pg']> (o_page pl) |>)) with (<[i := pg']> (o_page pl)).
  rewrite take_insert_lt; [|lia]. iApply (sepL_put_back with "H [Hp]"); [done| |by unfold upd; case_decide].
  intros j z _ Hj. unfold upd. by case_decide.
Qed.

Lemma pool_inv_ok k pl L : pool_inv k pl L -∗ ⌜pool_ok k pl⌝.
Proof. by iIntros "[% _]". Qed.

Lemma pool_inv_ext k pl L L' : (forall i, L i = L' i) -> pool_inv k pl L -∗ pool_inv k pl L'.
Proof.
  iIntros (H) "[$ H]". iApply (big_sepL_mono with "H"). intros i pg _. by rewrite H.
Qed.

Lemma upd_id {X} (L : nat -> X) i : forall j, upd i (L i) L j = L j.
Proof. intros j. unfold upd. by case_decide; subst. Qed.

(** What [malloc] does to a pool that gives it a block: page [i] has it. *)
Definition pool_gave (k : nat) (pl : xmalloc_pool) (L : nat -> gmap Z Z) (size p : Z) (pl' : xmalloc_pool) : heapProp :=
  (∃ i, ⌜Z.of_nat i < o_page_number pl' /\ L i !! p = None /\ 0 < p /\ p + size < 2 ^ 64 /\ p mod 8 = 0⌝ ∗
     pool_inv k pl' (upd i (<[p := size]> (L i)) L) ∗ space (p + 16) (size - 16))%I.

Lemma unlock_locked pg : p_lock pg = false -> unlock_page (pg <| p_lock := true |>) = pg.
Proof. destruct pg. by intros [= ->]. Qed.

Lemma wp_scan (k : nat) pl L busy size Q :
  Z.of_nat k < 1024 -> 32 <= size < 2 ^ 63 -> size mod 8 = 0 -> forall n (i : nat),
  (i + n)%nat = Z.to_nat (o_page_number pl) ->
  pool_inv k pl L -∗
  ((pool_inv k pl L -∗ Q (None, pl)) ∧
   (∀ p pl', ⌜o_page_number pl' = o_page_number pl⌝ -∗ pool_gave k pl L size p pl' -∗ Q (Some p, pl'))) -∗
  wp (scan n (Z.of_nat i) busy size pl) Q.
Proof.
  intros Hk Hs Hs8. induction n as [|n IH]; intros i Hin; iIntros "H Hk"; cbn [scan].
  { iApply wp_ret. by iApply "Hk". }
  iDestruct (pool_take k pl L i with "H") as (pg) "([%Hok %Hpg] & Hp & H)"; [lia|].
  pose proof (pool_number _ _ Hok) as Hnum.
  assert (Hget : get_page i pl = Some pg).
  { destruct (pool_page k pl i Hok) as (pg' & Hg & Hpg'); [lia|]. congruence. }
  iApply wp_bind. iApply wp_lift; [done|]. iDestruct "Hp" as (rss) "([%Hid [%Hlock %Hlists]] & Hp)".
  assert (Hsame : pl <| o_page := <[i := pg]> (o_page pl) |> = pl) by (rewrite list_insert_id //; by destruct pl).
  unfold try_lock_page. rewrite Hlock orb_false_r. replace (Z.of_nat i + 1) with (Z.of_nat (S i)) by lia.
  destruct (busy (Z.of_nat i)).
  { iApply (IH with "[-Hk] Hk"); [lia|]. iDestruct ("H" $! pg (L i) with "[Hp]") as "H"; [iExists rss; by iFrame|].
    rewrite Hsame. iApply (pool_inv_ext with "H"). apply upd_id. }
  destruct (inuse_flag_ok k i) as (_ & Htag & _); [lia..|].
  iDestruct "Hp" as (us) "(%Hw & Hp & Hr)". iApply wp_bind.
  iDestruct (page_inv_ext _ _ (pg <| p_lock := true |>) with "Hp") as "Hp"; [done|].
  iApply (wp_make_room with "Hp"); [lia|]. iSplit.
  - iIntros "Hp". iDestruct (page_inv_ext _ _ pg with "Hp") as "Hp"; [done|].
    rewrite unlock_locked //.
    iApply wp_bind. iApply wp_lift; [eapply pool_set_page; [done|lia]|]. rewrite Hsame.
    iApply (IH with "[-Hk] Hk"); [lia|]. iDestruct ("H" $! pg (L i) with "[Hp Hr]") as "H".
    { iExists rss. iSplit; [done|]. iExists us. iFrame "Hp Hr". done. }
    rewrite Hsame. iApply (pool_inv_ext with "H"). apply upd_id.
  - iIntros (p' m Hm) "Hp". iApply wp_bind. rewrite (pool_id _ _ Hok).
    iApply (wp_cut_live with "Hp Hr"); [done|done|lia|done|done|]. iIntros (p p2 Hp) "Hp Hs".
    iApply wp_bind. iApply wp_lift; [eapply pool_set_page; [done|lia]|]. iApply wp_ret.
    iDestruct "Hk" as "[_ Hk]". iApply ("Hk" with "[] [-]"); [done|]. iExists i. iFrame "Hs". iSplit; [iPureIntro|].
    { change (o_page_number (pl <| o_page := _ |>)) with (o_page_number pl). lia || (split_and!; [lia|tauto..]). }
    iApply "H". iExists rss. iSplit; [done|]. by iApply (page_lists_ext with "Hp").
Qed.

(** A new page of the pool. *)
Lemma next_page_ok k pl busy (n fuel : nat) :
  pool_ok k pl -> n = Z.to_nat (o_page_number pl) -> o_page_number pl < 1023 -> busy (o_page_number pl) = false ->
  exists pg, p_lock pg = true /\ p_id pg = o_page_number pl /\
  next_page (S fuel) busy pl =
    Some (Some (o_page_number pl), pl <| o_page_number := o_page_number pl + 1 |> <| o_page := <[n := pg]> (o_page pl) |>).
Proof.
  intros Hok Hn Hlt Hb. pose proof (pool_number _ _ Hok) as Hnum.
  destruct (pool_fresh _ _ Hok n) as (pg & Hpg & Hlock & Hid); [lia|].
  exists (pg <| p_lock := true |> <| p_id := o_page_number pl |>). split; [done|]. split; [done|].
  cbn [next_page]. change __max_page_number with 1024. case_decide; [|lia].
  rewrite u64_small; [|lia].
  assert (Hget : get_page (o_page_number pl) (pl <| o_page_number := o_page_number pl + 1 |>) = Some pg).
  { unfold get_page, rd. case_decide; [|lia]. by rewrite -Hn. }
  rewrite Hget. cbn [mbind option_bind]. unfold try_lock_page. rewrite Hb Hlock. cbn [orb].
  change (p_id (pg <| p_lock := true |>)) with (p_id pg). rewrite Hid. case_decide; [|done].
  unfold set_page, wr. change (o_page (pl <| o_page_number := _ |>)) with (o_page pl). rewrite (pool_length _ _ Hok).
  case_decide; [|lia]. cbn [mbind option_bind]. by rewrite -Hn.
Qed.

Lemma pool_ok_new k pl pg pg' n x :
  pool_ok k pl -> o_page_number pl < 1023 -> n = Z.to_nat (o_page_number pl) ->
  pool_ok k (pl <| o_page_number := o_page_number pl + 1 |> <| o_page := <[n := pg]> (o_page pl) |>
                <| o_aligned_address := x |> <| o_page := <[n := pg']> (<[n := pg]> (o_page pl)) |>).
Proof.
  intros [H1 H2 H3 H4] Hlt Hn. split; try done.
  - cbn [o_page_number]. change (0 <= o_page_number pl + 1 < 1024). lia.
  - cbn [o_page]. by rewrite !length_insert.
  - intros j Hj. change (o_page_number pl + 1 <= Z.of_nat j < 1025) in Hj.
    destruct (H4 j) as (pg2 & Hpg & H); [lia|]. exists pg2. split; [|done].
    change (<[n := pg']> (<[n := pg]> (o_page pl)) !! j = Some pg2). rewrite !list_lookup_insert_ne //; lia.
Qed.

Lemma waiting_empty : waiting ∅ ∅ [[]; []; []].
Proof. unfold waiting. by rewrite map_to_list_empty. Qed.

Lemma empty_lists : ⊢ [∗ list] l; rs ∈ replicate 3 empty_list; [[]; []; []], rlist (l_head l) rs.
Proof. by iSplit; [|iSplit; [|iSplit]]. Qed.

Lemma wp_malloc_new_page (k : nat) pl L busy size page_size a os Q :
  let n := page_bytes (page_size + size) in
  Z.of_nat k < 1024 -> 32 <= size < 2 ^ 62 -> size mod 8 = 0 -> 0 <= page_size < 2 ^ 62 ->
  o_page_number pl < 1023 -> busy (o_page_number pl) = false -> good_answer a n ->
  L (Z.to_nat (o_page_number pl)) = ∅ ->
  pool_inv k pl L -∗ free_space (Z.to_nat n) a -∗
  (∀ p pl', ⌜o_page_number pl' = (o_page_number pl + 1)%Z⌝ -∗ pool_gave k pl L size p pl' -∗ Q ((p + 16)%Z, pl', os)) -∗
  wp (malloc_new_page busy size page_size (4096 - 1) pl (a :: os)) Q.
Proof.
  intros n Hk Hs Hs8 Hps Hlt Hbusy Ha HL. iIntros "[%Hok H] Hf Hk". pose proof (pool_number _ _ Hok) as Hnum.
  set (i := Z.to_nat (o_page_number pl)) in *.
  destruct (next_page_ok k pl busy i (Z.to_nat __max_page_number) Hok eq_refl Hlt Hbusy) as (pg & Hlock & Hid & Hnext).
  unfold malloc_new_page. iApply wp_bind. iApply wp_lift; [exact Hnext|]. cbv beta iota.
  set (pl1 := pl <| o_page_number := o_page_number pl + 1 |> <| o_page := <[i := pg]> (o_page pl) |>).
  change (o_page_number pl1) with (o_page_number pl + 1). change __max_page_number with 1024.
  case_decide; [lia|]. iApply wp_bind. iApply wp_lift; [done|]. iApply wp_bind. iApply wp_lift.
  { unfold get_page, rd. case_decide; [|lia]. apply list_lookup_insert_eq. rewrite (pool_length _ _ Hok). lia. }
  rewrite u64_small; [|lia].
  iApply (wp_malloc_page with "Hf"); [lia|rewrite /= (pool_id _ _ Hok); lia|lia|done|].
  iIntros (pg' x (Hlock' & Hid' & Hrec)) "Hp". cbv beta iota.
  rewrite (Hid' : p_id pg' = _). change (o_id (pl1 <| o_aligned_address := x |>)) with (o_id pl).
  change (o_id pl1) with (o_id pl). rewrite (pool_id _ _ Hok) Hid.
  assert (Hi : o_page_number pl = Z.of_nat i) by lia. rewrite Hi.
  destruct (inuse_flag_ok k i) as (_ & Htag & _); [lia..|]. destruct (page_bytes_ok (page_size + size)) as [Hn _]; [lia|].
  iApply wp_bind. iApply (wp_cut_live _ _ ∅ ∅ [[]; []; []] with "Hp [] [-]"); [apply waiting_empty|done|lia|done|lia| |].
  { rewrite Hrec. iApply empty_lists. }
  iIntros (p p' Hp) "Hp Hs".
  set (pg2 := unlock_page (pg' <| p_ptr := p' |>)).
  set (pl2 := pl1 <| o_aligned_address := x |> <| o_page := <[i := pg2]> (<[i := pg]> (o_page pl)) |>).
  assert (Hok2 : pool_ok k pl2) by by apply pool_ok_new.
  iApply wp_bind. iApply (wp_lift _ pl2).
  { unfold set_page, wr. change (o_page (pl1 <| o_aligned_address := x |>)) with (<[i := pg]> (o_page pl)).
    rewrite length_insert (pool_length _ _ Hok). case_decide; [|lia]. by rewrite Nat2Z.id. }
  iApply wp_ret. iApply "Hk"; [iPureIntro; change (o_page_number pl2) with (o_page_number pl + 1); lia|].
  iExists i. iFrame "Hs". iSplit; [iPureIntro|].
  { change (o_page_number pl2) with (o_page_number pl + 1). rewrite HL lookup_empty. split_and!; [lia|done|tauto..]. }
  iSplit; [done|]. change (o_page_number pl2) with (o_page_number pl + 1).
  change (o_page pl2) with (<[i := pg2]> (<[i := pg]> (o_page pl))). rewrite list_insert_insert_eq.
  replace (Z.to_nat (o_page_number pl + 1)) with (S i) by lia.
  rewrite (take_S_r _ _ pg2); [|apply list_lookup_insert_eq; rewrite (pool_length _ _ Hok); lia].
  rewrite take_insert_ge // big_sepL_snoc length_take (pool_length _ _ Hok).
  replace (i `min` 1025)%nat with i by lia. iSplitL "H".
  - iApply (big_sepL_mono with "H"). intros j z Hj. apply lookup_take_Some in Hj as [_ Hj]. unfold upd. by case_decide; [lia|].
  - iExists [[]; []; []]. iSplit; [iPureIntro|].
    + split; [change (p_id pg2) with (p_id pg'); lia|]. split; [done|]. unfold list_locks.
      change (p_recycle_pool pg2) with (p_recycle_pool pg'). by rewrite Hrec.
    + unfold upd. case_decide; [|done]. rewrite HL. by iApply (page_lists_ext with "Hp").
Qed.

(** ** Freeing in a page *)

(** The flag behind a block in use names its page. *)
Lemma wp_next_flag {B} tag pg us p n (k : Z -> M B) Q :
  us !! p = Some n -> page_inv tag pg us -∗ (page_inv tag pg us -∗ wp (k tag) Q) -∗
  wp (nx ← __next_pointer p; get_flag nx ≫= k) Q.
Proof.
  iIntros (Hp) "(%bs & %fs & %Hok & Ht & Hc) Hk".
  destruct (used_neighbours _ _ _ _ _ _ Hok Hp) as (pre & k0 & n0 & k1 & n1 & b2 & post & -> & Hptr & _).
  rewrite tiles_app tiles_cons -Hptr. iDestruct "Ht" as "(Hpre & Hf & Hs & Hb & Ht)".
  iApply (wp_next_pointer with "Hs"). iIntros "Hs". iDestruct (tiles_reflag with "Ht") as "[Hg Ht]".
  iApply (wp_load with "Hg"). iIntros "Hg". iDestruct ("Ht" with "Hg") as "Ht".
  iApply "Hk". iExists _, fs. iSplit; [done|]. iFrame "Hc".
  iApply tiles_app. iFrame "Hpre". rewrite -Hptr. iApply tiles_cons. iFrame.
Qed.

Lemma waiting_delete us live rss p n :
  waiting us live rss -> live !! p = Some n -> waiting (delete p us) (delete p live) rss.
Proof.
  intros H Hp. pose proof (live_in_use _ _ _ _ _ H Hp) as Hu. unfold waiting in *.
  rewrite -(map_to_list_delete us p n) // -(map_to_list_delete live p n) // in H. by apply Permutation_cons_inv in H.
Qed.

Lemma wp_free_in_page k i pg live p n busy held again Q :
  Z.of_nat i < 1024 -> Z.of_nat k < 1024 -> live !! p = Some n ->
  page_any k i pg live -∗ space (p + 16) (n - 16) -∗
  (∀ pg', page_any k i pg' (delete p live) -∗ Q pg') -∗
  wp (match try_lock_page busy pg with
      | Some pg => pg ← free_pointer p pg; mret (unlock_page pg)
      | None => recycle 0 held again p pg
      end) Q.
Proof.
  iIntros (Hi Hk Hp) "(%rss & [%Hid %Hno] & Hl) Hs Hk". destruct (inuse_flag_ok k i) as (Htag & _); [lia..|].
  unfold try_lock_page. pose proof Hno as [Hlock Hlists]. rewrite Hlock orb_false_r. destruct busy.
  - iApply (wp_recycle with "Hl Hs"); [done..|]. iIntros (pg' rss' Hsame) "Hl". iApply "Hk". iExists rss'. iFrame.
    iPureIntro. destruct Hsame as (H1 & H2 & _ & _ & H5). split; [by rewrite H2|]. split; [by rewrite H1|].
    unfold list_locks. by rewrite H5.
  - iDestruct "Hl" as (us) "(%Hw & Hp & Hr)". iApply wp_bind.
    iDestruct (page_inv_ext _ _ (pg <| p_lock := true |>) with "Hp") as "Hp"; [done|].
    iApply (wp_free_pointer with "Hp Hs"); [done|by eapply live_in_use|]. iIntros (p') "Hp". iApply wp_ret. iApply "Hk".
    iExists rss. iSplit; [done|]. iExists (delete p us). iSplit; [iPureIntro; by eapply waiting_delete|]. iFrame "Hr".
    by iApply (page_inv_ext with "Hp").
Qed.

(** ** The heap *)

(** A block: its contents, and where it is. *)
Abbreviation entry := (list Z * (nat * nat))%type.

Definition live_of (k i : nat) (m : gmap Z entry) : gmap Z Z :=
  omap (fun e : entry => if decide (e.2 = (k, i)) then Some (Z.of_nat (length e.1) + 16) else None) m.

Lemma live_of_Some k i m p e : m !! p = Some e -> e.2 = (k, i) -> live_of k i m !! p = Some (Z.of_nat (length e.1) + 16).
Proof. intros H E. unfold live_of. rewrite lookup_omap H. cbn. by case_decide. Qed.

Lemma live_of_insert k i m p bs :
  m !! p = None -> forall k' j,
  live_of k' j (<[p := (bs, (k, i))]> m) =
    if decide (k' = k /\ j = i) then <[p := Z.of_nat (length bs) + 16]> (live_of k' j m) else live_of k' j m.
Proof.
  intros Hp k' j. unfold live_of. case_decide as H.
  - destruct H as [-> ->]. apply omap_insert_Some. cbn. by case_decide.
  - rewrite omap_insert_None; [|cbn; case_decide as E; [injection E as -> ->; naive_solver|done]].
    apply delete_id. by rewrite lookup_omap Hp.
Qed.

Lemma live_of_delete k i m p bs :
  m !! p = Some (bs, (k, i)) -> forall k' j,
  live_of k' j (delete p m) = if decide (k' = k /\ j = i) then delete p (live_of k' j m) else live_of k' j m.
Proof.
  intros Hp k' j. unfold live_of. rewrite omap_delete. case_decide as H; [done|].
  apply delete_id. rewrite lookup_omap Hp. cbn. case_decide as E; [|done]. injection E as -> ->. naive_solver.
Qed.

Section Heap.
Context (page_size max : Z) (Hpage : 0 <= page_size < 2 ^ 61) (Hmax : 0 < max <= 1024).

Record manager_ok (mm : xmalloc) (m : gmap Z entry) : Prop := {
  mg_init : m_init mm = true;
  mg_number : m_pool_number mm = max;
  mg_page_size : m_page_size mm = page_size;
  mg_mask : m_page_aligned_mask mm = 4096 - 1;
  mg_length : length (m_pool mm) = Z.to_nat (max + 1);
  mg_where : forall p e, m !! p = Some e -> exists pl,
    m_pool mm !! e.2.1 = Some pl /\ Z.of_nat e.2.1 < max /\ Z.of_nat e.2.2 < o_page_number pl;
}.

Definition pools_inv (mm : xmalloc) (m : gmap Z entry) : heapProp :=
  ([∗ list] k ↦ pl ∈ take (Z.to_nat max) (m_pool mm), pool_inv k pl (fun i => live_of k i m))%I.

Definition contents (m : gmap Z entry) : heapProp :=
  ([∗ map] p ↦ e ∈ m, ⌜is_bytes e.1 /\ (16 <= length e.1)%nat⌝ ∗ region (p + 16) e.1)%I.

(** The manager, and the contents of the blocks. *)
Definition heap_inv (mm : xmalloc) (m : gmap Z entry) : heapProp :=
  (⌜manager_ok mm m⌝ ∗ pools_inv mm m ∗ contents m)%I.

Lemma pools_take mm m (k : nat) :
  manager_ok mm m -> Z.of_nat k < max -> pools_inv mm m -∗ ∃ pl,
  ⌜m_pool mm !! k = Some pl /\ rd (m_pool mm) k = Some pl⌝ ∗ pool_inv k pl (fun i => live_of k i m) ∗
  (∀ pl' m' mm', ⌜m_pool mm' = <[k := pl']> (m_pool mm)⌝ -∗ ⌜forall k' i, k' <> k -> live_of k' i m' = live_of k' i m⌝ -∗
     pool_inv k pl' (fun i => live_of k i m') -∗ pools_inv mm' m').
Proof using Hmax.
  iIntros (Hok Hk) "H". pose proof (mg_length _ _ Hok) as Hl.
  destruct (lookup_lt_is_Some_2 (m_pool mm) k) as [pl Hpl]; [lia|]. iExists pl. iSplit.
  { iPureIntro. split; [done|]. unfold rd. case_decide; [|lia]. by rewrite Nat2Z.id. }
  assert (Ht : take (Z.to_nat max) (m_pool mm) !! k = Some pl) by (rewrite lookup_take_lt //; lia).
  iDestruct (sepL_take_out with "H") as "[$ H]"; [done|]. iIntros (pl' m' mm' Hmm' Hm') "Hp".
  unfold pools_inv. rewrite Hmm' take_insert_lt; [|lia]. iApply (sepL_put_back with "H Hp"); [done|].
  intros j z _ Hj. iIntros "H". iApply (pool_inv_ext with "H"). intros i. by rewrite Hm'.
Qed.

Lemma set_pool_ok mm m (k : nat) pl :
  manager_ok mm m -> Z.of_nat k < max -> set_pool k pl mm = Some (mm <| m_pool := <[k := pl]> (m_pool mm) |>).
Proof using Hmax.
  intros Hok Hk. unfold set_pool, wr. rewrite (mg_length _ _ Hok). case_decide; [|lia]. by rewrite Nat2Z.id.
Qed.

Lemma manager_ok_set mm m m' (k : nat) pl pl' :
  manager_ok mm m -> m_pool mm !! k = Some pl -> o_page_number pl <= o_page_number pl' ->
  (forall p e, m' !! p = Some e -> m !! p = Some e \/ (e.2.1 = k /\ Z.of_nat k < max /\ Z.of_nat e.2.2 < o_page_number pl')) ->
  forall mm', m_init mm' = true -> m_pool_number mm' = m_pool_number mm -> m_page_size mm' = m_page_size mm ->
  m_page_aligned_mask mm' = m_page_aligned_mask mm -> m_pool mm' = <[k := pl']> (m_pool mm) -> manager_ok mm' m'.
Proof.
  intros [H1 H2 H3 H4 H5 H6] Hk Hle Hm' mm' E1 E2 E3 E4 E5. split; try congruence.
  - by rewrite E5 length_insert.
  - intros p e He. rewrite E5. destruct (Hm' p e He) as [He'|(-> & Hk' & Hi)].
    + destruct (H6 p e He') as (pl2 & Hpl2 & Hlt & Hi). destruct (decide (e.2.1 = k)) as [Ek|Hne].
      * rewrite Ek. exists pl'. rewrite list_lookup_insert_eq; [|by eapply lookup_lt_Some].
        rewrite Ek Hk in Hpl2. injection Hpl2 as <-. split_and!; [done|by rewrite -Ek|lia].
      * exists pl2. by rewrite list_lookup_insert_ne.
    + exists pl'. rewrite list_lookup_insert_eq; [done|]. by eapply lookup_lt_Some.
Qed.

(** A block that is given out is not one that somebody has. *)
Lemma contents_fresh m p n : 16 <= n -> contents m -∗ space (p + 16) n -∗ ⌜m !! p = None⌝.
Proof.
  unfold space. iIntros (Hn) "Hc (%bs & [%Hl %Hb] & Hr)". destruct (m !! p) as [e|] eqn:He; [|done].
  unfold contents. rewrite big_sepM_delete //. iDestruct "Hc" as "[[[%Hb' %Hl'] Hr'] _]".
  destruct bs as [|b bs]; [cbn in Hl; lia|]. destruct e as [[|b' bs'] ?]; [cbn in Hl'; lia|]. cbn [fst region].
  iDestruct "Hr" as "[H1 _]". iDestruct "Hr'" as "[H2 _]". iDestruct (pointsto_excl with "[$H1 $H2]") as %[].
Qed.

Lemma contents_insert m p bs loc :
  m !! p = None -> is_bytes bs -> (16 <= length bs)%nat ->
  contents m -∗ region (p + 16) bs -∗ contents (<[p := (bs, loc)]> m).
Proof.
  iIntros (Hp Hb Hl) "Hc Hr". unfold contents. rewrite big_sepM_insert //. iFrame. done.
Qed.

(** The pools still have room for a page, and no other thread is opening one. *)
Definition ready (busy : Z -> bool) (mm : xmalloc) : Prop :=
  forall (k : nat) pl, Z.of_nat k < max -> m_pool mm !! k = Some pl ->
  o_page_number pl < 1023 /\ busy (o_page_number pl) = false.

(** How many pages the pools have got. *)
Definition grown (n : Z) (mm mm' : xmalloc) : Prop :=
  forall (k : nat) pl', m_pool mm' !! k = Some pl' ->
  exists pl, m_pool mm !! k = Some pl /\ o_page_number pl' <= o_page_number pl + n.

Lemma grown_set n mm mm' (k : nat) pl pl' :
  m_pool mm !! k = Some pl -> m_pool mm' = <[k := pl']> (m_pool mm) -> o_page_number pl' <= o_page_number pl + n ->
  0 <= n -> grown n mm mm'.
Proof.
  intros Hk E Hle Hn j plj. rewrite E. intros [(<- & <- & _)|[_ Hj]]%list_lookup_insert_Some; [by exists pl|].
  exists plj. split; [done|lia].
Qed.

(** The heap with one block more. *)
Lemma heap_gave mm m (k : nat) pl pl' size p mm' :
  manager_ok mm m -> Z.of_nat k < max -> m_pool mm !! k = Some pl -> o_page_number pl <= o_page_number pl' -> 32 <= size ->
  m_init mm' = true -> m_pool_number mm' = m_pool_number mm -> m_page_size mm' = m_page_size mm ->
  m_page_aligned_mask mm' = m_page_aligned_mask mm -> m_pool mm' = <[k := pl']> (m_pool mm) ->
  pool_gave k pl (fun i => live_of k i m) size p pl' -∗ contents m -∗
  (∀ m', ⌜forall k' i, k' <> k -> live_of k' i m' = live_of k' i m⌝ -∗
     pool_inv k pl' (fun i => live_of k i m') -∗ pools_inv mm' m') -∗
  ∃ bs loc, ⌜m !! p = None /\ is_bytes bs /\ Z.of_nat (length bs) = size - 16 /\ 0 < p /\ p mod 8 = 0⌝ ∗
    heap_inv mm' (<[p := (bs, loc)]> m).
Proof using Hmax Hpage.
  iIntros (Hok Hk Hpl Hle Hs E1 E2 E3 E4 E5) "(%i & (%Hi & %Hnone & %Hp & %Hb & %Hal) & Hpl & Hs) Hc Hput".
  iDestruct (contents_fresh with "Hc Hs") as %Hfresh; [lia|]. unfold space. iDestruct "Hs" as (bs) "[[%Hl %Hbs] Hr]".
  iExists bs, (k, i). iSplit; [done|]. iSplit.
  { iPureIntro. eapply manager_ok_set; try done. intros q e [[<- <-]|[_ He]]%lookup_insert_Some; [right|by left]. done. }
  iSplitR "Hc Hr"; [|iApply (contents_insert with "Hc Hr"); [done|done|lia]].
  iApply "Hput".
  - iPureIntro. intros k' j Hne. rewrite live_of_insert //. case_decide; [tauto|done].
  - iApply (pool_inv_ext with "Hpl"). intros j. unfold upd. rewrite live_of_insert //.
    case_decide; case_decide; try (tauto || done). subst j. f_equal. lia.
Qed.

Lemma no_blocks mm m (k : nat) pl :
  manager_ok mm m -> Z.of_nat k < max -> m_pool mm !! k = Some pl -> 0 <= o_page_number pl ->
  live_of k (Z.to_nat (o_page_number pl)) m = ∅.
Proof.
  intros Hok Hk Hpl Hn. apply map_empty. intros p. unfold live_of. rewrite lookup_omap.
  destruct (m !! p) as [e|] eqn:He; [|done]. cbn. case_decide as E; [|done].
  destruct (mg_where _ _ Hok p e He) as (pl' & Hpl' & _ & Hlt). rewrite E in Hpl', Hlt. cbn [fst snd] in *.
  rewrite Hpl in Hpl'. injection Hpl' as <-. lia.
Qed.

Lemma wp_malloc mm m req busy a os Q :
  let n := page_bytes (page_size + __req2align req) in
  0 <= req < 2 ^ 61 -> good_answer a n -> ready busy mm ->
  heap_inv mm m -∗ free_space (Z.to_nat n) a -∗
  (∀ p bs loc mm' os',
     ⌜m !! p = None /\ is_bytes bs /\ Z.of_nat (length bs) = __req2align req - 16 /\ 0 < p /\ p mod 8 = 0⌝ -∗
     heap_inv mm' (<[p := (bs, loc)]> m) -∗ (⌜os' = a :: os /\ grown 0 mm mm'⌝ ∗ free_space (Z.to_nat n) a ∨ ⌜os' = os /\ grown 1 mm mm'⌝) -∗
     Q (__pointer2address p, mm', os')) -∗
  wp (malloc page_size max (a :: os) busy req mm) Q.
Proof using Hmax Hpage.
  intros n Hreq Ha Hready. iIntros "(%Hok & Hpools & Hc) Hf Hk".
  destruct (req2align_ok req) as (Hs1 & Hs2 & Hs3 & Hs4); [lia|]. set (size := __req2align req) in *.
  unfold malloc. rewrite (mg_init _ _ Hok). iApply wp_bind. iApply wp_ret. cbv beta iota.
  set (mm1 := mm <| m_pool_index := u64 (m_pool_index mm + 1) |>).
  assert (Hk : exists k : nat, Z.land (m_pool_index mm1) (max - 1) = Z.of_nat k /\ Z.of_nat k < max).
  { exists (Z.to_nat (Z.land (m_pool_index mm1) (max - 1))).
    assert (0 <= Z.land (m_pool_index mm1) (max - 1)) by (apply Z.land_nonneg; lia).
    assert (Z.land (m_pool_index mm1) (max - 1) <= max - 1) by (apply land_le; lia). lia. }
  destruct Hk as (k & -> & Hk).
  iDestruct (pools_take _ _ k with "Hpools") as (pl) "([%Hpl %Hrd] & Hpl & Hput)"; [done|done|].
  destruct (Hready k pl Hk Hpl) as [Hroom Hbusy].
  iApply wp_bind. iApply wp_lift; [exact Hrd|]. iApply wp_bind. fold size.
  iApply (wp_scan k pl _ busy size _ ltac:(lia) ltac:(lia) Hs2 (Z.to_nat (o_page_number pl)) 0 eq_refl with "Hpl").
  assert (Hset : forall pl', set_pool k pl' mm1 = Some (mm1 <| m_pool := <[k := pl']> (m_pool mm) |>)).
  { intros pl'. unfold set_pool, wr. change (m_pool mm1) with (m_pool mm). rewrite (mg_length _ _ Hok).
    case_decide; [|lia]. by rewrite Nat2Z.id. }
  iSplit.
  - iIntros "Hpl". iDestruct (pool_inv_ok with "Hpl") as %Hpo. destruct (pool_number _ _ Hpo) as [Hn0 _].
    iApply wp_bind. change (m_page_size mm1) with (m_page_size mm).
    change (m_page_aligned_mask mm1) with (m_page_aligned_mask mm). rewrite (mg_page_size _ _ Hok) (mg_mask _ _ Hok).
    iApply (wp_malloc_new_page with "Hpl Hf"); [lia|lia|done|lia|done|done|done| |].
    { apply (no_blocks mm); done. }
    iIntros (p pl' Hn') "Hgave". iApply wp_bind. iApply wp_lift; [apply Hset|]. iApply wp_ret.
    iDestruct (heap_gave _ _ _ _ _ _ _ (mm1 <| m_pool := <[k := pl']> (m_pool mm) |>) with "Hgave Hc [Hput]") as (bs loc) "[%H Hinv]";
      [exact Hok|exact Hk|exact Hpl|lia|lia|exact (mg_init _ _ Hok)|done..| |].
    { iIntros (m' Hm') "Hp". by iApply ("Hput" with "[] [] Hp"). }
    iApply ("Hk" with "[//] Hinv"). iRight. iPureIntro. split; [done|]. eapply grown_set; [exact Hpl|done|lia|lia].
  - iIntros (p pl' Hn') "Hgave". iApply wp_bind. iApply wp_lift; [apply Hset|]. iApply wp_ret.
    iDestruct (heap_gave _ _ _ _ _ _ _ (mm1 <| m_pool := <[k := pl']> (m_pool mm) |>) with "Hgave Hc [Hput]") as (bs loc) "[%H Hinv]";
      [exact Hok|exact Hk|exact Hpl|lia|lia|exact (mg_init _ _ Hok)|done..| |].
    { iIntros (m' Hm') "Hp". by iApply ("Hput" with "[] [] Hp"). }
    iApply ("Hk" with "[//] Hinv"). iLeft. iFrame. iPureIntro. split; [done|]. eapply grown_set; [exact Hpl|done|lia|lia].
Qed.

(** Freeing a block takes it out of the heap. *)
Lemma contents_delete m p e :
  m !! p = Some e -> contents m -∗ space (p + 16) (Z.of_nat (length e.1)) ∗ contents (delete p m).
Proof.
  iIntros (Hp) "Hc". unfold contents. rewrite big_sepM_delete //. iDestruct "Hc" as "[[[%Hb %Hl] Hr] $]".
  unfold space. iExists e.1. by iFrame.
Qed.

Lemma heap_freed mm m (k i : nat) pl pl' p bs mm' :
  manager_ok mm m -> m !! p = Some (bs, (k, i)) -> Z.of_nat k < max -> m_pool mm !! k = Some pl ->
  o_page_number pl' = o_page_number pl -> mm' = mm <| m_pool := <[k := pl']> (m_pool mm) |> ->
  pool_inv k pl' (upd i (delete p (live_of k i m)) (fun i => live_of k i m)) -∗
  (∀ m', ⌜forall k' i, k' <> k -> live_of k' i m' = live_of k' i m⌝ -∗
     pool_inv k pl' (fun i => live_of k i m') -∗ pools_inv mm' m') -∗
  contents (delete p m) -∗ heap_inv mm' (delete p m).
Proof.
  iIntros (Hok Hp Hk Hpl Hn ->) "Hpl Hput Hc". iSplit; [iPureIntro|].
  { eapply manager_ok_set; [exact Hok|exact Hpl|apply Z.eq_le_incl; exact (eq_sym Hn)| |exact (mg_init _ _ Hok)|done..].
    intros q e [_ He]%lookup_delete_Some. by left. }
  iFrame "Hc". iApply "Hput".
  - iPureIntro. intros k' j Hne. rewrite (live_of_delete k i m p bs Hp). case_decide; [tauto|done].
  - iApply (pool_inv_ext with "Hpl"). intros j. unfold upd. rewrite (live_of_delete k i m p bs Hp).
    case_decide; case_decide; try (tauto || done). by subst j.
Qed.

Lemma wp_free mm m p e busy held again Q :
  m !! p = Some e ->
  heap_inv mm m -∗ (∀ mm', ⌜grown 0 mm mm'⌝ -∗ heap_inv mm' (delete p m) -∗ Q mm') -∗
  wp (free busy held again (__pointer2address p) mm) Q.
Proof using Hmax Hpage.
  destruct e as [bs [k i]]. iIntros (Hp) "(%Hok & Hpools & Hc) Hk".
  destruct (mg_where _ _ Hok _ _ Hp) as (pl & Hpl & Hkm & Him). cbn [fst snd] in *.
  iDestruct (pools_take _ _ k with "Hpools") as (pl2) "([%Hpl2 %Hrd] & Hpl & Hput)"; [done|done|].
  rewrite Hpl in Hpl2. injection Hpl2 as <-.
  iDestruct (pool_take k pl _ i with "Hpl") as (pg) "([%Hpo %Hpg] & Hp & Hpl)"; [done|].
  pose proof (pool_number _ _ Hpo) as Hnum. destruct (inuse_flag_ok k i) as (_ & _ & Hdk & Hdi); [lia..|].
  pose proof (live_of_Some k i m p _ Hp eq_refl) as Hlive. cbn [fst] in Hlive.
  iDestruct "Hp" as (rss) "(%Hpok & (%us & %Hw & Hp & Hr))". pose proof (live_in_use _ _ _ _ _ Hw Hlive) as Hu.
  iDestruct (page_used_bounds with "Hp") as %Hb; [done|].
  unfold free, __pointer2address, __address2pointer. change __work_pointer_size with 16.
  case_decide; [lia|]. replace (p + 16 - 16) with p by lia.
  iApply (wp_next_flag with "Hp"); [done|]. iIntros "Hp". rewrite Hdk. iApply wp_bind. iApply wp_lift; [exact Hrd|].
  iApply (wp_next_flag with "Hp"); [done|]. iIntros "Hp". rewrite Hdi.
  destruct (pool_page k pl i Hpo) as (pg' & Hget & Hpg'); [lia|]. rewrite Hpg in Hpg'. injection Hpg' as <-.
  iApply wp_bind. iApply wp_lift; [exact Hget|].
  iDestruct (contents_delete with "Hc") as "[Hs Hc]"; [done|]. cbn [fst].
  iApply wp_bind. iApply (wp_free_in_page k i _ _ p _ with "[Hp Hr] [Hs]"); [lia|lia|exact Hlive| | |].
  { iExists rss. iSplit; [done|]. iExists us. iFrame "Hp Hr". done. }
  { by replace (Z.of_nat (length bs) + 16 - 16) with (Z.of_nat (length bs)) by lia. }
  iIntros (pg') "Hp". iApply wp_bind. iApply wp_lift; [eapply pool_set_page; [done|lia]|].
  iApply wp_lift; [by apply (set_pool_ok _ m)|]. iApply "Hk".
  { iPureIntro. eapply grown_set; [exact Hpl|done|cbn; lia|lia]. }
  iDestruct ("Hpl" with "Hp") as "Hpl". iApply (heap_freed with "Hpl [Hput] Hc"); [done..|].
  iIntros (m' Hm') "Hp". by iApply ("Hput" with "[] [] Hp").
Qed.
End Heap.
