(* ===== verification/XmallocStart.v ===== *)
(** * The first call of the allocator

    The first request makes the pools and two pages in each of them. *)

From iris.bi Require Import interface.
From iris.proofmode Require Import proofmode.
From stdpp Require Import fin_maps fin_map_dom.
From S2P Require Import Prelude Bytes Heaplet Xmalloc XmallocPage XmallocCut XmallocLists XmallocHeap.
#[local] Open Scope Z_scope.

Lemma pool_inv_add k pl L pg x :
  let i := Z.to_nat (o_page_number pl) in
  o_page_number pl < 1023 -> pool_inv k pl L -∗ page_any k i pg (L i) -∗
  pool_inv k (pl <| o_page_number := o_page_number pl + 1 |> <| o_aligned_address := x |>
                 <| o_page := <[i := pg]> (o_page pl) |>) L.
Proof.
  intros i Hlt. iIntros "[%Hok H] Hp". pose proof (pool_number _ _ Hok) as Hn.
  destruct (pool_page k pl i Hok) as (pg0 & _ & Hpg0); [lia|]. iSplit; [iPureIntro|].
  { pose proof (pool_ok_new k pl pg0 pg i x Hok Hlt eq_refl) as H. rewrite (list_insert_id (o_page pl) i pg0 Hpg0) in H. exact H. }
  change (o_page_number (pl <| o_page_number := _ |> <| o_aligned_address := _ |> <| o_page := _ |>)) with (o_page_number pl + 1).
  change (o_page (pl <| o_page_number := _ |> <| o_aligned_address := _ |> <| o_page := <[i := pg]> (o_page pl) |>))
    with (<[i := pg]> (o_page pl)).
  replace (Z.to_nat (o_page_number pl + 1)) with (S i) by lia.
  rewrite (take_S_r _ _ pg); [|apply list_lookup_insert_eq; rewrite (pool_length _ _ Hok); lia].
  rewrite take_insert_ge // big_sepL_snoc length_take (pool_length _ _ Hok).
  replace (i `min` 1025)%nat with i by lia. iFrame.
Qed.

Section Start.
Context (page_size max : Z) (Hpage : 0 <= page_size < 2 ^ 61) (Hmax : 0 < max <= 1024).

Definition first_pages (os : list Z) : heapProp :=
  (⌜Forall (fun a => good_answer a (page_bytes page_size)) os⌝ ∗
   [∗ list] a ∈ os, free_space (Z.to_nat (page_bytes page_size)) a)%I.

Lemma new_page_any (k i : nat) pg m :
  p_lock pg = false -> p_id pg = Z.of_nat i -> p_recycle_pool pg = replicate 3 empty_list ->
  page_main (inuse_flag k i) pg ∅ m -∗ page_any k i pg ∅.
Proof.
  iIntros (Hl Hid Hr) "Hp". iExists [[]; []; []]. iSplit.
  { iPureIntro. split; [done|]. split; [done|]. unfold list_locks. by rewrite Hr. }
  iExists ∅. iSplit; [iPureIntro; apply waiting_empty|]. rewrite Hr. iSplitL; [|iApply empty_lists].
  by iApply page_main_elim.
Qed.

Lemma wp_preload_pages (k : nat) n : forall pl os rest Q,
  Z.of_nat k < 1024 -> length os = n -> o_page_number pl + Z.of_nat n <= 1023 ->
  first_pages os -∗ pool_inv k pl (fun _ => ∅) -∗
  (∀ pl', ⌜o_page_number pl' = (o_page_number pl + Z.of_nat n)%Z⌝ -∗ pool_inv k pl' (fun _ => ∅) -∗ Q (true, pl', rest)) -∗
  wp (preload_pages n (o_page_number pl) (4096 - 1) page_size pl (os ++ rest)) Q.
Proof using Hpage.
  induction n as [|n IH]; intros pl os rest Q Hk Hl Hle; cbn [preload_pages].
  - destruct os; [|done]. iIntros "_ Hp Hk". iApply wp_ret. iApply ("Hk" with "[%] Hp"). lia.
  - destruct os as [|a os]; [done|]. iIntros "[%Hos [Ha Hf]] Hp Hk". apply Forall_cons in Hos as [Hgood Hos].
    iDestruct (pool_inv_ok with "Hp") as %Hok. pose proof (pool_number _ _ Hok) as Hn.
    set (i := Z.to_nat (o_page_number pl)). assert (Ei : o_page_number pl = Z.of_nat i) by lia.
    destruct (pool_fresh _ _ Hok i) as (pg & Hpg & Hlock & Hid); [lia|].
    iApply wp_bind. iApply (wp_lift _ pg).
    { unfold get_page, rd. case_decide; [|lia]. exact Hpg. }
    rewrite u64_small; [|lia]. cbn [app].
    iApply (wp_malloc_page with "Ha"); [lia|rewrite /= (pool_id _ _ Hok); lia|cbn; lia|done|].
    iIntros (pg' x (Hlock' & Hid' & Hrec)) "Hpg". cbv beta iota.
    iApply wp_bind. iApply wp_lift.
    { unfold set_page, wr. change (o_page (pl <| o_page_number := _ |> <| o_aligned_address := _ |>)) with (o_page pl).
      rewrite (pool_length _ _ Hok). case_decide; [|lia]. reflexivity. }
    iDestruct (pool_inv_add _ _ _ pg' x with "Hp [Hpg]") as "Hp"; [lia| |].
    { change (o_id (pl <| o_page_number := _ |>)) with (o_id pl). change (p_id (pg <| p_id := _ |>)) with (o_page_number pl) in Hid' |- *.
      rewrite (pool_id _ _ Hok). fold i. rewrite Ei.
      iApply (new_page_any with "Hpg"); [by rewrite Hlock'|by rewrite Hid'|done]. }
    fold i. set (pl' := pl <| o_page_number := o_page_number pl + 1 |> <| o_aligned_address := x |> <| o_page := <[i:=pg']> (o_page pl) |>).
    cbv iota. iApply (IH pl' os rest with "[Hf] Hp"); [done|by injection Hl|cbn; lia|by iFrame|].
    iIntros (pl2 Hn2) "Hp". iApply ("Hk" with "[%] Hp"). cbn in Hn2. lia.
Qed.

Lemma no_pool_inv (k : nat) : ⊢ pool_inv k (no_pool <| o_id := Z.of_nat k |>) (fun _ => ∅).
Proof.
  iSplit; [iPureIntro|by change (Z.to_nat (o_page_number (no_pool <| o_id := Z.of_nat k |>))) with O]. split; [done|done| |].
  - change (o_page (no_pool <| o_id := _ |>)) with (replicate (Z.to_nat (__max_page_number + 1)) no_page). by rewrite length_replicate.
  - intros i Hi. exists no_page. split; [|done].
    change (o_page (no_pool <| o_id := _ |>)) with (replicate (Z.to_nat (__max_page_number + 1)) no_page).
    apply lookup_replicate. split; [done|]. unfold __max_page_number. lia.
Qed.

(** The first [j] pools have been made. *)
Record making (j : nat) (mm : xmalloc) : Prop := {
  mk_number : m_pool_number mm = Z.of_nat j;
  mk_page_size : m_page_size mm = page_size;
  mk_mask : m_page_aligned_mask mm = 4096 - 1;
  mk_preloading : m_preloading_page mm = 2;
  mk_length : length (m_pool mm) = Z.to_nat (max + 1);
  mk_rest : forall k : nat, (j <= k)%nat -> Z.of_nat k <= max -> m_pool mm !! k = Some no_pool;
  mk_pages : forall (k : nat) pl, (k < j)%nat -> m_pool mm !! k = Some pl -> o_page_number pl = 2;
}.

Definition made (j : nat) (mm : xmalloc) : heapProp :=
  (⌜making j mm⌝ ∗ [∗ list] k ↦ pl ∈ take j (m_pool mm), pool_inv k pl (fun _ => ∅))%I.

Lemma made_next j mm pl :
  Z.of_nat j < max -> o_page_number pl = 2 -> made j mm -∗ pool_inv j pl (fun _ => ∅) -∗
  made (S j) (mm <| m_pool := <[j := pl]> (m_pool mm) |> <| m_pool_number := Z.of_nat j + 1 |>).
Proof.
  iIntros (Hj Hpl) "[%Hok H] Hp". destruct Hok as [H1 H2 H3 H4 H5 H6 H7].
  assert (Hlt : (j < length (m_pool mm))%nat) by lia. iSplit; [iPureIntro; split; try done|].
  - cbn. lia.
  - cbn. by rewrite length_insert.
  - intros k Hk Hkm. cbn. rewrite list_lookup_insert_ne; [|lia]. apply H6; lia.
  - intros k pl' Hk. cbn. intros [(-> & <- & _)|[Hne Hpl']]%list_lookup_insert_Some; [done|]. eapply H7; [|exact Hpl']. lia.
  - change (m_pool (mm <| m_pool := <[j := pl]> (m_pool mm) |> <| m_pool_number := _ |>)) with (<[j := pl]> (m_pool mm)).
    rewrite (take_S_r _ _ pl); [|by apply list_lookup_insert_eq].
    rewrite take_insert_ge // big_sepL_snoc length_take. replace (j `min` length (m_pool mm))%nat with j by lia. iFrame.
Qed.

Lemma wp_make_pools n : forall (j : nat) mm os rest Q,
  (j + n)%nat = Z.to_nat max -> length os = (2 * n)%nat ->
  first_pages os -∗ made j mm -∗ (∀ mm', made (Z.to_nat max) mm' -∗ Q (true, mm', rest)) -∗
  wp (make_pools n mm (os ++ rest)) Q.
Proof using Hpage Hmax.
  induction n as [|n IH]; intros j mm os rest Q Hj Hl; cbn [make_pools].
  - destruct os; [|done]. iIntros "_ H Hk". iApply wp_ret. iApply "Hk". by replace (Z.to_nat max) with j by lia.
  - destruct os as [|a1 [|a2 os]]; [cbn in Hl; lia..|]. iIntros "[%Hos (Ha1 & Ha2 & Hf)] H Hk".
    apply Forall_cons in Hos as [Hg1 [Hg2 Hos]%Forall_cons]. iDestruct "H" as "[%Hok H]".
    pose proof Hok as [H1 H2 H3 H4 H5 H6 H7]. rewrite H1 H2 H3 H4. iApply wp_bind. iApply (wp_lift _ no_pool).
    { unfold rd. case_decide; [|lia]. rewrite Nat2Z.id. apply H6; lia. }
    iApply wp_bind. change (Z.to_nat 2) with 2%nat. change ((a1 :: a2 :: os) ++ rest) with ([a1; a2] ++ (os ++ rest)).
    iApply (wp_preload_pages j 2 (no_pool <| o_id := Z.of_nat j |>) with "[Ha1 Ha2] []"); [lia|done|done| | |].
    { iSplit; [iPureIntro; constructor; [exact Hg1|constructor; [exact Hg2|constructor]]|]. by iFrame. }
    { iApply no_pool_inv. }
    iIntros (pl Hpl) "Hp". cbv beta iota. iApply wp_bind. iApply wp_lift.
    { unfold set_pool, wr. rewrite H5. case_decide; [|lia]. rewrite Nat2Z.id. reflexivity. }
    cbv iota. iDestruct (made_next with "[H] Hp") as "H"; [lia|exact Hpl|by iFrame|].
    iApply (IH (S j) with "[Hf] H"); [lia|cbn in Hl; lia|by iFrame|]. iExact "Hk".
Qed.

Definition two_pages (mm : xmalloc) : Prop :=
  forall (k : nat) pl, Z.of_nat k < max -> m_pool mm !! k = Some pl -> o_page_number pl = 2.

Lemma wp_malloc_pool os rest Q :
  Z.of_nat (length os) = 2 * max ->
  first_pages os -∗
  (∀ mm, ⌜two_pages mm⌝ -∗ heap_inv page_size max mm ∅ -∗ Q (true, mm, rest)) -∗
  wp (malloc_pool page_size max (memory_manager max) (os ++ rest)) Q.
Proof using Hpage Hmax.
  iIntros (Hl) "Hf Hk". unfold malloc_pool. cbn [m_init memory_manager]. iApply wp_bind.
  iApply (wp_make_pools _ 0 with "Hf []"); [lia|lia| |].
  { iSplit; [iPureIntro|done]. split; try done.
    - cbn. by rewrite length_replicate.
    - intros k _ Hk. cbn. apply lookup_replicate. split; [done|lia].
    - intros k pl Hk. lia. }
  iIntros (mm) "[%Hok H]". destruct Hok as [H1 H2 H3 H4 H5 H6 H7]. cbv beta iota. iApply wp_ret.
  iApply ("Hk" with "[%] [-]").
  { intros k pl Hk. cbn. apply H7. lia. }
  iSplit; [iPureIntro; split; try done; cbn; lia|]. iSplitL; [|by iApply big_sepM_empty].
  iApply (big_sepL_mono with "H"). intros k pl _. iIntros "H". iApply (pool_inv_ext with "H").
  intros i. symmetry. apply omap_empty.
Qed.

(** The first request makes the pools and goes on. *)
Lemma wp_malloc_first os rest busy req Q :
  Z.of_nat (length os) = 2 * max ->
  first_pages os -∗
  (∀ mm, ⌜two_pages mm /\ m_init mm = true⌝ -∗ heap_inv page_size max mm ∅ -∗ wp (malloc page_size max rest busy req mm) Q) -∗
  wp (malloc page_size max (os ++ rest) busy req (memory_manager max)) Q.
Proof using Hpage Hmax.
  iIntros (Hl) "Hf Hk". unfold malloc at 2. cbn [m_init memory_manager]. iApply wp_bind.
  iApply (wp_malloc_pool with "Hf"); [done|]. iIntros (mm H2) "[%Hok Hh]". cbv beta iota.
  pose proof (mg_init _ _ _ _ Hok) as Hi. iSpecialize ("Hk" $! mm with "[//] [Hh]"); [by iFrame|].
  unfold malloc. rewrite Hi. done.
Qed.
End Start.
