(* ===== verification/XmallocOps.v ===== *)
(** * Requests to the allocator

    [malloc] with pages in stock, [calloc] and [realloc]; what the users do with
    their blocks. *)

From iris.bi Require Import interface.
From iris.proofmode Require Import proofmode.
From stdpp Require Import fin_maps fin_map_dom.
From S2P Require Import Prelude Bytes Heaplet Xmalloc XmallocPage XmallocCut XmallocLists XmallocHeap XmallocStart.
#[local] Open Scope Z_scope.

(** ** Regions *)

Lemma wp_store_region a bs v Q :
  length bs = 8%nat -> region a bs -∗ (region a (le_bytes 8 v) -∗ Q tt) -∗ wp (store a v) Q.
Proof. iIntros (Hl) "H Hk". iApply (wp_store_bytes with "H Hk"). by rewrite le_bytes_length. Qed.

Lemma le_bytes_0 n : le_bytes n 0 = replicate n 0.
Proof. induction n as [|n IH]; [done|]. cbn [le_bytes replicate]. by rewrite Z.shiftr_0_l IH. Qed.

Lemma wp_zero_words l : forall i ptr bs Q,
  (8 * l <= length bs)%nat ->
  region (ptr + 8 * i) bs -∗ (region (ptr + 8 * i) (replicate (8 * l) 0 ++ drop (8 * l) bs) -∗ Q tt) -∗
  wp (zero_words l i ptr) Q.
Proof.
  induction l as [|l IH]; intros i ptr bs Q Hl; cbn [zero_words].
  - iIntros "H Hk". iApply wp_ret. by iApply "Hk".
  - rewrite -{1}(take_drop 8 bs) region_app length_take_le; [|lia]. iIntros "[H1 H2] Hk".
    iApply wp_bind. iApply (wp_store_region with "H1"); [rewrite length_take_le; lia|]. iIntros "H1".
    replace (ptr + 8 * i + Z.of_nat 8) with (ptr + 8 * (i + 1)) by lia.
    iApply (IH with "H2"); [rewrite length_drop; lia|]. iIntros "H2". iApply "Hk".
    replace (8 * S l)%nat with (8 + 8 * l)%nat by lia. rewrite replicate_add -app_assoc le_bytes_0 drop_drop.
    iApply region_app. rewrite length_replicate. replace (ptr + 8 * (i + 1)) with (ptr + 8 * i + Z.of_nat 8) by lia. iFrame.
Qed.

Lemma wp_zero_tail r : forall size ptr bs Q,
  (r <= length bs)%nat ->
  region (ptr + (size - Z.of_nat r)) bs -∗
  (region (ptr + (size - Z.of_nat r)) (replicate r 0 ++ drop r bs) -∗ Q tt) -∗
  wp (zero_tail r size ptr) Q.
Proof.
  induction r as [|r IH]; intros size ptr bs Q Hl; cbn [zero_tail].
  - iIntros "H Hk". iApply wp_ret. by iApply "Hk".
  - destruct bs as [|b bs]; [cbn in Hl; lia|]. cbn [region]. iIntros "[H1 H2] Hk".
    iApply wp_bind. iApply wp_store1. iFrame "H1". iIntros "H1".
    replace (ptr + (size - Z.of_nat (S r)) + 1) with (ptr + (size - Z.of_nat r)) by lia.
    iApply (IH with "H2"); [cbn in Hl; lia|]. iIntros "H2". iApply "Hk". cbn [replicate app region drop].
    replace (ptr + (size - Z.of_nat (S r)) + 1) with (ptr + (size - Z.of_nat r)) by lia. iFrame.
Qed.

(** The words and the rest together are the first [size] bytes. *)
Lemma wp_zero {B} size ptr bs (k : M B) Q :
  0 <= size <= Z.of_nat (length bs) ->
  region ptr bs -∗ (region ptr (replicate (Z.to_nat size) 0 ++ drop (Z.to_nat size) bs) -∗ wp k Q) -∗
  wp (zero_words (Z.to_nat (Z.shiftr size 3)) 0 ptr;; zero_tail (Z.to_nat (size mod 8)) size ptr;; k) Q.
Proof.
  intros Hs. rewrite Z.shiftr_div_pow2 //. change (2 ^ 3) with 8.
  pose proof (Z.div_mod size 8 ltac:(lia)) as Hdm. pose proof (Z.mod_pos_bound size 8 ltac:(lia)).
  assert (0 <= size / 8) by (apply Z.div_pos; lia).
  set (l := Z.to_nat (size / 8)). set (r := Z.to_nat (size mod 8)).
  assert (Hn : Z.to_nat size = (8 * l + r)%nat) by lia.
  iIntros "H Hk". iApply wp_bind. iApply (wp_zero_words _ _ _ bs with "[H]"); [lia|by rewrite Z.mul_0_r Z.add_0_r|].
  rewrite Z.mul_0_r Z.add_0_r. iIntros "H". iApply wp_bind. iEval (rewrite region_app length_replicate) in "H". iDestruct "H" as "[H1 H2]".
  replace (ptr + Z.of_nat (8 * l)) with (ptr + (size - Z.of_nat r)) by lia.
  iApply (wp_zero_tail with "H2"); [rewrite length_drop; lia|]. iIntros "H2". iApply "Hk".
  rewrite Hn replicate_add -app_assoc drop_drop. iApply region_app. rewrite length_replicate.
  replace (ptr + Z.of_nat (8 * l)) with (ptr + (size - Z.of_nat r)) by lia. iFrame.
Qed.

Lemma split_len {A} (l : list A) n : 0 <= n <= Z.of_nat (length l) -> exists l1 l2, l = l1 ++ l2 /\ Z.of_nat (length l1) = n.
Proof.
  intros Hn. exists (take (Z.to_nat n) l), (drop (Z.to_nat n) l). rewrite take_drop length_take_le; [split; [done|]|]; lia.
Qed.

Lemma mcopy_whole dst src : length dst = length src ->
  mcopy (Some (dst, 0)) (Some (src, 0)) (Z.of_nat (length src)) = Some (Some (src, 0)).
Proof.
  intros Hl. destruct (mcopy_ok dst 0 src 0 (Z.of_nat (length src)) src) as (dst' & Hw & ->); [lia| |lia|lia|].
  - unfold rd_range. case_decide; [|lia]. cbn. by rewrite drop_0 Nat2Z.id firstn_all.
  - do 3 f_equal. revert Hw. unfold wr_range. case_decide; [|lia]. intros [= <-]. cbn.
    rewrite drop_ge; [by rewrite app_nil_r|lia].
Qed.

Lemma wp_copy dst src n ds ss Q :
  0 <= n <= Z.of_nat (length ds) -> n <= Z.of_nat (length ss) ->
  region dst ds -∗ region src ss -∗
  (region dst (take (Z.to_nat n) ss ++ drop (Z.to_nat n) ds) -∗ region src ss -∗ Q tt) -∗
  wp (copy dst src n) Q.
Proof.
  intros Hd Hs. destruct (split_len ds n) as (d1 & d2 & -> & Ed); [done|].
  destruct (split_len ss n) as (s1 & s2 & -> & Es); [lia|].
  replace n with (Z.of_nat (length s1)). rewrite Nat2Z.id take_app_length.
  rewrite (drop_app_length' d1); [|lia]. iIntros "H1 H2 Hk".
  iDestruct (region_app with "H1") as "[H1 H1']". iDestruct (region_app with "H2") as "[H2 H2']".
  assert (Hload : forall Q', region dst d1 -∗ (region dst d1 -∗ Q' d1) -∗ wp (load_bytes (length s1) dst) Q').
  { intros Q'. replace (length s1) with (length d1) by lia. apply wp_load_bytes. }
  unfold copy. iApply wp_bind. rewrite Nat2Z.id. iApply (Hload with "H1"). iIntros "H1". iApply wp_bind.
  iApply (wp_load_bytes with "H2"). iIntros "H2". iApply wp_bind. iApply wp_lift; [apply mcopy_whole; lia|]. cbv beta iota.
  iApply (wp_store_bytes with "H1"); [lia|]. iIntros "H1". iApply ("Hk" with "[H1 H1'] [H2 H2']"); iApply region_app.
  - replace (length s1) with (length d1) by lia. iFrame.
  - iFrame.
Qed.

(** ** The heap, with addresses in stock for new pages *)

Section Heap.
Context (page_size max limit : Z) (Hpage : 0 <= page_size < 2 ^ 61) (Hmax : 0 < max <= 1024) (Hlimit : limit < 2 ^ 61).

(** Each address of [os] is one at which [mmap] may map [limit] bytes. *)
Definition stock (os : list Z) : heapProp := ([∗ list] a ∈ os, free_space (Z.to_nat limit) a)%I.

(** The pools have room for [n] more pages. *)
Definition room (n : nat) (mm : xmalloc) : Prop :=
  forall (k : nat) pl, Z.of_nat k < max -> m_pool mm !! k = Some pl -> o_page_number pl + Z.of_nat n <= 1023.

(** No other thread has a page that the pools have not got yet. *)
Definition quiet (busy : Z -> bool) (mm : xmalloc) : Prop :=
  forall (k : nat) pl i, Z.of_nat k < max -> m_pool mm !! k = Some pl -> o_page_number pl <= i -> busy i = false.

Definition heap_with (mm : xmalloc) (m : gmap Z entry) (os : list Z) : heapProp :=
  (⌜room (length os) mm /\ Forall (fun a => good_answer a limit) os⌝ ∗ heap_inv page_size max mm m ∗ stock os)%I.

(** Before the first call; it takes two addresses for each pool. *)
Definition heap_new (mm : xmalloc) (m : gmap Z entry) (os : list Z) : heapProp :=
  (⌜mm = memory_manager max /\ m = ∅ /\ Forall (fun a => good_answer a limit) os /\
    (Z.of_nat (length os) <= 1021 + 2 * max)%Z⌝ ∗ stock os)%I.

Definition heap_state (mm : xmalloc) (m : gmap Z entry) (os : list Z) : heapProp :=
  (heap_with mm m os ∨ heap_new mm m os)%I.

(** How many of the addresses are left for later pages. *)
Definition spare (mm : xmalloc) (os : list Z) : Z :=
  Z.of_nat (length os) - (if m_init mm then 0 else 2 * max).

(** A request that the stock allows. *)
Definition allowed (req : Z) : Prop := 0 <= req /\ page_size + req + 4264 <= limit.

Lemma allowed_bytes req : allowed req -> page_bytes (page_size + __req2align req) <= limit.
Proof using Hpage Hlimit.
  intros [H1 H2]. destruct (req2align_ok req) as (? & _ & _ & ?); [lia|].
  destruct (page_bytes_ok (page_size + __req2align req)); lia.
Qed.

Lemma free_space_add n n' a : free_space (n + n') a ⊣⊢ free_space n a ∗ free_space n' (a + Z.of_nat n).
Proof.
  revert a. induction n as [|n IH]; intros a; cbn [Nat.add free_space].
  - by rewrite Z.add_0_r left_id.
  - rewrite IH assoc. by replace (a + 1 + Z.of_nat n) with (a + Z.of_nat (S n)) by lia.
Qed.

Lemma room_grown n n' d mm mm' : room n mm -> grown d mm mm' -> Z.of_nat n' + d <= Z.of_nat n -> room n' mm'.
Proof.
  intros H Hg Hn k pl' Hk Hpl. destruct (Hg k pl' Hpl) as (pl & Hpl' & Hle). specialize (H k pl Hk Hpl'). lia.
Qed.

Lemma wp_malloc_with mm m req busy os Q :
  allowed req -> os <> [] -> quiet busy mm ->
  heap_with mm m os -∗
  (∀ p bs loc mm' os',
     ⌜m !! p = None /\ is_bytes bs /\ Z.of_nat (length bs) = __req2align req - 16 /\ 0 < p /\ p mod 8 = 0⌝ -∗
     ⌜os' = os \/ os' = tail os⌝ -∗ heap_with mm' (<[p := (bs, loc)]> m) os' -∗ Q (__pointer2address p, mm', os')) -∗
  wp (malloc page_size max os busy req mm) Q.
Proof using Hpage Hmax Hlimit.
  intros Hreq Hos Hq. destruct os as [|a os]; [done|]. iIntros "([%Hroom %Hos'] & Hh & Hst) Hk".
  pose proof (allowed_bytes _ Hreq) as Hn. destruct Hreq as [Hreq1 Hreq2].
  apply Forall_cons in Hos' as [(Ha1 & Ha2 & Ha3) Hos']. cbn [length] in Hroom.
  unfold stock. iDestruct "Hst" as "[Ha Hst]". set (n := page_bytes (page_size + __req2align req)) in *.
  assert (Hn0 : 0 <= n). { destruct (page_bytes_ok (page_size + __req2align req)); destruct (req2align_ok req); lia. }
  assert (E : Z.to_nat limit = (Z.to_nat n + Z.to_nat (limit - n))%nat) by lia.
  iEval (rewrite E free_space_add) in "Ha". iDestruct "Ha" as "[Ha Ha']".
  iApply (wp_malloc page_size max ltac:(lia) Hmax with "Hh Ha"); [lia|split_and!; [done|done|lia]| |].
  { intros k pl Hk Hpl. specialize (Hroom k pl Hk Hpl). split; [lia|by apply (Hq k pl)]. }
  iIntros (p bs loc mm' os') "%H Hh [[[-> %Hg] Ha]|[-> %Hg]]".
  - iApply ("Hk" with "[//] [] [-]"); [iPureIntro; by left|]. iFrame "Hh". iSplit.
    { iPureIntro. split; [by eapply room_grown|]. by constructor. }
    iFrame "Hst". rewrite E. iApply free_space_add. iFrame.
  - iApply ("Hk" with "[//] [] [-]"); [iPureIntro; by right|]. iFrame "Hh Hst". iPureIntro.
    split; [|done]. eapply room_grown; [exact Hroom|exact Hg|lia].
Qed.

Lemma stock_take n os :
  0 <= n -> page_size + 4224 <= limit -> Forall (fun a => good_answer a limit) os -> n <= Z.of_nat (length os) ->
  stock os -∗ ∃ os1 os2, ⌜os = os1 ++ os2 /\ Z.of_nat (length os1) = n /\ Forall (fun a => good_answer a limit) os2⌝ ∗
    first_pages page_size os1 ∗ stock os2.
Proof using Hpage.
  iIntros (Hn Hle Hos Hl) "H". destruct (split_len os n) as (os1 & os2 & -> & Hl1); [done|].
  apply Forall_app in Hos as [Hos1 Hos2]. unfold stock. rewrite big_sepL_app. iDestruct "H" as "[H1 H2]".
  iExists os1, os2. iFrame "H2". iSplit; [done|]. destruct (page_bytes_ok page_size) as [Hb _]; [lia|]. iSplit.
  { iPureIntro. eapply Forall_impl; [exact Hos1|]. intros a (H1 & H2 & H3). split_and!; [done|done|lia]. }
  iApply (big_sepL_mono with "H1"). intros _ a _. cbn beta.
  replace (Z.to_nat limit) with (Z.to_nat (page_bytes page_size) + Z.to_nat (limit - page_bytes page_size))%nat by lia.
  iIntros "H". by iDestruct (free_space_add with "H") as "[$ _]".
Qed.

Lemma wp_malloc_state mm m req busy os Q :
  allowed req -> 0 < spare mm os -> quiet busy mm ->
  heap_state mm m os -∗
  (∀ p bs loc mm' os',
     ⌜m !! p = None /\ is_bytes bs /\ Z.of_nat (length bs) = __req2align req - 16 /\ 0 < p /\ p mod 8 = 0⌝ -∗
     ⌜spare mm os <= Z.of_nat (length os') + 1⌝ -∗ heap_with mm' (<[p := (bs, loc)]> m) os' -∗
     Q (__pointer2address p, mm', os')) -∗
  wp (malloc page_size max os busy req mm) Q.
Proof using Hpage Hmax Hlimit.
  intros Hreq Hsp Hq. pose proof Hreq as [Hreq0 Hreq1]. iIntros "[Hh|[(-> & -> & %Hos & %Hl) Hst]] Hk".
  - iAssert (⌜m_init mm = true⌝)%I as %Hi. { iDestruct "Hh" as "(_ & [%Hok _] & _)". by destruct Hok. }
    unfold spare in *. rewrite Hi in Hsp |- *.
    iApply (wp_malloc_with with "Hh"); [done|by intros ->|done|]. iIntros (p bs loc mm' os') "%H %Ho Hh".
    iApply ("Hk" with "[//] [%] Hh"). destruct Ho as [->| ->]; [lia|]. destruct os; cbn [length tail]; lia.
  - unfold spare in *. cbn [m_init memory_manager] in *.
    iDestruct (stock_take (2 * max) with "Hst") as (os1 os2) "((-> & %Hl1 & %Hos2) & Hf & Hst)"; [lia|lia|done|lia|].
    rewrite length_app in Hl, Hsp |- *.
    iApply (wp_malloc_first page_size max Hpage Hmax with "Hf"); [done|]. iIntros (mm [H2 Hi]) "Hh".
    iApply (wp_malloc_with _ ∅ with "[Hh Hst]"); [done|intros ->; cbn in Hsp; lia| | |].
    + intros k pl i Hk Hpl Hle. apply (Hq 0%nat no_pool); [lia| |specialize (H2 k pl Hk Hpl); cbn; lia].
      cbn. apply lookup_replicate. split; [done|lia].
    + iFrame. iPureIntro. split; [|done]. intros k pl Hk Hpl. rewrite (H2 k pl Hk Hpl). lia.
    + iIntros (p bs loc mm' os') "%H %Ho Hh". iApply ("Hk" with "[//] [%] Hh").
      destruct Ho as [->| ->]; [lia|]. destruct os2; cbn [length tail]; lia.
Qed.

(** ** The contents of a block *)

Lemma live_of_replace k i m p bs bs' loc :
  m !! p = Some (bs, loc) -> length bs' = length bs -> live_of k i (<[p := (bs', loc)]> m) = live_of k i m.
Proof.
  intros Hp Hl. apply map_eq. intros q. unfold live_of. rewrite !lookup_omap.
  destruct (decide (q = p)) as [->|Hne]; [|by rewrite lookup_insert_ne].
  rewrite lookup_insert_eq Hp. cbn. by rewrite Hl.
Qed.

Lemma manager_ok_replace mm m p bs bs' loc :
  m !! p = Some (bs, loc) -> manager_ok page_size max mm m -> manager_ok page_size max mm (<[p := (bs', loc)]> m).
Proof.
  intros Hp []. split; try done. intros q e [[<- <-]|[_ He]]%lookup_insert_Some; [|eauto].
  destruct (mg_where p _ Hp) as (pl & ?). by exists pl.
Qed.

(** The contents can be changed while the sizes stay. *)
Definition rewritten (m : gmap Z entry) (p : Z) (bs' : list Z) (m' : gmap Z entry) : Prop :=
  exists bs loc, m !! p = Some (bs, loc) /\ length bs' = length bs /\ m' = <[p := (bs', loc)]> m.

Lemma heap_open mm m os :
  heap_with mm m os -∗ contents m ∗
  (∀ p bs' m', ⌜rewritten m p bs' m'⌝ -∗ contents m' -∗ heap_with mm m' os).
Proof.
  iIntros "(%Ho & (%Hok & Hpools & $) & Hst)". iIntros (p bs' m' (bs & loc & Hp & Hl & ->)) "Hc".
  iFrame "Hst Hc". iSplit; [done|]. iSplit; [iPureIntro; by eapply manager_ok_replace|].
  iApply (big_sepL_mono with "Hpools"). intros k pl _. iIntros "H". iApply (pool_inv_ext with "H").
  intros i. by rewrite (live_of_replace _ _ _ _ _ _ _ Hp).
Qed.

Lemma contents_take m p bs loc :
  m !! p = Some (bs, loc) -> contents m -∗ ⌜is_bytes bs /\ (16 <= length bs)%nat⌝ ∗
  region (__pointer2address p) bs ∗ contents (delete p m).
Proof. iIntros (Hp) "Hc". unfold contents. rewrite (big_sepM_delete _ m p) //. iDestruct "Hc" as "[[$ $] $]". Qed.

Lemma contents_put m p bs loc :
  is_bytes bs -> (16 <= length bs)%nat -> region (__pointer2address p) bs -∗ contents (delete p m) -∗
  contents (<[p := (bs, loc)]> m).
Proof. iIntros (Hb Hl) "Hr Hc". unfold contents. iApply big_sepM_insert_delete. by iFrame. Qed.

(** A user may do with a block what he likes. *)
Lemma heap_touch mm m os p bs loc :
  m !! p = Some (bs, loc) ->
  heap_with mm m os -∗ region (__pointer2address p) bs ∗
  (∀ bs', ⌜is_bytes bs' /\ length bs' = length bs⌝ -∗ region (__pointer2address p) bs' -∗
     heap_with mm (<[p := (bs', loc)]> m) os).
Proof.
  iIntros (Hp) "H". iDestruct (heap_open with "H") as "[Hc H]".
  iDestruct (contents_take with "Hc") as "([%Hb %Hl] & $ & Hc)"; [done|]. iIntros (bs' [Hb' Hl']) "Hr".
  iApply ("H" $! p bs' with "[%] [-]"); [by exists bs, loc|]. iApply (contents_put with "Hr Hc"); [done|lia].
Qed.

Lemma heap_with_bytes mm m os p bs loc :
  m !! p = Some (bs, loc) -> heap_with mm m os -∗ ⌜is_bytes bs /\ (16 <= length bs)%nat⌝.
Proof.
  iIntros (Hp) "H". iDestruct (heap_open with "H") as "[Hc H]".
  by iDestruct (contents_take with "Hc") as "($ & _)".
Qed.

Lemma wp_copy_blocks mm m os p q bs bs0 loc loc0 n Q :
  m !! q = Some (bs, loc) -> m !! p = Some (bs0, loc0) -> q <> p ->
  0 <= n <= Z.of_nat (length bs) -> n <= Z.of_nat (length bs0) ->
  heap_with mm m os -∗
  (heap_with mm (<[q := (take (Z.to_nat n) bs0 ++ drop (Z.to_nat n) bs, loc)]> m) os -∗ Q tt) -∗
  wp (copy (__pointer2address q) (__pointer2address p) n) Q.
Proof.
  iIntros (Hq Hp Hne Hn Hn0) "H Hk". iDestruct (heap_open with "H") as "[Hc H]".
  iDestruct (contents_take with "Hc") as "([%Hb %Hl] & Hr & Hc)"; [exact Hq|].
  assert (Hp' : delete q m !! p = Some (bs0, loc0)) by by rewrite lookup_delete_ne.
  iDestruct (contents_take with "Hc") as "([%Hb0 %Hl0] & Hr0 & Hc)"; [exact Hp'|].
  iApply (wp_copy with "Hr Hr0"); [done|done|]. iIntros "Hr Hr0". iApply "Hk".
  iDestruct (contents_put with "Hr0 Hc") as "Hc"; [done|done|]. rewrite insert_id //.
  iApply ("H" $! q with "[%] [-]"); [exists bs, loc; split_and!; [done| |done]|iApply (contents_put with "Hr Hc")].
  - rewrite length_app length_take length_drop. lia.
  - apply Forall_app. split; [by apply Forall_take|by apply Forall_drop].
  - rewrite length_app length_take length_drop. lia.
Qed.

(** The page of a block. *)
Lemma heap_block mm m os p e :
  m !! p = Some e -> heap_with mm m os -∗ ∃ tag pg us,
  ⌜us !! p = Some (Z.of_nat (length e.1) + 16)%Z⌝ ∗ page_inv tag pg us ∗ (page_inv tag pg us -∗ heap_with mm m os).
Proof using Hmax.
  destruct e as [bs [kk i]]. iIntros (Hp) "(%Ho & (%Hok & Hpools & Hc) & Hst)".
  destruct (mg_where _ _ _ _ Hok _ _ Hp) as (pl & Hpl & Hkm & Him). cbn [fst snd] in *.
  iDestruct (pools_take page_size max Hmax _ _ kk with "Hpools") as (pl2) "([%Hpl2 %Hrd] & Hpl & Hput)"; [done|done|].
  rewrite Hpl in Hpl2. injection Hpl2 as <-.
  iDestruct (pool_take kk pl _ i with "Hpl") as (pg) "([%Hpo %Hpg] & Hp & Hpl)"; [done|].
  pose proof (live_of_Some kk i m p _ Hp eq_refl) as Hlive. cbn [fst] in Hlive.
  iDestruct "Hp" as (rss) "(%Hpok & (%us & %Hw & Hp & Hr))".
  iExists _, pg, us. iSplit; [iPureIntro; by eapply live_in_use|]. iFrame "Hp". iIntros "Hp".
  iSplit; [done|]. iFrame "Hst". iSplit; [done|]. iFrame "Hc".
  iDestruct ("Hpl" $! pg (live_of kk i m) with "[Hp Hr]") as "Hpl".
  { iExists rss. iSplit; [done|]. iExists us. iFrame "Hp Hr". done. }
  iApply ("Hput" with "[%] [//] [Hpl]"); [|iApply (pool_inv_ext with "Hpl"); apply (upd_id (fun j => live_of kk j m))].
  rewrite (list_insert_id (o_page pl)) //. rewrite list_insert_id //. by destruct pl.
Qed.

Lemma block_bounds mm m os p e :
  m !! p = Some e -> heap_with mm m os -∗ ⌜0 < p /\ (p + Z.of_nat (length e.1) + 16)%Z < 2 ^ 64⌝.
Proof using Hmax.
  iIntros (Hp) "H". iDestruct (heap_block with "H") as (tag pg us) "(%Hu & Hp & _)"; [done|].
  iDestruct (page_used_bounds with "Hp") as %Hb; [done|]. iPureIntro. lia.
Qed.

(** The size in the header of a block. *)
Lemma wp_block_size {B} mm m os p bs loc (k : Z -> M B) Q :
  m !! p = Some (bs, loc) -> heap_with mm m os -∗
  (heap_with mm m os -∗ wp (k (Z.of_nat (length bs) + 16)) Q) -∗ wp (get_size p ≫= k) Q.
Proof using Hmax.
  iIntros (Hp) "H Hk". iDestruct (heap_block with "H") as (tag pg us) "(%Hu & Hp & H)"; [done|].
  iApply wp_bind. iApply (wp_used_size with "Hp"); [done|]. iIntros "Hp". iApply "Hk". by iApply "H".
Qed.

Lemma wp_free_with mm m os p e busy held again Q :
  m !! p = Some e -> heap_with mm m os -∗ (∀ mm', heap_with mm' (delete p m) os -∗ Q mm') -∗
  wp (free busy held again (__pointer2address p) mm) Q.
Proof using Hpage Hmax Hlimit.
  iIntros (Hp) "([%Hroom %Hos] & Hh & Hst) Hk".
  iApply (wp_free page_size max ltac:(lia) Hmax with "Hh"); [done|]. iIntros (mm' Hg) "Hh". iApply "Hk". iFrame "Hh Hst".
  iPureIntro. split; [|done]. eapply room_grown; [exact Hroom|exact Hg|lia].
Qed.

(** ** Requests *)

Lemma wp_calloc_state mm m number size busy os Q :
  let n := size * number in
  allowed n -> 0 < spare mm os -> quiet busy mm ->
  heap_state mm m os -∗
  (∀ p bs loc mm' os',
     ⌜m !! p = None /\ is_bytes bs /\ n <= Z.of_nat (length bs) /\ 0 < p /\ p mod 8 = 0 /\
      take (Z.to_nat n) bs = replicate (Z.to_nat n) 0⌝ -∗
     ⌜spare mm os <= Z.of_nat (length os') + 1⌝ -∗ heap_with mm' (<[p := (bs, loc)]> m) os' -∗ Q (__pointer2address p, mm', os')) -∗
  wp (calloc page_size max os busy number size mm) Q.
Proof using Hpage Hmax Hlimit.
  intros n Hn Hos Hq. pose proof Hn as [Hn0 Hn1]. iIntros "Hh Hk". unfold calloc. fold n. rewrite u64_small; [|lia].
  destruct (req2align_ok n) as (_ & _ & Hfit & _); [lia|].
  iApply wp_bind. iApply (wp_malloc_state with "Hh"); [done..|].
  iIntros (p bs loc mm' os') "(%H1 & %H2 & %H3 & %H4 & %H5) %Ho Hh". cbv beta iota.
  case_decide as Hp0; [unfold __pointer2address, __work_pointer_size in Hp0; lia|].
  iDestruct (heap_touch with "Hh") as "[Hr Hh]"; [apply lookup_insert_eq|].
  iApply (wp_zero with "Hr"); [lia|]. iIntros "Hr". iApply wp_ret.
  set (bs' := replicate (Z.to_nat n) 0 ++ drop (Z.to_nat n) bs).
  assert (Hl : length bs' = length bs) by (unfold bs'; rewrite length_app length_replicate length_drop; lia).
  assert (Hb : is_bytes bs') by (apply Forall_app; split; [by apply Forall_replicate|by apply Forall_drop]).
  iDestruct ("Hh" $! bs' with "[//] Hr") as "Hh". rewrite insert_insert_eq.
  iApply ("Hk" with "[%] [//] Hh"). split_and!; try done; [lia|]. unfold bs'. by rewrite take_app_length' // length_replicate.
Qed.

(** What is kept of the contents. *)
Definition kept (size : Z) (bs : list Z) : nat := Z.to_nat (size `min` Z.of_nat (length bs)).

Lemma wp_realloc_with mm m size busy held rheld again p bs0 loc0 os Q :
  m !! p = Some (bs0, loc0) -> 0 < size -> allowed size -> os <> [] -> quiet busy mm ->
  heap_with mm m os -∗
  (∀ q bs loc mm' os',
     ⌜m !! q = None /\ is_bytes bs /\ size <= Z.of_nat (length bs) /\ 0 < q /\ q mod 8 = 0 /\
      take (kept size bs0) bs = take (kept size bs0) bs0⌝ -∗
     ⌜os' = os \/ os' = tail os⌝ -∗ heap_with mm' (delete p (<[q := (bs, loc)]> m)) os' -∗
     Q (__pointer2address q, mm', os')) -∗
  wp (realloc page_size max os busy held rheld again (__pointer2address p) size mm) Q.
Proof using Hpage Hmax Hlimit.
  intros Hp Hs Hn Hos Hq. pose proof Hn as [_ Hn1]. iIntros "Hh Hk". unfold realloc. case_decide; [|lia].
  destruct (req2align_ok size) as (_ & _ & Hfit & _); [lia|].
  iDestruct (heap_with_bytes with "Hh") as %[Hb0 Hl0]; [exact Hp|].
  iDestruct (block_bounds with "Hh") as %[Hp0 Hp1]; [exact Hp|]. cbn [fst] in *.
  assert (Ha : __pointer2address p = p + 16) by done.
  iApply wp_bind. iApply (wp_malloc_with with "Hh"); [done..|].
  iIntros (q bs loc mm' os') "(%H1 & %H2 & %H3 & %H4 & %H5) %Ho Hh". cbv beta iota.
  case_decide as Hq0; [unfold __pointer2address, __work_pointer_size in Hq0; lia|]. case_decide; [lia|].
  assert (Hne : q <> p) by (intros ->; congruence).
  assert (Hp' : <[q := (bs, loc)]> m !! p = Some (bs0, loc0)) by by rewrite lookup_insert_ne.
  replace (__address2pointer (__pointer2address p)) with p
    by (unfold __address2pointer, __pointer2address; lia).
  set (bs' := take (kept size bs0) bs0 ++ drop (kept size bs0) bs).
  set (m' := <[q := (bs', loc)]> m).
  iApply (wp_block_size with "Hh"); [exact Hp'|]. iIntros "Hh". change __work_pointer_size with 16.
  replace (Z.of_nat (length bs0) + 16 - 16) with (Z.of_nat (length bs0)) by lia. rewrite u64_small; [|lia].
  iApply wp_bind. iAssert (heap_with mm' m' os' -∗ wp (mm0 ← free held rheld again (__pointer2address p) mm'; mret (__pointer2address q, mm0, os')) Q)%I
    with "[Hk]" as "Hk".
  { iIntros "Hh". iApply wp_bind. iApply (wp_free_with with "Hh"); [by rewrite lookup_insert_ne|].
    iIntros (mm2) "Hh". iApply wp_ret. iApply ("Hk" with "[%] [//] Hh"). split_and!; try done.
    - apply Forall_app. split; [by apply Forall_take|by apply Forall_drop].
    - unfold bs'. rewrite length_app length_take length_drop. unfold kept. lia.
    - unfold bs'. rewrite take_app_length' // length_take. unfold kept. lia. }
  case_decide.
  - iApply (wp_block_size with "Hh"); [exact Hp'|]. iIntros "Hh".
    replace (Z.of_nat (length bs0) + 16 - 16) with (Z.of_nat (length bs0)) by lia. rewrite u64_small; [|lia].
    iApply (wp_copy_blocks with "Hh"); [apply lookup_insert_eq|exact Hp'|done|lia|lia|].
    rewrite insert_insert_eq. replace (Z.to_nat (Z.of_nat (length bs0))) with (kept size bs0) by (unfold kept; lia). done.
  - iApply (wp_copy_blocks with "Hh"); [apply lookup_insert_eq|exact Hp'|done|lia|lia|].
    rewrite insert_insert_eq. replace (Z.to_nat size) with (kept size bs0) by (unfold kept; lia). done.
Qed.

Lemma wp_realloc_null_state mm m size busy held rheld again os Q :
  0 < size -> allowed size -> 0 < spare mm os -> quiet busy mm ->
  heap_state mm m os -∗
  (∀ p bs loc mm' os',
     ⌜m !! p = None /\ is_bytes bs /\ size <= Z.of_nat (length bs) /\ 0 < p /\ p mod 8 = 0⌝ -∗
     ⌜spare mm os <= Z.of_nat (length os') + 1⌝ -∗ heap_with mm' (<[p := (bs, loc)]> m) os' -∗ Q (__pointer2address p, mm', os')) -∗
  wp (realloc page_size max os busy held rheld again 0 size mm) Q.
Proof using Hpage Hmax Hlimit.
  intros Hs Hn Hos Hq. pose proof Hn as [_ Hn1]. iIntros "Hh Hk". unfold realloc. case_decide; [|lia].
  destruct (req2align_ok size) as (_ & _ & Hfit & _); [lia|].
  iApply wp_bind. iApply (wp_malloc_state with "Hh"); [done..|].
  iIntros (q bs loc mm' os') "(%H1 & %H2 & %H3 & %H4 & %H5) %Ho Hh". cbv beta iota.
  case_decide as Hq0; [unfold __pointer2address, __work_pointer_size in Hq0; lia|]. case_decide; [|done].
  iApply wp_ret. iApply ("Hk" with "[%] [//] Hh"). split_and!; try done. lia.
Qed.
End Heap.
