(* ===== verification/XmallocAlign.v ===== *)
(** * Aligned blocks

    [aligned_alloc] asks for a larger block, makes two of it and frees the first. *)

From iris.bi Require Import interface.
From iris.proofmode Require Import proofmode.
From stdpp Require Import fin_maps fin_map_dom.
From S2P Require Import Prelude Bytes Heaplet Xmalloc XmallocPage XmallocCut XmallocLists XmallocHeap XmallocStart XmallocOps.
#[local] Open Scope Z_scope.

(** ** One block becomes two *)

(** [aligned_pointer] is [ptr + f]. *)
Definition halve {B} (ptr f : Z) (k : M B) : M B :=
  s ← get_size ptr; set_size (ptr + f) (u64 (s - f));;
  nx ← __next_pointer ptr; g ← get_flag nx; set_flag (ptr + f) g;;
  set_size ptr f;; k.

Lemma shape_halve pre n post a b :
  shape (pre ++ (Used, n) :: post) = true -> shape (pre ++ (Used, a) :: (Used, b) :: post) = true.
Proof.
  rewrite (shape_app pre) => /andb_true_iff [H1 H2]. rewrite (shape_app pre). apply andb_true_iff. split; [|exact H2].
  destruct pre as [|p pre _] using rev_ind; [done|]. rewrite -app_assoc in H1. rewrite -app_assoc. cbn [app] in H1 |- *.
  rewrite shape_snoc_cons in H1. rewrite shape_snoc_cons. exact H1.
Qed.

Lemma page_ok_halve pg us pre n post fs f :
  let x := p_start_address pg + total pre in
  page_ok pg us (pre ++ (Used, n) :: post) fs -> 32 <= f -> f mod 8 = 0 -> 32 <= n - f ->
  us !! x = Some n /\ us !! (x + f) = None /\
  page_ok pg (<[x + f := n - f]> (<[x := f]> us)) (pre ++ (Used, f) :: (Used, n - f) :: post) fs.
Proof.
  intros x Hok Hf Hf8 Hnf. pose proof Hok as [H1 H2 H3 H4 H5 H6 H7 H8 H9 H10 H11 H12].
  pose proof H4 as [Hb1 [[Hb2 Hb8] Hb3]%Forall_cons]%Forall_app. cbn [snd] in *.
  assert (Eu : used (p_start_address pg) (pre ++ (Used, n) :: post) =
    used (p_start_address pg) pre ++ (x, n) :: used (x + n) post) by by rewrite used_app.
  assert (Eu' : used (p_start_address pg) (pre ++ (Used, f) :: (Used, n - f) :: post) =
    used (p_start_address pg) pre ++ (x, f) :: (x + f, n - f) :: used (x + n) post).
  { rewrite used_app. cbn [used]. fold x. by replace (x + f + (n - f)) with (x + n) by lia. }
  assert (Hpre : forall y z, (y, z) ∈ used (p_start_address pg) pre -> y + z <= x /\ 32 <= z).
  { intros y z Hy. apply used_bounds in Hy; [|done]. unfold x. lia. }
  assert (Hpost : forall y z, (y, z) ∈ used (x + n) post -> x + n <= y).
  { intros y z Hy. apply used_bounds in Hy; [lia|done]. }
  split_and!.
  - apply H8. rewrite Eu. apply elem_of_app. right. by left.
  - destruct (us !! (x + f)) as [z|] eqn:E; [|done]. apply H8 in E. rewrite Eu in E. exfalso.
    apply elem_of_app in E as [E%Hpre|[[= E]|E%Hpost]%elem_of_cons]; lia.
  - assert (Ea : forall k, k <> Used -> addrs k (p_start_address pg) (pre ++ (Used, f) :: (Used, n - f) :: post) =
      addrs k (p_start_address pg) (pre ++ (Used, n) :: post)).
    { intros k Hk. rewrite !addrs_app. cbn [addrs]. do 1 (case_decide; [congruence|]). f_equal. f_equal. lia. }
    split; rewrite ?Ea //.
    + by eapply shape_halve.
    + by destruct pre.
    + rewrite last_app_cons in H3. rewrite last_app_cons. destruct post; [done|exact H3].
    + apply Forall_app. split; [done|]. apply Forall_cons. split; [by split|]. apply Forall_cons. split; [|done].
      split; cbn [snd]; [lia|]. by rewrite Zminus_mod Hb8 Hf8.
    + rewrite -H5 !blocks_total_app. cbn [total]. lia.
    + intros y z. rewrite Eu' elem_of_app !elem_of_cons lookup_insert_Some lookup_insert_Some. rewrite H8 Eu elem_of_app elem_of_cons.
      split.
      * intros [[<- <-]|[Hne [[<- <-]|[Hne' [H|[[= -> ->]|H]]]]]]; tauto.
      * intros [H|[[= -> ->]|[[= -> ->]|H]]].
        -- right. pose proof (Hpre _ _ H). split; [lia|]. right. split; [lia|tauto].
        -- right. split; [lia|]. by left.
        -- by left.
        -- right. pose proof (Hpost _ _ H). split; [lia|]. right. split; [lia|tauto].
Qed.

Lemma wp_halve {B} tag pg us x n f (k : M B) Q :
  us !! x = Some n -> 32 <= f -> f mod 8 = 0 -> 32 <= n - f -> 0 <= tag < 2 ^ 64 ->
  page_inv tag pg us -∗ space (x + f) 16 -∗
  (⌜us !! (x + f)%Z = None⌝ -∗ page_inv tag pg (<[(x + f)%Z := (n - f)%Z]> (<[x := f]> us)) -∗ wp k Q) -∗
  wp (halve x f k) Q.
Proof.
  iIntros (Hx Hf Hf8 Hnf Htag) "(%bs & %fs & %Hok & Ht & Hc) Hs Hk".
  destruct (used_neighbours _ _ _ _ _ _ Hok Hx) as (pre & k0 & n0 & k1 & n1 & b2 & post & -> & Hptr & _).
  set (pre' := pre ++ [(k0, n0)]) in *. set (post' := (k1, n1) :: b2 :: post) in *.
  destruct (page_ok_halve _ _ _ _ _ _ f Hok Hf Hf8 Hnf) as (_ & Hnone & Hok'). rewrite -Hptr in Hnone Hok'.
  destruct (page_room _ _ _ _ _ _ Hok) as (Hr1 & Hr2 & _ & Hr3 & Hr4). cbn [snd] in *.
  rewrite tiles_app tiles_cons -Hptr. iDestruct "Ht" as "(Hpre & Hg & Hsz & Hb & Ht)".
  iDestruct (space_words with "Hs") as (v w) "[Hv Hw]". iDestruct (tiles_reflag with "Ht") as "[Hpf Ht]".
  unfold halve. iApply (wp_load with "Hsz"). iIntros "Hsz". rewrite u64_small; [|lia].
  iApply (wp_store with "Hw"); [lia|]. iIntros "Hw". iApply (wp_next_pointer with "Hsz"). iIntros "Hsz".
  iApply (wp_load with "Hpf"). iIntros "Hpf". iDestruct ("Ht" $! (next_flag Used (n - f)) with "Hpf") as "Ht".
  iApply (wp_store with "Hv"); [done|]. iIntros "Hv". iApply (wp_store with "Hsz"); [lia|]. iIntros "Hsz".
  iApply ("Hk" with "[//]"). iExists _, fs. iSplit; [done|]. iFrame "Hc". iApply tiles_app. iFrame "Hpre".
  rewrite -Hptr. iApply tiles_cons. iFrame "Hg Hsz". iSplit; [done|]. iApply tiles_cons. iFrame "Hv Hw". iSplit; [done|].
  by replace (x + f + (n - f)) with (x + n) by lia.
Qed.

(** ** The two blocks in the heap *)

Lemma live_of_halve (k i : nat) m p (f : nat) bs :
  m !! p = Some (bs, (k, i)) -> m !! (p + 16 + Z.of_nat f) = None -> (f + 16 <= length bs)%nat -> forall k' j,
  live_of k' j (<[p + 16 + Z.of_nat f := (drop (f + 16) bs, (k, i))]> (<[p := (take f bs, (k, i))]> m)) =
    if decide (k' = k /\ j = i)
    then <[p + 16 + Z.of_nat f := Z.of_nat (length bs - f)]> (<[p := Z.of_nat f + 16]> (live_of k' j m))
    else live_of k' j m.
Proof.
  intros Hp Hf Hl k' j. rewrite live_of_insert; [|rewrite lookup_insert_ne; [done|lia]].
  rewrite -(insert_delete_eq m p) live_of_insert; [|apply lookup_delete_eq]. rewrite (live_of_delete k i m p bs Hp).
  case_decide; [|done]. rewrite insert_delete_eq length_drop length_take. do 2 f_equal; lia.
Qed.

Lemma waiting_halve us live rss x f n :
  waiting us live rss -> live !! x = Some n -> us !! (x + f) = None -> 0 < f ->
  live !! (x + f) = None /\ waiting (<[x + f := n - f]> (<[x := f]> us)) (<[x + f := n - f]> (<[x := f]> live)) rss.
Proof.
  intros Hw Hx Hf Hf0. pose proof (waiting_delete _ _ _ _ _ Hw Hx) as Hd.
  destruct (waiting_insert _ _ _ x f Hd) as [_ H1]; [apply lookup_delete_eq|].
  rewrite !insert_delete_eq in H1.
  destruct (waiting_insert _ _ _ (x + f) (n - f) H1) as [H2 H3]; [rewrite lookup_insert_ne; [done|lia]|].
  split; [|done]. rewrite lookup_insert_ne in H2; [done|lia].
Qed.

Section Heap.
Context (page_size max limit : Z) (Hpage : 0 <= page_size < 2 ^ 61) (Hmax : 0 < max <= 1024) (Hlimit : limit < 2 ^ 61).

Lemma manager_ok_halve mm m p q bs e1 e2 loc :
  manager_ok page_size max mm m -> m !! p = Some (bs, loc) -> e1.2 = loc -> e2.2 = loc ->
  manager_ok page_size max mm (<[q := e2]> (<[p := e1]> m)).
Proof.
  intros [H1 H2 H3 H4 H5 H6] Hp E1 E2. split; try done.
  intros y e [[<- <-]|[_ [[<- <-]|[_ He]]%lookup_insert_Some]]%lookup_insert_Some; [rewrite E2|rewrite E1|by eapply H6];
    exact (H6 p _ Hp).
Qed.

Lemma wp_halve_block {B} mm m os p bs loc (f : nat) (kont : M B) Q :
  m !! p = Some (bs, loc) -> (16 <= f)%nat -> Z.of_nat f mod 8 = 0 -> (f + 32 <= length bs)%nat ->
  heap_with page_size max limit mm m os -∗
  (⌜m !! (p + 16 + Z.of_nat f)%Z = None⌝ -∗
   heap_with page_size max limit mm
     (<[(p + 16 + Z.of_nat f)%Z := (drop (f + 16) bs, loc)]> (<[p := (take f bs, loc)]> m)) os -∗ wp kont Q) -∗
  wp (halve p (16 + Z.of_nat f) kont) Q.
Proof using Hmax Hpage Hlimit.
  destruct loc as [k i]. iIntros (Hp Hf Hf8 Hl) "(%Ho & (%Hok & Hpools & Hc) & Hst) Hk".
  destruct (mg_where _ _ _ _ Hok _ _ Hp) as (pl & Hpl & Hkm & Him). cbn [fst snd] in *.
  iDestruct (pools_take page_size max Hmax _ _ k with "Hpools") as (pl2) "([%Hpl2 %Hrd] & Hpl & Hput)"; [done|done|].
  rewrite Hpl in Hpl2. injection Hpl2 as <-.
  iDestruct (pool_take k pl _ i with "Hpl") as (pg) "([%Hpo %Hpg] & Hp & Hpl)"; [done|].
  pose proof (pool_number _ _ Hpo) as Hnum. destruct (inuse_flag_ok k i) as (_ & Htag & _); [lia..|].
  pose proof (live_of_Some k i m p _ Hp eq_refl) as Hlive. cbn [fst] in Hlive.
  iDestruct "Hp" as (rss) "(%Hpok & (%us & %Hw & Hp & Hr))". pose proof (live_in_use _ _ _ _ _ Hw Hlive) as Hu.
  iDestruct (contents_take with "Hc") as "([%Hb _] & Hreg & Hc)"; [exact Hp|].
  unfold __pointer2address. change __work_pointer_size with 16.
  iEval (rewrite -{1}(take_drop f bs) -{1}(take_drop 16 (drop f bs)) drop_drop) in "Hreg".
  iDestruct (region_app with "Hreg") as "[Hr1 Hreg]". iDestruct (region_app with "Hreg") as "[Hr2 Hr3]".
  assert (E1 : Z.of_nat (length (take f bs)) = Z.of_nat f) by (rewrite length_take; lia).
  assert (E2 : length (take 16 (drop f bs)) = 16%nat) by (rewrite length_take length_drop; lia).
  rewrite E1 E2. set (q := p + 16 + Z.of_nat f) in *. assert (Eq : p + (16 + Z.of_nat f) = q) by lia.
  iApply (wp_halve _ _ _ p (Z.of_nat (length bs) + 16) (16 + Z.of_nat f) with "Hp [Hr2]"); [done|lia| |lia|done| |].
  { by rewrite -(Z_mod_plus_full (Z.of_nat f) 2 8) Z.add_comm in Hf8. }
  { rewrite Eq. iExists _. iFrame "Hr2". iPureIntro. rewrite E2. split; [done|]. by apply Forall_take, Forall_drop. }
  iIntros (Hnone) "Hp". rewrite Eq in Hnone |- *.
  destruct (waiting_halve _ _ _ _ (16 + Z.of_nat f) _ Hw Hlive) as [Hnone' Hw']; [by rewrite Eq|lia|]. rewrite Eq in Hnone' Hw'.
  iAssert (contents (<[p := (take f bs, (k, i))]> m)) with "[Hr1 Hc]" as "Hc".
  { iApply (contents_put with "Hr1 Hc"); [by apply Forall_take|lia]. }
  iAssert (⌜(<[p := (take f bs, (k, i))]> m) !! q = None⌝)%I as %Hfresh.
  { iApply (contents_fresh _ _ (Z.of_nat (length (drop (f + 16) bs))) with "Hc"); [rewrite length_drop; lia|].
    iExists _. replace (p + 16 + Z.of_nat f + Z.of_nat 16) with (q + 16) by lia. iFrame "Hr3".
    iPureIntro. split; [done|by apply Forall_drop]. }
  assert (Hq : m !! q = None) by (rewrite lookup_insert_ne in Hfresh; [done|lia]).
  iApply ("Hk" with "[//]"). iSplit; [done|]. iFrame "Hst". iSplit; [iPureIntro; by eapply manager_ok_halve|].
  iSplitR "Hc Hr3"; [|iApply (contents_insert with "Hc"); [done|by apply Forall_drop|rewrite length_drop; lia|]].
  - iDestruct ("Hpl" $! pg (<[q := Z.of_nat (length bs - f)]> (<[p := Z.of_nat f + 16]> (live_of k i m))) with "[Hp Hr]") as "Hpl".
    { iExists rss. iSplit; [done|]. iExists _. iFrame "Hr". iSplit; [|iFrame "Hp"]. iPureIntro.
      replace (Z.of_nat (length bs - f)) with (Z.of_nat (length bs) + 16 - (16 + Z.of_nat f)) by lia.
      by rewrite (Z.add_comm (Z.of_nat f) 16). }
    iApply ("Hput" with "[%] [%] [Hpl]"); [|intros k' j Hne|iApply (pool_inv_ext with "Hpl"); intros j].
    + rewrite (list_insert_id (o_page pl)) //. rewrite list_insert_id //. by destruct pl.
    + rewrite (live_of_halve k i m p f bs Hp Hq ltac:(lia)). case_decide; [tauto|done].
    + unfold upd. rewrite (live_of_halve k i m p f bs Hp Hq ltac:(lia)). case_decide; case_decide; try (tauto || done).
      by subst j.
  - by replace (q + 16) with (p + 16 + Z.of_nat f + Z.of_nat 16) by lia.
Qed.

(** ** The request *)

(** Where the aligned address lies in a block of which the contents begin at [a]. *)
Lemma aligned_address a k :
  3 <= k <= 60 -> 0 <= a -> a mod 8 = 0 -> a + 2 ^ k + 32 < 2 ^ 64 ->
  let mask := u64 (Z.lnot (2 ^ k - 1)) in
  let b := Z.land (u64 (a + 2 ^ k + 32)) mask in
  (Z.land a mask = a -> a mod 2 ^ k = 0) /\ b mod 2 ^ k = 0 /\ 40 <= b - a <= 2 ^ k + 32 /\ (b - a) mod 8 = 0.
Proof.
  intros Hk Ha Ha8 Hb mask b. assert (H0 : 0 < 2 ^ k) by (apply Z.pow_pos_nonneg; lia).
  assert (Ek : 2 ^ k = 8 * 2 ^ (k - 3)) by (change 8 with (2 ^ 3); rewrite -Z.pow_add_r; [f_equal|..]; lia).
  unfold b, mask. rewrite (u64_small (a + 2 ^ k + 32)); [|lia]. rewrite !round_up; [|lia..].
  remember (a + 2 ^ k + 32) as c eqn:Ec. pose proof (Z.div_mod c (2 ^ k) ltac:(lia)). pose proof (Z.mod_pos_bound c (2 ^ k) ltac:(lia)).
  assert (H8 : (2 ^ k * (c / 2 ^ k) - a) mod 8 = 0).
  { rewrite Zminus_mod Ha8 Ek -Z.mul_assoc Z.mul_comm Z_mod_mult. done. }
  split_and!; [|by rewrite Z.mul_comm Z_mod_mult| | |done].
  - intros E. rewrite -E Z.mul_comm Z_mod_mult. done.
  - assert (32 < 2 ^ k * (c / 2 ^ k) - a) by lia. revert H8 H2. generalize (2 ^ k * (c / 2 ^ k) - a). intros y ? ?.
    Z.to_euclidean_division_equations. lia.
  - lia.
Qed.

Lemma power_of_two k : 3 <= k -> Z.land (2 ^ k) 7 = 0 /\ Z.land (2 ^ k) (2 ^ k - 1) = 0.
Proof.
  intros Hk. split.
  - rewrite land_7. replace (2 ^ k) with (2 ^ (k - 3) * 8); [apply Z_mod_mult|]. change 8 with (2 ^ 3).
    rewrite -Z.pow_add_r; [f_equal|..]; lia.
  - rewrite Z.sub_1_r -Z.ones_equiv Z.land_ones; [|lia]. apply Z_mod_same_full.
Qed.

Lemma wp_aligned_state mm m k size busy held rheld again os Q :
  3 <= k <= 60 -> 16 <= size -> allowed page_size limit (size + 2 ^ k + 32) ->
  0 < spare max mm os -> quiet max busy mm ->
  heap_state page_size max limit mm m os -∗
  (∀ p bs loc mm' os',
     ⌜m !! p = None /\ is_bytes bs /\ size <= Z.of_nat (length bs) /\ 0 < p /\ (p + 16) mod 2 ^ k = 0⌝ -∗
     ⌜spare max mm os <= Z.of_nat (length os') + 1⌝ -∗ heap_with page_size max limit mm' (<[p := (bs, loc)]> m) os' -∗
     Q (__pointer2address p, mm', os')) -∗
  wp (aligned_alloc page_size max os busy held rheld again (2 ^ k) size mm) Q.
Proof using Hmax Hpage Hlimit.
  intros Hk Hs Hal Hsp Hq. pose proof Hal as [_ Hal1]. assert (H0 : 0 < 2 ^ k) by (apply Z.pow_pos_nonneg; lia).
  iIntros "H Hk". unfold aligned_alloc. change (__align_mask + 1) with (2 ^ 3). case_decide as H3.
  - rewrite H3 in Hal1 |- *. iApply (wp_malloc_state page_size max limit Hpage Hmax Hlimit with "H"); [split; lia|done|done|].
    iIntros (p bs loc mm' os') "(%H1 & %H2 & %H4 & %H5 & %H6) %Ho H".
    destruct (req2align_ok size) as (_ & _ & Hfit & _); [lia|]. iApply ("Hk" with "[%] [//] H").
    split_and!; try done; [lia|]. by rewrite -(Z_mod_plus_full p 2 8) in H6.
  - destruct (power_of_two k) as [Hp1 Hp2]; [lia|]. case_decide as Hbad; [destruct Hbad as [|[|[|]]]; (lia || done)|].
    change __free_pointer_size with 32. rewrite (u64_small (size + 2 ^ k + 32)); [|lia].
    iApply wp_bind. iApply (wp_malloc_state page_size max limit Hpage Hmax Hlimit with "H"); [done..|].
    iIntros (p bs loc mm' os') "(%H1 & %H2 & %H4 & %H5 & %H6) %Ho H". cbv beta iota.
    destruct (req2align_ok (size + 2 ^ k + 32)) as (_ & _ & Hfit & _); [lia|]. rewrite -H4 in Hfit.
    iDestruct (block_bounds with "H") as %[_ Hb]; [exact Hmax|apply lookup_insert_eq|]. cbn [fst] in Hb.
    change (__pointer2address p) with (p + 16). case_decide; [lia|].
    assert (Hp8 : (p + 16) mod 8 = 0) by by rewrite -(Z_mod_plus_full p 2 8) in H6.
    destruct (aligned_address (p + 16) k) as (Hal2 & Hal3 & Hal4 & Hal5); [lia|lia|done|lia|].
    case_decide as Hm.
    { iApply wp_ret. iApply ("Hk" with "[%] [//] H"). split_and!; try done; [lia|]. by apply Hal2. }
    set (b := Z.land (u64 (p + 16 + 2 ^ k + 32)) (u64 (Z.lnot (2 ^ k - 1)))) in *.
    change (__address2pointer b) with (b - 16). replace (__address2pointer (p + 16)) with p by (unfold __address2pointer, __work_pointer_size; lia).
    set (f := Z.to_nat (b - p - 32)). assert (Ef : Z.of_nat f = b - p - 32) by lia.
    replace (b - 16) with (p + (16 + Z.of_nat f)) by lia.
    replace (p + (16 + Z.of_nat f) - p) with (16 + Z.of_nat f) by lia. rewrite (u64_small (16 + Z.of_nat f)); [|lia].
    iApply (wp_halve_block _ _ _ p bs loc f with "H"); [apply lookup_insert_eq|lia| |lia|].
    { rewrite Ef. replace (b - p - 32) with (b - (p + 16) - 2 * 8) by lia. by rewrite Zminus_mod Z_mod_mult Hal5. }
    iIntros (Hnew) "H". replace (p + 16 + Z.of_nat f) with (b - 16) by lia. rewrite insert_insert_eq.
    replace (p + 16 + Z.of_nat f) with (b - 16) in Hnew by lia. rewrite lookup_insert_ne in Hnew; [|lia].
    iApply wp_bind. iApply (wp_free_with page_size max limit Hpage Hmax Hlimit _ _ _ p with "H").
    { rewrite lookup_insert_ne; [apply lookup_insert_eq|lia]. }
    iIntros (mm2) "H". iApply wp_ret.
    assert (Em : delete p (<[b - 16 := (drop (f + 16) bs, loc)]> (<[p := (take f bs, loc)]> m)) = <[b - 16 := (drop (f + 16) bs, loc)]> m).
    { rewrite delete_insert_ne; [|lia]. by rewrite delete_insert_id. }
    rewrite Em. replace b with (__pointer2address (b - 16)) at 2 by (unfold __pointer2address, __work_pointer_size; lia).
    iApply ("Hk" with "[%] [//] H"). split_and!; [done|by apply Forall_drop|rewrite length_drop; lia|lia|].
    by replace (b - 16 + 16) with b by lia.
Qed.
End Heap.
