(* ===== verification/XmallocSpec.v ===== *)
(** * What the allocator promises

    For its users the allocator is a map from addresses to contents.  The four
    requests are refined by the code, from the first call on and with any
    answers of the locks, and what a user writes into a block changes this block
    and nothing else. *)

From iris.bi Require Import interface.
From iris.proofmode Require Import proofmode.
From stdpp Require Import fin_maps fin_map_dom.
From S2P Require Import Prelude Bytes Heaplet Xmalloc XmallocHeap XmallocStart XmallocOps XmallocAlign.
#[local] Open Scope Z_scope.

(** ** The heap of the users *)

Abbreviation blocks := (gmap Z (list Z)).

Inductive request :=
  | Malloc (size : Z) | Calloc (number size : Z) | Aligned (alignment size : Z)
  | Realloc (address size : Z) | Free (address : Z).

Definition new_block (h : blocks) (size a : Z) (bs : list Z) : Prop :=
  h !! a = None /\ 0 < a /\ a mod 8 = 0 /\ size <= Z.of_nat (length bs) /\ is_bytes bs.

(** [answers h r a h']: request [r] to heap [h] may be answered with [a], and then the
    heap is [h']. *)
Inductive answers (h : blocks) : request -> Z -> blocks -> Prop :=
| answers_malloc size a bs :
    new_block h size a bs -> answers h (Malloc size) a (<[a := bs]> h)
| answers_calloc number size a bs :
    let n := Z.to_nat (size * number) in
    new_block h (size * number) a bs -> take n bs = replicate n 0 -> answers h (Calloc number size) a (<[a := bs]> h)
| answers_aligned alignment size a bs :
    new_block h size a bs -> a mod alignment = 0 -> answers h (Aligned alignment size) a (<[a := bs]> h)
| answers_realloc b size bs0 a bs :
    let n := Z.to_nat (size `min` Z.of_nat (length bs0)) in
    h !! b = Some bs0 -> 0 < size -> new_block h size a bs -> take n bs = take n bs0 ->
    answers h (Realloc b size) a (delete b (<[a := bs]> h))
| answers_realloc_new size a bs :
    0 < size -> new_block h size a bs -> answers h (Realloc 0 size) a (<[a := bs]> h)
| answers_realloc_free b : is_Some (h !! b) -> answers h (Realloc b 0) 0 (delete b h)
| answers_realloc_null : answers h (Realloc 0 0) 0 h
| answers_free b : is_Some (h !! b) -> answers h (Free b) 0 (delete b h)
| answers_free_null : answers h (Free 0) 0 h.

(** The addresses of the users are those of the manager, moved by a header. *)
Definition view (m : gmap Z entry) (h : blocks) : Prop := forall a, h !! a = fst <$> m !! (a - 16).

Lemma view_insert m h p bs loc : view m h -> view (<[p := (bs, loc)]> m) (<[__pointer2address p := bs]> h).
Proof.
  intros H a. unfold __pointer2address. change __work_pointer_size with 16.
  destruct (decide (a = p + 16)) as [->|Hne].
  - replace (p + 16 - 16) with p by lia. by rewrite !lookup_insert_eq.
  - rewrite !lookup_insert_ne; [apply H|lia|lia].
Qed.

Lemma view_delete m h p : view m h -> view (delete p m) (delete (__pointer2address p) h).
Proof.
  intros H a. unfold __pointer2address. change __work_pointer_size with 16.
  destruct (decide (a = p + 16)) as [->|Hne].
  - replace (p + 16 - 16) with p by lia. by rewrite !lookup_delete_eq.
  - rewrite !lookup_delete_ne; [apply H|lia|lia].
Qed.

Lemma view_lookup m h a bs : view m h -> h !! a = Some bs -> exists loc, m !! (a - 16) = Some (bs, loc).
Proof. intros H Ha. rewrite H in Ha. apply fmap_Some in Ha as ([bs' loc] & Hm & ->). by exists loc. Qed.

Lemma view_none m h p : view m h -> m !! p = None -> h !! __pointer2address p = None.
Proof.
  intros H Hp. rewrite H. unfold __pointer2address. change __work_pointer_size with 16.
  replace (p + 16 - 16) with p by lia. by rewrite Hp.
Qed.

Lemma address_of a : __pointer2address (a - 16) = a.
Proof. unfold __pointer2address. change __work_pointer_size with 16. lia. Qed.

Section Allocator.
Context (page_size max limit : Z) (Hpage : 0 <= page_size < 2 ^ 61) (Hmax : 0 < max <= 1024) (Hlimit : limit < 2 ^ 61).

(** What a user may ask for. *)
Definition valid (h : blocks) (r : request) : Prop :=
  match r with
  | Malloc size => allowed page_size limit size
  | Calloc number size => allowed page_size limit (size * number)
  | Aligned alignment size =>
      (exists k, 3 <= k <= 60 /\ alignment = 2 ^ k) /\ 16 <= size /\ allowed page_size limit (size + alignment + 32)
  | Realloc b size => allowed page_size limit size /\ (b = 0 \/ is_Some (h !! b))
  | Free b => b = 0 \/ is_Some (h !! b)
  end.

(** [busy], [held], [rheld] and [again] are the answers of the locks. *)
Record locks := mklocks { lk_busy : Z -> bool; lk_held : bool; lk_rheld : list bool; lk_again : bool }.

Definition submit (k : locks) (r : request) (mm : xmalloc) (os : list Z) : M (Z * xmalloc * list Z) :=
  match r with
  | Malloc size => malloc page_size max os (lk_busy k) size mm
  | Calloc number size => calloc page_size max os (lk_busy k) number size mm
  | Aligned alignment size =>
      aligned_alloc page_size max os (lk_busy k) (lk_held k) (lk_rheld k) (lk_again k) alignment size mm
  | Realloc b size => realloc page_size max os (lk_busy k) (lk_held k) (lk_rheld k) (lk_again k) b size mm
  | Free b => mm ← free (lk_held k) (lk_rheld k) (lk_again k) b mm; mret (0, mm, os)
  end.

(** The memory [σ], the manager [mm] and the addresses [os] that [mmap] will
    answer are those of an allocator that holds the blocks [h]. *)
Definition allocator (mm : xmalloc) (h : blocks) (os : list Z) (σ : mem) : Prop :=
  exists m, view m h /\ holds_at (heap_state page_size max limit mm m os) σ.

(** One request inside the logic. *)
Definition answered (h : blocks) (r : request) (n : Z) (x : Z * xmalloc * list Z) : heapProp :=
  (∃ h' m', ⌜answers h r x.1.1 h' /\ view m' h' /\ n <= spare max x.1.2 x.2 + 1⌝ ∗
     heap_state page_size max limit x.1.2 m' x.2)%I.

Lemma with_state mm m os : heap_with page_size max limit mm m os -∗
  ⌜spare max mm os = Z.of_nat (length os)⌝ ∗ heap_state page_size max limit mm m os.
Proof.
  iIntros "H". iAssert (⌜m_init mm = true⌝)%I as %Hi. { iDestruct "H" as "(_ & [%Hok _] & _)". by destruct Hok. }
  iSplit; [iPureIntro; unfold spare; rewrite Hi; lia|by iLeft].
Qed.

Lemma with_spare mm m os : heap_with page_size max limit mm m os -∗ ⌜spare max mm os = Z.of_nat (length os)⌝.
Proof. iIntros "H". by iDestruct (with_state with "H") as "[$ _]". Qed.

Lemma state_with mm m os p e :
  m !! p = Some e -> heap_state page_size max limit mm m os -∗ heap_with page_size max limit mm m os.
Proof. iIntros (Hp) "[$|[(_ & -> & _) _]]". by rewrite lookup_empty in Hp. Qed.

Lemma new_block_ok m h p size bs :
  view m h -> m !! p = None -> is_bytes bs -> size <= Z.of_nat (length bs) -> 0 < p -> p mod 8 = 0 ->
  new_block h size (__pointer2address p) bs.
Proof.
  intros Hv Hp Hb Hs Hp0 Hp8. split; [by eapply view_none|]. unfold __pointer2address. change __work_pointer_size with 16.
  split_and!; [lia| |done|done]. by rewrite -(Z_mod_plus_full p 2 8) in Hp8.
Qed.

Lemma answered_with h r n a mm m' os h' :
  answers h r a h' -> view m' h' -> n <= Z.of_nat (length os) + 1 ->
  heap_with page_size max limit mm m' os -∗ answered h r n (a, mm, os).
Proof.
  iIntros (Ha Hv Hn) "H". iDestruct (with_state with "H") as "[%Hs H]". iExists h', m'. iFrame "H". cbn [fst snd].
  by rewrite Hs.
Qed.

Lemma wp_submit_malloc k mm m h os size :
  view m h -> valid h (Malloc size) -> 0 < spare max mm os -> quiet max (lk_busy k) mm ->
  heap_state page_size max limit mm m os ⊢ wp (submit k (Malloc size) mm os) (answered h (Malloc size) (spare max mm os)).
Proof using Hpage Hmax Hlimit.
  intros Hv Hr Hsp Hq. iIntros "H". pose proof Hr as [Hr0 Hr1]. destruct (req2align_ok size) as (_ & _ & Hfit & _); [lia|].
  iApply (wp_malloc_state with "H"); [done..|]. iIntros (p bs loc mm' os') "(%H1 & %H2 & %H3 & %H4 & %H5) %Ho H".
  iApply (answered_with with "H"); [|by apply view_insert|done]. constructor. eapply new_block_ok; done || lia.
Qed.

Lemma wp_submit_calloc k mm m h os number size :
  view m h -> valid h (Calloc number size) -> 0 < spare max mm os -> quiet max (lk_busy k) mm ->
  heap_state page_size max limit mm m os ⊢
  wp (submit k (Calloc number size) mm os) (answered h (Calloc number size) (spare max mm os)).
Proof using Hpage Hmax Hlimit.
  intros Hv Hr Hsp Hq. iIntros "H". iApply (wp_calloc_state with "H"); [done..|].
  iIntros (p bs loc mm' os') "(%H1 & %H2 & %H3 & %H4 & %H5 & %H6) %Ho H".
  iApply (answered_with with "H"); [|by apply view_insert|done]. constructor; [|done]. by eapply new_block_ok.
Qed.

Lemma wp_submit_aligned k mm m h os alignment size :
  view m h -> valid h (Aligned alignment size) -> 0 < spare max mm os -> quiet max (lk_busy k) mm ->
  heap_state page_size max limit mm m os ⊢
  wp (submit k (Aligned alignment size) mm os) (answered h (Aligned alignment size) (spare max mm os)).
Proof using Hpage Hmax Hlimit.
  intros Hv [(l & Hl & ->) [Hs Hr]] Hsp Hq. iIntros "H".
  iApply (wp_aligned_state page_size max limit Hpage Hmax Hlimit with "H"); [done..|].
  iIntros (p bs loc mm' os') "(%H1 & %H2 & %H3 & %H4 & %H5) %Ho H".
  iApply (answered_with with "H"); [|by apply view_insert|done]. constructor; [|exact H5].
  eapply new_block_ok; try done. replace (2 ^ l) with (8 * 2 ^ (l - 3)) in H5
    by (change 8 with (2 ^ 3); rewrite -Z.pow_add_r; [f_equal|..]; lia).
  apply Z.mod_divide in H5 as [c Hc]; [|pose proof (Z.pow_pos_nonneg 2 (l - 3)); lia].
  replace p with ((c * 2 ^ (l - 3) - 2) * 8) by lia. apply Z_mod_mult.
Qed.

Lemma wp_submit_realloc k mm m h os b size bs0 :
  view m h -> h !! b = Some bs0 -> 0 < size -> allowed page_size limit size -> 0 < spare max mm os ->
  quiet max (lk_busy k) mm ->
  heap_state page_size max limit mm m os ⊢
  wp (submit k (Realloc b size) mm os) (answered h (Realloc b size) (spare max mm os)).
Proof using Hpage Hmax Hlimit.
  intros Hv Hb Hs Hr Hsp Hq. iIntros "H". destruct (view_lookup _ _ _ _ Hv Hb) as [loc0 Hm].
  iDestruct (state_with with "H") as "H"; [exact Hm|]. iDestruct (with_spare with "H") as %Hn.
  cbn [submit]. iEval (rewrite -{1}(address_of b)).
  iApply (wp_realloc_with page_size max limit Hpage Hmax Hlimit with "H"); [exact Hm|done|done|intros ->; cbn in Hn; lia|done|].
  iIntros (q bs loc mm' os') "(%H1 & %H2 & %H3 & %H4 & %H5 & %H6) %Ho H".
  iApply (answered_with with "H").
  - apply (answers_realloc h b size bs0); [done|done|by eapply new_block_ok|exact H6].
  - rewrite -{2}(address_of b). by apply view_delete, view_insert.
  - rewrite Hn. destruct Ho as [->| ->]; [lia|]. destruct os; cbn [length tail]; lia.
Qed.

Lemma wp_submit_realloc_null k mm m h os size :
  view m h -> 0 < size -> allowed page_size limit size -> 0 < spare max mm os -> quiet max (lk_busy k) mm ->
  heap_state page_size max limit mm m os ⊢
  wp (submit k (Realloc 0 size) mm os) (answered h (Realloc 0 size) (spare max mm os)).
Proof using Hpage Hmax Hlimit.
  intros Hv Hs Hr Hsp Hq. iIntros "H". iApply (wp_realloc_null_state with "H"); [done..|].
  iIntros (p bs loc mm' os') "(%H1 & %H2 & %H3 & %H4 & %H5) %Ho H".
  iApply (answered_with with "H"); [|by apply view_insert|done]. constructor; [done|]. by eapply new_block_ok.
Qed.

Lemma wp_unchanged h r mm m os :
  view m h -> answers h r 0 h ->
  heap_state page_size max limit mm m os ⊢ wp (mret (0, mm, os)) (answered h r (spare max mm os)).
Proof.
  iIntros (Hv Ha) "H". iApply wp_ret. iExists h, m. iFrame "H". iPureIntro. cbn [fst snd]. split_and!; [done|done|lia].
Qed.

Lemma wp_submit_free k mm m h os b r :
  view m h -> is_Some (h !! b) -> answers h r 0 (delete b h) ->
  heap_state page_size max limit mm m os ⊢
  wp (mm ← free (lk_held k) (lk_rheld k) (lk_again k) b mm; mret (0, mm, os)) (answered h r (spare max mm os)).
Proof using Hpage Hmax Hlimit.
  iIntros (Hv [bs Hb] Ha) "H". destruct (view_lookup _ _ _ _ Hv Hb) as [loc Hm].
  iDestruct (state_with with "H") as "H"; [exact Hm|]. iDestruct (with_spare with "H") as %Hn.
  iApply wp_bind. iEval (rewrite -{1}(address_of b)).
  iApply (wp_free_with page_size max limit Hpage Hmax Hlimit with "H"); [exact Hm|]. iIntros (mm') "H". iApply wp_ret.
  iApply (answered_with with "H"); [exact Ha| |lia]. rewrite -{2}(address_of b). by apply view_delete.
Qed.

Lemma free_null held rheld again mm : free held rheld again 0 mm = mret mm.
Proof. done. Qed.

Lemma wp_submit k r mm m h os :
  view m h -> valid h r -> 0 < spare max mm os -> quiet max (lk_busy k) mm ->
  heap_state page_size max limit mm m os ⊢ wp (submit k r mm os) (answered h r (spare max mm os)).
Proof using Hpage Hmax Hlimit.
  intros Hv Hr Hsp Hq. destruct r as [size|number size|alignment size|b size|b]; cbn [valid] in Hr.
  - by apply wp_submit_malloc.
  - by apply wp_submit_calloc.
  - by apply wp_submit_aligned.
  - destruct Hr as [Hr Hb]. pose proof Hr as [Hr0 Hr1]. destruct (decide (0 < size)) as [Hs|Hs].
    + destruct Hb as [->|[bs0 Hb]]; [by apply wp_submit_realloc_null|by eapply wp_submit_realloc].
    + replace size with 0 by lia. cbn [submit]. unfold realloc. case_decide; [lia|]. destruct (decide (b = 0)) as [->|Hne].
      * apply wp_unchanged; [done|constructor].
      * destruct Hb as [|Hb]; [done|]. apply wp_submit_free; [done|done|by constructor].
  - destruct (decide (b = 0)) as [->|Hne].
    + cbn [submit]. apply (wp_unchanged h (Free 0)); [done|constructor].
    + destruct Hr as [|Hb]; [done|]. apply wp_submit_free; [done|done|by constructor].
Qed.

(** ** The memory of the machine *)

Lemma allocator_step k r mm h os σ :
  valid h r -> 0 < spare max mm os -> quiet max (lk_busy k) mm -> allocator mm h os σ ->
  exists a mm' os' σ' h', submit k r mm os σ = Some ((a, mm', os'), σ') /\ answers h r a h' /\
    allocator mm' h' os' σ' /\ spare max mm os <= spare max mm' os' + 1.
Proof using Hpage Hmax Hlimit.
  intros Hr Hsp Hq (m & Hv & Hm).
  destruct (wp_run_whole _ _ _ σ (wp_submit k r mm m h os Hv Hr Hsp Hq) Hm) as ([[a mm'] os'] & σ' & Hc & h' & m' & H').
  apply holds_pure_sep in H' as [(Ha & Hv' & Hn) H']. exists a, mm', os', σ', h'. split; [done|]. split; [done|].
  split; [|done]. by exists m'.
Qed.

(** Whatever state the allocator is in, whichever locks other threads have, and for as long
    as [mmap] has addresses for new pages: a valid request is carried out without an access
    outside the memory of the process, it is answered as the heap of the users says, and the
    allocator holds the heap that follows. *)
(** C26: The allocator refines a map from addresses to contents. *)
Theorem allocator_refines_heap k r mm h os σ :
  valid h r -> 0 < spare max mm os -> quiet max (lk_busy k) mm -> allocator mm h os σ ->
  exists a mm' os' σ' h', submit k r mm os σ = Some ((a, mm', os'), σ') /\ answers h r a h' /\
    allocator mm' h' os' σ' /\ spare max mm os <= spare max mm' os' + 1.
Proof using Hpage Hmax Hlimit.
  apply allocator_step.
Qed.

(** The start: memory that [mmap] can map at each of the addresses. *)
Definition separate (os : list Z) : Prop :=
  ForallOrdPairs (fun a b => a + limit <= b \/ b + limit <= a) os.

Definition unused (os : list Z) (σ : mem) : Prop :=
  forall a x, a ∈ os -> a <= x < a + limit -> σ !! x = Some None.

Lemma free_space_intro n : forall a (σ : mem),
  (forall x, a <= x < a + Z.of_nat n -> σ !! x = Some None) ->
  holds_at (free_space n a) (filter (fun '(x, _) => a <= x < a + Z.of_nat n) σ).
Proof.
  induction n as [|n IH]; intros a σ H; [done|]. cbn [free_space].
  exists {[ a := None ]}, (filter (fun '(x, _) => a + 1 <= x < a + 1 + Z.of_nat n) σ). split_and!.
  - apply map_disjoint_singleton_l, map_lookup_filter_None. right. intros c _ [? _]. lia.
  - apply map_union_least; [apply map_singleton_subseteq_l, map_lookup_filter_Some; split; [apply H|]; lia|].
    apply map_subseteq_spec. intros x c. rewrite !map_lookup_filter_Some. intros [Hx ?]. split; [done|lia].
  - apply lookup_singleton_eq.
  - apply IH. intros x Hx. apply H. lia.
Qed.

Lemma stock_intro os : 0 <= limit -> separate os -> forall σ, unused os σ ->
  holds_at (stock limit os) σ.
Proof.
  intros Hl. induction 1 as [|a os Ha _ IH]; intros σ Hu; [done|].
  exists (filter (fun '(x, _) => a <= x < a + Z.of_nat (Z.to_nat limit)) σ),
    (filter (fun '(x, _) => ~ (a <= x < a + Z.of_nat (Z.to_nat limit))) σ). split_and!.
  - apply map_disjoint_spec. intros x c c'. rewrite !map_lookup_filter_Some. naive_solver.
  - apply map_union_least; apply map_filter_subseteq.
  - apply free_space_intro. intros x Hx. apply (Hu a); [by left|lia].
  - apply IH. intros b x Hb Hx. apply map_lookup_filter_Some. split; [apply (Hu b x); [by right|done]|].
    rewrite Forall_forall in Ha. specialize (Ha b Hb). lia.
Qed.

Lemma allocator_start os σ :
  0 <= limit -> Forall (fun a => good_answer a limit) os -> separate os -> unused os σ ->
  Z.of_nat (length os) <= 1021 + 2 * max -> allocator (memory_manager max) ∅ os σ.
Proof.
  intros Hl Hos Hs Hu Hn. exists ∅. split; [intros a; by rewrite !lookup_empty|]. right.
  exists ∅, σ. split_and!; [apply map_disjoint_empty_l|by rewrite map_empty_union|done|by apply stock_intro].
Qed.

(** ** What users do with their blocks *)

Lemma load_bytes_same n : forall a σ bs σ', load_bytes n a σ = Some (bs, σ') -> σ' = σ.
Proof.
  induction n as [|n IH]; intros a σ bs σ'; cbn [load_bytes]; [by intros [= _ ->]|].
  unfold mbind, M_bind, load1. destruct (σ !! a) as [[b|]|]; [|done..].
  destruct (load_bytes n (a + 1) σ) as [[bs1 σ1]|] eqn:E; [|done]. intros [= _ <-]. by eapply IH.
Qed.

(** A part of a block. *)
Lemma heap_part mm m os p b1 old b3 loc :
  m !! p = Some (b1 ++ old ++ b3, loc) ->
  heap_with page_size max limit mm m os -∗ region (__pointer2address p + Z.of_nat (length b1)) old ∗
  (∀ new, ⌜length new = length old /\ is_bytes new⌝ -∗ region (__pointer2address p + Z.of_nat (length b1)) new -∗
     heap_with page_size max limit mm (<[p := (b1 ++ new ++ b3, loc)]> m) os).
Proof.
  iIntros (Hp) "H". iDestruct (heap_with_bytes with "H") as %[Hb _]; [exact Hp|].
  apply Forall_app in Hb as [Hb1 [_ Hb3]%Forall_app].
  iDestruct (heap_touch with "H") as "[Hr H]"; [exact Hp|].
  iDestruct (region_app with "Hr") as "[H1 Hr]". iDestruct (region_app with "Hr") as "[$ H3]".
  iIntros (new [Hl Hn]) "H2". iApply "H".
  - iPureIntro. split; [by rewrite !Forall_app|]. rewrite !length_app. lia.
  - iApply region_app. iFrame "H1". iApply region_app. rewrite Hl. iFrame.
Qed.

(** A user reads in a block what is in it, and what he writes changes this block only. *)
Lemma users_own_their_blocks mm h os σ a b1 old b3 new :
  allocator mm h os σ -> h !! a = Some (b1 ++ old ++ b3) -> length new = length old -> is_bytes new ->
  load_bytes (length old) (a + Z.of_nat (length b1)) σ = Some (old, σ) /\
  exists σ', store_bytes (a + Z.of_nat (length b1)) new σ = Some (tt, σ') /\
    allocator mm (<[a := b1 ++ new ++ b3]> h) os σ'.
Proof.
  intros (m & Hv & Hm) Ha Hl Hn. destruct (view_lookup _ _ _ _ Hv Ha) as [loc Hp].
  rewrite -(address_of a). split.
  - destruct (wp_run_whole (heap_state page_size max limit mm m os) (load_bytes (length old) (__pointer2address (a - 16) + Z.of_nat (length b1)))
      (fun x => ⌜x = old⌝%I) σ) as (x & σ' & Hc & Hx); [|done|].
    + iIntros "H". iDestruct (state_with with "H") as "H"; [exact Hp|].
      iDestruct (heap_part with "H") as "[Hr _]"; [exact Hp|]. iApply (wp_load_bytes with "Hr"). by iIntros "_".
    + rewrite Hc. rewrite (load_bytes_same _ _ _ _ _ Hc). by rewrite (Hx : x = old).
  - destruct (wp_run_whole (heap_state page_size max limit mm m os) (store_bytes (__pointer2address (a - 16) + Z.of_nat (length b1)) new)
      (fun _ => heap_state page_size max limit mm (<[a - 16 := (b1 ++ new ++ b3, loc)]> m) os) σ) as ([] & σ' & Hc & Hx); [|done|].
    + iIntros "H". iDestruct (state_with with "H") as "H"; [exact Hp|].
      iDestruct (heap_part with "H") as "[Hr H]"; [exact Hp|]. iApply (wp_store_bytes with "Hr"); [done|].
      iIntros "Hr". iLeft. by iApply "H".
    + exists σ'. split; [done|]. exists (<[a - 16 := (b1 ++ new ++ b3, loc)]> m). split; [|done]. by apply view_insert.
Qed.

(** ** Users *)

(** A user asks, reads and writes, at the byte [i] of the block [a]. *)
Inductive action := Ask (r : request) | Read (a : Z) (i n : nat) | Write (a : Z) (i : nat) (bs : list Z).
Inductive reply := Address (a : Z) | Bytes (bs : list Z) | Written.

Definition perform (k : locks) (x : action) (mm : xmalloc) (os : list Z) : M (reply * xmalloc * list Z) :=
  match x with
  | Ask r => '(a, mm, os) ← submit k r mm os; mret (Address a, mm, os)
  | Read a i n => bs ← load_bytes n (a + Z.of_nat i); mret (Bytes bs, mm, os)
  | Write a i bs => store_bytes (a + Z.of_nat i) bs;; mret (Written, mm, os)
  end.

(** What the user does next depends on the replies so far, and on the state that
    the allocator has then which locks other threads hold. *)
Fixpoint run_user (n : nat) (others : xmalloc -> list reply -> locks) (user : list reply -> action) (seen : list reply)
    (mm : xmalloc) (os : list Z) : M (list reply * xmalloc * list Z) :=
  match n with
  | O => mret (seen, mm, os)
  | S n =>
      '(x, mm, os) ← perform (others mm seen) (user seen) mm os;
      run_user n others user (seen ++ [x]) mm os
  end.

(** The heap of the users: blocks and what was written to them. *)
Definition may (h : blocks) (x : action) : Prop :=
  match x with
  | Ask r => valid h r
  | Read a i n => exists bs, h !! a = Some bs /\ (i + n <= length bs)%nat
  | Write a i new => is_bytes new /\ exists bs, h !! a = Some bs /\ (i + length new <= length bs)%nat
  end.

Inductive replies (h : blocks) : action -> reply -> blocks -> Prop :=
| replies_ask r a h' : answers h r a h' -> replies h (Ask r) (Address a) h'
| replies_read a i n bs : h !! a = Some bs -> replies h (Read a i n) (Bytes (take n (drop i bs))) h
| replies_write a i new bs : h !! a = Some bs ->
    replies h (Write a i new) Written (<[a := take i bs ++ new ++ drop (i + length new) bs]> h).

(** The user does what he may, whatever the replies are. *)
Fixpoint careful (n : nat) (user : list reply -> action) (seen : list reply) (h : blocks) : Prop :=
  match n with
  | O => True
  | S n => may h (user seen) /\ forall x h', replies h (user seen) x h' -> careful n user (seen ++ [x]) h'
  end.

(** The replies, and the heaps between them. *)
Inductive history (user : list reply -> action) : list reply -> blocks -> list reply -> blocks -> Prop :=
| history_end seen h : history user seen h seen h
| history_step seen h x h' seen' h'' :
    replies h (user seen) x h' -> history user (seen ++ [x]) h' seen' h'' -> history user seen h seen' h''.

Lemma perform_ok k x mm h os σ : may h x -> 0 < spare max mm os -> quiet max (lk_busy k) mm -> allocator mm h os σ ->
  exists y mm' os' σ' h', perform k x mm os σ = Some ((y, mm', os'), σ') /\ replies h x y h' /\
    allocator mm' h' os' σ' /\ spare max mm os <= spare max mm' os' + 1.
Proof using Hpage Hmax Hlimit.
  intros Hx Hsp Hq Hal. destruct x as [r|a i n|a i new]; cbn [may perform] in *.
  - destruct (allocator_step k r mm h os σ Hx Hsp Hq Hal) as (a & mm' & os' & σ' & h' & Hr & Ha & Hal' & Hs).
    exists (Address a), mm', os', σ', h'. split_and!; [|by constructor|done|done]. unfold mbind, M_bind. by rewrite Hr.
  - destruct Hx as (bs & Hb & Hl).
    assert (Hsplit : bs = take i bs ++ take n (drop i bs) ++ drop n (drop i bs)) by by rewrite !take_drop.
    pose proof Hb as Hb'. rewrite Hsplit in Hb'.
    destruct (users_own_their_blocks mm h os σ a _ _ _ (replicate n 0) Hal Hb') as [Hload _];
      [rewrite length_replicate length_take length_drop; lia|by apply Forall_replicate|].
    rewrite length_take length_drop length_take in Hload. replace (n `min` (length bs - i))%nat with n in Hload by lia.
    replace (i `min` length bs)%nat with i in Hload by lia.
    exists (Bytes (take n (drop i bs))), mm, os, σ, h. split_and!; [|by constructor|done|lia].
    unfold mbind, M_bind. by rewrite Hload.
  - destruct Hx as (Hn & bs & Hb & Hl).
    assert (Hsplit : bs = take i bs ++ take (length new) (drop i bs) ++ drop (length new) (drop i bs)) by by rewrite !take_drop.
    pose proof Hb as Hb'. rewrite Hsplit in Hb'.
    destruct (users_own_their_blocks mm h os σ a _ _ _ new Hal Hb') as [_ (σ' & Hstore & Hal')];
      [rewrite length_take length_drop; lia|done|].
    rewrite length_take in Hstore. replace (i `min` length bs)%nat with i in Hstore by lia. rewrite drop_drop in Hal'.
    exists Written, mm, os, σ', (<[a := take i bs ++ new ++ drop (i + length new) bs]> h).
    split_and!; [|by constructor|done|lia]. unfold mbind, M_bind. by rewrite Hstore.
Qed.

Lemma run_user_ok others user n : (forall mm seen, quiet max (lk_busy (others mm seen)) mm) -> forall seen mm h os σ,
  careful n user seen h -> Z.of_nat n <= spare max mm os -> allocator mm h os σ ->
  exists seen' mm' os' σ' h', run_user n others user seen mm os σ = Some ((seen', mm', os'), σ') /\
    length seen' = (length seen + n)%nat /\ history user seen h seen' h' /\ allocator mm' h' os' σ'.
Proof using Hpage Hmax Hlimit.
  intros Hq. induction n as [|n IH]; intros seen mm h os σ Hc Hn Hal.
  - exists seen, mm, os, σ, h. split_and!; [done|lia|constructor|done].
  - destruct Hc as [Hv Hc].
    destruct (perform_ok (others mm seen) (user seen) mm h os σ) as (x & mm' & os' & σ' & h' & Hr & Ha & Hal' & Hsp); [done|lia|done|done|].
    destruct (IH (seen ++ [x]) mm' h' os' σ') as (seen' & mm'' & os'' & σ'' & h'' & Hr' & Hl & Hh & Hal''); [by apply Hc|lia|done|].
    exists seen', mm'', os'', σ'', h''. split_and!; [|rewrite length_app in Hl; cbn in Hl; lia| |done].
    + cbn [run_user]. unfold mbind, M_bind. by rewrite Hr.
    + by econstructor.
Qed.

(** C27: A careful user is served from the first call on.  A user whose program
    takes [n] steps, each of them a valid request or a read or a write inside a
    block that he has, gets the replies of the heap of the users, in which a block
    holds what was last written to it, without an access outside of the memory
    of the process, whichever of the locks of existing pages ([quiet]) other
    threads hold meanwhile.  For this [mmap] has two addresses for each pool and
    one for each step, and there are at most 1021 of the latter: any step may
    need a page, and all of them may go to one pool, which has room for 1021 more
    than the two it starts with. *)
Theorem careful_users_are_served others user n os σ :
  (forall mm seen, quiet max (lk_busy (others mm seen)) mm) ->
  0 <= limit -> Forall (fun a => good_answer a limit) os -> separate os -> unused os σ ->
  2 * max + Z.of_nat n <= Z.of_nat (length os) <= 1021 + 2 * max -> careful n user [] ∅ ->
  exists seen mm os' σ' h, run_user n others user [] (memory_manager max) os σ = Some ((seen, mm, os'), σ') /\
    length seen = n /\ history user [] ∅ seen h /\ allocator mm h os' σ'.
Proof using Hpage Hmax Hlimit.
  intros Hq Hl Hos Hs Hu Hn Hc. apply run_user_ok; [done|done|unfold spare; cbn [m_init memory_manager]; lia|]. apply allocator_start; done || lia.
Qed.
End Allocator.

(** ** A small allocator

    One pool, [XMALLOC_PAGE_SIZE] 1000, requests up to 700 bytes. *)

Definition example_memory : mem := cells 8192 32768 None.
Definition example_stock : list Z := [8192; 16384; 24576; 32768].

Lemma example_start : allocator 1000 1 6000 (memory_manager 1) ∅ example_stock example_memory.
Proof.
  apply allocator_start; try (unfold example_stock; cbn [length]; lia).
  - unfold example_stock. repeat (apply Forall_cons; split; [split_and!; lia || done|]). by apply Forall_nil.
  - unfold example_stock, separate. repeat (constructor; [repeat (apply Forall_cons; split; [lia|]); by apply Forall_nil|]). constructor.
  - intros a x Ha Hx. unfold example_memory. rewrite cells_lookup. case_decide; [done|].
    repeat (apply elem_of_cons in Ha as [->|Ha]; [lia|]). by apply elem_of_nil in Ha.
Qed.

Lemma allocator_refines_heap_witness :
  exists a mm' os' σ' h',
    submit 1000 1 (mklocks (fun _ => false) true [true; true] false) (Malloc 100) (memory_manager 1) example_stock example_memory
      = Some ((a, mm', os'), σ') /\ answers ∅ (Malloc 100) a h' /\
    allocator 1000 1 6000 mm' h' os' σ' /\ spare 1 (memory_manager 1) example_stock <= spare 1 mm' os' + 1.
Proof.
  apply (allocator_refines_heap 1000 1 6000); [lia|lia|lia|split; lia|reflexivity|done|apply example_start].
Defined.

(** The user gets a block, writes to it, reads it back and frees it. *)
Definition example_user (seen : list reply) : action :=
  match seen with
  | [] => Ask (Malloc 100)
  | [Address a] => Write a 3 [1; 2]
  | [Address a; _] => Read a 3 2
  | Address a :: _ => Ask (Free a)
  | _ => Ask (Malloc 100)
  end.

Lemma example_careful : careful 1000 6000 4 example_user [] ∅.
Proof.
  split; [split; lia|]. intros x h' Hx. inversion Hx as [r a h1 Ha| |]; subst.
  inversion Ha as [size a' bs (_ & _ & _ & Hl & _)| | | | | | | |]; subst.
  split; [split; [apply Forall_cons; split; [split; lia|]; apply Forall_cons; split; [split; lia|]; by apply Forall_nil|]|].
  { exists bs. split; [apply lookup_insert_eq|simpl; lia]. }
  intros x h' Hx'. inversion Hx' as [| |a' i new bs' Hb]; subst. rewrite lookup_insert_eq in Hb. injection Hb as <-.
  split; [eexists; split; [apply lookup_insert_eq|rewrite !length_app length_take length_drop; simpl; lia]|].
  intros x h' Hx''. inversion Hx'' as [|a' i n bs' Hb|]; subst. split; [|done]. right. rewrite lookup_insert_eq. by eexists.
Qed.

Definition example_stock_more : list Z := example_stock ++ [40960; 49152].
Definition example_memory_more : mem := cells 8192 49152 None.

(** Nobody else is there. *)
Definition alone (mm : xmalloc) (seen : list reply) : locks := mklocks (fun _ => false) true [true; true] false.

Lemma careful_users_are_served_witness :
  exists seen mm os' σ' h,
    run_user 1000 1 4 alone example_user [] (memory_manager 1) example_stock_more example_memory_more = Some ((seen, mm, os'), σ') /\
    length seen = 4%nat /\ history example_user [] ∅ seen h /\ allocator 1000 1 6000 mm h os' σ'.
Proof.
  apply (careful_users_are_served 1000 1 6000); [lia|lia|lia|done|lia| | | |cbn; lia|apply example_careful].
  - unfold example_stock_more, example_stock. cbn [app]. repeat (apply Forall_cons; split; [split_and!; lia || done|]). by apply Forall_nil.
  - unfold example_stock_more, example_stock, separate. cbn [app].
    repeat (constructor; [repeat (apply Forall_cons; split; [lia|]); by apply Forall_nil|]). constructor.
  - intros a x Ha Hx. unfold example_memory_more. rewrite cells_lookup. case_decide; [done|].
    repeat (apply elem_of_cons in Ha as [->|Ha]; [lia|]). by apply elem_of_nil in Ha.
Defined.
