(* ===== verification/XmallocLeak.v ===== *)
(** * Looking for leaks

    [xmalloc_leak_trace] frees what waits to be freed and then compares the block
    from which requests are cut with the page: neighbours are always joined, so
    that a page without blocks in use has one free block, and no other page has
    one of that size. *)

From iris.bi Require Import interface.
From iris.proofmode Require Import proofmode.
From stdpp Require Import fin_maps fin_map_dom.
From S2P Require Import Prelude Bytes Heaplet Xmalloc XmallocPage XmallocCut XmallocLists XmallocHeap XmallocStart XmallocOps XmallocSpec.
#[local] Open Scope Z_scope.

(** ** Pages without blocks in use *)

Section Page.
Context (pg : xmalloc_page) (us : gmap Z Z) (pre : list block) (m : Z) (post : list block) (fs : list Z).
Hypothesis (Hok : page_ok pg us (pre ++ (Main, m) :: post) fs).

Lemma page_split : exists pre' post', pre = (Head, 32) :: pre' /\ post = post' ++ [(End, 32)] /\
  Forall block_ok pre' /\ Forall block_ok post' /\ p_size pg = 64 + total pre' + m + total post'.
Proof using Hok.
  pose proof (ok_first _ _ _ _ Hok) as Hf. pose proof (ok_last _ _ _ _ Hok) as Hl.
  pose proof (ok_blocks _ _ _ _ Hok) as Hb. pose proof (ok_total _ _ _ _ Hok) as Ht.
  destruct pre as [|b pre']; [done|]. injection Hf as ->.
  rewrite last_app_cons in Hl. destruct post as [|y post' _] using rev_ind; [done|].
  rewrite app_comm_cons last_snoc in Hl. injection Hl as ->. exists pre', post'.
  apply Forall_app in Hb as [[_ Hb1]%Forall_cons [_ [Hb2 _]%Forall_app]%Forall_cons].
  split_and!; try done. rewrite -Ht !blocks_total_app. cbn [total]. rewrite blocks_total_app. cbn [total]. lia.
Qed.

Lemma used_none bs a : (forall n, (Used, n) ∉ bs) -> used a bs = [].
Proof using.
  revert a. induction bs as [|[k n] bs IH]; intros a H; [done|]. cbn [used]. case_decide as Hk.
  - subst k. destruct (H n). by left.
  - apply IH. intros n' Hn. apply (H n'). by right.
Qed.

Lemma block_in_use k n : us = ∅ -> (k, n) ∈ pre ++ (Main, m) :: post -> k <> Used.
Proof using Hok.
  intros E Hin ->. apply list_elem_of_split in Hin as (l1 & l2 & El). destruct Hok as [_ _ _ _ _ _ _ Hu _ _ _ _].
  specialize (Hu (p_start_address pg + total l1) n). rewrite E lookup_empty in Hu.
  enough (None = Some n) by done. apply Hu. rewrite El used_app. cbn [used]. apply elem_of_app. right. by left.
Qed.

(** Nothing lies beside the main block when nothing is in use. *)
Lemma page_alone : us = ∅ -> pre = [(Head, 32)] /\ post = [(End, 32)].
Proof using Hok.
  intros E. pose proof (ok_shape _ _ _ _ Hok) as Hs. pose proof (block_in_use) as Hu.
  destruct page_split as (pre' & post' & -> & -> & _). split.
  - destruct pre' as [|[k n] l _] using rev_ind; [done|]. exfalso.
    assert (Hk : k <> Used) by (apply (Hu k n E); set_solver).
    set (rest := post' ++ [(End, 32)]) in *.
    replace (((Head, 32) :: l ++ [(k, n)]) ++ (Main, m) :: rest) with (((Head, 32) :: l) ++ (k, n) :: (Main, m) :: rest) in Hs
      by (cbn [app]; by rewrite -app_assoc).
    rewrite shape_snoc_cons in Hs. apply andb_true_iff in Hs as [Hs [Hf _]%andb_true_iff].
    destruct k; try done. destruct l as [|b l _] using rev_ind; [done|].
    replace (((Head, 32) :: l ++ [b]) ++ [(Head, n)]) with (((Head, 32) :: l) ++ b :: (Head, n) :: []) in Hs
      by (cbn [app]; by rewrite -app_assoc).
    rewrite shape_snoc_cons in Hs.
    apply andb_true_iff in Hs as [_ [Hf2 _]%andb_true_iff]. by destruct b as [[] ?].
  - destruct post' as [|[k n] l]; [done|]. exfalso.
    assert (Hk : k <> Used) by (apply (Hu k n E); set_solver).
    rewrite shape_app in Hs. apply andb_true_iff in Hs as [_ Hs]. cbn [app shape] in Hs.
    apply andb_true_iff in Hs as [Hf Hs]. destruct k; try done.
    destruct l as [|[[] ?] l]; discriminate Hs.
Qed.

Lemma leak_iff : m = p_size pg - 64 <-> us = ∅.
Proof using Hok.
  destruct page_split as (pre' & post' & Epre & Epost & Hb1 & Hb2 & Ht). split.
  - intros Em. assert (Hnil : forall l, Forall block_ok l -> total l = 0 -> l = []).
    { intros [|[k n] l] H H0; [done|]. apply Forall_cons in H as [[H1 _] H2%blocks_total_nonneg]. cbn in *. lia. }
    pose proof (blocks_total_nonneg _ Hb1). pose proof (blocks_total_nonneg _ Hb2).
    rewrite (Hnil pre') in Epre; [|done|lia]. rewrite (Hnil post') in Epost; [|done|lia].
    apply map_empty. intros x. destruct (us !! x) as [n|] eqn:Ex; [|done].
    apply (ok_used _ _ _ _ Hok) in Ex. rewrite Epre Epost in Ex. cbn in Ex. by apply elem_of_nil in Ex.
  - intros E. destruct (page_alone E) as [-> ->]. injection Epre as <-. destruct post'; [|by destruct post'].
    cbn in Ht. lia.
Qed.
End Page.

Lemma page_size_ok pg us bs fs : page_ok pg us bs fs -> 96 <= p_size pg < 2 ^ 64.
Proof.
  intros Hok. destruct (main_block _ _ _ _ Hok) as (pre & m & post & -> & _).
  destruct (page_split _ _ _ _ _ _ Hok) as (pre' & post' & _ & _ & H1%blocks_total_nonneg & H2%blocks_total_nonneg & Ht).
  destruct (page_room _ _ _ _ _ _ Hok) as (_ & _ & Hm & _). destruct (ok_bounds _ _ _ _ Hok). cbn in Hm. lia.
Qed.

(** ** Walking through a page *)

Lemma wp_walk tag n0 post Q : forall bs fuel a pf,
  Forall block_ok bs -> (length bs <= fuel)%nat ->
  tiles tag a pf (bs ++ (End, n0) :: post) -∗ (tiles tag a pf (bs ++ (End, n0) :: post) -∗ Q tt) -∗
  wp (walk fuel a (a + total bs)) Q.
Proof.
  induction bs as [|[k n] bs IH]; intros fuel a pf Hb Hf.
  - iIntros "H Hk". cbn [total]. rewrite Z.add_0_r. destruct fuel; cbn [walk]; (case_decide; [|done]);
    iApply wp_ret; by iApply "Hk".
  - apply Forall_cons in Hb as [[Hn _] Hb]. pose proof (blocks_total_nonneg _ Hb). cbn [snd total length] in *.
    destruct fuel as [|fuel]; [lia|]. cbn [app]. rewrite tiles_cons. iIntros "(Hg & Hs & Hb & Ht) Hk".
    cbn [walk]. case_decide; [lia|]. iApply (wp_next_pointer with "Hs"). iIntros "Hs".
    replace (a + (n + total bs)) with (a + n + total bs) by lia.
    iApply (IH with "Ht"); [done|lia|]. iIntros "Ht". iApply "Hk". iApply tiles_cons. iFrame.
Qed.

(** The walk through the blocks of a page ends. *)
Lemma wp_walk_page tag pg us Q :
  page_inv tag pg us -∗ (page_inv tag pg us -∗ Q tt) -∗
  wp (ptr ← __next_pointer (p_head pg); walk (drain_fuel pg) ptr (p_end pg)) Q.
Proof.
  iIntros "(%bs & %fs & %Hok & Ht & Hc) Hk". pose proof (page_size_ok _ _ _ _ Hok) as Hsz.
  destruct (main_block _ _ _ _ Hok) as (pre & m & post & -> & _).
  destruct (page_split _ _ _ _ _ _ Hok) as (pre' & post' & -> & -> & Hb1 & Hb2 & Hts).
  pose proof (ok_blocks _ _ _ _ Hok) as Hb. pose proof (ok_total _ _ _ _ Hok) as Htot.
  set (mid := pre' ++ (Main, m) :: post').
  assert (Ebs : ((Head, 32) :: pre') ++ (Main, m) :: post' ++ [(End, 32)] = (Head, 32) :: mid ++ (End, 32) :: []).
  { unfold mid. cbn [app]. by rewrite -app_assoc. }
  rewrite Ebs. rewrite Ebs in Hok, Hb, Htot. apply Forall_cons in Hb as [_ [Hmid _]%Forall_app].
  rewrite (ok_head _ _ _ _ Hok). iEval (rewrite tiles_cons) in "Ht". iDestruct "Ht" as "(Hg & Hs & Hb & Ht)".
  iApply (wp_next_pointer with "Hs"). iIntros "Hs".
  cbn [total] in Htot. rewrite blocks_total_app in Htot. cbn [total] in Htot.
  replace (p_end pg) with (p_start_address pg + 32 + total mid) by (rewrite (ok_end _ _ _ _ Hok); lia).
  iApply (wp_walk with "Ht"); [done| |].
  - unfold drain_fuel. change __free_pointer_size with 32.
    assert (Hlen : forall l, Forall block_ok l -> 32 * Z.of_nat (length l) <= total l).
    { induction 1 as [|[k n] l [H _] _ IH]; cbn [length total snd] in *; lia. }
    specialize (Hlen mid Hmid). assert (Z.of_nat (length mid) <= p_size pg / 32) by (apply Z.div_le_lower_bound; lia). lia.
  - iIntros "Ht". iApply "Hk". iExists _, fs. iSplit; [done|]. iSplitR "Hc"; [|].
    + iApply tiles_cons. iFrame.
    + rewrite (ok_head _ _ _ _ Hok) (ok_end _ _ _ _ Hok).
      replace (p_start_address pg + p_size pg - 32) with (p_start_address pg + 32 + total mid) by lia. done.
Qed.

(** ** The pages of a pool, the pools of the manager *)

Definition pool_with (Φ : nat -> xmalloc_page -> heapProp) (k : nat) (pl : xmalloc_pool) : heapProp :=
  (⌜pool_ok k pl⌝ ∗ [∗ list] i ↦ pg ∈ take (Z.to_nat (o_page_number pl)) (o_page pl), Φ i pg)%I.

Lemma pool_with_take Φ k pl (i : nat) :
  Z.of_nat i < o_page_number pl -> pool_with Φ k pl -∗ ∃ pg,
  ⌜get_page i pl = Some pg /\ pl <| o_page := <[i := pg]> (o_page pl) |> = pl⌝ ∗ Φ i pg ∗
  (∀ pg' Ψ, ⌜forall j z, j <> i -> Φ j z ⊢ Ψ j z⌝ -∗ Ψ i pg' -∗ pool_with Ψ k (pl <| o_page := <[i := pg']> (o_page pl) |>)).
Proof.
  iIntros (Hi) "[%Hok H]". pose proof (pool_number _ _ Hok) as Hn.
  destruct (pool_page k pl i Hok) as (pg & Hget & Hpg); [lia|]. iExists pg. iSplit.
  { iPureIntro. split; [done|]. rewrite list_insert_id //. by destruct pl. }
  assert (Ht : take (Z.to_nat (o_page_number pl)) (o_page pl) !! i = Some pg) by (rewrite lookup_take_lt //; lia).
  iDestruct (sepL_take_out with "H") as "[$ H]"; [done|]. iIntros (pg' Ψ HΨ) "Hp". iSplit; [iPureIntro; by apply pool_ok_set|].
  change (o_page_number (pl <| o_page := _ |>)) with (o_page_number pl).
  change (o_page (pl <| o_page := <[i := pg']> (o_page pl) |>)) with (<[i := pg']> (o_page pl)).
  rewrite take_insert_lt; [|lia]. iApply (sepL_put_back with "H Hp"); [done|]. intros j z _ Hj. by apply HΨ.
Qed.

(** A page in which nothing waits. *)
Definition page_flushed (k i : nat) (pg : xmalloc_page) (live : gmap Z Z) : heapProp :=
  (⌜p_id pg = Z.of_nat i /\ no_locks pg⌝ ∗ page_inv (inuse_flag k i) pg live ∗
   [∗ list] l; rs ∈ p_recycle_pool pg; [[]; []; []], rlist (l_head l) rs)%I.

Lemma flushed_any k i pg live : page_flushed k i pg live ⊢ page_any k i pg live.
Proof.
  iIntros "(%H & Hp & Hr)". iExists [[]; []; []]. iSplit; [done|]. iExists live. iFrame. iPureIntro.
  unfold waiting. cbn [concat app]. by rewrite app_nil_r.
Qed.

Lemma wp_flush_any (k i : nat) pg live Q :
  Z.of_nat i < 1024 -> Z.of_nat k < 1024 -> page_any k i pg live -∗
  (∀ pg', page_flushed k i pg' live -∗ Q pg') -∗ wp (flush_page pg) Q.
Proof.
  iIntros (Hi Hk) "(%rss & [%Hid %Hno] & Hl) Hk". destruct (inuse_flag_ok k i) as (Htag & _); [lia..|].
  pose proof Hno as [Hlock Hlists]. iAssert (⌜length rss = 3%nat⌝)%I as %Hlen.
  { iDestruct "Hl" as (us) "(_ & _ & Hr)". iDestruct (big_sepL2_length with "Hr") as %E. iPureIntro. rewrite -E.
    apply (f_equal length) in Hlists. unfold list_locks in Hlists. by rewrite length_map in Hlists. }
  iApply (wp_flush_page with "Hl"); [done|done|]. iIntros (pg' Hsame) "(%us & %Hw & Hp & Hr)". iApply "Hk".
  destruct Hsame as (H1 & H2 & _ & _ & H5). iSplit.
  { iPureIntro. split; [by rewrite H2|]. split; [by rewrite H1|]. unfold list_locks. by rewrite H5. }
  iFrame "Hr". unfold waiting in Hw. cbn [concat app] in Hw. rewrite app_nil_r in Hw.
  by rewrite (map_to_list_inj us live Hw).
Qed.

Lemma page_start tag pg us : page_inv tag pg us -∗ ⌜0 < p_start_address pg⌝.
Proof. iIntros "(%bs & %fs & %Hok & _)". iPureIntro. by destruct (ok_bounds _ _ _ _ Hok). Qed.

Lemma any_start k i pg live : page_any k i pg live -∗ ⌜0 < p_start_address pg⌝.
Proof. iIntros "(%rss & _ & (%us & _ & Hp & _))". by iApply page_start. Qed.

Section Pool.
Context (k : nat) (L : nat -> gmap Z Z) (Hk : Z.of_nat k < 1024).

(** The pages before [j] are flushed. *)
Definition stage (j i : nat) (pg : xmalloc_page) : heapProp :=
  if decide (i < j)%nat then page_flushed k i pg (L i) else page_any k i pg (L i).

Lemma wp_flush_pages n : forall (i : nat) pl Q,
  (i + n)%nat = Z.to_nat (o_page_number pl) ->
  pool_with (stage i) k pl -∗
  (∀ pl', ⌜o_page_number pl' = o_page_number pl⌝ -∗ pool_with (stage (i + n)) k pl' -∗ Q pl') -∗
  wp (flush_pages n (Z.of_nat i) pl) Q.
Proof using Hk.
  induction n as [|n IH]; intros i pl Q Hn; iIntros "H Hk"; cbn [flush_pages].
  - iApply wp_ret. rewrite Nat.add_0_r. by iApply ("Hk" with "[//] H").
  - iAssert (⌜pool_ok k pl⌝)%I as %Hok. { by iDestruct "H" as "[% _]". } pose proof (pool_number _ _ Hok) as Hnum.
    iDestruct (pool_with_take _ _ _ i with "H") as (pg) "([%Hget _] & Hp & H)"; [lia|].
    iEval (unfold stage; rewrite decide_False; [|lia]) in "Hp". iDestruct (any_start with "Hp") as %Hs.
    iApply wp_bind. iApply wp_lift; [exact Hget|]. iApply wp_bind. case_decide; [|lia]. iApply wp_bind.
    iApply (wp_flush_any with "Hp"); [lia|done|]. iIntros (pg') "Hp".
    iApply wp_lift; [eapply pool_set_page; [done|lia]|]. replace (Z.of_nat i + 1) with (Z.of_nat (S i)) by lia.
    iApply (IH (S i) with "[H Hp]"); [cbn; lia| |].
    + iApply ("H" with "[%] [Hp]").
      * intros j z Hj. unfold stage. case_decide; case_decide; (lia || done).
      * unfold stage. case_decide; [done|lia].
    + replace (S i + n)%nat with (i + S n)%nat by lia. done.
Qed.

Definition flushed : nat -> xmalloc_page -> heapProp := fun i pg => page_flushed k i pg (L i).

(** No page with a block in use is missed, and no other one is reported. *)
Lemma wp_leaking_pages n : forall (i : nat) pl Q,
  (i + n)%nat = Z.to_nat (o_page_number pl) ->
  pool_with flushed k pl -∗
  (∀ c, ⌜c = O <-> forall j, (i <= j < i + n)%nat -> L j = ∅⌝ -∗ pool_with flushed k pl -∗ Q c) -∗
  wp (leaking_pages n (Z.of_nat i) pl) Q.
Proof using Hk.
  induction n as [|n IH]; intros i pl Q Hn; iIntros "H Hk"; cbn [leaking_pages].
  - iApply wp_ret. iApply ("Hk" with "[%] H"). split; [lia|done].
  - iAssert (⌜pool_ok k pl⌝)%I as %Hok. { by iDestruct "H" as "[% _]". } pose proof (pool_number _ _ Hok) as Hnum.
    iDestruct (pool_with_take _ _ _ i with "H") as (pg) "([%Hget %Hsame] & Hp & H)"; [lia|].
    iDestruct "Hp" as "(%Hno & Hp & Hr)". iDestruct (page_start with "Hp") as %Hs.
    iApply wp_bind. iApply wp_lift; [exact Hget|]. iApply wp_bind. case_decide; [lia|].
    iDestruct (page_main_intro with "Hp") as (m) "Hp".
    iAssert (⌜m = p_size pg - 64 <-> L i = ∅⌝ ∗ ⌜96 <= p_size pg < 2 ^ 64⌝)%I as "[%Hleak %Hsz]".
    { iDestruct "Hp" as (pre post fs) "(%Hpok & _)". iPureIntro. split; [by eapply leak_iff|by eapply page_size_ok]. }
    iApply (wp_main_size with "Hp"). iIntros "Hp". iApply wp_ret. iDestruct (page_main_elim with "Hp") as "Hp".
    change (__free_pointer_size * 2) with 64. rewrite u64_small; [|lia]. iApply wp_bind.
    iAssert (∀ b : bool, ⌜b = false <-> L i = ∅⌝ -∗ page_inv (inuse_flag k i) pg (L i) -∗
      wp (c ← leaking_pages n (Z.of_nat i + 1) pl; mret (if b then S c else c)) Q)%I with "[Hr H Hk]" as "Hgo".
    { iIntros (b Hb) "Hp". iApply wp_bind. replace (Z.of_nat i + 1) with (Z.of_nat (S i)) by lia.
      iApply (IH (S i) with "[H Hp Hr]"); [lia| |].
      - iEval (rewrite -Hsame). iApply ("H" $! pg flushed with "[%] [Hp Hr]"); [done|]. iFrame. done.
      - iIntros (c Hc) "H". iApply wp_ret. iApply ("Hk" with "[%] H"). destruct b.
        + split; [done|]. intros HL. assert (L i = ∅) as E by (apply HL; lia). apply Hb in E. done.
        + rewrite Hc. assert (L i = ∅) by by apply Hb. split; intros HL j Hj; [|apply HL; lia].
          destruct (decide (j = i)) as [->|]; [done|]. apply HL. lia. }
    case_bool_decide as Hm.
    + iApply (wp_walk_page with "Hp"). iIntros "Hp". iApply ("Hgo" $! true with "[%] Hp"). split; [intros [=]|intros E]. apply Hleak in E. exfalso. lia.
    + iApply wp_ret. iApply ("Hgo" $! false with "[%] Hp"). split; [|done]. intros _. apply Hleak. destruct (decide (m = p_size pg - 64)); tauto.
Qed.
End Pool.

Section Heap.
Context (page_size max limit : Z) (Hpage : 0 <= page_size < 2 ^ 61) (Hmax : 0 < max <= 1024) (Hlimit : limit < 2 ^ 61).

Definition pools_with (Ψ : nat -> xmalloc_pool -> heapProp) (mm : xmalloc) : heapProp :=
  ([∗ list] k ↦ pl ∈ take (Z.to_nat max) (m_pool mm), Ψ k pl)%I.

Lemma pools_with_take mm m Ψ (k : nat) :
  manager_ok page_size max mm m -> Z.of_nat k < max -> pools_with Ψ mm -∗ ∃ pl,
  ⌜m_pool mm !! k = Some pl /\ rd (m_pool mm) k = Some pl⌝ ∗ Ψ k pl ∗
  (∀ pl' Ψ', ⌜forall j z, j <> k -> Ψ j z ⊢ Ψ' j z⌝ -∗ Ψ' k pl' -∗ pools_with Ψ' (mm <| m_pool := <[k := pl']> (m_pool mm) |>)).
Proof using Hmax.
  iIntros (Hok Hk) "H". pose proof (mg_length _ _ _ _ Hok) as Hl.
  destruct (lookup_lt_is_Some_2 (m_pool mm) k) as [pl Hpl]; [lia|]. iExists pl. iSplit.
  { iPureIntro. split; [done|]. unfold rd. case_decide; [|lia]. by rewrite Nat2Z.id. }
  assert (Ht : take (Z.to_nat max) (m_pool mm) !! k = Some pl) by (rewrite lookup_take_lt //; lia).
  iDestruct (sepL_take_out with "H") as "[$ H]"; [done|]. iIntros (pl' Ψ' HΨ) "Hp".
  unfold pools_with. change (m_pool (mm <| m_pool := <[k:=pl']> (m_pool mm) |>)) with (<[k:=pl']> (m_pool mm)).
  rewrite take_insert_lt; [|lia]. iApply (sepL_put_back with "H Hp"); [done|].
  intros j z _ Hj. by apply HΨ.
Qed.

Lemma manager_ok_pool mm m (k : nat) pl pl' :
  manager_ok page_size max mm m -> m_pool mm !! k = Some pl -> o_page_number pl' = o_page_number pl ->
  manager_ok page_size max (mm <| m_pool := <[k := pl']> (m_pool mm) |>) m.
Proof.
  intros Hok Hpl Hn. eapply manager_ok_set; [exact Hmax|exact Hok|exact Hpl|by apply Z.eq_le_incl| |by destruct Hok|done..].
  intros p e He. by left.
Qed.

(** The pools before [j] are flushed. *)
Definition pool_stage (m : gmap Z entry) (j k : nat) (pl : xmalloc_pool) : heapProp :=
  if decide (k < j)%nat then pool_with (flushed k (fun i => live_of k i m)) k pl
  else pool_inv k pl (fun i => live_of k i m).

Lemma grown_trans d1 d2 mm1 mm2 mm3 : grown d1 mm1 mm2 -> grown d2 mm2 mm3 -> grown (d1 + d2) mm1 mm3.
Proof.
  intros H1 H2 k pl Hk. destruct (H2 k pl Hk) as (pl2 & Hk2 & Hl2). destruct (H1 k pl2 Hk2) as (pl1 & Hk1 & Hl1).
  exists pl1. split; [done|lia].
Qed.

Lemma wp_flush_pools m n : forall (k : nat) mm Q,
  (k + n)%nat = Z.to_nat max -> manager_ok page_size max mm m ->
  pools_with (pool_stage m k) mm -∗
  (∀ mm', ⌜manager_ok page_size max mm' m /\ grown 0 mm mm'⌝ -∗ pools_with (pool_stage m (k + n)) mm' -∗ Q mm') -∗
  wp (flush_pools n (Z.of_nat k) mm) Q.
Proof using Hmax.
  induction n as [|n IH]; intros k mm Q Hn Hok; iIntros "H Hk"; cbn [flush_pools].
  - iApply wp_ret. rewrite Nat.add_0_r. iApply ("Hk" with "[%] H"). split; [done|]. intros j pl Hj. exists pl. split; [done|lia].
  - iDestruct (pools_with_take _ _ _ k with "H") as (pl) "([%Hpl %Hrd] & Hp & H)"; [done|lia|].
    iEval (unfold pool_stage; rewrite decide_False; [|lia]) in "Hp".
    iDestruct (pool_inv_ok with "Hp") as %Hpo. pose proof (pool_number _ _ Hpo) as Hnum.
    iApply wp_bind. iApply wp_lift; [exact Hrd|]. iApply wp_bind.
    iApply (wp_flush_pages k _ ltac:(lia) _ 0 with "Hp"); [lia|]. iIntros (pl' Hn') "Hp". iApply wp_bind.
    iApply wp_lift; [eapply set_pool_ok; [exact Hmax|exact Hok|lia]|].
    iDestruct ("H" $! pl' (pool_stage m (S k)) with "[%] [Hp]") as "H".
    { intros j z Hj. unfold pool_stage. case_decide; case_decide; (lia || done). }
    { unfold pool_stage. case_decide; [|lia]. iDestruct "Hp" as "[$ Hp]". rewrite Hn'.
      iApply (big_sepL_mono with "Hp"). intros i pg Hi. apply lookup_lt_Some in Hi. rewrite length_take in Hi.
      unfold stage. case_decide; [done|lia]. }
    replace (Z.of_nat k + 1) with (Z.of_nat (S k)) by lia.
    iApply (IH (S k) with "H"); [lia|by eapply manager_ok_pool|]. replace (S k + n)%nat with (k + S n)%nat by lia.
    iIntros (mm' [Hok' Hg]) "H". iApply ("Hk" with "[%] H"). split; [done|].
    apply (grown_trans 0 0 _ (mm <| m_pool := <[k := pl']> (m_pool mm) |>)); [|done].
    eapply grown_set; [exact Hpl|done|lia|done].
Qed.

Definition pools_flushed (m : gmap Z entry) (mm : xmalloc) : heapProp :=
  pools_with (fun k pl => pool_with (flushed k (fun i => live_of k i m)) k pl) mm.

Lemma wp_leaking_pools m mm n : forall (k : nat) Q,
  (k + n)%nat = Z.to_nat max -> manager_ok page_size max mm m ->
  pools_flushed m mm -∗
  (∀ c, ⌜c = O <-> forall j pl i, (k <= j < k + n)%nat -> m_pool mm !! j = Some pl -> Z.of_nat i < o_page_number pl -> live_of j i m = ∅⌝ -∗
     pools_flushed m mm -∗ Q c) -∗
  wp (leaking_pools n (Z.of_nat k) mm) Q.
Proof using Hmax.
  induction n as [|n IH]; intros k Q Hn Hok; iIntros "H Hk"; cbn [leaking_pools].
  - iApply wp_ret. iApply ("Hk" with "[%] H"). split; [lia|done].
  - iDestruct (pools_with_take _ _ _ k with "H") as (pl) "([%Hpl %Hrd] & Hp & H)"; [done|lia|].
    iApply wp_bind. iApply wp_lift; [exact Hrd|]. iApply wp_bind.
    iApply (wp_leaking_pages k _ ltac:(lia) _ 0 with "Hp"); [lia|]. iIntros (c Hc) "Hp". iApply wp_bind.
    replace (Z.of_nat k + 1) with (Z.of_nat (S k)) by lia.
    iApply (IH (S k) with "[H Hp]"); [lia|done| |].
    + iDestruct ("H" $! pl (fun k pl => pool_with (flushed k (fun i => live_of k i m)) k pl) with "[%] Hp") as "H"; [done|].
      rewrite list_insert_id //.
    + iIntros (c' Hc') "H". iApply wp_ret. iApply ("Hk" with "[%] H"). rewrite Nat.eq_add_0 Hc Hc'. split.
      * intros [H1 H2] j pl' i Hj Hpl' Hi. destruct (decide (j = k)) as [->|]; [|eapply H2; [lia|done..]].
        rewrite Hpl in Hpl'. injection Hpl' as <-. apply H1. lia.
      * intros H. split; [intros i Hi; eapply H; [lia|done|lia]|intros j pl' i Hj; apply H; lia].
Qed.

Lemma live_of_empty m mm :
  manager_ok page_size max mm m ->
  (forall j pl i, (0 <= j < 0 + Z.to_nat max)%nat -> m_pool mm !! j = Some pl -> Z.of_nat i < o_page_number pl -> live_of j i m = ∅) <-> m = ∅.
Proof.
  intros Hok. split; [|intros -> j pl i _ _ _; apply omap_empty]. intros H. apply map_empty. intros p.
  destruct (m !! p) as [e|] eqn:Hp; [|done]. exfalso.
  destruct (mg_where _ _ _ _ Hok p e Hp) as (pl & Hpl & Hk & Hi). specialize (H e.2.1 pl e.2.2 ltac:(lia) Hpl Hi).
  pose proof (live_of_Some e.2.1 e.2.2 m p e Hp ltac:(by destruct e as [? []])) as Hl. by rewrite H in Hl.
Qed.

Lemma wp_leak_trace mm m os Q :
  heap_with page_size max limit mm m os -∗
  (∀ c mm', ⌜c = O <-> m = ∅⌝ -∗ heap_with page_size max limit mm' m os -∗ Q (c, mm')) -∗
  wp (xmalloc_leak_trace mm) Q.
Proof using Hmax.
  iIntros "([%Hroom %Hos] & (%Hok & Hpools & Hc) & Hst) Hk". unfold xmalloc_leak_trace, flush_cache.
  iApply wp_bind. rewrite (mg_number _ _ _ _ Hok).
  iApply (wp_flush_pools m _ 0 with "[Hpools]"); [lia|done| |].
  { iApply (big_sepL_mono with "Hpools"). intros k pl _. unfold pool_stage. by case_decide; [lia|]. }
  iIntros (mm' [Hok' Hg]) "H". iApply wp_bind. rewrite (mg_number _ _ _ _ Hok').
  iApply (wp_leaking_pools m mm' _ 0 with "[H]"); [lia|done| |].
  { iApply (big_sepL_mono with "H"). intros k pl Hp. apply lookup_lt_Some in Hp. rewrite length_take in Hp.
    unfold pool_stage. case_decide; [done|lia]. }
  iIntros (c Hc) "H". iApply wp_ret. iApply ("Hk" with "[%]"); [by rewrite Hc live_of_empty|]. iFrame "Hst Hc".
  iSplit. { iPureIntro. split; [|done]. eapply room_grown; [exact Hroom|exact Hg|lia]. }
  iSplit; [done|]. iApply (big_sepL_mono with "H"). intros k pl _. iIntros "[$ H]".
  iApply (big_sepL_mono with "H"). intros i pg _. apply flushed_any.
Qed.

Lemma leak_trace_start : xmalloc_leak_trace (memory_manager max) = mret (O, memory_manager max).
Proof. done. Qed.

(** C28: The search for leaks reports something if and only if a block has not been freed,
    in whatever order and under whatever locks the others were; it ends, and leaves the blocks
    as they are. *)
Theorem leak_trace_is_exact mm h os σ :
  allocator page_size max limit mm h os σ ->
  exists c mm' σ', xmalloc_leak_trace mm σ = Some ((c, mm'), σ') /\ (c = O <-> h = ∅) /\
    allocator page_size max limit mm' h os σ'.
Proof using Hmax.
  intros (m & Hv & Hm). assert (Hh : h = ∅ <-> m = ∅).
  { split; intros ->; apply map_empty; intros p.
    - specialize (Hv (p + 16)). rewrite lookup_empty in Hv. replace (p + 16 - 16) with p in Hv by lia. by destruct (m !! p).
    - rewrite Hv. by rewrite lookup_empty. }
  destruct (wp_run_whole (heap_state page_size max limit mm m os) (xmalloc_leak_trace mm)
    (fun x => ∃ m', ⌜(x.1 = O <-> m = ∅) /\ m' = m⌝ ∗ heap_state page_size max limit x.2 m' os)%I σ)
    as ([c mm'] & σ' & Hc & m' & Hx); [|done|].
  - iIntros "[H|[%H Hst]]".
    + iApply (wp_leak_trace with "H"). iIntros (c mm' Hc) "H". iExists m. iSplit; [done|]. by iLeft.
    + destruct H as (-> & H). rewrite leak_trace_start. iApply wp_ret. iExists m. iSplit; [iPureIntro|].
      * split; [|done]. split; [intros _; by destruct H|done].
      * iRight. by iFrame.
  - apply holds_pure_sep in Hx as [[Hx ->] H']. exists c, mm', σ'. split; [done|]. split; [by rewrite Hh|]. by exists m.
Qed.
End Heap.

Lemma leak_trace_is_exact_witness :
  exists c mm' σ', xmalloc_leak_trace (memory_manager 1) example_memory = Some ((c, mm'), σ') /\ (c = O <-> (∅ : blocks) = ∅) /\
    allocator 1000 1 6000 mm' ∅ example_stock σ'.
Proof. apply (leak_trace_is_exact 1000 1 6000); [lia|apply example_start]. Defined.
