(* ===== verification/XmallocFaults.v ===== *)
(** * Where the allocator fails

    A page for which there was no memory, and the wrap-around of sizes near
    [2^64]. *)

From iris.bi Require Import interface.
From iris.proofmode Require Import proofmode.
From S2P Require Import Prelude Bytes Heaplet Xmalloc.
#[local] Open Scope Z_scope.

(** There is nothing at the address [NULL]. *)
Definition null_unmapped (σ : mem) : Prop := forall i, 0 <= i < 16 -> forall b, σ !! i <> Some (Some b).

Lemma load_unmapped a σ : (forall b, σ !! a <> Some (Some b)) -> load a σ = None.
Proof.
  intros H. unfold load, mbind, M_bind. cbn [load_bytes]. unfold mbind, M_bind, load1.
  destruct (σ !! a) as [[b|]|] eqn:E; [|done|done]. by destruct (H b).
Qed.

Lemma bind_some {A B} (c : M A) (k : A -> M B) x σ σ' : c σ = Some (x, σ') -> (c ≫= k) σ = k x σ'.
Proof. intros H. unfold mbind, M_bind. by rewrite H. Qed.

Lemma bind_lift {A B} (o : option A) (k : A -> M B) x σ : o = Some x -> (lift o ≫= k) σ = k x σ.
Proof. by intros ->. Qed.

(** The page that the pool opens. *)
Lemma next_page_new fuel busy pl (n : nat) :
  Z.of_nat n < 1023 -> o_page_number pl = Z.of_nat n -> o_page pl !! n = Some no_page -> busy (Z.of_nat n) = false ->
  next_page (S fuel) busy pl =
    Some (Some (Z.of_nat n), pl <| o_page_number := Z.of_nat n + 1 |>
      <| o_page := <[n := no_page <| p_lock := true |> <| p_id := Z.of_nat n |>]> (o_page pl) |>).
Proof.
  intros Hn Hnum Hpg Hb. assert (Hlt : (n < length (o_page pl))%nat) by by eapply lookup_lt_Some.
  cbn [next_page]. rewrite Hnum. change __max_page_number with 1024. case_decide; [|lia]. rewrite u64_small; [|lia].
  unfold get_page, rd. change (o_page (pl <| o_page_number := _ |>)) with (o_page pl). case_decide; [|lia].
  rewrite Nat2Z.id Hpg. cbn [mbind option_bind]. unfold try_lock_page. rewrite Hb. cbn [orb p_lock no_page].
  case_decide as Hid; [|by destruct Hid]. unfold set_page, wr.
  change (o_page (pl <| o_page_number := _ |>)) with (o_page pl). case_decide; [|lia]. by rewrite Nat2Z.id.
Qed.

Lemma malloc_page_failed mask pl pg page_size os σ :
  let size := Z.land (u64 (page_size + __free_pointer_size * 4 + mask)) (u64 (Z.lnot mask)) in
  malloc_page mask pl pg page_size (__XAPI_MAP_FAILED :: os) σ =
    Some ((false, pl <| o_aligned_address := 0 |>, pg <| p_size := size |> <| p_start_address := __XAPI_MAP_FAILED |>, os), σ).
Proof.
  intros size. unfold malloc_page. fold size.
  assert (Hm : map_aligned (__XAPI_MAP_FAILED :: os) 0 size σ = Some ((false, __XAPI_MAP_FAILED, 0, os), σ)).
  { cbn [map_aligned]. rewrite (bind_some _ _ __XAPI_MAP_FAILED σ σ); [by case_decide|]. unfold mmap. by case_decide. }
  by rewrite (bind_some _ _ _ _ _ Hm).
Qed.

(** C39: When [mmap] has no memory for a page the request is answered with [NULL], but the page
    stays in its pool without a first block: every later search for room that gets to it
    dereferences [NULL]. *)
Theorem failed_page_is_fatal busy size page_size mask pl os σ (n : nat) :
  Z.of_nat n < 1022 -> o_page_number pl = Z.of_nat n -> o_page pl !! n = Some no_page -> busy (Z.of_nat n) = false ->
  exists pl', malloc_new_page busy size page_size mask pl (__XAPI_MAP_FAILED :: os) σ = Some ((0, pl', os), σ) /\
    o_page_number pl' = Z.of_nat n + 1 /\
    forall later size' σ', later (Z.of_nat n) = false -> null_unmapped σ' ->
      forall more, scan (S more) (Z.of_nat n) later size' pl' σ' = None.
Proof.
  intros Hn Hnum Hpg Hb. assert (Hlt : (n < length (o_page pl))%nat) by by eapply lookup_lt_Some.
  set (pg1 := no_page <| p_lock := true |> <| p_id := Z.of_nat n |>).
  set (sz := Z.land (u64 (u64 (page_size + size) + __free_pointer_size * 4 + mask)) (u64 (Z.lnot mask))).
  set (pg2 := unlock_page (pg1 <| p_size := sz |> <| p_start_address := __XAPI_MAP_FAILED |>)).
  exists (pl <| o_page_number := Z.of_nat n + 1 |> <| o_page := <[n := pg2]> (<[n := pg1]> (o_page pl)) |>
             <| o_aligned_address := 0 |>).
  assert (Hl1 : <[n := pg1]> (o_page pl) !! n = Some pg1) by by apply list_lookup_insert_eq.
  assert (Hl2 : <[n := pg2]> (<[n := pg1]> (o_page pl)) !! n = Some pg2)
    by (apply list_lookup_insert_eq; by rewrite length_insert).
  split_and!; [|done|].
  - unfold malloc_new_page. rewrite (next_page_new _ _ _ n); [|lia|done..]. fold pg1.
    erewrite bind_lift; [|done]. cbv beta iota. change __max_page_number with 1024.
    set (pl1 := pl <| o_page_number := _ |> <| o_page := _ |>). change (o_page_number pl1) with (Z.of_nat n + 1).
    case_decide; [lia|]. erewrite bind_lift; [|done].
    assert (Hget : get_page (Z.of_nat n) pl1 = Some pg1) by (unfold get_page, rd; case_decide; [by rewrite Nat2Z.id|lia]).
    erewrite bind_lift; [|exact Hget].
    erewrite bind_some; [|apply malloc_page_failed]. cbv beta iota. erewrite bind_lift; [done|].
    unfold set_page, wr. case_decide as Hin; [rewrite Nat2Z.id; reflexivity|]. exfalso. apply Hin.
    change (0 <= Z.of_nat n < Z.of_nat (length (<[n := pg1]> (o_page pl)))). rewrite length_insert. lia.
  - intros later size' σ' Hl Hnull more. cbn [scan]. erewrite bind_lift; [|].
    2: { unfold get_page, rd. case_decide; [|lia]. rewrite Nat2Z.id. exact Hl2. }
    assert (Hroom : make_room size' (pg2 <| p_lock := true |>) σ' = None).
    { unfold make_room, get_size. unfold mbind at 1, M_bind at 1. change (p_ptr (pg2 <| p_lock := true |>) + 8) with 8.
      rewrite load_unmapped; [done|]. intros b. by apply Hnull. }
    replace (try_lock_page (later (Z.of_nat n)) pg2) with (Some (pg2 <| p_lock := true |>)) by (unfold try_lock_page; by rewrite Hl).
    unfold mbind at 1, M_bind at 1. by rewrite Hroom.
Qed.

Lemma failed_page_is_fatal_witness :
  exists pl', malloc_new_page (fun _ => false) 64 1000 4095 no_pool [__XAPI_MAP_FAILED] ∅ = Some ((0, pl', []), ∅) /\
    o_page_number pl' = 1 /\
    forall later size' σ', later 0 = false -> null_unmapped σ' ->
      forall more, scan (S more) 0 later size' pl' σ' = None.
Proof. apply (failed_page_is_fatal (fun _ => false) 64 1000 4095 no_pool [] ∅ 0); [lia|done|done|done]. Defined.

(** Sizes wrap around: a request for nearly [2^64] bytes gets a block of 16, and [calloc]
    clears and returns a block for the product modulo [2^64]. *)
Lemma huge_request_wraps page_size max os busy req mm :
  2 ^ 64 - 16 <= req < 2 ^ 64 -> malloc page_size max os busy req mm = malloc page_size max os busy 16 mm.
Proof.
  intros Hreq. unfold malloc. replace (__req2align req) with (__req2align 16); [done|].
  unfold __req2align at 2. case_decide as H; [done|]. exfalso. apply H. change __work_pointer_size with 16.
  change __free_pointer_size with 32. unfold u64, wrap. replace (req + 16) with (req + 16 - 2 ^ 64 + 1 * 2 ^ 64) by lia.
  rewrite Z_mod_plus_full Z.mod_small; lia.
Qed.

Lemma calloc_wraps page_size max os busy number size mm :
  calloc page_size max os busy number size mm = calloc page_size max os busy 1 (u64 (size * number)) mm.
Proof. unfold calloc. by rewrite Z.mul_1_r (u64_small (u64 _)); [|apply u64_range]. Qed.
