(* ===== verification/Files.v ===== *)
(** * The file functions of [xapi/xapi.c]

    The functions that [__xapi] offers for files and directories, on top of the
    calls of libuv and the C library that they make.  [Uv] is those calls, on
    the state [W] of the operating system; [Posix] is what their documentation
    promises about regular files. *)

From stdpp Require Import gmap.
From S2P Require Import Prelude.

#[local] Open Scope Z_scope.

(** ** The calls

    A path is the C string without its terminator.  A file or directory is
    known by its number; negative results are errors.  [uv_fs_stat] gives the
    result, the mode and the size, [uv_fs_readdir] the number of entries read
    and the entry's name and type, [uv_fs_read] the result and the bytes. *)
Class Uv (W : Type) := {
  uv_fs_open : list Z -> Z -> Z -> W -> W * Z;
  uv_fs_close : Z -> W -> W * Z;
  uv_fs_read : Z -> Z -> W -> W * (Z * list Z);
  uv_fs_write : Z -> list Z -> W -> W * Z;
  lseek : Z -> Z -> Z -> W -> W * Z;
  uv_fs_stat : list Z -> W -> Z * Z * Z;
  uv_fs_mkdir : list Z -> Z -> W -> W * Z;
  uv_fs_opendir : list Z -> W -> W * (Z * Z);
  uv_fs_readdir : Z -> W -> W * (Z * (list Z * Z));
  uv_fs_closedir : Z -> W -> W;
}.

(** The flags of Linux. *)
Definition UV_FS_O_RDONLY : Z := 0.
Definition UV_FS_O_WRONLY : Z := 1.
Definition UV_FS_O_CREAT : Z := 64.
Definition UV_FS_O_TRUNC : Z := 512.
Definition UV_FS_O_APPEND : Z := 1024.
Definition S_IFDIR : Z := 16384.
Definition S_IFREG : Z := 32768.
Definition SEEK_CUR : Z := 1.
Definition UV_DIRENT_DIR : Z := 2.

Definition XAPI_FS_FLAG_READ : Z := 1.
Definition XAPI_FS_FLAG_WRITE : Z := 2.
Definition XAPI_FS_FLAG_CREATE : Z := 4.
Definition __XAPI_FS_ITEM_TYPE_DIR : Z := 0.
Definition __XAPI_FS_ITEM_TYPE_FILE : Z := 1.

Definition PATH_MAX : Z := 4096.
Definition FS_PATH_MAX_LEN : Z := 4096.

Definition slash : Z := 47.
Definition dot : Z := 46.

(** [snprintf("%s/%s")] into a buffer that is large enough. *)
Definition join (dir name : list Z) : list Z := dir ++ slash :: name.

(** ** Files *)

Record xfs_item := mkitem { i_type : Z; i_path : list Z; i_size : Z }.

(** The scanner: the directories that wait, and the one that is being read with
    its path. *)
Record traverser := mktraverser {
  t_stack : list (list Z); t_path : option (list Z); t_dir : option Z;
}.

Section Files.
Context {W : Type} `{Uv W}.

(** [flags] are one of the three constants; otherwise [fd] is not set. *)
Definition __fs_file_open (path : list Z) (flags mode : Z) (w : W) : option (W * Z) :=
  if decide (flags = XAPI_FS_FLAG_WRITE) then
    Some (uv_fs_open path (Z.lor (Z.lor UV_FS_O_WRONLY UV_FS_O_CREAT) UV_FS_O_APPEND) mode w)
  else if decide (flags = XAPI_FS_FLAG_READ) then Some (uv_fs_open path UV_FS_O_RDONLY mode w)
  else if decide (flags = XAPI_FS_FLAG_CREATE) then
    Some (uv_fs_open path (Z.lor (Z.lor UV_FS_O_WRONLY UV_FS_O_CREAT) UV_FS_O_TRUNC) mode w)
  else None.

Definition __fs_file_close (fd : Z) (w : W) : W * Z := uv_fs_close fd w.
Definition __fs_file_read (fd size : Z) (w : W) : W * (Z * list Z) := uv_fs_read fd (u32 size) w.
Definition __fs_file_write (fd : Z) (data : list Z) (w : W) : W * Z := uv_fs_write fd data w.
Definition __fs_file_tell (fd : Z) (w : W) : W * Z := lseek fd 0 SEEK_CUR w.

Definition __fs_dir_exist (path : list Z) (w : W) : bool :=
  let '(r, mode, _) := uv_fs_stat path w in bool_decide (r = 0 /\ Z.land mode S_IFDIR ≠ 0).
Definition __fs_file_exist (path : list Z) (w : W) : bool :=
  let '(r, mode, _) := uv_fs_stat path w in bool_decide (r = 0 /\ Z.land mode S_IFREG ≠ 0).
Definition __fs_file_size (path : list Z) (w : W) : Z :=
  let '(r, mode, size) := uv_fs_stat path w in
  if decide (r = 0 /\ Z.land mode S_IFREG ≠ 0) then size else 0.

Definition __fs_dir_maker (path : list Z) (w : W) : W * Z := uv_fs_mkdir path 493 w.

(** The directories above, from the second character on; [pre] is what lies
    before [p]. *)
Fixpoint maker_loop (pre p : list Z) (w : W) : W * Z :=
  match p with
  | [] => (w, 0)
  | c :: p =>
      if decide (c = slash) then
        if __fs_dir_exist pre w then maker_loop (pre ++ [c]) p w
        else
          let '(w, ret) := __fs_dir_maker pre w in
          if decide (ret ≠ 0) then (w, ret) else maker_loop (pre ++ [c]) p w
      else maker_loop (pre ++ [c]) p w
  end.

(** The copy in [buf] is cut at its size; [buf[len - 1]] is outside of it when
    the path is longer. *)
Definition __fs_path_maker (path : option (list Z)) (w : W) : option (W * Z) :=
  match path with
  | None | Some [] => Some (w, -1)
  | Some path =>
      if __fs_dir_exist path w then Some (w, 0)
      else if decide (Z.of_nat (length path) > PATH_MAX) then None
      else
        let buf := take (Z.to_nat (PATH_MAX - 1)) path in
        let buf := if decide (path !! (length path - 1)%nat = Some slash) then removelast buf else buf in
        let '(w, ret) := maker_loop (take 1 buf) (drop 1 buf) w in
        Some (if decide (ret = 0) then __fs_dir_maker buf w else (w, ret))
  end.

(** ** The scanner *)

Definition stack_push (path : list Z) (t : traverser) : traverser :=
  mktraverser (path :: t_stack t) (t_path t) (t_dir t).

Definition traverser_init (start_path : list Z) : traverser :=
  stack_push start_path (mktraverser [] None None).

Definition traverser_free (t : traverser) (w : W) : W :=
  match t_dir t with Some d => uv_fs_closedir d w | None => w end.

Definition is_dots (name : list Z) : bool := bool_decide (name = [dot] \/ name = [dot; dot]).

(** [fuel] bounds the entries that are skipped before the next result.  Any
    failure ends the scan as if there were nothing left. *)
Fixpoint traverser_next (fuel : nat) (t : traverser) (w : W) : option (W * (traverser * option xfs_item)) :=
  match fuel with
  | O => None
  | S fuel =>
      match t_dir t with
      | None =>
          match t_stack t with
          | [] => Some (w, (mktraverser [] None None, None))
          | path :: rest =>
              let '(w, (r, d)) := uv_fs_opendir path w in
              if decide (r < 0) then Some (w, (mktraverser rest None None, None))
              else Some (w, (mktraverser rest (Some path) (Some d), Some (mkitem __XAPI_FS_ITEM_TYPE_DIR path 0)))
          end
      | Some d =>
          let closed := mktraverser (t_stack t) None None in
          let '(w, (r, (name, type))) := uv_fs_readdir d w in
          if decide (r < 0) then Some (uv_fs_closedir d w, (closed, None))
          else if decide (r = 0) then traverser_next fuel closed (uv_fs_closedir d w)
          else if is_dots name then traverser_next fuel t w
          else
            path ← t_path t;
            let full := join path name in
            if decide (FS_PATH_MAX_LEN <= Z.of_nat (length full)) then Some (uv_fs_closedir d w, (closed, None))
            else if decide (type = UV_DIRENT_DIR) then traverser_next fuel (stack_push full t) w
            else Some (w, (t, Some (mkitem __XAPI_FS_ITEM_TYPE_FILE full (__fs_file_size full w))))
      end
  end.
End Files.

(** ** What the calls promise

    [disk] holds the contents of the regular files, [opened] the path and the
    position of each file number in use, and whether it only appends.  [healthy] says that the system has
    memory, space and permissions for what is asked, and [place] that a file
    can be made at a path: its directory is there and the path is not one
    itself. *)
Record ofile := mkofile { o_path : list Z; o_pos : Z; o_append : bool }.

Class FileView (W : Type) := {
  disk : W -> gmap (list Z) (list Z);
  opened : W -> gmap Z ofile;
  healthy : W -> Prop;
  place : W -> list Z -> Prop;
}.

Record changes {W} `{FileView W} (w w' : W) (d : gmap (list Z) (list Z)) (o : gmap Z ofile) : Prop := mkchanges {
  ch_disk : disk w' = d;
  ch_opened : opened w' = o;
  ch_healthy : healthy w';
  ch_place p : place w p -> place w' p;
}.

(** The part of [c] from [pos] on is replaced by [bs]. *)
Definition overwrite (c : list Z) (pos : Z) (bs : list Z) : list Z :=
  take (Z.to_nat pos) c ++ bs ++ drop (Z.to_nat pos + length bs) c.

Class Posix (W : Type) `{Uv W} `{FileView W} := {
  open_read w p c mode : healthy w -> disk w !! p = Some c ->
    exists w' fd, uv_fs_open p UV_FS_O_RDONLY mode w = (w', fd) /\ 0 <= fd /\ opened w !! fd = None
      /\ changes w w' (disk w) (<[fd := mkofile p 0 false]> (opened w));
  open_create w p mode : healthy w -> place w p ->
    exists w' fd, uv_fs_open p (Z.lor (Z.lor UV_FS_O_WRONLY UV_FS_O_CREAT) UV_FS_O_TRUNC) mode w = (w', fd)
      /\ 0 <= fd /\ opened w !! fd = None /\ changes w w' (<[p := []]> (disk w)) (<[fd := mkofile p 0 false]> (opened w));
  open_append w p c mode : healthy w -> disk w !! p = Some c ->
    exists w' fd, uv_fs_open p (Z.lor (Z.lor UV_FS_O_WRONLY UV_FS_O_CREAT) UV_FS_O_APPEND) mode w = (w', fd)
      /\ 0 <= fd /\ opened w !! fd = None /\ changes w w' (disk w) (<[fd := mkofile p 0 true]> (opened w));
  read_file w fd p pos c n : healthy w -> opened w !! fd = Some (mkofile p pos false) -> disk w !! p = Some c ->
    0 <= pos -> 0 <= n < 2 ^ 31 ->
    let bs := take (Z.to_nat n) (drop (Z.to_nat pos) c) in
    exists w', uv_fs_read fd n w = (w', (Z.of_nat (length bs), bs))
      /\ changes w w' (disk w) (<[fd := mkofile p (pos + Z.of_nat (length bs)) false]> (opened w));
  write_file w fd p pos c bs : healthy w -> opened w !! fd = Some (mkofile p pos false) -> disk w !! p = Some c ->
    0 <= pos <= Z.of_nat (length c) -> Z.of_nat (length bs) < 2 ^ 31 ->
    exists w', uv_fs_write fd bs w = (w', Z.of_nat (length bs))
      /\ changes w w' (<[p := overwrite c pos bs]> (disk w)) (<[fd := mkofile p (pos + Z.of_nat (length bs)) false]> (opened w));
  tell_file w fd f : healthy w -> opened w !! fd = Some f ->
    exists w', lseek fd 0 SEEK_CUR w = (w', o_pos f) /\ changes w w' (disk w) (opened w);
  close_file w fd f : healthy w -> opened w !! fd = Some f ->
    exists w' r, uv_fs_close fd w = (w', r) /\ changes w w' (disk w) (delete fd (opened w));
  stat_file w p c : healthy w -> disk w !! p = Some c ->
    exists mode, uv_fs_stat p w = (0, mode, Z.of_nat (length c)) /\ Z.land mode S_IFREG ≠ 0 /\ Z.land mode S_IFDIR = 0;
  stat_none w p : healthy w -> disk w !! p = None ->
    let '(r, mode, _) := uv_fs_stat p w in r ≠ 0 \/ Z.land mode S_IFREG = 0;
}.

(** ** A system in memory

    The smallest one that keeps the promises: numbers are given out once, every
    path is in a directory, and nothing can be listed. *)
Module MemFs.
Record memfs := mkmem { m_disk : gmap (list Z) (list Z); m_opened : gmap Z ofile; m_next : Z }.

Definition open (p : list Z) (flags _mode : Z) (w : memfs) : memfs * Z :=
  let fd := m_next w in
  let o := <[fd := mkofile p 0 (bool_decide (Z.land flags UV_FS_O_APPEND ≠ 0))]> (m_opened w) in
  match m_disk w !! p with
  | Some c =>
      (mkmem (if decide (Z.land flags UV_FS_O_TRUNC ≠ 0) then <[p := []]> (m_disk w) else m_disk w) o (fd + 1), fd)
  | None =>
      if decide (Z.land flags UV_FS_O_CREAT ≠ 0) then (mkmem (<[p := []]> (m_disk w)) o (fd + 1), fd) else (w, -2)
  end.

Definition close (fd : Z) (w : memfs) : memfs * Z := (mkmem (m_disk w) (delete fd (m_opened w)) (m_next w), 0).

Definition moved (fd : Z) (f : ofile) (n : nat) (w : memfs) : gmap Z ofile :=
  <[fd := mkofile (o_path f) (o_pos f + Z.of_nat n) (o_append f)]> (m_opened w).

Definition read (fd n : Z) (w : memfs) : memfs * (Z * list Z) :=
  match m_opened w !! fd with
  | Some f =>
      let bs := take (Z.to_nat n) (drop (Z.to_nat (o_pos f)) (default [] (m_disk w !! o_path f))) in
      (mkmem (m_disk w) (moved fd f (length bs) w) (m_next w), (Z.of_nat (length bs), bs))
  | None => (w, (-9, []))
  end.

Definition write (fd : Z) (bs : list Z) (w : memfs) : memfs * Z :=
  match m_opened w !! fd with
  | Some f =>
      let c := default [] (m_disk w !! o_path f) in
      let c := if o_append f then c ++ bs else overwrite c (o_pos f) bs in
      (mkmem (<[o_path f := c]> (m_disk w)) (moved fd f (length bs) w) (m_next w), Z.of_nat (length bs))
  | None => (w, -9)
  end.

#[global] Instance memfs_uv : Uv memfs := {
  uv_fs_open := open; uv_fs_close := close; uv_fs_read := read; uv_fs_write := write;
  lseek fd _ _ w := (w, match m_opened w !! fd with Some f => o_pos f | None => -1 end);
  uv_fs_stat p w := match m_disk w !! p with
                    | Some c => (0, S_IFREG, Z.of_nat (length c))
                    | None => (0, S_IFDIR, 0)
                    end;
  uv_fs_mkdir _ _ w := (w, 0);
  uv_fs_opendir _ w := (w, (-1, 0));
  uv_fs_readdir _ w := (w, (0, ([], 0)));
  uv_fs_closedir _ w := w;
}.

#[global] Instance memfs_view : FileView memfs := {
  disk := m_disk; opened := m_opened;
  healthy w := 0 <= m_next w /\ forall fd, m_next w <= fd -> m_opened w !! fd = None;
  place _ _ := True;
}.

Lemma numbers_ok (o : gmap Z ofile) n fd f :
  fd < n -> (forall x, n <= x -> o !! x = None) -> forall x, n <= x -> <[fd := f]> o !! x = None.
Proof. intros Hf H x Hx. rewrite lookup_insert_ne by lia. by apply H. Qed.

#[global] Instance memfs_posix : Posix memfs.
Proof.
  split; simpl; unfold open, read, write, close, moved.
  - intros w p c mode [Hn Ho] E. rewrite E. eexists _, _. split; [reflexivity|]. split; [done|].
    split; [by apply Ho|]. split; [done..| |done]. split; simpl; [lia|].
    apply numbers_ok; [lia|]. intros x Hx. apply Ho. lia.
  - intros w p mode [Hn Ho] _. exists (mkmem (<[p := []]> (m_disk w)) (<[m_next w := mkofile p 0 false]> (m_opened w)) (m_next w + 1)), (m_next w).
    split; [by destruct (m_disk w !! p)|]. split; [done|]. split; [by apply Ho|]. split; [done..| |done].
    split; simpl; [lia|]. apply numbers_ok; [lia|]. intros x Hx. apply Ho. lia.
  - intros w p c mode [Hn Ho] E. rewrite E. eexists _, _. split; [reflexivity|]. split; [done|].
    split; [by apply Ho|]. split; [done..| |done]. split; simpl; [lia|].
    apply numbers_ok; [lia|]. intros x Hx. apply Ho. lia.
  - intros w fd p pos c n [Hn Ho] Hf E Hp Hb. rewrite Hf. simpl. rewrite E. simpl. eexists. split; [reflexivity|].
    split; [done..| |done]. split; [done|]. apply numbers_ok; [|done]. destruct (decide (fd < m_next w)) as [|Hx]; [done|].
    rewrite Ho in Hf by lia. done.
  - intros w fd p pos c bs [Hn Ho] Hf E Hp Hb. rewrite Hf. simpl. rewrite E. simpl. eexists. split; [reflexivity|].
    split; [done..| |done]. split; [done|]. apply numbers_ok; [|done]. destruct (decide (fd < m_next w)) as [|Hx]; [done|].
    rewrite Ho in Hf by lia. done.
  - intros w fd f Hw Hf. rewrite Hf. eexists. split; [reflexivity|]. by split.
  - intros w fd f [Hn Ho] Hf. eexists _, _. split; [reflexivity|]. split; [done..| |done]. split; [done|].
    simpl. intros x Hx. rewrite lookup_delete_None. right. by apply Ho.
  - intros w p c _ E. rewrite E. eexists. split; [reflexivity|]. done.
  - intros w p _ E. rewrite E. by right.
Qed.
End MemFs.
