(* ===== verification/Xlio.v ===== *)
(** * The file store of [xnet/xlio.c]

    A stream sends the files of a list to a peer (an uploader) or takes them
    from one (a downloader).  It owns four frames, which travel between the
    stream and the messenger: [xlio_take_frame] takes the next one out of the
    ring [buf], and [xlio_resave_frame] puts one that the messenger has given
    back into its slot.  The thread of the store takes messages from its pipe,
    one turn ([io_turn]) for each: messages from the peer, frames that come
    back, and commands of other threads.

    A computation passes the state of the store and can fail: [None] is a
    fault, as everywhere, and [Some (s, None)] the jump to the label [XClean],
    with what has been done before it. *)

From stdpp Require Import gmap.
From S2P Require Import Prelude Bytes Xline Lines Channel Avl Messenger Files.

#[local] Open Scope Z_scope.

(** ** Data *)

Definition MSGBUF_RANGE : Z := 4.
Definition MSGBUF_SIZE : Z := 1280 * 1024.
Definition URI_SIZE : nat := 2048.

Definition IOSTREAM_TYPE_UPLOAD : Z := 0.
Definition IOSTREAM_TYPE_DOWNLOAD : Z := 1.

Definition XLIO_STREAM_REQ_LIST : Z := 0.
Definition XLIO_STREAM_RES_LIST : Z := 1.
Definition XLIO_STREAM_DOWNLOAD_LIST : Z := 2.
Definition XLIO_STREAM_UPLOAD_LIST : Z := 3.

Definition XMSG_FLAG_RECV : Z := 0.
Definition XMSG_FLAG_POST : Z := 1.
Definition XMSG_FLAG_BACK : Z := 2.
Definition XMSG_FLAG_TIMEDOUT : Z := 3.

(** The keys, as bytes. *)
Definition k_api : list Z := [97; 112; 105].
Definition k_id : list Z := [105; 100].
Definition k_list : list Z := [108; 105; 115; 116].
Definition k_path : list Z := [112; 97; 116; 104].
Definition k_uri : list Z := [117; 114; 105].
Definition k_type : list Z := [116; 121; 112; 101].
Definition k_size : list Z := [115; 105; 122; 101].
Definition k_pos : list Z := [112; 111; 115].
Definition k_data : list Z := [100; 97; 116; 97].
Definition k_md5 : list Z := [109; 100; 53].
Definition k_status : list Z := [115; 116; 97; 116; 117; 115].

(** The functions that a message can carry in [args[0]]: those of the store, and
    those of the transfer protocol ([xltp.c]). *)
Inductive callback := cb_recv_frame | cb_post_close | cb_post_download
  | cb_req_echo | cb_res_echo | cb_req_boot | cb_res_boot
  | cb_req_put | cb_res_put | cb_req_get | cb_res_get.

(** The [flag] and the [args] of a frame: the callback, the context (a stream,
    or a frame of the transfer protocol), the address, and the channel. *)
Record margs := mkargs {
  a_flag : Z; a_cb : option callback; a_ctx : option positive; a_ipaddr : option addr; a_channel : option positive;
}.

(** The links of the list of streams: [NULL], the head of the list or a stream. *)
Inductive link := Null | Head | At (p : positive).

(** [s_obj] is the frame and the offset that [obj] points to, [s_upload_parser]
    the frame that the parser reads. *)
Record xlio_stream := mkstream {
  s_flag : Z; s_api : Z; s_fd : Z;
  s_obj : option (positive * Z); s_upload_list : option positive; s_recv_frame : option positive;
  s_upload_parser : option (positive * xparser);
  s_file_pos : Z; s_file_size : Z; s_list_pos : Z; s_list_size : Z;
  s_uri : list Z; s_uri_len : Z; s_src_name_len : Z; s_src_name_pos : Z;
  s_channel : option positive; s_item : option xfs_item; s_scanner : option traverser;
  s_prev : link; s_next : link; s_buf : ring (option positive);
}.

#[export] Instance eta_margs : Settable margs := fun r =>
  mkargs (a_flag r) (a_cb r) (a_ctx r) (a_ipaddr r) (a_channel r).
#[export] Instance eta_stream : Settable xlio_stream := fun r =>
  mkstream (s_flag r) (s_api r) (s_fd r) (s_obj r) (s_upload_list r) (s_recv_frame r) (s_upload_parser r)
    (s_file_pos r) (s_file_size r) (s_list_pos r) (s_list_size r) (s_uri r) (s_uri_len r) (s_src_name_len r)
    (s_src_name_pos r) (s_channel r) (s_item r) (s_scanner r) (s_prev r) (s_next r) (s_buf r).

(** The messenger with its frames, the files, the streams with the ends of their
    list, the messages in the pipe, and the commands sent to the messenger. *)
Record io (W : Type) := mkio {
  io_ms : messenger; io_args : gmap positive margs; io_os : W;
  io_streams : gmap positive xlio_stream; io_first : link; io_last : link;
  io_pipe : list positive; io_cmds : list command;
}.
Arguments mkio {W}. Arguments io_ms {W}. Arguments io_args {W}. Arguments io_os {W}. Arguments io_streams {W}.
Arguments io_first {W}. Arguments io_last {W}. Arguments io_pipe {W}. Arguments io_cmds {W}.

#[export] Instance eta_io {W} : Settable (io W) := fun r =>
  mkio (io_ms r) (io_args r) (io_os r) (io_streams r) (io_first r) (io_last r) (io_pipe r) (io_cmds r).

(** ** Computations *)

Definition M (W A : Type) : Type := io W -> option (io W * option A).

#[export] Instance M_ret {W} : MRet (M W) := fun A a s => Some (s, Some a).
#[export] Instance M_bind {W} : MBind (M W) := fun A B k m s =>
  match m s with
  | Some (s, Some a) => k a s
  | Some (s, None) => Some (s, None)
  | None => None
  end.

Section Computations.
Context {W : Type}.

Definition fail {A} : M W A := fun s => Some (s, None).
Definition lift {A} (o : option A) : M W A := fun s => a ← o; Some (s, Some a).
Definition gets {A} (f : io W -> A) : M W A := fun s => Some (s, Some (f s)).
Definition modify (f : io W -> io W) : M W unit := fun s => Some (f s, Some tt).

(** [__xcheck(b)], and a result that is checked for [NULL]. *)
Definition xcheck (b : Prop) `{Decision b} : M W unit := if decide b then fail else mret tt.
Definition found {A} (o : option A) : M W A := match o with Some a => mret a | None => fail end.

(** The code at [XClean], and a call whose result is looked at. *)
Definition clean {A} (m : M W A) (h : M W A) : M W A := fun s =>
  match m s with Some (s, None) => h s | r => r end.
Definition succeeds (m : M W unit) : M W bool := fun s =>
  match m s with Some (s, r) => Some (s, Some (bool_decide (is_Some r))) | None => None end.

Definition optional {A} (m : M W A) : M W (option A) := fun s =>
  match m s with Some (s, r) => Some (s, Some r) | None => None end.

Definition frames : M W (gmap positive xframe) := gets (fun s => g_frames (io_ms s)).
Definition set_frames (fs : gmap positive xframe) : M W unit :=
  modify (fun s => s <| io_ms; g_frames := fs |>).
Definition frame (m : positive) : M W xframe := fs ← frames; lift (fs !! m).
Definition on_frame {A} (m : positive) (f : xframe -> option (xframe * A)) : M W A :=
  x ← frame m; '(x, a) ← lift (f x); fs ← frames; set_frames (<[m := x]> fs);; mret a.

(** The header line of a frame with its buffer behind it; nothing of a frame
    that has been freed can be read. *)
Definition region_of (f : xframe) : list Z := f_line f ++ f_buf f.
Definition region (m : positive) : M W (list Z) :=
  fs ← frames; mret (match fs !! m with Some f => region_of f | None => [] end).

Definition stream (p : positive) : M W xlio_stream := ss ← gets io_streams; lift (ss !! p).
Definition upd (p : positive) (f : xlio_stream -> xlio_stream) : M W unit :=
  x ← stream p; modify (fun s => s <| io_streams := <[p := f x]> (io_streams s) |>).

Definition args (m : positive) : M W margs := l ← gets io_args; lift (l !! m).
Definition set_args (m : positive) (f : margs -> margs) : M W unit :=
  frame m;; a ← args m; modify (fun s => s <| io_args := <[m := f a]> (io_args s) |>).

Definition os {A} (f : W -> W * A) : M W A := fun s =>
  let '(w, a) := f (io_os s) in Some (s <| io_os := w |>, Some a).
Definition os_get {A} (f : W -> A) : M W A := gets (fun s => f (io_os s)).

Definition on_ms {A} (f : messenger -> option (messenger * A)) : M W A := fun s =>
  '(g, a) ← f (io_ms s); Some (s <| io_ms := g |>, Some a).

(** [xl_free]: what the pointer is afterwards. *)
Definition free_ptr (m : positive) : M W (option positive) :=
  fs ← frames; '(fs, r) ← lift (free_frame m fs); set_frames fs;; mret r.

(** [xl_find] and what it is used for; the results are the line and the number. *)
Definition find (p : xparser) (key : list Z) : M W (xparser * Z) :=
  '(p, o) ← lift (xl_find p key); o ← found o; mret (p, o).
Definition find_number (read : list Z -> Z -> option Z) (p : xparser) (key : list Z) : M W (xparser * Z) :=
  '(p, o) ← find p key; n ← lift (read (p_mem p) o); mret (p, n).

(** The C string that a line holds. *)
Definition text (p : xparser) (o : Z) : M W (list Z) := lift (read_key (p_mem p) (__xl_l2b o)).
End Computations.

Section Xlio.
Context {W : Type} `{Uv W}.

(** What lies outside: memory for frames that grow, for new frames and for new
    streams; and whether the pipe and the local socket of the messenger take
    what is written to them. *)
Context (malloc : Z -> option xframe) (new_frame : io W -> Z -> option (positive * xframe))
  (new_stream : io W -> option positive) (pipe_ok sent : io W -> bool).

(** A call of a builder whose result is checked. *)
Definition add (m : positive) (f : xframe -> option (xframe * Z)) : M W Z :=
  r ← on_frame m f; xcheck (r = XEOF);; mret r.

(** ** The ring of frames *)

Definition slot (i : Z) (b : ring (option positive)) : Z := Z.land i (r_range b - 1).
Definition readable (b : ring (option positive)) : Z := u8 (r_wpos b - r_rpos b).

Definition xlio_take_frame (p : positive) : M W positive :=
  s ← stream p;
  let i := slot (r_rpos (s_buf s)) (s_buf s) in
  m ← lift (ring_get (s_buf s) i);
  m ← lift m;
  on_frame m (fun f => Some (f <| f_id := i |>, tt));;
  b ← lift (ring_set (s_buf s) i None);
  upd p (fun s => s <| s_buf := b <| r_rpos := u8 (r_rpos b + 1) |> |>);;
  mret m.

Definition xlio_resave_frame (p m : positive) : M W unit :=
  on_frame m (fun f => Some (xl_clear f, tt));;
  f ← frame m;
  s ← stream p;
  b ← lift (ring_set (s_buf s) (f_id f) (Some m));
  upd p (fun s => s <| s_buf := b <| r_wpos := u8 (r_wpos b + 1) |> |>).

(** [frame->type = type] and the checked [xmsger_send]. *)
Definition send (p m : positive) (type : Z) : M W unit :=
  on_frame m (fun f => Some (f <| f_type := type |>, tt));;
  s ← stream p;
  c ← found (s_channel s);
  r ← on_ms (on_channel c (xmsger_send m));
  xcheck (r ≠ 0).

(** ** Sending files *)

(** [xl_list_next] on the list that is being uploaded. *)
Definition next_obj (p : positive) : M W (option (positive * Z)) :=
  s ← stream p;
  match s_upload_parser s with
  | None => upd p (fun s => s <| s_obj := None |>);; mret None
  | Some (u, ps) =>
      mem ← region u;
      '(ps, o) ← lift (xl_list_next (ps <| p_mem := mem |>));
      let o := pair u <$> o in
      upd p (fun s => s <| s_upload_parser := Some (u, ps) |> <| s_obj := o |>);;
      mret o
  end.

Definition uri_text (s : xlio_stream) : option (list Z) := read_key (s_uri s) 0.

(** A single file, or one of a directory; [size] is that of the name with its
    terminator. *)
Definition source_path (s : xlio_stream) (size : Z) (mem : list Z) (name : Z) : option (list Z) :=
  uri ← uri_text s;
  if decide (size = s_src_name_len s + 1) then Some uri
  else
    rest ← read_key mem (name + (s_src_name_len s + 1));
    Some (take (Z.to_nat (s_uri_len s + size)) (join uri rest)).

Definition open_source (p : positive) (size : Z) (mem : list Z) (name : Z) : M W unit :=
  s ← stream p;
  if decide (s_fd s = -1) then
    path ← lift (source_path s size mem name);
    w ← gets io_os;
    '(w, fd) ← lift (__fs_file_open path XAPI_FS_FLAG_READ 420 w);
    modify (fun s => s <| io_os := w |>);;
    upd p (fun s => s <| s_fd := fd |>);;
    xcheck (fd < 0)
  else mret tt.

(** The next part of the file goes straight into the frame; [true] when there is
    more of it. *)
Definition read_part (p m : positive) : M W bool :=
  s ← stream p;
  f ← frame m;
  let rest := u64 (s_file_size s - s_file_pos s) in
  let len := if decide (rest < xl_usable f k_data) then rest else xl_usable f k_data in
  pos ← on_frame m (xl_add_bin malloc k_data None len);
  '(ret, bs) ← os (__fs_file_read (s_fd s) len);
  on_frame m (fun f => b ← wr_range (f_buf f) (u64 (pos - len)) bs; Some (f <| f_buf := b |>, tt));;
  xcheck (ret < 0);;
  upd p (fun s => s <| s_file_pos := u64 (s_file_pos s + len) |> <| s_list_pos := u64 (s_list_pos s + len) |>);;
  mret (bool_decide (u64 (s_file_pos s + len) < s_file_size s)).

Definition end_file (p : positive) : M W unit :=
  s ← stream p;
  os (__fs_file_close (s_fd s));;
  upd p (fun s => s <| s_fd := -1 |> <| s_file_pos := 0 |> <| s_file_size := 0 |>).

(** The body of the loop for the file [name] of type [isfile]; [true] is the
    [break]. *)
Definition send_part (p m : positive) (size : Z) (mem : list Z) (name isfile : Z) : M W bool :=
  s ← stream p;
  pos ← add m (xl_obj_begin malloc None);
  word ← lift (read_key mem name);
  add m (xl_add_word malloc k_path word);;
  add m (xl_add_int malloc k_type isfile);;
  add m (xl_add_uint malloc k_size (s_file_size s));;
  add m (xl_add_uint malloc k_pos (s_file_pos s));;
  open_source p size mem name;;
  more ← (if decide (s_file_size s > 0) then read_part p m else mret false);
  if more : bool then on_frame m (xl_obj_end pos);; mret true
  else
    s ← stream p;
    (if decide (s_file_pos s = s_file_size s) then end_file p;; upd p (fun s => s <| s_obj := None |>) else mret tt);;
    on_frame m (xl_obj_end pos);;
    mret false.

Definition send_obj (p m : positive) : M W bool :=
  s ← stream p;
  match s_obj s with
  | None => mret false
  | Some (u, o) =>
      mem ← region u;
      n ← lift (__xl_sizeof_line mem o);
      f ← frame m;
      if decide (xl_usable f k_pos <= n) then mret true
      else
        ps ← lift (xl_parser mem o);
        '(ps, name) ← find ps k_path;
        '(ps, isfile) ← find_number __xl_b2i ps k_type;
        '(ps, size) ← find_number __xl_b2u ps k_size;
        upd p (fun s => s <| s_file_size := size |>);;
        len ← lift (__xl_sizeof_body mem name);
        if decide (isfile ≠ 0) then send_part p m len mem (__xl_l2b name) isfile else mret false
  end.

(** [do ... while]; [fuel] bounds the objects of the list. *)
Fixpoint send_loop (fuel : nat) (p m : positive) : M W unit :=
  match fuel with
  | O => lift None
  | S fuel =>
      stop ← send_obj p m;
      if stop : bool then mret tt
      else o ← next_obj p; match o with None => mret tt | Some _ => send_loop fuel p m end
  end.

Definition objects_left (s : xlio_stream) : nat :=
  match s_upload_parser s with Some (_, ps) => Z.to_nat (p_wpos ps - p_rpos ps) | None => O end.

Definition xlio_send_file (p m : positive) : M W unit :=
  add m (xl_add_int malloc k_api XLIO_STREAM_UPLOAD_LIST);;
  f ← frame m;
  add m (xl_add_int malloc k_id (f_id f));;
  begin ← add m (xl_list_begin malloc (Some k_list));
  s ← stream p;
  send_loop (S (S (objects_left s))) p m;;
  on_frame m (xl_list_end begin);;
  send p m XPACK_TYPE_MSG.

(** A frame that was taken goes back into its ring at [XClean]. *)
Definition with_frame (p : positive) (body : positive -> M W unit) : M W unit :=
  m ← xlio_take_frame p; clean (body m) (xlio_resave_frame p m;; fail).

(** An empty list under [api] says that everything has been sent. *)
Definition send_empty (p m : positive) (api : Z) : M W unit :=
  add m (xl_add_int malloc k_api api);;
  begin ← on_frame m (xl_list_begin malloc (Some k_list));
  add m (xl_list_end begin);;
  send p m XPACK_TYPE_MSG.

(** [xl_free(&stream->upload_list)]. *)
Definition free_upload_list (p : positive) : M W unit :=
  s ← stream p;
  match s_upload_list s with
  | None => mret tt
  | Some m => r ← free_ptr m; upd p (fun s => s <| s_upload_list := r |>)
  end.

Definition xlio_upload_list (p : positive) : M W unit :=
  s ← stream p;
  match s_upload_list s with
  | None => mret tt
  | Some _ =>
      if decide (s_list_pos s < s_list_size s) then with_frame p (fun m => xlio_send_file p m)
      else
        xcheck (s_list_pos s ≠ s_list_size s);;
        with_frame p (fun m =>
          send_empty p m XLIO_STREAM_UPLOAD_LIST;;
          free_upload_list p;;
          upd p (fun s => s <| s_list_pos := 0 |> <| s_list_size := 0 |>))
  end.

(** ** Receiving files *)

(** [snprintf("%s/%s")] into [full_path_len] bytes. *)
Definition target_path (s : xlio_stream) (size : Z) (name : list Z) : option (list Z) :=
  uri ← uri_text s; Some (take (Z.to_nat (s_uri_len s + size)) (join uri name)).

Definition open_file (p : positive) (path : list Z) (flag : Z) : M W unit :=
  w ← gets io_os;
  '(w, fd) ← lift (__fs_file_open path flag 420 w);
  modify (fun s => s <| io_os := w |>);;
  upd p (fun s => s <| s_fd := fd |>);;
  xcheck (fd < 0).

Definition check_tell (p : positive) (pos : Z) : M W unit :=
  s ← stream p; n ← os (__fs_file_tell (s_fd s)); xcheck (pos ≠ u64 n).

Definition open_target (p : positive) (path : list Z) (pos : Z) : M W unit :=
  s ← stream p;
  if decide (s_fd s = -1) then
    if decide (pos = 0) then open_file p path XAPI_FS_FLAG_CREATE
    else open_file p path XAPI_FS_FLAG_WRITE;; check_tell p pos
  else check_tell p pos.

Definition write_part (p : positive) (data : list Z) : M W unit :=
  s ← stream p;
  let len := Z.of_nat (length data) in
  if decide (len > 0) then
    n ← os (__fs_file_write (s_fd s) data);
    xcheck (u64 n ≠ len);;
    upd p (fun s => s <| s_file_pos := u64 (s_file_pos s + len) |> <| s_list_pos := u64 (s_list_pos s + len) |>)
  else mret tt.

Definition recv_obj (p : positive) (mem : list Z) (o : Z) : M W unit :=
  ps ← lift (xl_parser mem o);
  '(ps, name) ← find ps k_path;
  '(ps, _) ← find_number __xl_b2i ps k_type;
  '(ps, size) ← find_number __xl_b2u ps k_size;
  upd p (fun s => s <| s_file_size := size |>);;
  '(ps, pos) ← find_number __xl_b2u ps k_pos;
  s ← stream p;
  len ← lift (__xl_sizeof_body mem name);
  word ← text ps name;
  path ← lift (target_path s len word);
  open_target p path pos;;
  '(ps, bin) ← lift (xl_find ps k_data);
  (match bin with
   | None => mret tt
   | Some bin => n ← lift (__xl_sizeof_body mem bin); data ← lift (rd_range mem (__xl_l2b bin) n); write_part p data
   end);;
  s ← stream p;
  if decide (s_file_pos s = s_file_size s) then end_file p else mret tt.

(** [while ((obj_val = xl_list_next(&list_parser)) != NULL)]. *)
Fixpoint recv_loop (fuel : nat) (p : positive) (ps : xparser) : M W unit :=
  match fuel with
  | O => lift None
  | S fuel =>
      '(ps, o) ← lift (xl_list_next ps);
      match o with None => mret tt | Some o => recv_obj p (p_mem ps) o;; recv_loop fuel p ps end
  end.

Definition request_list (p m : positive) : M W unit :=
  add m (xl_add_int malloc k_api XLIO_STREAM_REQ_LIST);; send p m XPACK_TYPE_MSG.

Definition xlio_recv_file (p msg : positive) : M W unit :=
  mem ← region msg;
  ps ← lift (xl_parser mem 0);
  '(_, objlist) ← find ps k_list;
  n ← lift (__xl_sizeof_body mem objlist);
  if decide (n = 0) then
    s ← stream p;
    xcheck (s_list_pos s ≠ s_list_size s);;
    with_frame p (fun m =>
      request_list p m;;
      upd p (fun s => s <| s_list_pos := 0 |> <| s_list_size := 0 |>))
  else
    ps ← lift (xl_parser mem objlist);
    recv_loop (S (Z.to_nat n)) p ps.

(** ** Lists of files *)

(** [scan_fuel] bounds the entries of the directories that are scanned. *)
Context (scan_fuel : nat).

Definition no_md5 : list Z := replicate 64 0.

(** One object of [inlist]: it goes to the list of [out] when the file is to be
    sent; a directory is made. *)
Definition check_obj (p : positive) (mem : list Z) (o : Z) (out : positive) : M W unit :=
  ps ← lift (xl_parser mem o);
  '(ps, isfile) ← find_number __xl_b2i ps k_type;
  '(ps, name) ← find ps k_path;
  '(ps, size) ← find_number __xl_b2u ps k_size;
  '(ps, md5) ← find ps k_md5;
  s ← stream p;
  len ← lift (__xl_sizeof_body mem name);
  word ← text ps name;
  path ← lift (target_path s len word);
  let append :=
    add out (xl_list_append malloc (drop (Z.to_nat o) mem));;
    upd p (fun s => s <| s_list_size := u64 (s_list_size s + size) |>) in
  if decide (isfile ≠ 0) then
    exist ← os_get (__fs_file_exist path);
    if exist : bool then
      r ← lift (mcompare (Some (no_md5, 0)) (Some (mem, __xl_l2b md5)) 64);
      if decide (r ≠ 0) then append else mret tt
    else append
  else
    exist ← os_get (__fs_dir_exist path);
    if exist : bool then mret tt
    else
      w ← gets io_os;
      '(w, r) ← lift (__fs_path_maker (Some path) w);
      modify (fun s => s <| io_os := w |>);;
      xcheck (r ≠ 0).

Fixpoint check_loop (fuel : nat) (p : positive) (ps : xparser) (out : positive) : M W unit :=
  match fuel with
  | O => lift None
  | S fuel =>
      '(ps, o) ← lift (xl_list_next ps);
      match o with None => mret tt | Some o => check_obj p (p_mem ps) o out;; check_loop fuel p ps out end
  end.

Definition xlio_check_list (p : positive) (mem : list Z) (inlist : Z) (out : positive) : M W unit :=
  ps ← lift (xl_parser mem inlist);
  pos ← add out (xl_list_begin malloc (Some k_list));
  check_loop (S (Z.to_nat (p_wpos ps))) p ps out;;
  on_frame out (xl_list_end pos);;
  mret tt.

Definition xlio_gen_list (p m : positive) : M W unit :=
  list_pos ← add m (xl_list_begin malloc (Some k_list));
  obj_pos ← add m (xl_obj_begin malloc None);
  s ← stream p;
  name ← lift (read_key (s_uri s) (s_src_name_pos s));
  add m (xl_add_word malloc k_path name);;
  add m (xl_add_int malloc k_type 1);;
  add m (xl_add_uint malloc k_size (s_file_size s));;
  add m (xl_add_bin malloc k_md5 (Some no_md5) 64);;
  on_frame m (xl_obj_end obj_pos);;
  on_frame m (xl_list_end list_pos);;
  upd p (fun s => s <| s_file_size := 0 |>).

(** A new frame. *)
Definition make_frame (size : Z) : M W positive := fun s =>
  match new_frame s size with
  | None => Some (s, None)
  | Some (m, mem) =>
      match xl_creator (Some mem) size with
      | None => Some (s, None)
      | Some f =>
          Some (s <| io_ms; g_frames := <[m := f]> (g_frames (io_ms s)) |>
                  <| io_args := <[m := mkargs 0 None None None None]> (io_args s) |>, Some m)
      end
  end.

(** One entry of a directory; [true] when the frame has no room for it. *)
Definition scan_item (p m obj : positive) (it : xfs_item) : M W bool :=
  s ← stream p;
  name ← lift (if decide (s_src_name_pos s <= Z.of_nat (length (i_path it)))
               then Some (drop (Z.to_nat (s_src_name_pos s)) (i_path it)) else None);
  add obj (xl_add_int malloc k_type (i_type it));;
  add obj (xl_add_word malloc k_path name);;
  add obj (xl_add_uint malloc k_size (i_size it));;
  add obj (xl_add_bin malloc k_md5 (Some no_md5) 64);;
  mem ← region obj;
  n ← lift (__xl_sizeof_line mem 0);
  f ← frame m;
  if decide (u64 (f_size f - f_wpos f) < n) then mret true
  else
    add m (xl_list_append malloc mem);;
    upd p (fun s => s <| s_list_size := u64 (s_list_size s + i_size it) |>);;
    on_frame obj (fun f => Some (xl_clear f, tt));;
    mret false.

Definition next_item (p : positive) : M W (option xfs_item) :=
  s ← stream p;
  t ← lift (s_scanner s);
  w ← gets io_os;
  '(w, (t, it)) ← lift (traverser_next scan_fuel t w);
  modify (fun s => s <| io_os := w |>);;
  upd p (fun s => s <| s_scanner := Some t |> <| s_item := it |>);;
  mret it.

(** [true] when the frame is full and the scan will go on. *)
Fixpoint scan_loop (fuel : nat) (p m obj : positive) : M W bool :=
  match fuel with
  | O => lift None
  | S fuel =>
      s ← stream p;
      full ← (match s_item s with None => mret false | Some it => scan_item p m obj it end);
      if full : bool then mret true
      else it ← next_item p; match it with None => mret false | Some _ => scan_loop fuel p m obj end
  end.

Definition xlio_scan_dir (p m : positive) : M W unit :=
  obj ← make_frame XLINE_MAKER_SIZE;
  pos ← add m (xl_list_begin malloc (Some k_list));
  f ← frame m;
  full ← scan_loop (S (S (Z.to_nat (f_size f)))) p m obj;
  on_frame m (xl_list_end pos);;
  free_ptr obj;;
  if full : bool then mret tt
  else
    s ← stream p;
    t ← lift (s_scanner s);
    os (fun w => (traverser_free t w, tt));;
    upd p (fun s => s <| s_scanner := None |>).

(** [xl_set_value] on the document of a frame. *)
Definition set_value (m : positive) (key : list Z) (n : Z) : M W unit :=
  r ← on_frame m (fun f =>
    ps ← xl_parser (region_of f) 0;
    '(ps, r) ← xl_set_value ps key n;
    Some (f <| f_line := take 9 (p_mem ps) |> <| f_buf := drop 9 (p_mem ps) |>, r));
  found r;; mret tt.

(** ** Messages from the peer *)

(** The list of the next files, as many as fit. *)
Definition res_list (p : positive) : M W unit :=
  with_frame p (fun m =>
    add m (xl_add_int malloc k_api XLIO_STREAM_RES_LIST);;
    s ← stream p;
    (if s_scanner s is Some _ then
       add m (xl_add_uint malloc k_size 0);;
       xlio_scan_dir p m;;
       s ← stream p;
       set_value m k_size (s_list_size s)
     else if decide (s_file_size s > 0) then
       add m (xl_add_uint malloc k_size (s_file_size s));;
       xlio_gen_list p m
     else
       begin ← on_frame m (xl_list_begin malloc (Some k_list));
       add m (xl_list_end begin);;
       mret tt);;
    send p m XPACK_TYPE_MSG).

(** The list of those that are wanted, or the request for the next list; an
    empty list ends the connection. *)
Definition download_list (p msg : positive) (ps : xparser) : M W unit :=
  '(_, l) ← find ps k_list;
  mem ← region msg;
  with_frame p (fun m =>
    n ← lift (__xl_sizeof_body mem l);
    if decide (n > 0) then
      add m (xl_add_int malloc k_api XLIO_STREAM_DOWNLOAD_LIST);;
      add m (xl_add_uint malloc k_size 0);;
      xlio_check_list p mem l m;;
      s ← stream p;
      (if decide (s_list_size s > 0) then set_value m k_size (s_list_size s)
       else set_value m k_api XLIO_STREAM_REQ_LIST);;
      send p m XPACK_TYPE_MSG
    else send p m XPACK_TYPE_RES).

(** [while (list_pos < list_size && readable)]; [fuel] is the number of frames. *)
Fixpoint upload_loop (fuel : nat) (p : positive) : M W unit :=
  s ← stream p;
  if decide (s_list_pos s < s_list_size s /\ readable (s_buf s) ≠ 0) then
    match fuel with
    | O => lift None
    | S fuel => with_frame p (fun m => xlio_send_file p m);; upload_loop fuel p
    end
  else mret tt.

Definition start_upload (p msg : positive) (ps : xparser) : M W unit :=
  s ← stream p;
  xcheck (s_upload_list s ≠ None);;
  upd p (fun s => s <| s_upload_list := Some msg |>);;
  '(ps, size) ← find_number __xl_b2u ps k_size;
  upd p (fun s => s <| s_list_size := size |>);;
  '(_, l) ← find ps k_list;
  mem ← region msg;
  n ← lift (__xl_sizeof_body mem l);
  if decide (n > 0) then
    on_frame msg (fun f => Some (xl_hold f, tt));;
    ps ← lift (xl_parser mem l);
    upd p (fun s => s <| s_upload_parser := Some (msg, ps) |>);;
    s ← stream p;
    upload_loop (Z.to_nat (readable (s_buf s))) p
  else mret tt.

Definition xlio_recv_frame (msg p : positive) : M W unit :=
  mem ← region msg;
  ps ← lift (xl_parser mem 0);
  '(ps, api) ← find_number __xl_b2i ps k_api;
  upd p (fun s => s <| s_api := api |>);;
  if decide (api = XLIO_STREAM_REQ_LIST) then res_list p
  else if decide (api = XLIO_STREAM_RES_LIST) then download_list p msg ps
  else if decide (api = XLIO_STREAM_DOWNLOAD_LIST) then start_upload p msg ps
  else if decide (api = XLIO_STREAM_UPLOAD_LIST) then xlio_recv_file p msg
  else mret tt.

(** ** Streams *)

Definition set_next (l : link) (v : link) : M W unit :=
  match l with
  | Null => lift None
  | Head => modify (fun s => s <| io_first := v |>)
  | At p => upd p (fun s => s <| s_next := v |>)
  end.
Definition set_prev (l : link) (v : link) : M W unit :=
  match l with
  | Null => lift None
  | Head => modify (fun s => s <| io_last := v |>)
  | At p => upd p (fun s => s <| s_prev := v |>)
  end.

Definition flush (c : positive) : M W unit := fun s =>
  match (xmsger_flush (Some 1%positive) (Some c) (sent s)).1 with
  | Some cmd => Some (s <| io_cmds := io_cmds s ++ [cmd] |>, Some tt)
  | None => Some (s, Some tt)
  end.

Fixpoint free_frames (l : list (option positive)) : M W unit :=
  match l with
  | [] => mret tt
  | None :: l => free_frames l
  | Some m :: l => free_ptr m;; free_frames l
  end.

Definition xlio_stream_free (ios : option positive) : M W unit :=
  match ios with
  | None => mret tt
  | Some p =>
      s ← stream p;
      (match s_channel s with
       | None => mret tt
       | Some c => on_ms (fun g => g ← xchannel_set_ctx c None g; Some (g, tt));; flush c
       end);;
      (if decide (s_fd s > 0) then os (__fs_file_close (s_fd s));; mret tt else mret tt);;
      (match s_scanner s with
       | None => mret tt
       | Some t => os (fun w => (traverser_free t w, tt));; upd p (fun s => s <| s_scanner := None |>)
       end);;
      free_upload_list p;;
      (match s_prev s, s_next s with
       | Null, _ | _, Null => mret tt
       | prev, next => set_next prev next;; set_prev next prev
       end);;
      free_frames (take (Z.to_nat MSGBUF_RANGE) (r_buf (s_buf s)));;
      modify (fun s => s <| io_streams := delete p (io_streams s) |>)
  end.

(** The number of characters without the slashes at the end; the character
    before the string is outside of it. *)
Fixpoint strip (n : nat) (uri : list Z) : option nat :=
  c ← rd uri (Z.of_nat n - 1);
  if decide (c = slash) then match n with O => None | S n => strip n uri end else Some n.

(** The length of the name behind the last slash. *)
Fixpoint name_len (rev_uri : list Z) : nat :=
  match rev_uri with
  | [] => O
  | c :: l => if decide (c = slash) then O else S (name_len l)
  end.

Definition open_uri (p : positive) (uri : list Z) : M W unit :=
  s ← stream p;
  path ← lift (uri_text s);
  if decide (s_flag s = IOSTREAM_TYPE_UPLOAD) then
    dir ← os_get (__fs_dir_exist uri);
    if dir : bool then upd p (fun s => s <| s_scanner := Some (traverser_init path) |>)
    else
      exist ← os_get (__fs_file_exist uri);
      xcheck (exist = false);;
      size ← os_get (__fs_file_size path);
      upd p (fun s => s <| s_file_size := size |>)
  else
    w ← gets io_os;
    '(w, r) ← lift (__fs_path_maker (Some path) w);
    modify (fun s => s <| io_os := w |>);;
    xcheck (r ≠ 0).

Fixpoint make_frames (n : nat) (i : Z) (p : positive) : M W unit :=
  match n with
  | O => mret tt
  | S n =>
      m ← make_frame MSGBUF_SIZE;
      s ← stream p;
      b ← lift (ring_set (s_buf s) i (Some m));
      upd p (fun s => s <| s_buf := b |>);;
      set_args m (fun a => a <| a_ctx := Some p |>);;
      make_frames n (i + 1) p
  end.

Definition no_stream (flag : Z) : xlio_stream :=
  mkstream flag 0 0 None None None None 0 0 0 0 (replicate URI_SIZE 0) 0 0 0 None None None Null Null
    (mkring 0 0 0 0 (replicate (Z.to_nat MSGBUF_RANGE) None)).

Definition xlio_stream_maker (uri : list Z) (type : Z) : M W (option positive) :=
  alloc ← gets new_stream;
  match alloc with
  | None => mret None
  | Some p =>
      ok ← succeeds (
        modify (fun s => s <| io_streams := <[p := no_stream type]> (io_streams s) |>);;
        n ← lift (strip (length uri) uri);
        buf ← lift (wr_range (replicate URI_SIZE 0) 0 (take n uri));
        let name := name_len (rev (take n uri)) in
        upd p (fun s => s <| s_uri := buf |> <| s_uri_len := Z.of_nat n |> <| s_src_name_len := Z.of_nat name |>
                          <| s_src_name_pos := Z.of_nat n - Z.of_nat name |>);;
        open_uri p uri;;
        upd p (fun s => s <| s_buf := (s_buf s) <| r_range := MSGBUF_RANGE |> <| r_wpos := MSGBUF_RANGE |> |>);;
        make_frames (Z.to_nat MSGBUF_RANGE) 0 p;;
        last ← gets io_last;
        upd p (fun s => s <| s_fd := -1 |> <| s_next := Head |> <| s_prev := last |>);;
        set_prev Head (At p);;
        set_next last (At p));
      if ok : bool then mret (Some p) else xlio_stream_free (Some p);; mret None
  end.

(** ** Starting and ending a transfer *)

Definition write_pipe (m : positive) : M W unit :=
  ok ← gets pipe_ok;
  xcheck (ok = false);;
  modify (fun s => s <| io_pipe := io_pipe s ++ [m] |>).

(** The answer that the request is accepted. *)
Definition accept (p : positive) : M W unit :=
  m ← xlio_take_frame p;
  on_frame m (xl_add_int malloc k_status 200);;
  send p m XPACK_TYPE_MSG.

(** The stream for the path that [req] carries under [key].  When the key is
    missing, [xlio_stream_free] is called on a pointer that was never set. *)
Definition start_stream (req : positive) (key : list Z) (type : Z) : M W (option positive) :=
  mem ← region req;
  ps ← lift (xl_parser mem 0);
  '(ps, o) ← lift (xl_find ps key);
  o ← lift o;
  uri ← text ps o;
  ios ← xlio_stream_maker uri type;
  match ios with
  | None => mret None
  | Some p =>
      a ← args req;
      upd p (fun s => s <| s_channel := a_channel a |>);;
      c ← lift (a_channel a);
      on_ms (fun g => g ← xchannel_set_ctx c (Some (Zpos p)) g; Some (g, tt));;
      mret (Some p)
  end.

Definition xlio_start_downloader (req : positive) (response : bool) : M W unit :=
  ios ← start_stream req k_path IOSTREAM_TYPE_DOWNLOAD;
  clean (
    p ← found ios;
    set_args req (fun a => a <| a_ctx := Some p |>);;
    (if response then accept p else mret tt);;
    set_args req (fun a => a <| a_flag := XMSG_FLAG_POST |> <| a_cb := Some cb_post_download |>);;
    write_pipe req)
    (xlio_stream_free ios;; fail).

Definition xlio_start_uploader (req : positive) (response : bool) : M W unit :=
  ios ← start_stream req k_uri IOSTREAM_TYPE_UPLOAD;
  clean (
    p ← found ios;
    (if response then accept p else mret tt);;
    free_ptr req;;
    mret tt)
    (xlio_stream_free ios;; free_ptr req;; fail).

Definition xlio_post_close (msg p : positive) : M W unit :=
  xlio_stream_free (Some p);; free_ptr msg;; mret tt.

Definition xlio_post_download (msg p : positive) : M W unit :=
  s ← stream p;
  xcheck (readable (s_buf s) = 0);;
  m ← xlio_take_frame p;
  on_frame m (xl_add_int malloc k_api XLIO_STREAM_REQ_LIST);;
  send p m XPACK_TYPE_MSG;;
  free_ptr msg;;
  mret tt.

Definition xlio_stream_close (p : positive) : M W unit :=
  s ← stream p;
  msg ← optional (make_frame XLINE_MAKER_SIZE);
  clean (
    m ← found msg;
    set_args m (fun _ => mkargs XMSG_FLAG_POST (Some cb_post_close) (Some p) None (s_channel s));;
    write_pipe m)
    (xlio_stream_free (Some p);;
     (match msg with None => mret tt | Some m => free_ptr m;; mret tt end);;
     fail).

Definition put_in_pipe (flag : Z) (m : positive) : M W unit :=
  set_args m (fun a => a <| a_flag := flag |>);; write_pipe m.
Definition xlio_stream_post : positive -> M W unit := put_in_pipe XMSG_FLAG_POST.
Definition xlio_stream_resave : positive -> M W unit := put_in_pipe XMSG_FLAG_BACK.
Definition xlio_stream_write : positive -> M W unit := put_in_pipe XMSG_FLAG_RECV.

(** ** The thread *)

(** The frames of the store carry its own callbacks only. *)
Definition run_callback (cb : callback) (msg p : positive) : M W unit :=
  match cb with
  | cb_recv_frame => xlio_recv_frame msg p
  | cb_post_close => xlio_post_close msg p
  | cb_post_download => xlio_post_download msg p
  | _ => lift None
  end.

(** A message from the peer. *)
Definition turn_recv (msg p : positive) : M W unit :=
  f ← frame msg;
  (if decide (f_type f = XPACK_TYPE_MSG) then
     s ← stream p;
     if decide (readable (s_buf s) = 0) then
       on_frame msg (fun f => Some (xl_hold f, tt));;
       upd p (fun s => s <| s_recv_frame := Some msg |>);;
       set_args msg (fun a => a <| a_cb := Some cb_recv_frame |>)
     else
       ok ← succeeds (xlio_recv_frame msg p);
       if ok : bool then mret tt else xlio_stream_free (Some p)
   else if decide (f_type f = XPACK_TYPE_RES) then xlio_stream_free (Some p)
   else mret tt);;
  free_ptr msg;;
  mret tt.

(** A frame that the messenger gives back. *)
Definition turn_back (msg p : positive) : M W unit :=
  xlio_resave_frame p msg;;
  s ← stream p;
  alive ← (match s_recv_frame s with
    | Some r =>
        a ← args r;
        cb ← lift (a_cb a);
        ok ← succeeds (run_callback cb r p);
        (if ok : bool then mret tt else xlio_stream_free (Some p));;
        s ← stream p;
        (match s_recv_frame s with
         | None => mret tt
         | Some r => r ← free_ptr r; upd p (fun s => s <| s_recv_frame := r |>)
         end);;
        mret true
    | None =>
        if decide (s_flag s = IOSTREAM_TYPE_UPLOAD) then
          ok ← succeeds (xlio_upload_list p);
          if ok : bool then mret true else xlio_stream_free (Some p);; mret false
        else mret true
    end);
  f ← frame msg;
  if decide (f_type f = XPACK_TYPE_RES) then xlio_stream_free (if alive : bool then Some p else None) else mret tt.

(** A command of another thread. *)
Definition turn_post (msg : positive) : M W unit :=
  a ← args msg;
  cb ← lift (a_cb a);
  p ← lift (a_ctx a);
  succeeds (run_callback cb msg p);;
  mret tt.

Definition io_turn (msg : positive) : M W unit :=
  frame msg;;
  a ← args msg;
  c ← lift (a_channel a);
  ctx ← on_ms (fun g => ctx ← xchannel_get_ctx c g; Some (g, ctx));
  match ctx with
  | Some (Zpos p) =>
      if decide (a_flag a = XMSG_FLAG_RECV) then turn_recv msg p
      else if decide (a_flag a = XMSG_FLAG_BACK) then turn_back msg p
      else if decide (a_flag a = XMSG_FLAG_POST) then turn_post msg
      else mret tt
  | _ => mret tt
  end.

(** [xlio_loop] on the messages in the pipe; [fuel] is their number. *)
Fixpoint xlio_loop (fuel : nat) : M W unit :=
  pipe ← gets io_pipe;
  match pipe, fuel with
  | [], _ => mret tt
  | m :: pipe, S fuel => modify (fun s => s <| io_pipe := pipe |>);; io_turn m;; xlio_loop fuel
  | _, O => lift None
  end.

(** [xlio_free] once the thread has ended; the first [fuel] is the number of
    messages in the pipe, the second that of the streams. *)
Fixpoint drain_pipe (l : list positive) : M W unit :=
  match l with
  | [] => modify (fun s => s <| io_pipe := [] |>)
  | m :: l => free_ptr m;; drain_pipe l
  end.

Fixpoint free_streams (fuel : nat) (l : link) : M W unit :=
  match l, fuel with
  | Head, _ => mret tt
  | At p, S fuel =>
      s ← stream p;
      set_next (s_prev s) (s_next s);;
      set_prev (s_next s) (s_prev s);;
      xlio_stream_free (Some p);;
      free_streams fuel (s_next s)
  | _, _ => lift None
  end.

Definition xlio_free : M W unit :=
  pipe ← gets io_pipe;
  drain_pipe pipe;;
  ss ← gets io_streams;
  first ← gets io_first;
  free_streams (size ss) first.
End Xlio.

(** [xlio_create], once there are the pipe and the thread. *)
Definition xlio_create {W} (msger : messenger) (w : W) : io W := mkio msger ∅ w ∅ Head Head [] [].
