(* ===== verification/XlioRun.v ===== *)
(** * Reasoning about the file store

    [runs m s Q]: the computation [m] of [Xlio] ends from [s] without a fault and
    without a failure, and [Q] holds of the state and the result.  The lemmas
    for the primitives work on a state of the form [foc s p g st w a], in which
    the stream [p] and everything outside of the streams are explicit; the
    lemmas for the builders say what a call writes into a frame with room. *)

From stdpp Require Import gmap.
From S2P Require Import Prelude Bytes Xline Lines Channel Messenger Files Xlio.

#[local] Open Scope Z_scope.
#[local] Arguments __xl_n2b _ _ : simpl never.

(** ** Postconditions *)

Section Runs.
Context {W : Type}.

Definition runs {A} (m : M W A) (s : io W) (Q : io W -> A -> Prop) : Prop :=
  exists s' a, m s = Some (s', Some a) /\ Q s' a.

(** The computation jumps to [XClean]. *)
Definition fails {A} (m : M W A) (s : io W) (Q : io W -> Prop) : Prop :=
  exists s', m s = Some (s', None) /\ Q s'.

Lemma run_mono {A} (m : M W A) s (P Q : io W -> A -> Prop) :
  runs m s P -> (forall s' a, P s' a -> Q s' a) -> runs m s Q.
Proof. intros (s' & a & E & HP) H. exists s', a. auto. Qed.

Lemma run_bind {A B} (m : M W A) (k : A -> M W B) s Q :
  runs m s (fun s' a => runs (k a) s' Q) -> runs (m ≫= k) s Q.
Proof.
  intros (s' & a & E & s'' & b & E' & HQ). exists s'', b. split; [|done].
  unfold mbind, M_bind. by rewrite E.
Qed.

Lemma runs_ret {A} (a : A) s (Q : io W -> A -> Prop) : Q s a -> runs (mret a) s Q.
Proof. intros H. by exists s, a. Qed.

Lemma runs_lift {A} (o : option A) a s (Q : io W -> A -> Prop) : o = Some a -> Q s a -> runs (lift o) s Q.
Proof. intros -> HQ. by exists s, a. Qed.

Lemma runs_gets {A} (f : io W -> A) s (Q : io W -> A -> Prop) : Q s (f s) -> runs (gets f) s Q.
Proof. intros HQ. by eexists _, _. Qed.

Lemma runs_modify (f : io W -> io W) s (Q : io W -> unit -> Prop) : Q (f s) tt -> runs (modify f) s Q.
Proof. intros HQ. by eexists _, _. Qed.

Lemma runs_xcheck (b : Prop) `{Decision b} s (Q : io W -> unit -> Prop) : ~ b -> Q s tt -> runs (xcheck b) s Q.
Proof. intros Hb HQ. unfold xcheck. rewrite decide_False by done. by apply runs_ret. Qed.

Lemma runs_found {A} (a : A) s (Q : io W -> A -> Prop) : Q s a -> runs (found (Some a)) s Q.
Proof. apply runs_ret. Qed.

Lemma runs_clean {A} (m h : M W A) s Q : runs m s Q -> runs (clean m h) s Q.
Proof. intros (s' & a & E & HQ). exists s', a. unfold clean. by rewrite E. Qed.

Lemma runs_succeeds (m : M W unit) s (Q : io W -> bool -> Prop) :
  runs m s (fun s' _ => Q s' true) -> runs (succeeds m) s Q.
Proof.
  intros (s' & a & E & HQ). exists s', true. unfold succeeds. rewrite E. split; [|done].
  by rewrite bool_decide_true by eauto.
Qed.

Lemma runs_decide {A} (b : Prop) `{Decision b} (m n : M W A) s Q :
  (b -> runs m s Q) -> (~ b -> runs n s Q) -> runs (if decide b then m else n) s Q.
Proof. intros. case_decide; auto. Qed.

(** ** States with a stream in focus *)

Definition foc (s : io W) (p : positive) (g : messenger) (st : xlio_stream) (w : W) (a : gmap positive margs) : io W :=
  mkio g a w (<[p := st]> (io_streams s)) (io_first s) (io_last s) (io_pipe s) (io_cmds s).

Lemma foc_intro s p st : io_streams s !! p = Some st -> s = foc s p (io_ms s) st (io_os s) (io_args s).
Proof. intros H. destruct s. unfold foc. simpl in *. by rewrite insert_id. Qed.

Lemma foc_foc s p g st w a g' st' w' a' : foc (foc s p g st w a) p g' st' w' a' = foc s p g' st' w' a'.
Proof. unfold foc. simpl. by rewrite insert_insert_eq. Qed.

Context (s : io W) (p : positive).
Implicit Types (g : messenger) (st : xlio_stream) (w : W).

Lemma runs_stream g st w a Q : Q (foc s p g st w a) st -> runs (stream p) (foc s p g st w a) Q.
Proof.
  intros HQ. unfold stream. apply run_bind, runs_gets. simpl. eapply runs_lift; [|exact HQ].
  by rewrite lookup_insert_eq.
Qed.

Lemma runs_upd g st w a f Q : Q (foc s p g (f st) w a) tt -> runs (upd p f) (foc s p g st w a) Q.
Proof.
  intros HQ. unfold upd. apply run_bind, runs_stream, runs_modify.
  replace (_ <| io_streams := _ |>) with (foc s p g (f st) w a); [done|].
  unfold foc. simpl. by rewrite insert_insert_eq.
Qed.

Lemma runs_frame m f g st w a Q : g_frames g !! m = Some f ->
  Q (foc s p g st w a) f -> runs (frame m) (foc s p g st w a) Q.
Proof. intros E HQ. unfold frame, frames. apply run_bind, runs_gets. by eapply runs_lift. Qed.

Lemma runs_region m g st w a Q :
  Q (foc s p g st w a) (match g_frames g !! m with Some f => region_of f | None => [] end) ->
  runs (region m) (foc s p g st w a) Q.
Proof. intros HQ. unfold region, frames. by apply run_bind, runs_gets, runs_ret. Qed.

(** The messenger with another frame at [m]. *)
Definition with_frame_at (m : positive) (f : xframe) (g : messenger) : messenger :=
  g <| g_frames := <[m := f]> (g_frames g) |>.

Lemma runs_on_frame {A} m f f' (x : A) (h : xframe -> option (xframe * A)) g st w a Q :
  g_frames g !! m = Some f -> h f = Some (f', x) ->
  Q (foc s p (with_frame_at m f' g) st w a) x -> runs (on_frame m h) (foc s p g st w a) Q.
Proof.
  intros E Eh HQ. unfold on_frame. eapply run_bind, runs_frame; [done|]. apply run_bind.
  eapply runs_lift; [exact Eh|]. by apply run_bind, runs_gets, run_bind, runs_modify, runs_ret.
Qed.

Lemma runs_add m f f' r (h : xframe -> option (xframe * Z)) g st w a Q :
  g_frames g !! m = Some f -> h f = Some (f', r) -> r ≠ XEOF ->
  Q (foc s p (with_frame_at m f' g) st w a) r -> runs (add m h) (foc s p g st w a) Q.
Proof.
  intros E Eh Hr HQ. unfold add. apply run_bind. eapply runs_on_frame; [exact E|exact Eh|].
  by apply run_bind, runs_xcheck, runs_ret.
Qed.

Lemma runs_os {A} (h : W -> W * A) g st w w' (x : A) a Q :
  h w = (w', x) -> Q (foc s p g st w' a) x -> runs (os h) (foc s p g st w a) Q.
Proof. intros E HQ. exists (foc s p g st w' a), x. split; [|done]. unfold os. simpl. by rewrite E. Qed.

Lemma runs_on_ms {A} (h : messenger -> option (messenger * A)) g g' st w (x : A) a Q :
  h g = Some (g', x) -> Q (foc s p g' st w a) x -> runs (on_ms h) (foc s p g st w a) Q.
Proof. intros E HQ. exists (foc s p g' st w a), x. split; [|done]. unfold on_ms. simpl. by rewrite E. Qed.

(** Giving up a reference: the last one, or one of several. *)
Lemma runs_free_last m f g st w a Q : g_frames g !! m = Some f -> f_ref f = 1 ->
  Q (foc s p (g <| g_frames := delete m (g_frames g) |>) st w a) None -> runs (free_ptr m) (foc s p g st w a) Q.
Proof.
  intros E Hr HQ. unfold free_ptr, frames, set_frames. apply run_bind, runs_gets, run_bind. eapply runs_lift.
  { unfold free_frame. simpl. rewrite E. simpl. unfold xl_free. rewrite Hr. reflexivity. }
  by apply run_bind, runs_modify, runs_ret.
Qed.

Lemma runs_free_shared m f r g st w a Q : g_frames g !! m = Some f -> f_ref f = r + 1 -> 0 < r < 2 ^ 63 ->
  Q (foc s p (with_frame_at m (f <| f_ref := r |>) g) st w a) (Some m) -> runs (free_ptr m) (foc s p g st w a) Q.
Proof.
  intros E Hr Hb HQ. unfold free_ptr, frames, set_frames. apply run_bind, runs_gets, run_bind. eapply runs_lift.
  { unfold free_frame. simpl. rewrite E. simpl. unfold xl_free. rewrite Hr, u64_small by lia.
    replace (r + 1 - 1) with r by lia. rewrite decide_False by lia. reflexivity. }
  by apply run_bind, runs_modify, runs_ret.
Qed.
End Runs.

Lemma with_frame_at_twice m f f' g : with_frame_at m f' (with_frame_at m f g) = with_frame_at m f' g.
Proof. destruct g. unfold with_frame_at. simpl. by rewrite insert_insert_eq. Qed.

Lemma with_frame_at_id m f g : g_frames g !! m = Some f -> with_frame_at m f g = g.
Proof. intros H. destruct g. unfold with_frame_at. simpl in *. by rewrite insert_id. Qed.

Lemma at_frame m f g : g_frames (with_frame_at m f g) !! m = Some f.
Proof. unfold with_frame_at. simpl. apply lookup_insert_eq. Qed.

Lemma at_other_frame m n f g : m ≠ n -> g_frames (with_frame_at m f g) !! n = g_frames g !! n.
Proof. intros H. unfold with_frame_at. simpl. by apply lookup_insert_ne. Qed.

(** ** What a builder writes *)

(** Nothing but the contents of a frame changes. *)
Definition kin (f f' : xframe) : Prop :=
  f_ref f' = f_ref f /\ f_id f' = f_id f /\ f_type f' = f_type f.

(** [f'] is [f] with [bs] behind its content, in the same buffer. *)
Definition wrote (f f' : xframe) (bs : list Z) : Prop :=
  grown f f' bs /\ kin f f' /\ f_size f' = f_size f.

Lemma wrote_nil f : frame_ok f -> wrote f f [].
Proof. intros H. split; [by apply grown_nil|done]. Qed.

Lemma wrote_app f f' f'' a b : wrote f f' a -> wrote f' f'' b -> wrote f f'' (a ++ b).
Proof.
  intros (G1 & (K1 & K2 & K3) & S1) (G2 & (L1 & L2 & L3) & S2). split; [by eapply grown_app|].
  split; [|congruence]. unfold kin. by rewrite L1, L2, L3.
Qed.

Lemma wrote_ok f f' bs : wrote f f' bs -> frame_ok f'.
Proof. by intros ((? & _) & _). Qed.

Lemma wrote_wpos f f' bs : wrote f f' bs -> f_wpos f' = f_wpos f + Z.of_nat (length bs).
Proof. by intros ((_ & _ & ?) & _). Qed.

Lemma wrote_not_eof f f' bs : wrote f f' bs -> f_wpos f' ≠ XEOF.
Proof. intros W%wrote_ok. destruct W as (? & _ & ?). unfold XEOF. lia. Qed.

Lemma wrote_size f f' bs : wrote f f' bs -> f_size f' = f_size f.
Proof. by intros (_ & _ & ?). Qed.

Definition same_size (f f' : xframe) : Prop := kin f f' /\ f_size f' = f_size f.

Lemma put_kin bs f f' : put bs f = Some f' -> same_size f f'.
Proof. unfold put. intros H. simp_bind H. by injection H as <-. Qed.

Lemma fill_key_kin key f f' : __xl_fill_key key f = Some f' -> same_size f f'.
Proof. unfold __xl_fill_key. intros H. simp_bind H. by injection H as <-. Qed.

Lemma same_size_trans f f' f'' : same_size f f' -> same_size f' f'' -> same_size f f''.
Proof. unfold same_size, kin. intuition congruence. Qed.

Lemma reserve_fits malloc n f : frame_ok f -> f_wpos f + n <= f_size f -> reserve malloc n f = Some (f, true).
Proof.
  intros (Hw & Hs & Hm) Hr. unfold reserve. rewrite u64_small by lia. by rewrite decide_False by lia.
Qed.

Definition line_writes (line : xframe -> option xframe) (bs : list Z) : Prop :=
  appends line bs /\ forall f f', line f = Some f' -> same_size f f'.

Lemma put_writes bs : line_writes (put bs) bs.
Proof. split; [apply put_appends|apply put_kin]. Qed.

Section Fits.
Context (malloc : Z -> option xframe).

Lemma add_fits key newlen line bs f :
  line_writes line bs -> frame_ok f -> (length key <= 64)%nat ->
  newlen = Z.of_nat (length key) + 2 + Z.of_nat (length bs) -> f_wpos f + newlen <= f_size f ->
  exists f', xl_add malloc key newlen line f = Some (f', f_wpos f') /\ wrote f f' (enc_key key ++ bs)
    /\ f_line f' = __xl_n2b (f_wpos f') XLINE_TYPE_OBJ.
Proof.
  intros [Hl Hk] Hf Hkey Hn Hr. unfold xl_add. rewrite reserve_fits by done. cbn [mbind option_bind].
  destruct (appends_app _ _ _ _ (fill_key_appends key) Hl f) as (f2 & E2 & G2 & S2); [done| |].
  { rewrite length_app. pose proof (enc_key_length (take 64 key)). rewrite take_ge in * by done. lia. }
  rewrite take_ge in G2 by done. cbn [mbind option_bind] in E2.
  destruct (__xl_fill_key key f) as [f1|] eqn:E1; [|done]. cbn [mbind option_bind] in *. rewrite E2.
  cbn [mbind option_bind]. exists (xl_fixed f2). split; [done|]. split; [|done].
  pose proof (same_size_trans _ _ _ (fill_key_kin _ _ _ E1) (Hk _ _ E2)) as [K S]. by split.
Qed.

Lemma add_int_fits key i f : frame_ok f -> (length key <= 64)%nat ->
  f_wpos f + Z.of_nat (length (enc_key key ++ enc (VInt i))) <= f_size f ->
  exists f', xl_add_int malloc key i f = Some (f', f_wpos f') /\ wrote f f' (enc_key key ++ enc (VInt i))
    /\ f_line f' = __xl_n2b (f_wpos f') XLINE_TYPE_OBJ.
Proof.
  intros Hf Hk Hr. rewrite length_app in Hr. pose proof (enc_key_length key). cbn [enc] in Hr. rewrite n2b_length in Hr.
  assert (line_len key = Z.of_nat (length key) + 11) by (unfold line_len, XLINE_SIZE; rewrite u64_small; lia).
  apply add_fits; [apply put_writes|done|done|cbn [enc]; rewrite n2b_length; lia|lia].
Qed.

Lemma add_uint_fits key n f : frame_ok f -> (length key <= 64)%nat ->
  f_wpos f + Z.of_nat (length (enc_key key ++ enc (VUint n))) <= f_size f ->
  exists f', xl_add_uint malloc key n f = Some (f', f_wpos f') /\ wrote f f' (enc_key key ++ enc (VUint n))
    /\ f_line f' = __xl_n2b (f_wpos f') XLINE_TYPE_OBJ.
Proof.
  intros Hf Hk Hr. rewrite length_app in Hr. pose proof (enc_key_length key). cbn [enc] in Hr. rewrite n2b_length in Hr.
  assert (line_len key = Z.of_nat (length key) + 11) by (unfold line_len, XLINE_SIZE; rewrite u64_small; lia).
  apply add_fits; [apply put_writes|done|done|cbn [enc]; rewrite n2b_length; lia|lia].
Qed.

Lemma put2_writes a b : line_writes (fun f => f ← put a f; put b f) (a ++ b).
Proof.
  split; [apply appends_app; apply put_appends|]. intros f f' H. simp_bind H.
  eapply same_size_trans; eapply put_kin; done.
Qed.

Lemma add_word_fits key word f : frame_ok f -> (length key <= 64)%nat ->
  f_wpos f + Z.of_nat (length (enc_key key ++ enc (VStr (word ++ [0])))) <= f_size f ->
  exists f', xl_add_word malloc key word f = Some (f', f_wpos f') /\ wrote f f' (enc_key key ++ enc (VStr (word ++ [0])))
    /\ f_line f' = __xl_n2b (f_wpos f') XLINE_TYPE_OBJ.
Proof.
  intros Hf Hk Hr. pose proof Hf as (Hw & _ & Hm). rewrite length_app in Hr. pose proof (enc_key_length key).
  cbn [enc] in Hr. rewrite enc_body_length, length_app in Hr. cbn [length] in Hr.
  assert (line_len key = Z.of_nat (length key) + 11) by (unfold line_len, XLINE_SIZE; rewrite u64_small; lia).
  unfold xl_add_word. cbn [enc]. unfold enc_body.
  replace (Z.of_nat (length (word ++ [0]))) with (Z.of_nat (length word) + 1) by (rewrite length_app; simpl; lia).
  rewrite u64_small by lia. apply add_fits; [apply put2_writes|done|done| |lia].
  rewrite !length_app, n2b_length. cbn [length]. lia.
Qed.

(** Without data the bytes of the body stay as they are. *)
Lemma skip_writes n f : 0 <= n -> frame_ok f -> f_wpos f + n <= f_size f ->
  exists junk, let f' := f <| f_wpos := u64 (f_wpos f + n) |> in
    wrote f f' junk /\ Z.of_nat (length junk) = n.
Proof.
  intros Hn (Hw & Hs & Hm) Hr. rewrite u64_small by lia.
  exists (take (Z.to_nat n) (drop (Z.to_nat (f_wpos f)) (f_buf f))).
  assert (Hl : Z.of_nat (length (take (Z.to_nat n) (drop (Z.to_nat (f_wpos f)) (f_buf f)))) = n)
    by (rewrite length_take, length_drop; lia).
  split; [|done]. split; [|done]. split; [split_and!; simpl; lia|]. split; [|simpl; lia].
  unfold content. simpl. rewrite Z2Nat.inj_add by lia. by rewrite <- take_take_drop.
Qed.

Lemma add_bin_none_fits key n f : frame_ok f -> (length key <= 64)%nat -> 0 <= n ->
  f_wpos f + Z.of_nat (length key) + 11 + n <= f_size f ->
  exists f' junk, xl_add_bin malloc key None n f = Some (f', f_wpos f') /\ Z.of_nat (length junk) = n
    /\ wrote f f' (enc_key key ++ __xl_n2b n XLINE_TYPE_BIN ++ junk).
Proof.
  intros Hf Hk Hn Hr. pose proof Hf as (Hw & _ & Hm). unfold xl_add_bin, xl_add.
  assert (line_len key = Z.of_nat (length key) + 11) by (unfold line_len, XLINE_SIZE; rewrite u64_small; lia).
  rewrite u64_small by lia. rewrite reserve_fits by (try done; lia). cbn [mbind option_bind].
  destruct (fill_key_appends key f) as (f1 & E1 & G1 & S1); [done|rewrite take_ge by done; pose proof (enc_key_length key); lia|].
  rewrite take_ge in G1 by done. rewrite E1. cbn [mbind option_bind].
  pose proof G1 as (Hf1 & _ & Hw1). pose proof (enc_key_length key).
  destruct (put_appends (__xl_n2b n XLINE_TYPE_BIN) f1) as (f2 & E2 & G2 & S2); [done|rewrite n2b_length; lia|].
  rewrite E2. cbn [mbind option_bind]. pose proof G2 as (Hf2 & _ & Hw2). rewrite n2b_length in Hw2.
  destruct (skip_writes n f2) as (junk & Hj & Hl); [done|done|lia|].
  set (f3 := f2 <| f_wpos := _ |>) in *. exists (xl_fixed f3), junk. split; [done|]. split; [done|].
  pose proof (fill_key_kin _ _ _ E1) as [K1 T1]. pose proof (put_kin _ _ _ E2) as [K2 T2].
  eapply wrote_app; [by split|]. eapply wrote_app; [by split|exact Hj].
Qed.

Lemma add_bin_some_fits key bs f : frame_ok f -> (length key <= 64)%nat ->
  f_wpos f + Z.of_nat (length (enc_key key ++ enc (VBin bs))) <= f_size f ->
  exists f', xl_add_bin malloc key (Some bs) (Z.of_nat (length bs)) f = Some (f', f_wpos f')
    /\ wrote f f' (enc_key key ++ enc (VBin bs)) /\ f_line f' = __xl_n2b (f_wpos f') XLINE_TYPE_OBJ.
Proof.
  intros Hf Hk Hr. pose proof Hf as (Hw & _ & Hm). rewrite length_app in Hr. pose proof (enc_key_length key).
  cbn [enc] in *. rewrite enc_body_length in Hr.
  assert (line_len key = Z.of_nat (length key) + 11) by (unfold line_len, XLINE_SIZE; rewrite u64_small; lia).
  unfold xl_add_bin. rewrite u64_small by lia. unfold enc_body. apply add_fits; [|done|done| |lia].
  - rewrite (rd_range_prefix bs), Nat2Z.id, take_ge by lia. cbn [mbind option_bind]. apply put2_writes.
  - rewrite length_app, n2b_length. lia.
Qed.

Lemma begin_fits key f : frame_ok f -> (forall k, key = Some k -> (length k <= 64)%nat) ->
  f_wpos f + Z.of_nat (length (kenc key)) + 9 <= f_size f ->
  exists f' junk, xl_obj_begin malloc key f = Some (f', f_wpos f' - 9) /\ length junk = 9%nat
    /\ wrote f f' (kenc key ++ junk).
Proof.
  intros Hf Hk Hr. pose proof Hf as (Hw & _ & Hm). unfold xl_obj_begin.
  assert (Hn : match key with Some key => line_len key | None => XLINE_SIZE end = Z.of_nat (length (kenc key)) + 9).
  { unfold line_len, XLINE_SIZE in *. destruct key as [k|]; [|done]. specialize (Hk k eq_refl). simpl kenc.
    rewrite enc_key_length, u64_small; lia. }
  rewrite Hn, reserve_fits by (try done; lia). cbn [mbind option_bind].
  assert (E : exists f1, match key with Some key => __xl_fill_key key f | None => Some f end = Some f1 /\ wrote f f1 (kenc key)).
  { destruct key as [k|]; [|exists f; split; [done|by apply wrote_nil]]. specialize (Hk k eq_refl). simpl kenc in *.
    destruct (fill_key_appends k f) as (f1 & E1 & G1 & S1); [done|rewrite take_ge by done; lia|].
    rewrite take_ge in G1 by done. exists f1. split; [done|]. split; [done|]. apply (fill_key_kin _ _ _ E1). }
  destruct E as (f1 & -> & W1). cbn [mbind option_bind]. pose proof (wrote_wpos _ _ _ W1). pose proof (wrote_ok _ _ _ W1) as H1.
  pose proof (wrote_size _ _ _ W1). destruct (skip_writes 9 f1) as (junk & Hj & Hl); [lia|done|lia|].
  unfold XLINE_SIZE. set (f2 := f1 <| f_wpos := _ |>) in *. exists f2, junk. split.
  - pose proof (wrote_wpos _ _ _ Hj). destruct H1 as (? & _). rewrite (u64_small (f_wpos f2 - 9)) by lia. done.
  - split; [lia|]. by eapply wrote_app.
Qed.

(** Ending an object or a list. *)
Lemma end_fits ty f0 f1 f2 junk a body :
  frame_ok f0 -> wrote f0 f1 (a ++ junk) -> length junk = 9%nat -> wrote f1 f2 body ->
  f_wpos f1 - 9 < XEOF
  /\ exists f3, end_line ty (f_wpos f1 - 9) f2 = Some f3 /\ wrote f0 f3 (a ++ enc_body ty body).
Proof.
  intros Hf0 W1 Hj W2. destruct (wrote_app _ _ _ _ _ W1 W2) as (_ & K & S). destruct W1 as (G1 & _), W2 as (G2 & _).
  destruct (end_line_ok ty f0 f1 f2 junk a body) as (Hp & f3 & E & G3); try done.
  split; [done|]. exists f3. split; [done|]. split; [done|].
  unfold end_line in E. simp_bind E. injection E as <-. done.
Qed.

Lemma obj_end_fits f0 f1 f2 junk a fs :
  frame_ok f0 -> wrote f0 f1 (a ++ junk) -> length junk = 9%nat -> wrote f1 f2 (enc_fields fs) ->
  exists f3, xl_obj_end (f_wpos f1 - 9) f2 = Some (f3, f_wpos f1 - 9) /\ wrote f0 f3 (a ++ enc (VObj fs)).
Proof.
  intros Hf0 W1 Hj W2. destruct (end_fits XLINE_TYPE_OBJ _ _ _ _ _ _ Hf0 W1 Hj W2) as (Hp & f3 & E & W3).
  exists f3. unfold xl_obj_end. rewrite decide_True, E by done. split; [done|]. by rewrite enc_obj.
Qed.

Lemma list_end_fits f0 f1 f2 junk a vs :
  frame_ok f0 -> wrote f0 f1 (a ++ junk) -> length junk = 9%nat -> wrote f1 f2 (concat (map enc vs)) ->
  exists f3, xl_list_end (f_wpos f1 - 9) f2 = Some (f3, f_wpos f1 - 9) /\ wrote f0 f3 (a ++ enc (VList vs))
    /\ f_line f3 = __xl_n2b (f_wpos f3) XLINE_TYPE_OBJ.
Proof.
  intros Hf0 W1 Hj W2. destruct (end_fits XLINE_TYPE_LIST _ _ _ _ _ _ Hf0 W1 Hj W2) as (Hp & f3 & E & W3).
  exists (xl_fixed f3). unfold xl_list_end. rewrite decide_True, E by done. split; [done|]. by split.
Qed.

(** Bytes that were left out are filled in. *)
Lemma fill_back f0 f a junk bs :
  wrote f0 f (a ++ junk) -> length bs = length junk ->
  exists b, wr_range (f_buf f) (u64 (f_wpos f - Z.of_nat (length bs))) bs = Some b
    /\ wrote f0 (f <| f_buf := b |>) (a ++ bs).
Proof.
  intros ((Hf & Hc & Hw) & K & S) Hl. pose proof Hf as (Hw1 & Hs1 & Hm1). rewrite length_app in Hw.
  assert (Hw0 : Z.of_nat (length (content f0)) <= f_wpos f0).
  { unfold content. rewrite length_take. destruct (decide (f_wpos f0 < 0)); [|lia].
    pose proof (content_length f Hf) as Hlc. rewrite Hc, !length_app in Hlc. unfold content in Hlc.
    rewrite length_take in Hlc. lia. }
  assert (Hb : f_buf f = (content f0 ++ a) ++ junk ++ drop (Z.to_nat (f_wpos f)) (f_buf f)).
  { rewrite <- (take_drop (Z.to_nat (f_wpos f)) (f_buf f)) at 1. fold (content f). rewrite Hc. by rewrite <- !app_assoc. }
  pose proof (content_length f Hf) as Hlc. rewrite Hc, !length_app in Hlc.
  rewrite u64_small by lia. rewrite Hb, (wr_range_app _ _ bs); [|rewrite length_app; lia|done].
  eexists. split; [done|]. split; [|done]. split.
  - split_and!; simpl; [lia..| |lia]. rewrite Hs1, Hb at 1. rewrite !length_app, Hl. done.
  - split; [|simpl; rewrite length_app; lia]. unfold content at 1. simpl. rewrite !app_assoc.
    apply take_app_length'. rewrite !length_app. lia.
Qed.
End Fits.

(** ** Finding fields *)

Lemma assoc_elem key v fs : NoDup fs.*1 -> (key, v) ∈ fs -> assoc key fs = Some v.
Proof.
  induction fs as [|[k w] fs IH]; intros Hnd Hin; [by apply elem_of_nil in Hin|]. simpl in *.
  apply NoDup_cons in Hnd as [Hk Hnd]. apply elem_of_cons in Hin as [[= -> ->]|Hin]; [by rewrite decide_True|].
  rewrite decide_False; [by apply IH|]. intros ->. apply Hk. exact (list_elem_of_fmap_2 fst fs (k, v) Hin).
Qed.

Lemma assoc_none key fs : key ∉ fs.*1 -> assoc key fs = None.
Proof.
  induction fs as [|[k w] fs IH]; intros Hin; [done|]. simpl in *. apply not_elem_of_cons in Hin as [Hne Hin].
  rewrite decide_False by done. by apply IH.
Qed.

Lemma rotated {A} (n : nat) (l : list A) : drop n l ++ take n l ≡ₚ l.
Proof. rewrite (Permutation_app_comm (drop n l)). by rewrite take_drop. Qed.

(** A document whose keys differ. *)
Definition doc_ok (fs : list (list Z * value)) : Prop := Forall field_ok fs /\ NoDup fs.*1.

Lemma doc_ok_perm fs fs' : fs ≡ₚ fs' -> doc_ok fs -> doc_ok fs'.
Proof.
  intros Hp [H1 H2]. split; [by rewrite <- Hp|]. by rewrite <- (fmap_Permutation fst fs fs' Hp).
Qed.

Lemma find_elem m base fs n ps key v :
  doc_ok fs -> key_bytes key -> at_field m base fs n ps -> (key, v) ∈ fs ->
  exists ps' n' o, xl_find ps key = Some (ps', Some o) /\ at_field m base fs n' ps' /\ lies m o (enc v).
Proof.
  intros [Hok Hnd] Hkey Hp Hin. destruct (find_ok m base fs n ps key Hok Hkey Hp) as (ps' & n' & r & E & Hp' & Hr).
  rewrite (assoc_elem key v) in Hr.
  - destruct Hr as (o & -> & Ho). by exists ps', n', o.
  - by rewrite (fmap_Permutation fst _ _ (rotated n fs)).
  - by rewrite rotated.
Qed.

Lemma find_missing m base fs n ps key :
  doc_ok fs -> key_bytes key -> at_field m base fs n ps -> key ∉ fs.*1 ->
  exists ps' n', xl_find ps key = Some (ps', None) /\ at_field m base fs n' ps'.
Proof.
  intros [Hok Hnd] Hkey Hp Hin. destruct (find_ok m base fs n ps key Hok Hkey Hp) as (ps' & n' & r & E & Hp' & Hr).
  rewrite (assoc_none key) in Hr.
  - subst r. by exists ps', n'.
  - by rewrite (fmap_Permutation fst _ _ (rotated n fs)).
Qed.

Lemma at_field_mem m base fs n ps : at_field m base fs n ps -> p_mem ps = m.
Proof. by intros (? & _). Qed.

Section Find.
Context {W : Type} (s : io W) (m : list Z) (base : Z) (fs : list (list Z * value)).

Lemma runs_find n ps key v Q : doc_ok fs -> key_bytes key -> at_field m base fs n ps -> (key, v) ∈ fs ->
  (forall ps' n' o, at_field m base fs n' ps' -> lies m o (enc v) -> Q s (ps', o)) -> runs (find ps key) s Q.
Proof.
  intros Hd Hk Hp Hin HQ. destruct (find_elem _ _ _ _ _ _ _ Hd Hk Hp Hin) as (ps' & n' & o & E & Hp' & Ho).
  unfold find. eapply run_bind, runs_lift; [exact E|]. apply run_bind, runs_found, runs_ret. by eapply HQ.
Qed.

Lemma runs_find_uint n ps key x Q : doc_ok fs -> key_bytes key -> at_field m base fs n ps -> (key, VUint x) ∈ fs ->
  (forall ps' n', at_field m base fs n' ps' -> Q s (ps', x)) -> runs (find_number __xl_b2u ps key) s Q.
Proof.
  intros Hd Hk Hp Hin HQ. unfold find_number. apply run_bind. eapply runs_find; [done..|].
  intros ps' n' o Hp' Ho. apply run_bind. rewrite (at_field_mem _ _ _ _ _ Hp'). apply line_read in Ho as [_ Ho].
  eapply runs_lift; [exact Ho|]. apply runs_ret. destruct Hd as [Hok _].
  rewrite Forall_forall in Hok. destruct (Hok _ Hin) as [_ Hv]. simpl in Hv. rewrite u64_small by done. by eapply HQ.
Qed.

Lemma runs_find_int n ps key x Q : doc_ok fs -> key_bytes key -> at_field m base fs n ps -> (key, VInt x) ∈ fs ->
  (forall ps' n', at_field m base fs n' ps' -> Q s (ps', x)) -> runs (find_number __xl_b2i ps key) s Q.
Proof.
  intros Hd Hk Hp Hin HQ. unfold find_number. apply run_bind. eapply runs_find; [done..|].
  intros ps' n' o Hp' Ho. apply run_bind. rewrite (at_field_mem _ _ _ _ _ Hp'). apply line_read in Ho as [_ Ho].
  eapply runs_lift; [unfold __xl_b2i; rewrite Ho; reflexivity|]. apply runs_ret. destruct Hd as [Hok _].
  rewrite Forall_forall in Hok. destruct (Hok _ Hin) as [_ Hv]. simpl in Hv. rewrite s64_u64 by done. by eapply HQ.
Qed.

Lemma runs_parser o Q : lies m o (enc (VObj fs)) -> Z.of_nat (length (enc_fields fs)) < 2 ^ 63 ->
  (forall ps, at_field m (__xl_l2b o) fs 0 ps -> Q s ps) -> runs (lift (xl_parser m o)) s Q.
Proof.
  intros Hl Hb HQ. destruct (parser_at_field _ _ _ Hl Hb) as (ps & E & Hp). eapply runs_lift; [exact E|]. by apply HQ.
Qed.
End Find.

(** ** Received messages and lists *)

(** A message as the messenger hands it over: its line covers its content. *)
Definition is_message (f : xframe) (fs : list (list Z * value)) : Prop :=
  frame_ok f /\ f_line f = __xl_n2b (f_wpos f) XLINE_TYPE_OBJ /\ content f = enc_fields fs.

Lemma message_lies f fs : is_message f fs ->
  lies (region_of f) 0 (enc (VObj fs)) /\ Z.of_nat (length (enc_fields fs)) <= 2 ^ 62.
Proof.
  intros (Hf & Hl & Hc). pose proof (content_length f Hf) as Hw. pose proof Hf as (? & _ & ?). rewrite Hc in Hw. split; [|lia].
  exists [], (drop (Z.to_nat (f_wpos f)) (f_buf f)). split; [|done]. unfold region_of. rewrite enc_obj. unfold enc_body.
  rewrite Hw, Hl. cbn [app]. rewrite <- (take_drop (Z.to_nat (f_wpos f)) (f_buf f)) at 1. fold (content f). rewrite Hc.
  by rewrite app_assoc.
Qed.

(** The parser of a list stands before its element [k]. *)
Definition at_elem (base : Z) (vs : list value) (k : nat) (ps : xparser) : Prop :=
  p_ptr ps = base /\ p_wpos ps = Z.of_nat (length (concat (map enc vs)))
  /\ p_rpos ps = Z.of_nat (length (concat (map enc (take k vs)))) /\ (k <= length vs)%nat.

Lemma elems_split k (vs : list value) v : vs !! k = Some v ->
  concat (map enc (take (S k) vs)) = concat (map enc (take k vs)) ++ enc v.
Proof. intros H. rewrite (take_S_r _ _ _ H), map_app, concat_app. simpl. by rewrite app_nil_r. Qed.

Lemma elems_mono k (vs : list value) : (length (concat (map enc (take k vs))) <= length (concat (map enc vs)))%nat.
Proof. rewrite <- (take_drop k vs) at 2. rewrite map_app, concat_app, length_app. lia. Qed.

Lemma next_elem mem base vs k ps v : at_elem base vs k ps -> p_mem ps = mem ->
  lies mem base (concat (map enc vs)) -> Z.of_nat (length (concat (map enc vs))) < 2 ^ 62 -> vs !! k = Some v ->
  exists ps' o, xl_list_next ps = Some (ps', Some o) /\ at_elem base vs (S k) ps' /\ p_mem ps' = mem
    /\ lies mem o (enc v) /\ p_rpos ps < p_rpos ps'.
Proof.
  intros (Hp & Hw & Hr & Hk) Hm Hl Hb Hv. pose proof (enc_nonempty v). pose proof (elems_mono (S k) vs) as Hmono.
  rewrite (elems_split _ _ _ Hv), length_app in Hmono.
  assert (Ho : lies mem (p_ptr ps + p_rpos ps) (enc v)).
  { rewrite Hp, Hr. rewrite <- (take_drop k vs), (drop_S _ _ _ Hv), map_app, concat_app in Hl.
    apply lies_app in Hl as [_ Hl]. simpl in Hl. by apply lies_app in Hl as [? _]. }
  unfold xl_list_next. rewrite decide_True by lia. rewrite Hm, (enc_size _ _ _ Ho) by lia. cbn [mbind option_bind].
  eexists _, _. split; [reflexivity|]. split; [|split; [exact Hm|split; [exact Ho|simpl; rewrite u64_small; lia]]].
  split; [done|]. split; [done|]. split; [|by apply lookup_lt_Some in Hv].
  simpl. rewrite (elems_split _ _ _ Hv), length_app, u64_small by lia. lia.
Qed.

Lemma elems_at_least (vs : list value) : (length vs <= length (concat (map enc vs)))%nat.
Proof. induction vs as [|v vs IH]; simpl; [lia|]. rewrite length_app. pose proof (enc_nonempty v). lia. Qed.

Lemma no_next_elem base vs ps : at_elem base vs (length vs) ps -> xl_list_next ps = Some (ps, None).
Proof.
  intros (_ & Hw & Hr & _). rewrite firstn_all in Hr. unfold xl_list_next. by rewrite decide_False by lia.
Qed.

Lemma parser_elem mem o vs : lies mem o (enc (VList vs)) -> Z.of_nat (length (concat (map enc vs))) < 2 ^ 62 ->
  exists ps, xl_parser mem o = Some ps /\ at_elem (__xl_l2b o) vs 0 ps /\ p_mem ps = mem
    /\ lies mem (__xl_l2b o) (concat (map enc vs))
    /\ __xl_sizeof_body mem o = Some (Z.of_nat (length (concat (map enc vs)))).
Proof.
  intros Hl Hb. cbn [enc] in Hl. destruct (body_size _ _ _ _ Hl) as (Hs & Hlies & _); [done|lia|].
  destruct (parser_ok _ _ _ _ Hl) as (ps & E & Hm & Hr & Hw & Hp & _); [done|lia|].
  exists ps. split; [exact E|]. split; [|by split]. split; [done|]. split; [done|]. split; [done|lia].
Qed.

(** A string in a region. *)
Lemma text_lies mem o t : lies mem o (t ++ [0]) -> Forall (fun c => 0 < c < 256) t -> read_key mem o = Some t.
Proof. intros Hl Ht. apply read_key_ok; [done|]. eapply Forall_impl; [exact Ht|]. simpl. lia. Qed.

Lemma str_body mem o t : lies mem o (enc (VStr (t ++ [0]))) -> Z.of_nat (length t) < 2 ^ 62 ->
  __xl_sizeof_body mem o = Some (Z.of_nat (length t) + 1) /\ lies mem (__xl_l2b o) (t ++ [0]).
Proof.
  intros Hl Hb. cbn [enc] in Hl. destruct (body_size _ _ _ _ Hl) as (Hs & Hlies & _); [done|rewrite length_app; simpl; lia|].
  rewrite length_app in Hs. simpl in Hs. split; [rewrite Hs; f_equal; lia|done].
Qed.

Lemma lies_drop mem o t (k : nat) : lies mem o (t ++ [0]) -> (k <= length t)%nat ->
  lies mem (o + Z.of_nat k) (drop k t ++ [0]).
Proof.
  intros Hl Hk. rewrite <- (take_drop k t), <- app_assoc in Hl. apply lies_app in Hl as [_ Hl].
  rewrite length_take in Hl. by replace (Nat.min k (length t)) with k in Hl by lia.
Qed.

(** ** The queue of a channel

    The messages that wait to be sent or acknowledged, oldest first, in the ring
    of the channel [c], whose context is the stream [p]. *)
Record queue (p c : positive) (fl : list positive) (g : messenger) : Prop := {
  qu_chan : exists ch, g_chans g !! c = Some ch /\ x_ctx ch = Some (Zpos p)
    /\ r_range (c_msgbuf (x_ch ch)) = XMSG_BUF_RANGE /\ (8 <= length (r_buf (c_msgbuf (x_ch ch))))%nat
    /\ 0 <= r_rpos (c_msgbuf (x_ch ch)) < 2 ^ 16
    /\ r_wpos (c_msgbuf (x_ch ch)) = u16 (r_rpos (c_msgbuf (x_ch ch)) + Z.of_nat (length fl))
    /\ forall i m, fl !! i = Some m ->
         r_buf (c_msgbuf (x_ch ch)) !! Z.to_nat (Z.land (r_rpos (c_msgbuf (x_ch ch)) + Z.of_nat i) 7) = Some (Some m);
  qu_length : (length fl <= 8)%nat;
}.

Lemma queue_frame p c fl m f g : queue p c fl g -> queue p c fl (with_frame_at m f g).
Proof. intros [(ch & H) ?]. split; [by exists ch|done]. Qed.

Lemma queue_frames p c fl fs g : queue p c fl g -> queue p c fl (g <| g_frames := fs |>).
Proof. intros [(ch & H) ?]. split; [by exists ch|done]. Qed.

Lemma land_low x : Z.land x 7 = x mod 8.
Proof. apply (Z.land_ones x 3). lia. Qed.

Lemma send_queued p c fl m f g :
  queue p c fl g -> (length fl < 8)%nat -> g_frames g !! m = Some f ->
  exists g', on_channel c (xmsger_send m) g = Some (g', 0) /\ queue p c (fl ++ [m]) g'
    /\ g_frames g' = <[m := xmsg_fixed f]> (g_frames g).
Proof.
  intros [(ch & Hch & Hctx & Hr & Hl & Hrp & Hw & Hfl) Hlen] Hroom Hm. unfold on_channel. rewrite Hch. cbn [mbind option_bind].
  unfold xmsger_send. cbn [s_ch state_of s_frames]. set (mb := c_msgbuf (x_ch ch)) in *. unfold XMSG_BUF_RANGE in Hr.
  assert (Hwr : __serialbuf_writable mb = 8 - Z.of_nat (length fl)).
  { unfold __serialbuf_writable, u16, wrap in *. rewrite Hr, Hw. rewrite <- Z.add_opp_r.
    assert (Hz : 8 + - ((r_rpos mb + Z.of_nat (length fl)) mod 2 ^ 16) + r_rpos mb
      = (8 - Z.of_nat (length fl)) + ((r_rpos mb + Z.of_nat (length fl)) / 2 ^ 16) * 2 ^ 16) by (Z.to_euclidean_division_equations; lia).
    rewrite Hz, Z_mod_plus_full, Z.mod_small; lia. }
  rewrite Hwr, decide_True by lia. rewrite Hm. cbn [mbind option_bind].
  assert (Hi : __serialbuf_wpos mb = (r_rpos mb + Z.of_nat (length fl)) mod 8).
  { unfold __serialbuf_wpos. rewrite Hr, land_low, Hw. unfold u16, wrap. rewrite Z.mod_mod_divide; [done|by exists (2 ^ 13)]. }
  assert (Hb : 0 <= __serialbuf_wpos mb < 8) by (rewrite Hi; apply Z.mod_pos_bound; lia).
  unfold ring_set at 1. unfold wr. rewrite decide_True by lia. cbn [mbind option_bind].
  eexists. split; [reflexivity|]. split; [|done]. split; [|rewrite length_app; simpl; lia].
  eexists. cbn. split; [apply lookup_insert_eq|]. cbn. split; [done|]. split; [done|]. split; [by rewrite length_insert|].
  split; [done|]. split.
  - fold mb. rewrite Hw, u16_add_l, length_app. cbn [length]. f_equal. lia.
  - intros i x Hx. fold mb. rewrite land_low. apply lookup_app_Some in Hx as [Hx|[Hge Hx]].
    + rewrite list_lookup_insert_ne; [rewrite <- land_low; by apply Hfl|]. apply lookup_lt_Some in Hx. rewrite Hi.
      intros E. apply Z2Nat.inj in E; [|apply Z.mod_pos_bound; lia..]. Z.to_euclidean_division_equations; lia.
    + destruct (i - length fl)%nat eqn:Hd; [|done]. injection Hx as <-. replace (Z.of_nat i) with (Z.of_nat (length fl)) by lia.
      rewrite <- Hi. apply list_lookup_insert_eq. lia.
Qed.

(** The state of the messenger after [m] has been sent as [f]. *)
Definition is_sent (p c : positive) (fl : list positive) (m : positive) (f : xframe) (g g' : messenger) : Prop :=
  queue p c (fl ++ [m]) g' /\ g_frames g' = <[m := xmsg_fixed f]> (g_frames g).

Lemma runs_send {W} (s : io W) p m type f c fl g st w a Q :
  g_frames g !! m = Some f -> s_channel st = Some c -> queue p c fl g -> (length fl < 8)%nat ->
  (forall g', is_sent p c fl m (f <| f_type := type |>) g g' -> Q (foc s p g' st w a) tt) ->
  runs (send p m type) (foc s p g st w a) Q.
Proof.
  intros Hm Hc Hq Hl HQ. unfold send. apply run_bind. eapply runs_on_frame; [exact Hm|reflexivity|].
  apply run_bind, runs_stream. rewrite Hc. apply run_bind, runs_found, run_bind.
  set (g1 := with_frame_at m (f <| f_type := type |>) g).
  assert (Hq1 : queue p c fl g1) by (destruct Hq as [(ch & H) ?]; split; [by exists ch|done]).
  destruct (send_queued p c fl m (f <| f_type := type |>) g1 Hq1 Hl) as (g' & E & Hq' & Hf'); [apply at_frame|].
  eapply runs_on_ms; [exact E|]. apply runs_xcheck; [intros H; by apply H|]. apply HQ. split; [done|]. rewrite Hf'. unfold g1, with_frame_at. simpl.
  by rewrite insert_insert_eq.
Qed.
