(* ===== verification/Transfer.v ===== *)
(** * Parts of files

    What the two ends of a transfer agree on: a file travels as a sequence of
    parts, each with the name and the size of the file, the position and the
    data; several files one after the other.  [emit] is how an uploader may cut
    the files of its list into parts, [apply_part] what a part does to the
    files of the downloader.  [emit_copies]: the files arrive. *)

From stdpp Require Import gmap.
From S2P Require Import Prelude Xline Lines Xlio.

#[local] Open Scope Z_scope.

(** ** Entries and parts *)

(** A file of a list: its name and its size. *)
Record entry := mkentry { e_path : list Z; e_size : Z }.

Definition entry_ok (e : entry) : Prop :=
  Forall (fun c => 0 < c < 256) (e_path e) /\ (length (e_path e) <= 4096)%nat /\ 0 <= e_size e < 2 ^ 62.

Definition entry_fields (e : entry) (md5 : list Z) : list (list Z * value) :=
  [(k_path, VStr (e_path e ++ [0])); (k_type, VInt 1); (k_size, VUint (e_size e)); (k_md5, VBin md5)].

(** [xlio_gen_list] and [xlio_scan_dir] write the fields in different orders. *)
Definition is_entry (e : entry) (v : value) : Prop :=
  exists fs md5, v = VObj fs /\ fs ≡ₚ entry_fields e md5 /\ length md5 = 64%nat /\ is_bytes md5.

Record part := mkpart { t_entry : entry; t_pos : Z; t_data : list Z }.

Definition part_value (c : part) : value :=
  VObj ([(k_path, VStr (e_path (t_entry c) ++ [0])); (k_type, VInt 1); (k_size, VUint (e_size (t_entry c)));
         (k_pos, VUint (t_pos c))]
        ++ if decide (e_size (t_entry c) > 0) then [(k_data, VBin (t_data c))] else []).

Definition part_ok (c : part) : Prop :=
  entry_ok (t_entry c) /\ is_bytes (t_data c) /\ 0 <= t_pos c
  /\ t_pos c + Z.of_nat (length (t_data c)) <= e_size (t_entry c)
  /\ (e_size (t_entry c) > 0 -> t_data c ≠ []).

Definition bytes_of (cs : list part) : Z := fold_right (fun c n => Z.of_nat (length (t_data c)) + n) 0 cs.

(** ** Cutting *)

Section Cutting.
(** The contents of the files. *)
Context (cont : list Z -> list Z).

Definition file_ok (e : entry) : Prop :=
  entry_ok e /\ Z.of_nat (length (cont (e_path e))) = e_size e /\ is_bytes (cont (e_path e)).

(** Where an uploader is: the file it is sending and the position in it, and the
    files after it. *)
Record cursor := mkcur { q_cur : option entry; q_pos : Z; q_rest : list entry }.

Definition piece (e : entry) (pos n : Z) : part :=
  mkpart e pos (take (Z.to_nat n) (drop (Z.to_nat pos) (cont (e_path e)))).

Inductive emit : cursor -> list part -> cursor -> Prop :=
| emit_nil q : emit q [] q
| emit_next e rest cs q : emit (mkcur (Some e) 0 rest) cs q -> emit (mkcur None 0 (e :: rest)) cs q
| emit_part e pos n rest cs q : 0 < n -> pos + n < e_size e ->
    emit (mkcur (Some e) (pos + n) rest) cs q -> emit (mkcur (Some e) pos rest) (piece e pos n :: cs) q
| emit_end e pos rest cs q : emit (mkcur None 0 rest) cs q ->
    emit (mkcur (Some e) pos rest) (piece e pos (e_size e - pos) :: cs) q.

Lemma emit_app q cs q' cs' q'' : emit q cs q' -> emit q' cs' q'' -> emit q (cs ++ cs') q''.
Proof. induction 1; intros; simpl; eauto using emit. Qed.

Definition cursor_ok (q : cursor) : Prop :=
  Forall file_ok (q_rest q)
  /\ match q_cur q with
     | Some e => file_ok e /\ 0 <= q_pos q /\ (q_pos q = 0 \/ q_pos q < e_size e)
     | None => q_pos q = 0
     end.

Lemma emit_ok q cs q' : emit q cs q' -> cursor_ok q -> cursor_ok q'.
Proof.
  induction 1 as [| |e pos n rest cs q Hn Hlt He IH|e pos rest cs q He IH]; intros [Hr Hc]; simpl in *; [done|..].
  - apply IHemit. apply Forall_cons in Hr as [H1 H2]. split; [done|]. simpl. split; [done|]. lia.
  - apply IH. split; [done|]. simpl. split; [apply Hc|]. lia.
  - apply IH. by split.
Qed.

(** The bytes that are still to be sent. *)
Definition total (es : list entry) : Z := fold_right (fun e n => e_size e + n) 0 es.
Definition left_of (q : cursor) : Z :=
  match q_cur q with Some e => e_size e - q_pos q | None => 0 end + total (q_rest q).

(** The steps that are left, each with a part. *)
Definition steps_left (q : cursor) : nat :=
  Z.to_nat (left_of q) + length (q_rest q) + match q_cur q with Some _ => 1 | None => 0 end.

Lemma total_size_nonneg es : Forall file_ok es -> 0 <= total es.
Proof. induction 1 as [|e es [(_ & _ & H) _] _ IH]; simpl; lia. Qed.

Lemma left_nonneg q : cursor_ok q -> 0 <= left_of q.
Proof.
  intros [Hr Hc]. pose proof (total_size_nonneg _ Hr). unfold left_of.
  destruct (q_cur q) as [e|]; [|lia]. destruct Hc as (((_ & _ & He) & _) & Hp & Hlt). lia.
Qed.

Lemma piece_length e pos n : file_ok e -> 0 <= pos -> 0 <= n -> pos + n <= e_size e ->
  Z.of_nat (length (t_data (piece e pos n))) = n.
Proof. intros (_ & Hl & _) Hp Hn Hs. simpl. rewrite length_take, length_drop. lia. Qed.

(** Every part is valid, the bytes add up, and each part is a step. *)
Lemma emit_parts q cs q' : emit q cs q' -> cursor_ok q ->
  Forall part_ok cs /\ bytes_of cs = left_of q - left_of q' /\ (steps_left q' + length cs <= steps_left q)%nat.
Proof.
  induction 1 as [q|e rest cs q He IH|e pos n rest cs q Hn Hlt He IH|e pos rest cs q He IH]; intros [Hr Hc].
  - split; [done|]. simpl. split; lia.
  - simpl in Hc. pose proof (Forall_inv Hr) as Hf. pose proof (Forall_inv_tail Hr) as Hrest.
    destruct IH as (H1 & H2 & H3); [by split; [|simpl; split; [|lia]]|].
    split; [done|]. split; [rewrite H2; unfold left_of; simpl; lia|].
    unfold steps_left, left_of in *. cbn [q_cur q_pos q_rest total fold_right length] in *.
    pose proof Hf as ((_ & _ & Hs) & _). pose proof (total_size_nonneg _ Hrest). unfold total in *. lia.
  - destruct Hc as (Hf & Hp & Hl). simpl in Hr. cbn [q_pos] in *.
    assert (Hok : cursor_ok (mkcur (Some e) (pos + n) rest)) by (split; [done|]; simpl; split; [done|]; lia).
    destruct (IH Hok) as (H1 & H2 & H3). pose proof (left_nonneg _ Hok) as Hnn.
    pose proof (piece_length e pos n Hf Hp ltac:(lia) ltac:(lia)) as Hpl. split; [|split].
    + constructor; [|done]. split; [apply Hf|]. split; [by apply Forall_take, Forall_drop, Hf|]. split; [done|].
      split; [cbn [t_pos t_entry piece]; lia|]. intros _ Hnil. rewrite Hnil in Hpl. simpl in Hpl. lia.
    + cbn [bytes_of fold_right]. fold (bytes_of cs). rewrite H2, Hpl. unfold left_of. simpl. lia.
    + unfold steps_left, left_of in *. cbn [q_cur q_pos q_rest length] in *. lia.
  - destruct Hc as (Hf & Hp & Hl). simpl in Hr. cbn [q_pos] in *.
    assert (Hok : cursor_ok (mkcur None 0 rest)) by (by split).
    destruct (IH Hok) as (H1 & H2 & H3). pose proof (left_nonneg _ Hok) as Hnn. pose proof Hf as ((_ & _ & Hs) & _).
    pose proof (piece_length e pos (e_size e - pos) Hf Hp ltac:(lia) ltac:(lia)) as Hpl. split; [|split].
    + constructor; [|done]. split; [apply Hf|]. split; [by apply Forall_take, Forall_drop, Hf|]. split; [done|].
      split; [cbn [t_pos t_entry piece]; lia|]. intros Hgt Hnil. rewrite Hnil in Hpl. simpl in Hpl, Hgt. lia.
    + cbn [bytes_of fold_right]. fold (bytes_of cs). rewrite H2, Hpl. unfold left_of. simpl. lia.
    + unfold steps_left, left_of in *. cbn [q_cur q_pos q_rest length] in *. lia.
Qed.

(** ** Putting together *)

(** A first part makes the file, the others extend it. *)
Definition apply_part (target : list Z -> list Z) (d : gmap (list Z) (list Z)) (c : part) : gmap (list Z) (list Z) :=
  let path := target (e_path (t_entry c)) in
  if decide (t_pos c = 0) then <[path := t_data c]> d
  else <[path := default [] (d !! path) ++ t_data c]> d.

Context (target : list Z -> list Z) (Htarget : forall a b, target a = target b -> a = b).

Definition copied (d : gmap (list Z) (list Z)) (e : entry) : Prop :=
  d !! target (e_path e) = Some (cont (e_path e)).

(** The files of [done] are there, and of the current one what was sent. *)
Definition so_far (d0 d : gmap (list Z) (list Z)) (done : list entry) (q : cursor) : Prop :=
  Forall (copied d) done
  /\ (forall e, q_cur q = Some e -> q_pos q > 0 ->
        d !! target (e_path e) = Some (take (Z.to_nat (q_pos q)) (cont (e_path e))))
  /\ (forall path, (forall e, e ∈ done \/ q_cur q = Some e -> path ≠ target (e_path e)) -> d !! path = d0 !! path).

(** All files that the uploader has to send from [q] on. *)
Definition pending (q : cursor) : list entry := option_list (q_cur q) ++ q_rest q.

Lemma so_far_part d0 d done e pos rest n :
  file_ok e -> 0 <= pos -> 0 < n -> pos + n < e_size e -> e_path e ∉ e_path <$> done ->
  so_far d0 d done (mkcur (Some e) pos rest) ->
  so_far d0 (apply_part target d (piece e pos n)) done (mkcur (Some e) (pos + n) rest).
Proof using Htarget.
  intros (_ & Hl & _) Hp Hn Hlt Hnew (Hd & Hc & Ho). unfold apply_part. cbn [t_entry t_pos t_data piece].
  set (new := if decide (pos = 0) then take (Z.to_nat n) (drop (Z.to_nat pos) (cont (e_path e)))
              else default [] (d !! target (e_path e)) ++ take (Z.to_nat n) (drop (Z.to_nat pos) (cont (e_path e)))).
  assert (Hnewc : new = take (Z.to_nat (pos + n)) (cont (e_path e))).
  { unfold new. rewrite Z2Nat.inj_add by lia. case_decide as Hp0; [by subst|].
    rewrite (Hc e eq_refl ltac:(simpl; lia)). simpl. by rewrite take_take_drop. }
  replace (if decide (pos = 0) then _ else _) with (<[target (e_path e) := new]> d) by (unfold new; by case_decide).
  rewrite Hnewc. split; [|split].
  - eapply Forall_impl; [apply Forall_and; split; [exact Hd|]|].
    { apply Forall_forall. intros x Hx. exact (list_elem_of_fmap_2 e_path done x Hx). }
    intros x [Hx Hin]. unfold copied. rewrite lookup_insert_ne; [done|]. intros E%Htarget. by rewrite E in Hnew.
  - intros ? [= <-] _. simpl. by rewrite lookup_insert_eq.
  - intros path H. rewrite lookup_insert_ne by (intros E; by apply (H e); [right|]). apply Ho. intros x [Hx|Hx]; apply H; [by left|by right].
Qed.

Lemma so_far_end d0 d done e pos rest :
  file_ok e -> 0 <= pos -> pos <= e_size e -> e_path e ∉ e_path <$> done ->
  so_far d0 d done (mkcur (Some e) pos rest) ->
  so_far d0 (apply_part target d (piece e pos (e_size e - pos))) (done ++ [e]) (mkcur None 0 rest).
Proof using Htarget.
  intros (_ & Hl & _) Hp Hlt Hnew (Hd & Hc & Ho). unfold apply_part. cbn [t_entry t_pos t_data piece].
  set (new := if decide (pos = 0) then take (Z.to_nat (e_size e - pos)) (drop (Z.to_nat pos) (cont (e_path e)))
              else default [] (d !! target (e_path e)) ++ take (Z.to_nat (e_size e - pos)) (drop (Z.to_nat pos) (cont (e_path e)))).
  assert (Hnewc : new = cont (e_path e)).
  { unfold new. rewrite (take_ge (drop _ _)) by (rewrite length_drop; lia). case_decide as Hp0; [by subst|].
    rewrite (Hc e eq_refl ltac:(simpl; lia)). simpl. by rewrite take_drop. }
  replace (if decide (pos = 0) then _ else _) with (<[target (e_path e) := new]> d) by (unfold new; by case_decide).
  rewrite Hnewc. split; [|split].
  - apply Forall_app. split; [|constructor; [|done]; unfold copied; by rewrite lookup_insert_eq].
    eapply Forall_impl; [apply Forall_and; split; [exact Hd|]|].
    { apply Forall_forall. intros x Hx. exact (list_elem_of_fmap_2 e_path done x Hx). }
    intros x [Hx Hin]. unfold copied. rewrite lookup_insert_ne; [done|]. intros E%Htarget. by rewrite E in Hnew.
  - done.
  - intros path H. rewrite lookup_insert_ne.
    2:{ intros E. apply (H e); [left; apply elem_of_app; right; by apply list_elem_of_singleton|done]. }
    apply Ho. intros x [Hx|[= <-]]; apply H; left; apply elem_of_app; [by left|right; by apply list_elem_of_singleton].
Qed.

(** The parts rebuild the files one by one. *)
Lemma emit_so_far d0 q cs q' : emit q cs q' -> forall d done, cursor_ok q ->
  NoDup (e_path <$> done ++ pending q) -> so_far d0 d done q ->
  exists done', so_far d0 (foldl (apply_part target) d cs) (done ++ done') q' /\ pending q = done' ++ pending q'.
Proof using Htarget.
  induction 1 as [q|e rest cs q He IH|e pos n rest cs q Hn Hlt He IH|e pos rest cs q He IH]; intros d done [Hr Hc] Hnd Hs.
  - exists []. by rewrite app_nil_r.
  - simpl in Hc. apply (IH d done); [|exact Hnd|].
    + split; [by apply Forall_cons in Hr as [_ ?]|]. simpl. split; [by apply Forall_cons in Hr as [? _]|]. lia.
    + destruct Hs as (H1 & H2 & H3). split; [done|]. split; [simpl; lia|]. intros path H. apply H3.
      intros x [Hx|Hx]; apply H; [by left|done].
  - destruct Hc as (Hf & Hp & Hl). cbn [foldl]. apply (IH _ done); [split; [done|]; simpl in *; split; [done|lia]|exact Hnd|].
    apply so_far_part; try done. unfold pending in Hnd. cbn [q_cur option_list] in Hnd. rewrite fmap_app in Hnd.
    apply NoDup_app in Hnd as (_ & Hd & _). intros Hin. apply (Hd _ Hin). simpl. by left.
  - destruct Hc as (Hf & Hp & Hl). cbn [foldl]. cbn [q_pos q_rest] in *. pose proof Hf as ((_ & _ & Hs0) & _).
    destruct (IH (apply_part target d (piece e pos (e_size e - pos))) (done ++ [e])) as (done' & Hs' & Hp').
    + by split.
    + by rewrite <- app_assoc.
    + apply so_far_end; try done; [lia|]. unfold pending in Hnd. cbn [q_cur option_list] in Hnd. rewrite fmap_app in Hnd.
      apply NoDup_app in Hnd as (_ & Hd & _). intros Hin. apply (Hd _ Hin). simpl. by left.
    + exists (e :: done'). rewrite <- app_assoc in Hs'. split; [exact Hs'|].
      unfold pending in *. cbn [q_cur q_rest] in *. simpl in *. by rewrite Hp'.
Qed.

(** From an empty directory position: what has arrived after any number of
    parts, and the files that are complete. *)
Lemma emit_copies d es cs q : emit (mkcur None 0 es) cs q -> Forall file_ok es -> NoDup (e_path <$> es) ->
  let d' := foldl (apply_part target) d cs in
  exists done, es = done ++ pending q /\ Forall (copied d') done
    /\ (forall e, q_cur q = Some e -> q_pos q > 0 -> d' !! target (e_path e) = Some (take (Z.to_nat (q_pos q)) (cont (e_path e))))
    /\ (forall path, (forall e, e ∈ es -> path ≠ target (e_path e)) -> d' !! path = d !! path).
Proof using Htarget.
  intros He Hok Hnd. destruct (emit_so_far d _ _ _ He d []) as (done & (H1 & H2 & H3) & Hp).
  - by split.
  - exact Hnd.
  - split; [done|]. split; [done|]. done.
  - exists done. change (es = done ++ pending q) in Hp. split; [exact Hp|]. split; [done|]. split; [done|].
    intros path H. apply H3. intros e [Hin|Hc]; apply H; rewrite Hp; apply elem_of_app; [by left|right].
    unfold pending. rewrite Hc. simpl. by left.
Qed.
End Cutting.
