(* ===== verification/Lending.v ===== *)
(** * The frames of a stream

    A stream owns four frames.  They leave its ring in turn, go through the
    messenger and come back in the same order; [lending] says which of them are
    away.  As long as that order is kept, [frame->id] is the slot a frame came
    from, and the counters of the ring, which wrap at 256, say how many frames
    there are to take. *)

From stdpp Require Import gmap.
From S2P Require Import Prelude Bytes Xline Lines Channel Messenger Files Xlio XlioRun.

#[local] Open Scope Z_scope.

(** A frame without content. *)
Definition fresh_frame (f : xframe) : Prop := frame_ok f /\ f_size f = MSGBUF_SIZE /\ f_wpos f = 0.

(** A frame that was sent as a message from the slot [i]. *)
Definition lent_frame (i : nat) (f : xframe) : Prop :=
  frame_ok f /\ f_size f = MSGBUF_SIZE /\ f_type f = XPACK_TYPE_MSG /\ f_id f = Z.of_nat (i mod 4).

(** [T] frames have been taken and [B] put back; those away, oldest first, are
    [fl]. *)
Record lending_at (T B : nat) (own fl : list positive) (b : ring (option positive)) (frames : gmap positive xframe) : Prop := {
  le_own : length own = 4%nat /\ NoDup own;
  le_range : r_range b = 4 /\ length (r_buf b) = 4%nat;
  le_pos : r_rpos b = u8 (Z.of_nat T) /\ r_wpos b = u8 (Z.of_nat (4 + B));
  le_count : (T = B + length fl)%nat /\ (length fl <= 4)%nat;
  le_away i m : fl !! i = Some m ->
    own !! ((B + i) mod 4)%nat = Some m /\ exists f, frames !! m = Some f /\ lent_frame (B + i) f;
  le_there t : (T <= t < B + 4)%nat -> exists m f, own !! (t mod 4)%nat = Some m
    /\ r_buf b !! (t mod 4)%nat = Some (Some m) /\ frames !! m = Some f /\ fresh_frame f;
}.

Definition lending own fl b frames : Prop := exists T B, lending_at T B own fl b frames.

Lemma mod4_inj a b : (a mod 4 = b mod 4 -> a <= b < a + 4 -> a = b)%nat.
Proof.
  intros E H. pose proof (Nat.div_mod_eq a 4). pose proof (Nat.div_mod_eq b 4).
  assert (a / 4 = b / 4)%nat by lia. lia.
Qed.

Lemma slot_of T b : r_range b = 4 -> slot (u8 (Z.of_nat T)) b = Z.of_nat (T mod 4).
Proof.
  intros Hr. unfold slot. rewrite Hr. change (4 - 1) with (Z.ones 2). rewrite Z.land_ones by lia.
  unfold u8, wrap. rewrite Z.mod_mod_divide by (by exists (2 ^ 6)). rewrite Nat2Z.inj_mod. done.
Qed.

Lemma own_inj (own : list positive) i j m : NoDup own -> own !! i = Some m -> own !! j = Some m -> i = j.
Proof. intros Hn. by apply NoDup_lookup. Qed.

(** How many frames can be taken. *)
Lemma lending_readable own fl b frames : lending own fl b frames -> readable b = 4 - Z.of_nat (length fl).
Proof.
  intros (T & B & [_ _ (Hr & Hw) (HT & Hl) _ _]). unfold readable. rewrite Hr, Hw.
  unfold u8, wrap. rewrite Zminus_mod_idemp_l, Zminus_mod_idemp_r. rewrite Z.mod_small; lia.
Qed.

(** The frame that is taken next. *)
Lemma lending_next own fl b frames : lending own fl b frames -> (length fl < 4)%nat ->
  exists i m f, slot (r_rpos b) b = Z.of_nat i /\ ring_get b (Z.of_nat i) = Some (Some m) /\ frames !! m = Some f
    /\ fresh_frame f /\ (m ∉ fl) /\ m ∈ own
    /\ forall f', frame_ok f' -> f_size f' = MSGBUF_SIZE -> f_type f' = XPACK_TYPE_MSG -> f_id f' = Z.of_nat i ->
        exists b', ring_set b (Z.of_nat i) None = Some b'
          /\ lending own (fl ++ [m]) (b' <| r_rpos := u8 (r_rpos b' + 1) |>) (<[m := f']> frames).
Proof.
  intros (T & B & [(Hol & Hnd) (Hr & Hbl) (Hrp & Hwp) (HT & Hl) Haway Hthere]) Hroom.
  destruct (Hthere T) as (m & f & Hm & Hb & Hf & Hfresh); [lia|].
  assert (Hlt : (T mod 4 < 4)%nat) by (apply Nat.mod_upper_bound; lia).
  assert (Hnew : m ∉ fl).
  { intros [j Hj]%list_elem_of_lookup. destruct (Haway _ _ Hj) as [Ho _]. pose proof (own_inj _ _ _ _ Hnd Ho Hm) as E.
    apply mod4_inj in E; apply lookup_lt_Some in Hj; lia. }
  exists (T mod 4)%nat, m, f. split; [rewrite Hrp; by apply slot_of|]. split.
  { unfold ring_get. by rewrite rd_nat. }
  split; [done|]. split; [done|]. split; [done|]. split; [by eapply list_elem_of_lookup_2|].
  intros f' Hok' Hs' Hty' Hid'. unfold ring_set, wr. rewrite decide_True by lia. cbn [mbind option_bind]. rewrite Nat2Z.id.
  eexists. split; [reflexivity|]. exists (S T), B. split; cbn.
  - done.
  - by rewrite length_insert.
  - rewrite Hrp. split; [|done]. unfold u8, wrap. rewrite Zplus_mod_idemp_l. f_equal. lia.
  - rewrite length_app. simpl. lia.
  - intros i x Hx. apply lookup_app_Some in Hx as [Hx|[Hge Hx]].
    + destruct (Haway _ _ Hx) as (Ho & g & Hg & Hlent). split; [done|]. exists g. split; [|done].
      rewrite lookup_insert_ne; [done|]. intros ->. apply Hnew. by eapply list_elem_of_lookup_2.
    + destruct (i - length fl)%nat eqn:Hd; [|done]. injection Hx as <-. replace (B + i)%nat with T by lia.
      split; [done|]. exists f'. split; [apply lookup_insert_eq|done].
  - intros t Ht. destruct (Hthere t) as (x & g & Hx & Hbx & Hg & Hgf); [lia|]. exists x, g.
    assert (Hne : (t mod 4 ≠ T mod 4)%nat) by (intros E; symmetry in E; apply mod4_inj in E; lia).
    split; [done|]. split; [by rewrite list_lookup_insert_ne|]. split; [|done].
    rewrite lookup_insert_ne; [done|]. intros <-. apply Hne. by apply (own_inj own _ _ m).
Qed.

(** A frame that comes back is the one that has been away longest. *)
Lemma lending_back own m fl b frames : lending own (m :: fl) b frames ->
  exists f, frames !! m = Some f /\ frame_ok f /\ f_type f = XPACK_TYPE_MSG /\ (m ∉ fl)
    /\ exists b', ring_set b (f_id f) (Some m) = Some b'
        /\ lending own fl (b' <| r_wpos := u8 (r_wpos b' + 1) |>) (<[m := xl_clear f]> frames).
Proof.
  intros (T & B & [(Hol & Hnd) (Hr & Hbl) (Hrp & Hwp) (HT & Hl) Haway Hthere]). simpl in HT, Hl.
  destruct (Haway 0%nat m eq_refl) as (Ho & f & Hf & Hok & Hs & Hty & Hid). rewrite Nat.add_0_r in Ho, Hid.
  assert (Hlt : (B mod 4 < 4)%nat) by (apply Nat.mod_upper_bound; lia).
  assert (Hnew : m ∉ fl).
  { intros [j Hj]%list_elem_of_lookup. destruct (Haway (S j) m Hj) as [Ho' _]. pose proof (own_inj _ _ _ _ Hnd Ho Ho') as E.
    apply mod4_inj in E; apply lookup_lt_Some in Hj; lia. }
  exists f. split; [done|]. split; [done|]. split; [done|]. split; [done|].
  unfold ring_set, wr. rewrite Hid, decide_True by lia. cbn [mbind option_bind]. rewrite Nat2Z.id.
  eexists. split; [reflexivity|]. exists T, (S B). split; cbn -[Nat.modulo Nat.add].
  - done.
  - by rewrite length_insert.
  - rewrite Hwp. split; [done|]. unfold u8, wrap. rewrite Zplus_mod_idemp_l. f_equal. lia.
  - lia.
  - intros i x Hx. destruct (Haway (S i) x Hx) as (Hox & g & Hg & Hlent).
    replace (S B + i)%nat with (B + S i)%nat by lia. split; [done|]. exists g. split; [|done].
    rewrite lookup_insert_ne; [done|]. intros <-. apply Hnew. by eapply list_elem_of_lookup_2.
  - intros t Ht. destruct (decide (t = B + 4)%nat) as [->|Hne].
    + assert (E : ((B + 4) mod 4 = B mod 4)%nat) by (replace (B + 4)%nat with (B + 1 * 4)%nat by lia; apply Nat.Div0.mod_add).
      rewrite E. exists m, (xl_clear f). split; [done|]. split; [apply list_lookup_insert_eq; lia|].
      split; [apply lookup_insert_eq|]. destruct Hok as (? & ? & ?). split; [|done]. split_and!; simpl; [lia|lia|done|done].
    + destruct (Hthere t) as (x & g & Hx & Hbx & Hg & Hgf); [lia|]. exists x, g.
      assert (Hne' : (B mod 4 ≠ t mod 4)%nat) by (intros E; apply mod4_inj in E; lia).
      split; [done|]. split; [by rewrite list_lookup_insert_ne|]. split; [|done].
      rewrite lookup_insert_ne; [done|]. intros <-. apply Hne'. by apply (own_inj own _ _ m).
Qed.

(** Frames that only their sender's side of the messenger touched. *)
Definition same_message (f f' : xframe) : Prop :=
  f_buf f' = f_buf f /\ f_wpos f' = f_wpos f /\ f_size f' = f_size f /\ f_line f' = f_line f /\ kin f f'.

Lemma same_message_refl f : same_message f f.
Proof. done. Qed.

Lemma same_message_lent i f f' : same_message f f' -> lent_frame i f -> lent_frame i f'.
Proof.
  intros (Hb & Hw & Hs & Hl & _ & Hid & Hty) (Hok & Hsz & Ht & Hi). unfold lent_frame, frame_ok in *.
  rewrite Hb, Hw, Hs, Hid, Hty. done.
Qed.

Lemma lending_frames own fl b frames frames' : lending own fl b frames ->
  (forall m f, m ∈ own -> m ∉ fl -> frames !! m = Some f -> frames' !! m = Some f) ->
  (forall m f, m ∈ fl -> frames !! m = Some f -> exists f', frames' !! m = Some f' /\ same_message f f') ->
  lending own fl b frames'.
Proof.
  intros (T & B & [Hown Hrange Hpos Hcount Haway Hthere]) H1 H2. exists T, B. split; [done..| |].
  - intros i m Hm. destruct (Haway i m Hm) as (Ho & f & Hf & Hlent). split; [done|].
    destruct (H2 m f) as (f' & Hf' & Hs); [by eapply list_elem_of_lookup_2|done|]. exists f'. split; [done|]. by eapply same_message_lent.
  - intros t Ht. destruct (Hthere t Ht) as (m & f & Hm & Hb & Hf & Hfresh). exists m, f. split; [done|]. split; [done|].
    split; [|done]. apply H1; [by eapply list_elem_of_lookup_2| |done].
    intros [j Hj]%list_elem_of_lookup. destruct (Haway _ _ Hj) as [Ho _].
    pose proof (own_inj _ _ _ _ (proj2 Hown) Ho Hm) as E. destruct Hcount as [HT Hl].
    apply mod4_inj in E; apply lookup_lt_Some in Hj; lia.
Qed.

Lemma lending_in {own} fl b frames m : lending own fl b frames -> m ∈ fl -> m ∈ own.
Proof.
  intros (T & B & [_ _ _ _ Haway _]) [i Hi]%list_elem_of_lookup. destruct (Haway _ _ Hi) as [Ho _].
  by eapply list_elem_of_lookup_2.
Qed.

Lemma lending_length {own} fl b frames : lending own fl b frames -> (length fl <= 4)%nat.
Proof. by intros (T & B & [_ _ _ [_ ?] _ _]). Qed.

(** Other frames may come and go. *)
Lemma lending_elsewhere own fl b frames frames' n : lending own fl b frames -> n ∉ own ->
  (forall x, x ≠ n -> frames' !! x = frames !! x) -> lending own fl b frames'.
Proof.
  intros Hl Hn H. eapply lending_frames; [exact Hl|..].
  - intros m x Hm _ Hx. rewrite H; [done|]. by intros ->.
  - intros m x Hm Hx. exists x. split; [|by apply same_message_refl]. rewrite H; [done|].
    intros ->. apply Hn. by eapply lending_in.
Qed.

Lemma lending_other own fl b frames n f : lending own fl b frames -> n ∉ own -> lending own fl b (<[n := f]> frames).
Proof. intros Hl Hn. eapply lending_elsewhere; [done..|]. intros x Hx. by rewrite lookup_insert_ne. Qed.

Lemma lending_freed own fl b frames n : lending own fl b frames -> n ∉ own -> lending own fl b (delete n frames).
Proof. intros Hl Hn. eapply lending_elsewhere; [done..|]. intros x Hx. by rewrite lookup_delete_ne. Qed.

(** Of the frames [own], those at hand are as they were, and nothing but the
    positions of the packets has changed in those that are away. *)
Definition untouched (own away : list positive) (frames frames' : gmap positive xframe) : Prop :=
  (forall x f, x ∈ own -> x ∉ away -> frames !! x = Some f -> frames' !! x = Some f)
  /\ (forall x f, x ∈ away -> frames !! x = Some f -> exists f', frames' !! x = Some f' /\ same_message f f').

Lemma lending_untouched own fl b frames frames' : lending own fl b frames -> untouched own fl frames frames' ->
  lending own fl b frames'.
Proof. intros Hl [H1 H2]. by eapply lending_frames. Qed.

(** ** Taking and putting back *)

Section Ring.
Context {W : Type} (s : io W) (p : positive).

Lemma runs_take_frame own fl g st w a Q :
  lending own fl (s_buf st) (g_frames g) -> (length fl < 4)%nat ->
  (forall m f b, m ∉ fl -> m ∈ own -> g_frames g !! m = Some f -> fresh_frame f ->
    (forall f', frame_ok f' -> f_size f' = MSGBUF_SIZE -> f_type f' = XPACK_TYPE_MSG -> f_id f' = slot (r_rpos (s_buf st)) (s_buf st) ->
       lending own (fl ++ [m]) b (<[m := f']> (g_frames g))) ->
    Q (foc s p (with_frame_at m (f <| f_id := slot (r_rpos (s_buf st)) (s_buf st) |>) g) (st <| s_buf := b |>) w a) m) ->
  runs (xlio_take_frame p) (foc s p g st w a) Q.
Proof.
  intros Hl Hroom HQ. destruct (lending_next _ _ _ _ Hl Hroom) as (i & m & f & Hi & Hget & Hf & Hfresh & Hnew & Hin & Hput).
  rewrite Hi in HQ. unfold xlio_take_frame. apply run_bind, runs_stream. rewrite Hi. apply run_bind. eapply runs_lift; [exact Hget|].
  apply run_bind, (runs_lift _ m); [done|]. apply run_bind. eapply runs_on_frame; [exact Hf|reflexivity|].
  apply run_bind. destruct (Hput (f <| f_id := Z.of_nat i |> <| f_type := XPACK_TYPE_MSG |>)) as (b' & Eb & _); [apply Hfresh..|done|done|].
  eapply runs_lift; [exact Eb|]. apply run_bind, runs_upd, runs_ret. cbn. apply (HQ m f); [done..|].
  intros f' H1 H2 H3 H4. destruct (Hput f' H1 H2 H3 H4) as (b2 & Eb2 & Hl2). rewrite Eb in Eb2. injection Eb2 as <-. exact Hl2.
Qed.

Lemma runs_with_frame (body : positive -> M W unit) own fl g st w a Q :
  lending own fl (s_buf st) (g_frames g) -> (length fl < 4)%nat ->
  (forall m f b, m ∉ fl -> m ∈ own -> g_frames g !! m = Some f -> fresh_frame f ->
    (forall f', frame_ok f' -> f_size f' = MSGBUF_SIZE -> f_type f' = XPACK_TYPE_MSG -> f_id f' = slot (r_rpos (s_buf st)) (s_buf st) ->
       lending own (fl ++ [m]) b (<[m := f']> (g_frames g))) ->
    runs (body m) (foc s p (with_frame_at m (f <| f_id := slot (r_rpos (s_buf st)) (s_buf st) |>) g) (st <| s_buf := b |>) w a) Q) ->
  runs (with_frame p body) (foc s p g st w a) Q.
Proof.
  intros Hl Hroom HQ. unfold with_frame. apply run_bind. eapply runs_take_frame; [done..|].
  intros m f b H1 H2 H3 H4 H5. apply runs_clean. by eapply HQ.
Qed.

Lemma runs_resave own m fl g st w a Q :
  lending own (m :: fl) (s_buf st) (g_frames g) ->
  (forall f b, g_frames g !! m = Some f -> f_type f = XPACK_TYPE_MSG ->
    lending own fl b (<[m := xl_clear f]> (g_frames g)) -> m ∉ fl ->
    Q (foc s p (with_frame_at m (xl_clear f) g) (st <| s_buf := b |>) w a) tt) ->
  runs (xlio_resave_frame p m) (foc s p g st w a) Q.
Proof.
  intros Hl HQ. destruct (lending_back _ _ _ _ _ Hl) as (f & Hf & Hok & Hs & Hnew & b & Eb & Hl').
  unfold xlio_resave_frame. apply run_bind. eapply runs_on_frame; [exact Hf|reflexivity|]. apply run_bind.
  eapply runs_frame; [apply at_frame|]. apply run_bind, runs_stream, run_bind. eapply runs_lift; [exact Eb|].
  apply runs_upd. by apply HQ.
Qed.
End Ring.

(** ** The turn of a message from the peer *)

Section Turn.
Context {W : Type} `{Uv W} (malloc : Z -> option xframe) (new_frame : io W -> Z -> option (positive * xframe))
  (sent : io W -> bool) (scan_fuel : nat).

Lemma runs_args (s : io W) m x p g st w a Q :
  a !! m = Some x -> Q (foc s p g st w a) x -> runs (args m) (foc s p g st w a) Q.
Proof using Type. intros Hx HQ. unfold args. apply run_bind, runs_gets. by eapply runs_lift. Qed.

Lemma runs_get_ctx (s : io W) p c fq g st w a Q :
  queue p c fq g -> Q (foc s p g st w a) (Some (Zpos p)) ->
  runs (on_ms (fun g => ctx ← xchannel_get_ctx c g; Some (g, ctx))) (foc s p g st w a) Q.
Proof using Type.
  intros [(ch & Hch & Hctx & _) _] HQ. eapply (runs_on_ms _ _ _ g g); [|exact HQ].
  unfold xchannel_get_ctx. rewrite Hch. simpl. by rewrite Hctx.
Qed.

Lemma runs_recv_turn (s : io W) p c u fu x st fq Q :
  io_streams s !! p = Some st -> g_frames (io_ms s) !! u = Some fu -> f_type fu = XPACK_TYPE_MSG ->
  io_args s !! u = Some x -> a_flag x = XMSG_FLAG_RECV -> a_channel x = Some c -> queue p c fq (io_ms s) ->
  readable (s_buf st) ≠ 0 ->
  runs (xlio_recv_frame malloc new_frame scan_fuel u p) (foc s p (io_ms s) st (io_os s) (io_args s))
    (fun s' _ => runs (free_ptr u) s' (fun s' _ => Q s' tt)) ->
  runs (io_turn malloc new_frame sent scan_fuel u) s Q.
Proof using Type.
  intros Hst Hu Hty Hx Hxf Hxc Hq Hread Hrun. rewrite (foc_intro s p st Hst) at 1.
  unfold io_turn. apply run_bind. eapply runs_frame; [exact Hu|].
  apply run_bind. eapply runs_args; [exact Hx|]. rewrite Hxc. apply run_bind. eapply runs_lift; [done|].
  apply run_bind. eapply runs_get_ctx; [exact Hq|]. rewrite Hxf. rewrite decide_True by done.
  unfold turn_recv. apply run_bind. eapply runs_frame; [exact Hu|]. rewrite Hty. rewrite decide_True by done.
  apply run_bind, run_bind, runs_stream. rewrite decide_False by done. apply run_bind, runs_succeeds.
  eapply run_mono; [exact Hrun|]. intros s' [] Hs'. apply runs_ret, run_bind. eapply run_mono; [exact Hs'|].
  intros s2 r HQ. by apply runs_ret.
Qed.

(** The function that a message asks for. *)
Lemma runs_recv_frame (s : io W) p u fu fs api g st w a Q :
  g_frames g !! u = Some fu -> is_message fu fs -> doc_ok fs -> (k_api, VInt api) ∈ fs ->
  (forall n ps, at_field (region_of fu) (__xl_l2b 0) fs n ps ->
    runs (if decide (api = XLIO_STREAM_REQ_LIST) then res_list malloc new_frame scan_fuel p
          else if decide (api = XLIO_STREAM_RES_LIST) then download_list malloc p u ps
          else if decide (api = XLIO_STREAM_DOWNLOAD_LIST) then start_upload malloc p u ps
          else if decide (api = XLIO_STREAM_UPLOAD_LIST) then xlio_recv_file malloc p u
          else mret tt) (foc s p g (st <| s_api := api |>) w a) Q) ->
  runs (xlio_recv_frame malloc new_frame scan_fuel u p) (foc s p g st w a) Q.
Proof using Type.
  intros Hu Hmsg Hdoc Hin Hrun. destruct (message_lies _ _ Hmsg) as [Hlies Hlen].
  unfold xlio_recv_frame. apply run_bind, runs_region. rewrite Hu. apply run_bind.
  eapply runs_parser; [exact Hlies|lia|]. intros ps0 P0. apply run_bind.
  eapply runs_find_int; [done|repeat constructor; lia|exact P0|exact Hin|]. intros ps1 n1 P1.
  apply run_bind, runs_upd. by apply (Hrun n1).
Qed.
End Turn.

(** ** Messages that are sent *)

Definition bears (g : messenger) (m : positive) (fs : list (list Z * value)) : Prop :=
  exists f, g_frames g !! m = Some f /\ content f = enc_fields fs /\ f_type f = XPACK_TYPE_MSG.

Lemma carries_other g u f new ms : u ∉ new -> Forall2 (bears g) new ms -> Forall2 (bears (with_frame_at u f g)) new ms.
Proof.
  intros Hu H. induction H as [|m fs new ms (x & Hx & H1) _ IH]; [constructor|]. apply not_elem_of_cons in Hu as [Hne Hu].
  constructor; [|by apply IH]. exists x. by rewrite at_other_frame.
Qed.

(** The messages that the stream has put into the queue of its channel. *)
Definition sends {W} (p c : positive) (s s' : io W) (ms : list (list (list Z * value))) : Prop :=
  exists fq new, queue p c fq (io_ms s) /\ queue p c (fq ++ new) (io_ms s') /\ Forall2 (bears (io_ms s')) new ms.
