(* ===== verification/Upload.v ===== *)
(** * Sending files

    [xlio_send_file] cuts the files of the list into parts and sends them, a
    frame full at a time: it refines [Transfer.emit].  The frame never grows,
    every call makes progress, and the thread of the store goes on until
    everything is sent ([upload_completes]). *)

From stdpp Require Import gmap.
From S2P Require Import Prelude Bytes Xline Lines Channel Messenger Files Xlio XlioRun Transfer.

#[local] Open Scope Z_scope.
#[local] Arguments __xl_n2b _ _ : simpl never.
#[local] Arguments enc _ : simpl never.

(** ** Sizes *)

Lemma enc_fields_perm fs fs' : fs ≡ₚ fs' -> length (enc_fields fs) = length (enc_fields fs').
Proof.
  assert (Hc : forall f fs, length (enc_fields (f :: fs)) = (length (enc_field f) + length (enc_fields fs))%nat)
    by (intros f l; apply length_app).
  induction 1 as [|f fs fs' _ IH|f f' fs|fs fs' fs'' _ IH _ IH']; [done|..|congruence]; rewrite !Hc; lia.
Qed.

Lemma str_length t : length (enc (VStr t)) = (9 + length t)%nat.
Proof. apply enc_body_length. Qed.
Lemma bin_length t : length (enc (VBin t)) = (9 + length t)%nat.
Proof. apply enc_body_length. Qed.
Lemma int_length i : length (enc (VInt i)) = 9%nat.
Proof. done. Qed.
Lemma uint_length i : length (enc (VUint i)) = 9%nat.
Proof. done. Qed.

Lemma list_length vs : length (enc (VList vs)) = (9 + length (concat (map enc vs)))%nat.
Proof. apply enc_body_length. Qed.

Ltac enc_lengths :=
  repeat first
    [ rewrite enc_obj | rewrite enc_body_length | rewrite length_app | rewrite str_length | rewrite bin_length
    | rewrite int_length | rewrite uint_length ].

Lemma field_length k v : length (enc_key k ++ enc v) = (length k + 2 + length (enc v))%nat.
Proof. rewrite length_app. pose proof (enc_key_length k). lia. Qed.

Lemma enc_fields_cons k v fs : enc_fields ((k, v) :: fs) = (enc_key k ++ enc v) ++ enc_fields fs.
Proof. done. Qed.

Lemma enc_fields_nil : enc_fields [] = [].
Proof. done. Qed.

Lemma entry_line_length e v : is_entry e v -> length (enc v) = (133 + length (e_path e))%nat.
Proof.
  intros (fs & md5 & -> & Hp & Hl & _). rewrite enc_obj, enc_body_length, (enc_fields_perm _ _ Hp). unfold entry_fields.
  rewrite !enc_fields_cons, enc_fields_nil, !(length_app (_ ++ _)), !field_length, str_length, int_length, uint_length, bin_length, length_app. simpl. lia.
Qed.

(** ** Entries as documents *)

Lemma entry_doc e v : is_entry e v -> entry_ok e -> exists fs, v = VObj fs /\ doc_ok fs
  /\ (k_path, VStr (e_path e ++ [0])) ∈ fs /\ (k_type, VInt 1) ∈ fs /\ (k_size, VUint (e_size e)) ∈ fs.
Proof.
  intros (fs & md5 & -> & Hp & Hl & Hb) (Hc & Hlen & Hs). exists fs. split; [done|]. split; [|by rewrite Hp; set_solver].
  apply (doc_ok_perm (entry_fields e md5)); [done|]. split.
  - assert (is_bytes (e_path e ++ [0])).
    { apply Forall_app. split; [eapply Forall_impl; [exact Hc|]; unfold is_byte; simpl; lia|].
      repeat constructor; unfold is_byte; lia. }
    repeat constructor; simpl; try lia; try done.
  - apply (bool_decide_unpack (NoDup [k_path; k_type; k_size; k_md5])). by vm_compute.
Qed.

Lemma key_bytes_k k : k ∈ [k_path; k_type; k_size; k_pos; k_data; k_api; k_list; k_md5; k_id] -> key_bytes k.
Proof. intros H1. repeat (apply elem_of_cons in H1 as [->|H1]; [repeat constructor; lia|]). by apply elem_of_nil in H1. Qed.

(** ** The state of an upload *)

Section Upload.
Context {W : Type} `{HP : Posix W}.
Context (malloc : Z -> option xframe).

(** The contents of the files by their names, the path of the stream and the
    length of its last part. *)
Context (cont : list Z -> list Z) (uri : list Z) (nl : nat).

(** Where a file lies: the path itself for a single file, and in the directory
    otherwise. *)
Definition source (e : entry) : list Z :=
  if decide (length (e_path e) = nl) then uri else join uri (drop (S nl) (e_path e)).

Definition named (e : entry) : Prop := (nl <= length (e_path e))%nat.

Definition uri_ok (st : xlio_stream) : Prop :=
  read_key (s_uri st) 0 = Some uri /\ s_uri_len st = Z.of_nat (length uri) /\ s_src_name_len st = Z.of_nat nl.

(** The list that is uploaded: [es] as the elements [vs] at [lb] of the frame [u]. *)
Context (u : positive) (mem : list Z) (lb : Z) (vs : list value) (es : list entry).

Record list_ok : Prop := {
  lo_lies : lies mem lb (concat (map enc vs));
  lo_size : Z.of_nat (length (concat (map enc vs))) < 2 ^ 62;
  lo_entries : Forall2 is_entry es vs;
  lo_files : Forall (file_ok cont) es;
  lo_named : Forall named es;
}.

Definition at_obj (st : xlio_stream) (cur : option entry) : Prop :=
  match cur with
  | None => s_obj st = None
  | Some e => exists o v, s_obj st = Some (u, o) /\ lies mem o (enc v) /\ is_entry e v /\ e ∈ es
  end.

Definition source_open (st : xlio_stream) (w : W) (q : cursor) : Prop :=
  if decide (q_pos q = 0) then s_fd st = -1
  else exists e, q_cur q = Some e /\ 0 <= s_fd st /\ opened w !! s_fd st = Some (mkofile (source e) (q_pos q) false).

Definition sources (w : W) : Prop :=
  healthy w /\ forall e, e ∈ es -> disk w !! source e = Some (cont (e_path e)).

Record uploading (size : Z) (st : xlio_stream) (w : W) (q : cursor) : Prop := mkuploading {
  up_cursor : cursor_ok cont q;
  up_rest : exists k ps, s_upload_parser st = Some (u, ps) /\ at_elem lb vs k ps /\ q_rest q = drop k es;
  up_obj : at_obj st (q_cur q);
  up_fd : source_open st w q;
  up_pos : s_file_pos st = q_pos q;
  up_list : s_list_pos st + left_of q = size;
  up_size : 0 <= s_list_pos st /\ size < 2 ^ 62;
  up_uri : uri_ok st;
  up_disk : sources w;
}.

(** ** Opening and reading a file *)

Lemma source_path_ok st e name : uri_ok st -> file_ok cont e -> named e -> lies mem name (e_path e ++ [0]) ->
  source_path st (Z.of_nat (length (e_path e)) + 1) mem name = Some (source e).
Proof.
  intros (Hu & Hl & Hn) ((Hp & _) & _) Hnm Hlies. unfold source_path, uri_text. rewrite Hu. cbn [mbind option_bind].
  rewrite Hn, Hl. unfold source, named in *. case_decide as Hd; case_decide as Hd'; try lia; [done|].
  replace (Z.of_nat nl + 1) with (Z.of_nat (S nl)) by lia.
  rewrite (text_lies _ _ (drop (S nl) (e_path e))); [|apply lies_drop; [done|lia]|by apply Forall_drop].
  cbn [mbind option_bind]. f_equal. apply take_ge. unfold join. rewrite length_app. simpl. rewrite length_drop. lia.
Qed.

Lemma runs_open_source s p g st w a e q name Q :
  uri_ok st -> file_ok cont e -> named e -> e ∈ es -> lies mem name (e_path e ++ [0]) -> sources w ->
  q_cur q = Some e -> source_open st w q ->
  (forall fd w', 0 <= fd -> opened w' !! fd = Some (mkofile (source e) (q_pos q) false) -> sources w' ->
    Q (foc s p g (st <| s_fd := fd |>) w' a) tt) ->
  runs (open_source p (Z.of_nat (length (e_path e)) + 1) mem name) (foc s p g st w a) Q.
Proof using HP.
  intros Hu Hf Hn He Hl [Hh Hd] Hq Hfd HQ. unfold open_source. apply run_bind, runs_stream. unfold source_open in Hfd.
  case_decide as Hp.
  - rewrite decide_True by done. apply run_bind. eapply runs_lift; [by apply source_path_ok|].
    apply run_bind, runs_gets, run_bind. destruct (open_read w (source e) _ 420 Hh (Hd _ He)) as (w' & fd & E & Hge & _ & Hc).
    apply (runs_lift _ (w', fd)); [by rewrite <- E|]. apply run_bind, runs_modify.
    change (_ <| io_os := w' |>) with (foc s p g st w' a). apply run_bind, runs_upd, runs_xcheck; [lia|].
    apply HQ; [done| |].
    + rewrite (ch_opened _ _ _ _ Hc), lookup_insert_eq, Hp. done.
    + split; [apply Hc|]. intros x Hx. rewrite (ch_disk _ _ _ _ Hc). by apply Hd.
  - destruct Hfd as (e' & He' & Hge & Ho). rewrite decide_False by lia. apply runs_ret.
    replace st with (st <| s_fd := s_fd st |>) by (by destruct st). apply HQ; [done| |by split].
    rewrite Ho. congruence.
Qed.

Lemma usable_eq key f : frame_ok f -> Z.of_nat (length key) + 11 < f_size f - f_wpos f ->
  xl_usable f key = f_size f - f_wpos f - (Z.of_nat (length key) + 11).
Proof.
  intros (Hw & _ & Hm) Hr. unfold xl_usable, XLINE_SIZE. rewrite u64_small by lia.
  rewrite decide_True by lia. rewrite u64_small; lia.
Qed.

Lemma usable_none key f : frame_ok f -> f_size f - f_wpos f <= Z.of_nat (length key) + 11 -> xl_usable f key = 0.
Proof. intros (Hw & _ & Hm) Hr. unfold xl_usable, XLINE_SIZE. rewrite u64_small by lia. by rewrite decide_False by lia. Qed.

(** The next part of a file, as large as the frame allows. *)
Lemma runs_read_part s p m g f st w a e q Q :
  g_frames g !! m = Some f -> frame_ok f -> f_size f = MSGBUF_SIZE -> 15 < f_size f - f_wpos f ->
  cursor_ok cont q -> q_cur q = Some e -> e_size e > 0 -> e ∈ es ->
  s_file_size st = e_size e -> s_file_pos st = q_pos q -> 0 <= s_list_pos st < 2 ^ 62 ->
  opened w !! s_fd st = Some (mkofile (source e) (q_pos q) false) -> sources w ->
  (forall n f' w', 0 < n -> q_pos q + n <= e_size e ->
    (n < e_size e - q_pos q -> n = f_size f - f_wpos f - 15) ->
    wrote f f' (enc_key k_data ++ enc (VBin (t_data (piece cont e (q_pos q) n)))) ->
    opened w' !! s_fd st = Some (mkofile (source e) (q_pos q + n) false) -> sources w' ->
    Q (foc s p (with_frame_at m f' g)
         (st <| s_file_pos := q_pos q + n |> <| s_list_pos := s_list_pos st + n |>) w' a)
      (bool_decide (q_pos q + n < e_size e))) ->
  runs (read_part malloc p m) (foc s p g st w a) Q.
Proof using HP.
  intros Hm Hf Hsz Hroom [_ Hc] Hq Hgt He Hfs Hfp Hlp Ho [Hh Hd] HQ. rewrite Hq in Hc. destruct Hc as (Hfile & Hpos & Hlt).
  pose proof Hfile as ((_ & _ & Hes) & Hlen & Hbytes). pose proof Hf as (Hw & _ & _). unfold MSGBUF_SIZE in Hsz.
  unfold read_part. apply run_bind, runs_stream, run_bind. eapply runs_frame; [exact Hm|].
  rewrite Hfs, Hfp, (u64_small (e_size e - q_pos q)) by lia. rewrite (usable_eq k_data) by (try done; simpl; lia). cbn [length k_data].
  set (n := if decide (e_size e - q_pos q < _) then _ else _).
  assert (Hn : 0 < n <= e_size e - q_pos q /\ n <= f_size f - f_wpos f - 15 /\
               (n < e_size e - q_pos q -> n = f_size f - f_wpos f - 15)).
  { unfold n. simpl. case_decide; lia. }
  clearbody n. destruct Hn as (Hn1 & Hn2 & Hn3).
  destruct (add_bin_none_fits malloc k_data n f) as (f1 & junk & E1 & Hj & W1); [done|simpl; lia|lia|simpl; lia|].
  apply run_bind. eapply runs_on_frame; [exact Hm|exact E1|]. apply run_bind.
  destruct (read_file w (s_fd st) (source e) (q_pos q) _ n Hh Ho (Hd _ He)) as (w' & Er & Hch); [done|lia|].
  set (bs := take (Z.to_nat n) (drop (Z.to_nat (q_pos q)) (cont (e_path e)))) in *.
  assert (Hbl : Z.of_nat (length bs) = n) by (unfold bs; rewrite length_take, length_drop; lia).
  rewrite Hbl in Er, Hch. eapply runs_os.
  { unfold __fs_file_read. rewrite u32_small by lia. exact Er. }
  apply run_bind. rewrite app_assoc in W1. destruct (fill_back f f1 (enc_key k_data ++ __xl_n2b n XLINE_TYPE_BIN) junk bs) as (b & Eb & W2); [done|lia|].
  rewrite Hbl in Eb. eapply runs_on_frame; [apply at_frame|rewrite Eb; reflexivity|]. rewrite with_frame_at_twice.
  apply run_bind, runs_xcheck; [lia|]. apply run_bind, runs_upd, runs_ret. cbn -[u64 enc].
  rewrite Hfp, !u64_small by lia. apply (HQ n); [lia..|done| |by rewrite (ch_opened _ _ _ _ Hch), lookup_insert_eq|].
  - unfold enc, enc_body. simpl t_data. fold bs. rewrite Hbl. by rewrite app_assoc.
  - split; [apply Hch|]. intros x Hx. rewrite (ch_disk _ _ _ _ Hch). by apply Hd.
Qed.

(** ** One object of the list *)

Lemma part_value_length c : (length (enc (part_value c)) <= 84 + length (e_path (t_entry c)) + length (t_data c))%nat.
Proof.
  unfold part_value. rewrite enc_obj, enc_body_length. rewrite enc_fields_app, length_app.
  rewrite !enc_fields_cons, enc_fields_nil, !(length_app (_ ++ _)), !field_length, str_length, int_length, !uint_length, length_app.
  case_decide; [rewrite enc_fields_cons, enc_fields_nil, length_app, field_length, bin_length|rewrite enc_fields_nil]; simpl; lia.
Qed.

(** The fields of a part before its data. *)
Lemma runs_part_head s p m g f st w a e :
  g_frames g !! m = Some f -> frame_ok f -> f_size f = MSGBUF_SIZE ->
  148 + Z.of_nat (length (e_path e)) <= f_size f - f_wpos f ->
  exists f1 junk f5, length junk = 9%nat /\ wrote f f1 ([] ++ junk) /\ f_wpos f1 - 9 < XEOF
    /\ wrote f1 f5 (enc_fields [(k_path, VStr (e_path e ++ [0])); (k_type, VInt 1);
                                (k_size, VUint (s_file_size st)); (k_pos, VUint (s_file_pos st))])
    /\ f_wpos f5 = f_wpos f + 69 + Z.of_nat (length (e_path e))
    /\ forall (k : Z -> M W bool) Q,
         runs (k (f_wpos f1 - 9)) (foc s p (with_frame_at m f5 g) st w a) Q ->
         runs (pos ← add m (xl_obj_begin malloc None);
               add m (xl_add_word malloc k_path (e_path e));;
               add m (xl_add_int malloc k_type 1);;
               add m (xl_add_uint malloc k_size (s_file_size st));;
               add m (xl_add_uint malloc k_pos (s_file_pos st));;
               k pos) (foc s p g st w a) Q.
Proof.
  intros Hm Hf Hsz Hroom. unfold MSGBUF_SIZE in Hsz. pose proof Hf as (Hw & _ & _).
  destruct (begin_fits malloc None f) as (f1 & junk & E1 & Hj & W1); [done|done|simpl; lia|].
  pose proof (wrote_wpos _ _ _ W1) as Hw1. pose proof (wrote_size _ _ _ W1) as Hs1. simpl in Hw1. rewrite Hj in Hw1.
  destruct (add_word_fits malloc k_path (e_path e) f1) as (f2 & E2 & W2 & _); [by eapply wrote_ok|simpl; lia| |].
  { rewrite field_length, str_length, length_app. simpl. lia. }
  pose proof (wrote_wpos _ _ _ W2) as Hw2. pose proof (wrote_size _ _ _ W2) as Hs2.
  rewrite field_length, str_length, length_app in Hw2. simpl in Hw2.
  destruct (add_int_fits malloc k_type 1 f2) as (f3 & E3 & W3 & _); [by eapply wrote_ok|simpl; lia|rewrite field_length, int_length; simpl; lia|].
  pose proof (wrote_wpos _ _ _ W3) as Hw3. pose proof (wrote_size _ _ _ W3) as Hs3. rewrite field_length, int_length in Hw3. simpl in Hw3.
  destruct (add_uint_fits malloc k_size (s_file_size st) f3) as (f4 & E4 & W4 & _); [by eapply wrote_ok|simpl; lia|rewrite field_length, uint_length; simpl; lia|].
  pose proof (wrote_wpos _ _ _ W4) as Hw4. pose proof (wrote_size _ _ _ W4) as Hs4. rewrite field_length, uint_length in Hw4. simpl in Hw4.
  destruct (add_uint_fits malloc k_pos (s_file_pos st) f4) as (f5 & E5 & W5 & _); [by eapply wrote_ok|simpl; lia|rewrite field_length, uint_length; simpl; lia|].
  pose proof (wrote_wpos _ _ _ W5) as Hw5. rewrite field_length, uint_length in Hw5. simpl in Hw5.
  exists f1, junk, f5. split; [done|]. split; [done|]. split; [unfold XEOF; lia|]. split.
  { rewrite !enc_fields_cons, enc_fields_nil, app_nil_r.
    eapply wrote_app; [exact W2|]. eapply wrote_app; [exact W3|]. eapply wrote_app; [exact W4|exact W5]. }
  split; [lia|]. intros k Q Hk.
  apply run_bind. eapply runs_add; [exact Hm|exact E1|unfold XEOF; lia|].
  apply run_bind. eapply runs_add; [apply at_frame|exact E2|by eapply wrote_not_eof|]. rewrite with_frame_at_twice.
  apply run_bind. eapply runs_add; [apply at_frame|exact E3|by eapply wrote_not_eof|]. rewrite with_frame_at_twice.
  apply run_bind. eapply runs_add; [apply at_frame|exact E4|by eapply wrote_not_eof|]. rewrite with_frame_at_twice.
  apply run_bind. eapply runs_add; [apply at_frame|exact E5|by eapply wrote_not_eof|]. rewrite with_frame_at_twice. exact Hk.
Qed.

(** What sending does not touch. *)
Definition kept (st st' : xlio_stream) : Prop :=
  s_flag st' = s_flag st /\ s_upload_list st' = s_upload_list st /\ s_recv_frame st' = s_recv_frame st
  /\ s_list_size st' = s_list_size st /\ s_channel st' = s_channel st /\ s_buf st' = s_buf st
  /\ s_scanner st' = s_scanner st /\ s_item st' = s_item st /\ s_prev st' = s_prev st /\ s_next st' = s_next st.

Lemma kept_refl st : kept st st.
Proof. done. Qed.

Lemma kept_fields_trans st st' st'' : kept st st' -> kept st' st'' -> kept st st''.
Proof. unfold kept. intuition congruence. Qed.

Lemma runs_end_file s p g st w a f Q :
  healthy w -> opened w !! s_fd st = Some f ->
  (forall w', changes w w' (disk w) (delete (s_fd st) (opened w)) ->
    Q (foc s p g (st <| s_fd := -1 |> <| s_file_pos := 0 |> <| s_file_size := 0 |>) w' a) tt) ->
  runs (end_file p) (foc s p g st w a) Q.
Proof using HP.
  intros Hh Ho HQ. unfold end_file. apply run_bind, runs_stream, run_bind.
  destruct (close_file w (s_fd st) f Hh Ho) as (w' & r & E & Hc). eapply runs_os; [exact E|]. by apply runs_upd, HQ.
Qed.

Lemma sources_changes w w' o : sources w -> changes w w' (disk w) o -> sources w'.
Proof. intros [Hh Hd] Hc. split; [apply Hc|]. intros e He. rewrite (ch_disk _ _ _ _ Hc). by apply Hd. Qed.

(** What one part does to stream, files and cursor. *)
Definition part_sent (size : Z) (f : xframe) (st : xlio_stream) (q : cursor) (e : entry)
    (stop : bool) (f' : xframe) (st' : xlio_stream) (w' : W) : Prop :=
  exists n q', wrote f f' (enc (part_value (piece cont e (q_pos q) n))) /\ emit cont q [piece cont e (q_pos q) n] q'
    /\ uploading size st' w' q' /\ kept st st' /\ (stop = false -> q_cur q' = None) /\ q_rest q' = q_rest q.

Lemma part_done s p m g f f1 f5 junk st w a e q size f7 w7 n Q :
  frame_ok f -> length junk = 9%nat -> wrote f f1 ([] ++ junk) ->
  uploading size st w q -> q_cur q = Some e -> s_file_size st = e_size e ->
  wrote f1 f5 (enc_fields [(k_path, VStr (e_path e ++ [0])); (k_type, VInt 1);
                           (k_size, VUint (e_size e)); (k_pos, VUint (q_pos q))]) ->
  n = e_size e - q_pos q ->
  wrote f5 f7 (enc_fields (if decide (e_size e > 0) then [(k_data, VBin (t_data (piece cont e (q_pos q) n)))] else [])) ->
  forall fd, opened w7 !! fd = Some (mkofile (source e) (q_pos q + n) false) -> sources w7 ->
  (forall stop f' st' w', part_sent size f st q e stop f' st' w' -> Q (foc s p (with_frame_at m f' g) st' w' a) stop) ->
  let st7 := st <| s_fd := fd |> <| s_file_pos := q_pos q + n |> <| s_list_pos := s_list_pos st + n |> in
  runs (s ← stream p;
        (if decide (s_file_pos s = s_file_size s) then end_file p;; upd p (fun s => s <| s_obj := None |>) else mret tt);;
        on_frame m (xl_obj_end (f_wpos f1 - 9));;
        mret false) (foc s p (with_frame_at m f7 g) st7 w7 a) Q.
Proof using HP.
  intros Hf Hj W1 Hup Hq Hfs W5 Hn W7 fd Ho Hsrc HQ st7. destruct Hup as [Hcur Hrest Hobj Hfd Hpos Hlist Hsize Huri Hdisk].
  pose proof Hcur as [Hr Hc]. rewrite Hq in Hc. destruct Hc as (Hfile & Hp0 & Hlt). pose proof Hfile as ((_ & _ & Hes) & _).
  apply run_bind, runs_stream. unfold st7. cbn [s_file_pos s_file_size]. cbn. rewrite Hfs, decide_True by lia.
  apply run_bind, run_bind. pose proof Hsrc as [Hh _]. eapply runs_end_file; [done|exact Ho|]. intros w' Hch.
  apply runs_upd, run_bind. cbn.
  pose proof (wrote_app _ _ _ _ _ W5 W7) as W8. rewrite <- enc_fields_app in W8.
  destruct (obj_end_fits f f1 f7 junk [] _ Hf W1 Hj W8) as (f' & E & W').
  eapply runs_on_frame; [apply at_frame|exact E|]. rewrite with_frame_at_twice. apply runs_ret, HQ.
  assert (He : emit cont q [piece cont e (q_pos q) n] (mkcur None 0 (q_rest q))).
  { destruct q as [cur pos rest]. simpl in *. subst cur n. apply emit_end, emit_nil. }
  exists n, (mkcur None 0 (q_rest q)). split; [exact W'|]. split; [exact He|]. split; [|split_and!; done].
  constructor; cbn.
  - by eapply emit_ok.
  - exact Hrest.
  - done.
  - done.
  - done.
  - unfold left_of in Hlist |- *. rewrite Hq in Hlist. cbn [q_cur q_rest]. lia.
  - unfold left_of in Hlist. rewrite Hq in Hlist. pose proof (total_size_nonneg _ _ Hr). lia.
  - exact Huri.
  - by eapply sources_changes.
Qed.

Lemma runs_send_part s p m g f st w a e q size name Q :
  g_frames g !! m = Some f -> frame_ok f -> f_size f = MSGBUF_SIZE ->
  148 + Z.of_nat (length (e_path e)) <= f_size f - f_wpos f ->
  uploading size st w q -> q_cur q = Some e -> e ∈ es -> named e -> s_file_size st = e_size e ->
  lies mem name (e_path e ++ [0]) ->
  (forall stop f' st' w', part_sent size f st q e stop f' st' w' -> Q (foc s p (with_frame_at m f' g) st' w' a) stop) ->
  runs (send_part malloc p m (Z.of_nat (length (e_path e)) + 1) mem name 1) (foc s p g st w a) Q.
Proof using HP.
  intros Hm Hf Hsz Hroom Hup Hq He Hn Hfs Hl HQ. pose proof Hup as [Hcur Hrest Hobj Hfd Hpos Hlist Hsize Huri Hdisk].
  pose proof Hcur as [Hr Hc]. rewrite Hq in Hc. destruct Hc as (Hfile & Hp0 & Hlt). pose proof Hfile as ((Hchars & _ & Hes) & Hlen & _).
  destruct (runs_part_head s p m g f st w a e Hm Hf Hsz Hroom) as (f1 & junk & f5 & Hj & W1 & Heof & W5 & Hw5 & Hhead).
  unfold send_part. apply run_bind, runs_stream.
  match goal with |- runs ?t _ _ => enough (H5 : runs (pos ← add m (xl_obj_begin malloc None);
     (word ← lift (read_key mem name);
      add m (xl_add_word malloc k_path word);; add m (xl_add_int malloc k_type 1);;
      add m (xl_add_uint malloc k_size (s_file_size st));; add m (xl_add_uint malloc k_pos (s_file_pos st));;
      open_source p (Z.of_nat (length (e_path e)) + 1) mem name;;
      more ← (if decide (s_file_size st > 0) then read_part malloc p m else mret false);
      if more : bool then on_frame m (xl_obj_end pos);; mret true
      else
        s ← stream p;
        (if decide (s_file_pos s = s_file_size s) then end_file p;; upd p (fun s => s <| s_obj := None |>) else mret tt);;
        on_frame m (xl_obj_end pos);; mret false)) (foc s p g st w a) Q) by exact H5 end.
  assert (Hskip : forall (k : Z -> list Z -> M W bool),
    runs (pos ← add m (xl_obj_begin malloc None); k pos (e_path e)) (foc s p g st w a) Q ->
    runs (pos ← add m (xl_obj_begin malloc None); word ← lift (read_key mem name); k pos word) (foc s p g st w a) Q).
  { intros k (s' & b & E & HQ'). exists s', b. split; [|done]. rewrite <- E. unfold mbind, M_bind.
    destruct (add m (xl_obj_begin malloc None) (foc s p g st w a)) as [[s1 [pos|]]|]; [|done..].
    unfold lift. by rewrite (text_lies _ _ _ Hl Hchars). }
  apply Hskip. apply Hhead. apply run_bind. eapply runs_open_source; [done..|].
  intros fd w1 Hge Ho Hsrc. apply run_bind. rewrite Hfs. apply runs_decide; intros Hgt.
  - pose proof (wrote_size _ _ _ W5) as Hs5. pose proof (wrote_size _ _ _ W1) as Hs1.
    pose proof (left_nonneg _ _ Hcur) as Hleft.
    eapply (runs_read_part _ _ _ _ _ (st <| s_fd := fd |>)); [apply at_frame|by eapply wrote_ok|congruence|lia|done|exact Hq|done..|cbn; lia|exact Ho|done|].
    intros n f7 w7 Hn0 Hle Hmax W7 Ho7 Hsrc7. rewrite with_frame_at_twice.
    assert (W7' : wrote f5 f7 (enc_fields [(k_data, VBin (t_data (piece cont e (q_pos q) n)))]))
      by (rewrite enc_fields_cons, enc_fields_nil, app_nil_r; exact W7).
    rewrite Hfs, Hpos in W5. case_bool_decide as Hmore.
    + (* there is more of the file *)
      apply run_bind. pose proof (wrote_app _ _ _ _ _ W5 W7') as W8. rewrite <- enc_fields_app in W8.
      destruct (obj_end_fits f f1 f7 junk [] _ Hf W1 Hj W8) as (f' & E & W').
      eapply runs_on_frame; [apply at_frame|exact E|]. rewrite with_frame_at_twice. apply runs_ret, HQ.
      assert (Hemit : emit cont q [piece cont e (q_pos q) n] (mkcur (Some e) (q_pos q + n) (q_rest q))).
      { destruct q as [cur pos rest]. simpl in *. subst cur. apply emit_part; [done|done|apply emit_nil]. }
      exists n, (mkcur (Some e) (q_pos q + n) (q_rest q)). split.
      { unfold part_value. cbn [t_entry piece]. rewrite decide_True by done. exact W'. }
      split; [exact Hemit|]. split; [|split_and!; done].
      assert (Hobj' := Hobj). rewrite Hq in Hobj'.
      constructor; cbn; [by eapply emit_ok|exact Hrest|exact Hobj'| |done| | |exact Huri|done].
      * unfold source_open. cbn [q_pos q_cur]. rewrite decide_False by lia. by exists e.
      * unfold left_of in Hlist |- *. rewrite Hq in Hlist. cbn [q_cur q_rest q_pos]. lia.
      * lia.
    + eapply (part_done s p m g f f1 f5 junk st w a e q size f7 w7 n); [done..|lia| |exact Ho7|done|exact HQ].
      by rewrite decide_True.
  - assert (Hz : e_size e = 0) by lia. rewrite Hfs, Hpos in W5. apply runs_ret.
    assert (Hst : st <| s_fd := fd |> = st <| s_fd := fd |> <| s_file_pos := q_pos q + 0 |> <| s_list_pos := s_list_pos st + 0 |>)
      by (destruct st; cbn in *; f_equal; lia).
    rewrite Hst. apply (part_done s p m g f f1 f5 junk st w a e q size f5 w1 0); try done; [lia| |].
    + rewrite decide_False by lia. apply wrote_nil. by eapply wrote_ok.
    + rewrite Ho. repeat f_equal. lia.
Qed.

(** The object at which the upload stands: nothing to send, no room for it, or a
    part of it sent. *)
Lemma runs_send_obj s p m g f st w a q size Q :
  g_frames g !! m = Some f -> frame_ok f -> f_size f = MSGBUF_SIZE -> m ≠ u ->
  (exists fu, g_frames g !! u = Some fu /\ region_of fu = mem) -> list_ok -> uploading size st w q ->
  (q_cur q = None -> Q (foc s p g st w a) false) ->
  (forall e, q_cur q = Some e -> f_size f - f_wpos f < 148 + Z.of_nat (length (e_path e)) -> Q (foc s p g st w a) true) ->
  (forall e stop f' st' w', q_cur q = Some e -> part_sent size f st q e stop f' st' w' ->
    Q (foc s p (with_frame_at m f' g) st' w' a) stop) ->
  runs (send_obj malloc p m) (foc s p g st w a) Q.
Proof using HP.
  intros Hm Hf Hsz Hne (fu & Hu & Hmem) Hlist Hup Hnone Hfull Hpart. unfold send_obj. apply run_bind, runs_stream.
  pose proof (up_obj _ _ _ _ Hup) as Hobj. destruct (q_cur q) as [e|] eqn:Hq; simpl in Hobj.
  2:{ rewrite Hobj. by apply runs_ret, Hnone. }
  destruct Hobj as (o & v & Ho & Hlies & Hv & He). rewrite Ho. apply run_bind, runs_region. rewrite Hu, Hmem.
  pose proof (lo_files Hlist) as Hfiles. rewrite Forall_forall in Hfiles. pose proof (Hfiles _ He) as Hfile.
  pose proof (lo_named Hlist) as Hnamed. rewrite Forall_forall in Hnamed. pose proof (Hnamed _ He) as Hn.
  pose proof Hfile as ((Hchars & Hpl & Hes) & _). pose proof (entry_line_length _ _ Hv) as Hlen.
  apply run_bind. eapply runs_lift; [apply enc_size; [exact Hlies|lia]|]. apply run_bind. eapply runs_frame; [exact Hm|].
  pose proof Hf as (Hw & _ & Hmax). apply runs_decide; intros Hroom.
  - apply runs_ret, (Hfull e); [done|]. destruct (decide (14 < f_size f - f_wpos f)) as [H14|H14]; [|lia].
    rewrite (usable_eq k_pos) in Hroom by (try done; simpl; lia). simpl in Hroom. lia.
  - assert (Hr : 148 + Z.of_nat (length (e_path e)) <= f_size f - f_wpos f).
    { destruct (decide (14 < f_size f - f_wpos f)) as [H14|H14].
      - rewrite (usable_eq k_pos) in Hroom by (try done; simpl; lia). simpl in Hroom. lia.
      - rewrite (usable_none k_pos) in Hroom by (try done; simpl; lia). lia. }
    destruct (entry_doc _ _ Hv) as (fs & -> & Hdoc & H1 & H2 & H3); [apply Hfile|].
    rewrite enc_obj, enc_body_length in Hlen. apply run_bind. eapply runs_parser; [exact Hlies|lia|]. intros ps Hps.
    apply run_bind. eapply runs_find; [done|apply key_bytes_k; set_solver|exact Hps|exact H1|]. intros ps1 n1 name Hps1 Hname.
    apply run_bind. eapply runs_find_int; [done|apply key_bytes_k; set_solver|exact Hps1|exact H2|]. intros ps2 n2 Hps2.
    apply run_bind. eapply runs_find_uint; [done|apply key_bytes_k; set_solver|exact Hps2|exact H3|]. intros ps3 n3 Hps3.
    apply run_bind, runs_upd, run_bind. destruct (str_body _ _ _ Hname) as [Hb Hl]; [lia|].
    eapply runs_lift; [exact Hb|]. rewrite decide_True by done.
    eapply (runs_send_part _ _ _ _ f); [exact Hm|done|done|done| |exact Hq|done|done|done|exact Hl|].
    + destruct Hup. by constructor.
    + intros stop f' st' w' Hs. apply (Hpart e); [done|]. exact Hs.
Qed.

Lemma runs_next_obj s p g st w a q size Q :
  (exists fu, g_frames g !! u = Some fu /\ region_of fu = mem) -> list_ok -> uploading size st w q -> q_cur q = None ->
  (forall st', q_rest q = [] -> uploading size st' w q -> kept st st' -> Q (foc s p g st' w a) None) ->
  (forall e rest st' o, q_rest q = e :: rest -> uploading size st' w (mkcur (Some e) 0 rest) -> kept st st' ->
    Q (foc s p g st' w a) (Some o)) ->
  runs (next_obj p) (foc s p g st w a) Q.
Proof using Type.
  intros (fu & Hu & Hmem) Hlist Hup Hq Hend Hnext. destruct Hup as [Hcur (k & ps & Hps & Hel & Hrest) Hobj Hfd Hpos Hl Hsize Huri Hdisk].
  pose proof Hcur as [Hr Hc]. rewrite Hq in Hc, Hobj. simpl in Hobj. pose proof (lo_entries Hlist) as Hent.
  pose proof (Forall2_length _ _ _ Hent) as Hlen. pose proof Hel as (Hp1 & Hp2 & Hp3 & Hk).
  assert (Hel' : at_elem lb vs k (ps <| p_mem := mem |>)) by exact Hel.
  unfold next_obj. apply run_bind, runs_stream. rewrite Hps. apply run_bind, runs_region. rewrite Hu, Hmem. apply run_bind.
  destruct (q_rest q) as [|e rest] eqn:Hqr.
  - assert (k = length vs) as ->.
    { symmetry in Hrest. apply (f_equal length) in Hrest. rewrite length_drop in Hrest. simpl in Hrest. lia. }
    eapply runs_lift; [by eapply no_next_elem|]. cbn. apply run_bind, runs_upd, runs_ret. apply Hend; [done| |done].
    constructor; cbn; [done| |by rewrite Hq|exact Hfd|done|done|done|done|done]. eexists _, _. split; [reflexivity|]. split; [exact Hel'|].
    by rewrite Hqr.
  - assert (He : es !! k = Some e) by (rewrite <- (Nat.add_0_r k), <- lookup_drop, <- Hrest; done).
    destruct (Forall2_lookup_l _ _ _ _ _ Hent He) as (v & Hv & Hev).
    destruct (next_elem mem lb vs k _ v Hel') as (ps' & o & E & Hel2 & _ & Ho & _); [done|apply Hlist..|done|].
    eapply runs_lift; [exact E|]. cbn. apply run_bind, runs_upd, runs_ret.
    apply (Hnext e rest); [done| |done]. constructor; cbn.
    + pose proof (Forall_inv Hr). pose proof (Forall_inv_tail Hr). split; [done|]. simpl. split; [done|]. lia.
    + eexists _, _. split; [reflexivity|]. split; [exact Hel2|]. rewrite (drop_S _ _ _ He) in Hrest. by injection Hrest.
    + exists o, v. split; [done|]. split; [done|]. split; [done|]. by eapply list_elem_of_lookup_2.
    + unfold source_open in *. cbn. rewrite Hc in Hfd. exact Hfd.
    + by rewrite Hpos.
    + unfold left_of in Hl |- *. rewrite Hq, Hqr in Hl. cbn [q_cur q_rest q_pos total fold_right] in *. unfold total in *. lia.
    + done.
    + done.
    + done.
Qed.

(** The whole frame: as many parts as fit, and at least one. *)
Lemma runs_send_loop s p m fu size :
  region_of fu = mem -> m ≠ u -> list_ok ->
  forall fuel g f st w a q Q, (length (q_rest q) < fuel)%nat ->
  g_frames g !! u = Some fu -> g_frames g !! m = Some f -> frame_ok f -> f_size f = MSGBUF_SIZE -> uploading size st w q ->
  (forall cs f' st' w' q', wrote f f' (concat (map enc (map part_value cs))) -> emit cont q cs q' ->
    uploading size st' w' q' -> kept st st' ->
    (4244 <= f_size f - f_wpos f -> pending q ≠ [] -> cs ≠ []) ->
    Q (foc s p (with_frame_at m f' g) st' w' a) tt) ->
  runs (send_loop malloc fuel p m) (foc s p g st w a) Q.
Proof using HP.
  intros Hmem Hne Hlist. induction fuel as [|fuel IH]; intros g f st w a q Q Hfuel Hu Hm Hf Hsz Hup HQ; [lia|].
  assert (Hus : forall f', exists fu, g_frames (with_frame_at m f' g) !! u = Some fu /\ region_of fu = mem).
  { intros f'. exists fu. by rewrite at_other_frame. }
  cbn [send_loop]. apply run_bind. eapply (runs_send_obj _ _ _ _ f); [done..|by exists fu|done|exact Hup| | |].
  - intros Hq. apply run_bind. eapply runs_next_obj; [by exists fu|done|exact Hup|done| |].
    + intros st' Hr Hup' Hk. apply runs_ret. rewrite <- (with_frame_at_id m f g) by done.
      apply (HQ [] f st' w q); [by apply wrote_nil|apply emit_nil|done|done|].
      intros _ Hp. unfold pending in Hp. by rewrite Hq, Hr in Hp.
    + intros e rest st' o Hr Hup' Hk. eapply (IH g f); [|done..|exact Hup'|].
      { rewrite Hr in Hfuel. simpl in *. lia. }
      intros cs f' st2 w2 q2 W2 He2 Hup2 Hk2 Hprog. apply (HQ cs f' st2 w2 q2); [done| |done|by eapply kept_fields_trans|].
      * destruct q as [cur pos rest']. simpl in *. subst. pose proof (up_cursor _ _ _ _ Hup) as [_ Hc]. simpl in Hc. subst pos.
        by apply emit_next.
      * intros Hroom _. apply Hprog; [done|]. done.
  - intros e Hq Hroom. apply runs_ret. rewrite <- (with_frame_at_id m f g) by done.
    apply (HQ [] f st w q); [by apply wrote_nil|apply emit_nil|done|done|].
    intros Hbig. pose proof (up_cursor _ _ _ _ Hup) as [_ Hc]. rewrite Hq in Hc. destruct Hc as (((_ & Hlen & _) & _) & _). lia.
  - intros e stop f' st' w' Hq (n & q' & W' & He & Hup' & Hk & Hstop & Hlen). destruct stop.
    + apply runs_ret, (HQ [piece cont e (q_pos q) n] f' st' w' q'); [|done..].
      cbn [map concat]. by rewrite app_nil_r.
    + apply run_bind. eapply runs_next_obj; [apply Hus|done|exact Hup'|by apply Hstop| |].
      * intros st2 Hr2 Hup2 Hk2. apply runs_ret.
        apply (HQ [piece cont e (q_pos q) n] f' st2 w' q'); [cbn [map concat]; by rewrite app_nil_r|done|done|by eapply kept_fields_trans|done].
      * intros e2 rest2 st2 o Hr2 Hup2 Hk2. eapply (IH _ f'); [| |apply at_frame| | |exact Hup2|].
        -- rewrite <- Hlen, Hr2 in Hfuel. simpl in *. lia.
        -- by rewrite at_other_frame.
        -- by eapply wrote_ok.
        -- rewrite (wrote_size _ _ _ W'). done.
        -- intros cs f2 st3 w3 q3 W3 He3 Hup3 Hk3 _. rewrite with_frame_at_twice.
           apply (HQ (piece cont e (q_pos q) n :: cs) f2 st3 w3 q3); [|..|done].
           ++ cbn [map concat]. eapply wrote_app; [exact W'|exact W3].
           ++ change (piece cont e (q_pos q) n :: cs) with ([piece cont e (q_pos q) n] ++ cs).
              eapply emit_app; [exact He|]. pose proof (up_cursor _ _ _ _ Hup') as [_ Hc].
              destruct q' as [cur pos rest]. simpl in Hstop, Hr2, Hc. rewrite (Hstop eq_refl) in Hc |- *. subst pos rest. by apply emit_next.
           ++ done.
           ++ by eapply kept_fields_trans; [|eapply kept_fields_trans].
Qed.

(** ** A message *)

Definition upload_fields (id : Z) (cs : list part) : list (list Z * value) :=
  [(k_api, VInt XLIO_STREAM_UPLOAD_LIST); (k_id, VInt id); (k_list, VList (map part_value cs))].

(** The message behind the last part. *)
Definition last_fields : list (list Z * value) := [(k_api, VInt XLIO_STREAM_UPLOAD_LIST); (k_list, VList [])].

(** [f'] is [f] with the document [fs] in it, ready to be sent. *)
Definition filled (f f' : xframe) (fs : list (list Z * value)) : Prop :=
  wrote f f' (enc_fields fs) /\ f_line f' = __xl_n2b (f_wpos f') XLINE_TYPE_OBJ.

Lemma runs_xlio_send_file s p m c fl fu g f st w a q size Q :
  g_frames g !! u = Some fu -> region_of fu = mem -> m ≠ u -> list_ok -> uploading size st w q ->
  g_frames g !! m = Some f -> frame_ok f -> f_size f = MSGBUF_SIZE -> f_wpos f = 0 ->
  s_channel st = Some c -> queue p c fl g -> (length fl < 8)%nat -> pending q ≠ [] ->
  (forall cs f' st' w' q' g', filled f f' (upload_fields (f_id f) cs) -> emit cont q cs q' -> cs ≠ [] ->
    uploading size st' w' q' -> kept st st' ->
    is_sent p c fl m (f' <| f_type := XPACK_TYPE_MSG |>) g g' -> Q (foc s p g' st' w' a) tt) ->
  runs (xlio_send_file malloc p m) (foc s p g st w a) Q.
Proof using HP.
  intros Hu Hmem Hne Hlist Hup Hm Hf Hsz Hw0 Hch Hqueue Hfl Hpend HQ. unfold MSGBUF_SIZE in Hsz.
  destruct (add_int_fits malloc k_api XLIO_STREAM_UPLOAD_LIST f) as (f1 & E1 & W1 & _);
    [done|simpl; lia|rewrite field_length, int_length; simpl; lia|].
  pose proof (wrote_wpos _ _ _ W1) as Hw1. pose proof (wrote_size _ _ _ W1) as Hs1. rewrite field_length, int_length in Hw1. simpl in Hw1.
  assert (Hid : f_id f1 = f_id f) by apply W1.
  destruct (add_int_fits malloc k_id (f_id f) f1) as (f2 & E2 & W2 & _);
    [by eapply wrote_ok|simpl; lia|rewrite field_length, int_length; simpl; lia|].
  pose proof (wrote_wpos _ _ _ W2) as Hw2. pose proof (wrote_size _ _ _ W2) as Hs2. rewrite field_length, int_length in Hw2. simpl in Hw2.
  destruct (begin_fits malloc (Some k_list) f2) as (f3 & junk & E3 & Hj & W3);
    [by eapply wrote_ok|intros ? [= <-]; simpl; lia|simpl; lia|].
  pose proof (wrote_wpos _ _ _ W3) as Hw3. pose proof (wrote_size _ _ _ W3) as Hs3. rewrite length_app, Hj in Hw3. simpl in Hw3.
  unfold xlio_send_file. apply run_bind. eapply runs_add; [exact Hm|exact E1|by eapply wrote_not_eof|].
  apply run_bind. eapply runs_frame; [apply at_frame|]. rewrite Hid.
  apply run_bind. eapply runs_add; [apply at_frame|exact E2|by eapply wrote_not_eof|]. rewrite with_frame_at_twice.
  apply run_bind. eapply runs_add; [apply at_frame|exact E3|unfold XEOF; lia|]. rewrite with_frame_at_twice.
  apply run_bind, runs_stream, run_bind.
  pose proof (up_rest _ _ _ _ Hup) as (k & ps & Hps & (Hp1 & Hp2 & Hp3 & Hk) & Hrest).
  pose proof (Forall2_length _ _ _ (lo_entries Hlist)) as Hlen.
  eapply (runs_send_loop s p m fu size); [done|done|done| | |apply at_frame|by eapply wrote_ok|unfold MSGBUF_SIZE; lia|exact Hup|].
  { unfold objects_left. rewrite Hps, Hrest, length_drop. rewrite <- (take_drop k vs) in Hp2.
    rewrite map_app, concat_app, length_app in Hp2. pose proof (elems_at_least (drop k vs)). rewrite length_drop in *. lia. }
  { by rewrite at_other_frame. }
  intros cs f4 st' w' q' W4 He Hup' Hk' Hprog. rewrite with_frame_at_twice.
  destruct (list_end_fits f2 f3 f4 junk (enc_key k_list) _ (wrote_ok _ _ _ W2) W3 Hj W4) as (f5 & E5 & W5 & Hl5).
  apply run_bind. eapply runs_on_frame; [apply at_frame|exact E5|]. rewrite with_frame_at_twice.
  eapply (runs_send _ _ _ _ f5 c fl); [apply at_frame|by destruct Hk' as (_ & _ & _ & _ & -> & _)|by apply queue_frame|done|].
  intros g' [Hq' Hf']. apply (HQ cs f5 st' w' q' g'); [|done| |done|done|].
  - split; [|done]. unfold upload_fields. rewrite !enc_fields_cons, enc_fields_nil, app_nil_r.
    eapply wrote_app; [exact W1|]. by eapply wrote_app.
  - apply Hprog; [lia|done].
  - split; [exact Hq'|]. rewrite Hf'. unfold with_frame_at. simpl. by rewrite insert_insert_eq.
Qed.
End Upload.
