(* ===== verification/StoreDemo.v ===== *)
(** * A small file store

    One stream with its four frames, all of them at hand, a channel without
    messages, a message that has just arrived, and the files in memory.  The
    witnesses of the properties of the file store start from it. *)

From stdpp Require Import gmap.
From S2P Require Import Prelude Bytes Xline Lines Channel Avl Messenger Files Xlio XlioRun Lending.

#[local] Open Scope Z_scope.
#[local] Arguments enc _ : simpl never.

(** Each an unused frame of a stream, and a message with the document [fs]. *)
Definition demo_frame (bs : list Z) : xframe :=
  mkframe 1 XPACK_TYPE_MSG 0 0 0 0 (Z.of_nat (length bs)) MSGBUF_SIZE (__xl_n2b (Z.of_nat (length bs)) XLINE_TYPE_OBJ)
    (bs ++ replicate (Z.to_nat MSGBUF_SIZE - length bs) 0).

Definition demo_own : list positive := [1; 2; 3; 4]%positive.

(** The message is the frame 5, the stream 7 and the channel 9. *)
Definition demo_messenger (fs : list (list Z * value)) : messenger :=
  mkmessenger (mkmsger 0 0 0) 0 (mkaddr 0 0 0) (mktree (mkavl ∅ None) 0) 0 None None
    {[ 9%positive := mkchan (xchannel_create 0 XPACK_SERIAL_RANGE) (mkaddr 0 0 0) (mkaddr 0 0 0) 0 None None (Some 7) ]}
    (<[5%positive := demo_frame (enc_fields fs)]> (list_to_map ((fun m => (m, demo_frame [])) <$> demo_own))) 0 [].

Definition demo_ring : ring (option positive) := mkring 4 0 0 4 (Some <$> demo_own).

Definition demo_stream (flag : Z) (uri : list Z) (name : nat) : xlio_stream :=
  mkstream flag 0 (-1) None None None None 0 0 0 0 (uri ++ replicate (URI_SIZE - length uri) 0) (Z.of_nat (length uri))
    (Z.of_nat name) (Z.of_nat (length uri) - Z.of_nat name) (Some 9%positive) None None Null Null demo_ring.

Definition demo_store (st : xlio_stream) (fs : list (list Z * value)) (files : gmap (list Z) (list Z)) : io MemFs.memfs :=
  mkio (demo_messenger fs) {[ 5%positive := mkargs XMSG_FLAG_RECV None None None (Some 9%positive) ]} (MemFs.mkmem files ∅ 3)
    {[ 7%positive := st ]} (At 7) (At 7) [] [].

Lemma demo_frame_ok bs : (length bs <= Z.to_nat MSGBUF_SIZE)%nat -> frame_ok (demo_frame bs).
Proof.
  intros H. unfold demo_frame, frame_ok. cbn [f_wpos f_size f_buf]. rewrite length_app, length_replicate.
  unfold MSGBUF_SIZE in *. lia.
Qed.

Lemma demo_message fs : (length (enc_fields fs) <= Z.to_nat MSGBUF_SIZE)%nat -> is_message (demo_frame (enc_fields fs)) fs.
Proof.
  intros H. split; [by apply demo_frame_ok|]. split; [done|]. unfold content, demo_frame. cbn [f_wpos f_buf].
  rewrite Nat2Z.id. apply take_app_length.
Qed.

Lemma demo_queue fs : queue 7 9 [] (demo_messenger fs).
Proof.
  split; [|simpl; lia]. eexists. split; [apply lookup_singleton_eq|]. cbn. split; [done|]. split; [done|].
  split; [rewrite length_replicate; unfold XMSG_BUF_RANGE; lia|]. split; [lia|]. split; [done|]. intros i m Hi. by rewrite lookup_nil in Hi.
Qed.

Lemma demo_lending fs : lending demo_own [] demo_ring (g_frames (demo_messenger fs)).
Proof.
  exists 0%nat, 0%nat. split; cbn [r_range r_buf r_rpos r_wpos demo_ring]; try done.
  - split; [done|]. apply (bool_decide_unpack (NoDup demo_own)). by vm_compute.
  - simpl. lia.
  - intros t Ht. exists (Pos.of_nat (S t)), (demo_frame []).
    assert (Hf : fresh_frame (demo_frame [])) by (split; [apply demo_frame_ok; simpl; lia|done]).
    destruct t as [|[|[|[|t]]]]; [..|lia]; (split; [done|split; [done|split; [|done]]]); cbn [demo_messenger g_frames];
      by rewrite lookup_insert_ne by done.
Qed.
