(* ===== verification/UploadRun.v ===== *)
(** * An upload from beginning to end

    A message of the downloader starts the upload; from then on every frame that
    the messenger gives back carries the next parts.  Whatever the messenger
    does in between, as long as it gives the frames back in order, all files
    are sent, and then a message that says so. *)

From stdpp Require Import gmap.
From S2P Require Import Prelude Bytes Xline Lines Channel Messenger Files Xlio XlioRun Transfer Lending Upload StoreDemo.

#[local] Open Scope Z_scope.
#[local] Arguments __xl_n2b _ _ : simpl never.
#[local] Arguments enc _ : simpl never.

(** ** Messages and turns *)

(** Meanwhile the messenger has reported [m] and perhaps others of the frames
    that are away; it has changed no other frame, and no content. *)
Record reported {W} (p c u : positive) (own : list positive) (m : positive) (fl : list positive) (s s1 : io W) : Prop := {
  re_streams : io_streams s1 = io_streams s;
  re_os : io_os s1 = io_os s;
  re_args : exists x, io_args s1 !! m = Some x /\ a_flag x = XMSG_FLAG_BACK /\ a_channel x = Some c;
  re_queue : exists fq, queue p c fq (io_ms s1) /\ (length fq <= length fl)%nat;
  re_frames : untouched own (m :: fl) (g_frames (io_ms s)) (g_frames (io_ms s1));
  re_list : forall f, g_frames (io_ms s) !! u = Some f -> g_frames (io_ms s1) !! u = Some f;
}.

Lemma fresh_content f f' bs : f_wpos f = 0 -> wrote f f' bs ->
  content (xmsg_fixed (f' <| f_type := XPACK_TYPE_MSG |>)) = bs.
Proof.
  intros Hw ((_ & Hc & _) & _). rewrite <- (app_nil_l bs). replace (@nil Z) with (content f) by (unfold content; by rewrite Hw).
  rewrite <- Hc. unfold xmsg_fixed. by case_decide.
Qed.

Lemma sent_type f : f_type (xmsg_fixed (f <| f_type := XPACK_TYPE_MSG |>)) = XPACK_TYPE_MSG.
Proof. unfold xmsg_fixed. by case_decide. Qed.

Lemma kept_buf_trans st st1 st2 : kept (st <| s_buf := s_buf st1 |>) st1 -> kept (st1 <| s_buf := s_buf st2 |>) st2 ->
  kept (st <| s_buf := s_buf st2 |>) st2.
Proof. unfold kept. cbn. intuition congruence. Qed.

(** What was a frame without content can be lent as a message. *)
Lemma sent_frame f f' i bs : fresh_frame f -> wrote (f <| f_id := i |>) f' bs ->
  let x := xmsg_fixed (f' <| f_type := XPACK_TYPE_MSG |>) in
  frame_ok x /\ f_size x = MSGBUF_SIZE /\ f_type x = XPACK_TYPE_MSG /\ f_id x = i.
Proof.
  intros (Hok & Hsz & _) W. pose proof (wrote_ok _ _ _ W) as Hok'. pose proof W as (_ & (_ & Hid & _) & Hs).
  change (f_size f' = f_size f) in Hs. change (f_id f' = i) in Hid.
  unfold xmsg_fixed. case_decide; simpl; repeat split; try done; try congruence; apply Hok'.
Qed.

Section UploadRun.
Context {W : Type} `{HP : Posix W}.
Context (malloc : Z -> option xframe) (new_frame : io W -> Z -> option (positive * xframe)) (sent : io W -> bool)
  (scan_fuel : nat).
Context (cont : list Z -> list Z) (uri : list Z) (nl : nat).
Context (u : positive) (mem : list Z) (lb : Z) (vs : list value) (es : list entry).
Context (p c : positive) (own : list positive).

Abbreviation turn := (io_turn malloc new_frame sent scan_fuel).
Abbreviation uploading := (uploading cont uri nl u mem lb vs es).

(** The turns of the thread until [P] holds, with frames coming back one by
    one; in between the messenger does what it likes. *)
#[warnings="-register-all"]
Inductive goes_on (P : list (list (list Z * value)) -> io W -> Prop) :
    list (list (list Z * value)) -> list positive -> io W -> Prop :=
| go_done ms fl s : P ms s -> goes_on P ms fl s
| go_turn ms m fl s :
    (forall s1, reported p c u own m fl s s1 ->
       exists s2 ms2 fl2, turn m s1 = Some (s2, Some tt) /\ sends p c s1 s2 ms2 /\ goes_on P (ms ++ ms2) fl2 s2) ->
    goes_on P ms (m :: fl) s.

Lemma goes_on_mono (P P' : list (list (list Z * value)) -> io W -> Prop) (HPP : forall ms s, P ms s -> P' ms s) :
  forall ms fl s, goes_on P ms fl s -> goes_on P' ms fl s.
Proof using Type.
  fix IH 4. intros ms fl s [ms' fl' s' Hdone|ms' m fl' s' Hgo].
  - by apply go_done, HPP.
  - apply go_turn. intros s1 Hs1. destruct (Hgo s1 Hs1) as (s2 & ms2 & fl2 & E & Hs & Hg).
    exists s2, ms2, fl2. split; [exact E|]. split; [exact Hs|]. by apply IH.
Qed.

(** What holds of stream and messenger between the turns. *)
Record busy (fl : list positive) (st : xlio_stream) (g : messenger) : Prop := {
  bu_flag : s_flag st = IOSTREAM_TYPE_UPLOAD;
  bu_channel : s_channel st = Some c;
  bu_recv : s_recv_frame st = None;
  bu_list : s_upload_list st = Some u;
  bu_own : u ∉ own;
  bu_frame : exists fu, g_frames g !! u = Some fu /\ region_of fu = mem /\ f_ref fu = 1;
  bu_lending : lending own fl (s_buf st) (g_frames g);
}.

Definition between (size : Z) (fl : list positive) (q : cursor) (s : io W) : Prop :=
  exists st, io_streams s !! p = Some st /\ s_list_size st = size /\ busy fl st (io_ms s) /\ uploading size st (io_os s) q.

Lemma slot_bound fl b frames i : lending own fl b frames -> 0 <= slot i b < 4.
Proof using Type.
  intros (T & B & [_ (Hr & _) _ _ _ _]). unfold slot. rewrite Hr. change (4 - 1) with (Z.ones 2).
  rewrite Z.land_ones by lia. apply Z.mod_pos_bound. lia.
Qed.

Lemma uploading_buf size st w q b : uploading size st w q -> uploading size (st <| s_buf := b |>) w q.
Proof using Type. intros []. by constructor. Qed.

(** A frame is taken, filled and sent. *)
Lemma runs_send_more s fu size fq fl g st w a q Q :
  g_frames g !! u = Some fu -> region_of fu = mem -> list_ok cont nl mem lb vs es -> uploading size st w q ->
  s_channel st = Some c -> u ∉ own -> lending own fl (s_buf st) (g_frames g) -> (length fl < 4)%nat ->
  queue p c fq g -> (length fq <= length fl)%nat -> 0 < left_of q ->
  (forall m f id cs st' w' q' g', m ∉ fl -> m ∈ own -> emit cont q cs q' -> cs ≠ [] -> uploading size st' w' q' ->
    kept (st <| s_buf := s_buf st' |>) st' -> lending own (fl ++ [m]) (s_buf st') (g_frames g') ->
    queue p c (fq ++ [m]) g' -> g_frames g' = <[m := f]> (g_frames g) ->
    content f = enc_fields (upload_fields id cs) -> 0 <= id < 4 -> f_type f = XPACK_TYPE_MSG ->
    Q (foc s p g' st' w' a) tt) ->
  runs (with_frame p (fun m => xlio_send_file malloc p m)) (foc s p g st w a) Q.
Proof using HP.
  intros Hu Hmem Hlist Hup Hch Hnu Hlend Hfl Hq Hfq Hleft HQ. eapply runs_with_frame; [done|done|].
  intros m f b Hnew Hin Hf (Hok & Hsz & Hw) Hput. pose proof (slot_bound _ _ _ (r_rpos (s_buf st)) Hlend) as Hslot.
  set (id := slot (r_rpos (s_buf st)) (s_buf st)) in *.
  assert (Hne : m ≠ u) by (intros ->; done).
  eapply (runs_xlio_send_file malloc cont uri nl u mem lb vs es _ _ m c fq fu _ (f <| f_id := id |>)).
  - by rewrite at_other_frame.
  - done.
  - done.
  - exact Hlist.
  - by apply uploading_buf.
  - apply at_frame.
  - done.
  - done.
  - done.
  - exact Hch.
  - by apply queue_frame.
  - lia.
  - intros Hp. unfold pending in Hp. apply app_nil in Hp as [H1 H2]. unfold left_of in Hleft. rewrite H2 in Hleft.
    destruct (q_cur q); [done|]. simpl in Hleft. lia.
  - intros cs f' st' w' q' g' [W' Hl'] He Hcs Hup' Hk [Hq' Hg'].
    assert (Hfr : g_frames g' = <[m := xmsg_fixed (f' <| f_type := XPACK_TYPE_MSG |>)]> (g_frames g)).
    { rewrite Hg'. unfold with_frame_at. simpl. apply insert_insert_eq. }
    destruct (sent_frame f f' id _ (conj Hok (conj Hsz Hw)) W') as (X1 & X2 & X3 & X4).
    assert (Hbuf : s_buf st' = b) by (destruct Hk as (_ & _ & _ & _ & _ & -> & _); done).
    apply (HQ m (xmsg_fixed (f' <| f_type := XPACK_TYPE_MSG |>)) id cs st' w' q' g'); try done.
    + rewrite Hbuf. exact Hk.
    + rewrite Hfr, Hbuf. by apply Hput.
    + apply (fresh_content (f <| f_id := id |>)); [done|exact W'].
Qed.

(** The stream when everything has been sent. *)
Definition idle (st : xlio_stream) : Prop := s_upload_list st = None /\ s_list_pos st = 0 /\ s_list_size st = 0.

(** An empty list under [api] in a frame without content. *)
Lemma runs_send_empty (s : io W) m api fq f g st w a Q :
  g_frames g !! m = Some f -> fresh_frame f -> s_channel st = Some c -> queue p c fq g -> (length fq < 8)%nat ->
  (forall f' g', wrote f f' (enc_fields [(k_api, VInt api); (k_list, VList [])]) ->
    is_sent p c fq m (f' <| f_type := XPACK_TYPE_MSG |>) g g' -> Q (foc s p g' st w a) tt) ->
  runs (send_empty malloc p m api) (foc s p g st w a) Q.
Proof using Type.
  intros Hm (Hf & Hsz & Hw) Hch Hq Hl HQ. unfold MSGBUF_SIZE in Hsz.
  destruct (add_int_fits malloc k_api api f) as (f1 & E1 & W1 & _);
    [done|simpl; lia|rewrite field_length, int_length; simpl; lia|].
  pose proof (wrote_wpos _ _ _ W1) as Hw1. pose proof (wrote_size _ _ _ W1) as Hs1. rewrite field_length, int_length in Hw1. simpl in Hw1.
  destruct (begin_fits malloc (Some k_list) f1) as (f2 & junk & E2 & Hj & W2);
    [by eapply wrote_ok|intros ? [= <-]; simpl; lia|simpl; lia|].
  pose proof (wrote_wpos _ _ _ W2) as Hw2. rewrite length_app, Hj in Hw2. simpl in Hw2.
  destruct (list_end_fits f1 f2 f2 junk (enc_key k_list) [] (wrote_ok _ _ _ W1) W2 Hj (wrote_nil _ (wrote_ok _ _ _ W2)))
    as (f3 & E3 & W3 & _).
  unfold send_empty. apply run_bind. eapply runs_add; [exact Hm|exact E1|by eapply wrote_not_eof|].
  apply run_bind. eapply runs_on_frame; [apply at_frame|exact E2|]. rewrite with_frame_at_twice.
  apply run_bind. eapply runs_add; [apply at_frame|exact E3|unfold XEOF; lia|]. rewrite with_frame_at_twice.
  eapply (runs_send _ _ _ _ f3 c fq); [apply at_frame|done|by apply queue_frame|done|].
  intros g' [Hq' Hg']. apply (HQ f3 g').
  - rewrite !enc_fields_cons, enc_fields_nil, app_nil_r. by eapply wrote_app.
  - split; [done|]. rewrite Hg'. unfold with_frame_at. simpl. by rewrite insert_insert_eq.
Qed.

(** The last message; the list is given up. *)
Lemma runs_finish (s : io W) fu fq fl g st w a Q :
  g_frames g !! u = Some fu -> f_ref fu = 1 -> s_upload_list st = Some u -> s_channel st = Some c -> u ∉ own ->
  lending own fl (s_buf st) (g_frames g) -> (length fl < 4)%nat -> queue p c fq g -> (length fq <= length fl)%nat ->
  (forall m f st' g', idle st' -> g_frames g' = delete u (<[m := f]> (g_frames g)) -> m ≠ u ->
    queue p c (fq ++ [m]) g' -> content f = enc_fields last_fields -> f_type f = XPACK_TYPE_MSG ->
    Q (foc s p g' st' w a) tt) ->
  runs (with_frame p (fun m =>
          send_empty malloc p m XLIO_STREAM_UPLOAD_LIST;;
          free_upload_list p;;
          upd p (fun s => s <| s_list_pos := 0 |> <| s_list_size := 0 |>))) (foc s p g st w a) Q.
Proof using Type.
  intros Hu Hr Hlist Hch Hnu Hlend Hfl Hq Hfq HQ. eapply runs_with_frame; [done|done|].
  intros m f b Hnew Hin Hf (Hok & Hsz & Hw) _. assert (Hne : m ≠ u) by (intros ->; done). apply run_bind.
  eapply (runs_send_empty _ _ _ fq); [apply at_frame|done|exact Hch|by apply queue_frame|lia|].
  intros f' g' W' [Hq' Hg']. apply run_bind. unfold free_upload_list. apply run_bind, runs_stream. cbn. rewrite Hlist.
  assert (Hg2 : g_frames g' = <[m := xmsg_fixed (f' <| f_type := XPACK_TYPE_MSG |>)]> (g_frames g)).
  { rewrite Hg'. unfold with_frame_at. simpl. apply insert_insert_eq. }
  apply run_bind. eapply runs_free_last; [rewrite Hg2, lookup_insert_ne; done|done|]. apply runs_upd, runs_upd.
  eapply (HQ m); [done| |done| | |].
  - cbn. by rewrite Hg2.
  - by apply queue_frames.
  - eapply fresh_content; [|exact W']. done.
  - apply sent_type.
Qed.

(** The turn is over once the frame that came back, which may have been sent
    again, has no other type. *)
Lemma turn_ends (s : io W) g g' f f' m m' st w a (alive : bool) Q :
  g_frames g' !! m = (<[m' := f']> (g_frames (with_frame_at m (xl_clear f) g))) !! m -> f_type f = XPACK_TYPE_MSG ->
  f_type f' = XPACK_TYPE_MSG -> Q (foc s p g' st w a) tt ->
  runs (frame m ≫= fun f0 => if decide (f_type f0 = XPACK_TYPE_RES)
                             then xlio_stream_free sent (if alive then Some p else None) else mret tt)
    (foc s p g' st w a) Q.
Proof using Type.
  intros Hg Hf Hf' HQ. apply run_bind. destruct (decide (m' = m)) as [->|Hne].
  - rewrite lookup_insert_eq in Hg. eapply runs_frame; [exact Hg|]. rewrite Hf'. rewrite decide_False by done. by apply runs_ret.
  - rewrite lookup_insert_ne, at_frame in Hg by done. eapply runs_frame; [exact Hg|].
    change (f_type (xl_clear f)) with (f_type f). rewrite Hf. rewrite decide_False by done. by apply runs_ret.
Qed.

(** One turn with a frame that comes back. *)
Lemma back_turn s st m fl fq q size x :
  list_ok cont nl mem lb vs es -> io_streams s !! p = Some st -> s_list_size st = size -> busy (m :: fl) st (io_ms s) ->
  uploading size st (io_os s) q ->
  io_args s !! m = Some x -> a_flag x = XMSG_FLAG_BACK -> a_channel x = Some c ->
  queue p c fq (io_ms s) -> (length fq <= length fl)%nat ->
  runs (turn m) s (fun s' _ =>
    (exists id cs q' fl', emit cont q cs q' /\ cs ≠ [] /\ 0 < left_of q /\ 0 <= id < 4 /\ fl' ≠ []
       /\ between size fl' q' s' /\ sends p c s s' [upload_fields id cs])
    \/ (left_of q = 0 /\ (exists st', io_streams s' !! p = Some st' /\ idle st') /\ sends p c s s' [last_fields])).
Proof using HP.
  intros Hlist Hst Hsize [Hflag Hch Hrecv Hul Hnu (fu & Hu & Hmem & Href) Hlend] Hup Hx Hxf Hxc Hq Hfq.
  pose proof (lending_length _ _ _ Hlend) as Hlen. simpl in Hlen.
  assert (Hmu : m ≠ u) by (intros ->; apply Hnu; eapply lending_in; [exact Hlend|by left]).
  rewrite (foc_intro s p st Hst) at 1. set (g := io_ms s) in *.
  destruct (lending_back _ _ _ _ _ Hlend) as (fm & Hfm & _).
  unfold io_turn. apply run_bind. eapply runs_frame; [exact Hfm|]. apply run_bind.
  eapply runs_args; [exact Hx|]. rewrite Hxc. apply run_bind. eapply runs_lift; [done|].
  apply run_bind. eapply runs_get_ctx; [exact Hq|].
  rewrite Hxf. rewrite decide_False by done. rewrite decide_True by done.
  unfold turn_back. apply run_bind. eapply runs_resave; [exact Hlend|]. intros f b Hf Hty Hlend' Hmfl.
  rewrite Hf in Hfm. injection Hfm as <-. simpl in Hlen.
  apply run_bind, runs_stream, run_bind.
  change (s_recv_frame (st <| s_buf := b |>)) with (s_recv_frame st). rewrite Hrecv.
  change (s_flag (st <| s_buf := b |>)) with (s_flag st). rewrite Hflag, decide_True by done. apply run_bind, runs_succeeds.
  assert (Hu1 : g_frames (with_frame_at m (xl_clear f) g) !! u = Some fu) by (by rewrite at_other_frame).
  unfold xlio_upload_list. apply run_bind, runs_stream. 
  change (s_upload_list (st <| s_buf := b |>)) with (s_upload_list st). rewrite Hul.
  pose proof (up_list _ _ _ _ _ _ _ _ _ _ _ _ Hup) as Hleft.
  change (s_list_pos (st <| s_buf := b |>)) with (s_list_pos st). change (s_list_size (st <| s_buf := b |>)) with (s_list_size st).
  pose proof (left_nonneg _ _ (up_cursor _ _ _ _ _ _ _ _ _ _ _ _ Hup)) as Hnn.
  rewrite Hsize. case_decide as Hmore.
  - eapply runs_send_more; [exact Hu1|done|done|by apply uploading_buf|done|done|exact Hlend'|lia|by apply queue_frame|done|lia|].
    intros m' f' id cs st' w' q' g' Hm' Hin He Hcs Hup' Hk Hlend2 Hq2 Hg2 Hc Hid Hty'.
    apply runs_ret. eapply (turn_ends _ g g' f f' m m' _ _ _ true); [by rewrite Hg2|done|done|]. left. exists id, cs, q', (fl ++ [m']).
    split; [done|]. split; [done|]. split; [lia|]. split; [done|]. split; [by destruct fl|].
    destruct Hk as (K1 & K2 & K3 & K4 & K5 & _ & _). split.
    + exists st'. split; [apply lookup_insert_eq|]. split; [by rewrite K4|]. split; [|done]. split; [by rewrite K1|by rewrite K5|by rewrite K3|by rewrite K2|done| |done].
      exists fu. split; [|done]. cbn [foc io_ms]. rewrite Hg2, lookup_insert_ne by (intros ->; done). exact Hu1.
    + exists fq, [m']. split; [done|]. split; [done|]. constructor; [|done]. exists f'. split; [|done]. cbn [foc io_ms]. by rewrite Hg2, lookup_insert_eq.
  - apply run_bind, runs_xcheck; [lia|].
    eapply runs_finish; [exact Hu1|done|done|done|done|exact Hlend'|lia|by apply queue_frame|done|].
    intros m' f' st' g' Hidle Hg2 Hne Hq2 Hc Hty'.
    apply runs_ret. eapply (turn_ends _ g g' f f' m m' _ _ _ true); [by rewrite Hg2, lookup_delete_ne by done|done|done|]. right.
    split; [lia|]. split; [exists st'; split; [apply lookup_insert_eq|done]|].
    exists fq, [m']. split; [done|]. split; [done|]. constructor; [|done]. exists f'. split; [|done]. cbn [foc io_ms].
    by rewrite Hg2, lookup_delete_ne, lookup_insert_eq by done.
Qed.

Definition fields_of (msg : Z * list part) : list (list Z * value) := upload_fields msg.1 msg.2.
Definition msg_ok (msg : Z * list part) : Prop := 0 <= msg.1 < 4 /\ msg.2 ≠ [].

(** The frames that are at hand are sent one after the other. *)
Lemma runs_upload_loop (s : io W) fu size : forall fuel fq fl g st w a q Q,
  g_frames g !! u = Some fu -> region_of fu = mem -> list_ok cont nl mem lb vs es -> uploading size st w q ->
  s_list_size st = size -> s_channel st = Some c -> u ∉ own -> lending own fl (s_buf st) (g_frames g) ->
  queue p c fq g -> (length fq <= length fl)%nat -> (4 <= fuel + length fl)%nat ->
  (forall ms new st' w' q' g', emit cont q (concat ms.*2) q' -> Forall msg_ok ms ->
    Forall2 (bears g') new (map fields_of ms) ->
    queue p c (fq ++ new) g' -> lending own (fl ++ new) (s_buf st') (g_frames g') -> uploading size st' w' q' ->
    kept (st <| s_buf := s_buf st' |>) st' -> g_frames g' !! u = Some fu ->
    (forall x, x ∈ fl -> g_frames g' !! x = g_frames g !! x) ->
    (0 < left_of q -> (length fl < 4)%nat -> ms ≠ []) -> Q (foc s p g' st' w' a) tt) ->
  runs (upload_loop malloc fuel p) (foc s p g st w a) Q.
Proof using HP.
  induction fuel as [|fuel IH]; intros fq fl g st w a q Q Hu Hmem Hlist Hup Hsize Hch Hnu Hlend Hq Hfq Hfuel HQ;
    pose proof (lending_length _ _ _ Hlend) as Hlen; pose proof (lending_readable _ _ _ _ Hlend) as Hread;
    pose proof (up_list _ _ _ _ _ _ _ _ _ _ _ _ Hup) as Hleft; cbn [upload_loop]; apply run_bind, runs_stream.
  all: assert (Hstop : (0 < left_of q -> (4 <= length fl)%nat) -> Q (foc s p g st w a) tt).
  1, 3: intros Hs; apply (HQ [] [] st w q g); rewrite ?app_nil_r; try done; [apply emit_nil|intros H1 H2; specialize (Hs H1); lia].
  - rewrite decide_False by lia. apply runs_ret, Hstop. lia.
  - case_decide as Hc; [|apply runs_ret, Hstop; lia].
    apply run_bind. eapply runs_send_more; [exact Hu|done|done|exact Hup|done|done|exact Hlend|lia|exact Hq|done|lia|].
    intros m f id cs st1 w1 q1 g1 Hm Hin He Hcs Hup1 Hk Hlend1 Hq1 Hg1 Hcont Hid Hty.
    assert (Hmu : m ≠ u) by (intros ->; done). pose proof Hk as (K1 & K2 & K3 & K4 & K5 & _ & _).
    eapply (IH (fq ++ [m]) (fl ++ [m])); [by rewrite Hg1, lookup_insert_ne|done|done|exact Hup1|by rewrite K4|by rewrite K5|done|done|done|
      rewrite !length_app; simpl; lia|rewrite length_app; simpl; lia|].
    intros ms new st2 w2 q2 g2 He2 Hids Hc2 Hq2 Hlend2 Hup2 Hk2 Hu2 Hsame _.
    rewrite <- app_assoc in Hq2, Hlend2. apply (HQ ((id, cs) :: ms) (m :: new) st2 w2 q2 g2); try done.
    + cbn. by eapply emit_app.
    + by constructor.
    + cbn [map]. constructor; [|done]. exists f. split; [|done]. rewrite Hsame by (apply elem_of_app; right; by left).
      by rewrite Hg1, lookup_insert_eq.
    + by eapply kept_buf_trans.
    + intros x Hx. rewrite Hsame by (apply elem_of_app; by left). rewrite Hg1, lookup_insert_ne; [done|]. by intros ->.
Qed.

Lemma between_reported size m fl q s s1 : between size (m :: fl) q s -> reported p c u own m fl s s1 ->
  between size (m :: fl) q s1.
Proof using Type.
  intros (st & Hst & Hsize & [Hflag Hch Hrecv Hul Hnu (fu & Hu & Hr) Hlend] & Hup) [Hs Ho _ _ M1 M2].
  exists st. rewrite Hs, Ho. split; [done|]. split; [done|]. split; [|done]. split; try done.
  - exists fu. split; [by apply M2|done].
  - by eapply lending_untouched.
Qed.

(** Everything has been sent, the last message too. *)
Definition finished (q0 : cursor) (ms : list (list (list Z * value))) (s : io W) : Prop :=
  exists msgs q, ms = map fields_of msgs ++ [last_fields] /\ emit cont q0 (concat msgs.*2) q /\ left_of q = 0
    /\ Forall msg_ok msgs /\ exists st, io_streams s !! p = Some st /\ idle st.

Lemma upload_goes_on size q0 n : list_ok cont nl mem lb vs es -> forall q fl msgs s, (steps_left q <= n)%nat -> fl ≠ [] ->
  between size fl q s -> emit cont q0 (concat msgs.*2) q -> Forall msg_ok msgs ->
  goes_on (finished q0) (map fields_of msgs) fl s.
Proof using HP.
  intros Hlist. induction n as [n IH] using lt_wf_ind; intros q fl msgs s Hn Hfl Hb He Hids.
  destruct fl as [|m fl]; [done|]. apply go_turn. intros s1 Hrep.
  destruct (between_reported _ _ _ _ _ _ Hb Hrep) as (st & Hst & Hsize & Hbusy & Hup).
  destruct Hrep as [_ _ (x & Hx & Hxf & Hxc) (fq & Hq & Hfq) _ _].
  destruct (back_turn s1 st m fl fq q size x) as (s2 & [] & E & Hturn); try done.
  destruct Hturn as [(id & cs & q' & fl' & He' & Hcs & Hleft & Hid & Hfl' & Hb' & Hs)|(Hleft & (st' & Hst' & Hidle) & Hs)].
  - exists s2, [upload_fields id cs], fl'. split; [done|]. split; [done|].
    destruct (emit_parts _ _ _ _ He') as (_ & _ & Hsteps); [apply Hup|].
    assert (0 < length cs)%nat by (destruct cs; [done|simpl; lia]).
    replace (map fields_of msgs ++ _) with (map fields_of (msgs ++ [(id, cs)])) by (by rewrite map_app).
    eapply (IH (steps_left q')); [lia|done|done|done| |].
    + rewrite fmap_app, concat_app. simpl. rewrite app_nil_r. by eapply emit_app.
    + apply Forall_app. split; [done|]. by apply Forall_singleton.
  - exists s2, [last_fields], fl. split; [done|]. split; [done|]. apply go_done. exists msgs, q. split; [done|].
    split; [done|]. split; [done|]. split; [done|]. by exists st'.
Qed.
End UploadRun.

(** ** From the request to the last message *)

Section Complete.
Context {W : Type} `{HP : Posix W}.
Context (malloc : Z -> option xframe) (new_frame : io W -> Z -> option (positive * xframe)) (sent : io W -> bool)
  (scan_fuel : nat).
Context (cont : list Z -> list Z) (uri : list Z) (nl : nat).

Definition request_fields (vs : list value) (es : list entry) : list (list Z * value) :=
  [(k_api, VInt XLIO_STREAM_DOWNLOAD_LIST); (k_size, VUint (total es)); (k_list, VList vs)].

(** An uploader between two lists. *)
Record ready (c : positive) (st : xlio_stream) : Prop := {
  rd_flag : s_flag st = IOSTREAM_TYPE_UPLOAD;
  rd_channel : s_channel st = Some c;
  rd_recv : s_recv_frame st = None;
  rd_list : s_upload_list st = None;
  rd_pos : s_list_pos st = 0;
  rd_obj : s_obj st = None;
  rd_fd : s_fd st = -1;
  rd_file : s_file_pos st = 0;
  rd_uri : uri_ok uri nl st;
}.

(** The peer asks for the files [es], which are there. *)
Record requested (s : io W) (p c u : positive) (es : list entry) (own fl : list positive) : Prop := {
  rq_stream : exists st, io_streams s !! p = Some st /\ ready c st /\ lending own fl (s_buf st) (g_frames (io_ms s));
  rq_room : (length fl < 4)%nat;
  rq_own : u ∉ own;
  rq_queue : exists fq, queue p c fq (io_ms s) /\ (length fq <= length fl)%nat;
  rq_args : exists x, io_args s !! u = Some x /\ a_flag x = XMSG_FLAG_RECV /\ a_channel x = Some c;
  rq_message : exists fu vs, g_frames (io_ms s) !! u = Some fu /\ is_message fu (request_fields vs es)
    /\ f_type fu = XPACK_TYPE_MSG /\ f_ref fu = 1 /\ Forall2 is_entry es vs;
  rq_files : Forall (file_ok cont) es /\ Forall (named nl) es /\ 0 < total es < 2 ^ 62;
  rq_sources : sources cont uri nl es (io_os s);
}.

Lemma request_doc vs es : Forall2 is_entry es vs -> Forall (file_ok cont) es -> 0 < total es < 2 ^ 62 ->
  doc_ok (request_fields vs es).
Proof using Type.
  intros Hes Hfs Ht. split.
  - constructor; [|constructor; [|constructor; [|done]]]; (split; [repeat constructor; simpl; lia|]).
    + cbn. unfold XLIO_STREAM_DOWNLOAD_LIST. lia.
    + cbn. lia.
    + apply value_ok_list. clear Ht. induction Hes as [|e v es vs He _ IH]; [done|]. apply Forall_cons in Hfs as [[Hok _] Hfs].
      constructor; [|by apply IH]. destruct (entry_doc _ _ He Hok) as (fs & -> & [Hf _] & _). by apply value_ok_obj.
  - apply (bool_decide_unpack (NoDup [k_api; k_size; k_list])). by vm_compute.
Qed.

Abbreviation turn := (io_turn malloc new_frame sent scan_fuel).

(** The list starts to travel; the uploader holds the message with it. *)
Lemma runs_start_upload (s : io W) p c u own fl fq fu vs es g st w a ps n Q :
  g_frames g !! u = Some fu -> is_message fu (request_fields vs es) -> f_ref fu = 1 -> Forall2 is_entry es vs ->
  Forall (file_ok cont) es -> Forall (named nl) es -> 0 < total es < 2 ^ 62 -> sources cont uri nl es w ->
  ready c st -> u ∉ own -> lending own fl (s_buf st) (g_frames g) -> (length fl < 4)%nat ->
  queue p c fq g -> (length fq <= length fl)%nat -> at_field (region_of fu) (__xl_l2b 0) (request_fields vs es) n ps ->
  (forall lb msgs new st' w' q' g', list_ok cont nl (region_of fu) lb vs es ->
    emit cont (mkcur None 0 es) (concat msgs.*2) q' -> Forall msg_ok msgs -> msgs ≠ [] ->
    s_flag st' = IOSTREAM_TYPE_UPLOAD -> s_channel st' = Some c -> s_recv_frame st' = None -> s_upload_list st' = Some u ->
    s_list_size st' = total es -> g_frames g' !! u = Some (fu <| f_ref := 2 |>) ->
    Forall2 (bears g') new (map fields_of msgs) -> queue p c (fq ++ new) g' ->
    lending own (fl ++ new) (s_buf st') (g_frames g') ->
    uploading cont uri nl u (region_of fu) lb vs es (total es) st' w' q' -> Q (foc s p g' st' w' a) tt) ->
  runs (start_upload malloc p u ps) (foc s p g st w a) Q.
Proof using HP.
  intros Hu Hmsg Href Hes Hfiles Hnamed Htotal Hsrc [Hflag Hch Hrecv Hul Hpos Hobj Hfd Hfile Huri] Hnu Hlend Hfl Hq Hfq Hps0 HQ.
  pose proof (request_doc vs es Hes Hfiles Htotal) as Hdoc. destruct (message_lies _ _ Hmsg) as [_ Hlen].
  unfold start_upload. apply run_bind, runs_stream, run_bind, runs_xcheck; [cbn; rewrite Hul; by intros H1|].
  apply run_bind, runs_upd, run_bind. eapply runs_find_uint; [done|apply key_bytes_k; by repeat constructor|exact Hps0|right; by left|].
  intros ps2 n2 Hps2. apply run_bind, runs_upd, run_bind.
  eapply runs_find; [done|apply key_bytes_k; by repeat constructor|exact Hps2|right; right; by left|]. intros ps3 n3 o _ Ho.
  apply run_bind, runs_region. rewrite Hu.
  assert (Hvs : Z.of_nat (length (concat (map enc vs))) < 2 ^ 62).
  { unfold request_fields in Hlen. rewrite !enc_fields_cons, !(length_app (_ ++ _)), !field_length in Hlen.
    rewrite list_length in Hlen. lia. }
  destruct (parser_elem _ _ _ Ho Hvs) as (pl & Epl & Hel & Hmem & Hl & Hsz).
  assert (Hpos' : 0 < Z.of_nat (length (concat (map enc vs)))).
  { pose proof (elems_at_least vs) as Hle. rewrite <- (Forall2_length _ _ _ Hes) in Hle. destruct es; [simpl in Htotal; lia|simpl in Hle; lia]. }
  apply run_bind. eapply runs_lift; [exact Hsz|]. rewrite decide_True by lia.
  apply run_bind. eapply runs_on_frame; [exact Hu|reflexivity|]. apply run_bind. eapply runs_lift; [exact Epl|].
  apply run_bind, runs_upd, run_bind, runs_stream.
  assert (Hhold : xl_hold fu = fu <| f_ref := 2 |>) by (unfold xl_hold; by rewrite Href). rewrite Hhold.
  pose proof (lending_readable _ _ _ _ Hlend) as Hread.
  match goal with |- runs _ (foc _ _ _ ?x _ _) _ => set (st1 := x) end.
  assert (Hlist : list_ok cont nl (region_of fu) (__xl_l2b o) vs es) by (by split).
  eapply (runs_upload_loop malloc cont uri nl u (region_of fu) (__xl_l2b o) vs es p c own s (fu <| f_ref := 2 |>) (total es)
    _ fq fl _ st1 w a (mkcur None 0 es)); try done; [apply at_frame| |by apply lending_other|by apply queue_frame| |].
  - split; cbn; try done; [exists 0%nat, pl; split_and!; try done; by rewrite Hmem| |lia].
    rewrite Hpos. unfold left_of. simpl. lia.
  - change (s_buf st1) with (s_buf st). rewrite Hread. lia.
  - intros msgs new st' w' q' g' He Hids Hnew Hq' Hlend' Hup (K1 & K2 & K3 & K4 & K5 & _) Hu' _ Hne.
    cbn in K1, K2, K3, K4, K5. eapply HQ; try done; [|congruence..]. apply Hne; [|done]. unfold left_of. simpl. lia.
Qed.

Lemma start_turn s p c u es own fl : requested s p c u es own fl ->
  runs (turn u) s (fun s' _ => exists mem lb vs msgs q fl', list_ok cont nl mem lb vs es
    /\ emit cont (mkcur None 0 es) (concat msgs.*2) q /\ Forall msg_ok msgs /\ fl' ≠ []
    /\ between cont uri nl u mem lb vs es p c own (total es) fl' q s' /\ sends p c s s' (map fields_of msgs)).
Proof using HP.
  intros [(st & Hst & [Hflag Hch Hrecv Hul Hpos Hobj Hfd Hfile Huri] & Hlend) Hfl Hnu (fq & Hq & Hfq) (x & Hx & Hxf & Hxc)
    (fu & vs & Hu & Hmsg & Hty & Href & Hes) (Hfiles & Hnamed & Htotal) Hsrc].
  pose proof (request_doc vs es Hes Hfiles Htotal) as Hdoc.
  pose proof (lending_readable _ _ _ _ Hlend) as Hread.
  eapply runs_recv_turn; [done..|exact Hq|lia|].
  eapply runs_recv_frame; [exact Hu|exact Hmsg|done|by left|]. intros n1 ps1 Hps1.
  rewrite decide_False by done. rewrite decide_False by done. rewrite decide_True by done.
  eapply runs_start_upload; [exact Hu|done..|exact Hlend|done|exact Hq|done|exact Hps1|].
  intros lb msgs new st' w' q' g' Hlist He Hids Hne F1 F2 F3 F4 F5 Hu' Hnew Hq' Hlend' Hup.
  eapply (runs_free_shared _ _ _ _ 1); [exact Hu'|done|lia|].
  exists (region_of fu), lb, vs, msgs, q', (fl ++ new). split; [done|]. split; [done|]. split; [done|]. split.
  { destruct new; [|by destruct fl]. destruct msgs; [done|]. by apply Forall2_nil_inv_l in Hnew. }
  split.
  - exists st'. split; [apply lookup_insert_eq|]. split; [done|]. split; [|done]. split; try done.
    + eexists. split; [apply at_frame|done].
    + by apply lending_other.
  - exists fq, new. split; [done|]. split; [by apply queue_frame|]. apply carries_other; [|done].
    intros Hin. apply Hnu. eapply lending_in; [exact Hlend'|]. apply elem_of_app. by right.
Qed.

(** C9: an upload comes to its end.  When the peer asks for files that are
    there, the thread of the store answers with messages that carry consecutive
    parts of these files, the first of them in the turn of the request and one
    for every frame that the messenger gives back, whatever else it reports
    meanwhile; no call fails or faults, every turn makes progress, and after
    finitely many frames all bytes are on their way, followed by the empty list
    that ends the upload. *)
Theorem upload_completes s p c u es own fl : requested s p c u es own fl ->
  exists s' ms fl', turn u s = Some (s', Some tt) /\ sends p c s s' ms
    /\ goes_on malloc new_frame sent scan_fuel u p c own (finished cont p (mkcur None 0 es)) ms fl' s'.
Proof using HP.
  intros Hr. destruct (start_turn _ _ _ _ _ _ _ Hr) as (s' & [] & E & mem & lb & vs & msgs & q & fl' & Hlist & He & Hids & Hfl' & Hb & Hs).
  exists s', (map fields_of msgs), fl'. split; [done|]. split; [done|]. eapply upload_goes_on; [exact Hlist|reflexivity|done|exact Hb|done|done].
Qed.
End Complete.

Definition demo_entry : entry := mkentry [97] 3.
Definition demo_uri : list Z := [100; slash; 97].
Definition demo_request : list (list Z * value) := request_fields [VObj (entry_fields demo_entry no_md5)] [demo_entry].
Definition demo_content (_ : list Z) : list Z := [10; 20; 30].

Lemma demo_requested : requested demo_content demo_uri 1
  (demo_store (demo_stream IOSTREAM_TYPE_UPLOAD demo_uri 1) demo_request {[ demo_uri := [10; 20; 30] ]}) 7 9 5 [demo_entry] demo_own [].
Proof.
  assert (Hlen : (length (enc_fields demo_request) <= Z.to_nat MSGBUF_SIZE)%nat).
  { assert (Z.of_nat (length (enc_fields demo_request)) <= 1000) by (by vm_compute). unfold MSGBUF_SIZE. lia. }
  split.
  - exists (demo_stream IOSTREAM_TYPE_UPLOAD demo_uri 1). split; [done|]. split; [by split|apply demo_lending].
  - simpl. lia.
  - apply (bool_decide_unpack (5%positive ∉ demo_own)). by vm_compute.
  - exists []. split; [apply demo_queue|done].
  - by eexists.
  - exists (demo_frame (enc_fields demo_request)), [VObj (entry_fields demo_entry no_md5)]. split; [apply lookup_insert_eq|].
    split; [by apply demo_message|]. split; [done|]. split; [done|]. constructor; [|done]. eexists _, _. split; [done|].
    split; [done|]. split; [done|]. apply Forall_replicate. unfold is_byte. lia.
  - split; [|split; [by repeat constructor|simpl; lia]]. constructor; [|done]. split; [|split; [done|]].
    + split; [by repeat constructor|]. simpl. lia.
    + repeat constructor; unfold is_byte; lia.
  - split; [by split|]. intros e ->%list_elem_of_singleton. apply lookup_singleton_eq.
Qed.

Lemma upload_completes_witness : exists s ms fl,
  io_turn (fun _ => None) (fun _ _ => None) (fun _ => true) 0 5
    (demo_store (demo_stream IOSTREAM_TYPE_UPLOAD demo_uri 1) demo_request {[ demo_uri := [10; 20; 30] ]}) = Some (s, Some tt)
  /\ goes_on (fun _ => None) (fun _ _ => None) (fun _ => true) 0 5 7 9 demo_own
       (finished demo_content 7 (mkcur None 0 [demo_entry])) ms fl s.
Proof.
  destruct (upload_completes (fun _ => None) (fun _ _ => None) (fun _ => true) 0 demo_content demo_uri 1 _ _ _ _ _ _ _ demo_requested)
    as (s & ms & fl & H1 & _ & H2). exists s, ms, fl. split; [exact H1|exact H2].
Defined.
