(* ===== verification/Download.v ===== *)
(** * Taking the files of a peer

    [xlio_recv_file] puts the parts of a message into the files of the
    downloader: it refines [Transfer.apply_part], and the empty list that ends
    an upload makes it ask for the next one. *)

From stdpp Require Import gmap.
From S2P Require Import Prelude Bytes Xline Lines Channel Messenger Files Xlio XlioRun Transfer Lending Upload UploadRun.

#[local] Open Scope Z_scope.
#[local] Arguments __xl_n2b _ _ : simpl never.
#[local] Arguments enc _ : simpl never.

(** ** Parts as documents *)

Definition part_fields (c : part) : list (list Z * value) :=
  [(k_path, VStr (e_path (t_entry c) ++ [0])); (k_type, VInt 1); (k_size, VUint (e_size (t_entry c)));
   (k_pos, VUint (t_pos c))] ++ if decide (e_size (t_entry c) > 0) then [(k_data, VBin (t_data c))] else [].

Lemma part_doc c : part_ok c -> doc_ok (part_fields c).
Proof.
  intros ((Hc & Hlen & Hs) & Hb & Hp & Hsum & _). split.
  - assert (is_bytes (e_path (t_entry c) ++ [0])).
    { apply Forall_app. split; [eapply Forall_impl; [exact Hc|]; unfold is_byte; simpl; lia|].
      repeat constructor; unfold is_byte; lia. }
    apply Forall_app. split; [repeat constructor; simpl; try lia; done|]. case_decide; repeat constructor; simpl; try lia; done.
  - unfold part_fields. rewrite fmap_app. case_decide.
    + apply (bool_decide_unpack (NoDup [k_path; k_type; k_size; k_pos; k_data])). by vm_compute.
    + apply (bool_decide_unpack (NoDup [k_path; k_type; k_size; k_pos])). by vm_compute.
Qed.

Section Download.
Context {W : Type} `{HP : Posix W}.
Context (uri : list Z).

Definition target (name : list Z) : list Z := join uri name.

Lemma target_inj a b : target a = target b -> a = b.
Proof using Type. unfold target, join. intros E%app_inv_head. by injection E. Qed.

Definition dir_ok (st : xlio_stream) : Prop := read_key (s_uri st) 0 = Some uri /\ s_uri_len st = Z.of_nat (length uri).

(** The file that is being received is open behind what has arrived of it. *)
Definition target_open (st : xlio_stream) (w : W) (q : cursor) : Prop :=
  if decide (q_pos q = 0) then s_fd st = -1
  else exists e c, q_cur q = Some e /\ 0 <= s_fd st /\ opened w !! s_fd st = Some (mkofile (target (e_path e)) (q_pos q) false)
    /\ disk w !! target (e_path e) = Some c /\ Z.of_nat (length c) = q_pos q.

Record downloading (es : list entry) (d : gmap (list Z) (list Z)) (st : xlio_stream) (w : W) (q : cursor) : Prop := {
  dn_fd : target_open st w q;
  dn_pos : s_file_pos st = q_pos q;
  dn_list : 0 <= s_list_pos st;
  dn_dir : dir_ok st;
  dn_disk : disk w = d;
  dn_healthy : healthy w;
  dn_place : forall e, e ∈ es -> place w (target (e_path e));
}.

Lemma target_path_ok st e : dir_ok st ->
  target_path st (Z.of_nat (length (e_path e)) + 1) (e_path e) = Some (target (e_path e)).
Proof using Type.
  intros (Hu & Hl). unfold target_path, uri_text. rewrite Hu. cbn [mbind option_bind]. f_equal. rewrite Hl.
  apply take_ge. unfold target, join. rewrite length_app. simpl. lia.
Qed.

(** The file at [e], made or open already, takes the data. *)
Lemma runs_open_target s p g st w a es d e q Q :
  downloading es d st w q -> e ∈ es -> 0 <= q_pos q < 2 ^ 62 -> (q_pos q ≠ 0 -> q_cur q = Some e) ->
  (forall fd w' c, opened w' !! fd = Some (mkofile (target (e_path e)) (q_pos q) false) -> healthy w' ->
    disk w' = (if decide (q_pos q = 0) then <[target (e_path e) := []]> d else d) ->
    disk w' !! target (e_path e) = Some c -> Z.of_nat (length c) = q_pos q -> (q_pos q = 0 -> c = []) ->
    (forall x, x ∈ es -> place w' (target (e_path x))) -> 0 <= fd ->
    Q (foc s p g (st <| s_fd := fd |>) w' a) tt) ->
  runs (open_target p (target (e_path e)) (q_pos q)) (foc s p g st w a) Q.
Proof using HP.
  intros [Hfd Hpos _ _ Hd Hh Hpl] He Hq Hcur HQ. unfold open_target. apply run_bind, runs_stream. unfold target_open in Hfd.
  case_decide as Hp.
  - rewrite (decide_True (P := s_fd st = -1)) by done. unfold open_file.
    destruct (open_create w (target (e_path e)) 420 Hh (Hpl _ He)) as (w' & fd & E & Hge & _ & [Hd' Ho' Hh' Hp']).
    apply run_bind, runs_gets, run_bind. apply (runs_lift _ (w', fd)); [by rewrite <- E|].
    apply run_bind, runs_modify. change (_ <| io_os := w' |>) with (foc s p g st w' a).
    apply run_bind, runs_upd, runs_xcheck; [lia|]. apply (HQ fd w' []); try done.
    + by rewrite Ho', lookup_insert_eq, Hp.
    + by rewrite Hd', Hd.
    + by rewrite Hd', lookup_insert_eq.
    + intros x Hx. by apply Hp', Hpl.
  - destruct Hfd as (e' & c & He' & Hge & Ho & Hdc & Hlen). specialize (Hcur Hp). rewrite He' in Hcur. injection Hcur as <-.
    rewrite (decide_False (P := s_fd st = -1)) by lia. unfold check_tell. apply run_bind, runs_stream, run_bind.
    destruct (tell_file w (s_fd st) _ Hh Ho) as (w' & E & [Hd' Ho' Hh' Hp']). eapply runs_os; [exact E|].
    cbn [o_pos]. apply runs_xcheck; [rewrite u64_small by lia; lia|].
    replace st with (st <| s_fd := s_fd st |>) by (by destruct st). apply (HQ (s_fd st) w' c); try done.
    + cbn. by rewrite Ho'.
    + by rewrite Hd', Hd.
    + by rewrite Hd'.
    + intros x Hx. by apply Hp', Hpl.
Qed.

(** The cursor behind a part. *)
Definition advance (c : part) (rest : list entry) : cursor :=
  if decide (t_pos c + Z.of_nat (length (t_data c)) = e_size (t_entry c)) then mkcur None 0 rest
  else mkcur (Some (t_entry c)) (t_pos c + Z.of_nat (length (t_data c))) rest.

Lemma overwrite_end c bs : overwrite c (Z.of_nat (length c)) bs = c ++ bs.
Proof using Type.
  unfold overwrite. rewrite Nat2Z.id, take_ge, drop_ge by lia. by rewrite app_nil_r.
Qed.

Definition kept_list (st st' : xlio_stream) (n : Z) : Prop :=
  s_list_pos st' = s_list_pos st + n /\ s_list_size st' = s_list_size st /\ s_buf st' = s_buf st
  /\ s_channel st' = s_channel st /\ s_flag st' = s_flag st /\ s_recv_frame st' = s_recv_frame st.

(** The data is written behind what is there. *)
Lemma runs_write_data s p g st w a (es : list entry) d c f0 Q :
  let e := t_entry c in let len := Z.of_nat (length (t_data c)) in
  part_ok c -> len < 2 ^ 31 -> healthy w -> 0 <= s_list_pos st < 2 ^ 62 ->
  opened w !! s_fd st = Some (mkofile (target (e_path e)) (t_pos c) false) ->
  disk w = (if decide (t_pos c = 0) then <[target (e_path e) := []]> d else d) ->
  disk w !! target (e_path e) = Some f0 -> Z.of_nat (length f0) = t_pos c ->
  (forall x, x ∈ es -> place w (target (e_path x))) -> s_file_pos st = t_pos c ->
  (forall w', healthy w' -> (forall x, x ∈ es -> place w' (target (e_path x))) ->
    opened w' !! s_fd st = Some (mkofile (target (e_path e)) (t_pos c + len) false) ->
    disk w' = apply_part target d c -> disk w' !! target (e_path e) = Some (f0 ++ t_data c) ->
    Q (foc s p g (st <| s_file_pos := t_pos c + len |> <| s_list_pos := s_list_pos st + len |>) w' a) tt) ->
  runs (if decide (e_size e > 0) then write_part p (t_data c) else mret tt) (foc s p g st w a) Q.
Proof using HP.
  intros e len (Hent & Hb & Hp & Hsum & Hne) Hlen Hh Hlp Ho Hd Hdc Hfl Hpl Hfp HQ.
  assert (Happ : <[target (e_path e) := f0 ++ t_data c]> (disk w) = apply_part target d c).
  { unfold apply_part. fold e. rewrite Hd in Hdc |- *. case_decide as Hp0.
    - destruct f0; [|simpl in Hfl; lia]. by rewrite insert_insert_eq.
    - by rewrite Hdc. }
  destruct (decide (e_size e > 0)) as [Hs|Hs].
  - specialize (Hne Hs). assert (len > 0) by (unfold len; destruct (t_data c); [done|simpl; lia]).
    unfold write_part. apply run_bind, runs_stream. fold len. rewrite decide_True by done. apply run_bind.
    destruct (write_file w (s_fd st) _ _ _ (t_data c) Hh Ho Hdc) as (w' & E & [Hd' Ho' Hh' Hp']); [lia|done|].
    eapply runs_os; [exact E|]. apply run_bind, runs_xcheck; [fold len; rewrite u64_small by lia; intros E1; by apply E1|].
    destruct Hent as (_ & _ & Hes). fold e in Hes, Hsum. fold len in Ho', Hsum.
    apply runs_upd. cbn -[u64]. rewrite Hfp, !u64_small by lia. apply HQ; [done| | | |].
    + intros x Hx. by apply Hp', Hpl.
    + by rewrite Ho', lookup_insert_eq.
    + rewrite Hd', <- Hfl, overwrite_end. done.
    + by rewrite Hd', <- Hfl, overwrite_end, lookup_insert_eq.
  - assert (Hnil : t_data c = []). { destruct (t_data c); [done|]. unfold e in Hs. simpl in Hsum. lia. }
    assert (Hl0 : len = 0) by (unfold len; by rewrite Hnil). apply runs_ret. 
    replace st with (st <| s_file_pos := t_pos c + len |> <| s_list_pos := s_list_pos st + len |>).
    2:{ rewrite Hl0, !Z.add_0_r, <- Hfp. by destruct st. }
    rewrite Hnil, app_nil_r in Happ, HQ. apply HQ; try done; [by rewrite Hl0, Z.add_0_r|]. rewrite <- Happ. symmetry. by apply insert_id.
Qed.

(** After the last part the file is closed. *)
Lemma runs_end_part s p g st w a es d c rest f0 Q :
  let e := t_entry c in let len := Z.of_nat (length (t_data c)) in
  part_ok c -> healthy w -> dir_ok st -> 0 <= s_list_pos st -> 0 <= s_fd st ->
  opened w !! s_fd st = Some (mkofile (target (e_path e)) (t_pos c + len) false) ->
  disk w = apply_part target d c -> disk w !! target (e_path e) = Some f0 -> Z.of_nat (length f0) = t_pos c + len ->
  (forall x, x ∈ es -> place w (target (e_path x))) -> s_file_pos st = t_pos c + len -> s_file_size st = e_size e ->
  (forall st' w', downloading es (apply_part target d c) st' w' (advance c rest) -> kept_list st st' 0 ->
    Q (foc s p g st' w' a) tt) ->
  runs (s ← stream p; if decide (s_file_pos s = s_file_size s) then end_file p else mret tt) (foc s p g st w a) Q.
Proof using HP.
  intros e len (Hent & Hb & Hp & Hsum & Hne) Hh Hdir Hlp Hfd Ho Hd Hdc Hfl Hpl Hfp Hfs HQ.
  apply run_bind, runs_stream. rewrite Hfp, Hfs. unfold advance in HQ. fold e len in HQ.
  destruct (decide (t_pos c + len = e_size e)) as [Hend|Hend].
  - eapply runs_end_file; [done|exact Ho|].
    intros w2 [Hd2 _ Hh2 Hp2]. apply HQ; [|unfold kept_list; cbn; split_and!; try done; lia].
    split; try done; [by rewrite Hd2|]. intros x Hx. by apply Hp2, Hpl.
  - apply runs_ret, HQ; [|unfold kept_list; split_and!; try done; lia]. split; try done.
    unfold target_open. cbn [q_pos q_cur]. assert (t_pos c + len ≠ 0).
    { intros H1. assert (e_size e > 0) as H2 by (destruct Hent as (_ & _ & ?); unfold e, len in *; lia).
      specialize (Hne H2). unfold len in *. destruct (t_data c); [done|]. simpl in *. lia. }
    rewrite decide_False by done. by exists e, f0.
Qed.

Lemma part_data_length c : part_ok c -> (length (t_data c) <= length (enc (part_value c)))%nat.
Proof using Type.
  intros (_ & _ & Hp & Hsum & _). unfold part_value. rewrite enc_obj, enc_body_length, enc_fields_app, length_app.
  case_decide; [|destruct (t_data c); simpl in *; lia].
  rewrite (enc_fields_cons k_data), enc_fields_nil, app_nil_r, field_length, bin_length. lia.
Qed.

(** The data, which an empty file does not have. *)
Lemma runs_find_data s p mem base c n ps (k : unit -> M W unit) Q :
  part_ok c -> at_field mem base (part_fields c) n ps -> Z.of_nat (length (t_data c)) < 2 ^ 31 ->
  runs ((if decide (e_size (t_entry c) > 0) then write_part p (t_data c) else mret tt) ≫= k) s Q ->
  runs ('(ps, bin) ← lift (xl_find ps k_data);
        (match bin with
         | None => mret tt
         | Some bin => n ← lift (__xl_sizeof_body mem bin); data ← lift (rd_range mem (__xl_l2b bin) n); write_part p data
         end) ≫= k) s Q.
Proof using Type.
  intros Hc Hps Hlen Hrun. pose proof (part_doc c Hc) as Hdoc. apply run_bind.
  destruct (decide (e_size (t_entry c) > 0)) as [Hs|Hs].
  - destruct (find_elem mem base (part_fields c) n ps k_data (VBin (t_data c)) Hdoc) as (ps' & n' & o & E & _ & Ho); [by apply key_bytes_k; repeat constructor|exact Hps| |].
    { unfold part_fields. rewrite decide_True by done. apply elem_of_app. right. by left. }
    eapply runs_lift; [exact E|]. cbn beta iota. destruct (body_size mem o XLINE_TYPE_BIN (t_data c) Ho) as (Hsz & Hl & _); [done|lia|].
    destruct Hrun as (s' & r & Er & HQ). exists s', r. split; [|done]. rewrite <- Er. unfold mbind, M_bind, lift.
    rewrite Hsz. cbn [mbind option_bind]. by rewrite (lies_range _ _ _ Hl).
  - destruct (find_missing mem base (part_fields c) n ps k_data Hdoc) as (ps' & n' & E & _); [by apply key_bytes_k; repeat constructor|exact Hps| |].
    { unfold part_fields. rewrite decide_False by done. apply (bool_decide_unpack (k_data ∉ [k_path; k_type; k_size; k_pos])). by vm_compute. }
    eapply runs_lift; [exact E|]. exact Hrun.
Qed.

(** One part. *)
Lemma runs_recv_obj s p mem o g st w a es d c q rest Q :
  part_ok c -> Z.of_nat (length (t_data c)) < 2 ^ 31 -> lies mem o (enc (part_value c)) -> t_entry c ∈ es ->
  downloading es d st w q -> q_pos q = t_pos c -> (q_pos q ≠ 0 -> q_cur q = Some (t_entry c)) -> s_list_pos st < 2 ^ 62 ->
  (forall st' w', downloading es (apply_part target d c) st' w' (advance c rest) ->
    kept_list st st' (Z.of_nat (length (t_data c))) -> Q (foc s p g st' w' a) tt) ->
  runs (recv_obj p mem o) (foc s p g st w a) Q.
Proof using HP.
  intros Hc Hlen Hl He Hdn Hq Hcur Hlp HQ. pose proof Hc as ((Hpc & Hpl & Hes) & Hb & Hp & Hsum & _).
  pose proof (part_doc c Hc) as Hdoc. change (part_value c) with (VObj (part_fields c)) in Hl.
  assert (Hsz : Z.of_nat (length (enc_fields (part_fields c))) < 2 ^ 63).
  { pose proof (part_value_length c) as H1. change (part_value c) with (VObj (part_fields c)) in H1.
    rewrite enc_obj, enc_body_length in H1. lia. }
  unfold recv_obj. apply run_bind. eapply runs_parser; [exact Hl|done|]. intros ps0 P0.
  apply run_bind. eapply runs_find; [exact Hdoc|apply key_bytes_k; by repeat constructor|exact P0|by left|].
  intros ps1 n1 o1 P1 Hname. apply str_body in Hname as [Hnsz Hname]; [|lia].
  apply run_bind. eapply runs_find_int; [exact Hdoc|apply key_bytes_k; by repeat constructor|exact P1|right; by left|].
  intros ps2 n2 P2. apply run_bind.
  eapply runs_find_uint; [exact Hdoc|apply key_bytes_k; by repeat constructor|exact P2|right; right; by left|].
  intros ps3 n3 P3. apply run_bind, runs_upd, run_bind.
  eapply runs_find_uint; [exact Hdoc|apply key_bytes_k; by repeat constructor|exact P3|right; right; right; by left|].
  intros ps4 n4 P4. apply run_bind, runs_stream, run_bind. eapply runs_lift; [exact Hnsz|].
  apply run_bind. unfold text. eapply runs_lift; [rewrite (at_field_mem _ _ _ _ _ P4); by apply text_lies|].
  apply run_bind. eapply runs_lift; [apply target_path_ok; apply Hdn|].
  set (st1 := st <| s_file_size := e_size (t_entry c) |>).
  assert (Hdn1 : downloading es d st1 w q) by (destruct Hdn; by split).
  apply run_bind. rewrite <- Hq. eapply runs_open_target; [exact Hdn1|done|rewrite Hq; lia|done|].
  intros fd w1 f0 Ho1 Hh1 Hd1 Hf1 Hl1 _ Hp1 Hfd. rewrite Hq in Ho1, Hd1, Hl1.

  eapply runs_find_data; [exact Hc|exact P4|done|]. apply run_bind.
  eapply (runs_write_data s p g (st1 <| s_fd := fd |>) w1 a es d c f0); try done; [by destruct Hdn1|destruct Hdn1; cbn in *; congruence|].
  intros w2 Hh2 Hp2 Ho2 Hd2 Hf2. eapply (runs_end_part s p g _ w2 a es d c rest (f0 ++ t_data c)); try done; try apply Hdn.
  - cbn. destruct Hdn. lia.
  - rewrite length_app. lia.
  - intros st' w' Hdn' Hk. apply HQ; [done|]. destruct Hk as (K1 & K2). unfold kept_list. cbn in K1, K2. split; [lia|]. exact K2.
Qed.

Lemma downloading_next es d st w e rest : downloading es d st w (mkcur None 0 (e :: rest)) ->
  downloading es d st w (mkcur (Some e) 0 rest).
Proof using Type. intros []. by split. Qed.

Lemma bytes_nonneg cs : 0 <= bytes_of cs.
Proof using Type. induction cs as [|c cs IH]; simpl; lia. Qed.

Lemma kept_list_trans st st1 st2 n m : kept_list st st1 n -> kept_list st1 st2 m -> kept_list st st2 (n + m).
Proof using Type. unfold kept_list. intros (-> & -> & -> & -> & -> & ->) (-> & H1). split; [lia|exact H1]. Qed.

Context (cont : list Z -> list Z).

Section Loop.
Context (s : io W) (p : positive) (mem : list Z) (base : Z) (vs : list value) (g : messenger) (a : gmap positive margs)
  (es : list entry).
Context (Hl : lies mem base (concat (map enc vs))) (Hsz : Z.of_nat (length (concat (map enc vs))) < 2 ^ 31).

(** The loop handles the elements [cs] of the list that are left. *)
Definition receives (cs : list part) (q q' : cursor) : Prop := forall fuel k ps st w d Q,
  drop k vs = map part_value cs -> at_elem base vs k ps -> p_mem ps = mem -> (length cs < fuel)%nat ->
  downloading es d st w q -> s_list_pos st + bytes_of cs < 2 ^ 62 ->
  (forall st' w', downloading es (foldl (apply_part target) d cs) st' w' q' -> kept_list st st' (bytes_of cs) ->
    Q (foc s p g st' w' a) tt) ->
  runs (recv_loop fuel p ps) (foc s p g st w a) Q.

Lemma receives_none q : receives [] q q.
Proof using Type.
  intros [|fuel] k ps st w d Q Hk Hel Hm Hfuel Hdn _ HQ; [simpl in Hfuel; lia|]. cbn [recv_loop map] in *. apply run_bind.
  assert (length vs <= k)%nat by (pose proof (length_drop vs k) as H1; rewrite Hk in H1; simpl in H1; lia).
  pose proof Hel as (_ & _ & _ & Hle). replace k with (length vs) in Hel by lia.
  eapply runs_lift; [by eapply no_next_elem|]. apply runs_ret, HQ; [done|]. unfold kept_list. cbn. split_and!; try done; lia.
Qed.

Lemma receives_part c cs q q' rest : part_ok c -> t_entry c ∈ es -> q_pos q = t_pos c -> q_cur q = Some (t_entry c) ->
  receives cs (advance c rest) q' -> receives (c :: cs) q q'.
Proof using HP Hl Hsz.
  intros Hc Hin Hqp Hqc IH [|fuel] k ps st w d Q Hk Hel Hm Hfuel Hdn Hlp HQ; [simpl in Hfuel; lia|]. cbn [map length] in *.
  assert (Hv : vs !! k = Some (part_value c)) by (rewrite <- (Nat.add_0_r k), <- lookup_drop, Hk; done).
  destruct (next_elem mem base vs k ps (part_value c) Hel Hm Hl) as (ps' & o & E & Hel' & Hm' & Ho & _); [lia|exact Hv|].
  cbn [recv_loop]. apply run_bind. eapply runs_lift; [exact E|]. cbn beta iota. rewrite Hm'. pose proof (bytes_nonneg cs) as Hnn.
  assert (Hdl : (length (t_data c) <= length (concat (map enc vs)))%nat).
  { pose proof (elems_mono (S k) vs) as H1. rewrite (elems_split _ _ _ Hv), length_app in H1.
    pose proof (part_data_length c Hc). lia. }
  cbn [bytes_of fold_right] in Hlp, HQ. fold (bytes_of cs) in Hlp, HQ.
  apply run_bind. eapply (runs_recv_obj _ _ _ _ _ _ _ _ _ _ _ _ rest); [exact Hc|lia|exact Ho|done|exact Hdn|done|done|lia|].
  intros st1 w1 Hdn1 Hk1. apply (IH fuel (S k) ps' st1 w1 (apply_part target d c)); try done; [|lia|pose proof Hk1 as (-> & _); lia|].
  - by rewrite <- (Nat.add_1_r k), <- drop_drop, Hk.
  - intros st2 w2 Hdn2 Hk2. apply HQ; [exact Hdn2|]. by eapply kept_list_trans.
Qed.

Lemma receives_emit q cs q' : emit cont q cs q' -> cursor_ok cont q -> (forall e, e ∈ pending q -> e ∈ es) -> receives cs q q'.
Proof using HP Hl Hsz.
  induction 1 as [q|e rest cs q He IH|e pos n rest cs q Hn Hlt He IH|e pos rest cs q He IH]; intros Hok Hin.
  - apply receives_none.
  - intros fuel k ps st w d Q H1 H2 H3 H4 H5 H6 H7.
    eapply IH; try done; [by eapply emit_ok; [apply emit_next, emit_nil|]|by apply downloading_next].
  - destruct (emit_parts _ _ _ _ (emit_part cont e pos n rest [] _ Hn Hlt (emit_nil _ _)) Hok) as (Hp & _).
    pose proof Hok as [_ (Hf & Hpos & _)]. cbn [q_pos] in Hpos.
    pose proof (piece_length cont e pos n Hf Hpos ltac:(lia) ltac:(lia)) as Hlen.
    apply (receives_part _ _ _ _ rest); [by apply Forall_inv in Hp|apply Hin; by left|done|done|].
    unfold advance. rewrite Hlen. cbn [t_pos t_entry piece]. rewrite decide_False by lia.
    apply IH; [eapply emit_ok; [by eapply emit_part, emit_nil|done]|done].
  - destruct (emit_parts _ _ _ _ (emit_end cont e pos rest [] _ (emit_nil _ _)) Hok) as (Hp & _).
    pose proof Hok as [_ (Hf & Hpos & Hle)]. cbn [q_pos] in Hpos, Hle. pose proof Hf as ((_ & _ & Hs) & _).
    pose proof (piece_length cont e pos (e_size e - pos) Hf Hpos ltac:(lia) ltac:(lia)) as Hlen.
    apply (receives_part _ _ _ _ rest); [by apply Forall_inv in Hp|apply Hin; by left|done|done|].
    unfold advance. rewrite Hlen. cbn [t_pos t_entry piece]. rewrite decide_True by lia.
    apply IH; [eapply emit_ok; [by eapply emit_end, emit_nil|done]|]. intros x Hx. apply Hin. by right.
Qed.
End Loop.

(** ** A message *)

Context (malloc : Z -> option xframe).

Lemma upload_doc id cs : Forall part_ok cs -> 0 <= id < 4 -> doc_ok (upload_fields id cs).
Proof using Type.
  intros Hcs Hid. split.
  - constructor; [|constructor; [|constructor; [|done]]]; (split; [repeat constructor; simpl; lia|]); [cbn; unfold XLIO_STREAM_UPLOAD_LIST; lia|cbn; lia|].
    apply value_ok_list, Forall_map. eapply Forall_impl; [exact Hcs|]. intros c Hc.
    change (part_value c) with (VObj (part_fields c)). by apply value_ok_obj, part_doc.
  - apply (bool_decide_unpack (NoDup [k_api; k_id; k_list])). by vm_compute.
Qed.

(** The parts that a message carries. *)
Lemma runs_recv_parts (s : io W) p u fu id cs q q' es d g st w a Q :
  g_frames g !! u = Some fu -> is_message fu (upload_fields id cs) -> f_wpos fu < 2 ^ 31 -> 0 <= id < 4 -> cs ≠ [] ->
  emit cont q cs q' -> cursor_ok cont q -> (forall e, e ∈ pending q -> e ∈ es) ->
  downloading es d st w q -> s_list_pos st + bytes_of cs < 2 ^ 62 ->
  (forall st' w', downloading es (foldl (apply_part target) d cs) st' w' q' -> kept_list st st' (bytes_of cs) ->
    Q (foc s p g st' w' a) tt) ->
  runs (xlio_recv_file malloc p u) (foc s p g st w a) Q.
Proof using HP.
  intros Hu Hmsg Hw Hid Hne He Hok Hin Hdn Hlp HQ. destruct (emit_parts _ _ _ _ He Hok) as (Hcs & _).
  pose proof (upload_doc id cs Hcs Hid) as Hdoc. destruct (message_lies _ _ Hmsg) as [Hlies Hlen].
  assert (Hvs : Z.of_nat (length (concat (map enc (map part_value cs)))) < 2 ^ 31).
  { destruct Hmsg as (Hf & _ & Hc). pose proof (content_length fu Hf) as H1. rewrite Hc in H1. unfold upload_fields in H1.
    rewrite !enc_fields_cons, !(length_app (_ ++ _)), !field_length, list_length in H1. lia. }
  unfold xlio_recv_file. apply run_bind, runs_region. rewrite Hu. apply run_bind.
  eapply runs_parser; [exact Hlies|lia|]. intros ps0 P0. apply run_bind.
  eapply runs_find; [exact Hdoc|apply key_bytes_k; by repeat constructor|exact P0|right; right; by left|]. intros ps1 n1 o _ Ho.
  destruct (parser_elem _ _ _ Ho) as (pl & Epl & Hel & Hmem & Hl & Hsz); [lia|].
  assert (Hpos : (length cs <= length (concat (map enc (map part_value cs))))%nat)
    by (pose proof (elems_at_least (map part_value cs)) as H1; by rewrite length_map in H1).
  assert (0 < length cs)%nat by (destruct cs; [done|simpl; lia]).
  apply run_bind. eapply runs_lift; [exact Hsz|]. rewrite decide_False by lia. apply run_bind. eapply runs_lift; [exact Epl|].
  eapply (receives_emit s p (region_of fu) _ (map part_value cs) g a es Hl Hvs q cs q' He Hok Hin _ 0%nat); try done; lia.
Qed.

Definition request_next : list (list Z * value) := [(k_api, VInt XLIO_STREAM_REQ_LIST)].

(** The request for a list, in a frame without content. *)
Lemma runs_request_list (s : io W) p m c fq f g st w a Q :
  g_frames g !! m = Some f -> fresh_frame f -> s_channel st = Some c -> queue p c fq g -> (length fq < 8)%nat ->
  (forall f' g', wrote f f' (enc_fields request_next) -> is_sent p c fq m (f' <| f_type := XPACK_TYPE_MSG |>) g g' ->
    Q (foc s p g' st w a) tt) ->
  runs (request_list malloc p m) (foc s p g st w a) Q.
Proof using Type.
  intros Hm (Hf & Hsz & Hw) Hch Hq Hl HQ. unfold MSGBUF_SIZE in Hsz.
  destruct (add_int_fits malloc k_api XLIO_STREAM_REQ_LIST f) as (f1 & E1 & W1 & _);
    [done|simpl; lia|rewrite field_length, int_length; simpl; lia|].
  unfold request_list. apply run_bind. eapply runs_add; [exact Hm|exact E1|by eapply wrote_not_eof|].
  eapply (runs_send _ _ _ _ f1 c fq); [apply at_frame|done|by apply queue_frame|done|].
  intros g' [Hq' Hg']. apply (HQ f1 g').
  - unfold request_next. rewrite enc_fields_cons, enc_fields_nil, app_nil_r. exact W1.
  - split; [done|]. rewrite Hg'. unfold with_frame_at. simpl. by rewrite insert_insert_eq.
Qed.

Lemma last_doc : doc_ok last_fields.
Proof using Type.
  split; [|apply (bool_decide_unpack (NoDup [k_api; k_list])); by vm_compute].
  constructor; [|constructor; [|done]]; (split; [repeat constructor; simpl; lia|]); [cbn; unfold XLIO_STREAM_UPLOAD_LIST; lia|done].
Qed.

(** The end of an upload: the downloader asks for the next list. *)
Lemma runs_recv_last (s : io W) p c u fu own fl fq g st w a Q :
  g_frames g !! u = Some fu -> is_message fu last_fields -> s_list_pos st = s_list_size st -> s_channel st = Some c ->
  lending own fl (s_buf st) (g_frames g) -> (length fl < 4)%nat -> queue p c fq g -> (length fq <= length fl)%nat ->
  (forall m f b g', m ∉ fl -> m ∈ own -> g_frames g' = <[m := f]> (g_frames g) -> queue p c (fq ++ [m]) g' ->
    content f = enc_fields request_next -> f_type f = XPACK_TYPE_MSG -> lending own (fl ++ [m]) b (g_frames g') ->
    Q (foc s p g' (st <| s_buf := b |> <| s_list_pos := 0 |> <| s_list_size := 0 |>) w a) tt) ->
  runs (xlio_recv_file malloc p u) (foc s p g st w a) Q.
Proof using Type.
  intros Hu Hmsg Hpos Hch Hlend Hfl Hq Hfq HQ. destruct (message_lies _ _ Hmsg) as [Hlies Hlen].
  unfold xlio_recv_file. apply run_bind, runs_region. rewrite Hu. apply run_bind.
  eapply runs_parser; [exact Hlies|lia|]. intros ps0 P0. apply run_bind.
  eapply runs_find; [exact last_doc|apply key_bytes_k; by repeat constructor|exact P0|right; by left|]. intros ps1 n1 o _ Ho.
  destruct (parser_elem _ _ _ Ho) as (_ & _ & _ & _ & _ & Hsz); [simpl; lia|].
  apply run_bind. eapply runs_lift; [exact Hsz|]. rewrite decide_True by done.
  apply run_bind, runs_stream, run_bind, runs_xcheck; [by intros H1|].
  eapply runs_with_frame; [exact Hlend|done|]. intros m f b Hm Hin Hf (Hok & Hfs & Hw) Hput.
  apply run_bind. eapply (runs_request_list _ _ _ c fq); [apply at_frame|done|exact Hch|by apply queue_frame|lia|].
  intros f' g' W1 [Hq' Hg']. apply runs_upd.
  assert (Hg2 : g_frames g' = <[m := xmsg_fixed (f' <| f_type := XPACK_TYPE_MSG |>)]> (g_frames g)).
  { rewrite Hg'. unfold with_frame_at. simpl. apply insert_insert_eq. }
  eapply (HQ m); [done|done|exact Hg2|exact Hq'| | |].
  - eapply fresh_content; [|exact W1]. done.
  - apply sent_type.
  - destruct (sent_frame f f' _ _ (conj Hok (conj Hfs Hw)) W1) as (X1 & X2 & X3 & X4). rewrite Hg2. by apply Hput.
Qed.
End Download.
