(* ===== verification/FileCopy.v ===== *)
(** * Copying files from one store to another

    What the store of an uploader sends, handled message by message by the
    store of a downloader, makes the files that were asked for. *)

From stdpp Require Import gmap.
From S2P Require Import Prelude Bytes Xline Lines Channel Messenger Files Xlio XlioRun Transfer Lending Upload StoreDemo UploadRun Download.

#[local] Open Scope Z_scope.
#[local] Arguments __xl_n2b _ _ : simpl never.
#[local] Arguments enc _ : simpl never.

(** Consecutive parts can be handed out in several messages. *)
Lemma emit_split cont q cs q' : emit cont q cs q' -> forall a b, cs = a ++ b ->
  exists q1, emit cont q a q1 /\ emit cont q1 b q'.
Proof.
  induction 1 as [q|e rest cs q He IH|e pos n rest cs q Hn Hlt He IH|e pos rest cs q He IH]; intros a b E.
  - symmetry in E. apply app_nil in E as [-> ->]. exists q. split; apply emit_nil.
  - destruct (IH a b E) as (q1 & H1 & H2). exists q1. split; [by apply emit_next|done].
  - destruct a as [|c a]; [exists (mkcur (Some e) pos rest); split; [apply emit_nil|simpl in E; subst b; by apply emit_part]|].
    injection E as <- E. destruct (IH a b E) as (q1 & H1 & H2). exists q1. split; [by apply emit_part|done].
  - destruct a as [|c a]; [exists (mkcur (Some e) pos rest); split; [apply emit_nil|simpl in E; subst b; by apply emit_end]|].
    injection E as <- E. destruct (IH a b E) as (q1 & H1 & H2). exists q1. split; [by apply emit_end|done].
Qed.

Lemma emit_pending cont q cs q' : emit cont q cs q' -> exists l, pending q = l ++ pending q'.
Proof.
  induction 1 as [q|e rest cs q He IH|e pos n rest cs q Hn Hlt He IH|e pos rest cs q He (l & IH)]; [by exists []|done|done|].
  exists (e :: l). unfold pending in *. simpl in *. by rewrite IH.
Qed.

(** Only empty files can be left when no byte is. *)
Lemma pending_empty cont q e : cursor_ok cont q -> left_of q = 0 -> e ∈ pending q -> e_size e = 0.
Proof.
  intros [Hr Hc] Hl He. pose proof (total_size_nonneg cont _ Hr) as Hn. unfold left_of, pending in *.
  assert (Hrest : total (q_rest q) = 0 -> e ∈ q_rest q -> e_size e = 0).
  { clear -Hr. induction (q_rest q) as [|x l IH]; intros Ht Hin; [by apply elem_of_nil in Hin|].
    apply Forall_cons in Hr as [((_ & _ & Hx) & _) Hr]. pose proof (total_size_nonneg cont _ Hr). simpl in Ht. unfold total in *.
    apply elem_of_cons in Hin as [->|Hin]; [lia|]. apply IH; [done|lia|done]. }
  destruct (q_cur q) as [x|]; simpl in He.
  - destruct Hc as (((_ & _ & Hx) & _) & Hp & Hlt). apply elem_of_cons in He as [->|He]; [lia|]. apply Hrest; [lia|done].
  - apply Hrest; [lia|done].
Qed.

Section Downloader.
Context {W : Type} `{HP : Posix W}.
Context (malloc : Z -> option xframe) (new_frame : io W -> Z -> option (positive * xframe)) (sent : io W -> bool)
  (scan_fuel : nat).
Context (cont : list Z -> list Z) (uri : list Z).
Context (p c : positive) (own fl : list positive).

Abbreviation turn := (io_turn malloc new_frame sent scan_fuel).

(** The messenger has put a message with the document [fs] into the pipe; of
    the frames of the stream, [fl] are away. *)
Record arrived (fs : list (list Z * value)) (u : positive) (s s1 : io W) : Prop := {
  ar_streams : io_streams s1 = io_streams s;
  ar_os : io_os s1 = io_os s;
  ar_own : u ∉ own;
  ar_args : exists x, io_args s1 !! u = Some x /\ a_flag x = XMSG_FLAG_RECV /\ a_channel x = Some c;
  ar_queue : exists fq, queue p c fq (io_ms s1) /\ (length fq <= length fl)%nat;
  ar_message : exists fu, g_frames (io_ms s1) !! u = Some fu /\ is_message fu fs /\ f_type fu = XPACK_TYPE_MSG
    /\ f_ref fu = 1 /\ f_wpos fu <= MSGBUF_SIZE;
  ar_frames : untouched own fl (g_frames (io_ms s)) (g_frames (io_ms s1));
}.

(** The messages [ms] arrive one after the other, each as soon as the one
    before it has been handled. *)
Fixpoint takes (P : io W -> Prop) (ms : list (list (list Z * value))) (s : io W) : Prop :=
  match ms with
  | [] => P s
  | fs :: ms => forall u s1, arrived fs u s s1 -> exists s2, turn u s1 = Some (s2, Some tt) /\ takes P ms s2
  end.

(** A downloader that waits for the parts behind [q], [n] bytes of [size]
    having been received. *)
Record awaiting (size n : Z) (es : list entry) (d : gmap (list Z) (list Z)) (q : cursor) (s : io W) : Prop := mkawaiting {
  aw_stream : exists st, io_streams s !! p = Some st /\ downloading uri es d st (io_os s) q
    /\ s_channel st = Some c /\ s_list_pos st = n /\ s_list_size st = size
    /\ lending own fl (s_buf st) (g_frames (io_ms s));
}.

(** One message with parts. *)
Lemma parts_turn size n es d q cs q' id s s1 u :
  (length fl < 4)%nat -> awaiting size n es d q s -> arrived (upload_fields id cs) u s s1 ->
  0 <= id < 4 -> cs ≠ [] -> emit cont q cs q' -> cursor_ok cont q -> (forall e, e ∈ pending q -> e ∈ es) ->
  n + bytes_of cs < 2 ^ 62 ->
  runs (turn u) s1 (fun s2 _ => awaiting size (n + bytes_of cs) es (foldl (apply_part (target uri)) d cs) q' s2).
Proof using HP.
  intros Hfl [(st & Hst & Hdn & Hch & Hn & Hsize & Hlend)] [Hs Ho Hnu (x & Hx & Hxf & Hxc) (fq & Hq & Hfq) (fu & Hu & Hmsg & Hty & Href & Hw) Hfr]
    Hid Hne He Hok Hin Hb.
  rewrite <- Hs in Hst. rewrite <- Ho in Hdn. pose proof (lending_untouched _ _ _ _ _ Hlend Hfr) as Hlend1.
  pose proof (lending_readable _ _ _ _ Hlend1) as Hread. destruct (emit_parts _ _ _ _ He Hok) as (Hcs & _).
  eapply runs_recv_turn; [done..|exact Hq|lia|].
  eapply runs_recv_frame; [exact Hu|exact Hmsg|by apply upload_doc|by left|]. intros n1 ps _.
  rewrite decide_False by done. rewrite decide_False by done. rewrite decide_False by done. rewrite decide_True by done.
  eapply (runs_recv_parts uri cont malloc s1 p u fu id cs q q' es d); try done; [unfold MSGBUF_SIZE in Hw; lia|by destruct Hdn|cbn; lia|].
  intros st' w' Hdn' (K1 & K2 & K3 & K4 & _). cbn in K1, K2, K3, K4. eapply runs_free_last; [exact Hu|done|].
  split. exists st'. split; [apply lookup_insert_eq|]. split; [exact Hdn'|]. split; [congruence|]. split; [lia|]. split; [congruence|].
  rewrite K3. by apply lending_freed.
Qed.

(** The empty list at the end: the counters are reset and the next list is asked for. *)
Lemma last_turn size es d q s s1 u :
  (length fl < 4)%nat -> awaiting size size es d q s -> arrived last_fields u s s1 ->
  runs (turn u) s1 (fun s2 _ => (exists m fq, queue p c (fq ++ [m]) (io_ms s2) /\ bears (io_ms s2) m request_next)
    /\ disk (io_os s2) = d /\ exists st, io_streams s2 !! p = Some st /\ s_list_pos st = 0 /\ s_list_size st = 0).
Proof using Type.
  intros Hfl [(st & Hst & Hdn & Hch & Hn & Hsize & Hlend)] [Hs Ho Hnu (x & Hx & Hxf & Hxc) (fq & Hq & Hfq) (fu & Hu & Hmsg & Hty & Href & Hw) Hfr].
  rewrite <- Hs in Hst. rewrite <- Ho in Hdn. pose proof (lending_untouched _ _ _ _ _ Hlend Hfr) as Hlend1.
  pose proof (lending_readable _ _ _ _ Hlend1) as Hread.
  eapply runs_recv_turn; [done..|exact Hq|lia|].
  eapply runs_recv_frame; [exact Hu|exact Hmsg|by apply last_doc|by left|]. intros n1 ps _.
  rewrite decide_False by done. rewrite decide_False by done. rewrite decide_False by done. rewrite decide_True by done.
  eapply (runs_recv_last malloc s1 p c u fu own fl fq); try done; [cbn; congruence|].
  intros m f b g' Hm Hin Hg' Hq' Hc Hmt _. assert (Hmu : m ≠ u) by (intros ->; done).
  eapply runs_free_last; [rewrite Hg', lookup_insert_ne by done; exact Hu|done|]. split; [|split].
  - exists m, fq. split; [by apply queue_frames|]. exists f. split; [|done]. cbn.
    rewrite lookup_delete_ne by done. by rewrite Hg', lookup_insert_eq.
  - by destruct Hdn.
  - eexists. split; [apply lookup_insert_eq|done].
Qed.

Lemma bytes_of_app a b : bytes_of (a ++ b) = bytes_of a + bytes_of b.
Proof using Type. induction a as [|x a IH]; simpl; lia. Qed.

Lemma awaiting_none size n es d q q' s : emit cont q [] q' -> awaiting size n es d q s -> awaiting size n es d q' s.
Proof using Type.
  intros He Haw. inversion He as [|e rest cs q1 He1| |]; subst; [done|]. inversion He1; subst.
  destruct Haw as [(st & H1 & H2 & H3)]. split. exists st. split; [done|]. split; [|done]. by apply downloading_next.
Qed.

(** Any number of messages with parts. *)
Lemma takes_parts size es q' (P : io W -> Prop) ms : (length fl < 4)%nat -> forall msgs n q d s,
  emit cont q (concat msgs.*2) q' -> cursor_ok cont q -> (forall e, e ∈ pending q -> e ∈ es) -> Forall msg_ok msgs ->
  awaiting size n es d q s -> n + bytes_of (concat msgs.*2) < 2 ^ 62 ->
  (forall s', awaiting size (n + bytes_of (concat msgs.*2)) es (foldl (apply_part (target uri)) d (concat msgs.*2)) q' s' ->
    takes P ms s') ->
  takes P (map fields_of msgs ++ ms) s.
Proof using HP.
  intros Hfl. induction msgs as [|[id cs] msgs IH]; intros n q d s He Hok Hin Hm Haw Hb HP'.
  - apply HP'. simpl. rewrite Z.add_0_r. by eapply awaiting_none.
  - apply Forall_cons in Hm as [[Hid Hne] Hm]. cbn in Hid, Hne, He, Hb, HP'.
    destruct (emit_split _ _ _ _ He cs _ eq_refl) as (q1 & He1 & He2). rewrite bytes_of_app in Hb.
    assert (Hnn : 0 <= bytes_of (concat msgs.*2)) by apply bytes_nonneg.
    intros u s1 Har. destruct (parts_turn size n es d q cs q1 id s s1 u) as (s2 & [] & E & Haw2); try done; [lia|].
    exists s2. split; [exact E|]. eapply (IH (n + bytes_of cs) q1); try done; [by eapply emit_ok| |lia|].
    + intros e Hx. apply Hin. destruct (emit_pending _ _ _ _ He1) as (l & ->). apply elem_of_app. by right.
    + intros s' Haw'. apply HP'. rewrite bytes_of_app, foldl_app. by rewrite Z.add_assoc.
Qed.

(** The files [es] have been copied into a directory that held [d]. *)
Record copied_files (es : list entry) (d : gmap (list Z) (list Z)) (s : io W) : Prop := {
  cf_there e : e ∈ es -> 0 < e_size e -> disk (io_os s) !! target uri (e_path e) = Some (cont (e_path e));
  cf_others path : (forall e, e ∈ es -> path ≠ target uri (e_path e)) -> disk (io_os s) !! path = d !! path;
  cf_request : exists m fq, queue p c (fq ++ [m]) (io_ms s) /\ bears (io_ms s) m request_next;
  cf_counters : exists st, io_streams s !! p = Some st /\ s_list_pos st = 0 /\ s_list_size st = 0;
}.

Lemma takes_all es d q msgs s :
  (length fl < 4)%nat -> Forall (file_ok cont) es -> NoDup (e_path <$> es) -> total es < 2 ^ 62 ->
  awaiting (total es) 0 es d (mkcur None 0 es) s -> Forall msg_ok msgs ->
  emit cont (mkcur None 0 es) (concat msgs.*2) q -> left_of q = 0 ->
  takes (copied_files es d) (map fields_of msgs ++ [last_fields]) s.
Proof using HP.
  intros Hfl Hes Hnd Ht Haw Hm He Hleft. assert (Hok : cursor_ok cont (mkcur None 0 es)) by (by split).
  destruct (emit_parts _ _ _ _ He Hok) as (_ & Hbytes & _). rewrite Hleft in Hbytes.
  change (left_of (mkcur None 0 es)) with (total es) in Hbytes.
  destruct (emit_copies cont (target uri) (target_inj uri) d es _ _ He Hes Hnd) as (done & Hsplit & Hdone & _ & Hothers).
  eapply takes_parts; [done|exact He|done|done|done|exact Haw|lia|]. intros s1 Haw1. replace (0 + _) with (total es) in Haw1 by lia.
  intros u s2 Har. destruct (last_turn _ _ _ _ _ _ _ Hfl Haw1 Har) as (s3 & [] & E & Hreq & Hdisk & Hst). exists s3. split; [exact E|].
  split; [| |done|done]; rewrite Hdisk; [|done]. intros e Hin Hpos. rewrite Hsplit in Hin. apply elem_of_app in Hin as [Hin|Hin].
  - rewrite Forall_forall in Hdone. by apply Hdone.
  - pose proof (pending_empty cont q e (emit_ok _ _ _ _ He Hok) Hleft Hin). lia.
Qed.
End Downloader.

(** ** Both ends *)

Section Copy.
Context {W W' : Type} `{HP : Posix W} `{HP' : Posix W'}.
Context (malloc : Z -> option xframe) (new_frame : io W -> Z -> option (positive * xframe)) (sent : io W -> bool)
  (scan_fuel : nat) (new_frame' : io W' -> Z -> option (positive * xframe)) (sent' : io W' -> bool).
Context (cont : list Z -> list Z) (uri uri' : list Z) (nl : nat).

(** C8: the files arrive.  A downloader has asked for the files [es], which are
    there at the uploader, under names that differ, and it can make files of
    these names in its directory.  Then the uploader sends messages, over as
    many turns as it takes, and when these arrive in the order they were sent in
    the downloader handles every one of them without an error; afterwards each
    file that is not empty lies in its directory with the contents it has at
    the uploader, every other file is as before, and the next list has been
    asked for. *)
Theorem files_copied s p c u es own fl s' p' c' own' fl' d :
  requested cont uri nl s p c u es own fl -> NoDup (e_path <$> es) ->
  (length fl' < 4)%nat -> awaiting uri' p' c' own' fl' (total es) 0 es d (mkcur None 0 es) s' ->
  exists s2 ms fl2, io_turn malloc new_frame sent scan_fuel u s = Some (s2, Some tt) /\ sends p c s s2 ms
    /\ goes_on malloc new_frame sent scan_fuel u p c own
         (fun ms _ => takes malloc new_frame' sent' scan_fuel p' c' own' fl' (copied_files cont uri' p' c' es d) ms s')
         ms fl2 s2.
Proof using HP HP'.
  intros Hr Hnd Hfl' Haw. pose proof (rq_files _ _ _ _ _ _ _ _ _ _ Hr) as (Hes & _ & Ht).
  destruct (start_turn malloc new_frame sent scan_fuel cont uri nl s p c u es own fl Hr)
    as (s2 & [] & E & mem & lb & vs & msgs & q & fl2 & Hlist & He & Hm & Hfl2 & Hb & Hs).
  exists s2, (map fields_of msgs), fl2. split; [exact E|]. split; [exact Hs|].
  eapply goes_on_mono; [|eapply upload_goes_on; [exact Hlist|reflexivity|exact Hfl2|exact Hb|exact He|exact Hm]].
  intros ms s3 (msgs' & q' & -> & He' & Hleft & Hm' & _). eapply takes_all; try done; lia.
Qed.
End Copy.

Definition demo_dir : list Z := [111].
Definition demo_target (fs : list (list Z * value)) : io MemFs.memfs :=
  demo_store (demo_stream IOSTREAM_TYPE_DOWNLOAD demo_dir 1 <| s_list_size := 3 |>) fs ∅.

Lemma demo_awaiting : awaiting demo_dir 7 9 demo_own [] 3 0 [demo_entry] ∅ (mkcur None 0 [demo_entry]) (demo_target []).
Proof.
  split. exists (demo_stream IOSTREAM_TYPE_DOWNLOAD demo_dir 1 <| s_list_size := 3 |>). split; [done|].
  split; [by split|]. do 3 (split; [done|]). apply demo_lending.
Qed.

Lemma demo_arrived st files fs : (length (enc_fields fs) <= Z.to_nat MSGBUF_SIZE)%nat ->
  arrived 7 9 demo_own [] fs 5 (demo_store st [] files) (demo_store st fs files).
Proof.
  intros Hl. split; try done.
  - apply (bool_decide_unpack (5%positive ∉ demo_own)). by vm_compute.
  - by eexists.
  - exists []. split; [apply demo_queue|done].
  - exists (demo_frame (enc_fields fs)). split; [apply lookup_insert_eq|]. split; [by apply demo_message|].
    do 2 (split; [done|]). unfold demo_frame. cbn [f_wpos]. unfold MSGBUF_SIZE in *. lia.
  - split; [|intros x f Hx; by apply elem_of_nil in Hx]. intros x f Hx _. cbn [demo_store io_ms demo_messenger g_frames].
    assert (x ≠ 5%positive) by (intros ->; revert Hx; apply (bool_decide_unpack (5%positive ∉ demo_own)); by vm_compute).
    by rewrite !lookup_insert_ne by done.
Qed.

Lemma files_copied_witness :
  (exists s2 ms fl2,
    io_turn (fun _ => None) (fun _ _ => None) (fun _ => true) 0 5
      (demo_store (demo_stream IOSTREAM_TYPE_UPLOAD demo_uri 1) demo_request {[ demo_uri := [10; 20; 30] ]}) = Some (s2, Some tt)
    /\ goes_on (fun _ => None) (fun _ _ => None) (fun _ => true) 0 5 7 9 demo_own
         (fun ms _ => takes (fun _ => None) (fun _ _ => None) (fun _ => true) 0 7 9 demo_own []
            (copied_files demo_content demo_dir 7 9 [demo_entry] ∅) ms (demo_target [])) ms fl2 s2)
  /\ exists u s1, arrived 7 9 demo_own [] (fields_of (0, [piece demo_content demo_entry 0 3])) u (demo_target []) s1.
Proof.
  split.
  - destruct (files_copied (fun _ => None) (fun _ _ => None) (fun _ => true) 0 (fun _ _ => None) (fun _ => true)
      demo_content demo_uri demo_dir 1 _ _ _ _ _ _ _ (demo_target []) 7 9 demo_own [] ∅ demo_requested) as (s2 & ms & fl2 & H1 & _ & H2).
    + apply (bool_decide_unpack (NoDup (e_path <$> [demo_entry]))). by vm_compute.
    + simpl. lia.
    + apply demo_awaiting.
    + exists s2, ms, fl2. split; [exact H1|exact H2].
  - exists 5%positive, (demo_target (fields_of (0, [piece demo_content demo_entry 0 3]))). apply demo_arrived.
    assert (Z.of_nat (length (enc_fields (fields_of (0, [piece demo_content demo_entry 0 3])))) <= 1000) by (by vm_compute).
    unfold MSGBUF_SIZE. lia.
Defined.
