(* ===== verification/Exchange.v ===== *)
(** * The exchange of lists

    Before files are sent the two ends exchange lists: the uploader offers what
    it has ([RES_LIST]) and the downloader asks for what it lacks
    ([DOWNLOAD_LIST]).  A file that is not there is asked for, unless all that
    are missing are empty. *)

From stdpp Require Import gmap.
From S2P Require Import Prelude Bytes Xline Lines Channel Messenger Files Xlio XlioRun Transfer Lending Upload StoreDemo UploadRun Download FileCopy.

#[local] Open Scope Z_scope.
#[local] Arguments __xl_n2b _ _ : simpl never.
#[local] Arguments enc _ : simpl never.

(** ** Overwriting a number of a document *)

(** Where a search ends that finds its key. *)
Lemma find_loop_at m base fs key v : Forall field_ok fs -> key_bytes key ->
  forall d n fuel p, at_field m base fs n p -> fs !! (n + d)%nat = Some (key, v) ->
  (forall i k w, (n <= i < n + d)%nat -> fs !! i = Some (k, w) -> k ≠ key) ->
  (length (enc_fields fs) - length (enc_fields (take n fs)) < fuel)%nat ->
  exists p', find_loop fuel (Z.of_nat (length (enc_fields fs))) key p = Some (p', true) /\ p_mem p' = m
    /\ p_val p' = Some (base + Z.of_nat (length (enc_fields (take (n + d) fs)) + length (enc_key key))).
Proof.
  intros Hok Hkey. induction d as [|d IH]; intros n fuel p Hp Hd Hne Hf.
  all: assert (exists k w, fs !! n = Some (k, w)) as (k & w & Hn)
    by (destruct (lookup_lt_is_Some_2 fs n) as [[k w] Hn]; [apply lookup_lt_Some in Hd; lia|by eauto]).
  all: destruct (at_field_next _ _ _ _ _ _ _ Hp Hn) as (p1 & E & Hp1 & Hlt & Hpk & Hk0 & Hkb & Hv);
    pose proof Hp as (_ & Hb & Hw & Hr & _); pose proof Hp1 as (Hm1 & _ & _ & Hr1 & _);
    pose proof (enc_fields_mono fs (S n)) as Hmono.
  all: assert (Hfk : field_ok (k, w)) by (by eapply Forall_lookup_1); destruct Hfk as [[Hkk _] _];
    destruct (compare_key _ _ key k Hkb (key_is_bytes _ Hkey) (key_is_bytes _ Hkk)) as (r & Ec & Hcmp).
  all: destruct fuel as [|fuel]; [lia|]; cbn [find_loop]; rewrite decide_True by lia; rewrite E;
    cbn [mbind option_bind]; set (p2 := p1 <| p_val := _ |>);
    change (p_mem p2) with (p_mem p1); change (p_key p2) with (p_key p1);
    rewrite Hm1, Hk0; cbn [mbind option_bind]; rewrite Ec; cbn [mbind option_bind].
  - rewrite Nat.add_0_r in *. rewrite Hn in Hd. injection Hd as -> ->. rewrite decide_True by (by apply Hcmp).
    eexists. split; [reflexivity|]. split; [done|]. cbn. rewrite Hb, Hr. f_equal. lia.
  - rewrite decide_False by (intros Hr0; eapply (Hne n); [lia|exact Hn|]; symmetry; by apply Hcmp).
    replace (n + S d)%nat with (S n + d)%nat by lia. apply (IH (S n) fuel p2 Hp1).
    + by replace (S n + d)%nat with (n + S d)%nat by lia.
    + intros i k' w' Hi. apply Hne. lia.
    + lia.
Qed.

Lemma set_value_ok f fs1 key v n fs2 :
  let fs := fs1 ++ (key, v) :: fs2 in
  is_message f fs -> doc_ok fs -> key_bytes key -> length (enc v) = 9%nat ->
  exists ps ps' o, xl_parser (region_of f) 0 = Some ps /\ xl_set_value ps key n = Some (ps', Some o)
    /\ let f' := f <| f_line := take 9 (p_mem ps') |> <| f_buf := drop 9 (p_mem ps') |> in
       is_message f' (fs1 ++ (key, VUint n) :: fs2) /\ same_size f f'.
Proof.
  intros fs Hmsg [Hok Hnd] Hkey Hv. pose proof Hmsg as (Hf & Hline & Hc). destruct (message_lies _ _ Hmsg) as [Hlies Hlen].
  destruct (parser_at_field _ _ _ Hlies) as (ps & Eps & Hps); [lia|].
  destruct (find_loop_at _ _ fs key v Hok Hkey (length fs1) 0 (S (Z.to_nat (p_wpos ps))) ps Hps) as (p1 & E1 & Hm1 & Hv1).
  { unfold fs. simpl. by rewrite list_lookup_middle. }
  { intros i k w Hi Hk ->. unfold fs in Hnd. rewrite fmap_app, fmap_cons in Hnd. apply NoDup_app in Hnd as (_ & Hd & _).
    apply (Hd key); [|by left]. unfold fs in Hk. rewrite lookup_app_l in Hk by lia. apply list_elem_of_lookup_2 in Hk.
    exact (list_elem_of_fmap_2 fst fs1 (key, w) Hk). }
  { pose proof Hps as (_ & _ & -> & _). lia. }
  pose proof Hps as (_ & _ & Hw & _). rewrite <- Hw in E1. change (0 + length fs1)%nat with (length fs1) in Hv1. unfold fs in Hv1 at 1. rewrite take_app_length in Hv1.
  set (rest := drop (Z.to_nat (f_wpos f)) (f_buf f)).
  assert (Hreg : region_of f = (f_line f ++ enc_fields fs1 ++ enc_key key) ++ enc v ++ enc_fields fs2 ++ rest).
  { unfold region_of. rewrite <- (take_drop (Z.to_nat (f_wpos f)) (f_buf f)). fold rest. fold (content f). rewrite Hc. unfold fs.
    rewrite enc_fields_app, enc_fields_cons. by rewrite <- !app_assoc. }
  assert (Hll : length (f_line f) = 9%nat) by (rewrite Hline; apply n2b_length).
  assert (Hfl : length (enc_fields fs) = (length (enc_fields fs1) + length (enc_key key) + 9 + length (enc_fields fs2))%nat).
  { unfold fs. rewrite enc_fields_app, enc_fields_cons, !length_app, Hv. lia. }
  pose proof (content_length f Hf) as Hcl. rewrite Hc in Hcl. pose proof Hf as (Hw0 & Hs0 & Hm0).
  set (mem' := f_line f ++ enc_fields fs1 ++ enc_key key ++ enc (VUint n) ++ enc_fields fs2 ++ rest).
  exists ps, (p1 <| p_mem := mem' |>).
  eexists. split; [exact Eps|]. split.
  { unfold xl_set_value, xl_find. rewrite E1. cbn [mbind option_bind]. rewrite Hv1. cbn [mbind option_bind]. rewrite Hm1, Hreg.
    rewrite (wr_range_app _ (enc v)); [|rewrite !length_app, Hll; unfold __xl_l2b, XLINE_SIZE; lia|rewrite Hv; apply n2b_length].
    cbn [mbind option_bind]. unfold mem'. by rewrite <- !app_assoc. }
  change (p_mem (p1 <| p_mem := mem' |>)) with mem'. unfold mem'. rewrite take_app_length' by done. rewrite drop_app_length' by done.
  set (buf := enc_fields fs1 ++ enc_key key ++ enc (VUint n) ++ enc_fields fs2 ++ rest).
  assert (Hb : length buf = length (f_buf f)).
  { unfold buf, rest. rewrite !length_app, length_drop, uint_length. lia. }
  split; [|done]. split; [|split; [exact Hline|]].
  - split; [exact Hw0|]. split; [|exact Hm0]. change (f_size f = Z.of_nat (length buf)). by rewrite Hb.
  - change (take (Z.to_nat (f_wpos f)) buf = enc_fields (fs1 ++ (key, VUint n) :: fs2)).
    rewrite enc_fields_app, enc_fields_cons. unfold buf. rewrite !app_assoc. apply take_app_length'.
    rewrite !length_app, uint_length. lia.
Qed.

(** ** The list of what is missing *)

Lemma append_fits malloc mem o v f : lies mem o (enc v) -> frame_ok f -> f_wpos f + Z.of_nat (length (enc v)) <= f_size f ->
  exists f', xl_list_append malloc (drop (Z.to_nat o) mem) f = Some (f', f_wpos f') /\ wrote f f' (enc v).
Proof.
  intros (a & c & -> & ->) Hf Hr. pose proof Hf as (Hw & _ & Hm). rewrite Nat2Z.id, drop_app_length.
  assert (Hl : lies (enc v ++ c) 0 (enc v)) by (by exists [], c).
  unfold xl_list_append. rewrite (enc_size _ _ _ Hl) by lia. cbn [mbind option_bind].
  rewrite reserve_fits by (try done; lia). cbn [mbind option_bind]. rewrite (lies_range _ _ _ Hl). cbn [mbind option_bind].
  destruct (put_appends (enc v) f) as (f2 & E & G & S2); [done|lia|]. rewrite E. cbn [mbind option_bind].
  exists f2. split; [done|]. pose proof (put_kin _ _ _ E) as [K S]. by split.
Qed.

Lemma entry_md5 e fs md5 : fs ≡ₚ entry_fields e md5 -> (k_md5, VBin md5) ∈ fs.
Proof. intros ->. unfold entry_fields. set_solver. Qed.

Section Exchange.
Context {W : Type} `{HP : Posix W}.
Context (malloc : Z -> option xframe) (uri : list Z).

Definition missing (w : W) (e : entry) : Prop := disk w !! target uri (e_path e) = None.

Lemma missing_not_there w e : healthy w -> missing w e -> __fs_file_exist (target uri (e_path e)) w = false.
Proof using HP.
  intros Hh Hm. pose proof (stat_none w _ Hh Hm) as Hs. unfold __fs_file_exist.
  destruct (uv_fs_stat _ w) as [[r mode] sz]. apply bool_decide_eq_false. intros [E1 E2]. by destruct Hs.
Qed.

(** An entry whose file is missing goes to the list. *)
Lemma runs_check_obj (s : io W) p mem o out f g st w a e v Q :
  g_frames g !! out = Some f -> frame_ok f -> f_wpos f + Z.of_nat (length (enc v)) <= f_size f ->
  lies mem o (enc v) -> is_entry e v -> entry_ok e -> dir_ok uri st -> healthy w -> missing w e ->
  0 <= s_list_size st -> s_list_size st + e_size e < 2 ^ 62 ->
  (forall f', wrote f f' (enc v) ->
    Q (foc s p (with_frame_at out f' g) (st <| s_list_size := s_list_size st + e_size e |>) w a) tt) ->
  runs (check_obj malloc p mem o out) (foc s p g st w a) Q.
Proof using HP.
  intros Hout Hf Hroom Hl He Hok Hdir Hh Hm Hs0 Hs HQ. pose proof Hok as (Hpc & Hpl & Hes).
  destruct (entry_doc e v He Hok) as (fs & -> & Hdoc & Hp & Ht & Hsz).
  assert (Hmd : exists md5, (k_md5, VBin md5) ∈ fs).
  { destruct He as (fs' & md5 & [= <-] & Hperm & _). exists md5. by eapply entry_md5. }
  destruct Hmd as (md5 & Hmd). pose proof (entry_line_length e _ He) as Hll. rewrite enc_obj, enc_body_length in Hll.
  unfold check_obj. apply run_bind. eapply runs_parser; [exact Hl|lia|]. intros ps0 P0.
  apply run_bind. eapply runs_find_int; [exact Hdoc|apply key_bytes_k; by repeat constructor|exact P0|exact Ht|]. intros ps1 n1 P1.
  apply run_bind. eapply runs_find; [exact Hdoc|apply key_bytes_k; by repeat constructor|exact P1|exact Hp|].
  intros ps2 n2 o2 P2 Hname. apply str_body in Hname as [Hnsz Hname]; [|lia].
  apply run_bind. eapply runs_find_uint; [exact Hdoc|apply key_bytes_k; by repeat constructor|exact P2|exact Hsz|]. intros ps3 n3 P3.
  apply run_bind. eapply runs_find; [exact Hdoc|apply key_bytes_k; by repeat constructor|exact P3|exact Hmd|]. intros ps4 n4 o4 P4 _.
  apply run_bind, runs_stream, run_bind. eapply runs_lift; [exact Hnsz|].
  apply run_bind. unfold text. eapply runs_lift; [rewrite (at_field_mem _ _ _ _ _ P4); by apply text_lies|].
  apply run_bind. eapply runs_lift; [by apply target_path_ok|]. rewrite decide_True by done.
  apply run_bind. unfold os_get. apply runs_gets. cbn [foc io_os]. rewrite missing_not_there by done.
  destruct (append_fits malloc mem o (VObj fs) f Hl Hf Hroom) as (f' & E & W1).
  apply run_bind. eapply runs_add; [exact Hout|exact E|by eapply wrote_not_eof|]. apply runs_upd. rewrite u64_small by lia. by apply HQ.
Qed.

(** All entries that are left. *)
Lemma runs_check_loop (s : io W) p mem base vs es out w a : lies mem base (concat (map enc vs)) ->
  Z.of_nat (length (concat (map enc vs))) < 2 ^ 62 -> Forall2 is_entry es vs ->
  Forall entry_ok es -> healthy w -> Forall (missing w) es ->
  forall n fuel k ps f g st Q, (length vs = k + n)%nat -> at_elem base vs k ps -> p_mem ps = mem -> (n < fuel)%nat ->
  g_frames g !! out = Some f -> frame_ok f -> f_wpos f + Z.of_nat (length (concat (map enc (drop k vs)))) <= f_size f ->
  dir_ok uri st -> 0 <= s_list_size st -> s_list_size st + total (drop k es) < 2 ^ 62 ->
  (forall f', wrote f f' (concat (map enc (drop k vs))) ->
    Q (foc s p (with_frame_at out f' g) (st <| s_list_size := s_list_size st + total (drop k es) |>) w a) tt) ->
  runs (check_loop malloc fuel p ps out) (foc s p g st w a) Q.
Proof using HP.
  intros Hl Hb Hes Hok Hh Hmiss. pose proof (Forall2_length _ _ _ Hes) as Hlen.
  induction n as [|n IH]; intros [|fuel] k ps f g st Q Hk Hel Hm Hfuel Hout Hf Hroom Hdir Hs0 Hs HQ; [lia| |lia|]; cbn [check_loop]; apply run_bind.
  - replace k with (length vs) in * by lia. eapply runs_lift; [by eapply no_next_elem|]. apply runs_ret.
    rewrite !drop_ge in HQ by lia. cbn in HQ. specialize (HQ f (wrote_nil _ Hf)). rewrite with_frame_at_id in HQ by done.
    rewrite Z.add_0_r in HQ. by destruct st.
  - destruct (lookup_lt_is_Some_2 vs k ltac:(lia)) as [v Hv]. destruct (lookup_lt_is_Some_2 es k ltac:(lia)) as [e He].
    destruct (next_elem mem base vs k ps v Hel Hm Hl Hb Hv) as (ps' & o & E & Hel' & Hm' & Ho & _).
    eapply runs_lift; [exact E|]. cbn beta iota. rewrite Hm'.
    rewrite (drop_S _ _ _ Hv) in Hroom, HQ. rewrite (drop_S _ _ _ He) in Hs, HQ. cbn [map concat total fold_right] in Hroom, HQ, Hs.
    fold (total (drop (S k) es)) in Hs, HQ. rewrite length_app in Hroom.
    rewrite Forall_lookup in Hok, Hmiss. pose proof (Hok _ _ He) as Heok. pose proof Heok as (_ & _ & Hsz).
    assert (Htn : 0 <= total (drop (S k) es)).
    { assert (Hnn : Forall entry_ok (drop (S k) es)) by (apply Forall_drop; by apply Forall_lookup).
      clear -Hnn. induction Hnn as [|x l (_ & _ & Hx) _ IH]; simpl; unfold total in *; lia. }
    rewrite Forall2_lookup in Hes. pose proof (Hes k) as Hek. rewrite He, Hv in Hek. inversion Hek as [? ? Hie|]; subst.
    apply run_bind. eapply (runs_check_obj s p _ o out f g st w a e v); try done; [lia|by eapply Hmiss|lia|].
    intros f1 W1. set (st1 := st <| s_list_size := s_list_size st + e_size e |>).
    assert (Hst1 : s_list_size st1 = s_list_size st + e_size e) by done.
    eapply (IH fuel (S k) ps' f1 _ st1); try done; [lia|lia|apply at_frame|by eapply wrote_ok| |lia|lia|].
    + rewrite (wrote_wpos _ _ _ W1), (wrote_size _ _ _ W1). lia.
    + intros f2 W2. rewrite with_frame_at_twice. specialize (HQ f2 (wrote_app _ _ _ _ _ W1 W2)).
      rewrite Hst1, <- Z.add_assoc. exact HQ.
Qed.

Lemma runs_set_value (s : io W) p m f fs1 key v n fs2 g st w a Q :
  g_frames g !! m = Some f -> is_message f (fs1 ++ (key, v) :: fs2) -> doc_ok (fs1 ++ (key, v) :: fs2) -> key_bytes key ->
  length (enc v) = 9%nat ->
  (forall f', is_message f' (fs1 ++ (key, VUint n) :: fs2) -> same_size f f' -> Q (foc s p (with_frame_at m f' g) st w a) tt) ->
  runs (set_value m key n) (foc s p g st w a) Q.
Proof using Type.
  intros Hm Hmsg Hdoc Hkey Hv HQ. destruct (set_value_ok f fs1 key v n fs2 Hmsg Hdoc Hkey Hv) as (ps & ps' & o & E1 & E2 & H1 & H2).
  unfold set_value. apply run_bind. eapply runs_on_frame; [exact Hm|rewrite E1; cbn [mbind option_bind]; rewrite E2; reflexivity|].
  apply run_bind, runs_found, runs_ret. by apply HQ.
Qed.

(** What the uploader has, and what the downloader asks for. *)
Definition offer_fields (n : Z) (vs : list value) : list (list Z * value) :=
  [(k_api, VInt XLIO_STREAM_RES_LIST); (k_size, VUint n); (k_list, VList vs)].

Lemma list_doc api n vs es : Forall2 is_entry es vs -> Forall entry_ok es -> 0 <= api < 4 -> 0 <= n < 2 ^ 62 ->
  doc_ok [(k_api, VInt api); (k_size, VUint n); (k_list, VList vs)].
Proof using Type.
  intros Hes Hfs Ha Hn. split.
  - constructor; [|constructor; [|constructor; [|done]]]; (split; [repeat constructor; simpl; lia|]); [cbn; lia|cbn; lia|].
    apply value_ok_list. induction Hes as [|e v es vs He _ IH]; [done|]. apply Forall_cons in Hfs as [Hok Hfs].
    constructor; [|by apply IH]. destruct (entry_doc _ _ He Hok) as (fs & -> & [Hf _] & _). by apply value_ok_obj.
  - apply (bool_decide_unpack (NoDup [k_api; k_size; k_list])). by vm_compute.
Qed.

(** The list behind what is in the frame. *)
Lemma runs_check_list (s : io W) p mem o out f vs es g st w a Q :
  g_frames g !! out = Some f -> frame_ok f -> f_wpos f + Z.of_nat (length (enc_key k_list ++ enc (VList vs))) <= f_size f ->
  lies mem o (enc (VList vs)) -> Z.of_nat (length (concat (map enc vs))) < 2 ^ 62 ->
  Forall2 is_entry es vs -> Forall entry_ok es -> healthy w -> Forall (missing w) es -> dir_ok uri st ->
  0 <= s_list_size st -> s_list_size st + total es < 2 ^ 62 ->
  (forall f', wrote f f' (enc_key k_list ++ enc (VList vs)) -> f_line f' = __xl_n2b (f_wpos f') XLINE_TYPE_OBJ ->
    Q (foc s p (with_frame_at out f' g) (st <| s_list_size := s_list_size st + total es |>) w a) tt) ->
  runs (xlio_check_list malloc p mem o out) (foc s p g st w a) Q.
Proof using HP.
  intros Hout Hf Hroom Hl Hb Hes Hok Hh Hm Hdir Hs0 Hs HQ.
  destruct (parser_elem mem o vs Hl Hb) as (ps & Eps & Hel & Hmem & Hlies & _). rewrite length_app, list_length in Hroom.
  destruct (begin_fits malloc (Some k_list) f) as (f2 & junk & E2 & Hj & W2);
    [done|intros ? [= <-]; simpl; lia|cbn [kenc]; lia|].
  pose proof (wrote_wpos _ _ _ W2) as Hw2. rewrite length_app, Hj in Hw2. pose proof (wrote_size _ _ _ W2) as Hs2. cbn [kenc] in Hw2.
  unfold xlio_check_list. apply run_bind. eapply runs_lift; [exact Eps|]. apply run_bind.
  eapply runs_add; [exact Hout|exact E2|pose proof (wrote_ok _ _ _ W2) as (? & _ & ?); unfold XEOF; lia|].
  apply run_bind. pose proof Hel as (_ & Hpw & _). pose proof (elems_at_least vs) as Hle.
  eapply (runs_check_loop s p mem _ vs es out w a Hlies Hb Hes Hok Hh Hm (length vs) _ 0%nat ps f2 _ st); try done; [lia|apply at_frame|by eapply wrote_ok|rewrite drop_0; lia|].
  rewrite !drop_0. intros f3 W3. rewrite with_frame_at_twice.
  destruct (list_end_fits f f2 f3 junk (enc_key k_list) vs Hf W2 Hj W3) as (f4 & E4 & W4 & L4).
  apply run_bind. eapply runs_on_frame; [apply at_frame|exact E4|]. rewrite with_frame_at_twice. apply runs_ret. by apply HQ.
Qed.

Lemma total_entries es : Forall entry_ok es -> 0 <= total es.
Proof using Type. induction 1 as [|e es (_ & _ & He) _ IH]; simpl; unfold total in *; lia. Qed.

(** What goes out: the request, or another request for a list when all that is
    missing is empty. *)
Definition asked (vs : list value) (es : list entry) : list (list Z * value) :=
  if decide (total es > 0) then request_fields vs es
  else [(k_api, VUint XLIO_STREAM_REQ_LIST); (k_size, VUint 0); (k_list, VList vs)].

Lemma runs_fill_in (s : io W) p m f vs es g st w a (k : M W unit) Q :
  g_frames g !! m = Some f -> is_message f [(k_api, VInt XLIO_STREAM_DOWNLOAD_LIST); (k_size, VUint 0); (k_list, VList vs)] ->
  Forall2 is_entry es vs -> Forall entry_ok es -> s_list_size st = total es ->
  (forall f', is_message f' (asked vs es) -> same_size f f' -> runs k (foc s p (with_frame_at m f' g) st w a) Q) ->
  runs (s ← stream p;
        (if decide (s_list_size s > 0) then set_value m k_size (s_list_size s) else set_value m k_api XLIO_STREAM_REQ_LIST);;
        k) (foc s p g st w a) Q.
Proof using Type.
  intros Hm Hmsg Hes Hok Hs HQ. pose proof (list_doc XLIO_STREAM_DOWNLOAD_LIST 0 vs es Hes Hok) as Hdoc.
  specialize (Hdoc ltac:(unfold XLIO_STREAM_DOWNLOAD_LIST; lia) ltac:(lia)).
  apply run_bind, runs_stream, run_bind. rewrite Hs. unfold asked in HQ. destruct (decide (total es > 0)) as [Hp|Hp].
  - by eapply (runs_set_value _ _ _ f [(k_api, VInt XLIO_STREAM_DOWNLOAD_LIST)] k_size (VUint 0) _ [(k_list, VList vs)]);
      [exact Hm|exact Hmsg|exact Hdoc|apply key_bytes_k; repeat constructor| |exact HQ].
  - by eapply (runs_set_value _ _ _ f [] k_api (VInt XLIO_STREAM_DOWNLOAD_LIST) _ [(k_size, VUint 0); (k_list, VList vs)]);
      [exact Hm|exact Hmsg|exact Hdoc|apply key_bytes_k; repeat constructor| |exact HQ].
Qed.

Lemma sent_message f fs : is_message f fs -> f_size f = MSGBUF_SIZE ->
  let x := xmsg_fixed (f <| f_type := XPACK_TYPE_MSG |>) in
  frame_ok x /\ f_size x = MSGBUF_SIZE /\ f_type x = XPACK_TYPE_MSG /\ f_id x = f_id f /\ content x = enc_fields fs.
Proof using Type.
  intros (Hok & _ & Hc) Hs. unfold xmsg_fixed. case_decide; simpl; repeat split; try done; apply Hok.
Qed.

Lemma runs_download_list (s : io W) p c u own fl fq fu n0 vs es g st w a ps k Q :
  g_frames g !! u = Some fu -> is_message fu (offer_fields n0 vs) -> f_wpos fu <= MSGBUF_SIZE ->
  0 <= n0 < 2 ^ 62 -> at_field (region_of fu) (__xl_l2b 0) (offer_fields n0 vs) k ps ->
  Forall2 is_entry es vs -> Forall entry_ok es -> es ≠ [] -> total es < 2 ^ 62 -> healthy w -> Forall (missing w) es ->
  dir_ok uri st -> s_list_size st = 0 -> s_channel st = Some c ->
  lending own fl (s_buf st) (g_frames g) -> (length fl < 4)%nat -> queue p c fq g -> (length fq <= length fl)%nat ->
  (forall m f b g', m ∉ fl -> m ∈ own -> g_frames g' = <[m := f]> (g_frames g) -> queue p c (fq ++ [m]) g' ->
    content f = enc_fields (asked vs es) -> f_type f = XPACK_TYPE_MSG -> lending own (fl ++ [m]) b (g_frames g') ->
    Q (foc s p g' (st <| s_buf := b |> <| s_list_size := total es |>) w a) tt) ->
  runs (download_list malloc p u ps) (foc s p g st w a) Q.
Proof using HP.
  intros Hu Hmsg Hw Hn0 Hps Hes Hok Hne Ht Hh Hmiss Hdir Hs0 Hch Hlend Hfl Hq Hfq HQ.
  pose proof (list_doc XLIO_STREAM_RES_LIST n0 vs es Hes Hok ltac:(unfold XLIO_STREAM_RES_LIST; lia) Hn0) as Hdoc.
  destruct (message_lies _ _ Hmsg) as [_ Hlen]. destruct Hmsg as (Hfu & _ & Hc). pose proof (content_length fu Hfu) as Hcl.
  rewrite Hc in Hcl. unfold offer_fields in Hcl. rewrite !enc_fields_cons, enc_fields_nil, !(length_app (_ ++ _)), !field_length, list_length in Hcl.
  rewrite int_length, uint_length in Hcl. cbn [length k_api k_size k_list] in Hcl.
  unfold MSGBUF_SIZE in Hw. unfold download_list. apply run_bind.
  eapply runs_find; [exact Hdoc|apply key_bytes_k; by repeat constructor|exact Hps|right; right; by left|]. intros ps1 n1 o _ Ho.
  destruct (parser_elem _ _ _ Ho) as (_ & _ & _ & _ & _ & Hsz); [lia|].
  apply run_bind, runs_region. rewrite Hu. eapply runs_with_frame; [exact Hlend|done|].
  intros m f b Hm Hin Hf (Hfok & Hfs & Hw0) Hput.
  apply run_bind. eapply runs_lift; [exact Hsz|]. pose proof (elems_at_least vs) as Hle.
  assert (0 < length vs)%nat by (rewrite <- (Forall2_length _ _ _ Hes); destruct es; [done|simpl; lia]).
  rewrite decide_True by lia. set (i := slot (r_rpos (s_buf st)) (s_buf st)) in *. unfold MSGBUF_SIZE in Hfs.
  destruct (add_int_fits malloc k_api XLIO_STREAM_DOWNLOAD_LIST (f <| f_id := i |>)) as (f1 & E1 & W1 & _);
    [done|simpl; lia|change (f_wpos f + Z.of_nat (length (enc_key k_api ++ enc (VInt XLIO_STREAM_DOWNLOAD_LIST))) <= f_size f); rewrite field_length, int_length; simpl; lia|].
  pose proof (wrote_wpos _ _ _ W1) as Hw1. pose proof (wrote_size _ _ _ W1) as Hs1. rewrite field_length, int_length in Hw1. simpl in Hw1, Hs1.
  destruct (add_uint_fits malloc k_size 0 f1) as (f2 & E2 & W2 & _);
    [by eapply wrote_ok|simpl; lia|rewrite field_length, uint_length; simpl; lia|].
  pose proof (wrote_wpos _ _ _ W2) as Hw2. pose proof (wrote_size _ _ _ W2) as Hs2. rewrite field_length, uint_length in Hw2. simpl in Hw2.
  apply run_bind. eapply runs_add; [apply at_frame|exact E1|by eapply wrote_not_eof|]. rewrite with_frame_at_twice.
  apply run_bind. eapply runs_add; [apply at_frame|exact E2|by eapply wrote_not_eof|]. rewrite with_frame_at_twice.
  apply run_bind. eapply (runs_check_list _ _ _ _ _ f2 vs es); try done; [apply at_frame|by eapply wrote_ok|rewrite field_length, list_length; simpl; lia|lia|..].
  1, 2: change (s_list_size (st <| s_buf := b |>)) with (s_list_size st); lia.
  intros f3 W3 L3. rewrite with_frame_at_twice.
  pose proof (wrote_app _ _ _ _ _ (wrote_app _ _ _ _ _ W1 W2) W3) as W4.
  eapply (runs_fill_in _ _ _ f3 vs es); try done; [apply at_frame| |change (s_list_size st + total es = total es); lia|].
  { split; [by eapply wrote_ok|]. split; [done|]. destruct W4 as ((_ & Hcw & _) & _). rewrite Hcw.
    replace (content (f <| f_id := i |>)) with (@nil Z) by (unfold content; cbn; by rewrite Hw0).
    rewrite !enc_fields_cons, enc_fields_nil, app_nil_r. by rewrite <- !app_assoc. }
  intros f4 Hmsg4 [(_ & Hid4 & _) Hsz4]. rewrite with_frame_at_twice.
  pose proof W4 as (_ & (_ & Hid3 & _) & Hsz3). change (f_size f3 = f_size f) in Hsz3. change (f_id f3 = i) in Hid3.
  destruct (sent_message f4 _ Hmsg4) as (X1 & X2 & X3 & X4 & X5); [unfold MSGBUF_SIZE; lia|].
  eapply (runs_send _ _ _ _ f4 c fq); [apply at_frame|exact Hch|by apply queue_frame|lia|].
  intros g' [Hq' Hg'].
  assert (Hg2 : g_frames g' = <[m := xmsg_fixed (f4 <| f_type := XPACK_TYPE_MSG |>)]> (g_frames g)).
  { rewrite Hg'. unfold with_frame_at. simpl. apply insert_insert_eq. }
  change (s_list_size (st <| s_buf := b |>)) with (s_list_size st). rewrite Hs0. rewrite Z.add_0_l.
  apply (HQ m _ b g' Hm Hin Hg2 Hq' X5 X3). rewrite Hg2. apply Hput; [done|done|done|congruence].
Qed.

(** ** The turn of an offer *)

Context (new_frame : io W -> Z -> option (positive * xframe)) (sent : io W -> bool) (scan_fuel : nat).
Context (p c : positive) (own fl : list positive).
Abbreviation turn := (io_turn malloc new_frame sent scan_fuel).

(** A downloader between two lists. *)
Definition waiting (s : io W) : Prop := exists st, io_streams s !! p = Some st /\ s_fd st = -1 /\ s_file_pos st = 0
  /\ s_list_pos st = 0 /\ s_list_size st = 0 /\ s_channel st = Some c /\ dir_ok uri st
  /\ lending own fl (s_buf st) (g_frames (io_ms s)).

(** Files that are not there yet and can be made. *)
Record wanted (vs : list value) (es : list entry) (w : W) : Prop := {
  wa_entries : Forall2 is_entry es vs;
  wa_ok : Forall entry_ok es;
  wa_some : es ≠ [];
  wa_total : total es < 2 ^ 62;
  wa_healthy : healthy w;
  wa_missing : Forall (missing w) es;
  wa_place : forall e, e ∈ es -> place w (target uri (e_path e));
}.

Lemma offer_turn n vs es s s1 u : (length fl < 4)%nat -> 0 <= n < 2 ^ 62 -> waiting s -> wanted vs es (io_os s) ->
  arrived p c own fl (offer_fields n vs) u s s1 ->
  runs (turn u) s1 (fun s2 _ => sends p c s1 s2 [asked vs es] /\ io_os s2 = io_os s
    /\ exists m st, io_streams s2 !! p = Some st /\ s_list_size st = total es /\ lending own (fl ++ [m]) (s_buf st) (g_frames (io_ms s2))
       /\ downloading uri es (disk (io_os s)) st (io_os s2) (mkcur None 0 es) /\ s_channel st = Some c /\ s_list_pos st = 0).
Proof using HP.
  intros Hfl Hn (st & Hst & Hfd & Hfp & Hlp & Hls & Hch & Hdir & Hlend) [Hes Hok Hne Ht Hh Hmiss Hpl]
    [Hs Ho Hnu (x & Hx & Hxf & Hxc) (fq & Hq & Hfq) (fu & Hu & Hmsg & Hty & Href & Hw) Hfr].
  rewrite <- Hs in Hst. pose proof (lending_untouched _ _ _ _ _ Hlend Hfr) as Hlend1.
  pose proof (lending_readable _ _ _ _ Hlend1) as Hread.
  eapply runs_recv_turn; [done..|exact Hq|lia|].
  eapply runs_recv_frame; [exact Hu|exact Hmsg| |by left|].
  { apply (list_doc _ n vs es); [done..|unfold XLIO_STREAM_RES_LIST; lia|done]. }
  intros k ps Hps. rewrite decide_False by done. rewrite decide_True by done. rewrite Ho.
  eapply (runs_download_list s1 p c u own fl fq fu n vs es); try done.
  intros m f b g' Hm Hin Hg' Hq' Hc Hmt Hl'. assert (Hmu : m ≠ u) by (intros ->; done).
  eapply runs_free_last; [rewrite Hg', lookup_insert_ne by done; exact Hu|done|]. split; [|split; [done|]].
  - exists fq, [m]. split; [done|]. split; [by apply queue_frames|]. constructor; [|done]. exists f. split; [|done]. cbn.
    rewrite lookup_delete_ne by done. by rewrite Hg', lookup_insert_eq.
  - eexists m, _. split; [apply lookup_insert_eq|]. split; [done|]. split; [by apply lending_freed|]. split; [|done].
    split; try done. cbn. lia.
Qed.

(** C10: The downloader asks for what it lacks.  An offer of files none of which
    is there and not all of which are empty (for those see [empty_files_lost]) is
    answered, in the same turn, with the request for exactly these files and
    their total size, without a failure or a fault.  As long as at most two of its
    frames are away, the downloader then waits for the first part of the first
    file with a frame at hand, which is where [files_copied] begins. *)
Theorem offer_is_requested n vs es s s1 u : (length fl < 3)%nat -> 0 <= n < 2 ^ 62 -> waiting s -> wanted vs es (io_os s) ->
  0 < total es -> arrived p c own fl (offer_fields n vs) u s s1 ->
  exists s2 m, turn u s1 = Some (s2, Some tt) /\ sends p c s1 s2 [request_fields vs es]
    /\ (length (fl ++ [m]) < 4)%nat
    /\ awaiting uri p c own (fl ++ [m]) (total es) 0 es (disk (io_os s)) (mkcur None 0 es) s2.
Proof using HP.
  intros Hfl Hn Hwait Hwant Hpos Har. destruct (offer_turn n vs es s s1 u ltac:(lia) Hn Hwait Hwant Har) as (s2 & [] & E & Hs & _ & m & st & H1 & H2 & H3 & H4 & H5 & H6).
  exists s2, m. split; [exact E|]. unfold asked in Hs. rewrite decide_True in Hs by lia. split; [exact Hs|].
  split; [rewrite length_app; simpl; lia|]. split. by exists st.
Qed.

(** C36: Empty files get lost.  When the files of an offer are all empty, the
    downloader does not ask for them, although none of them is there: it makes
    no file and asks for the next list, with the names left in the message. *)
Theorem empty_files_lost n vs es s s1 u : (length fl < 4)%nat -> 0 <= n < 2 ^ 62 -> waiting s -> wanted vs es (io_os s) ->
  total es = 0 -> arrived p c own fl (offer_fields n vs) u s s1 ->
  exists s2, turn u s1 = Some (s2, Some tt)
    /\ sends p c s1 s2 [[(k_api, VUint XLIO_STREAM_REQ_LIST); (k_size, VUint 0); (k_list, VList vs)]]
    /\ io_os s2 = io_os s.
Proof using HP.
  intros Hfl Hn Hwait Hwant Hpos Har. destruct (offer_turn n vs es s s1 u Hfl Hn Hwait Hwant Har) as (s2 & [] & E & Hs & Ho & _).
  exists s2. split; [exact E|]. unfold asked in Hs. rewrite decide_False in Hs by lia. done.
Qed.
End Exchange.

Definition demo_downloader : xlio_stream := demo_stream IOSTREAM_TYPE_DOWNLOAD demo_dir 1.
Definition demo_offer (size : Z) : list (list Z * value) := offer_fields size [VObj (entry_fields (mkentry [97] size) no_md5)].

Lemma demo_waiting : waiting demo_dir 7 9 demo_own [] (demo_store demo_downloader [] ∅).
Proof. exists demo_downloader. do 6 (split; [done|]). split; [done|]. apply demo_lending. Qed.

Lemma demo_wanted size : 0 <= size < 2 ^ 62 ->
  wanted demo_dir [VObj (entry_fields (mkentry [97] size) no_md5)] [mkentry [97] size] (io_os (demo_store demo_downloader [] ∅)).
Proof.
  intros Hs. split; [| |done|simpl; lia|done|by repeat constructor|done].
  - constructor; [|done]. eexists _, _. split; [done|]. split; [done|]. split; [done|]. apply Forall_replicate. unfold is_byte. lia.
  - constructor; [|done]. split; [by repeat constructor|]. simpl. lia.
Qed.

Lemma demo_offered size : arrived 7 9 demo_own [] (demo_offer size) 5 (demo_store demo_downloader [] ∅) (demo_store demo_downloader (demo_offer size) ∅).
Proof.
  apply demo_arrived. assert (H : length (enc_fields (demo_offer size)) = 178%nat) by done. rewrite H. unfold MSGBUF_SIZE. lia.
Qed.

Lemma offer_is_requested_witness : exists s2 m,
  io_turn (fun _ => None) (fun _ _ => None) (fun _ => true) 0 5 (demo_store demo_downloader (demo_offer 3) ∅) = Some (s2, Some tt)
  /\ sends 7 9 (demo_store demo_downloader (demo_offer 3) ∅) s2 [demo_request]
  /\ awaiting demo_dir 7 9 demo_own [m] 3 0 [demo_entry] ∅ (mkcur None 0 [demo_entry]) s2.
Proof.
  destruct (offer_is_requested (fun _ => None) demo_dir (fun _ _ => None) (fun _ => true) 0 7 9 demo_own [] 3
    _ _ _ _ 5 ltac:(simpl; lia) ltac:(lia) demo_waiting (demo_wanted 3 ltac:(lia)) ltac:(simpl; lia) (demo_offered 3))
    as (s2 & m & H1 & H2 & _ & H3). exists s2, m. split; [exact H1|]. split; [exact H2|exact H3].
Defined.

Lemma empty_files_lost_witness : exists s2,
  io_turn (fun _ => None) (fun _ _ => None) (fun _ => true) 0 5 (demo_store demo_downloader (demo_offer 0) ∅) = Some (s2, Some tt)
  /\ MemFs.m_disk (io_os s2) = ∅.
Proof.
  destruct (empty_files_lost (fun _ => None) demo_dir (fun _ _ => None) (fun _ => true) 0 7 9 demo_own [] 0
    _ _ _ _ 5 ltac:(simpl; lia) ltac:(lia) demo_waiting (demo_wanted 0 ltac:(lia)) eq_refl (demo_offered 0))
    as (s2 & H1 & _ & H2). exists s2. split; [exact H1|]. by rewrite H2.
Defined.
