(* ===== verification/Offer.v ===== *)
(** * Offering a single file

    When the peer asks for a list, an uploader of a single file offers it once,
    and afterwards nothing, with which the downloader ends the connection. *)

From stdpp Require Import gmap.
From S2P Require Import Prelude Bytes Xline Lines Channel Messenger Files Xlio XlioRun Transfer Lending Upload StoreDemo UploadRun Download FileCopy Exchange.

#[local] Open Scope Z_scope.
#[local] Arguments __xl_n2b _ _ : simpl never.
#[local] Arguments enc _ : simpl never.

Definition single (name : list Z) (size : Z) : value := VObj (entry_fields (mkentry name size) no_md5).

Lemma single_entry name size : is_entry (mkentry name size) (single name size).
Proof.
  eexists _, _. split; [done|]. split; [done|]. split; [done|]. apply Forall_replicate. unfold is_byte. lia.
Qed.

Section Offer.
Context {W : Type} `{Uv W} (malloc : Z -> option xframe).

Lemma runs_gen_list (s : io W) p m f name size g st w a Q :
  g_frames g !! m = Some f -> frame_ok f -> f_wpos f + Z.of_nat (length (enc_key k_list ++ enc (VList [single name size]))) <= f_size f ->
  read_key (s_uri st) (s_src_name_pos st) = Some name -> s_file_size st = size ->
  (forall f', wrote f f' (enc_key k_list ++ enc (VList [single name size])) -> f_line f' = __xl_n2b (f_wpos f') XLINE_TYPE_OBJ ->
    Q (foc s p (with_frame_at m f' g) (st <| s_file_size := 0 |>) w a) tt) ->
  runs (xlio_gen_list malloc p m) (foc s p g st w a) Q.
Proof using Type.
  intros Hm Hf Hroom Hname Hsize HQ. pose proof (entry_line_length _ _ (single_entry name size)) as Hvl. cbn [e_path] in Hvl.
  rewrite length_app, list_length in Hroom. cbn [map concat] in Hroom. rewrite app_nil_r, Hvl in Hroom.
  pose proof (enc_key_length k_list) as Hkl. cbn [length k_list] in Hkl.
  destruct (begin_fits malloc (Some k_list) f) as (f1 & j1 & E1 & J1 & W1);
    [done|intros ? [= <-]; simpl; lia|cbn [kenc]; lia|].
  pose proof (wrote_wpos _ _ _ W1) as P1. pose proof (wrote_size _ _ _ W1) as S1. rewrite length_app, J1 in P1. cbn [kenc] in P1.
  destruct (begin_fits malloc None f1) as (f2 & j2 & E2 & J2 & W2); [by eapply wrote_ok|done|cbn [kenc length]; lia|].
  pose proof (wrote_wpos _ _ _ W2) as P2. pose proof (wrote_size _ _ _ W2) as S2. rewrite length_app, J2 in P2. cbn [kenc length] in P2.
  destruct (add_word_fits malloc k_path name f2) as (f3 & E3 & W3 & _);
    [by eapply wrote_ok|simpl; lia|rewrite field_length, str_length, length_app; cbn [length k_path]; lia|].
  pose proof (wrote_wpos _ _ _ W3) as P3. pose proof (wrote_size _ _ _ W3) as S3.
  rewrite field_length, str_length, length_app in P3. cbn [length k_path] in P3.
  destruct (add_int_fits malloc k_type 1 f3) as (f4 & E4 & W4 & _);
    [by eapply wrote_ok|simpl; lia|rewrite field_length, int_length; cbn [length k_type]; lia|].
  pose proof (wrote_wpos _ _ _ W4) as P4. pose proof (wrote_size _ _ _ W4) as S4. rewrite field_length, int_length in P4. cbn [length k_type] in P4.
  destruct (add_uint_fits malloc k_size size f4) as (f5 & E5 & W5 & _);
    [by eapply wrote_ok|simpl; lia|rewrite field_length, uint_length; cbn [length k_size]; lia|].
  pose proof (wrote_wpos _ _ _ W5) as P5. pose proof (wrote_size _ _ _ W5) as S5. rewrite field_length, uint_length in P5. cbn [length k_size] in P5.
  destruct (add_bin_some_fits malloc k_md5 no_md5 f5) as (f6 & E6 & W6 & _);
    [by eapply wrote_ok|simpl; lia|rewrite field_length, bin_length; cbn [length k_md5]; change (length no_md5) with 64%nat; lia|].
  destruct (obj_end_fits f1 f2 f6 j2 [] (entry_fields (mkentry name size) no_md5)) as (f7 & E7 & W7); [by eapply wrote_ok|exact W2|done| |].
  { unfold entry_fields. rewrite !enc_fields_cons, enc_fields_nil, app_nil_r.
    eapply wrote_app; [exact W3|]. eapply wrote_app; [exact W4|]. by eapply wrote_app. }
  destruct (list_end_fits f f1 f7 j1 (enc_key k_list) [single name size]) as (f8 & E8 & W8 & L8); [done|exact W1|done| |].
  { cbn [map concat]. rewrite app_nil_r. exact W7. }
  unfold xlio_gen_list. apply run_bind. eapply runs_add; [exact Hm|exact E1|pose proof (wrote_ok _ _ _ W1) as (? & _ & ?); unfold XEOF; lia|].
  apply run_bind. eapply runs_add; [apply at_frame|exact E2|pose proof (wrote_ok _ _ _ W2) as (? & _ & ?); unfold XEOF; lia|]. rewrite with_frame_at_twice.
  apply run_bind, runs_stream, run_bind. eapply runs_lift; [exact Hname|]. rewrite Hsize.
  apply run_bind. eapply runs_add; [apply at_frame|exact E3|by eapply wrote_not_eof|]. rewrite with_frame_at_twice.
  apply run_bind. eapply runs_add; [apply at_frame|exact E4|by eapply wrote_not_eof|]. rewrite with_frame_at_twice.
  apply run_bind. eapply runs_add; [apply at_frame|exact E5|by eapply wrote_not_eof|]. rewrite with_frame_at_twice.
  apply run_bind. eapply runs_add; [apply at_frame|exact E6|by eapply wrote_not_eof|]. rewrite with_frame_at_twice.
  apply run_bind. eapply runs_on_frame; [apply at_frame|exact E7|]. rewrite with_frame_at_twice.
  apply run_bind. eapply runs_on_frame; [apply at_frame|exact E8|]. rewrite with_frame_at_twice.
  apply runs_upd. by apply HQ.
Qed.

Lemma runs_empty_list (s : io W) p m f g st w a Q :
  g_frames g !! m = Some f -> frame_ok f -> f_wpos f + 15 <= f_size f ->
  (forall f', wrote f f' (enc_key k_list ++ enc (VList [])) -> Q (foc s p (with_frame_at m f' g) st w a) tt) ->
  runs (begin ← on_frame m (xl_list_begin malloc (Some k_list)); add m (xl_list_end begin);; mret tt) (foc s p g st w a) Q.
Proof using Type.
  intros Hm Hf Hroom HQ. pose proof (enc_key_length k_list) as Hkl. cbn [length k_list] in Hkl.
  destruct (begin_fits malloc (Some k_list) f) as (f1 & j1 & E1 & J1 & W1); [done|intros ? [= <-]; simpl; lia|cbn [kenc]; lia|].
  destruct (list_end_fits f f1 f1 j1 (enc_key k_list) [] Hf W1 J1 (wrote_nil _ (wrote_ok _ _ _ W1))) as (f2 & E2 & W2 & _).
  pose proof (wrote_ok _ _ _ W1) as (? & _ & ?).
  apply run_bind. eapply runs_on_frame; [exact Hm|exact E1|].
  apply run_bind. eapply runs_add; [apply at_frame|exact E2|unfold XEOF; lia|]. rewrite with_frame_at_twice.
  apply runs_ret. by apply HQ.
Qed.

(** A message in a frame that had no content goes out, and the frame with it. *)
Lemma runs_send_wrote (s : io W) p m c fq own fl f f2 i b fs g st w a Q :
  fresh_frame f -> wrote (f <| f_id := i |>) f2 (enc_fields fs) -> s_channel st = Some c -> queue p c fq g -> (length fq < 8)%nat ->
  (forall f', frame_ok f' -> f_size f' = MSGBUF_SIZE -> f_type f' = XPACK_TYPE_MSG -> f_id f' = i ->
     lending own (fl ++ [m]) b (<[m := f']> (g_frames g))) ->
  (forall g' f3, g_frames g' = <[m := f3]> (g_frames g) -> queue p c (fq ++ [m]) g' -> content f3 = enc_fields fs ->
    f_type f3 = XPACK_TYPE_MSG -> lending own (fl ++ [m]) b (g_frames g') -> Q (foc s p g' st w a) tt) ->
  runs (send p m XPACK_TYPE_MSG) (foc s p (with_frame_at m f2 g) st w a) Q.
Proof using Type.
  intros Hf W2 Hch Hq Hfq Hput HQ. eapply (runs_send _ _ _ _ f2 c fq); [apply at_frame|exact Hch|by apply queue_frame|done|].
  intros g' [Hq' Hg']. assert (Hg2 : g_frames g' = <[m := xmsg_fixed (f2 <| f_type := XPACK_TYPE_MSG |>)]> (g_frames g)).
  { rewrite Hg'. unfold with_frame_at. simpl. apply insert_insert_eq. }
  destruct (sent_frame f f2 i _ Hf W2) as (X1 & X2 & X3 & X4). pose proof Hf as (_ & _ & Hw).
  eapply HQ; [exact Hg2|done|by eapply (fresh_content (f <| f_id := i |>))|done|rewrite Hg2; by apply Hput].
Qed.

(** What the uploader of a single file, or of none any more, answers. *)
Definition offered (name : list Z) (size : Z) : list (list Z * value) :=
  if decide (size > 0) then offer_fields size [single name size] else [(k_api, VInt XLIO_STREAM_RES_LIST); (k_list, VList [])].

Lemma runs_res_list new_frame scan_fuel (s : io W) p c name own fl fq g st w a Q :
  s_scanner st = None -> 0 <= s_file_size st -> read_key (s_uri st) (s_src_name_pos st) = Some name -> (length name <= 4096)%nat ->
  s_channel st = Some c -> lending own fl (s_buf st) (g_frames g) -> (length fl < 4)%nat ->
  queue p c fq g -> (length fq <= length fl)%nat ->
  (forall m f b g', m ∈ own -> g_frames g' = <[m := f]> (g_frames g) -> queue p c (fq ++ [m]) g' ->
    content f = enc_fields (offered name (s_file_size st)) -> f_type f = XPACK_TYPE_MSG -> lending own (fl ++ [m]) b (g_frames g') ->
    Q (foc s p g' (st <| s_buf := b |> <| s_file_size := 0 |>) w a) tt) ->
  runs (res_list malloc new_frame scan_fuel p) (foc s p g st w a) Q.
Proof using Type.
  intros Hscan Hsz Hname Hnl Hch Hlend Hfl Hq Hfq HQ.
  unfold res_list. eapply runs_with_frame; [exact Hlend|done|].
  intros m f b Hm Hin Hf Hfresh Hput. pose proof Hfresh as (Hfok & Hfs & Hw0). set (i := slot (r_rpos (s_buf st)) (s_buf st)) in *.
  unfold MSGBUF_SIZE in Hfs. set (f0 := f <| f_id := i |>).
  destruct (add_int_fits malloc k_api XLIO_STREAM_RES_LIST f0) as (f1 & E1 & W1 & _);
    [done|simpl; lia|change (f_wpos f + Z.of_nat (length (enc_key k_api ++ enc (VInt XLIO_STREAM_RES_LIST))) <= f_size f); rewrite field_length, int_length; simpl; lia|].
  pose proof (wrote_wpos _ _ _ W1) as P1. pose proof (wrote_size _ _ _ W1) as S1. rewrite field_length, int_length in P1. simpl in P1, S1.
  apply run_bind. eapply runs_add; [apply at_frame|exact E1|by eapply wrote_not_eof|]. rewrite with_frame_at_twice.
  apply run_bind, runs_stream. change (s_scanner (st <| s_buf := b |>)) with (s_scanner st). rewrite Hscan.
  change (s_file_size (st <| s_buf := b |>)) with (s_file_size st).
  assert (Hsend : forall f2 st2, wrote f0 f2 (enc_fields (offered name (s_file_size st))) -> s_channel st2 = Some c ->
    st2 = st <| s_buf := b |> <| s_file_size := 0 |> -> runs (send p m XPACK_TYPE_MSG) (foc s p (with_frame_at m f2 g) st2 w a) Q).
  { intros f2 st2 W2 Hch2 ->. eapply (runs_send_wrote _ _ _ c fq own fl f f2 i b); try done; [lia|].
    intros g' f3 H1 H2 H3 H4 H5. by eapply HQ. }
  unfold offered in Hsend, HQ. apply run_bind. case_decide as Hpos.
  - destruct (add_uint_fits malloc k_size (s_file_size st) f1) as (f2 & E2 & W2 & _);
      [by eapply wrote_ok|simpl; lia|rewrite field_length, uint_length; simpl; lia|].
    pose proof (wrote_wpos _ _ _ W2) as P2. pose proof (wrote_size _ _ _ W2) as S2. rewrite field_length, uint_length in P2. simpl in P2.
    apply run_bind. eapply runs_add; [apply at_frame|exact E2|by eapply wrote_not_eof|]. rewrite with_frame_at_twice.
    eapply (runs_gen_list _ _ _ f2 name (s_file_size st)); [apply at_frame|by eapply wrote_ok| |exact Hname|done|].
    { pose proof (entry_line_length _ _ (single_entry name (s_file_size st))) as Hvl. cbn [e_path] in Hvl.
      rewrite field_length, list_length. cbn [map concat]. rewrite app_nil_r, Hvl. cbn [length k_list]. lia. }
    intros f3 W3 _. rewrite with_frame_at_twice. apply Hsend; [|exact Hch|done].
    unfold offer_fields. rewrite !enc_fields_cons, enc_fields_nil, app_nil_r.
    eapply wrote_app; [exact W1|]. by eapply wrote_app.
  - eapply (runs_empty_list _ _ _ f1); [apply at_frame|by eapply wrote_ok|lia|].
    intros f2 W2. rewrite with_frame_at_twice. apply Hsend; [|exact Hch|].
    + rewrite !enc_fields_cons, enc_fields_nil, app_nil_r. by eapply wrote_app.
    + destruct st. cbn in Hpos, Hsz. cbn. f_equal. lia.
Qed.

Context (new_frame : io W -> Z -> option (positive * xframe)) (sent : io W -> bool) (scan_fuel : nat).
Abbreviation turn := (io_turn malloc new_frame sent scan_fuel).

Lemma request_doc_ok : doc_ok request_next.
Proof using Type.
  split; [|apply (bool_decide_unpack (NoDup [k_api])); by vm_compute].
  constructor; [|done]. split; [repeat constructor; simpl; lia|cbn; unfold XLIO_STREAM_REQ_LIST; lia].
Qed.

(** The turn of an uploader of a single file that is asked for a list. *)
Lemma single_offer s s1 p c own fl u st name :
  io_streams s !! p = Some st -> s_scanner st = None -> 0 <= s_file_size st ->
  read_key (s_uri st) (s_src_name_pos st) = Some name -> (length name <= 4096)%nat -> s_channel st = Some c ->
  lending own fl (s_buf st) (g_frames (io_ms s)) -> (length fl < 4)%nat -> arrived p c own fl request_next u s s1 ->
  exists s2 b m, turn u s1 = Some (s2, Some tt) /\ sends p c s1 s2 [offered name (s_file_size st)]
    /\ io_os s2 = io_os s /\ io_streams s2 !! p = Some (st <| s_api := XLIO_STREAM_REQ_LIST |> <| s_buf := b |> <| s_file_size := 0 |>)
    /\ lending own (fl ++ [m]) b (g_frames (io_ms s2)).
Proof using Type.
  intros Hst Hscan Hsz Hname Hnl Hch Hlend Hfl [Hs Ho Hnu (x & Hx & Hxf & Hxc) (fq & Hq & Hfq) (fu & Hu & Hmsg & Hty & Href & Hw) Hfr].
  rewrite <- Hs in Hst. pose proof (lending_untouched _ _ _ _ _ Hlend Hfr) as Hlend1.
  pose proof (lending_readable _ _ _ _ Hlend1) as Hread.
  assert (Hrun : runs (turn u) s1 (fun s2 _ => exists b m, sends p c s1 s2 [offered name (s_file_size st)]
    /\ io_os s2 = io_os s /\ io_streams s2 !! p = Some (st <| s_api := XLIO_STREAM_REQ_LIST |> <| s_buf := b |> <| s_file_size := 0 |>)
    /\ lending own (fl ++ [m]) b (g_frames (io_ms s2)))).
  - eapply runs_recv_turn; [done..|exact Hq|lia|].
    eapply runs_recv_frame; [exact Hu|exact Hmsg|apply request_doc_ok|by left|]. intros k ps _. rewrite decide_True by done.
    eapply (runs_res_list _ _ _ _ c name own fl fq); try done.
    intros m f b g' Hin Hg' Hq' Hc Hmt Hl'. assert (Hmu : m ≠ u) by (intros ->; done).
    eapply runs_free_last; [rewrite Hg', lookup_insert_ne by done; exact Hu|done|].
    exists b, m. split; [|split; [done|split; [apply lookup_insert_eq|by apply lending_freed]]].
    exists fq, [m]. split; [done|]. split; [by apply queue_frames|]. constructor; [|done]. exists f. split; [|done]. cbn.
    rewrite lookup_delete_ne by done. by rewrite Hg', lookup_insert_eq.
  - destruct Hrun as (s2 & [] & E & b & m & H1). by exists s2, b, m.
Qed.

End Offer.

Definition demo_single : xlio_stream := demo_stream IOSTREAM_TYPE_UPLOAD demo_uri 1 <| s_file_size := 3 |>.

