(* ===== verification/Xltp.v ===== *)
(** * The transfer protocol of [xnet/xltp.c]

    The protocol has a thread of its own, fed by a pipe of messages: the
    callbacks of the messenger put in what arrives, what comes back and what
    times out, and the clients ([xltp_echo], [xltp_put], [xltp_get]) put in
    messages with a callback to run.  A request is dispatched by its ["api"] in
    a prefix tree; the handlers of ["put"] and ["get"] start a stream of the
    file store, and from then on the messages of the channel go to the store.

    A handler is a computation on the state of the file store and the
    messenger, as in [Xlio]; [xltp] adds the tree and the pipe.  A fault is
    [None], a handler that returns -1 [Some (s, None)]. *)

From stdpp Require Import gmap.
From S2P Require Import Prelude Bytes Xline Lines Xformat Xtree Channel Messenger Files Xlio.

#[local] Open Scope Z_scope.

(** ** Data *)

(** The keys and the names of the calls, as bytes. *)
Definition n_echo : list Z := [101; 99; 104; 111].
Definition n_boot : list Z := [98; 111; 111; 116].
Definition n_put : list Z := [112; 117; 116].
Definition n_get : list Z := [103; 101; 116].
Definition k_code : list Z := [99; 111; 100; 101].
Definition k_ip : list Z := [105; 112].
Definition k_port : list Z := [112; 111; 114; 116].
Definition k_test : list Z := [116; 101; 115; 116].
Definition k_uuid : list Z := [117; 117; 105; 100].

(** The handlers of requests; the tree holds their addresses. *)
Inductive api := api_echo | api_boot | api_put | api_get.

Definition address_of (a : api) : Z := match a with api_echo => 1 | api_boot => 2 | api_put => 3 | api_get => 4 end.
Definition api_at (z : Z) : option api :=
  if decide (z = 1) then Some api_echo else if decide (z = 2) then Some api_boot
  else if decide (z = 3) then Some api_put else if decide (z = 4) then Some api_get else None.

(** A message in the pipe: a frame, or the one that is part of a channel, which
    only says that the channel has timed out. *)
Inductive pmsg := Frame (m : positive) | TimedOut (c : positive).

Record xltp (W : Type) := mkxltp { lt_io : io W; lt_tree : store; lt_api : option positive; lt_pipe : list pmsg }.
Arguments mkxltp {W}. Arguments lt_io {W}. Arguments lt_tree {W}. Arguments lt_api {W}. Arguments lt_pipe {W}.

#[export] Instance eta_xltp {W} : Settable (xltp W) := fun r => mkxltp (lt_io r) (lt_tree r) (lt_api r) (lt_pipe r).

(** Computations of the clients and the thread. *)
Definition L (W A : Type) : Type := xltp W -> option (xltp W * option A).

#[export] Instance L_ret {W} : MRet (L W) := fun A a s => Some (s, Some a).
#[export] Instance L_bind {W} : MBind (L W) := fun A B k m s =>
  match m s with
  | Some (s, Some a) => k a s
  | Some (s, None) => Some (s, None)
  | None => None
  end.

Section Basics.
Context {W : Type}.

(** A computation of the file store. *)
Definition within {A} (m : M W A) : L W A := fun s =>
  match m (lt_io s) with Some (i, r) => Some (s <| lt_io := i |>, r) | None => None end.

(** The code at [XClean]. *)
Definition l_clean {A} (m : L W A) (h : L W A) : L W A := fun s =>
  match m s with Some (s, None) => h s | r => r end.
Definition l_fail {A} : L W A := fun s => Some (s, None).

(** The arguments of a frame that has not been freed. *)
Definition args_of (m : positive) : M W margs := frame m;; args m.

Definition channel_of (m : positive) : M W positive := a ← args_of m; lift (a_channel a).
Definition ctx_of_channel (c : positive) : M W (option Z) := on_ms (fun g => x ← xchannel_get_ctx c g; Some (g, x)).
Definition req_of_channel (c : positive) : M W (option positive) := on_ms (fun g => x ← xchannel_get_req c g; Some (g, x)).

Definition free_if (m : option positive) : M W unit :=
  match m with None => mret tt | Some m => free_ptr m;; mret tt end.

(** A call of a builder whose result is not looked at. *)
Definition add_any (m : positive) (f : xframe -> option (xframe * Z)) : M W unit := on_frame m f;; mret tt.
End Basics.

Section Xltp.
Context {W : Type} `{Uv W}.

(** What lies outside: memory, as in [Xlio]; whether the pipe of the store, the
    pipe of the protocol and the local socket take what is written; the numbers
    that [%lf] prints; bytes that are not initialised; the text and the port of
    an address, and the address of a host. *)
Context (malloc : Z -> option xframe) (new_frame : io W -> Z -> option (positive * xframe))
  (new_stream : io W -> option positive) (pipe_ok ltp_ok sent : io W -> bool)
  (show_double : Z -> list Z) (junk : Z -> list Z)
  (addr_ip : addr -> list Z) (addr_port : addr -> Z) (host_to_addr : list Z -> Z -> option addr).

(** ** The pipe, and the callbacks of the messenger *)

Definition write_msg (p : pmsg) : L W unit := fun s =>
  if ltp_ok (lt_io s) then Some (s <| lt_pipe := lt_pipe s ++ [p] |>, Some tt) else Some (s, None).

(** The [flag] and the channel, and into the pipe. *)
Definition pass_on (flag : Z) (channel msg : positive) : L W unit :=
  within (set_args msg (fun a => a <| a_flag := flag |> <| a_channel := Some channel |>));;
  l_clean (write_msg (Frame msg)) (within (free_ptr msg);; l_fail).

Definition on_message_to_peer (channel msg : positive) : L W unit := pass_on XMSG_FLAG_BACK channel msg.

(** The frame has been made by the channel, which has set the address. *)
Definition on_message_from_peer (channel msg : positive) : L W unit :=
  within (
    frame msg;;
    c ← on_ms (fun g => c ← g_chans g !! channel; Some (g, c));
    modify (fun s => s <| io_args := <[msg := mkargs 0 None None (Some (x_addr c)) None]> (io_args s) |>));;
  pass_on XMSG_FLAG_RECV channel msg.

(** The frame of the channel has no reference that [xl_free] could give up. *)
Definition on_message_timedout (channel : positive) : L W unit := write_msg (TimedOut channel).

(** ** Sending *)

(** A command for the messenger; the result is not looked at.  The messenger
    reads the address later, but nothing changes it in between. *)
Definition send_command (m : positive) (ipaddr : addr) : M W unit := fun s =>
  f ← g_frames (io_ms s) !! m;
  a ← io_args s !! m;
  match (xmsger_connect (Some 1%positive) (Some m) f ipaddr (a_channel a) (sent s)).1 with
  | Some cmd => Some (s <| io_cmds := io_cmds s ++ [cmd] |>, Some tt)
  | None => Some (s, Some tt)
  end.

Definition set_type (m : positive) (type : Z) : M W unit := on_frame m (fun f => Some (f <| f_type := type |>, tt)).

Definition xltp_send_req (msg : positive) : M W unit :=
  set_type msg XPACK_TYPE_REQ;;
  a ← args_of msg;
  ip ← lift (a_ipaddr a);
  send_command msg ip.

Definition xltp_send_msg (msg : positive) : M W unit :=
  set_type msg XPACK_TYPE_MSG;;
  a ← args_of msg;
  match a_channel a with
  | None => mret tt
  | Some c => on_ms (on_channel c (xmsger_send msg));; mret tt
  end.

Definition xltp_send_res (msg : positive) : M W unit :=
  set_type msg XPACK_TYPE_RES;;
  a ← args_of msg;
  send_command msg (default no_addr (a_ipaddr a)).

(** [xmsger_flush], checked. *)
Definition flush_checked (c : positive) : M W unit := fun s =>
  match xmsger_flush (Some 1%positive) (Some c) (sent s) with
  | (Some cmd, _) => Some (s <| io_cmds := io_cmds s ++ [cmd] |>, Some tt)
  | (None, _) => Some (s, None)
  end.

(** [xl_printf] on the document of a frame; what goes to the log is dropped. *)
Definition print_frame (m : positive) : M W unit :=
  frame m;; mem ← region m; lift (xl_printf show_double mem 0);; mret tt.

Definition clear_frame (m : positive) : M W unit := on_frame m (fun f => Some (xl_clear f, tt)).

(** ** The test document of [xline.h] *)

Definition w_hello : list Z := [104; 101; 108; 108; 111].
Definition w_hello_word : list Z := w_hello ++ [32; 119; 111; 114; 100].
Definition w_hello_string : list Z := w_hello ++ [32; 115; 116; 114; 105; 110; 103].
Definition k_word : list Z := [119; 111; 114; 100].
Definition k_str : list Z := [115; 116; 114].
Definition k_bin : list Z := [98; 105; 110].
Definition k_int : list Z := [105; 110; 116].
Definition k_uint : list Z := [117; 105; 110; 116].
Definition k_float : list Z := [102; 108; 111; 97; 116].
Definition k_count : list Z := [99; 111; 117; 110; 116].
Definition k_obj : list Z := [111; 98; 106].
Definition k_addobj : list Z := [97; 100; 100; 111; 98; 106].
Definition k_addlist : list Z := [97; 100; 100; 108; 105; 115; 116].
Definition k_strlist : list Z := [115; 116; 114; 108; 105; 115; 116].

(** 123456789.123, and [i * 0.1f] for the [i] below 10, as bits. *)
Definition test_double : Z := 0x419D6F34547DF3B6.
Definition test_tenths : list Z :=
  [0; 0x3FB99999A0000000; 0x3FC99999A0000000; 0x3FD3333340000000; 0x3FD99999A0000000; 0x3FE0000000000000;
   0x3FE3333340000000; 0x3FE6666660000000; 0x3FE99999A0000000; 0x3FECCCCCE0000000].

(** The fields that all its objects have. *)
Definition test_fields (m : positive) : M W unit :=
  add_any m (xl_add_word malloc k_word w_hello_word);;
  add_any m (xl_add_str malloc k_str (w_hello_string ++ [0]) (Z.of_nat (length w_hello_string) + 1));;
  add_any m (xl_add_bin malloc k_bin (Some (junk 1024)) 1024);;
  add_any m (xl_add_int malloc k_int (-123456789));;
  add_any m (xl_add_uint malloc k_uint 123456789);;
  add_any m (xl_add_float malloc k_float test_double).

Fixpoint test_objects (n : nat) (m : positive) : M W unit :=
  match n with
  | O => mret tt
  | S n =>
      tmp_pos ← on_frame m (xl_obj_begin malloc None);
      test_fields m;;
      on_frame m (xl_obj_end tmp_pos);;
      test_objects n m
  end.

(** [xl_list_add] for each of the lines. *)
Fixpoint add_lines (l : list (list Z)) (m : positive) : M W unit :=
  match l with [] => mret tt | x :: l => add_any m (xl_list_add malloc x);; add_lines l m end.

Definition add_document (m : positive) (key : list Z) (from : positive) : M W unit :=
  mem ← region from; add_any m (xl_add_obj malloc key mem).

Definition maker : M W positive := make_frame new_frame XLINE_MAKER_SIZE.

(** A frame that cannot be had is used all the same. *)
Definition sure {A} (m : M W A) : M W A := fun s => match m s with Some (_, None) => None | r => r end.

Definition xl_test (count : Z) : M W positive :=
  root ← sure maker;
  add_any root (xl_add_word malloc k_api k_test);;
  add_any root (xl_add_int malloc k_count count);;
  test_fields root;;
  obj_pos ← on_frame root (xl_obj_begin malloc (Some k_obj));
  test_fields root;;
  on_frame root (xl_obj_end obj_pos);;
  list_pos ← on_frame root (xl_list_begin malloc (Some k_list));
  test_objects 3 root;;
  on_frame root (xl_list_end list_pos);;
  xobj ← sure maker;
  test_fields xobj;;
  add_document root k_addobj xobj;;
  xlist ← sure maker;
  add_lines (map (fun d => __xl_n2b d XLINE_TYPE_REAL) test_tenths) xlist;;
  add_document root k_addlist xlist;;
  xstrlist ← sure maker;
  add_lines (replicate 10 (__xl_n2b (Z.of_nat (length w_hello) + 1) XLINE_TYPE_STR ++ w_hello ++ replicate 50 0)) xstrlist;;
  add_document root k_strlist xstrlist;;
  free_ptr xstrlist;; free_ptr xobj;; free_ptr xlist;;
  mret root.

Definition add_test (msg : positive) : M W unit :=
  test ← xl_test 10; add_document msg k_test test;; free_ptr test;; mret tt.

(** ** The calls: echo and boot *)

(** The address of the peer goes into the answer. *)
Definition add_address (msg : positive) : M W unit :=
  a ← args_of msg;
  peer ← lift (a_ipaddr a);
  add msg (xl_add_word malloc k_ip (addr_ip peer));;
  add msg (xl_add_uint malloc k_port (addr_port peer));;
  mret tt.

Definition serve_echo (msg : positive) : M W unit :=
  print_frame msg;;
  clear_frame msg;;
  add_address msg;;
  add_test msg;;
  add_any msg (xl_add_uint malloc k_code 200);;
  xltp_send_res msg.

Definition res_echo (res : positive) : M W unit := print_frame res;; free_ptr res;; mret tt.

Definition req_echo (msg : positive) : M W unit :=
  clear_frame msg;;
  add_any msg (xl_add_word malloc k_api n_echo);;
  set_args msg (fun a => a <| a_cb := Some cb_res_echo |>);;
  add_test msg;;
  xltp_send_req msg.

(** The identifier is a buffer that is not initialised. *)
Definition serve_boot (msg : positive) : M W unit :=
  clean (
    print_frame msg;;
    clear_frame msg;;
    set_args msg (fun a => a <| a_ctx := None |>);;
    add_address msg;;
    add msg (xl_add_bin malloc k_uuid (Some (junk 32)) 32);;
    add msg (xl_add_uint malloc k_code 200);;
    xltp_send_res msg)
    (free_ptr msg;; fail).

Definition res_boot (res : positive) : M W unit := print_frame res;; free_ptr res;; mret tt.

Definition boot_host : list Z := [120; 108; 116; 112; 46; 110; 101; 116].

Definition req_boot (msg : positive) : M W unit :=
  clear_frame msg;;
  add_any msg (xl_add_word malloc k_api n_boot);;
  set_args msg (fun a => a <| a_cb := Some cb_res_boot |>);;
  set_args msg (fun a => a <| a_ipaddr := host_to_addr boot_host 9256 |>);;
  add_test msg;;
  xltp_send_req msg.

(** ** The calls: put and get *)

(** A request that is refused: its frame becomes the answer. *)
Definition refuse (req : positive) : M W unit :=
  clear_frame req;;
  add_any req (xl_add_uint malloc k_code 400);;
  xltp_send_res req;;
  fail.

Definition serve_put (req : positive) : M W unit :=
  clean (xlio_start_downloader malloc new_frame new_stream pipe_ok sent req true) (refuse req).

Definition serve_get (req : positive) : M W unit :=
  clean (xlio_start_uploader malloc new_frame new_stream sent req true) (refuse req).

(** At [XClean] of the two handlers of answers: the answer, the request and the
    message of the client are freed as far as they are known. *)
Definition drop_all (res : positive) (req msg : option positive) : M W unit :=
  free_ptr res;; free_if req;; free_if msg;; fail.

(** The stream is started with the message of the client, which the request
    has as its context. *)
Definition answered (res : positive) (start : positive -> M W unit) : M W unit :=
  c ← channel_of res;
  req ← req_of_channel c;
  match req with
  | None => drop_all res None None
  | Some q =>
      a ← args_of q;
      match a_ctx a with
      | None => drop_all res (Some q) None
      | Some m =>
          clean (set_args m (fun a => a <| a_channel := Some c |>);; start m;; free_ptr res;; mret tt)
            (drop_all res (Some q) (Some m))
      end
  end.

Definition res_put (res : positive) : M W unit :=
  print_frame res;; answered res (fun m => xlio_start_uploader malloc new_frame new_stream sent m false).

Definition res_get (res : positive) : M W unit :=
  print_frame res;; answered res (fun m => xlio_start_downloader malloc new_frame new_stream pipe_ok sent m false).

(** The text that a frame has under a key. *)
Definition word_at (m : positive) (key : list Z) : M W (option (list Z)) :=
  mem ← region m;
  ps ← lift (xl_parser mem 0);
  '(ps, o) ← lift (xl_find ps key);
  match o with None => mret None | Some o => w ← text ps o; mret (Some w) end.

(** A request for the channel to be opened, with the message of the client as
    its context. *)
Definition make_request (req msg : positive) (cb : callback) : M W unit :=
  set_args req (fun a => a <| a_cb := Some cb |>);;
  set_args req (fun a => a <| a_ctx := Some msg |>);;
  a ← args_of msg;
  set_args req (fun b => b <| a_ipaddr := a_ipaddr a |>).

Definition req_put (msg : positive) : M W unit :=
  path ← word_at msg k_path;
  match path with
  | None => free_ptr msg;; fail
  | Some path =>
      req ← optional maker;
      match req with
      | None => free_ptr msg;; fail
      | Some req =>
          clean (
            make_request req msg cb_res_put;;
            add req (xl_add_word malloc k_api n_put);;
            add req (xl_add_word malloc k_path path);;
            xltp_send_req req)
            (free_ptr req;; free_ptr msg;; fail)
      end
  end.

(** [uri] is not initialised: without the key the check for [NULL] reads an
    arbitrary pointer. *)
Definition req_get (msg : positive) : M W unit :=
  uri ← word_at msg k_uri;
  uri ← lift uri;
  req ← optional maker;
  match req with
  | None => free_ptr msg;; fail
  | Some req =>
      add_any req (xl_add_word malloc k_api n_get);;
      make_request req msg cb_res_get;;
      add_any req (xl_add_word malloc k_uri uri);;
      clean (xltp_send_req req) (free_ptr req;; free_ptr msg;; fail)
  end.

(** ** The clients *)

Definition post_message (cb : callback) (ipaddr : option addr) (fill : positive -> M W unit) : L W positive :=
  msg ← within maker;
  within (set_args msg (fun a => a <| a_flag := XMSG_FLAG_POST |> <| a_ipaddr := ipaddr |> <| a_cb := Some cb |>);; fill msg);;
  mret msg.

Definition write_or_free (msg : positive) : L W unit :=
  l_clean (write_msg (Frame msg)) (within (free_ptr msg);; l_fail).

Definition xltp_echo (ip : list Z) (port : Z) : L W unit :=
  msg ← post_message cb_req_echo (host_to_addr ip port) (fun _ => mret tt);
  write_or_free msg.

Definition xltp_bootstrap : L W unit :=
  msg ← post_message cb_req_boot None (fun _ => mret tt);
  write_or_free msg.

(** The message is not freed when the pipe does not take it. *)
Definition xltp_put (local_uri remote_path : list Z) (ipaddr : option addr) : L W unit :=
  msg ← post_message cb_req_put ipaddr (fun msg =>
    add_any msg (xl_add_word malloc k_uri local_uri);; add_any msg (xl_add_word malloc k_path remote_path));
  write_msg (Frame msg).

Definition xltp_get (local_path remote_uri : list Z) (ipaddr : option addr) (ctx : option positive) : L W unit :=
  msg ← post_message cb_req_get ipaddr (fun msg =>
    set_args msg (fun a => a <| a_ctx := ctx |>);;
    add_any msg (xl_add_word malloc k_path local_path);; add_any msg (xl_add_word malloc k_uri remote_uri));
  write_or_free msg.

(** ** The thread *)

Definition run_api (a : api) (msg : positive) : M W unit :=
  match a with api_echo => serve_echo msg | api_boot => serve_boot msg | api_put => serve_put msg | api_get => serve_get msg end.

(** The callbacks of messages; those of the store run in its own thread. *)
Definition run_cb (cb : callback) (msg : positive) : M W unit :=
  match cb with
  | cb_req_echo => req_echo msg | cb_res_echo => res_echo msg
  | cb_req_boot => req_boot msg | cb_res_boot => res_boot msg
  | cb_req_put => req_put msg | cb_res_put => res_put msg
  | cb_req_get => req_get msg | cb_res_get => res_get msg
  | _ => lift None
  end.

(** [lookup] is [xtree_find] in the tree of the calls. *)
Definition xltp_recv_req (lookup : list Z -> option (option Z)) (msg : positive) : M W unit :=
  api ← word_at msg k_api;
  api ← found api;
  cb ← lift (lookup api);
  cb ← found cb;
  cb ← lift (api_at cb);
  run_api cb msg.

Definition xltp_recv_msg (msg : positive) : M W unit :=
  c ← channel_of msg;
  req ← req_of_channel c;
  req ← found req;
  a ← args_of req;
  cb ← found (a_cb a);
  run_cb cb msg.

Definition xltp_recv_res (msg : positive) : M W unit :=
  c ← channel_of msg;
  f ← frame msg;
  consumed ← (if decide (f_wpos f > 0) then succeeds (xltp_recv_msg msg) else mret false);
  flush_checked c;;
  if consumed : bool then mret tt else free_ptr msg;; mret tt.

Definition xltp_recv (lookup : list Z -> option (option Z)) (msg : positive) : M W unit :=
  c ← channel_of msg;
  ios ← ctx_of_channel c;
  clean (match ios with
    | Some _ => xlio_stream_write pipe_ok msg
    | None =>
        f ← frame msg;
        if decide (f_type f = XPACK_TYPE_REQ) then xltp_recv_req lookup msg
        else if decide (f_type f = XPACK_TYPE_MSG) then xltp_recv_msg msg
        else if decide (f_type f = XPACK_TYPE_RES) then xltp_recv_res msg
        else mret tt
    end)
    (free_ptr msg;; fail).

Definition xltp_back (msg : positive) : M W unit :=
  c ← channel_of msg;
  ios ← ctx_of_channel c;
  clean (match ios with
    | Some _ => xlio_stream_resave pipe_ok msg
    | None =>
        f ← frame msg;
        (if decide (f_type f = XPACK_TYPE_RES) then flush_checked c else mret tt);;
        free_ptr msg;; mret tt
    end)
    (free_ptr msg;; fail).

Definition xltp_timedout (c : positive) : M W unit :=
  ios ← ctx_of_channel c;
  match ios with
  | Some (Zpos p) => succeeds (xlio_stream_close new_frame pipe_ok sent p);; mret tt
  | Some _ => lift None
  | None => flush sent c
  end.

(** One message; [false] ends the loop. *)
Definition xltp_turn (lookup : list Z -> option (option Z)) (p : pmsg) : M W bool :=
  match p with
  | TimedOut c => xltp_timedout c;; mret true
  | Frame msg =>
      a ← args_of msg;
      if decide (a_flag a = XMSG_FLAG_RECV) then succeeds (xltp_recv lookup msg);; mret true
      else if decide (a_flag a = XMSG_FLAG_BACK) then succeeds (xltp_back msg);; mret true
      else if decide (a_flag a = XMSG_FLAG_POST) then
        match a_cb a with None => mret false | Some cb => succeeds (run_cb cb msg) end
      else mret true
  end.

(** [xltp_loop] on the messages in the pipe; [fuel] is their number.  The
    result is [false] when the thread has ended. *)
Fixpoint xltp_loop (fuel : nat) : L W bool := fun s =>
  match lt_pipe s, fuel with
  | [], _ => Some (s, Some true)
  | p :: pipe, S fuel =>
      (go ← within (xltp_turn (fun key => root ← lt_api s; xtree_find root key (lt_tree s)) p);
       if go : bool then xltp_loop fuel else mret false) (s <| lt_pipe := pipe |>)
  | _, O => None
  end.

(** ** Starting and ending *)

Context (calloc : store -> option positive).

Definition xltp_make_api (name : list Z) (cb : api) : L W unit := fun s =>
  root ← lt_api s;
  '(tree, r) ← xtree_add calloc root name (Some (address_of cb)) (lt_tree s);
  let s := s <| lt_tree := tree |> in
  Some (s, match r with None => None | Some _ => Some tt end).

(** [xltp_free], when the threads have ended: the messenger, the store, the
    messages that are left and the tree.  [xl_free] does not free the frame of a
    channel, but it writes to it. *)
Fixpoint drop_messages (l : list pmsg) : M W unit :=
  match l with
  | [] => mret tt
  | Frame m :: l => free_ptr m;; drop_messages l
  | TimedOut c :: l => on_ms (fun g => _ ← g_chans g !! c; Some (g, tt));; drop_messages l
  end.

Definition drain_msgpipe : L W unit := fun s =>
  within (drop_messages (lt_pipe s)) (s <| lt_pipe := [] |>).

Definition clear_apis : L W unit := fun s =>
  match lt_api s with
  | None => Some (s, Some tt)
  | Some root =>
      '(tree, _) ← xtree_clear root (lt_tree s);
      '(tree, root) ← xtree_free (Some root) tree;
      Some (s <| lt_tree := tree |> <| lt_api := root |>, Some tt)
  end.

Definition xltp_free : L W unit :=
  within (on_ms (fun g => g ← xmsger_free g; Some (g, tt)));;
  within (xlio_free sent);;
  drain_msgpipe;;
  clear_apis.

(** [xltp_create], once there are the pipe, the messenger, the store and the
    threads. *)
Definition make_apis : L W unit :=
  xltp_make_api n_echo api_echo;;
  xltp_make_api n_boot api_boot;;
  xltp_make_api n_put api_put;;
  xltp_make_api n_get api_get.

Definition xltp_create (i : io W) : option (xltp W * option unit) :=
  '(tree, root) ← xtree_create calloc ∅;
  let s := mkxltp i tree root [] in
  match root with
  | None => l_clean l_fail (xltp_free;; l_fail) s
  | Some _ => l_clean make_apis (xltp_free;; l_fail) s
  end.
End Xltp.
