(* ===== verification/Serving.v ===== *)
(** * Starting a transfer

    How a request becomes a stream: [xlio_stream_maker] and what the two
    functions that start an uploader or a downloader make of it.  [idle] is the
    channel before there is a stream. *)

From stdpp Require Import gmap.
From S2P Require Import Prelude Bytes Xline Lines Xformat Channel Messenger Files Xlio XlioRun Transfer Lending Upload StoreDemo UploadRun Download FileCopy Exchange Offer Xltp.

#[local] Open Scope Z_scope.
#[local] Arguments __xl_n2b _ _ : simpl never.
#[local] Arguments enc _ : simpl never.
#[local] Opaque URI_SIZE.

(** ** Computations from any state *)

Section Any.
Context {W : Type}.
Implicit Types s : io W.

Definition at_frames s (fs : gmap positive xframe) : io W := s <| io_ms; g_frames := fs |>.

Lemma any_frame s m f Q : g_frames (io_ms s) !! m = Some f -> Q s f -> runs (frame m) s Q.
Proof. intros E HQ. unfold frame, frames. apply run_bind, runs_gets. by eapply runs_lift. Qed.

Lemma any_region s m f Q : g_frames (io_ms s) !! m = Some f -> Q s (region_of f) -> runs (region m) s Q.
Proof. intros E HQ. unfold region, frames. apply run_bind, runs_gets, runs_ret. by rewrite E. Qed.

Lemma any_on_frame {A} s m f f' (x : A) h Q : g_frames (io_ms s) !! m = Some f -> h f = Some (f', x) ->
  Q (at_frames s (<[m := f']> (g_frames (io_ms s)))) x -> runs (on_frame m h) s Q.
Proof.
  intros E Eh HQ. unfold on_frame. eapply run_bind, any_frame; [done|]. apply run_bind. eapply runs_lift; [exact Eh|].
  by apply run_bind, runs_gets, run_bind, runs_modify, runs_ret.
Qed.

Lemma any_args s m a Q : io_args s !! m = Some a -> Q s a -> runs (args m) s Q.
Proof. intros E HQ. unfold args. apply run_bind, runs_gets. by eapply runs_lift. Qed.

Lemma any_args_of s m f a Q : g_frames (io_ms s) !! m = Some f -> io_args s !! m = Some a -> Q s a -> runs (args_of m) s Q.
Proof. intros Hf E HQ. unfold args_of. eapply run_bind, any_frame; [done|]. by eapply any_args. Qed.

Lemma any_set_args s m f a h Q : g_frames (io_ms s) !! m = Some f -> io_args s !! m = Some a ->
  Q (s <| io_args := <[m := h a]> (io_args s) |>) tt -> runs (set_args m h) s Q.
Proof.
  intros Hf E HQ. unfold set_args. eapply run_bind, any_frame; [done|]. eapply run_bind, any_args; [done|].
  by apply runs_modify.
Qed.

Lemma any_on_ms {A} s (h : messenger -> option (messenger * A)) g (x : A) Q : h (io_ms s) = Some (g, x) ->
  Q (s <| io_ms := g |>) x -> runs (on_ms h) s Q.
Proof. intros E HQ. exists (s <| io_ms := g |>), x. split; [|done]. unfold on_ms. by rewrite E. Qed.

Lemma any_free_last s m f Q : g_frames (io_ms s) !! m = Some f -> f_ref f = 1 ->
  Q (at_frames s (delete m (g_frames (io_ms s)))) None -> runs (free_ptr m) s Q.
Proof.
  intros E Hr HQ. unfold free_ptr, frames, set_frames. apply run_bind, runs_gets, run_bind. eapply runs_lift.
  { unfold free_frame. rewrite E. simpl. unfold xl_free. rewrite Hr. reflexivity. }
  by apply run_bind, runs_modify, runs_ret.
Qed.

Lemma any_channel_of s m f a c Q : g_frames (io_ms s) !! m = Some f -> io_args s !! m = Some a -> a_channel a = Some c ->
  Q s c -> runs (channel_of m) s Q.
Proof. intros Hf E Hc HQ. unfold channel_of. eapply run_bind, any_args_of; [done..|]. by eapply runs_lift. Qed.

Lemma any_ctx s c ch Q : g_chans (io_ms s) !! c = Some ch -> Q s (x_ctx ch) -> runs (ctx_of_channel c) s Q.
Proof.
  intros E HQ. unfold ctx_of_channel. eapply any_on_ms; [unfold xchannel_get_ctx; by rewrite E|]. simpl. by destruct s.
Qed.

Lemma any_req s c ch Q : g_chans (io_ms s) !! c = Some ch -> Q s (c_req (x_ch ch)) -> runs (req_of_channel c) s Q.
Proof.
  intros E HQ. unfold req_of_channel. eapply any_on_ms; [unfold xchannel_get_req; by rewrite E|]. simpl. by destruct s.
Qed.

Lemma any_text s mem (ps : xparser) o t Q : p_mem ps = mem -> lies mem o (enc (VStr (t ++ [0]))) -> Forall (fun c => 0 < c < 256) t ->
  Z.of_nat (length t) < 2 ^ 62 -> Q s t -> runs (text ps o) s Q.
Proof.
  intros Hm Hl Ht Hb HQ. destruct (str_body _ _ _ Hl Hb) as [_ Hbody]. unfold text. eapply runs_lift; [|exact HQ].
  rewrite Hm. by apply text_lies.
Qed.

(** The text of a field of a message. *)
Lemma any_word_at s m f fs key t Q : g_frames (io_ms s) !! m = Some f -> is_message f fs -> doc_ok fs -> key_bytes key ->
  (key, VStr (t ++ [0])) ∈ fs -> Forall (fun c => 0 < c < 256) t -> Z.of_nat (length t) < 2 ^ 62 ->
  Q s (Some t) -> runs (word_at m key) s Q.
Proof.
  intros Hf Hmsg Hd Hk Hin Ht Hb HQ. destruct (message_lies _ _ Hmsg) as [Hlies Hlen].
  unfold word_at. eapply run_bind, any_region; [done|]. apply run_bind. eapply runs_parser; [exact Hlies|lia|].
  intros ps Hps. destruct (find_elem _ _ _ _ _ _ _ Hd Hk Hps Hin) as (ps' & n & o & E & Hps' & Ho).
  apply run_bind. eapply runs_lift; [exact E|]. cbn beta iota. eapply run_bind, any_text; [by eapply at_field_mem|done..|].
  by apply runs_ret.
Qed.
End Any.

(** ** What lies outside *)

Definition new_frame_ok {W} (new_frame : io W -> Z -> option (positive * xframe)) : Prop :=
  forall s n, 0 <= n -> exists m f, new_frame s n = Some (m, f) /\ g_frames (io_ms s) !! m = None
    /\ Z.of_nat (length (f_buf f)) = n.

Definition new_stream_ok {W} (new_stream : io W -> option positive) : Prop :=
  forall s, exists p, new_stream s = Some p /\ io_streams s !! p = None.

(** A name that a stream can be made for: it fits, and does not end in a
    slash. *)
Definition uri_ok (uri : list Z) : Prop :=
  Forall (fun c => 0 < c < 256) uri /\ (length uri < URI_SIZE)%nat /\ exists pre c, uri = pre ++ [c] /\ c ≠ slash.

(** The part behind the last slash. *)
Definition base_name (uri : list Z) : list Z := drop (length uri - name_len (rev uri)) uri.

(** The list of streams is one to whose end a stream can be put. *)
Definition list_ok {W} (s : io W) : Prop :=
  match io_last s with Null => False | Head => True | At q => is_Some (io_streams s !! q) end.

(** A channel without a stream; the messages [fl] are in its queue. *)
Record idle (c : positive) (fl : list positive) (g : messenger) : Prop := {
  id_chan : exists ch, g_chans g !! c = Some ch /\ x_ctx ch = None
    /\ r_range (c_msgbuf (x_ch ch)) = XMSG_BUF_RANGE /\ (8 <= length (r_buf (c_msgbuf (x_ch ch))))%nat
    /\ 0 <= r_rpos (c_msgbuf (x_ch ch)) < 2 ^ 16
    /\ r_wpos (c_msgbuf (x_ch ch)) = u16 (r_rpos (c_msgbuf (x_ch ch)) + Z.of_nat (length fl))
    /\ forall i m, fl !! i = Some m ->
         r_buf (c_msgbuf (x_ch ch)) !! Z.to_nat (Z.land (r_rpos (c_msgbuf (x_ch ch)) + Z.of_nat i) 7) = Some (Some m);
  id_length : (length fl <= 8)%nat;
}.

Lemma idle_queue c fl g p : idle c fl g ->
  exists g', xchannel_set_ctx c (Some (Zpos p)) g = Some g' /\ queue p c fl g' /\ g_frames g' = g_frames g.
Proof.
  intros [(ch & Hch & _ & H) Hl]. unfold xchannel_set_ctx, upd_chan. rewrite Hch. eexists. split; [done|]. split; [|done].
  split; [|done]. eexists. split; [apply lookup_insert_eq|]. by split.
Qed.

Lemma idle_frames c fl g fs : idle c fl g -> idle c fl (g <| g_frames := fs |>).
Proof. intros [(ch & H) ?]. split; [by exists ch|done]. Qed.

(** ** A new stream *)

Lemma strip_ok uri pre c : uri = pre ++ [c] -> c ≠ slash -> strip (length uri) uri = Some (length uri).
Proof.
  intros -> Hc. destruct (length (pre ++ [c])) as [|n] eqn:E; [rewrite length_app in E; simpl in E; lia|].
  assert (rd (pre ++ [c]) (Z.of_nat (S n) - 1) = Some c) as Hr.
  { apply rd_app. rewrite length_app in E. simpl in E. lia. }
  cbn [strip]. rewrite Hr. cbn [mbind option_bind]. by rewrite decide_False.
Qed.

Lemma name_len_le l : (name_len l <= length l)%nat.
Proof. induction l as [|c l IH]; simpl; [lia|]. case_decide; simpl; lia. Qed.

Definition uri_buffer (uri : list Z) : list Z := uri ++ replicate (URI_SIZE - length uri) 0.

Lemma uri_written uri : (length uri < URI_SIZE)%nat -> wr_range (replicate URI_SIZE 0) 0 uri = Some (uri_buffer uri).
Proof.
  intros H. unfold wr_range. rewrite length_replicate, decide_True by lia.
  change (Z.to_nat 0) with 0%nat. cbn [take app Nat.add]. unfold uri_buffer. by rewrite drop_replicate.
Qed.

Lemma uri_read uri k : uri_ok uri -> (k <= length uri)%nat -> read_key (uri_buffer uri) (Z.of_nat k) = Some (drop k uri).
Proof.
  intros (Hu & Hl & _) Hk. apply read_key_ok.
  - exists (take k uri), (replicate (URI_SIZE - length uri - 1) 0). split; [|rewrite length_take; lia].
    unfold uri_buffer. rewrite <- (take_drop k uri) at 1. rewrite <- !app_assoc. do 2 f_equal.
    replace (URI_SIZE - length uri)%nat with (S (URI_SIZE - length uri - 1)) at 1 by lia. done.
  - apply Forall_drop. eapply Forall_impl; [exact Hu|]. simpl. lia.
Qed.

(** The stream that is made, before it is linked: with its name. *)
Definition named (type : Z) (uri : list Z) : xlio_stream :=
  no_stream type <| s_uri := uri_buffer uri |> <| s_uri_len := Z.of_nat (length uri) |>
    <| s_src_name_len := Z.of_nat (name_len (rev uri)) |>
    <| s_src_name_pos := Z.of_nat (length uri) - Z.of_nat (name_len (rev uri)) |>.

Section Maker.
Context {W : Type} `{Uv W} (new_frame : io W -> Z -> option (positive * xframe)) (new_stream : io W -> option positive)
  (Hnew : new_frame_ok new_frame) (Hstr : new_stream_ok new_stream).

Lemma runs_make_frame (s : io W) p n g st w a Q : 0 <= n < 2 ^ 62 ->
  (forall m f, g_frames g !! m = None -> frame_ok f -> f_size f = n -> f_wpos f = 0 -> f_ref f = 1 ->
    Q (foc s p (with_frame_at m f g) st w (<[m := mkargs 0 None None None None]> a)) m) ->
  runs (make_frame new_frame n) (foc s p g st w a) Q.
Proof using Hnew.
  intros Hn HQ. destruct (Hnew (foc s p g st w a) n) as (m & f & E & Hm & Hl); [lia|].
  set (f' := f <| f_ref := 1 |> <| f_size := n |> <| f_wpos := 0 |> <| f_rpos := 0 |> <| f_spos := 0 |> <| f_range := 0 |>).
  exists (foc s p (with_frame_at m f' g) st w (<[m := mkargs 0 None None None None]> a)), m.
  split; [unfold make_frame; by rewrite E|]. apply HQ; try done. split_and!; simpl; lia.
Qed.

(** One frame of the ring. *)
Lemma runs_make_one (s : io W) p k i b g st w a Q : 
  ring_set (s_buf st) i None = Some b -> 
  (forall m f b, g_frames g !! m = None -> fresh_frame f -> ring_set (s_buf st) i (Some m) = Some b ->
    runs (make_frames new_frame k (i + 1) p)
      (foc s p (with_frame_at m f g) (st <| s_buf := b |>) w (<[m := mkargs 0 None (Some p) None None]> a)) Q) ->
  runs (make_frames new_frame (S k) i p) (foc s p g st w a) Q.
Proof using Hnew.
  intros Hb HQ. cbn [make_frames]. apply run_bind. apply runs_make_frame; [unfold MSGBUF_SIZE; lia|].
  intros m f Hm Hf Hs Hw _. apply run_bind, runs_stream, run_bind.
  assert (exists b', ring_set (s_buf st) i (Some m) = Some b') as (b' & Eb).
  { unfold ring_set in *. destruct (wr (r_buf (s_buf st)) i None) eqn:E; [|done].
    unfold wr in *. case_decide; [|done]. by eexists. }
  eapply runs_lift; [exact Eb|]. apply run_bind, runs_upd, run_bind.
  eapply any_set_args; [apply at_frame|apply lookup_insert_eq|]. simpl. rewrite insert_insert_eq.
  by apply HQ.
Qed.

(** All four. *)
Definition full_ring (own : list positive) : ring (option positive) := mkring 4 0 0 4 (Some <$> own).

(** The frames [own] are new. *)
Record brought (p : positive) (own : list positive) (frames frames' : gmap positive xframe) (a a' : gmap positive margs) : Prop := {
  br_own : own ## elements (dom frames);
  br_frames m f : frames !! m = Some f -> frames' !! m = Some f;
  br_args m : m ∉ own -> a' !! m = a !! m;
  br_ctx m : m ∈ own -> a' !! m = Some (mkargs 0 None (Some p) None None);
  br_lending : lending own [] (full_ring own) frames';
}.

Lemma lending_full own frames : length own = 4%nat -> NoDup own ->
  (forall m, m ∈ own -> exists f, frames !! m = Some f /\ fresh_frame f) -> lending own [] (full_ring own) frames.
Proof using Type.
  intros Hl Hn Hf. exists 0%nat, 0%nat. split; cbn [r_range r_buf r_rpos r_wpos full_ring]; try done.
  - by rewrite length_fmap.
  - simpl. lia.
  - intros t Ht. destruct (lookup_lt_is_Some_2 own (t mod 4)%nat) as [m Hm]; [rewrite Nat.mod_small; lia|].
    destruct (Hf m) as (f & H1 & H2); [by eapply list_elem_of_lookup_2|]. exists m, f. split; [done|].
    split; [by rewrite list_lookup_fmap, Hm|done].
Qed.

Lemma runs_make_frames (s : io W) p g st w a Q :
  s_buf st = mkring 4 0 0 4 (replicate 4 None) ->
  (forall own fs a', length own = 4%nat -> brought p own (g_frames g) fs a a' ->
    Q (foc s p (g <| g_frames := fs |>) (st <| s_buf := full_ring own |>) w a') tt) ->
  runs (make_frames new_frame (Z.to_nat MSGBUF_RANGE) 0 p) (foc s p g st w a) Q.
Proof using Hnew.
  intros Hb HQ. change (Z.to_nat MSGBUF_RANGE) with 4%nat.
  eapply runs_make_one; [rewrite Hb; reflexivity|]. intros m0 f0 b0 N0 F0 E0. rewrite Hb in E0. injection E0 as <-.
  eapply runs_make_one; [reflexivity|]. intros m1 f1 b1 N1 F1 E1. injection E1 as <-.
  eapply runs_make_one; [reflexivity|]. intros m2 f2 b2 N2 F2 E2. injection E2 as <-.
  eapply runs_make_one; [reflexivity|]. intros m3 f3 b3 N3 F3 E3. injection E3 as <-.
  apply runs_ret. unfold with_frame_at in *. simpl in N1, N2, N3.
  repeat match goal with H : <[_ := _]> _ !! _ = None |- _ => apply lookup_insert_None in H as [H ?] end.
  refine (HQ [m0; m1; m2; m3] (<[m3 := f3]> (<[m2 := f2]> (<[m1 := f1]> (<[m0 := f0]> (g_frames g))))) _ eq_refl _). split.
  - intros m Hm Hin%elem_of_elements%elem_of_dom. rewrite !elem_of_cons in Hm.
    destruct Hin as [f Hf]. destruct Hm as [->|[->|[->|[->|[]%elem_of_nil]]]]; congruence.
  - intros m f Hf. rewrite !lookup_insert_ne by (intros <-; congruence). done.
  - intros m Hm. rewrite !not_elem_of_cons in Hm. by rewrite !lookup_insert_ne by (intros <-; tauto).
  - intros m Hm. rewrite !elem_of_cons in Hm. destruct Hm as [->|[->|[->|[->|[]%elem_of_nil]]]];
      repeat first [rewrite lookup_insert_eq|rewrite lookup_insert_ne by done]; done.
  - apply lending_full; [done| |].
    { repeat (apply NoDup_cons; split; [rewrite ?not_elem_of_cons; repeat split; first [apply not_elem_of_nil|congruence]|]).
      by apply NoDup_nil. }
    intros m Hm. rewrite !elem_of_cons in Hm. destruct Hm as [->|[->|[->|[->|[]%elem_of_nil]]]];
      (eexists; split; [repeat first [rewrite lookup_insert_eq|rewrite lookup_insert_ne by done]; reflexivity|done]).
Qed.

(** ** The list of streams *)

Lemma alter_some {A} (f : A -> A) (q : positive) (m : gmap positive A) x : m !! q = Some x -> alter f q m = <[q := f x]> m.
Proof using Type. intros Hq. rewrite <- (insert_id m q x Hq) at 1. apply alter_insert_eq. Qed.

Definition linked (p : positive) (s : io W) : io W :=
  match io_last s with
  | At q => s <| io_streams := alter (fun x => x <| s_next := At p |>) q (io_streams s) |> <| io_last := At p |>
  | _ => s <| io_last := At p |> <| io_first := At p |>
  end.

Lemma linked_streams p s q st : io_streams s !! q = Some st -> exists l,
  io_streams (linked p s) !! q = Some (st <| s_next := l |>).
Proof using Type.
  intros Hq. unfold linked. destruct (io_last s) as [| |r] eqn:E; simpl.
  - exists (s_next st). rewrite Hq. by destruct st.
  - exists (s_next st). rewrite Hq. by destruct st.
  - destruct (decide (r = q)) as [->|Hne].
    + rewrite lookup_alter_eq, Hq. by exists (At p).
    + rewrite lookup_alter_ne, Hq by done. exists (s_next st). by destruct st.
Qed.

Lemma linked_kept p s : io_pipe (linked p s) = io_pipe s /\ io_cmds (linked p s) = io_cmds s.
Proof using Type. unfold linked. by destruct (io_last s). Qed.

Lemma runs_link (s : io W) p g st w a Q : list_ok s -> io_streams s !! p = None ->
  Q (foc (linked p s) p g (st <| s_fd := -1 |> <| s_next := Head |> <| s_prev := io_last s |>) w a) tt ->
  runs (last ← gets io_last;
        upd p (fun s => s <| s_fd := -1 |> <| s_next := Head |> <| s_prev := last |>);;
        set_prev Head (At p);; set_next last (At p)) (foc s p g st w a) Q.
Proof using Type.
  intros Hl Hp HQ. apply run_bind, runs_gets. simpl. apply run_bind, runs_upd, run_bind, runs_modify.
  unfold linked, list_ok in *. destruct (io_last s) as [| |q] eqn:E; [done| |].
  - apply runs_modify. exact HQ.
  - destruct Hl as [sq Hq]. assert (p ≠ q) as Hne by congruence.
    unfold set_next, upd, stream. apply run_bind, run_bind, runs_gets. eapply runs_lift.
    { simpl. rewrite lookup_insert_ne by done. exact Hq. }
    apply runs_modify. unfold foc in *. simpl in *.
    rewrite (alter_some _ _ _ _ Hq) in HQ. by rewrite insert_insert_ne in HQ.
Qed.

(** ** Making a stream *)

(** The stream as it is handed out. *)
Definition made (type size : Z) (uri : list Z) (own : list positive) (last : link) : xlio_stream :=
  named type uri <| s_file_size := size |> <| s_buf := full_ring own |> <| s_fd := -1 |> <| s_next := Head |> <| s_prev := last |>.

(** [open_uri] succeeds and leaves the file system as [w'] and the size of the
    file as [size]. *)
Definition opens (type : Z) (uri : list Z) (w w' : W) (size : Z) : Prop :=
  if decide (type = IOSTREAM_TYPE_UPLOAD)
  then __fs_dir_exist uri w = false /\ __fs_file_exist uri w = true /\ __fs_file_size uri w = size /\ w' = w
  else __fs_path_maker (Some uri) w = Some (w', 0) /\ size = 0.

Lemma runs_open_uri (s : io W) p type uri w w' size g a Q : uri_ok uri -> opens type uri w w' size ->
  Q (foc s p g (named type uri <| s_file_size := size |>) w' a) tt ->
  runs (open_uri p uri) (foc s p g (named type uri) w a) Q.
Proof using Type.
  intros Hu Ho HQ. pose proof (uri_read uri 0 Hu ltac:(lia)) as Hr.
  unfold open_uri. apply run_bind, runs_stream, run_bind. eapply runs_lift; [exact Hr|]. rewrite drop_0.
  change (s_flag (named type uri)) with type. unfold opens in Ho. case_decide.
  - destruct Ho as (H1 & H2 & H3 & ->). apply run_bind, runs_gets. simpl. rewrite H1.
    apply run_bind, runs_gets. simpl. rewrite H2. apply run_bind, runs_xcheck; [done|].
    apply run_bind, runs_gets. simpl. rewrite H3. apply runs_upd. exact HQ.
  - destruct Ho as [H1 ->]. apply run_bind, runs_gets, run_bind. eapply runs_lift; [exact H1|].
    apply run_bind, runs_modify, runs_xcheck; [by intros []|].
    exact HQ.
Qed.

Lemma set_buf_twice (st : xlio_stream) b b' : st <| s_buf := b |> <| s_buf := b' |> = st <| s_buf := b' |>.
Proof using Type. by destruct st. Qed.

Lemma runs_stream_maker (s : io W) sent type uri w' size Q : uri_ok uri -> list_ok s -> opens type uri (io_os s) w' size ->
  (forall p own fs a, io_streams s !! p = None -> length own = 4%nat -> brought p own (g_frames (io_ms s)) fs (io_args s) a ->
    Q (foc (linked p s) p (io_ms s <| g_frames := fs |>) (made type size uri own (io_last s)) w' a) (Some p)) ->
  runs (xlio_stream_maker new_frame new_stream sent uri type) s Q.
Proof using Hnew Hstr.
  intros Hu Hl Ho HQ. destruct (Hstr s) as (p & E & Hp). pose proof Hu as (_ & Hlen & pre & c & Hpre & Hc).
  unfold xlio_stream_maker. apply run_bind, runs_gets. rewrite E. apply run_bind, runs_succeeds, run_bind, runs_modify.
  replace (_ <| io_streams := _ |>) with (foc s p (io_ms s) (no_stream type) (io_os s) (io_args s)) by done.
  apply run_bind. eapply runs_lift; [by apply (strip_ok uri pre c)|]. rewrite take_ge by lia.
  apply run_bind. eapply runs_lift; [by apply uri_written|]. apply run_bind, runs_upd.
  match goal with |- runs _ (foc _ _ _ ?st _ _) _ => change st with (named type uri) end.
  apply run_bind. eapply (runs_open_uri _ _ _ _ _ w' size); [done|exact Ho|].
  apply run_bind, runs_upd, run_bind. apply runs_make_frames; [done|]. intros own fs a Hown Hb.
  rewrite set_buf_twice. apply (runs_link s p); [done|done|]. apply runs_ret. exact (HQ p own fs a Hp Hown Hb).
Qed.

(** ** Starting *)

Definition chosen (type size : Z) (uri : list Z) (own : list positive) (last : link) (c : positive) : xlio_stream :=
  made type size uri own last <| s_channel := Some c |>.

Lemma brought_not_own p own frames frames' a a' m f : brought p own frames frames' a a' -> frames !! m = Some f -> m ∉ own.
Proof using Type.
  intros [Hd _ _ _ _] Hm Hin. apply (Hd m Hin). apply elem_of_elements, elem_of_dom. by exists f.
Qed.

Lemma runs_start_stream (s : io W) sent req fr a key type fs uri w' size c fq Q :
  g_frames (io_ms s) !! req = Some fr -> is_message fr fs -> doc_ok fs -> key_bytes key ->
  (key, VStr (uri ++ [0])) ∈ fs -> io_args s !! req = Some a -> a_channel a = Some c -> idle c fq (io_ms s) ->
  uri_ok uri -> list_ok s -> opens type uri (io_os s) w' size ->
  (forall p own g' a', io_streams s !! p = None -> length own = 4%nat -> brought p own (g_frames (io_ms s)) (g_frames g') (io_args s) a' ->
    queue p c fq g' ->
    Q (foc (linked p s) p g' (chosen type size uri own (io_last s) c) w' a') (Some p)) ->
  runs (start_stream new_frame new_stream sent req key type) s Q.
Proof using Hnew Hstr.
  intros Hr Hmsg Hd Hk Hin Ha Hc Hidle Hu Hl Ho HQ. destruct (message_lies _ _ Hmsg) as [Hlies Hlen].
  pose proof Hu as (Huc & Hul & _).
  unfold start_stream. eapply run_bind, any_region; [exact Hr|]. apply run_bind. eapply runs_parser; [exact Hlies|lia|].
  intros ps Hps. destruct (find_elem _ _ _ _ _ _ _ Hd Hk Hps Hin) as (ps' & n & o & E & Hps' & Hlo).
  apply run_bind. eapply runs_lift; [exact E|]. apply run_bind, (runs_lift _ o); [done|].
  eapply run_bind, any_text; [by eapply at_field_mem|exact Hlo|done|change URI_SIZE with 2048%nat in Hul; lia|].
  apply run_bind. eapply (runs_stream_maker s sent type uri w' size); [done..|].
  intros p own fs' a' Hp Hown Hb. assert (req ∉ own) as Hreq by (by eapply brought_not_own).
  apply run_bind. eapply runs_args; [rewrite (br_args _ _ _ _ _ _ Hb) by done; exact Ha|].
  apply run_bind, runs_upd, run_bind. rewrite Hc. apply (runs_lift _ c); [done|].
  destruct (idle_queue c fq (io_ms s <| g_frames := fs' |>) p) as (g' & Eg & Hq & Hg); [by apply idle_frames|].
  apply run_bind. eapply runs_on_ms; [rewrite Eg; reflexivity|]. apply runs_ret.
  apply HQ; [done|done| |done]. rewrite Hg. exact Hb.
Qed.

(** The answer that a request is accepted. *)
Definition accepted : list (list Z * value) := [(k_status, VInt 200)].

Lemma runs_accept (s : io W) malloc p c own fl fq g st w a Q :
  lending own fl (s_buf st) (g_frames g) -> (length fl < 4)%nat -> queue p c fq g -> (length fq < 8)%nat -> s_channel st = Some c ->
  (forall g' m f b, m ∈ own -> g_frames g' = <[m := f]> (g_frames g) -> queue p c (fq ++ [m]) g' ->
    content f = enc_fields accepted -> f_type f = XPACK_TYPE_MSG -> lending own (fl ++ [m]) b (g_frames g') ->
    Q (foc s p g' (st <| s_buf := b |>) w a) tt) ->
  runs (accept malloc p) (foc s p g st w a) Q.
Proof using Type.
  intros Hl Hfl Hq Hfq Hc HQ. unfold accept. apply run_bind. eapply runs_take_frame; [exact Hl|done|].
  intros m f b Hm Hin Hf Hfresh Hput. pose proof Hfresh as (Hok & Hsz & Hw0). unfold MSGBUF_SIZE in Hsz.
  set (i := slot (r_rpos (s_buf st)) (s_buf st)) in *.
  destruct (add_int_fits malloc k_status 200 (f <| f_id := i |>)) as (f2 & E2 & W2 & _); [done|simpl; lia| |].
  { rewrite field_length, int_length. simpl. lia. }
  apply run_bind. eapply runs_on_frame; [apply at_frame|exact E2|]. rewrite with_frame_at_twice.
  eapply (runs_send_wrote _ p m c fq own fl f f2 i b accepted); [exact Hfresh| |exact Hc|done|done|exact Hput|].
  { unfold accepted. rewrite enc_fields_cons, enc_fields_nil, app_nil_r. exact W2. }
  intros g' f3 Hg' Hq' Hcont Hty Hl'. by apply (HQ g' m f3 b).
Qed.

(** What the start of a stream leaves behind: the stream [p] with its frames
    [own], of which [fl] are away with the messages [ms], and the channel [c]
    with the stream as its context. *)
Record started (s s' : io W) (p c : positive) (fq : list positive) (st : xlio_stream) (own fl : list positive)
    (ms : list (list (list Z * value))) (gone : list positive) (w' : W) : Prop := {
  sd_new : io_streams s !! p = None;
  sd_stream : io_streams s' !! p = Some st;
  sd_lending : lending own fl (s_buf st) (g_frames (io_ms s'));
  sd_queue : queue p c (fq ++ fl) (io_ms s');
  sd_bears : Forall2 (bears (io_ms s')) fl ms;
  sd_own m : m ∈ own -> g_frames (io_ms s) !! m = None;
  sd_frames m f : m ∉ gone -> g_frames (io_ms s) !! m = Some f -> g_frames (io_ms s') !! m = Some f;
  sd_os : io_os s' = w';
  sd_cmds : io_cmds s' = io_cmds s;
}.

Lemma started_free s s' p c fq st own fl ms gone w' u f : started s s' p c fq st own fl ms gone w' ->
  g_frames (io_ms s) !! u = Some f ->
  started s (at_frames s' (delete u (g_frames (io_ms s')))) p c fq st own fl ms (u :: gone) w'.
Proof using Type.
  intros [S1 S2 S3 S4 S5 S6 S7 S8 S9] Hu. assert (u ∉ own) as Huo by (intros Hin; by rewrite (S6 _ Hin) in Hu).
  split; [done|done|by apply lending_freed|by apply queue_frames| |done| |done|done].
  - assert (Hin : forall m, m ∈ fl -> m ≠ u) by (intros m Hm ->; by apply Huo, (lending_in _ _ _ _ S3 Hm)).
    clear S3 S4. induction S5 as [|m fs fl ms (x & Hx & Hc) _ IH]; [constructor|]. constructor.
    + exists x. split; [|done]. cbn. rewrite lookup_delete_ne; [done|]. intros <-. by apply (Hin u); [left|].
    + apply IH. intros y Hy. apply Hin. by right.
  - intros m x [Hm Hm']%not_elem_of_cons Hx. cbn. rewrite lookup_delete_ne by done. by apply S7.
Qed.

(** A stream that differs from [chosen] only in the state of its ring. *)
Definition ring_of (st0 st : xlio_stream) : Prop := st = st0 <| s_buf := s_buf st |>.

Lemma brought_frames p own frames frames' a a' m : brought p own frames frames' a a' -> m ∈ own -> frames !! m = None.
Proof using Type.
  intros [Hd _ _ _ _] Hin. destruct (frames !! m) as [f|] eqn:E; [|done]. exfalso. apply (Hd m Hin).
  apply elem_of_elements, elem_of_dom. by exists f.
Qed.

(** Starting an uploader: the request is freed. *)
Lemma runs_start_uploader (s : io W) malloc sent req fr a fs uri size c fq response Q :
  g_frames (io_ms s) !! req = Some fr -> f_ref fr = 1 -> is_message fr fs -> doc_ok fs ->
  (k_uri, VStr (uri ++ [0])) ∈ fs -> io_args s !! req = Some a -> a_channel a = Some c -> idle c fq (io_ms s) -> (length fq < 8)%nat ->
  uri_ok uri -> list_ok s -> opens IOSTREAM_TYPE_UPLOAD uri (io_os s) (io_os s) size ->
  (forall s' p own fl st,
    started s s' p c fq st own fl (if response : bool then [accepted] else []) [req] (io_os s) ->
    ring_of (chosen IOSTREAM_TYPE_UPLOAD size uri own (io_last s) c) st -> g_frames (io_ms s') !! req = None -> io_pipe s' = io_pipe s ->
    Q s' tt) ->
  runs (xlio_start_uploader malloc new_frame new_stream sent req response) s Q.
Proof using Hnew Hstr.
  intros Hr Href Hmsg Hd Hin Ha Hc Hidle Hfq Hu Hl Ho HQ. unfold xlio_start_uploader. apply run_bind.
  eapply runs_start_stream; [exact Hr|exact Hmsg|done|repeat constructor; lia|exact Hin|exact Ha|done..|exact Ho|].
  intros p own g' a' Hp Hown Hb Hq. set (st0 := chosen _ _ _ _ _ _) in *.
  assert (req ∉ own) as Hreq by (by eapply brought_not_own).
  apply runs_clean, run_bind, runs_found. destruct response.
  - apply run_bind. eapply (runs_accept _ _ _ c own [] fq); [exact (br_lending _ _ _ _ _ _ Hb)|simpl; lia|done..|].
    intros g2 m f b Hm Hg2 Hq2 Hcont Hty Hl2. assert (req ≠ m) as Hne by (intros ->; done).
    apply run_bind. eapply runs_free_last; [rewrite Hg2, lookup_insert_ne by done; by apply (br_frames _ _ _ _ _ _ Hb)|done|].
    apply runs_ret. eapply (HQ _ p own [m] (st0 <| s_buf := b |>)); [|done|simpl; apply lookup_delete_eq|by destruct (linked_kept p s)].
    split; [done|apply lookup_insert_eq| | | | | |done|by destruct (linked_kept p s)].
    + cbn. apply lending_freed; [exact Hl2|done].
    + by apply queue_frames.
    + constructor; [|done]. exists f. cbn. rewrite lookup_delete_ne, Hg2 by done. split; [apply lookup_insert_eq|done].
    + intros x Hx. by eapply brought_frames.
    + intros x fx Hx%not_elem_of_cons Hfx. destruct Hx as [Hx _]. cbn. rewrite lookup_delete_ne, Hg2 by done. rewrite lookup_insert_ne; [by apply (br_frames _ _ _ _ _ _ Hb)|].
      intros <-. by rewrite (brought_frames _ _ _ _ _ _ m Hb Hm) in Hfx.
  - apply run_bind, runs_ret, run_bind. eapply runs_free_last; [by apply (br_frames _ _ _ _ _ _ Hb)|done|].
    apply runs_ret. eapply (HQ _ p own [] st0); [|done|simpl; apply lookup_delete_eq|by destruct (linked_kept p s)].
    split; [done|apply lookup_insert_eq| | |constructor| | |done|by destruct (linked_kept p s)].
    + cbn. apply lending_freed; [exact (br_lending _ _ _ _ _ _ Hb)|done].
    + rewrite app_nil_r. by apply queue_frames.
    + intros x Hx. by eapply brought_frames.
    + intros x fx Hx%not_elem_of_cons Hfx. destruct Hx as [Hx _]. cbn. rewrite lookup_delete_ne by done. by apply (br_frames _ _ _ _ _ _ Hb).
Qed.

Lemma runs_write_pipe (s : io W) pipe_ok p m g st w a Q : (forall s, pipe_ok s = true) ->
  Q (foc (s <| io_pipe := io_pipe s ++ [m] |>) p g st w a) tt -> runs (write_pipe pipe_ok m) (foc s p g st w a) Q.
Proof using Type.
  intros Hok HQ. unfold write_pipe. apply run_bind, runs_gets. rewrite Hok. apply run_bind, runs_xcheck; [done|].
  apply runs_modify. exact HQ.
Qed.

(** Starting a downloader: the request goes into the pipe of the store. *)
Lemma runs_start_downloader (s : io W) malloc pipe_ok sent req fr a fs uri w' c fq response Q :
  (forall s, pipe_ok s = true) ->
  g_frames (io_ms s) !! req = Some fr -> is_message fr fs -> doc_ok fs ->
  (k_path, VStr (uri ++ [0])) ∈ fs -> io_args s !! req = Some a -> a_channel a = Some c -> idle c fq (io_ms s) -> (length fq < 8)%nat ->
  uri_ok uri -> list_ok s -> opens IOSTREAM_TYPE_DOWNLOAD uri (io_os s) w' 0 ->
  (forall s' p own fl st,
    started s s' p c fq st own fl (if response : bool then [accepted] else []) [req] w' ->
    ring_of (chosen IOSTREAM_TYPE_DOWNLOAD 0 uri own (io_last s) c) st -> g_frames (io_ms s') !! req = Some fr ->
    io_args s' !! req = Some (mkargs XMSG_FLAG_POST (Some cb_post_download) (Some p) (a_ipaddr a) (Some c)) ->
    io_pipe s' = io_pipe s ++ [req] -> Q s' tt) ->
  runs (xlio_start_downloader malloc new_frame new_stream pipe_ok sent req response) s Q.
Proof using Hnew Hstr.
  intros Hpok Hr Hmsg Hd Hin Ha Hc Hidle Hfq Hu Hl Ho HQ. unfold xlio_start_downloader. apply run_bind.
  eapply runs_start_stream; [exact Hr|exact Hmsg|done|repeat constructor; lia|exact Hin|exact Ha|done..|exact Ho|].
  intros p own g' a' Hp Hown Hb Hq. set (st0 := chosen _ _ _ _ _ _) in *.
  assert (req ∉ own) as Hreq by (by eapply brought_not_own).
  pose proof (br_frames _ _ _ _ _ _ Hb _ _ Hr) as Hr'.
  assert (a' !! req = Some a) as Ha' by (by rewrite (br_args _ _ _ _ _ _ Hb)).
  set (x := mkargs XMSG_FLAG_POST (Some cb_post_download) (Some p) (a_ipaddr a) (Some c)).
  assert (Hx : a <| a_ctx := Some p |> <| a_flag := XMSG_FLAG_POST |> <| a_cb := Some cb_post_download |> = x)
    by (destruct a; simpl in Hc; by subst).
  destruct (linked_kept p s) as [Lp Lc].
  apply runs_clean, run_bind, runs_found, run_bind. eapply any_set_args; [exact Hr'|exact Ha'|].
  change (_ <| io_args := _ |>) with (foc (linked p s) p g' st0 w' (<[req := a <| a_ctx := Some p |>]> a')).
  destruct response.
  - apply run_bind. eapply (runs_accept _ _ _ c own [] fq); [exact (br_lending _ _ _ _ _ _ Hb)|simpl; lia|done..|].
    intros g2 m f b Hm Hg2 Hq2 Hcont Hty Hl2. assert (req ≠ m) as Hne by (intros ->; done).
    assert (g_frames g2 !! req = Some fr) as Hr2 by (by rewrite Hg2, lookup_insert_ne by done).
    apply run_bind. eapply any_set_args; [exact Hr2|apply lookup_insert_eq|].
    change (_ <| io_args := _ |>) with (foc (linked p s) p g2 (st0 <| s_buf := b |>) w'
      (<[req := a <| a_ctx := Some p |> <| a_flag := XMSG_FLAG_POST |> <| a_cb := Some cb_post_download |>]> (<[req := a <| a_ctx := Some p |>]> a'))).
    rewrite Hx. apply runs_write_pipe; [done|].
    eapply (HQ _ p own [m] (st0 <| s_buf := b |>)); [|done|exact Hr2|apply lookup_insert_eq|cbn; by rewrite Lp].
    split; [done|apply lookup_insert_eq|exact Hl2|done| | | |done|done].
    + constructor; [|done]. exists f. cbn. rewrite Hg2. split; [apply lookup_insert_eq|done].
    + intros y Hy. by eapply brought_frames.
    + intros y fy _ Hfy. cbn. rewrite Hg2. rewrite lookup_insert_ne; [by apply (br_frames _ _ _ _ _ _ Hb)|].
      intros <-. by rewrite (brought_frames _ _ _ _ _ _ m Hb Hm) in Hfy.
  - apply run_bind, runs_ret, run_bind. eapply any_set_args; [exact Hr'|apply lookup_insert_eq|].
    change (_ <| io_args := _ |>) with (foc (linked p s) p g' st0 w'
      (<[req := a <| a_ctx := Some p |> <| a_flag := XMSG_FLAG_POST |> <| a_cb := Some cb_post_download |>]> (<[req := a <| a_ctx := Some p |>]> a'))).
    rewrite Hx. apply runs_write_pipe; [done|].
    eapply (HQ _ p own [] st0); [|done|exact Hr'|apply lookup_insert_eq|cbn; by rewrite Lp].
    split; [done|apply lookup_insert_eq|exact (br_lending _ _ _ _ _ _ Hb)|by rewrite app_nil_r|constructor| | |done|done].
    + intros y Hy. by eapply brought_frames.
    + intros y fy _ Hfy. by apply (br_frames _ _ _ _ _ _ Hb).
Qed.
End Maker.
