(* ===== verification/XltpDemo.v ===== *)
(** * A small protocol

    The messenger has a channel without a stream, the store no streams, and the
    tree the four calls.  The witnesses of the properties of requests and
    answers start from it. *)

From stdpp Require Import gmap.
From S2P Require Import Prelude Bytes Xline Lines Xformat Xtree Channel Avl Messenger Files Xlio XlioRun Lending StoreDemo Xltp Serving.

#[local] Open Scope Z_scope.
#[local] Arguments enc _ : simpl never.

(** Memory that is never short. *)
Definition demo_new_frame {W} (s : io W) (n : Z) : option (positive * xframe) :=
  Some (fresh (dom (g_frames (io_ms s))), mkframe 0 0 0 0 0 0 n n [] (replicate (Z.to_nat n) 0)).

Definition demo_new_stream {W} (s : io W) : option positive := Some (fresh (dom (io_streams s))).

Lemma demo_new_frame_ok {W} : new_frame_ok (@demo_new_frame W).
Proof.
  intros s n Hn. eexists _, _. split; [reflexivity|]. split; [apply not_elem_of_dom, is_fresh|].
  simpl. rewrite length_replicate. lia.
Qed.

Lemma demo_new_stream_ok {W} : new_stream_ok (@demo_new_stream W).
Proof. intros s. eexists. split; [reflexivity|]. apply not_elem_of_dom, is_fresh. Qed.

(** The channel is 9; [req] is the request it was opened with. *)
Definition demo_host (req : option positive) (frames : gmap positive xframe) : messenger :=
  mkmessenger (mkmsger 0 0 0) 0 (mkaddr 0 0 0) (mktree (mkavl ∅ None) 0) 0 None None
    {[ 9%positive := mkchan (xchannel_create 0 XPACK_SERIAL_RANGE <| c_req := req |>) (mkaddr 0 0 0) (mkaddr 0 0 0) 0 None None None ]}
    frames 0 [].

Lemma demo_idle req frames : idle 9 [] (demo_host req frames).
Proof.
  split; [|simpl; lia]. eexists. split; [apply lookup_singleton_eq|]. cbn. split; [done|]. split; [done|].
  split; [rewrite length_replicate; unfold XMSG_BUF_RANGE; lia|]. split; [lia|]. split; [done|]. intros i m Hi. by rewrite lookup_nil in Hi.
Qed.

(** The protocol over a store that has no streams yet. *)
Definition demo_xltp {W} (w : W) (g : messenger) (a : gmap positive margs) : xltp W :=
  match xtree_create next_free ∅ with
  | Some (t, Some root) =>
      let add name api t := match xtree_add next_free root name (Some (address_of api)) t with Some (t, _) => t | None => ∅ end in
      mkxltp (mkio g a w ∅ Head Head [] [])
        (add n_get api_get (add n_put api_put (add n_boot api_boot (add n_echo api_echo t)))) (Some root) []
  | _ => mkxltp (mkio g a w ∅ Head Head [] []) ∅ None []
  end.

Lemma demo_os {W} (w : W) g a : lt_io (demo_xltp w g a) = mkio g a w ∅ Head Head [] [].
Proof. vm_compute. reflexivity. Qed.

(** A request that has arrived, the frame 5. *)
Definition demo_request {W} (w : W) (fs : list (list Z * value)) : xltp W :=
  demo_xltp w (demo_host None {[ 5%positive := demo_frame (enc_fields fs) <| f_type := XPACK_TYPE_REQ |> ]}) ∅.

(** The acceptance of the request 6, the frame 5; the client's message is 8. *)
Definition demo_accepted {W} (w : W) (cb : callback) (cfs : list (list Z * value)) : xltp W :=
  demo_xltp w (demo_host (Some 6%positive) {[ 5%positive := demo_frame (enc_fields accepted); 6%positive := demo_frame [];
    8%positive := demo_frame (enc_fields cfs) ]})
    {[ 6%positive := mkargs 0 (Some cb) (Some 8%positive) None None; 8%positive := mkargs 0 None None None None ]}.

Lemma demo_request_os {W} (w : W) fs : io_os (lt_io (demo_request w fs)) = w.
Proof. unfold demo_request. by rewrite demo_os. Qed.
Lemma demo_accepted_os {W} (w : W) cb cfs : io_os (lt_io (demo_accepted w cb cfs)) = w.
Proof. unfold demo_accepted. by rewrite demo_os. Qed.

(** One file. *)
Definition demo_disk : MemFs.memfs := MemFs.mkmem {[ [97] := [1; 2; 3] ]} ∅ 3.

Lemma demo_uploads : opens IOSTREAM_TYPE_UPLOAD [97] demo_disk demo_disk 3.
Proof. unfold opens. rewrite decide_True by done. by split_and!. Qed.

Lemma demo_downloads : opens IOSTREAM_TYPE_DOWNLOAD [97] demo_disk demo_disk 0.
Proof. unfold opens. rewrite decide_False by done. by split. Qed.
