(* ===== verification/Handshake.v ===== *)
(** * Requests and answers

    From the client's call to the streams on both sides: [xltp_get] makes a
    request, the peer serves it and accepts, and the answer starts the other
    end; the same for [xltp_put], with the ends exchanged.  Each theorem runs
    the callback of the messenger, the loop of the protocol and, where a message
    is passed on, the turn of the file store. *)

From stdpp Require Import gmap.
From S2P Require Import Prelude Bytes Xline Lines Xformat Channel Messenger Files Xlio XlioRun Transfer Lending Upload StoreDemo UploadRun Download FileCopy Exchange Offer Xltp Serving XltpDemo.

#[local] Open Scope Z_scope.
#[local] Arguments __xl_n2b _ _ : simpl never.
#[local] Arguments enc _ : simpl never.
#[local] Opaque URI_SIZE.

(** ** Computations of the protocol *)

Section LRuns.
Context {W : Type}.

Definition lruns {A} (m : L W A) (x : xltp W) (Q : xltp W -> A -> Prop) : Prop :=
  exists x' a, m x = Some (x', Some a) /\ Q x' a.

Lemma lruns_bind {A B} (m : L W A) (k : A -> L W B) x Q :
  lruns m x (fun x' a => lruns (k a) x' Q) -> lruns (m ≫= k) x Q.
Proof.
  intros (x' & a & E & x'' & b & E' & HQ). exists x'', b. split; [|done]. unfold mbind, L_bind. by rewrite E.
Qed.

Lemma lruns_within {A} (m : M W A) x Q :
  runs m (lt_io x) (fun i a => Q (x <| lt_io := i |>) a) -> lruns (within m) x Q.
Proof. intros (i & a & E & HQ). exists (x <| lt_io := i |>), a. split; [|done]. unfold within. by rewrite E. Qed.

Lemma lruns_ret {A} (a : A) x (Q : xltp W -> A -> Prop) : Q x a -> lruns (mret a) x Q.
Proof. intros H. by exists x, a. Qed.

Lemma lruns_clean {A} (m h : L W A) x Q : lruns m x Q -> lruns (l_clean m h) x Q.
Proof. intros (x' & a & E & HQ). exists x', a. unfold l_clean. by rewrite E. Qed.

Lemma lruns_write ltp_ok p x (Q : xltp W -> unit -> Prop) : (forall s, ltp_ok s = true) ->
  Q (x <| lt_pipe := lt_pipe x ++ [p] |>) tt -> lruns (write_msg ltp_ok p) x Q.
Proof. intros H HQ. eexists _, tt. split; [|exact HQ]. unfold write_msg. by rewrite H. Qed.
End LRuns.

Section Handshake.
Context {W : Type} `{Uv W}.
Context (malloc : Z -> option xframe) (new_frame : io W -> Z -> option (positive * xframe))
  (new_stream : io W -> option positive) (pipe_ok ltp_ok sent : io W -> bool)
  (show_double : Z -> list Z) (junk : Z -> list Z)
  (addr_ip : addr -> list Z) (addr_port : addr -> Z) (host_to_addr : list Z -> Z -> option addr) (scan_fuel : nat).

Abbreviation turn := (xltp_turn malloc new_frame new_stream pipe_ok sent show_double junk addr_ip addr_port host_to_addr).
Abbreviation loop := (xltp_loop malloc new_frame new_stream pipe_ok sent show_double junk addr_ip addr_port host_to_addr).
Abbreviation store_turn := (io_turn malloc new_frame sent scan_fuel).
Abbreviation serve := (run_api malloc new_frame new_stream pipe_ok sent show_double junk addr_ip addr_port).
Abbreviation answer := (run_cb malloc new_frame new_stream pipe_ok sent show_double junk host_to_addr).

(** What is relied on: memory, pipes and sockets do their work. *)
Record works : Prop := {
  wk_frame : new_frame_ok new_frame;
  wk_stream : new_stream_ok new_stream;
  wk_pipe s : pipe_ok s = true;
  wk_ltp s : ltp_ok s = true;
  wk_sent s : sent s = true;
  wk_double x : clean_text (show_double x);
}.

(** The tree of the calls answers for the four names. *)
Definition knows (lookup : list Z -> option (option Z)) (name : list Z) (a : api) : Prop := lookup name = Some (Some (address_of a)).

Lemma api_address a : api_at (address_of a) = Some a.
Proof using Type. by destruct a. Qed.

(** ** Messages *)

(** A message that the messenger hands over. *)
Record message (s : io W) (u : positive) (type : Z) (fs : list (list Z * value)) : Prop := {
  ms_frame : exists f, g_frames (io_ms s) !! u = Some f /\ is_message f fs /\ f_type f = type /\ f_ref f = 1;
  ms_doc : doc_ok fs;
}.

(** A frame with its arguments as the callback leaves them. *)
Definition arrived_from (s : io W) (c u : positive) (ip : addr) : io W :=
  s <| io_args := <[u := mkargs XMSG_FLAG_RECV None None (Some ip) (Some c)]> (io_args s) |>.

Lemma runs_from_peer x c u ch f Q : works -> g_frames (io_ms (lt_io x)) !! u = Some f -> g_chans (io_ms (lt_io x)) !! c = Some ch ->
  Q (x <| lt_io := arrived_from (lt_io x) c u (x_addr ch) |> <| lt_pipe := lt_pipe x ++ [Frame u] |>) tt ->
  lruns (on_message_from_peer ltp_ok c u) x Q.
Proof using Type.
  intros Hw Hu Hc HQ. unfold on_message_from_peer. apply lruns_bind, lruns_within. eapply run_bind, any_frame; [exact Hu|].
  apply run_bind. eapply any_on_ms; [rewrite Hc; reflexivity|]. apply runs_modify.
  unfold pass_on. apply lruns_bind, lruns_within. eapply any_set_args; [exact Hu|apply lookup_insert_eq|].
  apply lruns_clean, lruns_write; [apply Hw|]. simpl. unfold arrived_from in HQ. 
  rewrite insert_insert_eq. destruct x as [i ? ? ?]. destruct i. exact HQ.
Qed.

(** The loop on a pipe with one message. *)
Lemma runs_loop_one x p Q : lt_pipe x = [p] ->
  runs (turn (fun key => root ← lt_api x; Xtree.xtree_find root key (lt_tree x)) p) (lt_io x)
    (fun i go => go = true /\ Q (x <| lt_io := i |> <| lt_pipe := [] |>) true) ->
  lruns (loop 1) x Q.
Proof using Type.
  intros Hp Hrun. unfold lruns. cbn [xltp_loop]. rewrite Hp.
  match goal with |- exists x' a, ?m ?s = _ /\ _ => change (lruns m s Q) end.
  apply lruns_bind, lruns_within. eapply run_mono; [exact Hrun|]. intros i go [-> HQ].
  by exists (x <| lt_io := i |> <| lt_pipe := [] |>), true.
Qed.

(** ** Dispatch *)

Lemma runs_turn_recv lookup s c fq u f a Q :
  g_frames (io_ms s) !! u = Some f -> io_args s !! u = Some a -> a_flag a = XMSG_FLAG_RECV -> a_channel a = Some c ->
  idle c fq (io_ms s) ->
  runs (if decide (f_type f = XPACK_TYPE_REQ) then
          xltp_recv_req malloc new_frame new_stream pipe_ok sent show_double junk addr_ip addr_port lookup u
        else if decide (f_type f = XPACK_TYPE_MSG) then
          xltp_recv_msg malloc new_frame new_stream pipe_ok sent show_double junk host_to_addr u
        else if decide (f_type f = XPACK_TYPE_RES) then
          xltp_recv_res malloc new_frame new_stream pipe_ok sent show_double junk host_to_addr u
        else mret tt) s (fun i _ => Q i) ->
  runs (turn lookup (Frame u)) s (fun i go => go = true /\ Q i).
Proof using Type.
  intros Hu Ha Hf Hc [(ch & Hch & Hctx & _) _] Hrun. unfold xltp_turn. eapply run_bind, any_args_of; [done..|].
  rewrite Hf, decide_True by done. apply run_bind, runs_succeeds.
  unfold xltp_recv. eapply run_bind, any_channel_of; [done..|]. eapply run_bind, any_ctx; [exact Hch|]. rewrite Hctx.
  apply runs_clean. eapply run_bind, any_frame; [exact Hu|]. eapply run_mono; [exact Hrun|].
  intros i [] HQ. by apply runs_ret.
Qed.

(** A request goes to the handler of its name. *)
Lemma runs_recv_req lookup s u f fs name api Q :
  g_frames (io_ms s) !! u = Some f -> is_message f fs -> doc_ok fs -> (k_api, VStr (name ++ [0])) ∈ fs ->
  Forall (fun c => 0 < c < 256) name -> Z.of_nat (length name) < 2 ^ 62 -> knows lookup name api ->
  runs (serve api u) s Q ->
  runs (xltp_recv_req malloc new_frame new_stream pipe_ok sent show_double junk addr_ip addr_port lookup u) s Q.
Proof using Type.
  intros Hu Hmsg Hd Hin Hn Hl Hk Hrun. unfold xltp_recv_req. apply run_bind.
  eapply any_word_at; [exact Hu|exact Hmsg|done|repeat constructor; lia|exact Hin|done|done|].
  apply run_bind, runs_found, run_bind. eapply runs_lift; [exact Hk|]. apply run_bind, runs_found, run_bind.
  eapply runs_lift; [apply api_address|exact Hrun].
Qed.

(** An answer goes to the callback of the request. *)
Lemma runs_recv_msg s c ch u f a q fq aq cb Q :
  g_frames (io_ms s) !! u = Some f -> io_args s !! u = Some a -> a_channel a = Some c -> g_chans (io_ms s) !! c = Some ch ->
  c_req (x_ch ch) = Some q -> g_frames (io_ms s) !! q = Some fq -> io_args s !! q = Some aq -> a_cb aq = Some cb ->
  runs (answer cb u) s Q ->
  runs (xltp_recv_msg malloc new_frame new_stream pipe_ok sent show_double junk host_to_addr u) s Q.
Proof using Type.
  intros Hu Ha Hc Hch Hq Hfq Haq Hcb Hrun. unfold xltp_recv_msg. eapply run_bind, any_channel_of; [done..|].
  eapply run_bind, any_req; [exact Hch|]. rewrite Hq. apply run_bind, runs_found. eapply run_bind, any_args_of; [done..|].
  rewrite Hcb. by apply run_bind, runs_found.
Qed.

(** ** The turn of the store that begins a download *)

Lemma runs_post_turn s p c u fu x st own fl fq (Q : io W -> Prop) :
  io_streams s !! p = Some st -> s_channel st = Some c -> lending own fl (s_buf st) (g_frames (io_ms s)) -> (length fl < 4)%nat ->
  queue p c fq (io_ms s) -> (length fq < 8)%nat ->
  g_frames (io_ms s) !! u = Some fu -> f_ref fu = 1 -> u ∉ own -> io_args s !! u = Some x ->
  a_flag x = XMSG_FLAG_POST -> a_cb x = Some cb_post_download -> a_ctx x = Some p -> a_channel x = Some c ->
  (forall s' m f b, m ∈ own -> m ∉ fl -> g_frames (io_ms s') = delete u (<[m := f]> (g_frames (io_ms s))) ->
    queue p c (fq ++ [m]) (io_ms s') -> content f = enc_fields request_next -> f_type f = XPACK_TYPE_MSG ->
    lending own (fl ++ [m]) b (g_frames (io_ms s')) -> io_streams s' !! p = Some (st <| s_buf := b |>) -> io_os s' = io_os s ->
    io_pipe s' = io_pipe s -> io_cmds s' = io_cmds s -> Q s') ->
  runs (store_turn u) s (fun s' _ => Q s').
Proof using Type.
  intros Hst Hc Hl Hfl Hq Hfq Hu Href Huo Hx X1 X2 X3 X4 HQ. rewrite (foc_intro s p st Hst) at 1.
  unfold io_turn. apply run_bind. eapply runs_frame; [exact Hu|]. apply run_bind. eapply runs_args; [exact Hx|].
  apply run_bind. eapply runs_lift; [exact X4|]. apply run_bind. eapply runs_get_ctx; [exact Hq|].
  rewrite X1. unfold XMSG_FLAG_POST, XMSG_FLAG_RECV, XMSG_FLAG_BACK. rewrite !decide_False, decide_True by done.
  unfold turn_post. apply run_bind. eapply runs_args; [exact Hx|]. apply run_bind. eapply runs_lift; [exact X2|].
  apply run_bind. eapply runs_lift; [exact X3|]. apply run_bind, runs_succeeds. cbn [run_callback].
  unfold xlio_post_download. apply run_bind, runs_stream, run_bind. pose proof (lending_readable _ _ _ _ Hl) as Hread.
  apply runs_xcheck; [lia|]. apply run_bind. eapply runs_take_frame; [exact Hl|done|].
  intros m f b Hm Hin Hf Hfresh Hput. pose proof Hfresh as (Hok & Hsz & Hw0). unfold MSGBUF_SIZE in Hsz.
  set (i := slot (r_rpos (s_buf st)) (s_buf st)) in *. assert (m ≠ u) as Hne by (by intros ->).
  destruct (add_int_fits malloc k_api XLIO_STREAM_REQ_LIST (f <| f_id := i |>)) as (f2 & E2 & W2 & _); [done|simpl; lia| |].
  { rewrite field_length, int_length. simpl. lia. }
  apply run_bind. eapply runs_on_frame; [apply at_frame|exact E2|]. rewrite with_frame_at_twice.
  apply run_bind. eapply (runs_send_wrote _ p m c fq own fl f f2 i b request_next); [exact Hfresh| |exact Hc|done|done|exact Hput|].
  { unfold request_next. rewrite enc_fields_cons, enc_fields_nil, app_nil_r. exact W2. }
  intros g' f3 Hg' Hq' Hcont Hty Hl'. apply run_bind.
  eapply runs_free_last; [rewrite Hg', lookup_insert_ne by done; exact Hu|done|].
  apply runs_ret, runs_ret. apply (HQ _ m f3 b); try done; [by cbn; rewrite Hg'|by apply queue_frames|by apply lending_freed|apply lookup_insert_eq].
Qed.

(** ** Serving a request *)

Definition lookup_of (x : xltp W) (key : list Z) : option (option Z) :=
  root ← lt_api x; Xtree.xtree_find root key (lt_tree x).

Definition apis_ready (x : xltp W) : Prop :=
  knows (lookup_of x) n_echo api_echo /\ knows (lookup_of x) n_boot api_boot
  /\ knows (lookup_of x) n_put api_put /\ knows (lookup_of x) n_get api_get.

(** The protocol is at rest, its calls are known, and the messenger has the
    message [u] with the document [fs] for the channel [c], which has no stream. *)
Record at_rest (x : xltp W) (c : positive) (fq : list positive) (u : positive) (type : Z) (fs : list (list Z * value)) : Prop := {
  ar_pipe : lt_pipe x = [];
  ar_store : io_pipe (lt_io x) = [];
  ar_apis : apis_ready x;
  ar_list : list_ok (lt_io x);
  ar_idle : idle c fq (io_ms (lt_io x));
  ar_room : (length fq < 7)%nat;
  ar_got : message (lt_io x) u type fs;
}.

Lemma ring_of_field {A} (f : xlio_stream -> A) st0 st : (forall r b, f (r <| s_buf := b |>) = f r) -> ring_of st0 st -> f st = f st0.
Proof using Type. intros Hf E. rewrite E. apply Hf. Qed.

(** The callback and the loop, when the message is a request. *)
Lemma runs_request x c fq u fs name api f ch Q : works -> at_rest x c fq u XPACK_TYPE_REQ fs ->
  g_frames (io_ms (lt_io x)) !! u = Some f -> is_message f fs -> f_type f = XPACK_TYPE_REQ ->
  g_chans (io_ms (lt_io x)) !! c = Some ch ->
  (k_api, VStr (name ++ [0])) ∈ fs -> Forall (fun c => 0 < c < 256) name -> Z.of_nat (length name) < 2 ^ 62 ->
  knows (lookup_of x) name api ->
  runs (serve api u) (arrived_from (lt_io x) c u (x_addr ch)) (fun i _ => Q (x <| lt_io := i |>) true) ->
  lruns (on_message_from_peer ltp_ok c u;; loop 1) x Q.
Proof using Type.
  intros Hw [Hp _ _ _ Hidle _ [_ Hd]] Hu Hmsg Hty Hch Hin Hn Hl Hk Hrun.
  apply lruns_bind. eapply runs_from_peer; [exact Hw|exact Hu|exact Hch|]. rewrite Hp.
  eapply runs_loop_one; [reflexivity|]. cbn [lt_io lt_api lt_tree set_field].
  eapply (runs_turn_recv _ _ c fq u f); [exact Hu|apply lookup_insert_eq|done|done|exact Hidle|].
  rewrite Hty, decide_True by done. eapply runs_recv_req; [exact Hu|exact Hmsg|exact Hd|exact Hin|done|done|exact Hk|].
  eapply run_mono; [exact Hrun|]. intros i [] HQ. destruct x as [xi xt xa xp]. simpl in Hp. subst xp. exact HQ.
Qed.

(** What the uploader that was started does when it is asked for a list. *)
Definition will_offer (x : xltp W) (p c : positive) (own fl : list positive) (name : list Z) (size : Z) : Prop :=
  forall u s1, arrived p c own fl request_next u (lt_io x) s1 ->
    exists s2, store_turn u s1 = Some (s2, Some tt) /\ sends p c s1 s2 [offered name size].

Lemma uploader_offers x p c own fl st uri size last :
  uri_ok uri -> 0 <= size -> io_streams (lt_io x) !! p = Some st -> lending own fl (s_buf st) (g_frames (io_ms (lt_io x))) -> (length fl < 4)%nat ->
  ring_of (chosen IOSTREAM_TYPE_UPLOAD size uri own last c) st -> will_offer x p c own fl (base_name uri) size.
Proof using Type.
  intros Hu Hs Hst Hl Hfl Hr u s1 Har. pose proof Hu as (_ & Hlen & _). pose proof (name_len_le (rev uri)) as Hnl. rewrite length_rev in Hnl.
  assert (s_file_size st = size) as Hsz by (by apply (ring_of_field s_file_size _ _ ltac:(done) Hr)).
  destruct (single_offer malloc new_frame sent scan_fuel (lt_io x) s1 p c own fl u st (base_name uri)) as (s2 & b & m & H1 & H2 & _);
    [done|by apply (ring_of_field s_scanner _ _ ltac:(done) Hr)|lia| | |by apply (ring_of_field s_channel _ _ ltac:(done) Hr)|done..|].
  - rewrite (ring_of_field s_uri _ _ ltac:(done) Hr), (ring_of_field s_src_name_pos _ _ ltac:(done) Hr).
    change (s_uri (chosen _ _ _ _ _ _)) with (uri_buffer uri).
    change (s_src_name_pos (chosen _ _ _ _ _ _)) with (Z.of_nat (length uri) - Z.of_nat (name_len (rev uri))).
    rewrite <- Nat2Z.inj_sub by done. apply uri_read; [done|lia].
  - unfold base_name. rewrite length_drop. change URI_SIZE with 2048%nat in Hlen. lia.
  - exists s2. split; [done|]. by rewrite <- Hsz.
Qed.


(** ** Beginning a download *)

Lemma Forall2_snoc {A B} (R : A -> B -> Prop) l k a b : Forall2 R l k -> R a b -> Forall2 R (l ++ [a]) (k ++ [b]).
Proof using Type. intros. apply Forall2_app; [done|by repeat constructor]. Qed.

Lemma Forall2_in {A B} (R R' : A -> B -> Prop) l k : Forall2 R l k -> (forall a b, a ∈ l -> R a b -> R' a b) -> Forall2 R' l k.
Proof using Type.
  induction 1 as [|a b l k Hab _ IH]; intros HR; [constructor|]. constructor; [apply HR; [by left|done]|].
  apply IH. intros x y Hx. apply HR. by right.
Qed.

(** The store takes the message of the start from its pipe and asks for a list. *)
Lemma runs_begin s0 s p c fq st own fl ms gone req w fr ip : started s0 s p c fq st own fl ms gone w -> req ∈ gone ->
  s_channel st = Some c -> (length fl < 4)%nat -> (length (fq ++ fl) < 8)%nat -> io_pipe s = [req] ->
  g_frames (io_ms s) !! req = Some fr -> f_ref fr = 1 -> g_frames (io_ms s0) !! req = Some fr ->
  io_args s !! req = Some (mkargs XMSG_FLAG_POST (Some cb_post_download) (Some p) ip (Some c)) ->
  exists s' m b, xlio_loop malloc new_frame sent scan_fuel 1 s = Some (s', Some tt)
    /\ started s0 s' p c fq (st <| s_buf := b |>) own (fl ++ [m]) (ms ++ [request_next]) gone w
    /\ g_frames (io_ms s') !! req = None /\ io_pipe s' = []
    /\ (forall y, y ∉ own -> g_frames (io_ms s) !! y = None -> g_frames (io_ms s') !! y = None).
Proof using Type.
  intros [S1 S2 S3 S4 S5 S6 S7 S8 S9] Hgone Hc Hfl Hfq Hp Hr Href Hr0 Ha.
  assert (req ∉ own) as Hro by (intros Hin; rewrite (S6 _ Hin) in Hr0; done).
  assert (Hrun : runs (xlio_loop malloc new_frame sent scan_fuel 1) s (fun s' _ => exists m b,
    started s0 s' p c fq (st <| s_buf := b |>) own (fl ++ [m]) (ms ++ [request_next]) gone w
    /\ g_frames (io_ms s') !! req = None /\ io_pipe s' = []
    /\ (forall y, y ∉ own -> g_frames (io_ms s) !! y = None -> g_frames (io_ms s') !! y = None))).
  - cbn [xlio_loop]. apply run_bind, runs_gets. rewrite Hp. apply run_bind, runs_modify, run_bind.
    eapply run_mono; [eapply (runs_post_turn (s <| io_pipe := [] |>) p c req fr _ st own fl (fq ++ fl)
      (fun s' => io_pipe s' = [] /\ exists m b,
         started s0 s' p c fq (st <| s_buf := b |>) own (fl ++ [m]) (ms ++ [request_next]) gone w
         /\ g_frames (io_ms s') !! req = None /\ io_pipe s' = []
         /\ (forall y, y ∉ own -> g_frames (io_ms s) !! y = None -> g_frames (io_ms s') !! y = None)));
      [exact S2|exact Hc|exact S3|done|exact S4|exact Hfq|exact Hr|exact Href|exact Hro|exact Ha|done..|]|].
    + intros s' m f b Hm Hmfl Hg Hq Hcont Hty Hl Hst Hos Hpipe Hcmd. split; [done|]. exists m, b.
      assert (req ≠ m) as Hne by (by intros ->).
      split; [|split; [rewrite Hg; apply lookup_delete_eq|split; [done|]]].
      2: { intros y Hy Hny. rewrite Hg. destruct (decide (y = req)) as [->|Hyr]; [apply lookup_delete_eq|].
           rewrite lookup_delete_ne, lookup_insert_ne; [exact Hny|by intros <-|done]. }
      split; [done|exact Hst|exact Hl|by rewrite app_assoc| |done| |by rewrite Hos|by rewrite Hcmd].
      * apply Forall2_snoc.
        -- eapply Forall2_in; [exact S5|].
           intros y fs Hy (g & Hgy & G1 & G2). exists g. split; [|done]. rewrite Hg.
           pose proof (lending_in _ _ _ _ S3 Hy) as Hyo.
           by rewrite lookup_delete_ne, lookup_insert_ne by (intros <-; done).
        -- exists f. split; [|done]. by rewrite Hg, lookup_delete_ne, lookup_insert_eq by done.
      * intros y g Hy Hgy. pose proof (S7 _ _ Hy Hgy) as Hgs. rewrite Hg.
        rewrite lookup_delete_ne, lookup_insert_ne; [done| |by intros <-]. intros <-. by rewrite (S6 _ Hm) in Hgy.
    + intros s' [] [Hpipe HQ]. apply run_bind, runs_gets. rewrite Hpipe. by apply runs_ret.
  - destruct Hrun as (s' & [] & E & m & b & HQ). by exists s', m, b.
Qed.


(** ** Answers *)

(** The client has asked on the channel [c]: the request [q], with the message
    [m] of the client as its context, waits for an answer. *)
Record waiting_for (i : io W) (c u : positive) (cb : callback) (m : positive) (cfs : list (list Z * value)) : Prop := {
  wf_req : exists ch q fq aq, g_chans (io_ms i) !! c = Some ch /\ c_req (x_ch ch) = Some q /\ g_frames (io_ms i) !! q = Some fq
    /\ io_args i !! q = Some aq /\ a_cb aq = Some cb /\ a_ctx aq = Some m /\ q ≠ u;
  wf_frame : exists f, g_frames (io_ms i) !! m = Some f /\ is_message f cfs /\ f_ref f = 1;
  wf_doc : doc_ok cfs;
  wf_args : is_Some (io_args i !! m);
  wf_other : m ≠ u;
}.

Lemma accepted_ok : doc_ok accepted /\ printable (VObj accepted).
Proof using Type.
  split; [|done]. split; [|apply (bool_decide_unpack (NoDup [k_status])); by vm_compute].
  constructor; [|done]. split; [|cbn; lia]. split; [by repeat constructor|]. simpl. lia.
Qed.

(** The answer is short enough to be printed. *)
Lemma runs_print_accepted (s : io W) u f Q : (forall x, clean_text (show_double x)) -> g_frames (io_ms s) !! u = Some f -> is_message f accepted ->
  Q s tt -> runs (print_frame show_double u) s Q.
Proof using Type.
  intros Hd Hu Hmsg HQ. destruct accepted_ok as [[Hok _] Hp]. destruct (message_lies _ _ Hmsg) as [Hlies _].
  unfold print_frame. eapply run_bind, any_frame; [exact Hu|]. eapply run_bind, any_region; [exact Hu|]. apply run_bind.
  eapply runs_lift; [|by apply runs_ret].
  rewrite (printf_prints show_double Hd (region_of f) 0 accepted); [|by apply value_ok_obj|done|done|by vm_compute|by vm_compute].
  vm_compute. reflexivity.
Qed.

(** The callback and the loop, when the message is the acceptance of a request. *)
Lemma runs_answer x c fq u cb m cfs f (start : positive -> M W unit) Q : works -> at_rest x c fq u XPACK_TYPE_MSG accepted ->
  (forall y, answer cb y = (print_frame show_double y;; answered y start)) ->
  waiting_for (lt_io x) c u cb m cfs ->
  g_frames (io_ms (lt_io x)) !! u = Some f -> f_ref f = 1 -> is_message f accepted -> f_type f = XPACK_TYPE_MSG ->
  (forall s1 am, io_streams s1 = io_streams (lt_io x) -> io_ms s1 = io_ms (lt_io x) -> io_os s1 = io_os (lt_io x) ->
     io_last s1 = io_last (lt_io x) -> io_pipe s1 = io_pipe (lt_io x) -> io_cmds s1 = io_cmds (lt_io x) ->
     io_args s1 !! m = Some am -> a_channel am = Some c ->
     runs (start m) s1 (fun i _ => g_frames (io_ms i) !! u = Some f
       /\ Q (x <| lt_io := at_frames i (delete u (g_frames (io_ms i))) |>) true)) ->
  lruns (on_message_from_peer ltp_ok c u;; loop 1) x Q.
Proof using Type.
  intros Hw [Hp _ _ _ Hidle _ [_ Hd]] Hcb [(ch & q & fr & aq & Hch & Hq & Hfr & Haq & Hacb & Hactx & Hqu) (fm' & Hm & _ & _) _ [am Ham] Hmu]
    Hu Href Hmsg Hty Hrun.
  apply lruns_bind. eapply runs_from_peer; [exact Hw|exact Hu|exact Hch|]. rewrite Hp.
  eapply runs_loop_one; [reflexivity|]. cbn [lt_io lt_api lt_tree set_field].
  eapply (runs_turn_recv _ _ c fq u f); [exact Hu|apply lookup_insert_eq|done|done|exact Hidle|].
  rewrite Hty. unfold XPACK_TYPE_MSG, XPACK_TYPE_REQ. rewrite decide_False, decide_True by done.
  assert (Haq' : io_args (arrived_from (lt_io x) c u (x_addr ch)) !! q = Some aq) by (simpl; by rewrite lookup_insert_ne).
  eapply runs_recv_msg; [exact Hu|apply lookup_insert_eq|done|exact Hch|exact Hq|exact Hfr|exact Haq'|exact Hacb|].
  rewrite Hcb. apply run_bind. eapply runs_print_accepted; [apply Hw|exact Hu|exact Hmsg|].
  unfold answered. eapply run_bind, any_channel_of; [exact Hu|apply lookup_insert_eq|done|].
  eapply run_bind, any_req; [exact Hch|]. rewrite Hq. eapply run_bind, any_args_of; [exact Hfr|exact Haq'|]. rewrite Hactx.
  apply runs_clean, run_bind. eapply any_set_args; [exact Hm|simpl; by rewrite lookup_insert_ne|].
  apply run_bind. eapply run_mono; [apply (Hrun _ (am <| a_channel := Some c |>)); try done; apply lookup_insert_eq|].
  intros i [] [Hi HQ]. apply run_bind. eapply any_free_last; [exact Hi|done|]. apply runs_ret.
  destruct x as [xi xt xa xp]. simpl in Hp. subst xp. exact HQ.
Qed.


(** The acceptance of a ["put"]: the callback and the loop start an uploader
    for the file that the client has given, and free the answer and the message
    of the client; when the peer asks for a list, the store offers the file. *)
Theorem put_answered x c fq u m cfs uri size : works -> at_rest x c fq u XPACK_TYPE_MSG accepted ->
  waiting_for (lt_io x) c u cb_res_put m cfs -> (k_uri, VStr (uri ++ [0])) ∈ cfs -> uri_ok uri -> 0 <= size ->
  opens IOSTREAM_TYPE_UPLOAD uri (io_os (lt_io x)) (io_os (lt_io x)) size ->
  exists x' p own st, (on_message_from_peer ltp_ok c u;; loop 1) x = Some (x', Some true) /\ lt_pipe x' = []
    /\ started (lt_io x) (lt_io x') p c fq st own [] [] [u; m] (io_os (lt_io x))
    /\ s_flag st = IOSTREAM_TYPE_UPLOAD /\ s_channel st = Some c /\ s_file_size st = size
    /\ g_frames (io_ms (lt_io x')) !! u = None /\ g_frames (io_ms (lt_io x')) !! m = None
    /\ will_offer x' p c own [] (base_name uri) size.
Proof using Type.
  intros Hw Hat Hwait Hin Huri Hs Ho. pose proof Hat as [Hp Hsp _ Hl Hidle Hroom [(f & Hf & Hmsg & Hty & Href) _]].
  pose proof Hwait as [_ (fm & Hm & Hcmsg & Hmref) Hcd _ Hmu].
  assert (Hrun : lruns (on_message_from_peer ltp_ok c u;; loop 1) x (fun x' go => go = true /\ exists p own st, lt_pipe x' = []
    /\ started (lt_io x) (lt_io x') p c fq st own [] [] [u; m] (io_os (lt_io x))
    /\ s_flag st = IOSTREAM_TYPE_UPLOAD /\ s_channel st = Some c /\ s_file_size st = size
    /\ g_frames (io_ms (lt_io x')) !! u = None /\ g_frames (io_ms (lt_io x')) !! m = None
    /\ will_offer x' p c own [] (base_name uri) size)).
  - eapply (runs_answer x c fq u cb_res_put m cfs f); [exact Hw|exact Hat|done|exact Hwait|exact Hf|exact Href|exact Hmsg|exact Hty|].
    intros s1 am E1 E2 E3 E4 E5 E6 Ham Hac.
    eapply (runs_start_uploader new_frame new_stream (wk_frame Hw) (wk_stream Hw) s1);
      [rewrite E2; exact Hm|exact Hmref|exact Hcmsg|exact Hcd|exact Hin|exact Ham|exact Hac|rewrite E2; exact Hidle|lia|exact Huri| |by rewrite E3; exact Ho|].
    { unfold list_ok. by rewrite E4, E1. }
    intros s' p own fl st S Hring Hfree Hpipe.
    pose proof (Forall2_length _ _ _ (sd_bears _ _ _ _ _ _ _ _ _ _ _ S)) as Hfl. destruct fl as [|]; [|done].
    assert (g_frames (io_ms s') !! u = Some f) as Hu'.
    { apply (sd_frames _ _ _ _ _ _ _ _ _ _ _ S); [by apply not_elem_of_cons; split; [|apply not_elem_of_nil]|by rewrite E2]. }
    split; [done|]. split; [done|]. rewrite E3 in S.
    assert (S' : started s1 (at_frames s' (delete u (g_frames (io_ms s')))) p c fq st own [] [] [u; m] (io_os (lt_io x)))
      by (apply (started_free _ _ _ _ _ _ _ _ _ _ _ _ f S); by rewrite E2).
    exists p, own, st. split_and!; try done.
    + destruct S' as [S1 S2 S3 S4 S5 S6 S7 S8 S9]. rewrite E1 in S1. rewrite E6 in S9. rewrite E2 in S6, S7. by split.
    + by apply (ring_of_field s_flag _ _ ltac:(done) Hring).
    + by apply (ring_of_field s_channel _ _ ltac:(done) Hring).
    + by apply (ring_of_field s_file_size _ _ ltac:(done) Hring).
    + apply lookup_delete_eq.
    + cbn. by rewrite lookup_delete_ne by done.
    + eapply uploader_offers; [done|done|exact (sd_stream _ _ _ _ _ _ _ _ _ _ _ S')|exact (sd_lending _ _ _ _ _ _ _ _ _ _ _ S')|simpl; lia|exact Hring].
  - destruct Hrun as (x' & a & E & -> & p & own & st & HQ). by exists x', p, own, st.
Qed.
End Handshake.

(** ** Small runs *)

Lemma demo_works {W} : works (@demo_new_frame W) demo_new_stream (fun _ => true) (fun _ => true) (fun _ => true) (fun _ => []).
Proof. split; try done; [apply demo_new_frame_ok|apply demo_new_stream_ok|by intros _; apply Forall_nil]. Qed.

Lemma demo_apis {W} (w : W) g a : apis_ready (demo_xltp w g a).
Proof. split_and!; vm_compute; reflexivity. Qed.

Lemma demo_at_rest {W} (w : W) req frames a u type fs f : frames !! u = Some f -> is_message f fs -> f_type f = type -> f_ref f = 1 ->
  doc_ok fs -> at_rest (demo_xltp w (demo_host req frames) a) 9 [] u type fs.
Proof.
  intros Hu Hm Ht Hr Hd. split; [done|done|apply demo_apis|done|apply demo_idle|simpl; lia|]. split; [|done]. by exists f.
Qed.

(** The two words of a request fit into a frame. *)
Lemma demo_request_at_rest {W} (w : W) fs : Z.of_nat (length (enc_fields fs)) <= MSGBUF_SIZE -> doc_ok fs ->
  at_rest (demo_request w fs) 9 [] 5 XPACK_TYPE_REQ fs.
Proof.
  intros Hl Hd. apply (demo_at_rest w None _ ∅ 5 _ _ _ (lookup_singleton_eq _ _)); [|done..].
  pose proof (demo_message fs ltac:(lia)) as (H1 & H2 & H3). by split_and!.
Qed.

(** A request and a message of a client. *)
Definition demo_asks (name key : list Z) : list (list Z * value) := [(k_api, VStr (name ++ [0])); (key, VStr [97; 0])].
Definition demo_wants (k1 k2 : list Z) : list (list Z * value) := [(k1, VStr [97; 0]); (k2, VStr [98; 0])].

Lemma two_fields_ok k1 w1 k2 w2 : key_ok k1 -> key_ok k2 -> k1 ≠ k2 -> is_bytes w1 -> is_bytes w2 -> doc_ok [(k1, VStr w1); (k2, VStr w2)].
Proof.
  intros K1 K2 Hne W1 W2. split; [do 2 (apply Forall_cons; split; [by split|]); by apply Forall_nil|].
  change (NoDup [k1; k2]). apply NoDup_cons; split; [|apply NoDup_singleton]. by intros ?%list_elem_of_singleton.
Qed.

#[local] Ltac bytes := repeat (apply Forall_cons; split; [unfold is_byte; lia|]); by apply Forall_nil.
#[local] Ltac two_fields := apply two_fields_ok; [split; [bytes|simpl; lia]|split; [bytes|simpl; lia]|done|bytes|bytes].

Lemma demo_uri_ok : uri_ok [97].
Proof. split; [bytes|]. split; [change URI_SIZE with 2048%nat; simpl; lia|]. exists [], 97. by split. Qed.



Lemma demo_accepted_waits {W} (w : W) cb cfs : Z.of_nat (length (enc_fields cfs)) <= MSGBUF_SIZE -> doc_ok cfs ->
  at_rest (demo_accepted w cb cfs) 9 [] 5 XPACK_TYPE_MSG accepted /\ waiting_for (lt_io (demo_accepted w cb cfs)) 9 5 cb 8 cfs.
Proof.
  intros Hl Hd. pose proof (demo_message cfs ltac:(lia)) as Hcfs. split.
  - unfold demo_accepted. eapply demo_at_rest; [apply lookup_insert_eq|apply demo_message|done|done|apply accepted_ok].
    assert (Z.of_nat (length (enc_fields accepted)) <= MSGBUF_SIZE) by (vm_compute; discriminate). lia.
  - split; [|exists (demo_frame (enc_fields cfs)); split; [done|split; [exact Hcfs|done]]|done|by eexists|done].
    eexists _, 6%positive, (demo_frame []), (mkargs 0 (Some cb) (Some 8%positive) None None).
    split; [apply lookup_singleton_eq|]. by split_and!.
Qed.


Lemma put_answered_witness : exists x' p own st,
  (on_message_from_peer (fun _ => true) 9 5;;
   xltp_loop (fun _ => None) demo_new_frame demo_new_stream (fun _ => true) (fun _ => true) (fun _ => []) (fun _ => []) (fun _ => []) (fun _ => 0) (fun _ _ => None) 1)
    (demo_accepted demo_disk cb_res_put (demo_wants k_uri k_path)) = Some (x', Some true)
  /\ started (lt_io (demo_accepted demo_disk cb_res_put (demo_wants k_uri k_path))) (lt_io x') p 9 [] st own [] [] [5%positive; 8%positive] demo_disk
  /\ s_file_size st = 3
  /\ will_offer (fun _ => None) demo_new_frame (fun _ => true) 0 x' p 9 own [] [97] 3.
Proof.
  destruct (demo_accepted_waits demo_disk cb_res_put (demo_wants k_uri k_path)) as [Hr Hw]; [vm_compute; discriminate|two_fields|].
  destruct (put_answered (fun _ => None) demo_new_frame demo_new_stream (fun _ => true) (fun _ => true) (fun _ => true) (fun _ => []) (fun _ => [])
    (fun _ => []) (fun _ => 0) (fun _ _ => None) 0 _ 9 [] 5 8 _ [97] 3 demo_works Hr Hw)
    as (x' & p & own & st & E & _ & Hs & _ & _ & Hsz & _ & _ & Hoff).
  - by left.
  - apply demo_uri_ok.
  - lia.
  - rewrite demo_accepted_os. exact demo_uploads.
  - rewrite demo_accepted_os in Hs. assert (Hb : base_name [97] = [97]) by done. rewrite Hb in Hoff.
    exists x', p, own, st. split; [exact E|]. split; [exact Hs|]. split; [exact Hsz|exact Hoff].
Defined.
