(* ===== verification/Requests.v ===== *)
(** * Requests of a client

    From [xltp_get] and [xltp_put] to the channel: the message that the client
    leaves in the pipe, the request that the thread makes of it, and the channel
    that the messenger opens for it, which then waits for the answer. *)

From stdpp Require Import gmap.
From S2P Require Import Prelude Bytes Xline Lines Xformat Channel Avl AvlTree Messenger Peers Files Xlio XlioRun Transfer Lending Upload StoreDemo UploadRun Download FileCopy Exchange Offer Xltp Serving XltpDemo Handshake.

#[local] Open Scope Z_scope.
#[local] Arguments __xl_n2b _ _ : simpl never.
#[local] Arguments enc _ : simpl never.
#[local] Opaque URI_SIZE.

(** ** Messages of two words *)

Definition two_words (k1 w1 k2 w2 : list Z) : list (list Z * value) := [(k1, VStr (w1 ++ [0])); (k2, VStr (w2 ++ [0]))].

Definition word_ok (w : list Z) : Prop := Forall (fun c => 0 < c < 256) w /\ (length w < URI_SIZE)%nat.

Lemma word_field_ok k w : key_ok k -> word_ok w -> field_ok (k, VStr (w ++ [0])).
Proof.
  intros Hk [Hw _]. split; [exact Hk|]. simpl. apply Forall_app. split; [|by repeat constructor].
  eapply Forall_impl; [exact Hw|]. unfold is_byte. simpl. lia.
Qed.

Lemma two_words_ok k1 w1 k2 w2 : key_ok k1 -> key_ok k2 -> k1 ≠ k2 -> word_ok w1 -> word_ok w2 -> doc_ok (two_words k1 w1 k2 w2).
Proof.
  intros K1 K2 Hne W1 W2. split; [do 2 (apply Forall_cons; split; [by apply word_field_ok|]); by apply Forall_nil|].
  change (NoDup [k1; k2]). apply NoDup_cons; split; [|apply NoDup_singleton]. by intros ?%list_elem_of_singleton.
Qed.

Lemma word_length k w : word_ok w -> (length k <= 64)%nat -> Z.of_nat (length (enc_key k ++ enc (VStr (w ++ [0])))) <= 4096.
Proof.
  intros [_ Hw] Hk. change URI_SIZE with 2048%nat in Hw. rewrite field_length.
  change (enc (VStr (w ++ [0]))) with (enc_body XLINE_TYPE_STR (w ++ [0])). rewrite enc_body_length, length_app.
  cbn [length]. lia.
Qed.

Lemma two_words_message f f1 f2 k1 w1 k2 w2 : frame_ok f -> f_wpos f = 0 ->
  wrote f f1 (enc_key k1 ++ enc (VStr (w1 ++ [0]))) -> wrote f1 f2 (enc_key k2 ++ enc (VStr (w2 ++ [0]))) ->
  f_line f2 = __xl_n2b (f_wpos f2) XLINE_TYPE_OBJ ->
  is_message f2 (two_words k1 w1 k2 w2).
Proof.
  intros Hf Hw W1 W2 Hl. pose proof (wrote_app _ _ _ _ _ W1 W2) as ((Hok & Hc & _) & _). split; [done|]. split; [done|].
  rewrite Hc. unfold content at 1, two_words. by rewrite Hw, Z2Nat.inj_0, take_0, !enc_fields_cons, enc_fields_nil, app_nil_r.
Qed.

(** ** Computations from any state *)

Section Requests.
Context {W : Type} `{Uv W}.
Context (malloc : Z -> option xframe) (new_frame : io W -> Z -> option (positive * xframe))
  (new_stream : io W -> option positive) (pipe_ok ltp_ok sent : io W -> bool)
  (show_double : Z -> list Z) (junk : Z -> list Z)
  (addr_ip : addr -> list Z) (addr_port : addr -> Z) (host_to_addr : list Z -> Z -> option addr) (scan_fuel : nat).

Abbreviation loop := (xltp_loop malloc new_frame new_stream pipe_ok sent show_double junk addr_ip addr_port host_to_addr).

Lemma any_make_frame (s : io W) n Q : new_frame_ok new_frame -> 0 <= n <= 2 ^ 62 ->
  (forall m f, g_frames (io_ms s) !! m = None -> frame_ok f -> f_size f = n -> f_wpos f = 0 -> f_ref f = 1 ->
    Q (at_frames s (<[m := f]> (g_frames (io_ms s))) <| io_args := <[m := mkargs 0 None None None None]> (io_args s) |>) m) ->
  runs (make_frame new_frame n) s Q.
Proof using Type.
  intros Hnew Hn HQ. destruct (Hnew s n) as (m & f & E & Hm & Hl); [lia|].
  set (f' := f <| f_ref := 1 |> <| f_size := n |> <| f_wpos := 0 |> <| f_rpos := 0 |> <| f_spos := 0 |> <| f_range := 0 |>).
  eexists _, m. split; [unfold make_frame; rewrite E; reflexivity|]. apply (HQ m f'); try done. split_and!; simpl; lia.
Qed.

(** A word behind the others; the two calls differ in that the first does not
    look at the result. *)
Lemma any_add_word (s : io W) m f key word Q : g_frames (io_ms s) !! m = Some f -> frame_ok f -> (length key <= 64)%nat ->
  f_wpos f + Z.of_nat (length (enc_key key ++ enc (VStr (word ++ [0])))) <= f_size f ->
  (forall f', wrote f f' (enc_key key ++ enc (VStr (word ++ [0]))) -> f_line f' = __xl_n2b (f_wpos f') XLINE_TYPE_OBJ ->
    Q (at_frames s (<[m := f']> (g_frames (io_ms s))))) ->
  runs (add_any m (xl_add_word malloc key word)) s (fun s' _ => Q s')
  /\ runs (add m (xl_add_word malloc key word)) s (fun s' _ => Q s').
Proof using Type.
  intros Hm Hf Hk Hr HQ. destruct (add_word_fits malloc key word f Hf Hk Hr) as (f' & E & Hwr & Hl). specialize (HQ f' Hwr Hl).
  pose proof (wrote_not_eof _ _ _ Hwr). unfold add_any, add.
  split; (eapply run_bind, any_on_frame; [exact Hm|exact E|]); [by apply runs_ret|]. apply run_bind, runs_xcheck; [done|by apply runs_ret].
Qed.

(** ** The message of the client *)

(** The frame [m] has the words of the client. *)
Definition posted (s s' : io W) (m : positive) (f : xframe) (a : margs) : Prop :=
  g_frames (io_ms s) !! m = None
  /\ s' = s <| io_ms; g_frames := <[m := f]> (g_frames (io_ms s)) |> <| io_args := <[m := a]> (io_args s) |>.

Lemma post_words (x : xltp W) cb ip ctx k1 w1 k2 w2 set (Q : xltp W -> positive -> Prop) :
  new_frame_ok new_frame -> key_ok k1 -> key_ok k2 -> word_ok w1 -> word_ok w2 -> set = None /\ ctx = None \/ set = Some ctx ->
  (forall i m f, posted (lt_io x) i m f (mkargs XMSG_FLAG_POST (Some cb) ctx (Some ip) None) -> is_message f (two_words k1 w1 k2 w2) ->
     f_ref f = 1 -> Q (x <| lt_io := i |>) m) ->
  lruns (post_message new_frame cb (Some ip) (fun m =>
    match set with None => mret tt | Some ctx => set_args m (fun a => a <| a_ctx := ctx |>) end;;
    add_any m (xl_add_word malloc k1 w1);; add_any m (xl_add_word malloc k2 w2))) x Q.
Proof using Type.
  intros Hnew [K1 L1] [K2 L2] W1 W2 Hset HQ. pose proof (word_length k1 w1 W1 L1). pose proof (word_length k2 w2 W2 L2).
  unfold post_message. apply lruns_bind, lruns_within. unfold maker. apply any_make_frame; [done|unfold XLINE_MAKER_SIZE; lia|].
  intros m f Hm Hok Hsz Hw Href. unfold XLINE_MAKER_SIZE in Hsz. apply lruns_bind, lruns_within, run_bind.
  eapply any_set_args; [apply lookup_insert_eq|apply lookup_insert_eq|]. simpl. rewrite insert_insert_eq. apply run_bind.
  set (a := mkargs XMSG_FLAG_POST (Some cb) ctx (Some ip) None).
  assert (Hadd : runs (add_any m (xl_add_word malloc k1 w1);; add_any m (xl_add_word malloc k2 w2))
    (lt_io x <| io_ms; g_frames := <[m := f]> (g_frames (io_ms (lt_io x))) |> <| io_args := <[m := a]> (io_args (lt_io x)) |>)
    (fun i _ => Q (x <| lt_io := i |>) m)).
  { apply run_bind. eapply any_add_word; [apply lookup_insert_eq|done|done|lia|]. intros f1 Hw1 _.
    pose proof (wrote_wpos _ _ _ Hw1). pose proof (wrote_size _ _ _ Hw1).
    eapply any_add_word; [apply lookup_insert_eq|by eapply wrote_ok|done|lia|]. intros f2 Hw2 Hl.
    unfold at_frames. simpl. rewrite !insert_insert_eq.
    apply (HQ _ m f2); [by split|by eapply two_words_message|].
    pose proof (wrote_app _ _ _ _ _ Hw1 Hw2) as (_ & (Hr & _) & _). by rewrite Hr. }
  assert (Hend : forall i, Q (x <| lt_io := i |>) m -> lruns (mret m) (x <| lt_io := i |>) Q) by (intros; by apply lruns_ret).
  destruct Hset as [[-> ->]| ->].
  - apply runs_ret. eapply run_mono; [exact Hadd|]. intros i [] HQ'. by apply Hend.
  - eapply any_set_args; [apply lookup_insert_eq|apply lookup_insert_eq|]. simpl. rewrite insert_insert_eq.
    eapply run_mono; [exact Hadd|]. intros i [] HQ'. by apply Hend.
Qed.

(** ** The request *)

(** The thread has made the request [q] of the client's message [m], which
    stays, and has sent the command for a channel to [ip]. *)
Record asked (s s' : io W) (ip : addr) (cb : callback) (cfs rfs : list (list Z * value)) (m q : positive) : Prop := {
  ak_new : g_frames (io_ms s) !! m = None /\ g_frames (io_ms s) !! q = None /\ q ≠ m;
  ak_client : exists f, g_frames (io_ms s') !! m = Some f /\ is_message f cfs /\ f_ref f = 1;
  ak_request : exists f, g_frames (io_ms s') !! q = Some f /\ is_message f rfs /\ f_type f = XPACK_TYPE_REQ /\ f_ref f = 1;
  ak_args : io_args s' !! q = Some (mkargs 0 (Some cb) (Some m) (Some ip) None) /\ is_Some (io_args s' !! m);
  ak_cmds : io_cmds s' = io_cmds s ++ [mkcommand XPACK_TYPE_REQ (Some q) ip None None];
  ak_frames y f : g_frames (io_ms s) !! y = Some f -> g_frames (io_ms s') !! y = Some f;
  ak_rest : io_ms s' = io_ms s <| g_frames := g_frames (io_ms s') |>;
}.

(** A state with two more frames. *)
Definition with_two (s : io W) (m q : positive) (fm fq : xframe) (am aq : margs) : io W :=
  s <| io_ms; g_frames := <[q := fq]> (<[m := fm]> (g_frames (io_ms s))) |>
    <| io_args := <[q := aq]> (<[m := am]> (io_args s)) |>.

Lemma runs_make_request (s : io W) m q fm fq am cb Q : q ≠ m ->
  Q (with_two s m q fm fq am (mkargs 0 (Some cb) (Some m) (a_ipaddr am) None)) tt ->
  runs (make_request q m cb) (with_two s m q fm fq am (mkargs 0 None None None None)) Q.
Proof using Type.
  intros Hne HQ. unfold make_request, with_two in *.
  apply run_bind. eapply any_set_args; [apply lookup_insert_eq|apply lookup_insert_eq|]. simpl. rewrite insert_insert_eq.
  apply run_bind. eapply any_set_args; [apply lookup_insert_eq|apply lookup_insert_eq|]. simpl. rewrite insert_insert_eq.
  eapply run_bind, any_args_of; [simpl; rewrite lookup_insert_ne by done; apply lookup_insert_eq
    |simpl; rewrite lookup_insert_ne by done; apply lookup_insert_eq|].
  eapply any_set_args; [apply lookup_insert_eq|apply lookup_insert_eq|]. simpl. rewrite insert_insert_eq. exact HQ.
Qed.

Lemma runs_send_req (s : io W) m q fm fq am cb ip Q : (forall s, sent s = true) ->
  Q (with_two s m q fm (fq <| f_type := XPACK_TYPE_REQ |>) am (mkargs 0 (Some cb) (Some m) (Some ip) None)
       <| io_cmds := io_cmds s ++ [mkcommand XPACK_TYPE_REQ (Some q) ip None None] |>) tt ->
  runs (xltp_send_req sent q) (with_two s m q fm fq am (mkargs 0 (Some cb) (Some m) (Some ip) None)) Q.
Proof using Type.
  intros Hs HQ. unfold xltp_send_req, set_type.
  apply run_bind. eapply any_on_frame; [apply lookup_insert_eq|reflexivity|].
  eapply run_bind, any_args_of; [apply lookup_insert_eq|apply lookup_insert_eq|]. apply run_bind, (runs_lift _ ip); [done|].
  eexists _, tt. split; [|exact HQ]. unfold send_command. simpl. rewrite !lookup_insert_eq. cbn [mbind option_bind].
  rewrite Hs. unfold with_two. cbn. by rewrite insert_insert_eq.
Qed.

(** A second frame behind the client's. *)
Lemma runs_maker (s i : io W) m f a Q : new_frame_ok new_frame -> posted s i m f a ->
  (forall q fq, q ≠ m -> g_frames (io_ms s) !! q = None -> frame_ok fq -> f_size fq = XLINE_MAKER_SIZE -> f_wpos fq = 0 -> f_ref fq = 1 ->
    Q (with_two s m q f fq a (mkargs 0 None None None None)) (Some q)) ->
  runs (optional (maker new_frame)) i Q.
Proof using Type.
  intros Hnew [Hm ->] HQ.
  assert (Hrun : runs (maker new_frame) (s <| io_ms; g_frames := <[m := f]> (g_frames (io_ms s)) |> <| io_args := <[m := a]> (io_args s) |>)
    (fun i q => Q i (Some q))).
  - apply any_make_frame; [done|unfold XLINE_MAKER_SIZE; lia|]. simpl. intros q fq [Hq Hne]%lookup_insert_None Hok Hsz Hw Hr.
    by apply HQ.
  - destruct Hrun as (s' & q & E & HQ'). exists s', (Some q). split; [|done]. unfold optional. by rewrite E.
Qed.

Lemma asked_intro (s : io W) m q fm fq am cb ip cfs rfs : g_frames (io_ms s) !! m = None -> g_frames (io_ms s) !! q = None -> q ≠ m ->
  is_message fm cfs -> f_ref fm = 1 -> is_message fq rfs -> f_ref fq = 1 ->
  asked s (with_two s m q fm (fq <| f_type := XPACK_TYPE_REQ |>) am (mkargs 0 (Some cb) (Some m) (Some ip) None)
             <| io_cmds := io_cmds s ++ [mkcommand XPACK_TYPE_REQ (Some q) ip None None] |>) ip cb cfs rfs m q.
Proof using Type.
  intros Hm Hq Hne Hfm Hrm Hfq Hrq. split; [done| | | |done| |done].
  - exists fm. split; [simpl; rewrite lookup_insert_ne by done; apply lookup_insert_eq|done].
  - eexists. split; [apply lookup_insert_eq|]. by split.
  - split; [apply lookup_insert_eq|]. simpl. rewrite lookup_insert_ne by done. rewrite lookup_insert_eq. by eexists.
  - intros y f Hy. simpl. rewrite !lookup_insert_ne by congruence. exact Hy.
Qed.

(** [req_get] and [req_put] on a message of the client. *)
Lemma runs_req_get s i m f ctx path uri ip Q : new_frame_ok new_frame -> (forall s, sent s = true) -> word_ok path -> word_ok uri ->
  posted s i m f (mkargs XMSG_FLAG_POST (Some cb_req_get) ctx (Some ip) None) -> is_message f (two_words k_path path k_uri uri) -> f_ref f = 1 ->
  (forall i' q, asked s i' ip cb_res_get (two_words k_path path k_uri uri) (two_words k_api n_get k_uri uri) m q -> Q i') ->
  runs (req_get malloc new_frame sent m) i (fun i _ => Q i).
Proof using Type.
  intros Hnew Hsent Hp Hu Hpost Hmsg Href HQ. pose proof Hpost as [Hm Hi]. pose proof Hu as [Hub Hul].
  assert (Kp : key_ok k_path) by (split; [repeat constructor; lia|simpl; lia]).
  assert (Ku : key_ok k_uri) by (split; [repeat constructor; lia|simpl; lia]).
  pose proof (word_length k_uri uri Hu ltac:(apply Ku)) as Hlu.
  assert (Hln : Z.of_nat (length (enc_key k_api ++ enc (VStr (n_get ++ [0])))) <= 4096) by (by vm_compute).
  unfold req_get. apply run_bind. eapply any_word_at; [rewrite Hi; apply lookup_insert_eq|exact Hmsg|by apply two_words_ok|apply Ku
    |by right; left|done|change URI_SIZE with 2048%nat in Hul; lia|].
  apply run_bind, (runs_lift _ uri); [done|]. apply run_bind. eapply runs_maker; [done|exact Hpost|].
  intros q fq Hne Hq Hok Hsz Hw Hrq. unfold XLINE_MAKER_SIZE in Hsz. apply run_bind.
  eapply any_add_word; [apply lookup_insert_eq|done|simpl; lia|lia|]. intros f1 W1 _. pose proof (wrote_wpos _ _ _ W1). pose proof (wrote_size _ _ _ W1).
  unfold at_frames, with_two. cbn [io_ms g_frames set_field]. simpl. rewrite insert_insert_eq.
  apply run_bind. apply (runs_make_request s m q f f1); [done|]. apply run_bind.
  eapply any_add_word; [apply lookup_insert_eq|by eapply wrote_ok|apply Ku|lia|]. intros f2 W2 Hl.
  unfold at_frames, with_two. simpl. rewrite insert_insert_eq.
  apply runs_clean. apply (runs_send_req s m q f f2); [done|]. eapply HQ. apply asked_intro; try done.
  - by eapply two_words_message.
  - pose proof (wrote_app _ _ _ _ _ W1 W2) as (_ & (Hr & _) & _). congruence.
Qed.

Lemma runs_req_put s i m f ctx uri path ip Q : new_frame_ok new_frame -> (forall s, sent s = true) -> word_ok path -> word_ok uri ->
  posted s i m f (mkargs XMSG_FLAG_POST (Some cb_req_put) ctx (Some ip) None) -> is_message f (two_words k_uri uri k_path path) -> f_ref f = 1 ->
  (forall i' q, asked s i' ip cb_res_put (two_words k_uri uri k_path path) (two_words k_api n_put k_path path) m q -> Q i') ->
  runs (req_put malloc new_frame sent m) i (fun i _ => Q i).
Proof using Type.
  intros Hnew Hsent Hp Hu Hpost Hmsg Href HQ. pose proof Hpost as [Hm Hi]. pose proof Hp as [Hpb Hpl].
  assert (Kp : key_ok k_path) by (split; [repeat constructor; lia|simpl; lia]).
  assert (Ku : key_ok k_uri) by (split; [repeat constructor; lia|simpl; lia]).
  pose proof (word_length k_path path Hp ltac:(apply Kp)) as Hlp.
  assert (Hln : Z.of_nat (length (enc_key k_api ++ enc (VStr (n_put ++ [0])))) <= 4096) by (by vm_compute).
  unfold req_put. apply run_bind. eapply any_word_at; [rewrite Hi; apply lookup_insert_eq|exact Hmsg|by apply two_words_ok|apply Kp
    |by right; left|done|change URI_SIZE with 2048%nat in Hpl; lia|].
  apply run_bind. eapply runs_maker; [done|exact Hpost|].
  intros q fq Hne Hq Hok Hsz Hw Hrq. unfold XLINE_MAKER_SIZE in Hsz. apply runs_clean, run_bind.
  apply (runs_make_request s m q f fq); [done|]. apply run_bind.
  eapply any_add_word; [apply lookup_insert_eq|done|simpl; lia|lia|]. intros f1 W1 _. pose proof (wrote_wpos _ _ _ W1). pose proof (wrote_size _ _ _ W1).
  unfold at_frames, with_two. simpl. rewrite insert_insert_eq. apply run_bind.
  eapply any_add_word; [apply lookup_insert_eq|by eapply wrote_ok|apply Kp|lia|]. intros f2 W2 Hl.
  unfold at_frames. simpl. rewrite insert_insert_eq.
  apply (runs_send_req s m q f f2); [done|]. eapply HQ. apply asked_intro; try done.
  - by eapply two_words_message.
  - pose proof (wrote_app _ _ _ _ _ W1 W2) as (_ & (Hr & _) & _). congruence.
Qed.

(** ** From the call to the open channel *)

(** The messenger opens a channel for the command, on which the request waits
    for whatever answer arrives. *)
Definition opens_channel (s' : io W) (ip : addr) (cb : callback) (cfs : list (list Z * value)) (m q : positive) : Prop :=
  forall e calloc is_ipv6 c, fresh_address calloc -> messenger_ok (io_ms s') -> calloc (io_ms s') = Some c ->
    Z.of_nat (size (g_chans (io_ms s'))) < 2 ^ 16 ->
    exists g', xmsger_local_recv e calloc is_ipv6 (mkcommand XPACK_TYPE_REQ (Some q) ip None None) (io_ms s') = Some (g', 0)
      /\ messenger_ok g' /\ forall u, u ≠ m -> u ≠ q -> waiting_for (s' <| io_ms := g' |>) c u cb m cfs.

Lemma asked_opens s s' ip cb cfs rfs m q : asked s s' ip cb cfs rfs m q -> doc_ok cfs -> opens_channel s' ip cb cfs m q.
Proof using Type.
  intros [(Hm & Hq & Hne) (fm & Hfm & Hmsg & Hr) (fq & Hfq & _) [Haq Ham] _ _ _] Hd e calloc is_ipv6 c Hcal Hok Hc Hsz.
  destruct (connect_ok e calloc is_ipv6 Hcal (io_ms s') (mkcommand XPACK_TYPE_REQ (Some q) ip None None) q fq c Hok eq_refl eq_refl Hfq Hc Hsz)
    as (g' & E & Hok' & [(ch & n & Hch & _ & _ & _ & Hreq & _) _ Hfr]).
  exists g'. split; [exact E|]. split; [exact Hok'|]. intros u Hum Huq. split.
  - exists ch, q, (xl_hold (xmsg_fixed fq)), (mkargs 0 (Some cb) (Some m) (Some ip) None).
    split; [exact Hch|]. split; [exact Hreq|]. split; [simpl; rewrite Hfr; apply lookup_insert_eq|]. by split_and!.
  - exists fm. split; [|done]. simpl. rewrite Hfr. by rewrite lookup_insert_ne.
  - exact Hd.
  - exact Ham.
  - done.
Qed.

(** The turn in which a message of a client is taken. *)
Lemma loop_post (x : xltp W) m f a cb Q : lt_pipe x = [Frame m] -> g_frames (io_ms (lt_io x)) !! m = Some f -> io_args (lt_io x) !! m = Some a ->
  a_flag a = XMSG_FLAG_POST -> a_cb a = Some cb ->
  runs (run_cb malloc new_frame new_stream pipe_ok sent show_double junk host_to_addr cb m) (lt_io x)
    (fun i _ => Q (x <| lt_io := i |> <| lt_pipe := [] |>) true) ->
  lruns (loop 1) x Q.
Proof using Type.
  intros Hp Hf Ha Hflag Hcb Hrun. eapply runs_loop_one; [exact Hp|]. unfold xltp_turn. eapply run_bind, any_args_of; [exact Hf|exact Ha|].
  rewrite Hflag. unfold XMSG_FLAG_POST, XMSG_FLAG_RECV, XMSG_FLAG_BACK. rewrite !decide_False, decide_True by done.
  rewrite Hcb. apply runs_succeeds. eapply run_mono; [exact Hrun|]. intros i [] HQ. by split.
Qed.

(** C30: A client that gets a file: the message with its path and the name of the
    remote file goes through the pipe, the thread makes a request of it for that
    name and sends the command for a channel; and the messenger opens a channel
    on which the request, with the message as its context, waits for the answer. *)
Theorem get_requested (x : xltp W) path uri ip ctx : new_frame_ok new_frame -> (forall s, ltp_ok s = true) -> (forall s, sent s = true) ->
  lt_pipe x = [] -> word_ok path -> word_ok uri ->
  exists x' m q, (xltp_get malloc new_frame ltp_ok path uri (Some ip) ctx;; loop 1) x = Some (x', Some true) /\ lt_pipe x' = []
    /\ asked (lt_io x) (lt_io x') ip cb_res_get (two_words k_path path k_uri uri) (two_words k_api n_get k_uri uri) m q
    /\ opens_channel (lt_io x') ip cb_res_get (two_words k_path path k_uri uri) m q.
Proof using Type.
  intros Hnew Hltp Hsent Hp Hpath Huri.
  assert (Hd : doc_ok (two_words k_path path k_uri uri)).
  { by apply two_words_ok; [split; [repeat constructor; lia|simpl; lia]..| | |]. }
  assert (Hrun : lruns (xltp_get malloc new_frame ltp_ok path uri (Some ip) ctx;; loop 1) x (fun x' go => go = true /\ exists m q,
    lt_pipe x' = [] /\ asked (lt_io x) (lt_io x') ip cb_res_get (two_words k_path path k_uri uri) (two_words k_api n_get k_uri uri) m q)).
  - unfold xltp_get. apply lruns_bind, lruns_bind.
    apply (post_words x cb_req_get ip ctx k_path path k_uri uri (Some ctx)); [done|split; [repeat constructor; lia|simpl; lia]..|done|done|by right|].
    intros i m f Hpost Hmsg Href. unfold write_or_free. apply lruns_clean, lruns_write; [done|]. simpl. rewrite Hp.
    pose proof Hpost as [Hm Hi]. eapply (loop_post _ m f); [done|simpl; rewrite Hi; apply lookup_insert_eq|simpl; rewrite Hi; apply lookup_insert_eq|done|done|].
    cbn [run_cb]. eapply (runs_req_get (lt_io x) i m f ctx path uri ip); try done.
    intros i' q Hasked. split; [done|]. by exists m, q.
  - destruct Hrun as (x' & a & E & -> & m & q & Hpi & Hasked). exists x', m, q. split_and!; try done. by eapply asked_opens.
Qed.

(** A client that puts a file, in the same way; the request has the remote
    path. *)
Theorem put_requested (x : xltp W) uri path ip : new_frame_ok new_frame -> (forall s, ltp_ok s = true) -> (forall s, sent s = true) ->
  lt_pipe x = [] -> word_ok path -> word_ok uri ->
  exists x' m q, (xltp_put malloc new_frame ltp_ok uri path (Some ip);; loop 1) x = Some (x', Some true) /\ lt_pipe x' = []
    /\ asked (lt_io x) (lt_io x') ip cb_res_put (two_words k_uri uri k_path path) (two_words k_api n_put k_path path) m q
    /\ opens_channel (lt_io x') ip cb_res_put (two_words k_uri uri k_path path) m q.
Proof using Type.
  intros Hnew Hltp Hsent Hp Hpath Huri.
  assert (Hd : doc_ok (two_words k_uri uri k_path path)).
  { by apply two_words_ok; [split; [repeat constructor; lia|simpl; lia]..| | |]. }
  assert (Hrun : lruns (xltp_put malloc new_frame ltp_ok uri path (Some ip);; loop 1) x (fun x' go => go = true /\ exists m q,
    lt_pipe x' = [] /\ asked (lt_io x) (lt_io x') ip cb_res_put (two_words k_uri uri k_path path) (two_words k_api n_put k_path path) m q)).
  - unfold xltp_put. apply lruns_bind, lruns_bind.
    apply (post_words x cb_req_put ip None k_uri uri k_path path None); [done|split; [repeat constructor; lia|simpl; lia]..|done|done|by left|].
    intros i m f Hpost Hmsg Href. apply lruns_write; [done|]. simpl. rewrite Hp.
    pose proof Hpost as [Hm Hi]. eapply (loop_post _ m f); [done|simpl; rewrite Hi; apply lookup_insert_eq|simpl; rewrite Hi; apply lookup_insert_eq|done|done|].
    cbn [run_cb]. eapply (runs_req_put (lt_io x) i m f None uri path ip); try done.
    intros i' q Hasked. split; [done|]. by exists m, q.
  - destruct Hrun as (x' & a & E & -> & m & q & Hpi & Hasked). exists x', m, q. split_and!; try done. by eapply asked_opens.
Qed.
End Requests.

(** A client that gets the file "a" as "b", over a messenger without frames. *)
Definition demo_client : xltp MemFs.memfs := demo_xltp demo_disk (demo_host None ∅) ∅.

Lemma demo_word w : 0 < w < 256 -> word_ok [w].
Proof. intros Hw. split; [apply Forall_cons; split; [done|by apply Forall_nil]|]. change URI_SIZE with 2048%nat. simpl. lia. Qed.

Lemma get_requested_witness : exists x' m q,
  (xltp_get (fun _ => None) demo_new_frame (fun _ => true) [98] [97] (Some (mkaddr 1 2 3)) None;;
   xltp_loop (fun _ => None) demo_new_frame demo_new_stream (fun _ => true) (fun _ => true) (fun _ => []) (fun _ => []) (fun _ => []) (fun _ => 0) (fun _ _ => None) 1)
    demo_client = Some (x', Some true)
  /\ asked (lt_io demo_client) (lt_io x') (mkaddr 1 2 3) cb_res_get (two_words k_path [98] k_uri [97]) (two_words k_api n_get k_uri [97]) m q.
Proof.
  destruct (get_requested (fun _ => None) demo_new_frame demo_new_stream (fun _ => true) (fun _ => true) (fun _ => true) (fun _ => []) (fun _ => [])
    (fun _ => []) (fun _ => 0) (fun _ _ => None) demo_client [98] [97] (mkaddr 1 2 3) None demo_new_frame_ok) as (x' & m & q & E & _ & Ha & _).
  - done.
  - done.
  - vm_compute. reflexivity.
  - apply demo_word. lia.
  - apply demo_word. lia.
  - exists x', m, q. split; [exact E|exact Ha].
Defined.
