(* ===== verification/XltpFaults.v ===== *)
(** * Requests that are not served, and the end

    What [xltp.c] does with a request that it does not know, with one that it
    refuses, and when it is freed.  A refused request becomes its own answer, but
    its frame is also freed, by [xlio_start_uploader] or by [xltp_recv]; and
    [xltp_free] frees the channels before the streams that refer to them. *)

From stdpp Require Import gmap.
From S2P Require Import Prelude Bytes Xline Lines Xformat Xtree XtreeMap Channel Avl AvlTree Messenger Peers Files Xlio XlioRun Transfer Lending Upload StoreDemo UploadRun Download FileCopy Exchange Offer Xltp Serving XltpDemo Handshake.

#[local] Open Scope Z_scope.
#[local] Arguments __xl_n2b _ _ : simpl never.
#[local] Arguments enc _ : simpl never.
#[local] Opaque URI_SIZE.

(** ** Faults and failures *)

Section Faults.
Context {W : Type}.
Implicit Types s : io W.

Definition faults {A} (m : M W A) s : Prop := m s = None.

Lemma faults_here {A B} (m : M W A) (k : A -> M W B) s : faults m s -> faults (m ≫= k) s.
Proof. unfold faults, mbind, M_bind. by intros ->. Qed.

Lemma faults_bind {A B} (m : M W A) (k : A -> M W B) s : runs m s (fun s a => faults (k a) s) -> faults (m ≫= k) s.
Proof. intros (s' & a & E & H). unfold faults, mbind, M_bind. by rewrite E. Qed.

Lemma faults_clean {A} (m h : M W A) s : fails m s (faults h) -> faults (clean m h) s.
Proof. intros (s' & E & H). unfold faults, clean. by rewrite E. Qed.

Lemma faults_inside {A} (m h : M W A) s : faults m s -> faults (clean m h) s.
Proof. unfold faults, clean. by intros ->. Qed.

Lemma faults_succeeds (m : M W unit) s : faults m s -> faults (succeeds m) s.
Proof. unfold faults, succeeds. by intros ->. Qed.

Lemma faults_frame s m : g_frames (io_ms s) !! m = None -> faults (frame m) s.
Proof. intros E. unfold faults, frame, frames, gets, lift, mbind, M_bind. by rewrite E. Qed.

Lemma faults_on_frame {A} s m (h : xframe -> option (xframe * A)) : g_frames (io_ms s) !! m = None -> faults (on_frame m h) s.
Proof. intros E. unfold on_frame. by apply faults_here, faults_frame. Qed.

Lemma fails_here {A B} (m : M W A) (k : A -> M W B) s Q : fails m s Q -> fails (m ≫= k) s Q.
Proof. intros (s' & E & H). exists s'. split; [|done]. unfold mbind, M_bind. by rewrite E. Qed.

Lemma fails_bind {A B} (m : M W A) (k : A -> M W B) s Q : runs m s (fun s a => fails (k a) s Q) -> fails (m ≫= k) s Q.
Proof. intros (s' & a & E & s'' & E' & H). exists s''. split; [|done]. unfold mbind, M_bind. by rewrite E. Qed.

Lemma fails_fail {A} s (Q : io W -> Prop) : Q s -> fails (@fail W A) s Q.
Proof. intros H. by exists s. Qed.

Lemma fails_clean {A} (m h : M W A) s Q : fails m s (fun s => fails h s Q) -> fails (clean m h) s Q.
Proof. intros (s' & E & s'' & E' & H). exists s''. split; [|done]. unfold clean. by rewrite E. Qed.

Lemma fails_succeeds (m : M W unit) s (Q : io W -> bool -> Prop) : fails m s (fun s => Q s false) -> runs (succeeds m) s Q.
Proof. intros (s' & E & H). exists s', false. split; [|done]. unfold succeeds. by rewrite E. Qed.

Lemma fails_xcheck (b : Prop) `{Decision b} s (Q : io W -> Prop) : b -> Q s -> fails (xcheck b) s Q.
Proof. intros Hb HQ. unfold xcheck. rewrite decide_True by done. by apply fails_fail. Qed.

Lemma fails_mono {A} (m : M W A) s (P Q : io W -> Prop) : fails m s P -> (forall s, P s -> Q s) -> fails m s Q.
Proof. intros (s' & E & HP) H. exists s'. auto. Qed.
End Faults.

Section XltpFaults.
Context {W : Type} `{Uv W}.
Context (malloc : Z -> option xframe) (new_frame : io W -> Z -> option (positive * xframe))
  (new_stream : io W -> option positive) (pipe_ok ltp_ok sent : io W -> bool)
  (show_double : Z -> list Z) (junk : Z -> list Z)
  (addr_ip : addr -> list Z) (addr_port : addr -> Z) (host_to_addr : list Z -> Z -> option addr) (scan_fuel : nat).

Abbreviation loop := (xltp_loop malloc new_frame new_stream pipe_ok sent show_double junk addr_ip addr_port host_to_addr).

(** ** A stream that cannot be made *)

(** [open_uri] fails and leaves the file system as [w']. *)
Definition refuses (type : Z) (uri : list Z) (w w' : W) : Prop :=
  if decide (type = IOSTREAM_TYPE_UPLOAD)
  then __fs_dir_exist uri w = false /\ __fs_file_exist uri w = false /\ w' = w
  else exists r, __fs_path_maker (Some uri) w = Some (w', r) /\ r ≠ 0.

Lemma open_uri_fails (s : io W) p type uri w w' g a Q : uri_ok uri -> refuses type uri w w' ->
  Q (foc s p g (named type uri) w' a) -> fails (open_uri p uri) (foc s p g (named type uri) w a) Q.
Proof using Type.
  intros Hu Ho HQ. pose proof (uri_read uri 0 Hu ltac:(lia)) as Hr.
  unfold open_uri. apply fails_bind, runs_stream, fails_bind. eapply runs_lift; [exact Hr|]. rewrite drop_0.
  change (s_flag (named type uri)) with type. unfold refuses in Ho. case_decide.
  - destruct Ho as (H1 & H2 & ->). apply fails_bind, runs_gets. simpl. rewrite H1.
    apply fails_bind, runs_gets. simpl. rewrite H2. apply fails_here, fails_xcheck; [done|]. exact HQ.
  - destruct Ho as (r & H1 & H2). apply fails_bind, runs_gets, fails_bind. eapply runs_lift; [exact H1|].
    apply fails_bind, runs_modify, fails_xcheck; [done|]. exact HQ.
Qed.

(** The stream is freed again, and nothing is left of it. *)
Lemma maker_fails (s : io W) type uri w' Q : new_stream_ok new_stream -> uri_ok uri -> refuses type uri (io_os s) w' ->
  Q (s <| io_os := w' |>) None -> runs (xlio_stream_maker new_frame new_stream sent uri type) s Q.
Proof using Type.
  intros Hstr Hu Ho HQ. destruct (Hstr s) as (p & E & Hp). pose proof Hu as (_ & Hlen & pre & c & Hpre & Hc).
  unfold xlio_stream_maker. apply run_bind, runs_gets. rewrite E. apply run_bind, fails_succeeds, fails_bind, runs_modify.
  replace (_ <| io_streams := _ |>) with (foc s p (io_ms s) (no_stream type) (io_os s) (io_args s)) by done.
  apply fails_bind. eapply runs_lift; [by apply (strip_ok uri pre c)|]. rewrite take_ge by lia.
  apply fails_bind. eapply runs_lift; [by apply uri_written|]. apply fails_bind, runs_upd.
  match goal with |- fails _ (foc _ _ _ ?st _ _) _ => change st with (named type uri) end.
  apply fails_here. eapply open_uri_fails; [done|exact Ho|].
  apply run_bind. unfold xlio_stream_free. apply run_bind, runs_stream, run_bind, runs_ret, run_bind, runs_ret, run_bind, runs_ret, run_bind.
  unfold free_upload_list. apply run_bind, runs_stream, runs_ret, run_bind, runs_ret, run_bind, runs_ret, runs_modify, runs_ret.
  unfold foc. cbn. destruct s. cbn in *. by rewrite delete_insert_id.
Qed.

Lemma start_stream_fails (s : io W) req fr key type fs uri w' Q : new_stream_ok new_stream ->
  g_frames (io_ms s) !! req = Some fr -> is_message fr fs -> doc_ok fs -> key_bytes key ->
  (key, VStr (uri ++ [0])) ∈ fs -> uri_ok uri -> refuses type uri (io_os s) w' ->
  Q (s <| io_os := w' |>) None -> runs (start_stream new_frame new_stream sent req key type) s Q.
Proof using Type.
  intros Hstr Hr Hmsg Hd Hk Hin Hu Ho HQ. destruct (message_lies _ _ Hmsg) as [Hlies Hlen]. pose proof Hu as (Huc & Hul & _).
  unfold start_stream. eapply run_bind, any_region; [exact Hr|]. apply run_bind. eapply runs_parser; [exact Hlies|lia|].
  intros ps Hps. destruct (find_elem _ _ _ _ _ _ _ Hd Hk Hps Hin) as (ps' & n & o & E & Hps' & Hlo).
  apply run_bind. eapply runs_lift; [exact E|]. apply run_bind, (runs_lift _ o); [done|].
  eapply run_bind, any_text; [by eapply at_field_mem|exact Hlo|done|change URI_SIZE with 2048%nat in Hul; lia|].
  apply run_bind. eapply maker_fails; [done|done|exact Ho|]. by apply runs_ret.
Qed.

(** ** The turn of a request *)

Abbreviation turn := (xltp_turn malloc new_frame new_stream pipe_ok sent show_double junk addr_ip addr_port host_to_addr).
Abbreviation recv_req := (xltp_recv_req malloc new_frame new_stream pipe_ok sent show_double junk addr_ip addr_port).
Abbreviation serve := (run_api malloc new_frame new_stream pipe_ok sent show_double junk addr_ip addr_port).

(** The request has come and its handler is to be called. *)
Lemma recv_req_goes lookup s u f fs name api :
  g_frames (io_ms s) !! u = Some f -> is_message f fs -> doc_ok fs -> (k_api, VStr (name ++ [0])) ∈ fs ->
  Forall (fun c => 0 < c < 256) name -> Z.of_nat (length name) < 2 ^ 62 -> knows lookup name api ->
  recv_req lookup u s = serve api u s.
Proof using Type.
  intros Hu Hmsg Hd Hin Hn Hl Hk. unfold xltp_recv_req.
  destruct (any_word_at s u f fs k_api name (fun s' a => s' = s /\ a = Some name)) as (s' & a & E & -> & ->);
    [done|done|done|repeat constructor; lia|done..|].
  unfold mbind, M_bind. rewrite E. cbn. unfold lift. rewrite Hk. cbn. by rewrite api_address.
Qed.

Lemma turn_req lookup s c fq u f a : g_frames (io_ms s) !! u = Some f -> io_args s !! u = Some a -> a_flag a = XMSG_FLAG_RECV ->
  a_channel a = Some c -> idle c fq (io_ms s) -> f_type f = XPACK_TYPE_REQ ->
  turn lookup (Frame u) s = (succeeds (clean (recv_req lookup u) (free_ptr u;; fail));; mret true) s.
Proof using Type.
  intros Hu Ha Hf Hc [(ch & Hch & Hctx & _) _] Hty.
  unfold xltp_turn, xltp_recv, channel_of, ctx_of_channel, args_of, frame, args, frames, on_ms, gets, lift, xchannel_get_ctx.
  unfold mbind, M_bind, option_bind, mret, M_ret. rewrite Hu, Ha, Hf, decide_True by done.
  unfold succeeds, clean. rewrite Hu, Ha, Hc, Hch, Hctx. cbn. destruct s as [g ? ? ? ? ? ? ?]. cbn in *. rewrite Hu, Hty. by rewrite decide_True.
Qed.

(** The callback and the loop come down to the request itself. *)
Lemma recv_once x c fq u f fs ch : works new_frame new_stream pipe_ok ltp_ok sent show_double -> at_rest x c fq u XPACK_TYPE_REQ fs ->
  g_frames (io_ms (lt_io x)) !! u = Some f -> f_type f = XPACK_TYPE_REQ -> g_chans (io_ms (lt_io x)) !! c = Some ch ->
  (on_message_from_peer ltp_ok c u;; loop 1) x
  = match clean (recv_req (lookup_of x) u) (free_ptr u;; fail) (arrived_from (lt_io x) c u (x_addr ch)) with
    | Some (i, _) => Some (x <| lt_io := i |>, Some true)
    | None => None
    end.
Proof using Type.
  intros Hw [Hp _ _ _ Hidle _ _] Hu Hty Hch.
  set (i := arrived_from (lt_io x) c u (x_addr ch)).
  assert (E : on_message_from_peer ltp_ok c u x = Some (x <| lt_io := i |> <| lt_pipe := [Frame u] |>, Some tt)).
  { destruct (runs_from_peer new_frame new_stream pipe_ok ltp_ok sent show_double x c u ch f
      (fun x' _ => x' = x <| lt_io := i |> <| lt_pipe := [Frame u] |>) Hw Hu Hch) as (x' & [] & E & ->); [by rewrite Hp|exact E]. }
  unfold mbind at 1, L_bind. rewrite E. cbn [xltp_loop lt_pipe lt_api lt_tree lt_io set_field].
  change (fun key => root ← lt_api x; Xtree.xtree_find root key (lt_tree x)) with (lookup_of x).
  unfold mbind at 1, L_bind, within. cbn [lt_io].
  rewrite (turn_req _ i c fq u f (mkargs XMSG_FLAG_RECV None None (Some (x_addr ch)) (Some c)));
    [|exact Hu|apply lookup_insert_eq|done|done|exact Hidle|exact Hty].
  unfold mbind at 1, M_bind, succeeds. destruct (clean _ _ i) as [[j r]|]; [|done]. cbn. by rewrite Hp.
Qed.

Abbreviation works := (works new_frame new_stream pipe_ok ltp_ok sent show_double).

(** ** Requests that cannot be served *)

(** C40: A ["get"] for what is neither a file nor a directory is not refused: the
    frame of the request is freed when the uploader cannot be started, and then
    cleared to become the answer, after it has been freed. *)
Theorem missing_get_faults x c fq u fs uri : works -> at_rest x c fq u XPACK_TYPE_REQ fs ->
  (k_api, VStr (n_get ++ [0])) ∈ fs -> (k_uri, VStr (uri ++ [0])) ∈ fs -> uri_ok uri ->
  __fs_dir_exist uri (io_os (lt_io x)) = false -> __fs_file_exist uri (io_os (lt_io x)) = false ->
  (on_message_from_peer ltp_ok c u;; loop 1) x = None.
Proof using Type.
  intros Hw Hat Hapi Huri Hu Hdir Hfile. pose proof Hat as [_ _ (_ & _ & _ & Hk) _ Hidle _ [(f & Hf & Hmsg & Hty & Href) Hd]].
  pose proof Hidle as [(ch & Hch & _) _]. rewrite (recv_once _ _ _ _ f _ ch Hw Hat) by done.
  set (i := arrived_from _ _ _ _).
  assert (Hfault : faults (recv_req (lookup_of x) u) i).
  { unfold faults. rewrite (recv_req_goes _ _ _ f fs n_get api_get) by first [done|repeat constructor; lia|simpl; lia].
    cbn [run_api]. unfold serve_get. apply faults_clean. unfold xlio_start_uploader. apply fails_bind.
    eapply (start_stream_fails i u f); [apply Hw|exact Hf|exact Hmsg|exact Hd|repeat constructor; lia|exact Huri|exact Hu|by split|].
    apply fails_clean, fails_here, fails_fail. apply fails_bind, runs_ret, fails_bind.
    eapply any_free_last; [exact Hf|exact Href|]. apply fails_fail.
    unfold refuse. apply faults_here. unfold clear_frame. apply faults_on_frame, lookup_delete_eq. }
  by rewrite (faults_inside _ (free_ptr u;; fail) _ Hfault).
Qed.

(** The answer fits into the frame of the request. *)
Lemma elem_length k v (fs : list (list Z * value)) : (k, v) ∈ fs -> (length (enc_key k ++ enc v) <= length (enc_fields fs))%nat.
Proof using Type.
  intros Hin. induction fs as [|[k' v'] fs IH]; [by apply not_elem_of_nil in Hin|]. rewrite enc_fields_cons, !length_app.
  apply elem_of_cons in Hin as [[= <- <-]|Hin]; [lia|]. specialize (IH Hin). rewrite length_app in IH. lia.
Qed.

(** A ["put"] for a path that cannot be made is refused with the code 400:
    the frame of the request becomes the answer and its command is sent, but then
    [xltp_recv] frees the frame, so that the messenger finds the command to refer
    to a frame that is gone. *)
Theorem put_refused x c fq u fs path w' r : works -> at_rest x c fq u XPACK_TYPE_REQ fs ->
  (k_api, VStr (n_put ++ [0])) ∈ fs -> (k_path, VStr (path ++ [0])) ∈ fs -> uri_ok path ->
  __fs_path_maker (Some path) (io_os (lt_io x)) = Some (w', r) -> r ≠ 0 ->
  exists x' cmd, (on_message_from_peer ltp_ok c u;; loop 1) x = Some (x', Some true)
    /\ io_os (lt_io x') = w' /\ io_streams (lt_io x') = io_streams (lt_io x)
    /\ g_frames (io_ms (lt_io x')) = delete u (g_frames (io_ms (lt_io x)))
    /\ io_cmds (lt_io x') = io_cmds (lt_io x) ++ [cmd] /\ l_type cmd = XPACK_TYPE_RES /\ l_msg cmd = Some u
    /\ forall e calloc is_ipv6, xmsger_local_recv e calloc is_ipv6 cmd (io_ms (lt_io x')) = None.
Proof using Type.
  intros Hw Hat Hapi Hpath Hu Hmk Hr. pose proof Hat as [_ _ (_ & _ & Hk & _) _ Hidle _ [(f & Hf & Hmsg & Hty & Href) Hd]].
  pose proof Hidle as [(ch & Hch & _) _]. rewrite (recv_once _ _ _ _ f _ ch Hw Hat) by done.
  set (i := arrived_from _ _ _ _). set (cmd := mkcommand XPACK_TYPE_RES (Some u) (x_addr ch) (Some c) None).
  pose proof Hmsg as (Hok & _ & Hcont). pose proof (content_length f Hok) as Hlen. rewrite Hcont in Hlen.
  pose proof (elem_length _ _ _ Hapi) as Hel. rewrite field_length in Hel. change (length (enc (VStr (n_put ++ [0])))) with 13%nat in Hel.
  cbn [length k_api] in Hel. pose proof Hok as (Hwp & _).
  destruct (add_uint_fits malloc k_code 400 (xl_clear f)) as (f2 & E2 & W2 & _);
    [destruct Hok as (? & ? & ?); split_and!; simpl; lia|simpl; lia|rewrite field_length, uint_length; simpl; lia|].
  assert (Hfail : fails (clean (recv_req (lookup_of x) u) (free_ptr u;; fail)) i (fun j => io_os j = w'
    /\ io_streams j = io_streams (lt_io x) /\ g_frames (io_ms j) = delete u (g_frames (io_ms (lt_io x)))
    /\ io_cmds j = io_cmds (lt_io x) ++ [cmd])).
  { unfold fails. apply fails_clean. unfold fails at 1.
    rewrite (recv_req_goes _ _ _ f fs n_put api_put) by first [done|repeat constructor; lia|simpl; lia].
    cbn [run_api]. unfold serve_put. apply fails_clean. unfold xlio_start_downloader. apply fails_bind.
    eapply (start_stream_fails i u f); [apply Hw|exact Hf|exact Hmsg|exact Hd|repeat constructor; lia|exact Hpath|exact Hu|by exists r|].
    apply fails_clean, fails_here, fails_fail. apply fails_bind, runs_ret, fails_fail.
    unfold refuse. apply fails_bind. unfold clear_frame. eapply any_on_frame; [exact Hf|reflexivity|].
    apply fails_bind, run_bind. eapply any_on_frame; [apply lookup_insert_eq|exact E2|]. apply runs_ret.
    apply fails_bind. unfold xltp_send_res, set_type. apply run_bind. eapply any_on_frame; [apply lookup_insert_eq|reflexivity|].
    eapply run_bind, any_args_of; [apply lookup_insert_eq|apply lookup_insert_eq|].
    unfold send_command. eexists _, tt. simpl. rewrite !lookup_insert_eq. cbn [mbind option_bind].
    rewrite (wk_sent _ _ _ _ _ _ Hw). split; [reflexivity|]. apply fails_fail. apply fails_bind.
    destruct W2 as (_ & (Hr2 & _) & _).
    eapply any_free_last; [apply lookup_insert_eq|by simpl; rewrite Hr2|]. apply fails_fail. split; [done|]. split; [done|].
    split; [|done]. cbn. by rewrite !insert_insert_eq, delete_insert_eq. }
  destruct Hfail as (j & E & H1 & H2 & H3 & H4). exists (x <| lt_io := j |>), cmd. rewrite E. split_and!; try done.
  intros e calloc is_ipv6. unfold xmsger_local_recv. cbn [l_type cmd]. rewrite decide_False, decide_True by done. cbn.
  unfold fix_frame. by rewrite H3, lookup_delete_eq.
Qed.

(** A request for a name that is not in the tree is dropped: its frame is
    freed, nothing is sent and nothing else changes. *)
Theorem unknown_request_dropped x c fq u fs name ch : works -> at_rest x c fq u XPACK_TYPE_REQ fs ->
  (k_api, VStr (name ++ [0])) ∈ fs -> Forall (fun c => 0 < c < 256) name -> Z.of_nat (length name) < 2 ^ 62 ->
  lookup_of x name = Some None -> g_chans (io_ms (lt_io x)) !! c = Some ch ->
  (on_message_from_peer ltp_ok c u;; loop 1) x
  = Some (x <| lt_io := at_frames (arrived_from (lt_io x) c u (x_addr ch)) (delete u (g_frames (io_ms (lt_io x)))) |>, Some true).
Proof using Type.
  intros Hw Hat Hapi Hn Hl Hk Hch. pose proof Hat as [_ _ _ _ _ _ [(f & Hf & Hmsg & Hty & Href) Hd]].
  rewrite (recv_once _ _ _ _ f _ ch Hw Hat) by done. set (i := arrived_from _ _ _ _).
  assert (Hfail : fails (clean (recv_req (lookup_of x) u) (free_ptr u;; fail)) i
    (fun j => j = at_frames i (delete u (g_frames (io_ms (lt_io x)))))).
  { apply fails_clean. unfold xltp_recv_req. apply fails_bind.
    eapply any_word_at; [exact Hf|exact Hmsg|exact Hd|repeat constructor; lia|exact Hapi|done|done|].
    apply fails_bind, runs_found, fails_bind. eapply runs_lift; [exact Hk|]. apply fails_here, fails_fail, fails_bind.
    eapply any_free_last; [exact Hf|exact Href|]. by apply fails_fail. }
  destruct Hfail as (j & -> & ->). done.
Qed.

(** ** Freeing the protocol *)

Lemma free_loop_all fuel : forall ps es g g', channels g ps es -> es ≡ₚ ps -> free_loop fuel (head ps) g = Some g' -> g_chans g' = ∅.
Proof using Type.
  induction fuel as [|fuel IH]; intros ps es g g' Hg Hperm E.
  - destruct ps as [|p ps]; [|done]. injection E as <-. apply map_empty. intros p. destruct (g_chans g !! p) as [c|] eqn:Ec; [|done].
    assert (p ∈ @nil positive) as []%elem_of_nil by (apply (ch_dom _ _ _ Hg); by eexists).
  - destruct ps as [|p ps].
    + injection E as <-. apply map_empty. intros p. destruct (g_chans g !! p) as [c|] eqn:Ec; [|done].
      assert (p ∈ @nil positive) as []%elem_of_nil by (apply (ch_dom _ _ _ Hg); by eexists).
    + cbn [free_loop head] in E. pose proof (ch_list _ _ _ Hg) as [ND _ _ [(c & Hc & _ & Hnext) _] _]. rewrite Hc in E.
      cbn [mbind option_bind] in E. destruct (xchannel_free p g) as [g1|] eqn:E1; [|done]. cbn [mbind option_bind] in E.
      destruct (xchannel_free_ok p g g1 (p :: ps) es Hg) as (a & b & a' & b' & Hps & -> & Hg1); [rewrite Hperm; by left|done|].
      assert (a = [] /\ b = ps) as [-> ->].
      { destruct a as [|q a]; simpl in Hps; [by injection Hps as <-|]. injection Hps as <- ->. exfalso.
        apply NoDup_cons in ND as [Hp _]. apply Hp, elem_of_app. right. by left. }
      assert (x_next c = head ps) as Hn by (rewrite Hnext; by destruct ps).
      rewrite Hn in E. apply (IH ps (a' ++ b') g1 g' Hg1); [|exact E].
      apply (Permutation_cons_inv (a := p)). by rewrite Permutation_middle.
Qed.

Lemma xmsger_free_all g g' : messenger_ok g -> xmsger_free g = Some g' -> g_chans g' = ∅.
Proof using Type.
  intros (ps & es & Hg & Hperm) E. unfold xmsger_free in E. rewrite (lo_first _ _ (ch_list _ _ _ Hg)) in E.
  destruct (free_loop _ _ g) as [g1|] eqn:E1; [|done]. cbn [mbind option_bind] in E.
  destruct (avl_tree_clear _) as [[t ?]|]; [|done]. injection E as <-. simpl. by eapply free_loop_all.
Qed.

(** [xltp_free] frees the messenger with all its channels before it frees
    the streams: while a stream is open, its channel is gone when
    [xlio_stream_free] takes the stream away from it. *)
Theorem free_with_stream_faults (x : xltp W) g p st c : messenger_ok (io_ms (lt_io x)) -> xmsger_free (io_ms (lt_io x)) = Some g ->
  io_pipe (lt_io x) = [] -> io_first (lt_io x) = At p -> io_streams (lt_io x) !! p = Some st -> s_channel st = Some c ->
  s_prev st = Head -> s_next st = Head ->
  g_chans g !! c = None /\ xltp_free sent x = None.
Proof using Type.
  intros Hok Hfree Hpipe Hfirst Hst Hc Hprev Hnext. pose proof (xmsger_free_all _ _ Hok Hfree) as Hch.
  split; [by rewrite Hch|]. set (i := lt_io x <| io_ms := g |>).
  assert (Hfault : faults (xlio_free sent) i).
  { unfold xlio_free. apply faults_bind, runs_gets. unfold i at 1. simpl. rewrite Hpipe. apply faults_bind, runs_modify, faults_bind, runs_gets.
    apply faults_bind, runs_gets. simpl. rewrite Hfirst.
    destruct (size (io_streams (lt_io x))) as [|n] eqn:Hs; [by apply map_size_empty_inv in Hs; rewrite Hs in Hst|].
    cbn [free_streams]. apply faults_bind. unfold stream. apply run_bind, runs_gets, (runs_lift _ st); [exact Hst|].
    rewrite Hprev, Hnext. apply faults_bind, runs_modify, faults_bind, runs_modify, faults_here.
    unfold xlio_stream_free. apply faults_bind. unfold stream. apply run_bind, runs_gets, (runs_lift _ st); [exact Hst|].
    rewrite Hc. do 2 apply faults_here. unfold faults, on_ms, xchannel_set_ctx, upd_chan. cbn. by rewrite Hch. }
  assert (E : within (on_ms (fun g => g ← xmsger_free g; Some (g, tt))) x = Some (x <| lt_io := i |>, Some tt))
    by (unfold within, on_ms; by rewrite Hfree).
  unfold xltp_free. unfold mbind at 1, L_bind at 1. rewrite E. unfold mbind at 1, L_bind at 1, within at 1.
  change (lt_io (x <| lt_io := i |>)) with i. by rewrite Hfault.
Qed.
End XltpFaults.

(** ** Small runs *)

(** A system on which there are no files and no directory can be made. *)
Definition no_files : Uv unit := {|
  uv_fs_open _ _ _ w := (w, -2); uv_fs_close _ w := (w, 0); uv_fs_read _ _ w := (w, (-9, [])); uv_fs_write _ _ w := (w, -9);
  lseek _ _ _ w := (w, -1); uv_fs_stat _ _ := (-2, 0, 0); uv_fs_mkdir _ _ w := (w, -13); uv_fs_opendir _ w := (w, (-2, 0));
  uv_fs_readdir _ w := (w, (0, ([], 0))); uv_fs_closedir _ w := w |}.

#[local] Existing Instance no_files.

Lemma demo_asks_ok name key : is_bytes name -> key_ok key -> key ≠ k_api -> doc_ok (demo_asks name key).
Proof.
  intros Hn Hk Hne. apply two_fields_ok; [split; [|simpl; lia]|done|done| |].
  - repeat (apply Forall_cons; split; [unfold is_byte; lia|]). by apply Forall_nil.
  - apply Forall_app. split; [done|]. apply Forall_cons. split; [unfold is_byte; lia|by apply Forall_nil].
  - repeat (apply Forall_cons; split; [unfold is_byte; lia|]). by apply Forall_nil.
Qed.

Lemma missing_get_faults_witness :
  (on_message_from_peer (fun _ => true) 9 5;;
   xltp_loop (fun _ => None) demo_new_frame demo_new_stream (fun _ => true) (fun _ => true) (fun _ => []) (fun _ => []) (fun _ => []) (fun _ => 0) (fun _ _ => None) 1)
    (demo_request tt (demo_asks n_get k_uri)) = None.
Proof.
  apply (missing_get_faults (fun _ => None) demo_new_frame demo_new_stream (fun _ => true) (fun _ => true) (fun _ => true) (fun _ => []) (fun _ => [])
    (fun _ => []) (fun _ => 0) (fun _ _ => None) (demo_request tt (demo_asks n_get k_uri)) 9 [] 5 (demo_asks n_get k_uri) [97]).
  - apply demo_works.
  - apply demo_request_at_rest; [vm_compute; discriminate|]. apply demo_asks_ok; [|split; [|simpl; lia]|done];
      repeat (apply Forall_cons; split; [unfold is_byte; lia|]); by apply Forall_nil.
  - by left.
  - by right; left.
  - apply demo_uri_ok.
  - done.
  - done.
Defined.
