(* ===== verification/XltpStart.v ===== *)
(** * Creating the protocol

    [xltp_create] registers the four calls in its tree, after which a request
    finds the handler of its name and no other. *)

From stdpp Require Import gmap.
From S2P Require Import Prelude Bytes Xline Lines Xformat Xtree XtreeMap Channel Messenger Files Xlio XlioRun Xltp Serving XltpDemo Handshake.

#[local] Open Scope Z_scope.

#[local] Ltac bytes := repeat (apply Forall_cons; split; [unfold is_byte; lia|]); by apply Forall_nil.

(** The calls by the paths of their names. *)
Definition registered (l : list (list Z * api)) : gmap (list Z) Z :=
  foldr (fun '(name, a) m => <[path name := address_of a]> m) ∅ l.

Definition all_calls : list (list Z * api) := [(n_get, api_get); (n_put, api_put); (n_boot, api_boot); (n_echo, api_echo)].

Lemma registered_lookup l key : Forall (fun p => is_bytes p.1) l -> is_bytes key ->
  registered l !! path key = address_of <$> (snd <$> List.find (fun p => bool_decide (p.1 = key)) l).
Proof.
  intros Hl Hk. induction l as [|[name a] l IH]; [done|]. apply Forall_cons in Hl as [Hn Hl]. cbn [registered foldr List.find fst].
  case_bool_decide as Hd; [subst; apply lookup_insert_eq|]. rewrite lookup_insert_ne; [by apply IH|].
  intros E. apply Hd. by apply path_inj.
Qed.

Lemma registered_size l : (size (registered l) <= length l)%nat.
Proof. induction l as [|[name a] l IH]; [done|]. simpl. rewrite map_size_insert. case_match; simpl; lia. Qed.

Section Start.
Context {W : Type} `{Uv W} (sent : io W -> bool) (calloc : store -> option positive) (Hcal : calloc_ok calloc).

(** The tree of the protocol has the calls [l]. *)
Definition has_calls (x : xltp W) (l : list (list Z * api)) : Prop :=
  exists root, lt_api x = Some root /\ tree_is (lt_tree x) root (registered l).

Lemma make_api_ok x l name a : has_calls x l -> Forall (fun p => is_bytes p.1) l -> is_bytes name -> name ≠ [] -> name ∉ l.*1 ->
  (length l < 4)%nat ->
  exists t, xltp_make_api calloc name a x = Some (x <| lt_tree := t |>, Some tt) /\ has_calls (x <| lt_tree := t |>) ((name, a) :: l).
Proof using Hcal.
  intros (root & Hr & Ht) Hl Hn Hne Hni Hlen. pose proof (registered_size l).
  destruct (add_tree_ok calloc (lt_tree x) root (registered l) name (address_of a) Hcal Ht Hn Hne) as (t & node & E & Ht'); [|lia|].
  { rewrite registered_lookup by done. destruct (List.find _ l) as [[k b]|] eqn:Ef; [|done].
    apply find_some in Ef as [Hin Hd%bool_decide_eq_true_1]. simpl in Hd. subst k. exfalso. apply Hni.
    apply list_elem_of_fmap. exists (name, b). split; [done|]. by apply list_elem_of_In. }
  exists t. split; [|by exists root]. unfold xltp_make_api. rewrite Hr. cbn [mbind option_bind]. rewrite E. done.
Qed.

(** What a request finds in such a tree. *)
Lemma has_calls_lookup x l key : has_calls x l -> Forall (fun p => is_bytes p.1) l -> is_bytes key ->
  lookup_of x key = Some (address_of <$> (snd <$> List.find (fun p => bool_decide (p.1 = key)) l)).
Proof using Type.
  intros (root & Hr & Ht) Hl Hk. unfold lookup_of. rewrite Hr. cbn [mbind option_bind].
  by rewrite (find_tree_ok _ _ _ _ Ht Hk), registered_lookup.
Qed.

(** Creating the protocol registers its four calls, and nothing else has
    happened to the store and the messenger: from then on a request that names
    one of them finds its handler, and any other name finds none. *)
Theorem apis_registered (i : io W) :
  exists x, xltp_create sent calloc i = Some (x, Some tt) /\ lt_io x = i /\ lt_pipe x = [] /\ apis_ready x
    /\ forall key, is_bytes key -> key ∉ all_calls.*1 -> lookup_of x key = Some None.
Proof using Hcal.
  destruct (xtree_create_ok calloc ∅ Hcal) as (t & root & E & Ht).
  assert (H0 : has_calls (mkxltp i t (Some root) []) []) by (by exists root).
  assert (Hn : Forall (fun p => is_bytes p.1) all_calls) by (repeat (apply Forall_cons; split; [bytes|]); by apply Forall_nil).
  pose proof (fun n => Forall_drop _ n _ Hn) as Hdrop.
  destruct (make_api_ok _ _ n_echo api_echo H0 (Hdrop 4%nat)) as (t1 & E1 & H1); [bytes|done|apply not_elem_of_nil|simpl; lia|].
  destruct (make_api_ok _ _ n_boot api_boot H1 (Hdrop 3%nat)) as (t2 & E2 & H2);
    [bytes|done|by apply (bool_decide_unpack (n_boot ∉ [n_echo])); vm_compute|simpl; lia|].
  destruct (make_api_ok _ _ n_put api_put H2 (Hdrop 2%nat)) as (t3 & E3 & H3);
    [bytes|done|by apply (bool_decide_unpack (n_put ∉ [n_boot; n_echo])); vm_compute|simpl; lia|].
  destruct (make_api_ok _ _ n_get api_get H3 (Hdrop 1%nat)) as (t4 & E4 & H4);
    [bytes|done|by apply (bool_decide_unpack (n_get ∉ [n_put; n_boot; n_echo])); vm_compute|simpl; lia|].
  fold all_calls in H4.
  eexists. split; [|split; [|split; [|split]]].
  - unfold xltp_create. rewrite E. cbn [mbind option_bind]. unfold l_clean, make_apis, mbind, L_bind. rewrite E1, E2, E3, E4. reflexivity.
  - done.
  - done.
  - split_and!; unfold knows; rewrite (has_calls_lookup _ _ _ H4) by first [exact Hn|bytes]; by vm_compute.
  - intros key Hk Hnot. rewrite (has_calls_lookup _ _ _ H4) by done. do 2 f_equal.
    destruct (List.find _ _) as [[k b]|] eqn:Ef; [|done]. apply find_some in Ef as [Hin Hd%bool_decide_eq_true_1]. simpl in Hd. subst k.
    exfalso. apply Hnot. apply list_elem_of_fmap. exists (key, b). split; [done|]. by apply list_elem_of_In.
Qed.
End Start.


Lemma apis_registered_witness :
  exists x, xltp_create (fun _ => true) fresh_calloc (lt_io (demo_request demo_disk [])) = Some (x, Some tt) /\ apis_ready x.
Proof.
  destruct (apis_registered (fun _ => true) fresh_calloc fresh_calloc_ok (lt_io (demo_request demo_disk []))) as (x & E & _ & _ & Hr & _).
  exists x. split; [exact E|exact Hr].
Defined.
